(* ===== verification/_CoqProject ===== *)
-Q . S2P
Prelude.v
Cpu.v
Debug.v
Arith.v
Shift.v
Xcptn.v
MulDiv.v
Decimal.v
Flow.v
Mem.v
Tlb.v
Page.v
Basic.v
Seg.v
Virt.v
Addr.v
Stack.v
Xfer.v
Intr.v
Wp.v
Ring.v
Real.v
Task.v
System.v
Regs.v
Ios.v
Oprnd.v
Code.v
Decode.v
Main.v
Guard.v
Strings.v
Ica.v
Dma.v
Qev.v
Timer.v
Cmos.v
Tod.v
