(* ===== verification/Prelude.v ===== *)
(** * A verification of the SoftPC CPU and memory core

    SoftPC emulates a 386 PC.  Its core is a CPU written in C, one routine per
    instruction ([src/src/app-softpc/softpc.new/base/ccpu386]): the routines work on
    global registers, report exceptions by setting a status and jumping out, and
    reach memory through segment checks, a page translation buffer and a physical
    memory of typed pages.  Devices interrupt it through two 8259 interrupt
    controllers; DMA, a timer, a clock and queues of timed events complete the board.
    Around it stand the PC's other devices, most of the BIOS, the video adapters and a
    host layer, which are not modelled.  File names below are those of
    [ccpu386] unless a path is given.

    ** The files

    - [Prelude] (this file): fixed width integers as [Z] with their casts written
      out, bit operations, the state and exception monad [M], and the lemmas, hints
      and tactics on words the other files share.
    - [Cpu]: the register file of [c_reg.h] as a record ([GREGS], [FLAGS], [SREGS],
      [CREGS], the system address registers) with the exception status of
      [c_xcptn.c]; the class [HasCpu] of states that contain it, so that the same
      routine runs on bare registers or on a whole machine.
    - [Debug] ([c_debug.c]; [machine/debug.c] for what is reported to the host
      debugger): breakpoint tables, the watch and the bounded trace of accesses.
    - [Arith] ([add.c], [adc.c], [sub.c], [sbb.c], [cmp.c], [neg.c], [inc.c],
      [dec.c], [and.c], [or.c], [xor.c], [test.c], [not.c]).
    - [Shift] ([shl.c], [shr.c], [sar.c], [rol.c], [ror.c], [rcl.c], [rcr.c],
      [shld.c], [shrd.c], [bt.c], [bts.c], [btr.c], [btc.c], [bsf.c], [bsr.c] and
      [do_multiple_shiftrot_of] of [c_bsic.c]).
    - [Xcptn] ([c_xcptn.c], [check_interface_active] of [c_xtrn.c],
      [load_pseudo_descr] of [c_seg.c], [c_cpu_reset] of [c_main.c]).
    - [MulDiv] ([c_neg64.c], [c_mul64.c], [c_div64.c], [mul.c], [imul.c], [div.c],
      [idiv.c]).
    - [Decimal] (decimal adjusts, sign extensions, [xchg.c], [lahf.c], [sahf.c] and
      the single flag instructions).
    - [Flow] ([jxx.c], [setxx.c], [loopxx.c], [jcxz.c], [update_relative_ip] of
      [c_xfer.c]).
    - [Mem] ([ccpusas4.c]): physical memory, memory types and 20-bit wrapping.
    - [Tlb] ([c_tlb.c]): the machine (registers, memory, buffer), [lin2phy],
      [xtrn2phy], [test_tlb], [flush_tlb].  It uses memory through the class
      [PhyMem] with its laws [PhyMemLaws]; [Mem] is shown to be an instance.
    - [Page] ([c_page.c]): access checks and paged reads and writes.
    - [Basic] ([c_bsic.c], [c_bsic.h]): EFLAGS and selectors.
    - [Seg] ([read_descriptor_linear] of [c_bsic.c], [c_prot.c], [c_seg.c]):
      descriptors and segment register loads.
    - [Virt] (the [vir_] routines of [c_page.c]): operand accesses, which check the
      data breakpoints and tell the host debugger.
    - [Addr] ([c_addr.c]): the ModR/M and SIB tables, effective addresses and limits.
      The instruction stream is the class [Fetch].
    - [Stack] ([c_stack.c], the push, pop, ENTER, LEAVE, near call and return files).
    - [Xfer] ([c_xfer.c], [c_tsksw.c], [call.c], [jmp.c], [ret.c], [mov.c]): gates,
      far transfers, task switches, moves to control registers.
    - [Intr] ([c_intr.c], [intx.c], [into.c], [bound.c], [iret.c]): delivery of
      interrupts and exceptions and the return from them.
    - [Wp]: weakest preconditions of computations and, through the class [PhyQuiet]
      (an access to physical memory ends without an exception), what each access
      routine leaves alone.  [Ring], [Real] and [Task] state the theorems of [Xfer]
      and [Intr]: the protection rings, the real mode round trips, and the round trip
      of a task's state through its TSS.
    - [System] (descriptor table, task register, machine status word, selector query
      and pointer load files; [c_xtrn.c]): the system instructions and the calls other
      parts of the emulator make into the CPU.
    - [Regs] ([c_reg.c], [compat/ccpu/snapshot.h]): the accessors of the registers and
      the snapshot of the register file.
    - [Ios] ([base/support/ios.c], [in.c], [out.c]): the routing of I/O ports to
      devices, which are the class [Adapters].
    - [Oprnd] ([c_oprnd.h], the instruction stream of [c_main.c]): the whole emulator
      state [exec] around the machine of [Tlb], the host pointer into the code page and
      every operand macro.  [Code] relates the host pointer to CS:EIP.
    - [Decode] (the switch of [ccpu] in [c_main.c], [check_io_permission_map]): every
      opcode, one- and two-byte, with the string instructions and their repetition.
    - [Main] (the rest of [c_main.c]): the instruction boundary, halt, exceptions, the
      heartbeat of quick events, the mailbox other threads use, the execution snapshot.
      What the CPU calls outside itself is the class [Host].
    - [Guard] and [Strings] state theorems of [Decode] and [Main]: what instructions
      outside ring 0 leave alone, and the block copy.
    - [Ica] ([base/system/ica.c], [base/inc/ica.h]): the interrupt controllers, with
      their command ports, the acknowledge cycle and end of interrupt.
    - [Dma] ([base/system/at_dma.c], [base/inc/dma.h]): the DMA controllers, over [Mem]
      for the memory they reach and [Ios] for their ports.
    - [Qev] ([base/system/quick_ev.c], [base/inc/quick_ev.h]): the queues of events
      dispatched after a number of instructions or of timer ticks, their calibration
      against the host's clock and their snapshot.
    - [Timer] ([base/system/timer.c]): the 8253 with its three counters, their state
      functions, latches and clocks, the interrupts of counter 0 and its snapshot.
    - [Cmos] ([base/system/cmos.c], [base/bios/cmos_bis.c], [base/system/timestrb.c]):
      the real time clock and the CMOS memory, its alarm and periodic events on the tick
      queue of [Qev], its ports on the bus of [Ios], the power-on check of its contents
      and the text of its snapshot.
    - [Tod] ([base/support/time_day.c]): the BIOS's time of day, which counts the timer's
      interrupts in guest memory and reads and sets the clock of [Cmos].

    ** How the code is represented

    A value of an unsigned C type is a [Z] in its range; an operation that can leave
    the range is followed by [u8], [u16] or [u32].  A routine that cannot fault is a
    function on the state it changes; one that can is a computation in [M], whose
    outcome is a result, a raised exception or [Undefined] (what C leaves undefined:
    an overflowing division, a read beyond a table).  An exception routine raises
    [Intrupt] with the arguments of its [do_intrupt] call; code that follows a call
    of such a routine is kept and shown not to run.  Tracing and printing are left
    out.  Preprocessor alternatives are those of the build: CPU_40_STYLE, CCPU,
    SPC386, LIM, EGG, VGG, FAST_TLB on; SPC486, PIG, NTVDM and BACK_M are errors in
    the source.

    Parameters: whether multiple shifts leave OF undefined ([SHIFTROT_OF_UNDEF], an
    environment variable), the value read beyond memory ([junk_value], another one)
    and the handlers the devices install for video and expanded memory ([Handlers]),
    of which no theorem assumes anything; the end of interrupt hooks and action
    callbacks devices register ([eoi_hook], [run_callback]), of which
    [accept_then_eoi] assumes that a hook leaves the registers of the controllers other
    than requests alone; the devices on the ports and the host and BIOS calls of the
    CPU ([Adapters], [Host]), of which [unprivileged_contained] assumes that they leave
    the system registers of the CPU alone; the position query of the sound card
    ([Sound]), of which [registers_typed] assumes that it keeps the types; the functions
    of events and the host's clock ([Callbacks], [Clock]), of which the theorems of
    [Qev] assume that an event's function leaves the queues alone; what the timer calls
    ([Timer.Env]), of which its theorems assume that it does not call back ([QuietEnv]);
    the configuration and the host's clock of the CMOS ([Config], [Env] of [Cmos]); what
    the time of day calls ([TodEnv], [HasTod]), of which its theorems assume that stores
    to guest memory change only that memory ([GuestMemory], [GuestBytes]) and, for
    [time_read_back], that the host's clock stands still between the two calls.

    ** What is proved

    - Arithmetic, logic, shifts, rotates, multiplication, division and decimal
      adjusts compute the integer function they name, on every operand size, with
      the flags the result implies; rotations, carry chains and LAHF/SAHF round trip;
      the conditional jumps after CMP decide the integer comparison; LOOP ends after
      as many rounds as its counter says.
    - Exceptions escalate as documented; in protected mode at most three deliveries
      can fail in a row before a reset, in real mode there is no such bound; a reset
      fixes every register it should.
    - Physical memory: what is written to RAM is read back and nothing else changes;
      reads always return; exactly which word writes are undefined; ROM is protected;
      20-bit wrapping aliases addresses modulo 1M.
    - Translation: the fast index and the buffer keep their invariant under every
      operation; [lin2phy] refines a walk of the page tables, faults included;
      flushing forgets everything; exactly where [xtrn2phy] is more permissive.
    - Paged accesses across page boundaries round trip; EFLAGS updates respect
      privilege; descriptors decode to the fields they were made from; a data segment
      loads exactly when type, privilege and presence allow it.
    - Addresses: [d_mem] computes, from its tables, the address the manual's formula
      for the ModR/M byte gives; [limit_check] faults exactly when a byte of the
      operands is outside the segment; a data breakpoint traps exactly the accesses
      that overlap an enabled area.
    - The stack: ENTER and LEAVE, PUSHA and POPA, near calls and returns restore the
      registers and the stack pointer.
    - Protection: after every far transfer, interrupt and return the current privilege
      is the one in CS; no return and no jump lowers the privilege number, and no call
      raises it; delivering an exception ends, after at most four calls of
      [do_intrupt], in a handler, a new task or a reset.
    - Real mode: IRET undoes an interrupt and RETF a far call; a task switched out and
      in again finds its registers, flags and selectors.
    - VERR says beforehand whether a data segment register load will succeed; a
      snapshot of the registers restores the register file, from any state; a segment
      load asked for by another component reports the exception it met and changes
      nothing else.
    - The instruction stream: the bytes the decoder gets through the host pointer, over
      page boundaries, are those at CS:EIP, and EIP ends after them.
    - One step of the main loop outside ring 0, whatever the instruction and whatever
      exception or interrupt it meets, keeps the descriptor table registers, CR0 and the
      breakpoints, or ends in a reset.
    - A repeated MOVS is a block copy.
    - Ports: on every bus the emulator can build an access reaches a routine; wide
      accesses are byte accesses in order unless a device says otherwise.
    - Interrupts: the scan finds exactly the line an 8259 lets through; end of
      interrupt undoes what accepting a line did to the in-service register; after
      initialisation every unmasked line is delivered with its vector, slave lines
      through the master, and masked lines are not.
    - DMA: a request, split into block moves at the ends of its 64K units, does what a
      controller does that moves one unit at a time; a guest that programs a channel by
      OUT instructions makes the adaptor report that address and count; the registers
      keep their types under every sequence of accesses, requests and restores.
    - Events: the tick queue, with its lists of relative times, hash chains, free list
      and counter, refines an agenda of jobs with the ticks each has left, under every
      sequence of requests, cancellations and ticks; an event that is not cancelled runs
      once, at its tick.
    - The timer: whatever a guest does with its ports and gates, and whatever the clock of
      the host says, no access or tick calls a null state function or divides by zero, but
      for one sequence that is shown to; a latched count is read back whole; a snapshot of
      any state it can come to is accepted and brings it back.
    - The CMOS: what a guest reads and writes through its two ports is an abstract chip of
      64 bytes with read-only and clear-on-read registers; the power-on check repairs the
      configuration bytes and their checksum; [set_alarm] puts the alarm in the agenda of
      [Qev], eighteen ticks for each second until its time of day comes round; the text of
      a time is read back; with rate 0 the periodic event never returns.
    - The time of day: reading the clock through the BIOS gives the clock's registers; the
      count of the day goes on by one each interrupt, modulo the 1,573,040 ticks of a day;
      a time that is set is read back within 93 ticks.

    ** Bounds

    The scans of BSF and BSR run at most 32 steps (one per bit of the operand), the
    64-bit division helper 64 rounds (one per bit of the dividend, as in the source).
    [phyR] has fuel 2: it calls itself only on single bytes, which have one memory
    type and do not recur ([reads_terminate]).  [loop_run] has the fuel its theorem
    asks for.  The TLB loops run over the 4 sets and 8 entries of the source.
    [ica_interrupt_cpu] and [clear_int] have fuel 2, the slave and then the master,
    which is enough because the first adapter is the master ([quiet_interrupt]);
    [deliver] has fuel 4, a first exception and three that escalate it
    ([delivery_terminates]); the scans of the controllers run over their 8 lines.
    [take_exception] has the fuel of [deliver], for the same reason.  A repeated string
    instruction runs as many rounds as the count register says ([while_count], by
    recursion on the count).  [dispatch_event] has fuel for the events on the queue, one
    round each ([dispatch_run]).  The callbacks of the CMOS have a depth, that of the host's
    stack: an event's function can add another event that is due at once.  The main loop itself does not end: [step] is one round.

    ** Not modelled

    The coprocessor works in the host's floating point.  The other devices (serial and
    parallel ports, disks, keyboard and mouse), the rest of the BIOS, the video adapters
    and the host layer are not modelled; most of the video code is generated. *)

From stdpp Require Export base numbers list.
From Stdlib Require Export ZArith Lia Btauto.

(** * Machine integers

    The C code works on the fixed-width types of [host_def.h]: IU8, IU16 and
    IU32 are unsigned, IS32 is two's complement.  A value of an unsigned type
    is a [Z] in its range and every operation that can leave the range is
    followed by the cast the C type implies. *)

Declare Scope cword_scope.
Delimit Scope cword_scope with cw.

#[global] Open Scope Z_scope.

Definition u8 (z : Z) : Z := z mod 2 ^ 8.
Definition u16 (z : Z) : Z := z mod 2 ^ 16.
Definition u32 (z : Z) : Z := z mod 2 ^ 32.

(** The signed reading of the low [w] bits of [z]. *)
Definition sgn (w z : Z) : Z :=
  let u := z mod 2 ^ w in if u <? 2 ^ (w - 1) then u else u - 2 ^ w.

Definition s32 (z : Z) : Z := sgn 32 z.

(** C's [!= 0] test, as the 0/1 value an expression of that form has. *)
Definition nz (z : Z) : Z := Z.b2z (negb (z =? 0)).

(** C's [~] on an IU32. *)
Definition not32 (z : Z) : Z := u32 (Z.lnot z).

Infix ".&" := Z.land (at level 40, left associativity) : cword_scope.
Infix ".|" := Z.lor (at level 50, left associativity) : cword_scope.
Infix ".^" := Z.lxor (at level 50, left associativity) : cword_scope.
Notation "a .<< n" := (u32 (Z.shiftl a n)) (at level 40, left associativity) : cword_scope.
Notation "a .>> n" := (Z.shiftr a n) (at level 40, left associativity) : cword_scope.

#[global] Open Scope cword_scope.

(** The masks of [c_main.h]. *)
Definition BYTE_MASK : Z := 0xff.
Definition WORD_MASK : Z := 0xffff.
Definition BIT_MASK (n : Z) : Z := 2 ^ n.

(** [SZ2MSB] and [SZ2MASK] of [c_main.h]: operand size in bits to the mask of
    its most significant bit and to the mask of the whole operand. *)
Definition SZ2MSB (x : Z) : Z := 0x80000000 .>> (32 - x).
Definition SZ2MASK (x : Z) : Z := 0xffffffff .>> (32 - x).

(** The operand sizes the instruction routines are called with. *)
Definition op_size (sz : Z) : Prop := sz = 8 \/ sz = 16 \/ sz = 32.

(** * Computations

    The CPU routines mutate global state, may leave through an exception
    ([c_cpu_continue], a long jump) and in a few places reach an operation C
    leaves undefined.  [M E St A] is a computation over the state [St] with
    exceptions [E]. *)

Inductive outcome (E St A : Type) : Type :=
| Ret (a : A) (s : St)
| Raise (e : E) (s : St)
| Undefined.
Arguments Ret {E St A} a s.
Arguments Raise {E St A} e s.
Arguments Undefined {E St A}.

Definition M (E St A : Type) : Type := St -> outcome E St A.

Definition ret {E St A} (a : A) : M E St A := fun s => Ret a s.
Definition bind {E St A B} (m : M E St A) (k : A -> M E St B) : M E St B :=
  fun s => match m s with
           | Ret a s' => k a s'
           | Raise e s' => Raise e s'
           | Undefined => Undefined
           end.
Definition throw {E St A} (e : E) : M E St A := fun s => Raise e s.
Definition undefined {E St A} : M E St A := fun _ => Undefined.
Definition get {E St} : M E St St := fun s => Ret s s.
Definition gets {E St A} (f : St -> A) : M E St A := fun s => Ret (f s) s.
Definition modify {E St} (f : St -> St) : M E St unit := fun s => Ret tt (f s).
Definition when {E St} (b : bool) (m : M E St unit) : M E St unit :=
  if b then m else ret tt.

Declare Scope cpu_scope.
Delimit Scope cpu_scope with cpu.
Notation "x <- m ;; k" := (bind m (fun x => k))
  (at level 100, m at next level, right associativity) : cpu_scope.
Notation "'let!' p := m ;; k" := (bind m (fun x => match x with p => k end))
  (at level 100, p pattern, m at next level, right associativity) : cpu_scope.
Notation "m ;; k" := (bind m (fun _ => k))
  (at level 100, right associativity) : cpu_scope.
#[global] Open Scope cpu_scope.

(** Running a sequence by running its head. *)
Lemma bind_ret {E St A B} (m : M E St A) (k : A -> M E St B) s a s' :
  m s = Ret a s' -> bind m k s = k a s'.
Proof. intros Hm. unfold bind. rewrite Hm. reflexivity. Qed.

Lemma bind_raise {E St A B} (m : M E St A) (k : A -> M E St B) s e s' :
  m s = Raise e s' -> bind m k s = Raise e s'.
Proof. intros Hm. unfold bind. rewrite Hm. reflexivity. Qed.

(** ** Computations with the same runs *)

#[export] Instance M_equiv {E St A} : Equiv (M E St A) := fun m m' => forall s, m s = m' s.
#[export] Instance M_equivalence {E St A} : Equivalence (≡@{M E St A}).
Proof. split; [intros m s; reflexivity | intros m m' HM s; auto | intros m m' m'' H1 H2 s; rewrite H1; apply H2]. Qed.

#[export] Instance bind_proper {E St A B} : Proper (equiv ==> pointwise_relation A equiv ==> equiv) (@bind E St A B).
Proof. intros m m' HM k k' HK s. unfold bind. rewrite HM. destruct (m' s); [apply HK | reflexivity..]. Qed.

Section Laws.
Context {E St : Type}.

Lemma bind_ret_l {A B} (a : A) (k : A -> M E St B) : bind (ret a) k ≡ k a.
Proof. intros s. reflexivity. Qed.
Lemma bind_ret_r (m : M E St unit) : bind m (fun _ => ret tt) ≡ m.
Proof. intros s. unfold bind. destruct (m s) as [[] ?| |]; reflexivity. Qed.
Lemma bind_assoc {A B C} (m : M E St A) (k : A -> M E St B) (k' : B -> M E St C) s :
  bind (bind m k) k' s = bind m (fun a => bind (k a) k') s.
Proof. unfold bind. destruct (m s); reflexivity. Qed.
Lemma bind_bind {A B C} (m : M E St A) (k : A -> M E St B) (k' : B -> M E St C) :
  bind (bind m k) k' ≡ bind m (fun a => bind (k a) k').
Proof. intros s. apply bind_assoc. Qed.

End Laws.

(** * Lemmas on words *)

Lemma pow2_pos w : 0 <= w -> 0 < 2 ^ w.
Proof. intros; apply Z.pow_pos_nonneg; lia. Qed.

Lemma u32_range z : 0 <= u32 z < 2 ^ 32.
Proof. apply Z.mod_pos_bound; lia. Qed.

Lemma u16_range z : 0 <= u16 z < 2 ^ 16.
Proof. apply Z.mod_pos_bound; lia. Qed.

Lemma u8_range z : 0 <= u8 z < 2 ^ 8.
Proof. apply Z.mod_pos_bound; lia. Qed.

Lemma u32_small z : 0 <= z < 2 ^ 32 -> u32 z = z.
Proof. apply Z.mod_small. Qed.

Lemma u16_small z : 0 <= z < 2 ^ 16 -> u16 z = z.
Proof. apply Z.mod_small. Qed.

Lemma u8_small z : 0 <= z < 2 ^ 8 -> u8 z = z.
Proof. apply Z.mod_small. Qed.

Lemma mod_mod_le z m n : 0 <= m <= n -> (z mod 2 ^ n) mod 2 ^ m = z mod 2 ^ m.
Proof.
  intros [Hm Hmn]. pose proof (pow2_pos m Hm).
  replace (2 ^ n) with (2 ^ m * 2 ^ (n - m)) by (rewrite <- Z.pow_add_r; f_equal; lia).
  pose proof (pow2_pos (n - m) ltac:(lia)).
  rewrite Z.rem_mul_r by lia.
  rewrite (Z.mul_comm (2 ^ m) (_ mod _)), Z_mod_plus_full. apply Z.mod_mod. lia.
Qed.

Lemma op_size_range sz : op_size sz -> 8 <= sz <= 32.
Proof. unfold op_size; lia. Qed.

Lemma SZ2MSB_pow sz : op_size sz -> SZ2MSB sz = 2 ^ (sz - 1).
Proof. intros [-> | [-> | ->]]; reflexivity. Qed.

Lemma SZ2MASK_ones sz : op_size sz -> SZ2MASK sz = Z.ones sz.
Proof. intros [-> | [-> | ->]]; reflexivity. Qed.

Lemma land_SZ2MASK x sz : op_size sz -> Z.land x (SZ2MASK sz) = x mod 2 ^ sz.
Proof.
  intros H. rewrite SZ2MASK_ones, Z.land_ones; auto.
  apply op_size_range in H; lia.
Qed.

Lemma land_u32_SZ2MASK x sz :
  op_size sz -> Z.land (u32 x) (SZ2MASK sz) = x mod 2 ^ sz.
Proof.
  intros H. rewrite land_SZ2MASK by assumption. unfold u32.
  apply mod_mod_le. apply op_size_range in H; lia.
Qed.

Lemma land_mask x n : 0 <= n -> Z.land x (2 ^ n - 1) = x mod 2 ^ n.
Proof.
  intros. rewrite <- Z.land_ones by lia. rewrite Z.ones_equiv.
  reflexivity.
Qed.

Lemma land_pow2 x n : 0 <= n -> Z.land x (2 ^ n) = if Z.testbit x n then 2 ^ n else 0.
Proof.
  intros Hn. apply Z.bits_inj'; intros i Hi.
  rewrite Z.land_spec, Z.pow2_bits_eqb by lia.
  destruct (Z.eqb_spec n i) as [-> | Hne].
  - destruct (Z.testbit x i) eqn:E; simpl.
    + rewrite Z.pow2_bits_true by lia. reflexivity.
    + rewrite Z.testbit_0_l. reflexivity.
  - rewrite andb_false_r. destruct (Z.testbit x n).
    + rewrite Z.pow2_bits_false by lia. reflexivity.
    + rewrite Z.testbit_0_l. reflexivity.
Qed.

Lemma nz_land_pow2 x n : 0 <= n -> nz (Z.land x (2 ^ n)) = Z.b2z (Z.testbit x n).
Proof.
  intros Hn. unfold nz. rewrite land_pow2 by assumption.
  pose proof (pow2_pos n Hn).
  destruct (Z.testbit x n); [|reflexivity].
  destruct (Z.eqb_spec (2 ^ n) 0); [lia | reflexivity].
Qed.

Lemma nz_land_msb x sz :
  op_size sz -> nz (Z.land x (SZ2MSB sz)) = Z.b2z (Z.testbit x (sz - 1)).
Proof.
  intros H. rewrite SZ2MSB_pow by assumption. apply nz_land_pow2.
  apply op_size_range in H; lia.
Qed.

Lemma testbit_ge_half x n :
  0 <= n -> 0 <= x < 2 ^ (n + 1) -> Z.testbit x n = (2 ^ n <=? x).
Proof.
  intros Hn Hx. pose proof (pow2_pos n Hn).
  replace (2 ^ (n + 1)) with (2 * 2 ^ n) in Hx
    by (rewrite Z.pow_add_r by lia; lia).
  rewrite Z.testbit_eqb by lia.
  destruct (Z.leb_spec (2 ^ n) x).
  - replace (x / 2 ^ n) with 1; [reflexivity|].
    apply Z.div_unique with (x - 2 ^ n); lia.
  - rewrite Z.div_small by lia. reflexivity.
Qed.

Lemma msb_ge_half x sz :
  1 <= sz -> 0 <= x < 2 ^ sz -> Z.testbit x (sz - 1) = (2 ^ (sz - 1) <=? x).
Proof.
  intros Hs Hx. apply testbit_ge_half; [lia|].
  replace (sz - 1 + 1) with sz by lia. assumption.
Qed.

Lemma pow2_split sz : 1 <= sz -> 2 ^ sz = 2 * 2 ^ (sz - 1).
Proof. intros. rewrite <- Z.pow_succ_r by lia. f_equal; lia. Qed.

Lemma sgn_cases w x :
  1 <= w -> 0 <= x < 2 ^ w ->
  sgn w x = if Z.testbit x (w - 1) then x - 2 ^ w else x.
Proof.
  intros Hw Hx. unfold sgn. rewrite Z.mod_small by assumption.
  rewrite msb_ge_half by assumption.
  destruct (Z.ltb_spec x (2 ^ (w - 1))), (Z.leb_spec (2 ^ (w - 1)) x); lia.
Qed.

Lemma sgn_range w x : 1 <= w -> - 2 ^ (w - 1) <= sgn w x < 2 ^ (w - 1).
Proof.
  intros Hw. unfold sgn.
  pose proof (Z.mod_pos_bound x (2 ^ w) (pow2_pos w ltac:(lia))).
  pose proof (pow2_split w Hw).
  destruct (Z.ltb_spec (x mod 2 ^ w) (2 ^ (w - 1))); lia.
Qed.

Lemma sgn_mod w x : 1 <= w -> sgn w x mod 2 ^ w = x mod 2 ^ w.
Proof.
  intros Hw. unfold sgn. pose proof (pow2_pos w ltac:(lia)).
  destruct (_ <? _); [apply Z.mod_mod; lia|].
  rewrite <- (Z_mod_plus_full _ 1 (2 ^ w)).
  replace (x mod 2 ^ w - 2 ^ w + 1 * 2 ^ w) with (x mod 2 ^ w) by lia.
  apply Z.mod_mod; lia.
Qed.

Lemma testbit_odd_div x i : 0 <= i -> Z.testbit x i = Z.odd (x / 2 ^ i).
Proof. intros. rewrite Z.testbit_odd, Z.shiftr_div_pow2 by lia. reflexivity. Qed.

(** The carry into bit [i] of [a + b + c] is bit [i] of
    [a xor b xor (a + b + c)]; this is how the adder routines read their
    half-carry and carry flags off one expression. *)
Lemma carry_into a b c i :
  0 <= i -> 0 <= c <= 1 ->
  Z.testbit (Z.lxor (Z.lxor a b) (a + b + c)) i
  = (2 ^ i <=? a mod 2 ^ i + b mod 2 ^ i + c).
Proof.
  intros Hi Hc. pose proof (pow2_pos i Hi) as Hp.
  rewrite !Z.lxor_spec, !testbit_odd_div by lia.
  pose proof (Z_div_mod_eq_full a (2 ^ i)) as Ha.
  pose proof (Z_div_mod_eq_full b (2 ^ i)) as Hb.
  pose proof (Z.mod_pos_bound a (2 ^ i) Hp).
  pose proof (Z.mod_pos_bound b (2 ^ i) Hp).
  set (k := if 2 ^ i <=? a mod 2 ^ i + b mod 2 ^ i + c then 1 else 0).
  assert (Hk : (a + b + c) / 2 ^ i = a / 2 ^ i + b / 2 ^ i + k).
  { symmetry. apply Z.div_unique with (a mod 2 ^ i + b mod 2 ^ i + c - k * 2 ^ i).
    - left. unfold k. destruct (Z.leb_spec (2 ^ i) (a mod 2 ^ i + b mod 2 ^ i + c)); lia.
    - lia. }
  rewrite Hk, !Z.odd_add. unfold k.
  destruct (_ <=? _), (Z.odd (a / 2 ^ i)), (Z.odd (b / 2 ^ i)); reflexivity.
Qed.

(** The borrow into bit [i] of [a - b - c], read the same way. *)
Lemma borrow_into a b c i :
  0 <= i -> 0 <= c <= 1 ->
  Z.testbit (Z.lxor (Z.lxor a b) (a - b - c)) i
  = (a mod 2 ^ i <? b mod 2 ^ i + c).
Proof.
  intros Hi Hc. pose proof (pow2_pos i Hi) as Hp.
  rewrite !Z.lxor_spec, !testbit_odd_div by lia.
  pose proof (Z_div_mod_eq_full a (2 ^ i)) as Ha.
  pose proof (Z_div_mod_eq_full b (2 ^ i)) as Hb.
  pose proof (Z.mod_pos_bound a (2 ^ i) Hp).
  pose proof (Z.mod_pos_bound b (2 ^ i) Hp).
  set (k := if a mod 2 ^ i <? b mod 2 ^ i + c then 1 else 0).
  assert (Hk : (a - b - c) / 2 ^ i = a / 2 ^ i - b / 2 ^ i - k).
  { symmetry. apply Z.div_unique with (a mod 2 ^ i - b mod 2 ^ i - c + k * 2 ^ i).
    - left. unfold k. destruct (Z.ltb_spec (a mod 2 ^ i) (b mod 2 ^ i + c)); lia.
    - lia. }
  rewrite Hk, !Z.odd_sub. unfold k.
  destruct (_ <? _), (Z.odd (a / 2 ^ i)), (Z.odd (b / 2 ^ i)); reflexivity.
Qed.

Lemma testbit_one i : 0 < i -> Z.testbit 1 i = false.
Proof. intros. destruct i; [lia | reflexivity | reflexivity]. Qed.

(** Bitwise operations stay within a word. *)
Lemma range_bits x n :
  0 <= n -> (0 <= x < 2 ^ n <-> forall i, n <= i \/ i < 0 -> Z.testbit x i = false).
Proof.
  intros Hn. split.
  - intros Hx i [Hi | Hi]; [|apply Z.testbit_neg_r; lia].
    rewrite testbit_odd_div by lia. rewrite Z.div_small; [reflexivity|].
    split; [lia|]. apply Z.lt_le_trans with (2 ^ n); [lia|].
    apply Z.pow_le_mono_r; lia.
  - intros H. replace x with (x mod 2 ^ n); [apply Z.mod_pos_bound, pow2_pos; lia|].
    apply Z.bits_inj'. intros i Hi. destruct (Z.lt_ge_cases i n).
    + apply Z.mod_pow2_bits_low; lia.
    + rewrite Z.mod_pow2_bits_high, H by lia. reflexivity.
Qed.

Lemma land_range a b n : 0 <= n -> 0 <= a < 2 ^ n -> 0 <= b < 2 ^ n -> 0 <= Z.land a b < 2 ^ n.
Proof.
  intros Hn Ha Hb. rewrite range_bits in * by lia. intros i Hi.
  rewrite Z.land_spec, Ha, Hb by lia. reflexivity.
Qed.

Lemma lor_range a b n : 0 <= n -> 0 <= a < 2 ^ n -> 0 <= b < 2 ^ n -> 0 <= Z.lor a b < 2 ^ n.
Proof.
  intros Hn Ha Hb. rewrite range_bits in * by lia. intros i Hi.
  rewrite Z.lor_spec, Ha, Hb by lia. reflexivity.
Qed.

Lemma lxor_range a b n : 0 <= n -> 0 <= a < 2 ^ n -> 0 <= b < 2 ^ n -> 0 <= Z.lxor a b < 2 ^ n.
Proof.
  intros Hn Ha Hb. rewrite range_bits in * by lia. intros i Hi.
  rewrite Z.lxor_spec, Ha, Hb by lia. reflexivity.
Qed.

Lemma not32_mod x n : 0 <= n <= 32 -> 0 <= x < 2 ^ n -> not32 x mod 2 ^ n = 2 ^ n - 1 - x.
Proof.
  intros Hn Hx. unfold not32, u32. rewrite mod_mod_le by lia. unfold Z.lnot, Z.pred.
  symmetry. apply Z.mod_unique with (-1); lia.
Qed.

(** Bits of a concatenation. *)
Lemma concat_bits k hi lo j :
  0 <= k -> 0 <= lo < 2 ^ k -> 0 <= j ->
  Z.testbit (hi * 2 ^ k + lo) j = if j <? k then Z.testbit lo j else Z.testbit hi (j - k).
Proof.
  intros Hk Hlo Hj. destruct (Z.ltb_spec j k).
  - rewrite <- (Z.mod_pow2_bits_low (hi * 2 ^ k + lo) k j) by lia.
    rewrite Z.add_comm, Z_mod_plus_full, Z.mod_small by lia. reflexivity.
  - replace j with (j - k + k) at 1 by lia. rewrite <- Z.div_pow2_bits by lia.
    rewrite Z.div_add_l, Z.div_small by lia. f_equal. lia.
Qed.

(** Two fields side by side. *)
Lemma join_lor lo hi k : 0 <= k -> 0 <= lo < 2 ^ k -> Z.shiftl hi k .| lo = lo + 2 ^ k * hi.
Proof.
  intros Hk Hlo. rewrite Z.shiftl_mul_pow2 by lia. apply Z.bits_inj'. intros i Hi.
  rewrite Z.lor_spec, (Z.mul_comm (2 ^ k)). destruct (Z.ltb_spec i k).
  - rewrite Z.mul_pow2_bits_low by lia. rewrite <- (Z.mod_pow2_bits_low (lo + _) k) by lia.
    rewrite Z_mod_plus_full, Z.mod_small by lia. reflexivity.
  - rewrite (proj1 (range_bits lo k Hk) Hlo i) by lia. rewrite orb_false_r.
    replace i with (i - k + k) by lia. rewrite <- !Z.div_pow2_bits by lia.
    rewrite Z.div_add, (Z.div_small lo), Z.div_mul by lia. reflexivity.
Qed.

(** * Automation *)

Create HintDb cword.
#[export] Hint Resolve pow2_pos u32_range u16_range u8_range op_size_range : cword.
#[export] Hint Extern 4 (_ <= _) => lia : cword.
#[export] Hint Extern 4 (_ < _) => lia : cword.

(** Case analysis on every bit test of the goal. *)
Ltac btest :=
  repeat match goal with
         | |- context [Z.testbit ?x ?i] => destruct (Z.testbit x i) eqn:?
         end; try reflexivity.

(** Case analysis on every order test of the goal. *)
Ltac split_leb :=
  repeat match goal with
         | |- context [?x <=? ?y] => destruct (Z.leb_spec x y)
         | |- context [?x <? ?y] => destruct (Z.ltb_spec x y)
         end.

(** Remove the casts that do nothing, innermost first. *)
Ltac u32_inner :=
  repeat match goal with
         | |- context [u32 ?x] =>
             lazymatch x with
             | context [u32 _] => fail
             | _ => rewrite (u32_small x) by lia
             end
         end.
