(* ===== verification/Cpu.v ===== *)
(** * CPU registers and exception state

    The register file of the C CPU ([c_reg.h], with the storage declared in
    [c_main.c]) and the interrupt and fault status of [c_xcptn.c].  The debug
    and test registers and the NPX state are not part of the record.

    An array of the source that is only indexed by named constants is a record
    with one field per constant ([CCPU_GR] is [GREGS], [CCPU_SR] is [SREGS],
    [CCPU_FLAGS] is [FLAGS], [CCPU_CR] is [CREGS]); the accessor macros are the
    projections and the [SET_] functions.  A flag is the integer the source
    stores, 0 or 1 (0 to 3 for IOPL). *)

From S2P Require Import Prelude.

(** The flags, one integer per field ([CCPU_FLAGS]). *)
Record FLAGS := mkFLAGS {
  CF : Z;
  PF : Z;
  AF : Z;
  ZF : Z;
  SF : Z;
  TF : Z;
  IF : Z;
  DF : Z;
  OF : Z;
  IOPL : Z;
  NT : Z;
  RF : Z;
  VM : Z
}.

Definition SET_CF (x : Z) (r : FLAGS) : FLAGS :=
  mkFLAGS x (PF r) (AF r) (ZF r) (SF r) (TF r) (IF r) (DF r) (OF r) (IOPL r) (NT r) (RF r) (VM r).
Definition SET_PF (x : Z) (r : FLAGS) : FLAGS :=
  mkFLAGS (CF r) x (AF r) (ZF r) (SF r) (TF r) (IF r) (DF r) (OF r) (IOPL r) (NT r) (RF r) (VM r).
Definition SET_AF (x : Z) (r : FLAGS) : FLAGS :=
  mkFLAGS (CF r) (PF r) x (ZF r) (SF r) (TF r) (IF r) (DF r) (OF r) (IOPL r) (NT r) (RF r) (VM r).
Definition SET_ZF (x : Z) (r : FLAGS) : FLAGS :=
  mkFLAGS (CF r) (PF r) (AF r) x (SF r) (TF r) (IF r) (DF r) (OF r) (IOPL r) (NT r) (RF r) (VM r).
Definition SET_SF (x : Z) (r : FLAGS) : FLAGS :=
  mkFLAGS (CF r) (PF r) (AF r) (ZF r) x (TF r) (IF r) (DF r) (OF r) (IOPL r) (NT r) (RF r) (VM r).
Definition SET_TF (x : Z) (r : FLAGS) : FLAGS :=
  mkFLAGS (CF r) (PF r) (AF r) (ZF r) (SF r) x (IF r) (DF r) (OF r) (IOPL r) (NT r) (RF r) (VM r).
Definition SET_IF (x : Z) (r : FLAGS) : FLAGS :=
  mkFLAGS (CF r) (PF r) (AF r) (ZF r) (SF r) (TF r) x (DF r) (OF r) (IOPL r) (NT r) (RF r) (VM r).
Definition SET_DF (x : Z) (r : FLAGS) : FLAGS :=
  mkFLAGS (CF r) (PF r) (AF r) (ZF r) (SF r) (TF r) (IF r) x (OF r) (IOPL r) (NT r) (RF r) (VM r).
Definition SET_OF (x : Z) (r : FLAGS) : FLAGS :=
  mkFLAGS (CF r) (PF r) (AF r) (ZF r) (SF r) (TF r) (IF r) (DF r) x (IOPL r) (NT r) (RF r) (VM r).
Definition SET_IOPL (x : Z) (r : FLAGS) : FLAGS :=
  mkFLAGS (CF r) (PF r) (AF r) (ZF r) (SF r) (TF r) (IF r) (DF r) (OF r) x (NT r) (RF r) (VM r).
Definition SET_NT (x : Z) (r : FLAGS) : FLAGS :=
  mkFLAGS (CF r) (PF r) (AF r) (ZF r) (SF r) (TF r) (IF r) (DF r) (OF r) (IOPL r) x (RF r) (VM r).
Definition SET_RF (x : Z) (r : FLAGS) : FLAGS :=
  mkFLAGS (CF r) (PF r) (AF r) (ZF r) (SF r) (TF r) (IF r) (DF r) (OF r) (IOPL r) (NT r) x (VM r).
Definition SET_VM (x : Z) (r : FLAGS) : FLAGS :=
  mkFLAGS (CF r) (PF r) (AF r) (ZF r) (SF r) (TF r) (IF r) (DF r) (OF r) (IOPL r) (NT r) (RF r) x.

(** The double word general registers ([CCPU_GR]). *)
Record GREGS := mkGREGS {
  EAX : Z;
  ECX : Z;
  EDX : Z;
  EBX : Z;
  ESP : Z;
  EBP : Z;
  ESI : Z;
  EDI : Z
}.

Definition SET_EAX (x : Z) (r : GREGS) : GREGS :=
  mkGREGS x (ECX r) (EDX r) (EBX r) (ESP r) (EBP r) (ESI r) (EDI r).
Definition SET_ECX (x : Z) (r : GREGS) : GREGS :=
  mkGREGS (EAX r) x (EDX r) (EBX r) (ESP r) (EBP r) (ESI r) (EDI r).
Definition SET_EDX (x : Z) (r : GREGS) : GREGS :=
  mkGREGS (EAX r) (ECX r) x (EBX r) (ESP r) (EBP r) (ESI r) (EDI r).
Definition SET_EBX (x : Z) (r : GREGS) : GREGS :=
  mkGREGS (EAX r) (ECX r) (EDX r) x (ESP r) (EBP r) (ESI r) (EDI r).
Definition SET_ESP (x : Z) (r : GREGS) : GREGS :=
  mkGREGS (EAX r) (ECX r) (EDX r) (EBX r) x (EBP r) (ESI r) (EDI r).
Definition SET_EBP (x : Z) (r : GREGS) : GREGS :=
  mkGREGS (EAX r) (ECX r) (EDX r) (EBX r) (ESP r) x (ESI r) (EDI r).
Definition SET_ESI (x : Z) (r : GREGS) : GREGS :=
  mkGREGS (EAX r) (ECX r) (EDX r) (EBX r) (ESP r) (EBP r) x (EDI r).
Definition SET_EDI (x : Z) (r : GREGS) : GREGS :=
  mkGREGS (EAX r) (ECX r) (EDX r) (EBX r) (ESP r) (EBP r) (ESI r) x.

(** A segment register with its hidden descriptor cache. *)
Record SEGMENT_REGISTER := mkSEG {
  selector : Z;
  ar_dpl : Z;
  ar_e : Z;
  ar_r : Z;
  ar_w : Z;
  ar_c : Z;
  ar_x : Z;
  base : Z;
  limit : Z
}.

Definition SEG_selector (x : Z) (r : SEGMENT_REGISTER) : SEGMENT_REGISTER :=
  mkSEG x (ar_dpl r) (ar_e r) (ar_r r) (ar_w r) (ar_c r) (ar_x r) (base r) (limit r).
Definition SEG_ar_dpl (x : Z) (r : SEGMENT_REGISTER) : SEGMENT_REGISTER :=
  mkSEG (selector r) x (ar_e r) (ar_r r) (ar_w r) (ar_c r) (ar_x r) (base r) (limit r).
Definition SEG_ar_e (x : Z) (r : SEGMENT_REGISTER) : SEGMENT_REGISTER :=
  mkSEG (selector r) (ar_dpl r) x (ar_r r) (ar_w r) (ar_c r) (ar_x r) (base r) (limit r).
Definition SEG_ar_r (x : Z) (r : SEGMENT_REGISTER) : SEGMENT_REGISTER :=
  mkSEG (selector r) (ar_dpl r) (ar_e r) x (ar_w r) (ar_c r) (ar_x r) (base r) (limit r).
Definition SEG_ar_w (x : Z) (r : SEGMENT_REGISTER) : SEGMENT_REGISTER :=
  mkSEG (selector r) (ar_dpl r) (ar_e r) (ar_r r) x (ar_c r) (ar_x r) (base r) (limit r).
Definition SEG_ar_c (x : Z) (r : SEGMENT_REGISTER) : SEGMENT_REGISTER :=
  mkSEG (selector r) (ar_dpl r) (ar_e r) (ar_r r) (ar_w r) x (ar_x r) (base r) (limit r).
Definition SEG_ar_x (x : Z) (r : SEGMENT_REGISTER) : SEGMENT_REGISTER :=
  mkSEG (selector r) (ar_dpl r) (ar_e r) (ar_r r) (ar_w r) (ar_c r) x (base r) (limit r).
Definition SEG_base (x : Z) (r : SEGMENT_REGISTER) : SEGMENT_REGISTER :=
  mkSEG (selector r) (ar_dpl r) (ar_e r) (ar_r r) (ar_w r) (ar_c r) (ar_x r) x (limit r).
Definition SEG_limit (x : Z) (r : SEGMENT_REGISTER) : SEGMENT_REGISTER :=
  mkSEG (selector r) (ar_dpl r) (ar_e r) (ar_r r) (ar_w r) (ar_c r) (ar_x r) (base r) x.

(** The segment registers ([CCPU_SR]). *)
Record SREGS := mkSREGS {
  ES : SEGMENT_REGISTER;
  CS : SEGMENT_REGISTER;
  SS : SEGMENT_REGISTER;
  DS : SEGMENT_REGISTER;
  FS : SEGMENT_REGISTER;
  GS : SEGMENT_REGISTER
}.

Definition SR_ES (x : SEGMENT_REGISTER) (r : SREGS) : SREGS :=
  mkSREGS x (CS r) (SS r) (DS r) (FS r) (GS r).
Definition SR_CS (x : SEGMENT_REGISTER) (r : SREGS) : SREGS :=
  mkSREGS (ES r) x (SS r) (DS r) (FS r) (GS r).
Definition SR_SS (x : SEGMENT_REGISTER) (r : SREGS) : SREGS :=
  mkSREGS (ES r) (CS r) x (DS r) (FS r) (GS r).
Definition SR_DS (x : SEGMENT_REGISTER) (r : SREGS) : SREGS :=
  mkSREGS (ES r) (CS r) (SS r) x (FS r) (GS r).
Definition SR_FS (x : SEGMENT_REGISTER) (r : SREGS) : SREGS :=
  mkSREGS (ES r) (CS r) (SS r) (DS r) x (GS r).
Definition SR_GS (x : SEGMENT_REGISTER) (r : SREGS) : SREGS :=
  mkSREGS (ES r) (CS r) (SS r) (DS r) (FS r) x.

(** GDTR or IDTR. *)
Record SYSTEM_TABLE_ADDRESS_REGISTER := mkSTAR {
  star_base : Z;
  star_limit : Z
}.

Definition SET_star_base (x : Z) (r : SYSTEM_TABLE_ADDRESS_REGISTER) : SYSTEM_TABLE_ADDRESS_REGISTER :=
  mkSTAR x (star_limit r).
Definition SET_star_limit (x : Z) (r : SYSTEM_TABLE_ADDRESS_REGISTER) : SYSTEM_TABLE_ADDRESS_REGISTER :=
  mkSTAR (star_base r) x.

(** LDTR or TR. *)
Record SYSTEM_ADDRESS_REGISTER := mkSAR {
  sar_selector : Z;
  sar_super : Z;
  sar_base : Z;
  sar_limit : Z
}.

Definition SET_sar_selector (x : Z) (r : SYSTEM_ADDRESS_REGISTER) : SYSTEM_ADDRESS_REGISTER :=
  mkSAR x (sar_super r) (sar_base r) (sar_limit r).
Definition SET_sar_super (x : Z) (r : SYSTEM_ADDRESS_REGISTER) : SYSTEM_ADDRESS_REGISTER :=
  mkSAR (sar_selector r) x (sar_base r) (sar_limit r).
Definition SET_sar_base (x : Z) (r : SYSTEM_ADDRESS_REGISTER) : SYSTEM_ADDRESS_REGISTER :=
  mkSAR (sar_selector r) (sar_super r) x (sar_limit r).
Definition SET_sar_limit (x : Z) (r : SYSTEM_ADDRESS_REGISTER) : SYSTEM_ADDRESS_REGISTER :=
  mkSAR (sar_selector r) (sar_super r) (sar_base r) x.

(** The control registers ([CCPU_CR]): CR0 status, CR2 page fault linear address, CR3 page directory base. *)
Record CREGS := mkCREGS {
  CR_STAT : Z;
  CR_RSVD : Z;
  CR_PFLA : Z;
  CR_PDBR : Z
}.

Definition SET_CR_STAT (x : Z) (r : CREGS) : CREGS :=
  mkCREGS x (CR_RSVD r) (CR_PFLA r) (CR_PDBR r).
Definition SET_CR_RSVD (x : Z) (r : CREGS) : CREGS :=
  mkCREGS (CR_STAT r) x (CR_PFLA r) (CR_PDBR r).
Definition SET_CR_PFLA (x : Z) (r : CREGS) : CREGS :=
  mkCREGS (CR_STAT r) (CR_RSVD r) x (CR_PDBR r).
Definition SET_CR_PDBR (x : Z) (r : CREGS) : CREGS :=
  mkCREGS (CR_STAT r) (CR_RSVD r) (CR_PFLA r) x.

(** Interrupt and fault status ([c_xcptn.c]) and the state of the external call
    interface ([c_xtrn.c]). *)
Record XSTATUS := mkXSTATUS {
  doing_contributory : bool;
  doing_page_fault : bool;
  doing_double_fault : bool;
  doing_fault : bool;
  EXT : Z;
  CCPU_save_EIP : Z;
  interface_active : bool;
  interface_error : Z
}.

Definition SET_doing_contributory (x : bool) (r : XSTATUS) : XSTATUS :=
  mkXSTATUS x (doing_page_fault r) (doing_double_fault r) (doing_fault r) (EXT r) (CCPU_save_EIP r) (interface_active r) (interface_error r).
Definition SET_doing_page_fault (x : bool) (r : XSTATUS) : XSTATUS :=
  mkXSTATUS (doing_contributory r) x (doing_double_fault r) (doing_fault r) (EXT r) (CCPU_save_EIP r) (interface_active r) (interface_error r).
Definition SET_doing_double_fault (x : bool) (r : XSTATUS) : XSTATUS :=
  mkXSTATUS (doing_contributory r) (doing_page_fault r) x (doing_fault r) (EXT r) (CCPU_save_EIP r) (interface_active r) (interface_error r).
Definition SET_doing_fault (x : bool) (r : XSTATUS) : XSTATUS :=
  mkXSTATUS (doing_contributory r) (doing_page_fault r) (doing_double_fault r) x (EXT r) (CCPU_save_EIP r) (interface_active r) (interface_error r).
Definition SET_EXT (x : Z) (r : XSTATUS) : XSTATUS :=
  mkXSTATUS (doing_contributory r) (doing_page_fault r) (doing_double_fault r) (doing_fault r) x (CCPU_save_EIP r) (interface_active r) (interface_error r).
Definition SET_CCPU_save_EIP (x : Z) (r : XSTATUS) : XSTATUS :=
  mkXSTATUS (doing_contributory r) (doing_page_fault r) (doing_double_fault r) (doing_fault r) (EXT r) x (interface_active r) (interface_error r).
Definition SET_interface_active (x : bool) (r : XSTATUS) : XSTATUS :=
  mkXSTATUS (doing_contributory r) (doing_page_fault r) (doing_double_fault r) (doing_fault r) (EXT r) (CCPU_save_EIP r) x (interface_error r).
Definition SET_interface_error (x : Z) (r : XSTATUS) : XSTATUS :=
  mkXSTATUS (doing_contributory r) (doing_page_fault r) (doing_double_fault r) (doing_fault r) (EXT r) (CCPU_save_EIP r) (interface_active r) x.

(** The CPU state the instruction routines share. *)
Record cpu := mkcpu {
  gr : GREGS;
  ip : Z;
  fl : FLAGS;
  CPL : Z;
  operand_size : Z;
  address_size : Z;
  pop_disp : Z;
  sr : SREGS;
  gdtr : SYSTEM_TABLE_ADDRESS_REGISTER;
  idtr : SYSTEM_TABLE_ADDRESS_REGISTER;
  ldtr : SYSTEM_ADDRESS_REGISTER;
  tr : SYSTEM_ADDRESS_REGISTER;
  cr : CREGS;
  xs : XSTATUS;
  took_relative_jump : bool;
  took_absolute_toc : bool
}.

Definition SET_gr (x : GREGS) (r : cpu) : cpu :=
  mkcpu x (ip r) (fl r) (CPL r) (operand_size r) (address_size r) (pop_disp r) (sr r) (gdtr r) (idtr r) (ldtr r) (tr r) (cr r) (xs r) (took_relative_jump r) (took_absolute_toc r).
Definition SET_ip (x : Z) (r : cpu) : cpu :=
  mkcpu (gr r) x (fl r) (CPL r) (operand_size r) (address_size r) (pop_disp r) (sr r) (gdtr r) (idtr r) (ldtr r) (tr r) (cr r) (xs r) (took_relative_jump r) (took_absolute_toc r).
Definition SET_fl (x : FLAGS) (r : cpu) : cpu :=
  mkcpu (gr r) (ip r) x (CPL r) (operand_size r) (address_size r) (pop_disp r) (sr r) (gdtr r) (idtr r) (ldtr r) (tr r) (cr r) (xs r) (took_relative_jump r) (took_absolute_toc r).
Definition SET_CPL (x : Z) (r : cpu) : cpu :=
  mkcpu (gr r) (ip r) (fl r) x (operand_size r) (address_size r) (pop_disp r) (sr r) (gdtr r) (idtr r) (ldtr r) (tr r) (cr r) (xs r) (took_relative_jump r) (took_absolute_toc r).
Definition SET_operand_size (x : Z) (r : cpu) : cpu :=
  mkcpu (gr r) (ip r) (fl r) (CPL r) x (address_size r) (pop_disp r) (sr r) (gdtr r) (idtr r) (ldtr r) (tr r) (cr r) (xs r) (took_relative_jump r) (took_absolute_toc r).
Definition SET_address_size (x : Z) (r : cpu) : cpu :=
  mkcpu (gr r) (ip r) (fl r) (CPL r) (operand_size r) x (pop_disp r) (sr r) (gdtr r) (idtr r) (ldtr r) (tr r) (cr r) (xs r) (took_relative_jump r) (took_absolute_toc r).
Definition SET_pop_disp (x : Z) (r : cpu) : cpu :=
  mkcpu (gr r) (ip r) (fl r) (CPL r) (operand_size r) (address_size r) x (sr r) (gdtr r) (idtr r) (ldtr r) (tr r) (cr r) (xs r) (took_relative_jump r) (took_absolute_toc r).
Definition SET_sr (x : SREGS) (r : cpu) : cpu :=
  mkcpu (gr r) (ip r) (fl r) (CPL r) (operand_size r) (address_size r) (pop_disp r) x (gdtr r) (idtr r) (ldtr r) (tr r) (cr r) (xs r) (took_relative_jump r) (took_absolute_toc r).
Definition SET_gdtr (x : SYSTEM_TABLE_ADDRESS_REGISTER) (r : cpu) : cpu :=
  mkcpu (gr r) (ip r) (fl r) (CPL r) (operand_size r) (address_size r) (pop_disp r) (sr r) x (idtr r) (ldtr r) (tr r) (cr r) (xs r) (took_relative_jump r) (took_absolute_toc r).
Definition SET_idtr (x : SYSTEM_TABLE_ADDRESS_REGISTER) (r : cpu) : cpu :=
  mkcpu (gr r) (ip r) (fl r) (CPL r) (operand_size r) (address_size r) (pop_disp r) (sr r) (gdtr r) x (ldtr r) (tr r) (cr r) (xs r) (took_relative_jump r) (took_absolute_toc r).
Definition SET_ldtr (x : SYSTEM_ADDRESS_REGISTER) (r : cpu) : cpu :=
  mkcpu (gr r) (ip r) (fl r) (CPL r) (operand_size r) (address_size r) (pop_disp r) (sr r) (gdtr r) (idtr r) x (tr r) (cr r) (xs r) (took_relative_jump r) (took_absolute_toc r).
Definition SET_tr (x : SYSTEM_ADDRESS_REGISTER) (r : cpu) : cpu :=
  mkcpu (gr r) (ip r) (fl r) (CPL r) (operand_size r) (address_size r) (pop_disp r) (sr r) (gdtr r) (idtr r) (ldtr r) x (cr r) (xs r) (took_relative_jump r) (took_absolute_toc r).
Definition SET_cr (x : CREGS) (r : cpu) : cpu :=
  mkcpu (gr r) (ip r) (fl r) (CPL r) (operand_size r) (address_size r) (pop_disp r) (sr r) (gdtr r) (idtr r) (ldtr r) (tr r) x (xs r) (took_relative_jump r) (took_absolute_toc r).
Definition SET_xs (x : XSTATUS) (r : cpu) : cpu :=
  mkcpu (gr r) (ip r) (fl r) (CPL r) (operand_size r) (address_size r) (pop_disp r) (sr r) (gdtr r) (idtr r) (ldtr r) (tr r) (cr r) x (took_relative_jump r) (took_absolute_toc r).
Definition SET_took_relative_jump (x : bool) (r : cpu) : cpu :=
  mkcpu (gr r) (ip r) (fl r) (CPL r) (operand_size r) (address_size r) (pop_disp r) (sr r) (gdtr r) (idtr r) (ldtr r) (tr r) (cr r) (xs r) x (took_absolute_toc r).
Definition SET_took_absolute_toc (x : bool) (r : cpu) : cpu :=
  mkcpu (gr r) (ip r) (fl r) (CPL r) (operand_size r) (address_size r) (pop_disp r) (sr r) (gdtr r) (idtr r) (ldtr r) (tr r) (cr r) (xs r) (took_relative_jump r) x.

(** ** Register views

    [CCPU_WR] and [CCPU_BR] point into [CCPU_GR] (the host is little endian):
    word register [i] is the low half of [GR i]; byte registers 0-3 are its
    low bytes and 4-7 the second bytes of registers 0-3. *)

Definition GET_GR (i : Z) (c : cpu) : Z :=
  match i with
  | 0 => EAX (gr c) | 1 => ECX (gr c) | 2 => EDX (gr c) | 3 => EBX (gr c)
  | 4 => ESP (gr c) | 5 => EBP (gr c) | 6 => ESI (gr c) | _ => EDI (gr c)
  end.

Definition upd_gr (i x : Z) (r : GREGS) : GREGS :=
  match i with
  | 0 => SET_EAX x r | 1 => SET_ECX x r | 2 => SET_EDX x r | 3 => SET_EBX x r
  | 4 => SET_ESP x r | 5 => SET_EBP x r | 6 => SET_ESI x r | _ => SET_EDI x r
  end.

Definition SET_GR (i x : Z) (c : cpu) : cpu := SET_gr (upd_gr i x (gr c)) c.

Definition GET_WR (i : Z) (c : cpu) : Z := u16 (GET_GR i c).

Definition SET_WR (i x : Z) (c : cpu) : cpu :=
  let g := GET_GR i c in SET_GR i (g - u16 g + u16 x) c.

Definition GET_BR (i : Z) (c : cpu) : Z :=
  if i <? 4 then u8 (GET_GR i c) else u8 (GET_GR (i - 4) c / 2 ^ 8).

Definition SET_BR (i x : Z) (c : cpu) : cpu :=
  if i <? 4 then
    let g := GET_GR i c in SET_GR i (g - u8 g + u8 x) c
  else
    let g := GET_GR (i - 4) c in
    SET_GR (i - 4) (g - u8 (g / 2 ^ 8) * 2 ^ 8 + u8 x * 2 ^ 8) c.

(** The register numbers of [c_reg.h]. *)
Definition A_EAX : Z := 0.
Definition A_ECX : Z := 1.
Definition A_EDX : Z := 2.
Definition A_EBX : Z := 3.
Definition A_ESP : Z := 4.
Definition A_EBP : Z := 5.
Definition A_ESI : Z := 6.
Definition A_EDI : Z := 7.
Definition A_AX : Z := 0.
Definition A_CX : Z := 1.
Definition A_DX : Z := 2.
Definition A_BX : Z := 3.
Definition A_SP : Z := 4.
Definition A_BP : Z := 5.
Definition A_SI : Z := 6.
Definition A_DI : Z := 7.
Definition A_AL : Z := 0.
Definition A_AH : Z := 4.

Definition ES_REG : Z := 0.
Definition CS_REG : Z := 1.
Definition SS_REG : Z := 2.
Definition DS_REG : Z := 3.
Definition FS_REG : Z := 4.
Definition GS_REG : Z := 5.

Definition GET_SR (i : Z) (c : cpu) : SEGMENT_REGISTER :=
  match i with
  | 0 => ES (sr c) | 1 => CS (sr c) | 2 => SS (sr c)
  | 3 => DS (sr c) | 4 => FS (sr c) | _ => GS (sr c)
  end.

Definition upd_sr (i : Z) (s : SEGMENT_REGISTER) (r : SREGS) : SREGS :=
  match i with
  | 0 => SR_ES s r | 1 => SR_CS s r | 2 => SR_SS s r
  | 3 => SR_DS s r | 4 => SR_FS s r | _ => SR_GS s r
  end.

Definition SET_SR (i : Z) (s : SEGMENT_REGISTER) (c : cpu) : cpu :=
  SET_sr (upd_sr i s (sr c)) c.

(** Bits of CR0. *)
Definition GET_PE (c : cpu) : Z := CR_STAT (cr c) .& 1.
Definition GET_PG (c : cpu) : Z := nz (CR_STAT (cr c) .& BIT_MASK 31).

Definition USE16 : Z := 0.
Definition USE32 : Z := 1.

Definition modify_fl (f : FLAGS -> FLAGS) (c : cpu) : cpu := SET_fl (f (fl c)) c.
Definition modify_xs (f : XSTATUS -> XSTATUS) (c : cpu) : cpu := SET_xs (f (xs c)) c.
Definition modify_cr (f : CREGS -> CREGS) (c : cpu) : cpu := SET_cr (f (cr c)) c.

(** ** Computations on a state that holds the registers

    The exception routines and the instructions that use them run on any state
    that contains the CPU registers: the bare register file, or the machine with
    its memory and translation buffers. *)
Class HasCpu (S : Type) := {
  the_cpu : S -> cpu;
  put_cpu : cpu -> S -> S;
  the_put : forall c s, the_cpu (put_cpu c s) = c;
  put_the : forall s, put_cpu (the_cpu s) s = s;
  put_put : forall c c' s, put_cpu c (put_cpu c' s) = put_cpu c s
}.

#[export] Instance HasCpu_cpu : HasCpu cpu.
Proof. refine {| the_cpu := fun c => c; put_cpu := fun c _ => c |}; reflexivity. Defined.

Definition getc {E S A} `{HasCpu S} (f : cpu -> A) : M E S A := gets (fun s => f (the_cpu s)).
Definition modc {E S} `{HasCpu S} (f : cpu -> cpu) : M E S unit :=
  modify (fun s => put_cpu (f (the_cpu s)) s).

(** Parity of a byte ([pf_table] of [c_main.c]), 1 when the number of one bits
    is even. *)
Definition pf_table : list Z :=
  [1; 0; 0; 1; 0; 1; 1; 0; 0; 1; 1; 0; 1; 0; 0; 1;
   0; 1; 1; 0; 1; 0; 0; 1; 1; 0; 0; 1; 0; 1; 1; 0;
   0; 1; 1; 0; 1; 0; 0; 1; 1; 0; 0; 1; 0; 1; 1; 0;
   1; 0; 0; 1; 0; 1; 1; 0; 0; 1; 1; 0; 1; 0; 0; 1;
   0; 1; 1; 0; 1; 0; 0; 1; 1; 0; 0; 1; 0; 1; 1; 0;
   1; 0; 0; 1; 0; 1; 1; 0; 0; 1; 1; 0; 1; 0; 0; 1;
   1; 0; 0; 1; 0; 1; 1; 0; 0; 1; 1; 0; 1; 0; 0; 1;
   0; 1; 1; 0; 1; 0; 0; 1; 1; 0; 0; 1; 0; 1; 1; 0;
   0; 1; 1; 0; 1; 0; 0; 1; 1; 0; 0; 1; 0; 1; 1; 0;
   1; 0; 0; 1; 0; 1; 1; 0; 0; 1; 1; 0; 1; 0; 0; 1;
   1; 0; 0; 1; 0; 1; 1; 0; 0; 1; 1; 0; 1; 0; 0; 1;
   0; 1; 1; 0; 1; 0; 0; 1; 1; 0; 0; 1; 0; 1; 1; 0;
   1; 0; 0; 1; 0; 1; 1; 0; 0; 1; 1; 0; 1; 0; 0; 1;
   0; 1; 1; 0; 1; 0; 0; 1; 1; 0; 0; 1; 0; 1; 1; 0;
   0; 1; 1; 0; 1; 0; 0; 1; 1; 0; 0; 1; 0; 1; 1; 0;
   1; 0; 0; 1; 0; 1; 1; 0; 0; 1; 1; 0; 1; 0; 0; 1].

Definition pf (i : Z) : Z := nth (Z.to_nat i) pf_table 0.

(** [UNDEFINED_FLAG] of [c_main.h]: the value given to flags the architecture
    leaves undefined. *)
Definition UNDEFINED_FLAG : Z := 0.

(** All flags clear, for concrete runs. *)
Definition flags0 : FLAGS := mkFLAGS 0 0 0 0 0 0 0 0 0 0 0 0 0.

(** A processor in protected mode with everything else clear, for concrete
    runs. *)
Definition cpu0 : cpu :=
  let sreg := mkSEG 0 0 0 1 1 0 0 0 0xffff in
  mkcpu (mkGREGS 0 0 0 0 0 0 0 0) 0 flags0 0 0 0 0
    (mkSREGS sreg sreg sreg sreg sreg sreg) (mkSTAR 0 0) (mkSTAR 0 0)
    (mkSAR 0 0 0 0) (mkSAR 0 0 0 0) (mkCREGS 1 0 0 0)
    (mkXSTATUS false false false false 0 0 false 0) false false.

(** ** Register file laws *)

Definition reg32 (c : cpu) : Prop := forall i, 0 <= i < 8 -> 0 <= GET_GR i c < 2 ^ 32.

Ltac reg_cases i :=
  assert (i = 0 \/ i = 1 \/ i = 2 \/ i = 3 \/ i = 4 \/ i = 5 \/ i = 6 \/ i = 7)
    as [-> | [-> | [-> | [-> | [-> | [-> | [-> | ->]]]]]]] by lia.

Lemma GET_SET_GR i j x c :
  0 <= i < 8 -> 0 <= j < 8 ->
  GET_GR i (SET_GR j x c) = if i =? j then x else GET_GR i c.
Proof. intros Hi Hj. reg_cases i; reg_cases j; reflexivity. Qed.

(** Writing a word register leaves the upper half of the double word alone. *)
Lemma GET_SET_WR i x c :
  0 <= i < 8 ->
  GET_WR i (SET_WR i x c) = u16 x
  /\ GET_GR i (SET_WR i x c) / 2 ^ 16 = GET_GR i c / 2 ^ 16.
Proof.
  intros Hi. unfold GET_WR, SET_WR. rewrite GET_SET_GR, Z.eqb_refl by lia.
  set (g := GET_GR i c). pose proof (Z_div_mod_eq_full g (2 ^ 16)).
  pose proof (u16_range x). fold (u16 g) in *.
  replace (g - u16 g + u16 x) with (u16 x + (g / 2 ^ 16) * 2 ^ 16) by lia.
  split.
  - unfold u16 at 1. rewrite Z_mod_plus_full. apply u16_small; assumption.
  - rewrite Z.div_add, Z.div_small by lia. lia.
Qed.

Lemma pf_bit i : pf i = 0 \/ pf i = 1.
Proof.
  unfold pf. destruct (nth_in_or_default (Z.to_nat i) pf_table 0) as [Hin | ->]; [|auto].
  assert (forallb (fun z => (z =? 0) || (z =? 1))%bool pf_table = true) as HF by reflexivity.
  rewrite forallb_forall in HF. apply HF in Hin. lia.
Qed.
