(* ===== verification/Debug.v ===== *)
(** * Debug registers and the host debugger's trace

    [c_debug.c]: the debug registers, the internal form of the breakpoints they
    describe and the checks of instruction fetches and data accesses, with the
    snapshot of that form; and the operand notifications of
    [app-softpc/machine/debug.c], which the memory accesses of the CPU call.

    [CCPU_DR] is a function of the register number and a breakpoint table a
    function of the index, as both are indexed by variables. *)

From S2P Require Import Prelude Cpu.

Module Debug.

Record INST_BREAK := mkINST { ib_addr : Z; ib_id : Z }.
Record DATA_BREAK := mkDATA { start_addr : Z; end_addr : Z; db_type : Z; db_id : Z }.

Definition D_WO : Z := 0.
Definition D_RW : Z := 1.
Definition D_R : Z := 0.
Definition D_W : Z := 1.
Definition D_BYTE : Z := 0.
Definition D_WORD : Z := 1.
Definition D_DWORD : Z := 3.
Definition NR_BRKS : Z := 4.
Definition DR_DCR : Z := 7.
Definition DR_DSR : Z := 6.
Definition COMP_MASK : Z := 3.

(** ** The host debugger *)

Inductive watch_kind := WATCH_READ | WATCH_WRITE | WATCH_EXECUTE.
Inductive execution_kind := EXECUTION_NONE | EXECUTION_TRACE | BREAK_REAL | BREAK_LINEAR.

#[export] Instance watch_kind_eq : EqDecision watch_kind.
Proof. solve_decision. Defined.
#[export] Instance execution_kind_eq : EqDecision execution_kind.
Proof. solve_decision. Defined.

Record memory_access := mkAccess { a_write : bool; a_linear : Z; a_bytes : Z; a_data : Z }.

(** [accesses] is the used part of the array, oldest first; [count] is its length. *)
Record observation := mkObs {
  accesses : list memory_access;
  truncated : bool;
  watch_hit : bool;
  hit_kind : watch_kind;
  hit_address : Z
}.

Record host_debug := mkHost {
  plan : execution_kind;
  target_count : Z;
  executed : Z;
  stop_pending : bool;
  in_instruction : bool;
  watches : watch_kind -> option Z;
  obs : observation
}.

Definition ACCESS_CAPACITY : Z := 32.

(** The number of [bytes] bytes of [data], the lowest first, or last when [reversed];
    at most eight are used. *)
Definition access_value (data : list Z) (bytes : Z) (reversed : bool) : Z :=
  let byte index := nth (Z.to_nat (if reversed then bytes - 1 - index else index)) data 0 in
  fold_right (fun index value => Z.lor value (Z.shiftl (byte (Z.of_nat index)) (8 * Z.of_nat index)))
    0 (seq 0 (Z.to_nat (Z.min bytes 8))).

Definition watch_test (kind : watch_kind) (address bytes : Z) (h : host_debug) : observation :=
  let r := obs h in
  match watches h kind with
  | Some w =>
      if (u32 (w - address) <? bytes) && negb (watch_hit r)
      then mkObs (accesses r) (truncated r) true kind w else r
  | None => r
  end.

Definition SET_obs (r : observation) (h : host_debug) : host_debug :=
  mkHost (plan h) (target_count h) (executed h) (stop_pending h) (in_instruction h) (watches h) r.

(** [None] is a thread with no debugger. *)
Definition softpc_host_debug_access (address bytes : Z) (write : bool) (data : list Z) (reversed : bool)
    (active : option host_debug) : option host_debug :=
  match active with
  | None => None
  | Some h =>
      if negb (in_instruction h) || (bytes =? 0) then Some h else
      let kind := if write then WATCH_WRITE else WATCH_READ in
      let r := watch_test kind address bytes h in
      Some (SET_obs
        (if negb (bool_decide (plan h = EXECUTION_TRACE)) && negb (watch_hit r) then r
         else if Z.of_nat (length (accesses r)) =? ACCESS_CAPACITY
         then mkObs (accesses r) true (watch_hit r) (hit_kind r) (hit_address r)
         else mkObs (accesses r ++ [mkAccess write address bytes (access_value data bytes reversed)])
                (truncated r) (watch_hit r) (hit_kind r) (hit_address r)) h)
  end.

Definition softpc_host_debug_retired (active : option host_debug) : option host_debug :=
  match active with
  | None => None
  | Some h =>
      let idle := bool_decide (plan h = EXECUTION_NONE)
                  && negb (bool_decide (is_Some (watches h WATCH_READ)))
                  && negb (bool_decide (is_Some (watches h WATCH_WRITE)))
                  && negb (bool_decide (is_Some (watches h WATCH_EXECUTE))) in
      let n := if executed h =? 0xffffffff then executed h else executed h + 1 in
      if idle then
        Some (mkHost (plan h) (target_count h) (executed h) (stop_pending h) false (watches h) (obs h))
      else
        let stop := stop_pending h || (bool_decide (plan h = EXECUTION_TRACE) && (target_count h <=? n))
                    || watch_hit (obs h) in
        Some (mkHost (plan h) (target_count h) n stop false (watches h) (obs h))
  end.

(** ** The debug registers *)

Record debug := mkDebug {
  DR : Z -> Z;
  nr_inst_break : Z;
  nr_data_break : Z;
  i_brk : Z -> INST_BREAK;
  d_brk : Z -> DATA_BREAK;
  active_debug : option host_debug
}.

Definition set_at {A} (f : Z -> A) (i : Z) (x : A) : Z -> A := fun j => if j =? i then x else f j.

Definition SET_DR (i x : Z) (d : debug) : debug :=
  mkDebug (set_at (DR d) i x) (nr_inst_break d) (nr_data_break d) (i_brk d) (d_brk d) (active_debug d).
Definition SET_active (h : option host_debug) (d : debug) : debug :=
  mkDebug (DR d) (nr_inst_break d) (nr_data_break d) (i_brk d) (d_brk d) h.

(** The two-bit fields of the control register. *)
Definition g_l_shift (i : Z) : Z := 2 * i.
Definition r_w_shift (i : Z) : Z := 16 + 4 * i.
Definition len_shift (i : Z) : Z := 18 + 4 * i.
Definition dcr_field (shift : Z) (d : debug) : Z := (DR d DR_DCR .>> shift) .& COMP_MASK.

(** The first and last address of a breakpoint, [None] for the undefined length. *)
Definition len_to_addr (index : Z) (d : debug) : option (Z * Z) :=
  match dcr_field (len_shift index) d with
  | 0 => Some (DR d index, DR d index)
  | 1 => let start := DR d index .& not32 (BIT_MASK 0) in Some (start, u32 (start + 1))
  | 3 => let start := DR d index .& not32 (BIT_MASK 1 .| BIT_MASK 0) in Some (start, u32 (start + 3))
  | _ => None
  end.

Definition setup_inst_break (index : Z) (d : debug) : debug :=
  mkDebug (DR d) (nr_inst_break d + 1) (nr_data_break d)
    (set_at (i_brk d) (nr_inst_break d) (mkINST (DR d index) index)) (d_brk d) (active_debug d).

Definition setup_data_break (type index : Z) (d : debug) : debug :=
  match len_to_addr index d with
  | Some (start, stop) =>
      mkDebug (DR d) (nr_inst_break d) (nr_data_break d + 1) (i_brk d)
        (set_at (d_brk d) (nr_data_break d) (mkDATA start stop type index)) (active_debug d)
  | None => d
  end.

(** The turn of the loop of [setup_breakpoints] for register [i]. *)
Definition setup_break (i : Z) (d : debug) : debug :=
  if negb (dcr_field (g_l_shift i) d =? 0) then
    match dcr_field (r_w_shift i) d with
    | 0 => setup_inst_break i d
    | 1 => setup_data_break D_WO i d
    | 3 => setup_data_break D_RW i d
    | _ => d
    end
  else d.

Definition setup_breakpoints (d : debug) : debug :=
  let d := mkDebug (DR d) 0 0 (i_brk d) (d_brk d) (active_debug d) in
  setup_break 3 (setup_break 2 (setup_break 1 (setup_break 0 d))).

(** An access from [la] to [end_la] touches the area from [start] to [stop]. *)
Definition touches (la end_la start stop : Z) : bool := negb ((stop <? la) || (end_la <? start)).

Definition set_B (i : Z) (d : debug) : debug := SET_DR DR_DSR (DR d DR_DSR .| (1 .<< i)) d.

(** The register whose breakpoint the access triggers first among the active ones. *)
Fixpoint first_trigger (n : nat) (i la end_la attr : Z) (d : debug) : option Z :=
  match n with
  | O => None
  | S n =>
      let p := d_brk d i in
      if (end_addr p <? la) || (end_la <? start_addr p) || ((attr =? D_R) && (db_type p =? D_WO))
      then first_trigger n (i + 1) la end_la attr d
      else Some (db_id p)
  end.

(** Whether register [ii] would trigger if it were enabled. *)
Definition would_trigger (ii la end_la attr : Z) (d : debug) : bool :=
  let area := match dcr_field (r_w_shift ii) d with
              | 1 => if attr =? D_W then len_to_addr ii d else None
              | 3 => len_to_addr ii d
              | _ => None
              end in
  match area with
  | Some (start, stop) => touches la end_la start stop
  | None => false
  end.

Definition mark_others (trig la end_la attr : Z) (d : debug) : debug :=
  fold_left (fun d ii => if (ii =? trig) || negb (would_trigger ii la end_la attr d) then d else set_B ii d)
    [0; 1; 2; 3] d.

Definition check_for_data_exception (la attr size : Z) (d : debug) : debug :=
  let end_la := u32 (la + size) in
  match first_trigger (Z.to_nat (nr_data_break d)) 0 la end_la attr d with
  | None => d
  | Some trig => mark_others trig la end_la attr (set_B trig d)
  end.

Fixpoint inst_triggers (n : nat) (i la : Z) (d : debug) : debug :=
  match n with
  | O => d
  | S n =>
      let p := i_brk d i in
      inst_triggers n (i + 1) la (if ib_addr p =? la then set_B (ib_id p) d else d)
  end.

Definition check_for_inst_exception (la : Z) (d : debug) : debug :=
  inst_triggers (Z.to_nat (nr_inst_break d)) 0 la d.

(** ** The snapshot *)

Record debug_snapshot := mkSnap {
  instruction_break_count : Z;
  data_break_count : Z;
  instruction_breaks : Z -> INST_BREAK;
  data_breaks : Z -> DATA_BREAK
}.

(** The four entries of a table. *)
Definition copy4 {A} (from to : Z -> A) : Z -> A :=
  fun i => if (0 <=? i) && (i <? NR_BRKS) then from i else to i.

Definition snapshot_capture_debug (d : debug) (state : debug_snapshot) : debug_snapshot :=
  mkSnap (nr_inst_break d) (nr_data_break d)
    (copy4 (i_brk d) (instruction_breaks state)) (copy4 (d_brk d) (data_breaks state)).

(** [None] is a [FALSE] return, which changes nothing. *)
Definition snapshot_restore_debug (state : debug_snapshot) (d : debug) : option debug :=
  if (NR_BRKS <? instruction_break_count state) || (NR_BRKS <? data_break_count state) then None
  else Some (mkDebug (DR d) (instruction_break_count state) (data_break_count state)
               (copy4 (instruction_breaks state) (i_brk d)) (copy4 (data_breaks state) (d_brk d)) (active_debug d)).

(** ** What the registers ask for *)

Definition enabled (d : debug) (i : Z) : bool := negb ((DR d DR_DCR / 2 ^ (2 * i)) mod 4 =? 0).
Definition kind_of (d : debug) (i : Z) : Z := (DR d DR_DCR / 2 ^ (16 + 4 * i)) mod 4.
Definition length_of (d : debug) (i : Z) : Z := (DR d DR_DCR / 2 ^ (18 + 4 * i)) mod 4.

(** Register [i] watches the accesses of its kind that touch its 1, 2 or 4 aligned bytes. *)
Definition watched (d : debug) (la end_la attr i : Z) : bool :=
  let n := length_of d i + 1 in
  let start := DR d i - DR d i mod n in
  ((kind_of d i =? 1) && (attr =? D_W) || (kind_of d i =? 3)) && negb (length_of d i =? 2)
  && (start <=? end_la) && (la <=? start + n - 1).

Definition dr_ok (d : debug) : Prop := forall i, 0 <= DR d i < 2 ^ 32.

Lemma field_div shift d : 0 <= shift -> dcr_field shift d = (DR d DR_DCR / 2 ^ shift) mod 4.
Proof.
  intros. unfold dcr_field. rewrite Z.shiftr_div_pow2 by lia.
  change COMP_MASK with (2 ^ 2 - 1). rewrite land_mask by lia. reflexivity.
Qed.

Lemma field_range shift d : 0 <= shift -> 0 <= dcr_field shift d < 4.
Proof. intros. rewrite field_div by lia. apply Z.mod_pos_bound. lia. Qed.

(** Clearing the low [k] bits of a word. *)
Lemma clear_low x k : 0 <= k <= 32 -> 0 <= x < 2 ^ 32 -> x .& not32 (2 ^ k - 1) = x - x mod 2 ^ k.
Proof.
  intros Hk Hx. replace (x - x mod 2 ^ k) with (Z.ldiff x (Z.ones k)).
  2:{ rewrite Z.ldiff_ones_r, Z.shiftl_mul_pow2, Z.shiftr_div_pow2 by lia.
      pose proof (Z_div_mod_eq_full x (2 ^ k)). lia. }
  apply Z.bits_inj'. intros n Hn. unfold not32, u32.
  replace (2 ^ k - 1) with (Z.ones k) by (rewrite Z.ones_equiv; lia).
  rewrite Z.land_spec, Z.ldiff_spec. destruct (Z.ltb_spec n 32).
  - now rewrite Z.mod_pow2_bits_low, Z.lnot_spec by lia.
  - now rewrite (proj1 (range_bits x 32 ltac:(lia)) Hx n) by lia.
Qed.

Lemma area_spec d i :
  dr_ok d -> 0 <= i < 4 ->
  len_to_addr i d =
  if length_of d i =? 2 then None
  else let n := length_of d i + 1 in
       let start := DR d i - DR d i mod n in Some (start, start + n - 1).
Proof.
  intros Hd Hi. unfold len_to_addr, length_of, len_shift. rewrite field_div by lia.
  pose proof (Hd i) as R.
  assert (0 <= (DR d DR_DCR / 2 ^ (18 + 4 * i)) mod 4 < 4) by (apply Z.mod_pos_bound; lia).
  set (f := (_ / _) mod 4) in *.
  assert (f = 0 \/ f = 1 \/ f = 2 \/ f = 3) as [-> | [-> | [-> | ->]]] by lia; cbn [Z.eqb]; cbv zeta.
  - change (0 + 1) with 1. rewrite Z.mod_1_r. f_equal. f_equal; lia.
  - change (BIT_MASK 0) with (2 ^ 1 - 1). rewrite clear_low by lia. change (2 ^ 1) with 2. change (1 + 1) with 2.
    pose proof (Z_div_mod_eq_full (DR d i) 2). pose proof (Z.mod_pos_bound (DR d i) 2 ltac:(lia)).
    rewrite u32_small by lia. f_equal. f_equal; lia.
  - reflexivity.
  - change (BIT_MASK 1 .| BIT_MASK 0) with (2 ^ 2 - 1). rewrite clear_low by lia. change (2 ^ 2) with 4. change (3 + 1) with 4.
    pose proof (Z_div_mod_eq_full (DR d i) 4). pose proof (Z.mod_pos_bound (DR d i) 4 ltac:(lia)).
    rewrite u32_small by lia. f_equal. f_equal; lia.
Qed.

Lemma would_trigger_spec d la end_la attr i :
  dr_ok d -> 0 <= i < 4 -> would_trigger i la end_la attr d = watched d la end_la attr i.
Proof.
  intros Hd Hi. unfold would_trigger, watched. rewrite area_spec by assumption.
  unfold kind_of, r_w_shift. rewrite field_div by lia.
  assert (0 <= (DR d DR_DCR / 2 ^ (16 + 4 * i)) mod 4 < 4) by (apply Z.mod_pos_bound; lia).
  set (f := (_ / _) mod 4) in *. set (n := length_of d i). cbv zeta.
  set (start := DR d i - DR d i mod (n + 1)).
  assert (T : touches la end_la start (start + (n + 1) - 1) = (start <=? end_la) && (la <=? start + (n + 1) - 1)).
  { unfold touches. rewrite !Z.ltb_antisym. btauto. }
  assert (f = 0 \/ f = 1 \/ f = 2 \/ f = 3) as [-> | [-> | [-> | ->]]] by lia; cbn [Z.eqb andb orb]; cbv zeta.
  - reflexivity.
  - destruct (attr =? D_W); [|reflexivity]. destruct (n =? 2); [reflexivity|]. rewrite T. reflexivity.
  - reflexivity.
  - destruct (n =? 2); [reflexivity|]. rewrite T. reflexivity.
Qed.

(** ** The tables hold what the registers ask for *)

(** The first entries of a table, of which there are [n], are the list. *)
Definition table {A} (f : Z -> A) (n : Z) (l : list A) : Prop :=
  n = Z.of_nat (length l) /\ forall k x, l !! k = Some x -> f (Z.of_nat k) = x.

Lemma table_add {A} (f : Z -> A) n l x : table f n l -> table (set_at f n x) (n + 1) (l ++ [x]).
Proof.
  intros [En Ef]. split; [rewrite length_app; cbn; lia|]. intros k y Hk. unfold set_at.
  apply lookup_app_Some in Hk as [Hk | [Hl Hk]].
  - pose proof (lookup_lt_Some _ _ _ Hk). destruct (Z.eqb_spec (Z.of_nat k) n); [lia | now apply Ef].
  - apply list_lookup_singleton_Some in Hk as [? ->].
    destruct (Z.eqb_spec (Z.of_nat k) n); [reflexivity | lia].
Qed.

(** The entry of register [i] in each table. *)
Definition inst_entry (d : debug) (i : Z) : list INST_BREAK :=
  if enabled d i && (kind_of d i =? 0) then [mkINST (DR d i) i] else [].
Definition data_entry (d : debug) (i : Z) : list DATA_BREAK :=
  if enabled d i && ((kind_of d i =? 1) || (kind_of d i =? 3)) then
    match len_to_addr i d with
    | Some (start, stop) => [mkDATA start stop (if kind_of d i =? 1 then D_WO else D_RW) i]
    | None => []
    end
  else [].

Definition tables (d : debug) (li : list INST_BREAK) (ld : list DATA_BREAK) : Prop :=
  table (i_brk d) (nr_inst_break d) li /\ table (d_brk d) (nr_data_break d) ld.

Lemma setup_step d0 d i li ld :
  0 <= i < 4 -> DR d = DR d0 -> tables d li ld ->
  DR (setup_break i d) = DR d0
  /\ tables (setup_break i d) (li ++ inst_entry d0 i) (ld ++ data_entry d0 i).
Proof.
  intros Hi ED [TI TD]. unfold setup_break, inst_entry, data_entry, enabled, kind_of, tables.
  assert (EL : len_to_addr i d = len_to_addr i d0) by (unfold len_to_addr, dcr_field; now rewrite ED).
  rewrite !field_div, ED by (unfold g_l_shift, r_w_shift; lia). unfold g_l_shift, r_w_shift.
  destruct (_ =? 0); cbn [negb andb]; [now rewrite !app_nil_r|].
  assert (0 <= (DR d0 DR_DCR / 2 ^ (16 + 4 * i)) mod 4 < 4) by (apply Z.mod_pos_bound; lia).
  set (f := (_ / _) mod 4) in *.
  assert (f = 0 \/ f = 1 \/ f = 2 \/ f = 3) as [-> | [-> | [-> | ->]]] by lia; cbn [Z.eqb orb].
  - cbn. rewrite app_nil_r, ED. auto using table_add.
  - unfold setup_data_break. rewrite EL, app_nil_r. destruct (len_to_addr i d0) as [[start stop]|];
      cbn; rewrite ?app_nil_r; auto using table_add.
  - cbn. now rewrite !app_nil_r.
  - unfold setup_data_break. rewrite EL, app_nil_r. destruct (len_to_addr i d0) as [[start stop]|];
      cbn; rewrite ?app_nil_r; auto using table_add.
Qed.

Lemma setup_tables d :
  DR (setup_breakpoints d) = DR d
  /\ tables (setup_breakpoints d) (flat_map (inst_entry d) [0; 1; 2; 3]) (flat_map (data_entry d) [0; 1; 2; 3]).
Proof.
  unfold setup_breakpoints. set (d0 := mkDebug _ _ _ _ _ _).
  assert (T0 : tables d0 [] []) by (split; (split; [reflexivity | intros ? ? ?; discriminate])).
  destruct (setup_step d d0 0 [] []) as [D1 T1]; [lia | reflexivity | exact T0|].
  destruct (setup_step d _ 1 _ _ ltac:(lia) D1 T1) as [D2 T2].
  destruct (setup_step d _ 2 _ _ ltac:(lia) D2 T2) as [D3 T3].
  destruct (setup_step d _ 3 _ _ ltac:(lia) D3 T3) as [D4 T4].
  split; [exact D4|]. cbn [flat_map]. rewrite !app_nil_r. rewrite <- !app_assoc in T4. exact T4.
Qed.

(** The search through the table is a search through the list. *)
Lemma first_trigger_find la end_la attr d l : forall n i,
  (forall k x, l !! k = Some x -> d_brk d (i + Z.of_nat k) = x) -> n = length l ->
  first_trigger n i la end_la attr d
  = option_map db_id (find (fun p => touches la end_la (start_addr p) (end_addr p)
                                     && negb ((attr =? D_R) && (db_type p =? D_WO))) l).
Proof.
  induction l as [|x l IH]; intros n i Hf ->; [reflexivity|]. cbn [length first_trigger find].
  pose proof (Hf 0%nat x eq_refl) as E0. rewrite Z.add_0_r in E0. rewrite E0.
  unfold touches. rewrite <- !negb_orb.
  destruct ((end_addr x <? la) || (end_la <? start_addr x) || _); [|reflexivity].
  cbn [negb]. apply IH; [|reflexivity]. intros k y Hk. rewrite <- (Hf (S k) y Hk). f_equal. lia.
Qed.

Lemma find_data d la end_la attr ls :
  dr_ok d -> attr = D_R \/ attr = D_W -> Forall (fun i => 0 <= i < 4) ls ->
  option_map db_id (find (fun p => touches la end_la (start_addr p) (end_addr p)
                                   && negb ((attr =? D_R) && (db_type p =? D_WO))) (flat_map (data_entry d) ls))
  = find (fun i => enabled d i && watched d la end_la attr i) ls.
Proof.
  intros Hd Ha. induction ls as [|i ls IH]; [reflexivity|]. intros HF. inversion HF; subst.
  cbn [flat_map find]. specialize (IH ltac:(assumption)). unfold data_entry at 1.
  rewrite <- would_trigger_spec by assumption. unfold would_trigger.
  unfold kind_of at 1 2 3. rewrite <- field_div by lia. fold (r_w_shift i).
  pose proof (field_range (r_w_shift i) d ltac:(unfold r_w_shift; lia)).
  set (f := dcr_field (r_w_shift i) d) in *. destruct (enabled d i); [|exact IH]. cbn [andb].
  assert (f = 0 \/ f = 1 \/ f = 2 \/ f = 3) as [-> | [-> | [-> | ->]]] by lia; cbn [Z.eqb Pos.eqb orb]; try exact IH.
  - destruct (len_to_addr i d) as [[start stop]|]; [|destruct (attr =? D_W); exact IH].
    cbn [app find start_addr end_addr db_type]. destruct Ha as [-> | ->]; cbn [Z.eqb Pos.eqb D_R D_W D_WO andb negb].
    + rewrite andb_false_r. exact IH.
    + rewrite andb_true_r. destruct (touches la end_la start stop); [reflexivity | exact IH].
  - destruct (len_to_addr i d) as [[start stop]|]; [|exact IH].
    cbn [app find start_addr end_addr db_type]. change (D_RW =? D_WO) with false. rewrite andb_false_r, andb_true_r.
    destruct (touches la end_la start stop); [reflexivity | exact IH].
Qed.

(** ** Setting status bits *)

Lemma set_B_DR i d r : DR (set_B i d) r = if r =? DR_DSR then DR d DR_DSR .| (1 .<< i) else DR d r.
Proof. reflexivity. Qed.

Lemma set_B_bit i d k :
  0 <= i < 4 -> 0 <= k -> Z.testbit (DR (set_B i d) DR_DSR) k = Z.testbit (DR d DR_DSR) k || (k =? i).
Proof.
  intros Hi Hk. rewrite set_B_DR, Z.eqb_refl, Z.lor_spec. f_equal.
  rewrite Z.shiftl_1_l, u32_small by (split; [|apply Z.pow_lt_mono_r]; lia).
  rewrite Z.pow2_bits_eqb by lia. apply Z.eqb_sym.
Qed.

Lemma would_trigger_set i j la end_la attr d :
  0 <= j < 4 -> would_trigger j la end_la attr (set_B i d) = would_trigger j la end_la attr d.
Proof.
  intros Hj. unfold would_trigger, len_to_addr, dcr_field. rewrite !set_B_DR.
  change (DR_DCR =? DR_DSR) with false. unfold DR_DSR.
  destruct (Z.eqb_spec j 6); [lia | reflexivity].
Qed.

(** A computation that only sets status bits: those of the registers in [b]. *)
Definition sets_bits (b : Z -> bool) (d d' : debug) : Prop :=
  (forall k, 0 <= k -> Z.testbit (DR d' DR_DSR) k = Z.testbit (DR d DR_DSR) k || ((k <? 4) && b k))
  /\ (forall r, r <> DR_DSR -> DR d' r = DR d r)
  /\ (nr_inst_break d', nr_data_break d', i_brk d', d_brk d', active_debug d')
     = (nr_inst_break d, nr_data_break d, i_brk d, d_brk d, active_debug d).

Lemma sets_none d : sets_bits (fun _ => false) d d.
Proof. repeat split. intros. now rewrite andb_false_r, orb_false_r. Qed.

Lemma sets_one b d d' i :
  0 <= i < 4 -> sets_bits b d d' -> sets_bits (fun k => b k || (k =? i)) d (set_B i d').
Proof.
  intros Hi (B & R & E). repeat split.
  - intros k Hk. rewrite set_B_bit, B by assumption. destruct (Z.ltb_spec k 4); cbn [andb]; [btauto|].
    rewrite !orb_false_r. destruct (Z.eqb_spec k i); [lia | apply orb_false_r].
  - intros r Hr. rewrite set_B_DR. destruct (Z.eqb_spec r DR_DSR); [contradiction | auto].
  - exact E.
Qed.

Lemma sets_ext b b' d d' : (forall k, 0 <= k < 4 -> b k = b' k) -> sets_bits b d d' -> sets_bits b' d d'.
Proof.
  intros E (B & R & X). split; [|auto]. intros k Hk. rewrite B by exact Hk.
  destruct (Z.ltb_spec k 4); [rewrite E by lia|]; reflexivity.
Qed.

Lemma sets_trigger b d d' la end_la attr i :
  sets_bits b d d' -> 0 <= i < 4 -> would_trigger i la end_la attr d' = would_trigger i la end_la attr d.
Proof.
  intros (_ & R & _) Hi. unfold would_trigger, len_to_addr, dcr_field.
  rewrite !R by (unfold DR_DSR, DR_DCR; lia). reflexivity.
Qed.

Lemma mark_fold la end_la attr trig d ls : forall b d',
  sets_bits b d d' -> Forall (fun i => 0 <= i < 4) ls ->
  sets_bits (fun k => b k || existsb (fun i => (k =? i) && (negb (i =? trig) && would_trigger i la end_la attr d)) ls) d
    (fold_left (fun d ii => if (ii =? trig) || negb (would_trigger ii la end_la attr d) then d else set_B ii d) ls d').
Proof.
  induction ls as [|i ls IH]; intros b d' Hb HF; cbn [fold_left existsb].
  { eapply sets_ext, Hb. intros. now rewrite orb_false_r. }
  inversion HF; subst. rewrite (sets_trigger _ _ _ la end_la attr i Hb) by assumption.
  destruct (i =? trig) eqn:Et; cbn [orb negb].
  { eapply sets_ext, (IH b d' Hb); [|assumption]. intros k _. now rewrite andb_false_r. }
  destruct (would_trigger i la end_la attr d) eqn:Ew; cbn [negb].
  - eapply sets_ext, (IH _ _ (sets_one _ _ _ i ltac:(assumption) Hb)); try assumption.
    intros k _. cbn. now rewrite andb_true_r, orb_assoc.
  - eapply sets_ext, (IH b d' Hb); [|assumption]. intros k _. now rewrite andb_false_r.
Qed.

Lemma one_of_four k (f : Z -> bool) :
  0 <= k < 4 -> existsb (fun i => (k =? i) && f i) [0; 1; 2; 3] = f k.
Proof.
  intros Hk. assert (k = 0 \/ k = 1 \/ k = 2 \/ k = 3) as [-> | [-> | [-> | ->]]] by lia;
    cbn [existsb Z.eqb Pos.eqb andb orb]; now rewrite ?orb_false_r.
Qed.

Lemma inst_fold la d l : forall n i b d',
  (forall k x, l !! k = Some x -> i_brk d' (i + Z.of_nat k) = x) -> n = length l ->
  Forall (fun p => 0 <= ib_id p < 4) l -> sets_bits b d d' ->
  sets_bits (fun k => b k || existsb (fun p => (k =? ib_id p) && (ib_addr p =? la)) l) d (inst_triggers n i la d').
Proof.
  induction l as [|x l IH]; intros n i b d' Hf -> HF Hb; cbn [length inst_triggers existsb].
  { eapply sets_ext, Hb. intros. now rewrite orb_false_r. }
  inversion HF; subst. pose proof (Hf 0%nat x eq_refl) as E0. rewrite Z.add_0_r in E0. rewrite E0.
  assert (Hf' : forall k y, l !! k = Some y -> i_brk d' (i + 1 + Z.of_nat k) = y).
  { intros k y Hk. rewrite <- (Hf (S k) y Hk). f_equal. lia. }
  destruct (ib_addr x =? la).
  - eapply sets_ext, (IH _ _ (fun k => b k || (k =? ib_id x))); auto using sets_one.
    intros k _. cbn. now rewrite andb_true_r, orb_assoc.
  - eapply sets_ext, (IH _ _ b d'); auto. intros k _. now rewrite andb_false_r.
Qed.

(** The tables are those of the registers. *)
Definition synced (d : debug) : Prop :=
  tables d (flat_map (inst_entry d) [0; 1; 2; 3]) (flat_map (data_entry d) [0; 1; 2; 3]).

Lemma entries_DR d d' i :
  DR d = DR d' -> inst_entry d i = inst_entry d' i /\ data_entry d i = data_entry d' i.
Proof.
  intros E. unfold inst_entry, data_entry, enabled, kind_of, len_to_addr, dcr_field. rewrite E. auto.
Qed.

Lemma setup_synced d : synced (setup_breakpoints d).
Proof.
  destruct (setup_tables d) as [E T]. unfold synced. cbn [flat_map] in *.
  destruct (entries_DR _ _ 0 E) as [-> ->], (entries_DR _ _ 1 E) as [-> ->],
    (entries_DR _ _ 2 E) as [-> ->], (entries_DR _ _ 3 E) as [-> ->]. exact T.
Qed.

Lemma data_exception_bits d la attr size :
  dr_ok d -> synced d -> attr = D_R \/ attr = D_W ->
  let w := watched d la (u32 (la + size)) attr in
  let hit := existsb (fun i => enabled d i && w i) [0; 1; 2; 3] in
  sets_bits (fun k => hit && w k) d (check_for_data_exception la attr size d).
Proof.
  intros Hd [_ [En Ef]] Ha w hit. unfold check_for_data_exception. rewrite En, Nat2Z.id.
  assert (HF : Forall (fun i => 0 <= i < 4) [0; 1; 2; 3]) by (repeat constructor; lia).
  rewrite (first_trigger_find _ _ _ _ _ _ 0 Ef eq_refl), find_data by assumption. fold w.
  destruct (find _ [0; 1; 2; 3]) as [trig|] eqn:EF.
  - apply find_some in EF as [Hin Ht].
    assert (0 <= trig < 4) by (cbn in Hin; lia). apply andb_prop in Ht as [He Hw].
    assert (Eh : hit = true).
    { apply existsb_exists. exists trig. split; [exact Hin | now rewrite He, Hw]. }
    unfold mark_others. eapply sets_ext, (mark_fold _ _ _ trig d); [|apply sets_one, sets_none; assumption | exact HF].
    intros k Hk. cbn beta. rewrite Eh. cbn [andb orb].
    rewrite one_of_four, would_trigger_spec by assumption. fold w.
    destruct (Z.eqb_spec k trig) as [-> |]; [now rewrite Hw | reflexivity].
  - replace hit with false; [apply sets_none|]. symmetry. apply not_true_is_false. intros T.
    apply existsb_exists in T as (i & Hin & T). now rewrite (find_none _ _ EF i Hin) in T.
Qed.

Lemma inst_exception_bits d la :
  synced d ->
  sets_bits (fun k => enabled d k && (kind_of d k =? 0) && (DR d k =? la)) d (check_for_inst_exception la d).
Proof.
  intros [[En Ef] _]. unfold check_for_inst_exception. rewrite En, Nat2Z.id.
  set (l := flat_map (inst_entry d) [0; 1; 2; 3]) in *.
  assert (HF : Forall (fun p => 0 <= ib_id p < 4) l).
  { apply Forall_flat_map. repeat constructor;
      (unfold inst_entry; destruct (_ && _); repeat constructor; cbn; lia). }
  eapply sets_ext, (inst_fold la d l _ 0 (fun _ => false)); auto using sets_none.
  intros k Hk. cbn [orb]. rewrite <- (one_of_four k (fun i => enabled d i && (kind_of d i =? 0) && (DR d i =? la))) by exact Hk.
  unfold l. clear. induction [0; 1; 2; 3] as [|i ls IH]; [reflexivity|]. cbn [flat_map existsb].
  rewrite existsb_app, IH. f_equal. unfold inst_entry. destruct (enabled d i && _); cbn; [|now rewrite andb_false_r].
  apply orb_false_r.
Qed.

(** A captured and restored snapshot leaves the breakpoint tables as they were. *)
Lemma snapshot_round_trip d d' state :
  nr_inst_break d <= NR_BRKS -> nr_data_break d <= NR_BRKS ->
  exists d2, snapshot_restore_debug (snapshot_capture_debug d state) d' = Some d2
  /\ nr_inst_break d2 = nr_inst_break d /\ nr_data_break d2 = nr_data_break d
  /\ forall i, 0 <= i < NR_BRKS -> i_brk d2 i = i_brk d i /\ d_brk d2 i = d_brk d i.
Proof.
  intros HI HD. unfold snapshot_restore_debug, snapshot_capture_debug. cbn.
  destruct (Z.ltb_spec NR_BRKS (nr_inst_break d)), (Z.ltb_spec NR_BRKS (nr_data_break d)); try lia. cbn.
  eexists. split; [reflexivity|]. repeat split; intros; unfold copy4; cbn;
    destruct (Z.leb_spec 0 i), (Z.ltb_spec i NR_BRKS); cbn; lia || reflexivity.
Qed.

(** ** The trace of the host debugger *)

(** One operand notification. *)
Record notification := mkNote { n_address : Z; n_bytes : Z; n_write : bool; n_data : list Z; n_reversed : bool }.
Definition notify (active : option host_debug) (x : notification) : option host_debug :=
  softpc_host_debug_access (n_address x) (n_bytes x) (n_write x) (n_data x) (n_reversed x) active.
Definition record_of (x : notification) : memory_access :=
  mkAccess (n_write x) (n_address x) (n_bytes x) (access_value (n_data x) (n_bytes x) (n_reversed x)).

Lemma watch_test_trace kind address bytes h :
  accesses (watch_test kind address bytes h) = accesses (obs h)
  /\ truncated (watch_test kind address bytes h) = truncated (obs h).
Proof. unfold watch_test. destruct (watches h kind); [destruct (_ && _)|]; auto. Qed.

Lemma trace_step h x :
  in_instruction h = true -> plan h = EXECUTION_TRACE -> n_bytes x <> 0 ->
  exists h', notify (Some h) x = Some h' /\ in_instruction h' = true /\ plan h' = EXECUTION_TRACE
  /\ accesses (obs h') = (if Z.of_nat (length (accesses (obs h))) =? ACCESS_CAPACITY then accesses (obs h)
                           else accesses (obs h) ++ [record_of x])
  /\ truncated (obs h') = truncated (obs h) || (Z.of_nat (length (accesses (obs h))) =? ACCESS_CAPACITY).
Proof.
  intros HI HP HB. unfold notify, softpc_host_debug_access. rewrite HI.
  destruct (Z.eqb_spec (n_bytes x) 0); [contradiction|]. cbn [negb orb].
  rewrite bool_decide_true by exact HP. cbn [negb andb].
  set (r := watch_test _ _ _ h). destruct (watch_test_trace (if n_write x then WATCH_WRITE else WATCH_READ)
    (n_address x) (n_bytes x) h) as [EA ET]. fold r in EA, ET.
  eexists. split; [reflexivity|]. cbn. rewrite EA, ET.
  destruct (Z.of_nat _ =? _); cbn; rewrite ?EA, ?ET, ?orb_true_r, ?orb_false_r; auto.
Qed.

Lemma trace_run xs : forall h,
  in_instruction h = true -> plan h = EXECUTION_TRACE -> Forall (fun x => n_bytes x <> 0) xs ->
  Z.of_nat (length (accesses (obs h))) <= ACCESS_CAPACITY ->
  exists h', fold_left notify xs (Some h) = Some h'
  /\ accesses (obs h') = take (Z.to_nat ACCESS_CAPACITY) (accesses (obs h) ++ map record_of xs)
  /\ truncated (obs h') = truncated (obs h)
       || (ACCESS_CAPACITY <? Z.of_nat (length (accesses (obs h)) + length xs)).
Proof.
  induction xs as [|x xs IH]; intros h HI HP HB HL; cbn [fold_left map].
  { exists h. rewrite app_nil_r, take_ge by (unfold ACCESS_CAPACITY in *; lia). split; [reflexivity|].
    split; [reflexivity|]. cbn. destruct (Z.ltb_spec ACCESS_CAPACITY (Z.of_nat (length (accesses (obs h)) + 0)));
      [lia | now rewrite orb_false_r]. }
  inversion HB; subst. destruct (trace_step h x HI HP) as (h1 & E1 & I1 & P1 & A1 & T1); [assumption|].
  rewrite E1. destruct (Z.eqb_spec (Z.of_nat (length (accesses (obs h)))) ACCESS_CAPACITY) as [EL | NL].
  - destruct (IH h1 I1 P1) as (h' & E & A & T); [assumption | rewrite A1; lia|].
    exists h'. split; [exact E|]. rewrite A, T, A1, T1. split.
    + rewrite !take_app_le by (unfold ACCESS_CAPACITY in *; lia). reflexivity.
    + rewrite orb_true_r. cbn. destruct (Z.ltb_spec ACCESS_CAPACITY (Z.of_nat (length (accesses (obs h)) + S (length xs))));
        [now rewrite orb_true_r | lia].
  - destruct (IH h1 I1 P1) as (h' & E & A & T); [assumption | rewrite A1, length_app; cbn; lia|].
    exists h'. split; [exact E|]. rewrite A, T, A1, T1, <- app_assoc, orb_false_r, length_app. split; [reflexivity|].
    f_equal. f_equal. cbn. lia.
Qed.

(** ** Theorems *)

(** C13 - Breakpoints: once [setup_breakpoints] has read the debug registers, a data
    access to the bytes from [la] to [la + size] sets the status bits of all registers
    whose aligned area and kind it matches, enabled or not, if at least one of them is
    enabled, and nothing otherwise; an instruction fetch sets the bits of exactly the
    enabled instruction breakpoints at its address.  No other debug register or bit
    changes. *)
Theorem breakpoints_exact d0 la attr size :
  dr_ok d0 -> attr = D_R \/ attr = D_W ->
  let d := setup_breakpoints d0 in
  let w := watched d0 la (u32 (la + size)) attr in
  let hit := existsb (fun i => enabled d0 i && w i) [0; 1; 2; 3] in
  (forall r, DR d r = DR d0 r)
  /\ sets_bits (fun k => hit && w k) d (check_for_data_exception la attr size d)
  /\ sets_bits (fun k => enabled d0 k && (kind_of d0 k =? 0) && (DR d0 k =? la)) d (check_for_inst_exception la d).
Proof.
  intros Hd Ha d w hit. destruct (setup_tables d0) as [E _]. pose proof (setup_synced d0) as Sy.
  assert (Hd' : dr_ok d) by (intros i; unfold d; rewrite E; apply Hd).
  pose proof (data_exception_bits d la attr size Hd' Sy Ha) as HD.
  pose proof (inst_exception_bits d la Sy) as HI.
  unfold watched, enabled, kind_of, length_of in *. subst d. rewrite E in *.
  split; [reflexivity|]. split; [exact HD | exact HI].
Qed.

(** The host debugger's trace: while an instruction is traced, the record after any
    sequence of operand accesses holds exactly the first 32 of them, in order and with
    their values, and is marked truncated if and only if there were more. *)
Theorem trace_bounded h xs :
  in_instruction h = true -> plan h = EXECUTION_TRACE -> Forall (fun x => n_bytes x <> 0) xs ->
  accesses (obs h) = [] -> truncated (obs h) = false ->
  exists h', fold_left notify xs (Some h) = Some h'
  /\ accesses (obs h') = take 32 (map record_of xs)
  /\ truncated (obs h') = (32 <? Z.of_nat (length xs)).
Proof.
  intros HI HP HB HA HT. destruct (trace_run xs h HI HP HB) as (h' & E & A & T).
  { rewrite HA. unfold ACCESS_CAPACITY. cbn. lia. }
  exists h'. rewrite HA, HT in *. auto.
Qed.

(** A write watch on two bytes in register 1, read back from the registers. *)
Definition debug0 : debug :=
  mkDebug (fun i => if i =? 7 then 0x00500004 else if i =? 1 then 0x1001 else 0) 0 0
    (fun _ => mkINST 0 0) (fun _ => mkDATA 0 0 0 0) None.

Lemma breakpoints_exact_witness :
  let d := setup_breakpoints debug0 in
  sets_bits (fun k => watched debug0 0xffe 0x1001 D_W k) d (check_for_data_exception 0xffe D_W 3 d).
Proof.
  assert (Hd : dr_ok debug0).
  { intros i. cbn. destruct (i =? 7); [lia|]. destruct (i =? 1); lia. }
  exact (proj1 (proj2 (breakpoints_exact debug0 0xffe D_W 3 Hd (or_intror eq_refl)))).
Defined.

Definition host0 : host_debug :=
  mkHost EXECUTION_TRACE 1 0 false true (fun _ => None) (mkObs [] false false WATCH_READ 0).

Lemma trace_bounded_witness :
  exists h', fold_left notify (repeat (mkNote 0x400 2 true [0x34; 0x12] false) 40) (Some host0) = Some h'
  /\ accesses (obs h') = repeat (mkAccess true 0x400 2 0x1234) 32 /\ truncated (obs h') = true.
Proof.
  destruct (trace_bounded host0 (repeat (mkNote 0x400 2 true [0x34; 0x12] false) 40)) as (h' & E & A & T);
    [reflexivity | reflexivity | repeat constructor; discriminate | reflexivity | reflexivity |].
  exists h'. split; [exact E|]. split; [exact A | exact T].
Defined.

End Debug.
