(* ===== verification/Arith.v ===== *)
(** * Integer arithmetic and logic instructions

    [add.c], [adc.c], [sub.c], [sbb.c], [cmp.c], [neg.c], [inc.c], [dec.c],
    [and.c], [or.c], [xor.c], [test.c] and [not.c]: one routine per
    instruction, generic in the operand size (8, 16 or 32 bits).  A routine
    takes the operand values and the flags and returns the value it stores
    through [pop1] with the new flags. *)

From S2P Require Import Prelude Cpu.

Module Arith.

Definition ADD (op1 op2 op_sz : Z) (f : FLAGS) : Z * FLAGS :=
  let msb := SZ2MSB op_sz in
  let result := u32 (op1 + op2) .& SZ2MASK op_sz in
  let op1_msb := nz (op1 .& msb) in
  let op2_msb := nz (op2 .& msb) in
  let res_msb := nz (result .& msb) in
  let carry := (op1 .^ op2) .^ result in
  let f := SET_OF (Z.b2z (op1_msb =? op2_msb) .& (op2_msb .^ res_msb)) f in
  let f := SET_CF (nz (carry .& msb) .^ OF f) f in
  let f := SET_PF (pf (result .& BYTE_MASK)) f in
  let f := SET_ZF (Z.b2z (result =? 0)) f in
  let f := SET_SF (nz (result .& msb)) f in
  let f := SET_AF (nz (carry .& BIT_MASK 4)) f in
  (result, f).

Definition ADC (op1 op2 op_sz : Z) (f : FLAGS) : Z * FLAGS :=
  let msb := SZ2MSB op_sz in
  let result := u32 (u32 (op1 + op2) + CF f) .& SZ2MASK op_sz in
  let op1_msb := nz (op1 .& msb) in
  let op2_msb := nz (op2 .& msb) in
  let res_msb := nz (result .& msb) in
  let carry := (op1 .^ op2) .^ result in
  let f := SET_OF (Z.b2z (op1_msb =? op2_msb) .& (op2_msb .^ res_msb)) f in
  let f := SET_CF (nz (carry .& msb) .^ OF f) f in
  let f := SET_PF (pf (result .& BYTE_MASK)) f in
  let f := SET_ZF (Z.b2z (result =? 0)) f in
  let f := SET_SF (nz (result .& msb)) f in
  let f := SET_AF (nz (carry .& BIT_MASK 4)) f in
  (result, f).

Definition SUB (op1 op2 op_sz : Z) (f : FLAGS) : Z * FLAGS :=
  let msb := SZ2MSB op_sz in
  let result := u32 (op1 - op2) .& SZ2MASK op_sz in
  let op1_msb := nz (op1 .& msb) in
  let op2_msb := nz (op2 .& msb) in
  let res_msb := nz (result .& msb) in
  let carry := (op1 .^ op2) .^ result in
  let f := SET_OF (Z.b2z (negb (op1_msb =? op2_msb)) .& (op1_msb .^ res_msb)) f in
  let f := SET_CF (nz (carry .& msb) .^ OF f) f in
  let f := SET_PF (pf (result .& BYTE_MASK)) f in
  let f := SET_ZF (Z.b2z (result =? 0)) f in
  let f := SET_SF (nz (result .& msb)) f in
  let f := SET_AF (nz (carry .& BIT_MASK 4)) f in
  (result, f).

Definition SBB (op1 op2 op_sz : Z) (f : FLAGS) : Z * FLAGS :=
  let msb := SZ2MSB op_sz in
  let result := u32 (u32 (op1 - op2) - CF f) .& SZ2MASK op_sz in
  let op1_msb := nz (op1 .& msb) in
  let op2_msb := nz (op2 .& msb) in
  let res_msb := nz (result .& msb) in
  let carry := (op1 .^ op2) .^ result in
  let f := SET_OF (Z.b2z (negb (op1_msb =? op2_msb)) .& (op1_msb .^ res_msb)) f in
  let f := SET_CF (nz (carry .& msb) .^ OF f) f in
  let f := SET_PF (pf (result .& BYTE_MASK)) f in
  let f := SET_ZF (Z.b2z (result =? 0)) f in
  let f := SET_SF (nz (result .& msb)) f in
  let f := SET_AF (nz (carry .& BIT_MASK 4)) f in
  (result, f).

(** CMP only sets flags. *)
Definition CMP (op1 op2 op_sz : Z) (f : FLAGS) : FLAGS :=
  let msb := SZ2MSB op_sz in
  let result := u32 (op1 - op2) .& SZ2MASK op_sz in
  let op1_msb := nz (op1 .& msb) in
  let op2_msb := nz (op2 .& msb) in
  let res_msb := nz (result .& msb) in
  let carry := (op1 .^ op2) .^ result in
  let f := SET_OF (Z.b2z (negb (op1_msb =? op2_msb)) .& (op1_msb .^ res_msb)) f in
  let f := SET_CF (nz (carry .& msb) .^ OF f) f in
  let f := SET_PF (pf (result .& BYTE_MASK)) f in
  let f := SET_ZF (Z.b2z (result =? 0)) f in
  let f := SET_SF (nz (result .& msb)) f in
  SET_AF (nz (carry .& BIT_MASK 4)) f.

Definition NEG (op1 op_sz : Z) (f : FLAGS) : Z * FLAGS :=
  let msb := SZ2MSB op_sz in
  let result := u32 (- op1) .& SZ2MASK op_sz in
  let op1_msb := nz (op1 .& msb) in
  let res_msb := nz (result .& msb) in
  let f := SET_OF (op1_msb .& res_msb) f in
  let f := SET_CF (op1_msb .| res_msb) f in
  let f := SET_PF (pf (result .& BYTE_MASK)) f in
  let f := SET_ZF (Z.b2z (result =? 0)) f in
  let f := SET_SF (nz (result .& msb)) f in
  let f := SET_AF (nz ((op1 .^ result) .& BIT_MASK 4)) f in
  (result, f).

(** CF is left unchanged by INC and DEC. *)
Definition INC (op1 op_sz : Z) (f : FLAGS) : Z * FLAGS :=
  let msb := SZ2MSB op_sz in
  let result := u32 (op1 + 1) .& SZ2MASK op_sz in
  let op1_msb := nz (op1 .& msb) in
  let res_msb := nz (result .& msb) in
  let f := SET_OF (Z.b2z (op1_msb =? 0) .& res_msb) f in
  let f := SET_PF (pf (result .& BYTE_MASK)) f in
  let f := SET_ZF (Z.b2z (result =? 0)) f in
  let f := SET_SF (nz (result .& msb)) f in
  let f := SET_AF (nz ((op1 .^ result) .& BIT_MASK 4)) f in
  (result, f).

Definition DEC (op1 op_sz : Z) (f : FLAGS) : Z * FLAGS :=
  let msb := SZ2MSB op_sz in
  let result := u32 (op1 - 1) .& SZ2MASK op_sz in
  let op1_msb := nz (op1 .& msb) in
  let res_msb := nz (result .& msb) in
  let f := SET_OF (op1_msb .& Z.b2z (res_msb =? 0)) f in
  let f := SET_PF (pf (result .& BYTE_MASK)) f in
  let f := SET_ZF (Z.b2z (result =? 0)) f in
  let f := SET_SF (nz (result .& msb)) f in
  let f := SET_AF (nz ((op1 .^ result) .& BIT_MASK 4)) f in
  (result, f).

(** The flag part the four logic instructions share in the source text. *)
Definition logic_flags (result op_sz : Z) (f : FLAGS) : FLAGS :=
  let f := SET_CF 0 f in
  let f := SET_OF 0 f in
  let f := SET_AF 0 f in
  let f := SET_PF (pf (result .& BYTE_MASK)) f in
  let f := SET_ZF (Z.b2z (result =? 0)) f in
  SET_SF (nz (result .& SZ2MSB op_sz)) f.

Definition AND (op1 op2 op_sz : Z) (f : FLAGS) : Z * FLAGS :=
  let result := op1 .& op2 in (result, logic_flags result op_sz f).

Definition OR (op1 op2 op_sz : Z) (f : FLAGS) : Z * FLAGS :=
  let result := op1 .| op2 in (result, logic_flags result op_sz f).

Definition XOR (op1 op2 op_sz : Z) (f : FLAGS) : Z * FLAGS :=
  let result := op1 .^ op2 in (result, logic_flags result op_sz f).

Definition TEST (op1 op2 op_sz : Z) (f : FLAGS) : FLAGS :=
  let result := op1 .& op2 in logic_flags result op_sz f.

Definition NOT (op1 : Z) : Z := not32 op1.

(** ** Specification

    What the programmer's manual says of the flags, over the integers: the
    carry is the quotient of the exact sum, the overflow says that the exact
    signed sum does not fit, the half carry is the carry out of bit 3 and the
    parity looks at the low byte. *)

Definition parity8 (x : Z) : Z :=
  Z.b2z (negb (fold_right xorb false (map (fun i => Z.testbit x i) [0; 1; 2; 3; 4; 5; 6; 7]))).

Definition fits (sz v : Z) : bool := (- 2 ^ (sz - 1) <=? v) && (v <? 2 ^ (sz - 1)).

Definition result_flags (sz r : Z) (f : FLAGS) : FLAGS :=
  SET_SF (Z.b2z (sgn sz r <? 0)) (SET_ZF (Z.b2z (r =? 0)) (SET_PF (parity8 r) f)).

Definition add_spec (sz a b c : Z) (f : FLAGS) : Z * FLAGS :=
  let s := a + b + c in
  let r := s mod 2 ^ sz in
  (r, SET_AF ((a mod 16 + b mod 16 + c) / 16)
        (SET_CF (s / 2 ^ sz)
          (SET_OF (Z.b2z (negb (fits sz (sgn sz a + sgn sz b + c))))
            (result_flags sz r f)))).

Definition sub_spec (sz a b c : Z) (f : FLAGS) : Z * FLAGS :=
  let s := a - b - c in
  let r := s mod 2 ^ sz in
  (r, SET_AF (Z.b2z (a mod 16 <? b mod 16 + c))
        (SET_CF (Z.b2z (a <? b + c))
          (SET_OF (Z.b2z (negb (fits sz (sgn sz a - sgn sz b - c))))
            (result_flags sz r f)))).

(** ** Lemmas *)

Lemma pf_parity8 r : 0 <= r < 256 -> pf r = parity8 r.
Proof.
  intros Hr.
  assert (forallb (fun n => pf (Z.of_nat n) =? parity8 (Z.of_nat n)) (seq 0 256) = true)
    as HF by (vm_compute; reflexivity).
  rewrite forallb_forall in HF. specialize (HF (Z.to_nat r)).
  rewrite Z2Nat.id, Z.eqb_eq in HF by lia. apply HF.
  apply in_seq. lia.
Qed.

Lemma parity8_mod r : parity8 (r mod 256) = parity8 r.
Proof.
  unfold parity8. change 256 with (2 ^ 8). cbn [map fold_right].
  rewrite !Z.mod_pow2_bits_low by lia. reflexivity.
Qed.

Lemma pf_low_byte r : pf (r .& BYTE_MASK) = parity8 r.
Proof.
  change BYTE_MASK with (2 ^ 8 - 1). rewrite land_mask by lia.
  rewrite pf_parity8 by (apply Z.mod_pos_bound; lia). apply parity8_mod.
Qed.

Lemma nz_land_4 x : nz (x .& BIT_MASK 4) = Z.b2z (Z.testbit x 4).
Proof. apply nz_land_pow2; lia. Qed.

Lemma sgn_neg sz r :
  op_size sz -> 0 <= r < 2 ^ sz -> Z.b2z (Z.testbit r (sz - 1)) = Z.b2z (sgn sz r <? 0).
Proof.
  intros Hs Hr. apply op_size_range in Hs.
  rewrite sgn_cases by lia. pose proof (msb_ge_half r sz ltac:(lia) Hr) as Hm.
  pose proof (pow2_pos (sz - 1) ltac:(lia)).
  destruct (Z.testbit r (sz - 1)); f_equal; symmetry;
    [apply Z.ltb_lt | apply Z.ltb_ge]; lia.
Qed.

(** Reading a bit of [a xor b xor r] where [r] is the truncated sum. *)
Lemma carry_trunc a b c sz i :
  0 <= i < sz -> 0 <= c <= 1 ->
  Z.testbit (Z.lxor (Z.lxor a b) ((a + b + c) mod 2 ^ sz)) i
  = (2 ^ i <=? a mod 2 ^ i + b mod 2 ^ i + c).
Proof.
  intros Hi Hc. rewrite <- carry_into by lia.
  rewrite !Z.lxor_spec, Z.mod_pow2_bits_low by lia. reflexivity.
Qed.

Lemma borrow_trunc a b c sz i :
  0 <= i < sz -> 0 <= c <= 1 ->
  Z.testbit (Z.lxor (Z.lxor a b) ((a - b - c) mod 2 ^ sz)) i
  = (a mod 2 ^ i <? b mod 2 ^ i + c).
Proof.
  intros Hi Hc. rewrite <- borrow_into by lia.
  rewrite !Z.lxor_spec, Z.mod_pow2_bits_low by lia. reflexivity.
Qed.

(** The low part of an operand below its sign bit. *)
Lemma mod_half x sz :
  1 <= sz -> 0 <= x < 2 ^ sz ->
  x mod 2 ^ (sz - 1) = if 2 ^ (sz - 1) <=? x then x - 2 ^ (sz - 1) else x.
Proof.
  intros Hs Hx. pose proof (pow2_pos (sz - 1) ltac:(lia)). pose proof (pow2_split sz Hs).
  destruct (Z.leb_spec (2 ^ (sz - 1)) x).
  - symmetry. apply Z.mod_unique with 1; lia.
  - apply Z.mod_small; lia.
Qed.

Lemma sum_mod a b c N :
  0 <= a < N -> 0 <= b < N -> 0 <= c <= 1 ->
  (a + b + c) mod N = (if N <=? a + b + c then a + b + c - N else a + b + c)
  /\ (a + b + c) / N = Z.b2z (N <=? a + b + c).
Proof.
  intros. destruct (Z.leb_spec N (a + b + c)).
  - split; symmetry; [apply Z.mod_unique with 1 | apply Z.div_unique with (a + b + c - N)];
      simpl; lia.
  - split; [apply Z.mod_small | apply Z.div_small]; lia.
Qed.

Lemma diff_mod a b c N :
  0 <= a < N -> 0 <= b < N -> 0 <= c <= 1 ->
  (a - b - c) mod N = if a <? b + c then a - b - c + N else a - b - c.
Proof.
  intros. destruct (Z.ltb_spec a (b + c)).
  - symmetry. apply Z.mod_unique with (-1); lia.
  - apply Z.mod_small; lia.
Qed.

(** The half carry. *)
Lemma half_carry a b c :
  0 <= c <= 1 ->
  Z.b2z (2 ^ 4 <=? a mod 2 ^ 4 + b mod 2 ^ 4 + c) = (a mod 16 + b mod 16 + c) / 16.
Proof.
  intros. change (2 ^ 4) with 16.
  pose proof (Z.mod_pos_bound a 16 ltac:(lia)). pose proof (Z.mod_pos_bound b 16 ltac:(lia)).
  destruct (sum_mod (a mod 16) (b mod 16) c 16) as [_ ->]; lia.
Qed.

(** The overflow and carry expressions of the adders, over an abstract sign
    weight [h] (the operand has weight [2 * h]). *)
Lemma add_overflow a b c h :
  0 < h -> 0 <= a < 2 * h -> 0 <= b < 2 * h -> 0 <= c <= 1 ->
  let r := if 2 * h <=? a + b + c then a + b + c - 2 * h else a + b + c in
  let sg x := if h <=? x then x - 2 * h else x in
  let m x := Z.b2z (h <=? x) in
  let low x := if h <=? x then x - h else x in
  let o := Z.land (Z.b2z (m a =? m b)) (Z.lxor (m b) (m r)) in
  o = Z.b2z (negb ((- h <=? sg a + sg b + c) && (sg a + sg b + c <? h)))
  /\ Z.lxor (Z.b2z (h <=? low a + low b + c)) o = Z.b2z (2 * h <=? a + b + c).
Proof.
  intros Hh Ha Hb Hc r sg m low o. unfold o, m, sg, low, r.
  split_leb; split; try reflexivity; exfalso; lia.
Qed.

Lemma sub_overflow a b c h :
  0 < h -> 0 <= a < 2 * h -> 0 <= b < 2 * h -> 0 <= c <= 1 ->
  let r := if a <? b + c then a - b - c + 2 * h else a - b - c in
  let sg x := if h <=? x then x - 2 * h else x in
  let m x := Z.b2z (h <=? x) in
  let low x := if h <=? x then x - h else x in
  let o := Z.land (Z.b2z (negb (m a =? m b))) (Z.lxor (m a) (m r)) in
  o = Z.b2z (negb ((- h <=? sg a - sg b - c) && (sg a - sg b - c <? h)))
  /\ Z.lxor (Z.b2z (low a <? low b + c)) o = Z.b2z (a <? b + c).
Proof.
  intros Hh Ha Hb Hc r sg m low o. unfold o, m, sg, low, r.
  split_leb; split; try reflexivity; exfalso; lia.
Qed.

(** The flag block ADD and ADC share, and the one SUB, SBB and CMP share. *)
Definition adder_flags (op1 op2 result op_sz : Z) (f : FLAGS) : FLAGS :=
  let msb := SZ2MSB op_sz in
  let carry := (op1 .^ op2) .^ result in
  let f := SET_OF (Z.b2z (nz (op1 .& msb) =? nz (op2 .& msb))
                   .& (nz (op2 .& msb) .^ nz (result .& msb))) f in
  let f := SET_CF (nz (carry .& msb) .^ OF f) f in
  let f := SET_PF (pf (result .& BYTE_MASK)) f in
  let f := SET_ZF (Z.b2z (result =? 0)) f in
  let f := SET_SF (nz (result .& msb)) f in
  SET_AF (nz (carry .& BIT_MASK 4)) f.

Definition subber_flags (op1 op2 result op_sz : Z) (f : FLAGS) : FLAGS :=
  let msb := SZ2MSB op_sz in
  let carry := (op1 .^ op2) .^ result in
  let f := SET_OF (Z.b2z (negb (nz (op1 .& msb) =? nz (op2 .& msb)))
                   .& (nz (op1 .& msb) .^ nz (result .& msb))) f in
  let f := SET_CF (nz (carry .& msb) .^ OF f) f in
  let f := SET_PF (pf (result .& BYTE_MASK)) f in
  let f := SET_ZF (Z.b2z (result =? 0)) f in
  let f := SET_SF (nz (result .& msb)) f in
  SET_AF (nz (carry .& BIT_MASK 4)) f.

Section Operands.
Context (sz a b : Z) (Hs : op_size sz).
Context (Ha : 0 <= a < 2 ^ sz) (Hb : 0 <= b < 2 ^ sz).

Lemma operand_facts : 8 <= sz <= 32 /\ 0 < 2 ^ (sz - 1) /\ 2 ^ sz = 2 * 2 ^ (sz - 1).
Proof using Hs.
  pose proof (op_size_range sz Hs).
  split; [lia|]. split; [apply pow2_pos; lia | apply pow2_split; lia].
Qed.

Lemma nz_msb x : 0 <= x < 2 ^ sz -> nz (x .& SZ2MSB sz) = Z.b2z (2 ^ (sz - 1) <=? x).
Proof using Hs.
  intros Hx. rewrite nz_land_msb, msb_ge_half; auto. destruct operand_facts; lia.
Qed.

Lemma sgn_half x :
  0 <= x < 2 ^ sz -> sgn sz x = if 2 ^ (sz - 1) <=? x then x - 2 * 2 ^ (sz - 1) else x.
Proof using Hs.
  intros Hx. destruct operand_facts as (? & ? & <-).
  rewrite sgn_cases, msb_ge_half by lia. reflexivity.
Qed.

Lemma sgn_lt0 x : 0 <= x < 2 ^ sz -> (sgn sz x <? 0) = (2 ^ (sz - 1) <=? x).
Proof using Hs.
  intros Hx. destruct operand_facts as (? & ? & ?). rewrite sgn_half by assumption.
  split_leb; try reflexivity; lia.
Qed.

Lemma adder_flags_spec c f :
  0 <= c <= 1 ->
  adder_flags a b ((a + b + c) mod 2 ^ sz) sz f = snd (add_spec sz a b c f).
Proof using Hs Ha Hb.
  intros Hc. destruct operand_facts as (Hr & Hh & Hp).
  assert (Hr0 : 0 <= (a + b + c) mod 2 ^ sz < 2 ^ sz) by (apply Z.mod_pos_bound; lia).
  destruct (sum_mod a b c (2 ^ sz) Ha Hb Hc) as [Hmod Hdiv].
  destruct (add_overflow a b c (2 ^ (sz - 1)) Hh) as [Ho Hcf]; [lia..|].
  rewrite <- Hp in Ho, Hcf. rewrite <- Hmod in Ho, Hcf.
  unfold adder_flags, add_spec, result_flags, fits.
  rewrite (nz_msb a), (nz_msb b), (nz_msb _ Hr0), (nz_land_msb _ sz Hs), nz_land_4,
    pf_low_byte, !carry_trunc, half_carry, sgn_lt0, !sgn_half, !mod_half, Hdiv by lia.
  rewrite Hp in *. rewrite <- Ho, <- Hcf. reflexivity.
Qed.

Lemma subber_flags_spec c f :
  0 <= c <= 1 ->
  subber_flags a b ((a - b - c) mod 2 ^ sz) sz f = snd (sub_spec sz a b c f).
Proof using Hs Ha Hb.
  intros Hc. destruct operand_facts as (Hr & Hh & Hp).
  assert (Hr0 : 0 <= (a - b - c) mod 2 ^ sz < 2 ^ sz) by (apply Z.mod_pos_bound; lia).
  pose proof (diff_mod a b c (2 ^ sz) Ha Hb Hc) as Hmod.
  destruct (sub_overflow a b c (2 ^ (sz - 1)) Hh) as [Ho Hcf]; [lia..|].
  rewrite <- Hp in Ho, Hcf. rewrite <- Hmod in Ho, Hcf.
  unfold subber_flags, sub_spec, result_flags, fits.
  rewrite (nz_msb a), (nz_msb b), (nz_msb _ Hr0), (nz_land_msb _ sz Hs), nz_land_4,
    pf_low_byte, !borrow_trunc, sgn_lt0, !sgn_half, !mod_half by lia.
  rewrite Hp in *. rewrite <- Ho, <- Hcf. reflexivity.
Qed.

Lemma ADD_eq f : ADD a b sz f = add_spec sz a b 0 f.
Proof using Hs Ha Hb.
  unfold ADD. rewrite land_u32_SZ2MASK by assumption.
  replace (a + b) with (a + b + 0) by lia.
  change (((a + b + 0) mod 2 ^ sz, adder_flags a b ((a + b + 0) mod 2 ^ sz) sz f)
          = add_spec sz a b 0 f).
  rewrite adder_flags_spec by lia. reflexivity.
Qed.

Lemma trunc_sum3 x y c : u32 (u32 (x + y) + c) .& SZ2MASK sz = (x + y + c) mod 2 ^ sz.
Proof using Hs.
  rewrite land_u32_SZ2MASK by assumption. unfold u32.
  rewrite <- Zplus_mod_idemp_l, mod_mod_le, Zplus_mod_idemp_l
    by (destruct operand_facts; lia). reflexivity.
Qed.

Lemma trunc_diff3 x y c : u32 (u32 (x - y) - c) .& SZ2MASK sz = (x - y - c) mod 2 ^ sz.
Proof using Hs.
  rewrite land_u32_SZ2MASK by assumption. unfold u32.
  rewrite <- Zminus_mod_idemp_l, mod_mod_le, Zminus_mod_idemp_l
    by (destruct operand_facts; lia). reflexivity.
Qed.

Lemma ADC_eq f : 0 <= CF f <= 1 -> ADC a b sz f = add_spec sz a b (CF f) f.
Proof using Hs Ha Hb.
  intros Hc. unfold ADC. rewrite trunc_sum3.
  change (((a + b + CF f) mod 2 ^ sz, adder_flags a b ((a + b + CF f) mod 2 ^ sz) sz f)
          = add_spec sz a b (CF f) f).
  rewrite adder_flags_spec by lia. reflexivity.
Qed.

Lemma SUB_eq f : SUB a b sz f = sub_spec sz a b 0 f.
Proof using Hs Ha Hb.
  unfold SUB. rewrite land_u32_SZ2MASK by assumption.
  replace (a - b) with (a - b - 0) by lia.
  change (((a - b - 0) mod 2 ^ sz, subber_flags a b ((a - b - 0) mod 2 ^ sz) sz f)
          = sub_spec sz a b 0 f).
  rewrite subber_flags_spec by lia. reflexivity.
Qed.

Lemma SBB_eq f : 0 <= CF f <= 1 -> SBB a b sz f = sub_spec sz a b (CF f) f.
Proof using Hs Ha Hb.
  intros Hc. unfold SBB. rewrite trunc_diff3.
  change (((a - b - CF f) mod 2 ^ sz, subber_flags a b ((a - b - CF f) mod 2 ^ sz) sz f)
          = sub_spec sz a b (CF f) f).
  rewrite subber_flags_spec by lia. reflexivity.
Qed.

Lemma CMP_SUB f : CMP a b sz f = snd (SUB a b sz f).
Proof using. reflexivity. Qed.

End Operands.

Lemma logic_flags_spec sz r f :
  op_size sz -> 0 <= r < 2 ^ sz ->
  logic_flags r sz f = result_flags sz r (SET_AF 0 (SET_OF 0 (SET_CF 0 f))).
Proof.
  intros Hs Hr. unfold logic_flags, result_flags.
  rewrite pf_low_byte, (nz_msb sz Hs), (sgn_lt0 sz Hs) by assumption. reflexivity.
Qed.

(** ** Multi-precision arithmetic

    The way guest code adds long integers: ADC over the limbs, low limb first,
    the carry flag passed on from limb to limb. *)

Fixpoint limbs (sz : Z) (xs : list Z) : Z :=
  match xs with [] => 0 | x :: xs => x + 2 ^ sz * limbs sz xs end.

Fixpoint chain (op : Z -> Z -> Z -> FLAGS -> Z * FLAGS) (sz : Z) (xs ys : list Z)
    (f : FLAGS) : list Z * FLAGS :=
  match xs, ys with
  | x :: xs, y :: ys =>
      let '(r, f) := op x y sz f in
      let '(rs, f) := chain op sz xs ys f in (r :: rs, f)
  | _, _ => ([], f)
  end.

Definition limb_ok (sz x : Z) : Prop := 0 <= x < 2 ^ sz.

Lemma add_spec_limb sz a b c f :
  op_size sz -> limb_ok sz a -> limb_ok sz b -> 0 <= c <= 1 ->
  let '(r, f') := add_spec sz a b c f in
  limb_ok sz r /\ 0 <= CF f' <= 1 /\ r + 2 ^ sz * CF f' = a + b + c.
Proof.
  intros Hs Ha Hb Hc. destruct (operand_facts sz Hs) as (_ & Hh & Hp).
  unfold add_spec. cbn [CF SET_CF SET_AF].
  pose proof (Z.mod_pos_bound (a + b + c) (2 ^ sz) ltac:(lia)).
  pose proof (Z_div_mod_eq_full (a + b + c) (2 ^ sz)).
  destruct (sum_mod a b c (2 ^ sz)) as [_ Hd]; [assumption..|].
  split; [assumption|]. split; [rewrite Hd; split_leb; simpl; lia | lia].
Qed.

Lemma sub_spec_limb sz a b c f :
  op_size sz -> limb_ok sz a -> limb_ok sz b -> 0 <= c <= 1 ->
  let '(r, f') := sub_spec sz a b c f in
  limb_ok sz r /\ 0 <= CF f' <= 1 /\ r - 2 ^ sz * CF f' = a - b - c.
Proof.
  intros Hs Ha Hb Hc. destruct (operand_facts sz Hs) as (_ & Hh & Hp).
  unfold sub_spec. cbn [CF SET_CF SET_AF].
  pose proof (Z.mod_pos_bound (a - b - c) (2 ^ sz) ltac:(lia)).
  split; [assumption|]. unfold limb_ok in *. rewrite diff_mod by lia.
  split_leb; simpl; lia.
Qed.

Section Chains.
Context (sz : Z) (Hs : op_size sz).

Lemma adc_chain_value xs : forall ys f,
  Forall (limb_ok sz) xs -> Forall (limb_ok sz) ys -> length xs = length ys ->
  0 <= CF f <= 1 ->
  let '(rs, f') := chain ADC sz xs ys f in
  Forall (limb_ok sz) rs /\ length rs = length xs /\ 0 <= CF f' <= 1
  /\ limbs sz rs + (2 ^ sz) ^ Z.of_nat (length xs) * CF f'
     = limbs sz xs + limbs sz ys + CF f.
Proof using Hs.
  induction xs as [|x xs IH]; intros [|y ys] f Hx Hy Hl Hc; try discriminate.
  { cbn. repeat split; auto; lia. }
  inversion_clear Hx as [|? ? Hx0 Hx']. inversion_clear Hy as [|? ? Hy0 Hy'].
  cbn [chain]. rewrite ADC_eq by assumption.
  pose proof (add_spec_limb sz x y (CF f) f Hs Hx0 Hy0 Hc) as Hr.
  destruct (add_spec sz x y (CF f) f) as [r f1]. destruct Hr as (Hr & Hc1 & Hv).
  specialize (IH ys f1 Hx' Hy' ltac:(cbn in Hl; lia) Hc1).
  destruct (chain ADC sz xs ys f1) as [rs f2]. destruct IH as (Hrs & Hlr & Hc2 & Hvs).
  cbn [limbs length]. rewrite Nat2Z.inj_succ, Z.pow_succ_r by lia.
  repeat split; [constructor; auto | lia | lia | lia |]. nia.
Qed.

Lemma sbb_chain_value xs : forall ys f,
  Forall (limb_ok sz) xs -> Forall (limb_ok sz) ys -> length xs = length ys ->
  0 <= CF f <= 1 ->
  let '(rs, f') := chain SBB sz xs ys f in
  Forall (limb_ok sz) rs /\ length rs = length xs /\ 0 <= CF f' <= 1
  /\ limbs sz rs - (2 ^ sz) ^ Z.of_nat (length xs) * CF f'
     = limbs sz xs - limbs sz ys - CF f.
Proof using Hs.
  induction xs as [|x xs IH]; intros [|y ys] f Hx Hy Hl Hc; try discriminate.
  { cbn. repeat split; auto; lia. }
  inversion_clear Hx as [|? ? Hx0 Hx']. inversion_clear Hy as [|? ? Hy0 Hy'].
  cbn [chain]. rewrite SBB_eq by assumption.
  pose proof (sub_spec_limb sz x y (CF f) f Hs Hx0 Hy0 Hc) as Hr.
  destruct (sub_spec sz x y (CF f) f) as [r f1]. destruct Hr as (Hr & Hc1 & Hv).
  specialize (IH ys f1 Hx' Hy' ltac:(cbn in Hl; lia) Hc1).
  destruct (chain SBB sz xs ys f1) as [rs f2]. destruct IH as (Hrs & Hlr & Hc2 & Hvs).
  cbn [limbs length]. rewrite Nat2Z.inj_succ, Z.pow_succ_r by lia.
  repeat split; [constructor; auto | lia | lia | lia |]. nia.
Qed.

(** Limb lists of one length are determined by their value. *)
Lemma limbs_range xs :
  Forall (limb_ok sz) xs -> 0 <= limbs sz xs < (2 ^ sz) ^ Z.of_nat (length xs).
Proof using Hs.
  destruct (operand_facts sz Hs) as (_ & Hh & Hp).
  induction 1 as [|x xs Hx Hxs IH]; [cbn; lia|]. unfold limb_ok in Hx.
  cbn [limbs length]. rewrite Nat2Z.inj_succ, Z.pow_succ_r by lia. nia.
Qed.

Lemma limbs_inj xs : forall ys,
  Forall (limb_ok sz) xs -> Forall (limb_ok sz) ys -> length xs = length ys ->
  limbs sz xs = limbs sz ys -> xs = ys.
Proof using Hs.
  induction xs as [|x xs IH]; intros [|y ys] Hx Hy Hl Hv; try discriminate; [reflexivity|].
  inversion_clear Hx as [|? ? Hx0 Hx']. inversion_clear Hy as [|? ? Hy0 Hy'].
  cbn [limbs length] in *. unfold limb_ok in *.
  destruct (Z.div_mod_unique (2 ^ sz) (limbs sz xs) (limbs sz ys) x y) as [Hv' ->];
    [lia.. |]. f_equal. apply IH; auto.
Qed.
End Chains.

(** ** The adders and subtracters *)

(** C18 - ADD and ADC compute, for every operand size, exactly the truncated
    sum of operands and carry in, with CF the carry out of the operand, OF the
    signed overflow, AF the carry out of bit 3, and ZF, SF and PF of the
    result; no other flag changes. *)
Theorem adders_correct sz a b f :
  op_size sz -> 0 <= a < 2 ^ sz -> 0 <= b < 2 ^ sz -> 0 <= CF f <= 1 ->
  ADD a b sz f = add_spec sz a b 0 f /\ ADC a b sz f = add_spec sz a b (CF f) f.
Proof. intros. split; [apply ADD_eq | apply ADC_eq]; assumption. Qed.

Lemma adders_correct_witness : ADD 0x7f 1 8 flags0 = add_spec 8 0x7f 1 0 flags0.
Proof. apply (adders_correct 8 0x7f 1 flags0); unfold op_size; cbn; lia. Defined.

(** SUB and SBB compute the truncated difference, with CF the borrow, OF
    the signed overflow and AF the borrow into bit 4; CMP sets the flags of
    SUB. *)
Theorem subtracters_correct sz a b f :
  op_size sz -> 0 <= a < 2 ^ sz -> 0 <= b < 2 ^ sz -> 0 <= CF f <= 1 ->
  SUB a b sz f = sub_spec sz a b 0 f
  /\ SBB a b sz f = sub_spec sz a b (CF f) f
  /\ CMP a b sz f = snd (sub_spec sz a b 0 f).
Proof.
  intros. split; [|split]; [apply SUB_eq | apply SBB_eq | rewrite CMP_SUB, SUB_eq]; auto.
Qed.

Lemma subtracters_correct_witness : CMP 0 1 16 flags0 = snd (sub_spec 16 0 1 0 flags0).
Proof. apply (subtracters_correct 16 0 1 flags0); unfold op_size; cbn; lia. Defined.

(** INC, DEC and NEG are the adders at special operands: INC is ADD of 1
    and DEC is SUB of 1 with CF left as it was, NEG is SUB from 0. *)
Theorem unary_are_adders sz a f :
  op_size sz -> 0 <= a < 2 ^ sz ->
  INC a sz f = (let '(r, f') := ADD a 1 sz f in (r, SET_CF (CF f) f'))
  /\ DEC a sz f = (let '(r, f') := SUB a 1 sz f in (r, SET_CF (CF f) f'))
  /\ NEG a sz f = SUB 0 a sz f.
Proof.
  intros Hs Ha. unfold INC, DEC, NEG, ADD, SUB. cbn -[SZ2MSB SZ2MASK Z.land Z.lxor].
  replace (0 - a) with (- a) by lia.
  rewrite !(nz_land_msb _ sz Hs), !nz_land_4, !Z.lxor_spec, !Z.testbit_0_l.
  rewrite (testbit_one (sz - 1)), (testbit_one 4) by (apply op_size_range in Hs; lia).
  split; [|split]; btest.
Qed.

Lemma unary_are_adders_witness : NEG 0x80 8 flags0 = SUB 0 0x80 8 flags0.
Proof. apply (unary_are_adders 8 0x80 flags0); unfold op_size; cbn; lia. Defined.

(** The logic instructions: AND, OR and XOR store the bitwise result, which
    stays within the operand size, clear CF, OF and AF and set ZF, SF and PF
    from the result; TEST sets the flags of AND; NOT complements every bit of
    the operand. *)
Theorem logic_correct sz a b f :
  op_size sz -> 0 <= a < 2 ^ sz -> 0 <= b < 2 ^ sz ->
  let cleared r := result_flags sz r (SET_AF 0 (SET_OF 0 (SET_CF 0 f))) in
  AND a b sz f = (Z.land a b, cleared (Z.land a b))
  /\ OR a b sz f = (Z.lor a b, cleared (Z.lor a b))
  /\ XOR a b sz f = (Z.lxor a b, cleared (Z.lxor a b))
  /\ TEST a b sz f = snd (AND a b sz f)
  /\ 0 <= Z.land a b < 2 ^ sz /\ 0 <= Z.lor a b < 2 ^ sz /\ 0 <= Z.lxor a b < 2 ^ sz
  /\ NOT a mod 2 ^ sz = 2 ^ sz - 1 - a.
Proof.
  intros Hs Ha Hb cleared. pose proof (op_size_range sz Hs) as Hr.
  assert (Hl : 0 <= Z.land a b < 2 ^ sz) by (apply land_range; lia).
  assert (Ho : 0 <= Z.lor a b < 2 ^ sz) by (apply lor_range; lia).
  assert (Hx : 0 <= Z.lxor a b < 2 ^ sz) by (apply lxor_range; lia).
  unfold AND, OR, XOR, TEST, cleared, NOT. rewrite !logic_flags_spec by assumption.
  repeat split; try lia; try reflexivity. apply not32_mod; lia.
Qed.

Lemma logic_correct_witness : NOT 0x0f mod 2 ^ 8 = 0xf0.
Proof. apply (logic_correct 8 0x0f 0xf0 flags0); unfold op_size; lia. Defined.

(** Long addition by an ADC chain over limbs of any operand size computes
    the exact sum, its carry out left in CF; the SBB chain undoes it: starting
    from the same carry in, subtracting [ys] limb by limb gives back [xs] and the
    carry the addition produced. *)
Theorem adc_sbb_chain sz xs ys f :
  op_size sz -> Forall (limb_ok sz) xs -> Forall (limb_ok sz) ys ->
  length xs = length ys -> 0 <= CF f <= 1 ->
  let '(rs, f1) := chain ADC sz xs ys f in
  limbs sz rs + (2 ^ sz) ^ Z.of_nat (length xs) * CF f1 = limbs sz xs + limbs sz ys + CF f
  /\ let '(ds, f2) := chain SBB sz rs ys f in ds = xs /\ CF f2 = CF f1.
Proof.
  intros Hs Hx Hy Hl Hc.
  pose proof (adc_chain_value sz Hs xs ys f Hx Hy Hl Hc) as Ha.
  destruct (chain ADC sz xs ys f) as [rs f1]. destruct Ha as (Hrs & Hlr & Hc1 & Hv).
  split; [exact Hv|].
  pose proof (sbb_chain_value sz Hs rs ys f Hrs Hy ltac:(lia) Hc) as Hb.
  destruct (chain SBB sz rs ys f) as [ds f2]. destruct Hb as (Hds & Hld & Hc2 & Hv2).
  pose proof (limbs_range sz Hs ds Hds) as Rd. pose proof (limbs_range sz Hs xs Hx) as Rx.
  rewrite Hld, Hlr in *.
  destruct (Z.div_mod_unique ((2 ^ sz) ^ Z.of_nat (length xs)) (- CF f2) (- CF f1)
    (limbs sz ds) (limbs sz xs)) as [Hcf Hvd]; [lia.. |].
  split; [apply (limbs_inj sz Hs); auto; lia | lia].
Qed.

Lemma adc_sbb_chain_witness :
  fst (chain SBB 8 (fst (chain ADC 8 [0xff; 0xff] [1; 0] flags0)) [1; 0] flags0)
  = [0xff; 0xff].
Proof.
  refine (proj1 (proj2 (adc_sbb_chain 8 [0xff; 0xff] [1; 0] flags0 _ _ _ _ _)));
    [left | | | | split]; repeat constructor; vm_compute; congruence.
Defined.

End Arith.
