(* ===== verification/Shift.v ===== *)
(** * Shifts, rotates and bit instructions

    [shl.c], [shr.c], [sar.c], [rol.c], [ror.c], [rcl.c], [rcr.c], [shld.c],
    [shrd.c], [bt.c], [bts.c], [btr.c], [btc.c], [bsf.c] and [bsr.c], with
    [do_multiple_shiftrot_of] of [c_bsic.c].  A C [for] loop over the count is
    an iteration of its body on the pair of the intermediate result and the
    flags. *)

From S2P Require Import Prelude Cpu Arith.

Module Shift.
Import Arith.

Section Instructions.

(** Whether the environment variable [SHIFTROT_OF_UNDEF] was set when the first
    multiple shift ran. *)
Context (shiftrot_of_undef : bool).

Definition do_multiple_shiftrot_of (new_of : Z) (f : FLAGS) : FLAGS :=
  if shiftrot_of_undef then SET_OF UNDEFINED_FLAG f else SET_OF new_of f.

Definition SHL (op1 op2 op_sz : Z) (f : FLAGS) : Z * FLAGS :=
  let op2 := op2 .& 0x1f in
  if op2 =? 0 then (op1, f) else
  let msb := SZ2MSB op_sz in
  let result := op1 .<< (op2 - 1) in
  let f := SET_CF (nz (result .& msb)) f in
  let result := (result .<< 1) .& SZ2MASK op_sz in
  let f := SET_PF (pf (result .& BYTE_MASK)) f in
  let f := SET_ZF (Z.b2z (result =? 0)) f in
  let f := SET_SF (nz (result .& msb)) f in
  let new_of := CF f .^ SF f in
  let f := if op2 =? 1 then SET_OF new_of f else do_multiple_shiftrot_of new_of f in
  let f := SET_AF UNDEFINED_FLAG f in
  (result, f).

Definition SHR (op1 op2 op_sz : Z) (f : FLAGS) : Z * FLAGS :=
  let op2 := op2 .& 0x1f in
  if op2 =? 0 then (op1, f) else
  let prelim := op1 .>> (op2 - 1) in
  let f := SET_CF (nz (prelim .& BIT_MASK 0)) f in
  let new_of := nz (prelim .& SZ2MSB op_sz) in
  let result := prelim .>> 1 in
  let f := SET_PF (pf (result .& BYTE_MASK)) f in
  let f := SET_ZF (Z.b2z (result =? 0)) f in
  let f := SET_SF 0 f in
  let f := if op2 =? 1 then SET_OF new_of f else do_multiple_shiftrot_of new_of f in
  let f := SET_AF UNDEFINED_FLAG f in
  (result, f).

Definition SAR (op1 op2 op_sz : Z) (f : FLAGS) : Z * FLAGS :=
  let op2 := op2 .& 0x1f in
  if op2 =? 0 then (op1, f) else
  let feedback := op1 .& SZ2MSB op_sz in
  let prelim := Nat.iter (Z.to_nat (op2 - 1)) (fun prelim => (prelim .>> 1) .| feedback) op1 in
  let f := SET_CF (nz (prelim .& BIT_MASK 0)) f in
  let result := (prelim .>> 1) .| feedback in
  let f := SET_OF 0 f in
  let f := SET_PF (pf (result .& BYTE_MASK)) f in
  let f := SET_ZF (Z.b2z (result =? 0)) f in
  let f := SET_SF (nz feedback) f in
  let f := SET_AF UNDEFINED_FLAG f in
  (result, f).

(** The loop bodies of the rotates. *)
Definition rol_step (feedback : Z) (s : Z * FLAGS) : Z * FLAGS :=
  let '(result, f) := s in
  if negb (result .& feedback =? 0) then ((result .<< 1) .| 1, SET_CF 1 f)
  else (result .<< 1, SET_CF 0 f).

Definition ror_step (feedback : Z) (s : Z * FLAGS) : Z * FLAGS :=
  let '(result, f) := s in
  if negb (result .& BIT_MASK 0 =? 0) then ((result .>> 1) .| feedback, SET_CF 1 f)
  else (result .>> 1, SET_CF 0 f).

Definition rcl_step (feedback : Z) (s : Z * FLAGS) : Z * FLAGS :=
  let '(result, f) := s in
  if negb (result .& feedback =? 0) then ((result .<< 1) .| CF f, SET_CF 1 f)
  else ((result .<< 1) .| CF f, SET_CF 0 f).

Definition rcr_step (feedback : Z) (s : Z * FLAGS) : Z * FLAGS :=
  let '(result, f) := s in
  let temp_cf := CF f in
  let f := SET_CF (nz (result .& BIT_MASK 0)) f in
  let result := result .>> 1 in
  (if negb (temp_cf =? 0) then result .| feedback else result, f).

Definition ROL (op1 op2 op_sz : Z) (f : FLAGS) : Z * FLAGS :=
  let op2 := op2 .& 0x1f in
  if op2 =? 0 then (op1, f) else
  let feedback := SZ2MSB op_sz in
  let '(result, f) := Nat.iter (Z.to_nat op2) (rol_step feedback) (op1, f) in
  let new_of := CF f .^ nz (result .& feedback) in
  let f := if op2 =? 1 then SET_OF new_of f else do_multiple_shiftrot_of new_of f in
  (result, f).

Definition ROR (op1 op2 op_sz : Z) (f : FLAGS) : Z * FLAGS :=
  let op2 := op2 .& 0x1f in
  if op2 =? 0 then (op1, f) else
  let feedback := SZ2MSB op_sz in
  let '(result, f) := Nat.iter (Z.to_nat op2) (ror_step feedback) (op1, f) in
  let new_of := nz ((result .^ (result .<< 1)) .& feedback) in
  let f := if op2 =? 1 then SET_OF new_of f else do_multiple_shiftrot_of new_of f in
  (result, f).

Definition RCL (op1 op2 op_sz : Z) (f : FLAGS) : Z * FLAGS :=
  let op2 := op2 .& 0x1f in
  if op2 =? 0 then (op1, f) else
  let feedback := SZ2MSB op_sz in
  let '(result, f) := Nat.iter (Z.to_nat op2) (rcl_step feedback) (op1, f) in
  let new_of := CF f .^ nz (result .& feedback) in
  let f := if op2 =? 1 then SET_OF new_of f else do_multiple_shiftrot_of new_of f in
  (result, f).

Definition RCR (op1 op2 op_sz : Z) (f : FLAGS) : Z * FLAGS :=
  let op2 := op2 .& 0x1f in
  if op2 =? 0 then (op1, f) else
  let feedback := SZ2MSB op_sz in
  let '(result, f) := Nat.iter (Z.to_nat op2) (rcr_step feedback) (op1, f) in
  let new_of := nz ((result .^ (result .<< 1)) .& feedback) in
  let f := if op2 =? 1 then SET_OF new_of f else do_multiple_shiftrot_of new_of f in
  (result, f).

End Instructions.

Definition SHLD (op1 op2 op3 op_sz : Z) (f : FLAGS) : Z * FLAGS :=
  let op3 := op3 .& 0x1f in
  if op3 =? 0 then (op1, f) else
  let op2 := if op_sz =? 16 then (op2 .<< 16) .| op2 else op2 in
  let op3 := op3 - 1 in
  let '(result, op2) :=
    if negb (op3 =? 0) then ((op1 .<< op3) .| (op2 .>> (32 - op3)), op2 .<< op3)
    else (op1, op2) in
  let msb := SZ2MSB op_sz in
  let f := SET_CF (nz (result .& msb)) f in
  let result := (result .<< 1) .| (op2 .>> 31) in
  let result := result .& SZ2MASK op_sz in
  let f := SET_PF (pf (result .& 0xff)) f in
  let f := SET_ZF (Z.b2z (result =? 0)) f in
  let f := SET_SF (nz (result .& msb)) f in
  let f := if op3 =? 0 then SET_OF (CF f .^ SF f) f
           else SET_OF (nz ((result .^ op1) .& SZ2MSB op_sz)) f in
  let f := SET_AF UNDEFINED_FLAG f in
  (result, f).

Definition SHRD (op1 op2 op3 op_sz : Z) (f : FLAGS) : Z * FLAGS :=
  let op3 := op3 .& 0x1f in
  if op3 =? 0 then (op1, f) else
  let op1 := if op_sz =? 16 then (op2 .<< 16) .| op1 else op1 in
  let op3 := op3 - 1 in
  let '(result, op2) :=
    if negb (op3 =? 0) then ((op1 .>> op3) .| (op2 .<< (32 - op3)), op2 .>> op3)
    else (op1, op2) in
  let f := SET_CF (nz (result .& BIT_MASK 0)) f in
  let msb := nz (result .& SZ2MSB op_sz) in
  let result := (result .>> 1) .| (op2 .<< 31) in
  let result := result .& SZ2MASK op_sz in
  let f := SET_PF (pf (result .& 0xff)) f in
  let f := SET_ZF (Z.b2z (result =? 0)) f in
  let f := SET_SF (nz (result .& SZ2MSB op_sz)) f in
  let f := if op3 =? 0 then SET_OF (msb .^ SF f) f
           else SET_OF (nz ((result .^ op1) .& SZ2MSB op_sz)) f in
  let f := SET_AF UNDEFINED_FLAG f in
  (result, f).

(** BT only sets CF; the others also store the operand back. *)
Definition BT (op1 op2 op_sz : Z) (f : FLAGS) : FLAGS :=
  let bit_mask := 1 .<< (op2 mod op_sz) in
  SET_CF (nz (op1 .& bit_mask)) f.

Definition BTS (op1 op2 op_sz : Z) (f : FLAGS) : Z * FLAGS :=
  let bit_mask := 1 .<< (op2 mod op_sz) in
  (op1 .| bit_mask, SET_CF (nz (op1 .& bit_mask)) f).

Definition BTR (op1 op2 op_sz : Z) (f : FLAGS) : Z * FLAGS :=
  let bit_mask := 1 .<< (op2 mod op_sz) in
  (op1 .& not32 bit_mask, SET_CF (nz (op1 .& bit_mask)) f).

Definition BTC (op1 op2 op_sz : Z) (f : FLAGS) : Z * FLAGS :=
  let bit_mask := 1 .<< (op2 mod op_sz) in
  (op1 .^ bit_mask, SET_CF (nz (op1 .& bit_mask)) f).

(** The scanning loops, with fuel for the [while]; [None] is running out. *)
Fixpoint bsf_loop (fuel : nat) (temp op2 : Z) : option Z :=
  match fuel with
  | O => None
  | S fuel => if op2 .& BIT_MASK 0 =? 0 then bsf_loop fuel (u32 (temp + 1)) (op2 .>> 1)
              else Some temp
  end.

Fixpoint bsr_loop (fuel : nat) (msb temp op2 : Z) : option Z :=
  match fuel with
  | O => None
  | S fuel => if op2 .& msb =? 0 then bsr_loop fuel msb (u32 (temp - 1)) (op2 .<< 1)
              else Some temp
  end.

(** The destination is left unaltered when the scanned operand is zero.  An IU32
    has 32 bits, so 32 rounds are enough. *)
Definition BSF (op1 op2 : Z) (f : FLAGS) : option (Z * FLAGS) :=
  if op2 =? 0 then Some (op1, SET_ZF 1 f)
  else match bsf_loop 32 0 op2 with
       | Some temp => Some (temp, SET_ZF 0 f)
       | None => None
       end.

Definition BSR (op1 op2 op_sz : Z) (f : FLAGS) : option (Z * FLAGS) :=
  if op2 =? 0 then Some (op1, SET_ZF 1 f)
  else match bsr_loop 32 (SZ2MSB op_sz) (op_sz - 1) op2 with
       | Some temp => Some (temp, SET_ZF 0 f)
       | None => None
       end.

(** ** Lemmas *)

(** The overflow flag after a shift or rotate by [n]: [x] for a single step,
    and for a multiple one [x] or the undefined value. *)
Definition of_rule (undef : bool) (n x : Z) : Z :=
  if (n =? 1) || negb undef then x else 0.

Lemma count_mod op2 : op2 .& 0x1f = op2 mod 32.
Proof. change 0x1f with (2 ^ 5 - 1). rewrite land_mask by lia. reflexivity. Qed.

Lemma set_of_rule undef n x f :
  (if n =? 1 then SET_OF x f else do_multiple_shiftrot_of undef x f)
  = SET_OF (of_rule undef n x) f.
Proof.
  unfold of_rule, do_multiple_shiftrot_of, UNDEFINED_FLAG.
  destruct (n =? 1), undef; reflexivity.
Qed.

Lemma nz_bit0 x : nz (x .& BIT_MASK 0) = Z.b2z (Z.testbit x 0).
Proof. apply nz_land_pow2; lia. Qed.

Lemma land_eqb_nz x y : negb (x .& y =? 0) = negb (nz (x .& y) =? 0).
Proof. unfold nz. destruct (x .& y =? 0); reflexivity. Qed.

Lemma b2z_neq0 b : negb (Z.b2z b =? 0) = b.
Proof. destruct b; reflexivity. Qed.

Lemma b2z_range b : 0 <= Z.b2z b <= 1.
Proof. destruct b; cbn; lia. Qed.

Lemma u32_bit x i : 0 <= i < 32 -> Z.testbit (u32 x) i = Z.testbit x i.
Proof. intros. unfold u32. apply Z.mod_pow2_bits_low; lia. Qed.

Lemma shl_bit x i : 0 <= i < 32 -> Z.testbit (x .<< 1) i = (0 <? i) && Z.testbit x (i - 1).
Proof.
  intros. rewrite u32_bit, Z.shiftl_spec by lia.
  destruct (Z.ltb_spec 0 i); [reflexivity|]. apply Z.testbit_neg_r; lia.
Qed.

Section Rotation.
Context {S : Type} (bit : S -> Z -> bool) (step : S -> S) (P : S -> Prop) (m d : Z).
Context (Hm : 0 < m).
Context (Hstep : forall s, P s -> P (step s) /\
                 forall i, 0 <= i < m -> bit (step s) i = bit s ((i + d) mod m)).

(** Iterating a one-place rotation of [m] bits rotates by the count. *)
Lemma iter_rotates n s :
  P s -> P (Nat.iter n step s) /\
  forall i, 0 <= i < m -> bit (Nat.iter n step s) i = bit s ((i + d * Z.of_nat n) mod m).
Proof using Hm Hstep.
  intros Hs. induction n as [|n [IP IH]].
  - split; [assumption|]. intros i Hi. rewrite Z.mul_0_r, Z.add_0_r, Z.mod_small by lia.
    reflexivity.
  - destruct (Hstep _ IP) as [HP Hb]. split; [exact HP|]. intros i Hi.
    cbn [Nat.iter nat_rect]. change (Nat.iter (Datatypes.S n) step s) with (step (Nat.iter n step s)).
    rewrite Hb, IH by (try apply Z.mod_pos_bound; lia).
    rewrite Zplus_mod_idemp_l. f_equal. f_equal. lia.
Qed.
End Rotation.

(** Rotation indices. *)
Lemma pred_mod i m : 0 <= i < m -> (i + -1) mod m = if i =? 0 then m - 1 else i - 1.
Proof.
  intros. destruct (Z.eqb_spec i 0) as [-> | Hne].
  - symmetry. apply Z.mod_unique with (-1); lia.
  - apply Z.mod_small; lia.
Qed.

Lemma succ_mod i m : 0 <= i < m -> (i + 1) mod m = if i =? m - 1 then 0 else i + 1.
Proof.
  intros. destruct (Z.eqb_spec i (m - 1)) as [-> | Hne].
  - symmetry. apply Z.mod_unique with 1; lia.
  - apply Z.mod_small; lia.
Qed.

(** The states of the rotate loops: the bits they rotate, and the flags they
    leave alone. *)
Definition word_bit (s : Z * FLAGS) (i : Z) : bool := Z.testbit (fst s) i.

(** The operand with the carry flag as bit [sz]. *)
Definition cbit (sz r : Z) (c : bool) (i : Z) : bool := if i <? sz then Z.testbit r i else c.

Definition carry_bit (sz : Z) (s : Z * FLAGS) (i : Z) : bool :=
  cbit sz (fst s) (negb (CF (snd s) =? 0)) i.

Definition cf_only (f f' : FLAGS) : Prop := f' = SET_CF (CF f') f.

Definition rot_inv (sz : Z) (s : Z * FLAGS) : Prop :=
  0 <= fst s < 2 ^ sz /\ 0 <= CF (snd s) <= 1.

Lemma cf_only_refl f : cf_only f f.
Proof. destruct f; reflexivity. Qed.

Lemma cf_only_set f f' x : cf_only f f' -> cf_only f (SET_CF x f').
Proof. unfold cf_only. intros ->. reflexivity. Qed.
#[local] Hint Resolve cf_only_refl cf_only_set : core.

Lemma iter_cf_only (step : Z * FLAGS -> Z * FLAGS) n a f :
  (forall s, exists x, snd (step s) = SET_CF x (snd s)) ->
  cf_only f (snd (Nat.iter n step (a, f))).
Proof.
  intros Hs. induction n as [|n IH]; [apply cf_only_refl|].
  change (Nat.iter (S n) step (a, f)) with (step (Nat.iter n step (a, f))).
  destruct (Hs (Nat.iter n step (a, f))) as [x ->]. auto.
Qed.

Lemma bool_CF g : 0 <= CF g <= 1 -> CF g = Z.b2z (negb (CF g =? 0)).
Proof. intros. assert (CF g = 0 \/ CF g = 1) as [-> | ->] by lia; reflexivity. Qed.

Section RotateSteps.
Context (sz : Z) (Hs : op_size sz).

Lemma msb_test r : negb (r .& SZ2MSB sz =? 0) = Z.testbit r (sz - 1).
Proof using Hs. rewrite land_eqb_nz, nz_land_msb, b2z_neq0 by assumption. reflexivity. Qed.

Lemma bit0_test r : negb (r .& BIT_MASK 0 =? 0) = Z.testbit r 0.
Proof using. rewrite land_eqb_nz, nz_bit0, b2z_neq0. reflexivity. Qed.

Lemma lor_bit0 x b i : 0 <= i -> Z.testbit (x .| Z.b2z b) i = Z.testbit x i || ((i =? 0) && b).
Proof using.
  intros. rewrite Z.lor_spec. f_equal. destruct b; [|rewrite andb_false_r; apply Z.testbit_0_l].
  destruct (Z.eqb_spec i 0) as [-> | ]; [reflexivity | apply testbit_one; lia].
Qed.

Lemma rol_step_eq r f :
  rol_step (SZ2MSB sz) (r, f)
  = ((r .<< 1) .| Z.b2z (Z.testbit r (sz - 1)), SET_CF (Z.b2z (Z.testbit r (sz - 1))) f).
Proof using Hs.
  unfold rol_step. rewrite msb_test. destruct (Z.testbit r (sz - 1)); [reflexivity|].
  rewrite Z.lor_0_r. reflexivity.
Qed.

Lemma rcl_step_eq r f :
  rcl_step (SZ2MSB sz) (r, f)
  = ((r .<< 1) .| CF f, SET_CF (Z.b2z (Z.testbit r (sz - 1))) f).
Proof using Hs. unfold rcl_step. rewrite msb_test. destruct (Z.testbit r (sz - 1)); reflexivity. Qed.

(** Shifting right and feeding bit [b] into the top of the operand. *)
Definition feed (r : Z) (b : bool) : Z := if b then (r .>> 1) .| SZ2MSB sz else r .>> 1.

Lemma ror_step_eq r f :
  ror_step (SZ2MSB sz) (r, f) = (feed r (Z.testbit r 0), SET_CF (Z.b2z (Z.testbit r 0)) f).
Proof using. unfold ror_step, feed. rewrite bit0_test. destruct (Z.testbit r 0); reflexivity. Qed.

Lemma rcr_step_eq r f :
  rcr_step (SZ2MSB sz) (r, f)
  = (feed r (negb (CF f =? 0)), SET_CF (Z.b2z (Z.testbit r 0)) f).
Proof using. unfold rcr_step, feed. rewrite nz_bit0. destruct (CF f =? 0); reflexivity. Qed.

Lemma feed_spec r b :
  0 <= r < 2 ^ sz ->
  0 <= feed r b < 2 ^ sz /\
  forall i, 0 <= i < sz -> Z.testbit (feed r b) i = if i =? sz - 1 then b else Z.testbit r (i + 1).
Proof using Hs.
  intros Hr. destruct (operand_facts sz Hs) as (Hz & Hh & Hp). unfold feed.
  assert (Hb : forall i, 0 <= i -> Z.testbit (r .>> 1) i = Z.testbit r (i + 1))
    by (intros; apply Z.shiftr_spec; lia).
  assert (Htop : Z.testbit r sz = false) by (rewrite range_bits in Hr by lia; apply Hr; lia).
  assert (Hrs : 0 <= r .>> 1 < 2 ^ sz).
  { rewrite Z.shiftr_div_pow2 by lia. change (2 ^ 1) with 2.
    split; [apply Z.div_pos | apply Z.div_lt_upper_bound]; lia. }
  rewrite SZ2MSB_pow by assumption. split.
  - destruct b; [apply lor_range|]; lia.
  - intros i Hi. destruct b; rewrite ?Z.lor_spec, Hb, ?Z.pow2_bits_eqb by lia;
      destruct (Z.eqb_spec i (sz - 1)) as [-> | Hne];
      replace (sz - 1 + 1) with sz by lia; rewrite ?Htop, ?Z.eqb_refl; try reflexivity.
    rewrite (proj2 (Z.eqb_neq (sz - 1) i)) by lia. apply orb_false_r.
Qed.

Lemma rol_rotates s : True -> True /\
  forall i, 0 <= i < sz -> word_bit (rol_step (SZ2MSB sz) s) i = word_bit s ((i + -1) mod sz).
Proof using Hs.
  destruct s as [r f]. intros _. split; [exact I|]. intros i Hi.
  pose proof (op_size_range sz Hs). rewrite rol_step_eq, pred_mod by lia. unfold word_bit, fst.
  rewrite lor_bit0, shl_bit by lia.
  destruct (Z.eqb_spec i 0) as [-> | Hne]; [reflexivity|].
  rewrite orb_false_r. destruct (Z.ltb_spec 0 i); [reflexivity | lia].
Qed.

Lemma ror_rotates s : rot_inv sz s -> rot_inv sz (ror_step (SZ2MSB sz) s) /\
  forall i, 0 <= i < sz -> word_bit (ror_step (SZ2MSB sz) s) i = word_bit s ((i + 1) mod sz).
Proof using Hs.
  destruct s as [r f]. intros [Hr Hc]. cbn [fst snd] in *. rewrite ror_step_eq.
  destruct (feed_spec r (Z.testbit r 0) Hr) as [Hf Hb].
  split; [split; [exact Hf | apply b2z_range]|].
  intros i Hi. unfold word_bit, fst. rewrite Hb, succ_mod by lia.
  destruct (i =? sz - 1); reflexivity.
Qed.

Lemma carry_bit_lo s i : i < sz -> carry_bit sz s i = Z.testbit (fst s) i.
Proof using. intros. unfold carry_bit, cbit. destruct (Z.ltb_spec i sz); [reflexivity | lia]. Qed.

Lemma carry_bit_hi s : carry_bit sz s sz = negb (CF (snd s) =? 0).
Proof using. unfold carry_bit, cbit. rewrite Z.ltb_irrefl. reflexivity. Qed.

Lemma rcl_rotates s : 0 <= CF (snd s) <= 1 -> 0 <= CF (snd (rcl_step (SZ2MSB sz) s)) <= 1 /\
  forall i, 0 <= i < sz + 1 ->
    carry_bit sz (rcl_step (SZ2MSB sz) s) i = carry_bit sz s ((i + -1) mod (sz + 1)).
Proof using Hs.
  destruct s as [r f]. intros Hc. cbn [snd] in Hc. rewrite rcl_step_eq.
  assert (Hcf : CF f = Z.b2z (negb (CF f =? 0)))
    by (assert (CF f = 0 \/ CF f = 1) as [-> | ->] by lia; reflexivity).
  pose proof (op_size_range sz Hs).
  split; [apply b2z_range|].
  intros i Hi. rewrite pred_mod by lia. replace (sz + 1 - 1) with sz by lia.
  destruct (Z.eqb_spec i 0) as [-> | Hne].
  - rewrite carry_bit_hi, carry_bit_lo by lia. cbn [fst snd].
    rewrite Hcf at 1. rewrite lor_bit0, shl_bit by lia. reflexivity.
  - rewrite (carry_bit_lo _ (i - 1)) by lia.
    destruct (Z.eq_dec i sz) as [-> | Hne'].
    + rewrite carry_bit_hi. cbn. apply b2z_neq0.
    + rewrite carry_bit_lo by lia. cbn [fst].
      rewrite Hcf, lor_bit0, shl_bit by lia. rewrite (proj2 (Z.eqb_neq i 0)), orb_false_r by lia.
      rewrite (proj2 (Z.ltb_lt 0 i)) by lia. reflexivity.
Qed.

Lemma rcr_rotates s : rot_inv sz s -> rot_inv sz (rcr_step (SZ2MSB sz) s) /\
  forall i, 0 <= i < sz + 1 ->
    carry_bit sz (rcr_step (SZ2MSB sz) s) i = carry_bit sz s ((i + 1) mod (sz + 1)).
Proof using Hs.
  destruct s as [r f]. intros [Hr Hc]. cbn [fst snd] in *. rewrite rcr_step_eq.
  pose proof (op_size_range sz Hs).
  destruct (feed_spec r (negb (CF f =? 0)) Hr) as [Hf Hb].
  split; [split; [exact Hf | apply b2z_range]|].
  intros i Hi. rewrite succ_mod by lia. replace (sz + 1 - 1) with sz by lia.
  destruct (Z.eqb_spec i sz) as [-> | Hne].
  - rewrite carry_bit_hi, carry_bit_lo by lia. cbn. apply b2z_neq0.
  - rewrite carry_bit_lo by lia. cbn [fst]. rewrite Hb by lia.
    destruct (Z.eqb_spec i (sz - 1)) as [-> | Hne'].
    + replace (sz - 1 + 1) with sz by lia. rewrite carry_bit_hi. reflexivity.
    + rewrite carry_bit_lo by lia. reflexivity.
Qed.

Lemma iter_S_CF n a f (step : Z * FLAGS -> Z * FLAGS) :
  (0 < n)%nat -> Nat.iter n step (a, f) = step (Nat.iter (n - 1) step (a, f)).
Proof using. intros. destruct n as [|n]; [lia|]. cbn. rewrite Nat.sub_0_r. reflexivity. Qed.

Lemma top_bits_differ r :
  nz ((r .^ (r .<< 1)) .& SZ2MSB sz) = Z.b2z (xorb (Z.testbit r (sz - 1)) (Z.testbit r (sz - 2))).
Proof using Hs.
  pose proof (op_size_range sz Hs). rewrite nz_land_msb, Z.lxor_spec, shl_bit by (assumption || lia).
  rewrite (proj2 (Z.ltb_lt 0 (sz - 1))) by lia. replace (sz - 1 - 1) with (sz - 2) by lia.
  reflexivity.
Qed.

Lemma b2z_xorb b c : Z.lxor (Z.b2z b) (Z.b2z c) = Z.b2z (xorb b c).
Proof using. destruct b, c; reflexivity. Qed.
Context (u : bool) (a op2 : Z) (f : FLAGS).
Context (Hn : op2 mod 32 <> 0) (Ha : 0 <= a < 2 ^ sz) (Hc : 0 <= CF f <= 1).
Let n := op2 mod 32.

Lemma count_pos : 0 < n /\ Z.of_nat (Z.to_nat n) = n /\ (op2 .& 0x1f =? 0) = false.
Proof.
  assert (0 <= n < 32) by (apply Z.mod_pos_bound; lia). assert (n <> 0) by exact Hn.
  rewrite count_mod. repeat split; [lia | lia | apply Z.eqb_neq; assumption].
Qed.

Lemma ROL_spec :
  exists r, ROL u a op2 sz f
    = (r, SET_OF (of_rule u n (Z.b2z (xorb (Z.testbit r 0) (Z.testbit r (sz - 1)))))
            (SET_CF (Z.b2z (Z.testbit r 0)) f))
  /\ forall i, 0 <= i < sz -> Z.testbit r i = Z.testbit a ((i - n) mod sz).
Proof.
  pose proof (op_size_range sz Hs). destruct count_pos as (Hp & Hid & Hz).
  unfold ROL. rewrite Hz, count_mod. fold n.
  pose proof (iter_cf_only (rol_step (SZ2MSB sz)) (Z.to_nat n) a f) as Hcf.
  destruct (iter_rotates word_bit (rol_step (SZ2MSB sz)) (fun _ => True) sz (-1)
    ltac:(lia) rol_rotates (Z.to_nat n) (a, f) I) as [_ Hb].
  pose proof (iter_S_CF (Z.to_nat n) a f (rol_step (SZ2MSB sz)) ltac:(lia)) as Hl.
  destruct (Nat.iter (Z.to_nat n - 1) _ _) as [r0 f0] in Hl. rewrite rol_step_eq in Hl.
  destruct (Nat.iter (Z.to_nat n) _ _) as [r f']. injection Hl as Hr Hf.
  assert (CF f' = Z.b2z (Z.testbit r 0)) as Hcr.
  { rewrite Hf, Hr, lor_bit0, shl_bit by lia. reflexivity. }
  exists r. split.
  - rewrite set_of_rule, Hcr, nz_land_msb, b2z_xorb by assumption.
    cbn [snd] in Hcf. rewrite Hcf, Hcr; [reflexivity|].
    intros [x g]. rewrite rol_step_eq. eexists. reflexivity.
  - intros i Hi. specialize (Hb i Hi). unfold word_bit, fst in Hb. rewrite Hb.
    f_equal. f_equal. lia.
Qed.

Lemma ROR_spec :
  exists r, ROR u a op2 sz f
    = (r, SET_OF (of_rule u n (Z.b2z (xorb (Z.testbit r (sz - 1)) (Z.testbit r (sz - 2)))))
            (SET_CF (Z.b2z (Z.testbit r (sz - 1))) f))
  /\ 0 <= r < 2 ^ sz
  /\ forall i, 0 <= i < sz -> Z.testbit r i = Z.testbit a ((i + n) mod sz).
Proof.
  pose proof (op_size_range sz Hs). destruct count_pos as (Hp & Hid & Hz).
  unfold ROR. rewrite Hz, count_mod. fold n.
  pose proof (iter_cf_only (ror_step (SZ2MSB sz)) (Z.to_nat n) a f) as Hcf.
  assert (H0 : rot_inv sz (a, f)) by (split; assumption).
  pose proof (iter_rotates word_bit (ror_step (SZ2MSB sz)) (rot_inv sz) sz 1
    ltac:(lia) ror_rotates) as HR.
  destruct (HR (Z.to_nat n) (a, f) H0) as [[Hr _] Hb].
  destruct (HR (Z.to_nat n - 1)%nat (a, f) H0) as [[Hr0 _] _].
  pose proof (iter_S_CF (Z.to_nat n) a f (ror_step (SZ2MSB sz)) ltac:(lia)) as Hl.
  destruct (Nat.iter (Z.to_nat n - 1) _ _) as [r0 f0] in Hl, Hr0. rewrite ror_step_eq in Hl.
  destruct (Nat.iter (Z.to_nat n) _ _) as [r f']. injection Hl as Hre Hf. cbn [fst snd] in *.
  assert (CF f' = Z.b2z (Z.testbit r (sz - 1))) as Hcr.
  { destruct (feed_spec r0 (Z.testbit r0 0) Hr0) as [_ Hfb].
    rewrite Hf, Hre, Hfb by lia. rewrite Z.eqb_refl. reflexivity. }
  exists r. split; [|split; [exact Hr|]].
  - rewrite set_of_rule, top_bits_differ. rewrite Hcf, Hcr; [reflexivity|].
    intros [x g]. rewrite ror_step_eq. eexists. reflexivity.
  - intros i Hi. specialize (Hb i Hi). unfold word_bit, fst in Hb. rewrite Hb.
    f_equal. f_equal. lia.
Qed.

Lemma RCL_spec :
  exists r c, RCL u a op2 sz f
    = (r, SET_OF (of_rule u n (Z.b2z (xorb c (Z.testbit r (sz - 1))))) (SET_CF (Z.b2z c) f))
  /\ forall i, 0 <= i <= sz ->
       cbit sz r c i = cbit sz a (negb (CF f =? 0)) ((i - n) mod (sz + 1)).
Proof.
  pose proof (op_size_range sz Hs). destruct count_pos as (Hp & Hid & Hz).
  unfold RCL. rewrite Hz, count_mod. fold n.
  pose proof (iter_cf_only (rcl_step (SZ2MSB sz)) (Z.to_nat n) a f) as Hcf.
  destruct (iter_rotates (carry_bit sz) (rcl_step (SZ2MSB sz)) (fun s => 0 <= CF (snd s) <= 1)
    (sz + 1) (-1) ltac:(lia) rcl_rotates (Z.to_nat n) (a, f) Hc) as [Hc' Hb].
  destruct (Nat.iter (Z.to_nat n) _ _) as [r f']. cbn [snd] in *.
  assert (Hf : f' = SET_CF (CF f') f)
    by (apply Hcf; intros [x g]; rewrite rcl_step_eq; eexists; reflexivity).
  unfold carry_bit, fst, snd in Hb. rewrite (bool_CF f' Hc') in Hf. set (c := negb (CF f' =? 0)) in *. clearbody c.
  exists r, c. subst f'. split.
  - rewrite set_of_rule, nz_land_msb by assumption. cbn [CF SET_CF].
    rewrite b2z_xorb. reflexivity.
  - intros i Hi. rewrite (Hb i) by lia.
    f_equal. f_equal. lia.
Qed.

Lemma RCR_spec :
  exists r c, RCR u a op2 sz f
    = (r, SET_OF (of_rule u n (Z.b2z (xorb (Z.testbit r (sz - 1)) (Z.testbit r (sz - 2)))))
            (SET_CF (Z.b2z c) f))
  /\ 0 <= r < 2 ^ sz
  /\ forall i, 0 <= i <= sz ->
       cbit sz r c i = cbit sz a (negb (CF f =? 0)) ((i + n) mod (sz + 1)).
Proof.
  pose proof (op_size_range sz Hs). destruct count_pos as (Hp & Hid & Hz).
  unfold RCR. rewrite Hz, count_mod. fold n.
  pose proof (iter_cf_only (rcr_step (SZ2MSB sz)) (Z.to_nat n) a f) as Hcf.
  destruct (iter_rotates (carry_bit sz) (rcr_step (SZ2MSB sz)) (rot_inv sz)
    (sz + 1) 1 ltac:(lia) rcr_rotates (Z.to_nat n) (a, f) (conj Ha Hc)) as [[Hr Hc'] Hb].
  destruct (Nat.iter (Z.to_nat n) _ _) as [r f']. cbn [fst snd] in *.
  assert (Hf : f' = SET_CF (CF f') f)
    by (apply Hcf; intros [x g]; rewrite rcr_step_eq; eexists; reflexivity).
  unfold carry_bit, fst, snd in Hb. rewrite (bool_CF f' Hc') in Hf. set (c := negb (CF f' =? 0)) in *. clearbody c.
  exists r, c. subst f'. split; [|split; [exact Hr|]].
  - rewrite set_of_rule, top_bits_differ. reflexivity.
  - intros i Hi. rewrite (Hb i) by lia.
    f_equal. f_equal. lia.
Qed.

(** The sign-extended operand, bit by bit. *)
Lemma sgn_bits j :
  0 <= j -> Z.testbit (sgn sz a) j = if j <? sz then Z.testbit a j else Z.testbit a (sz - 1).
Proof.
  intros Hj. destruct (operand_facts sz Hs) as (Hz & Hh & Hp).
  destruct (Z.ltb_spec j sz).
  - rewrite <- (Z.mod_pow2_bits_low (sgn sz a) sz j), sgn_mod, Z.mod_pow2_bits_low by lia.
    reflexivity.
  - rewrite testbit_odd_div, sgn_cases, msb_ge_half by lia.
    assert (2 ^ sz <= 2 ^ j) by (apply Z.pow_le_mono_r; lia).
    destruct (Z.leb_spec (2 ^ (sz - 1)) a).
    + replace ((a - 2 ^ sz) / 2 ^ j) with (-1); [reflexivity|].
      apply Z.div_unique with (2 ^ j + a - 2 ^ sz); lia.
    + rewrite Z.div_small by lia. reflexivity.
Qed.

Lemma sar_iter k :
  (fun p => 0 <= p < 2 ^ sz /\
     forall i, 0 <= i < sz -> Z.testbit p i = Z.testbit (sgn sz a) (i + Z.of_nat k))
  (Nat.iter k (fun prelim => (prelim .>> 1) .| (a .& SZ2MSB sz)) a).
Proof.
  destruct (operand_facts sz Hs) as (Hz & Hh & Hp). cbv beta.
  induction k as [|k [IR IB]].
  - split; [exact Ha|]. intros i Hi. rewrite Z.add_0_r, sgn_bits by lia.
    rewrite (proj2 (Z.ltb_lt i sz)) by lia. reflexivity.
  - set (p := Nat.iter k _ a) in *.
    change (Nat.iter (S k) _ a) with ((p .>> 1) .| (a .& SZ2MSB sz)).
    replace ((p .>> 1) .| (a .& SZ2MSB sz)) with (feed p (Z.testbit a (sz - 1))).
    2: { unfold feed. rewrite SZ2MSB_pow, land_pow2 by (assumption || lia).
         destruct (Z.testbit a (sz - 1)); [reflexivity | symmetry; apply Z.lor_0_r]. }
    destruct (feed_spec p (Z.testbit a (sz - 1)) IR) as [HR HB].
    split; [exact HR|]. intros i Hi. rewrite HB by lia.
    destruct (Z.eqb_spec i (sz - 1)) as [-> | Hne].
    + rewrite sgn_bits by lia. rewrite (proj2 (Z.ltb_ge _ sz)) by lia. reflexivity.
    + rewrite IB by lia. f_equal. lia.
Qed.

Lemma SHL_spec :
  let r := (a * 2 ^ n) mod 2 ^ sz in
  let c := Z.testbit a (sz - n) in
  SHL u a op2 sz f
  = (r, SET_AF 0 (SET_OF (of_rule u n (Z.b2z (xorb c (Z.testbit r (sz - 1)))))
          (result_flags sz r (SET_CF (Z.b2z c) f)))).
Proof.
  intros r c. destruct (operand_facts sz Hs) as (Hz & Hh & Hp).
  destruct count_pos as (Hn0 & Hid & Hzb). unfold SHL. rewrite Hzb, count_mod. fold n.
  assert (Hr : u32 (Z.shiftl (a .<< (n - 1)) 1) .& SZ2MASK sz = r).
  { rewrite land_u32_SZ2MASK, !Z.shiftl_mul_pow2 by (assumption || lia). unfold r, u32.
    rewrite <- Zmult_mod_idemp_l, mod_mod_le, Zmult_mod_idemp_l by lia.
    rewrite <- Z.mul_assoc, <- Z.pow_add_r by lia. do 3 f_equal. lia. }
  assert (Hrr : 0 <= r < 2 ^ sz) by (apply Z.mod_pos_bound; lia).
  assert (Hcf : nz (a .<< (n - 1) .& SZ2MSB sz) = Z.b2z c).
  { rewrite nz_land_msb, u32_bit, Z.shiftl_spec by (assumption || lia).
    unfold c. do 2 f_equal. lia. }
  rewrite set_of_rule, Hr, Hcf, pf_low_byte, (nz_land_msb r sz Hs). cbn [CF SF SET_CF SET_PF SET_ZF SET_SF].
  rewrite b2z_xorb. unfold result_flags. rewrite <- sgn_neg by assumption. reflexivity.
Qed.

Lemma SHR_spec :
  let r := a / 2 ^ n in
  SHR u a op2 sz f
  = (r, SET_AF 0 (SET_OF (of_rule u n (Z.b2z ((n =? 1) && Z.testbit a (sz - 1))))
          (result_flags sz r (SET_CF (Z.b2z (Z.testbit a (n - 1))) f)))).
Proof.
  intros r. destruct (operand_facts sz Hs) as (Hz & Hh & Hp).
  destruct count_pos as (Hn0 & Hid & Hzb). unfold SHR. rewrite Hzb, count_mod. fold n.
  assert (Hr : (a .>> (n - 1)) .>> 1 = r).
  { rewrite Z.shiftr_shiftr, Z.shiftr_div_pow2 by lia. unfold r. do 2 f_equal. lia. }
  assert (Hrr : 0 <= r < 2 ^ (sz - 1)).
  { assert (2 ^ 1 <= 2 ^ n) by (apply Z.pow_le_mono_r; lia).
    split; [apply Z.div_pos | apply Z.div_lt_upper_bound]; nia. }
  rewrite set_of_rule, Hr, pf_low_byte, nz_bit0, nz_land_msb, !Z.shiftr_spec by (assumption || lia).
  unfold result_flags. rewrite (sgn_lt0 sz Hs) by lia.
  rewrite (proj2 (Z.leb_gt _ r)) by lia. rewrite Z.add_0_l.
  replace (Z.testbit a (sz - 1 + (n - 1))) with ((n =? 1) && Z.testbit a (sz - 1)); [reflexivity|].
  destruct (Z.eqb_spec n 1) as [-> | Hne]; [cbn [andb]; f_equal; lia|].
  symmetry. rewrite range_bits in Ha by lia. apply Ha. lia.
Qed.

Lemma SAR_spec :
  let r := (sgn sz a / 2 ^ n) mod 2 ^ sz in
  SAR a op2 sz f
  = (r, SET_AF 0 (SET_OF 0 (result_flags sz r
          (SET_CF (Z.b2z (Z.testbit (sgn sz a) (n - 1))) f)))).
Proof.
  intros r. destruct (operand_facts sz Hs) as (Hz & Hh & Hp).
  destruct count_pos as (Hn0 & Hid & Hzb). unfold SAR. rewrite Hzb, count_mod. fold n.
  destruct (sar_iter (Z.to_nat (n - 1))) as [_ HB].
  pose proof (sar_iter (Z.to_nat n)) as [HR1 HB1].
  set (p := Nat.iter (Z.to_nat (n - 1)) _ a) in *.
  replace (Z.to_nat n) with (S (Z.to_nat (n - 1))) in HR1, HB1 by lia.
  change (Nat.iter (S _) _ a) with ((p .>> 1) .| (a .& SZ2MSB sz)) in HR1, HB1.
  assert (Hr : (p .>> 1) .| (a .& SZ2MSB sz) = r).
  { apply Z.bits_inj'. intros i Hi. destruct (Z.lt_ge_cases i sz).
    - rewrite HB1 by lia. unfold r. rewrite Z.mod_pow2_bits_low, Z.div_pow2_bits by lia.
      f_equal. lia.
    - unfold r. rewrite Z.mod_pow2_bits_high by lia.
      rewrite range_bits in HR1 by lia. apply HR1. lia. }
  rewrite Hr in *. rewrite pf_low_byte, nz_bit0, nz_land_msb, HB by (assumption || lia).
  unfold result_flags. rewrite <- (sgn_neg sz r Hs) by lia.
  rewrite (HB1 (sz - 1)), (sgn_bits (sz - 1 + _)) by lia.
  rewrite (proj2 (Z.ltb_ge _ sz)) by lia.
  rewrite Z.add_0_l, Z2Nat.id by lia. reflexivity.
Qed.
End RotateSteps.

(** ** Double shifts

    The operand pair as one number: [op2] fills in from below (SHLD) or from
    above (SHRD) and for a 16-bit operand is used twice. *)
Definition shld_src (sz a b : Z) : Z :=
  a * 2 ^ 32 + (if sz =? 16 then b * 2 ^ 16 + b else b).

Definition shrd_src (sz a b : Z) : Z :=
  b * 2 ^ 32 + (if sz =? 16 then b * 2 ^ 16 + a else a).

Definition double_size (sz : Z) : Prop := sz = 16 \/ sz = 32.

Lemma double_size_op sz : double_size sz -> op_size sz.
Proof. unfold double_size, op_size. lia. Qed.

Lemma lor_concat16 x y :
  0 <= x < 2 ^ 16 -> 0 <= y < 2 ^ 16 -> (x .<< 16) .| y = x * 2 ^ 16 + y.
Proof.
  intros Hx Hy. rewrite u32_small by (rewrite Z.shiftl_mul_pow2 by lia; lia).
  apply Z.bits_inj'. intros i Hi.
  rewrite concat_bits, Z.lor_spec, Z.shiftl_spec by lia.
  rewrite range_bits in Hy by lia. destruct (Z.ltb_spec i 16).
  - rewrite (Z.testbit_neg_r x) by lia. reflexivity.
  - rewrite Hy by lia. apply orb_false_r.
Qed.

Lemma word_lt sz (Hd : double_size sz) x : 0 <= x < 2 ^ sz -> 0 <= x < 2 ^ 32.
Proof. destruct Hd as [-> | ->]; lia. Qed.

Section DoubleShift.
Context (sz a b op3 : Z) (f : FLAGS) (Hd : double_size sz).
Context (Ha : 0 <= a < 2 ^ sz) (Hb : 0 <= b < 2 ^ sz) (Hn : op3 mod 32 <> 0).
Let n := op3 mod 32.

Lemma dbl_count : 0 < n < 32 /\ (op3 .& 0x1f =? 0) = false.
Proof.
  assert (0 <= n < 32) by (apply Z.mod_pos_bound; lia). assert (n <> 0) by exact Hn.
  rewrite count_mod. split; [lia | apply Z.eqb_neq; assumption].
Qed.

(** The left shift by [k + 1] in two steps, bit by bit. *)
Lemma shld_bits k lo :
  0 <= k < 31 -> 0 <= lo < 2 ^ 32 ->
  let res := if negb (k =? 0) then (a .<< k) .| (lo .>> (32 - k)) else a in
  let lo' := if negb (k =? 0) then lo .<< k else lo in
  (forall i, 0 <= i < 32 -> Z.testbit res i = Z.testbit (a * 2 ^ 32 + lo) (32 + i - k))
  /\ forall i, 0 <= i < 32 ->
       Z.testbit ((res .<< 1) .| (lo' .>> 31)) i = Z.testbit (a * 2 ^ 32 + lo) (31 + i - k).
Proof.
  intros Hk Hlo res lo'. assert (Hlob := proj1 (range_bits lo 32 ltac:(lia)) Hlo).
  assert (Hres : forall i, 0 <= i < 32 ->
    Z.testbit res i = Z.testbit (a * 2 ^ 32 + lo) (32 + i - k)).
  { intros i Hi. unfold res. rewrite concat_bits by lia.
    destruct (Z.eqb_spec k 0) as [-> | Hne]; cbn [negb].
    - rewrite (proj2 (Z.ltb_ge _ 32)) by lia. f_equal; lia.
    - rewrite Z.lor_spec, u32_bit, Z.shiftl_spec, Z.shiftr_spec by lia.
      destruct (Z.ltb_spec (32 + i - k) 32).
      + rewrite (Z.testbit_neg_r a) by lia. cbn. f_equal; lia.
      + rewrite (Hlob (i + (32 - k))), orb_false_r by lia. f_equal; lia. }
  split; [exact Hres|]. intros i Hi.
  rewrite Z.lor_spec, shl_bit, Z.shiftr_spec by lia.
  destruct (Z.ltb_spec 0 i); cbn [andb].
  - rewrite Hres by lia. replace (Z.testbit lo' (i + 31)) with false.
    + rewrite orb_false_r. f_equal; lia.
    + symmetry. unfold lo'. destruct (Z.eqb_spec k 0); cbn [negb]; [apply Hlob; lia|].
      apply (proj1 (range_bits _ 32 ltac:(lia)) (u32_range _)). lia.
  - assert (i = 0) as -> by lia. rewrite concat_bits by lia.
    rewrite (proj2 (Z.ltb_lt _ 32)) by lia. unfold lo'. cbn [orb].
    destruct (Z.eqb_spec k 0) as [-> | ]; cbn [negb]; [reflexivity|].
    rewrite u32_bit, Z.shiftl_spec by lia. f_equal; lia.
Qed.

(** The right shift by [k + 1] in two steps. *)
Lemma shrd_bits k lo :
  0 <= k < 31 -> 0 <= lo < 2 ^ 32 ->
  let res := if negb (k =? 0) then (lo .>> k) .| (b .<< (32 - k)) else lo in
  let hi' := if negb (k =? 0) then b .>> k else b in
  (forall i, 0 <= i < 32 -> Z.testbit res i = Z.testbit (b * 2 ^ 32 + lo) (i + k))
  /\ forall i, 0 <= i < 32 ->
       Z.testbit ((res .>> 1) .| (hi' .<< 31)) i = Z.testbit (b * 2 ^ 32 + lo) (i + k + 1).
Proof.
  intros Hk Hlo res hi'. assert (Hlob := proj1 (range_bits lo 32 ltac:(lia)) Hlo).
  assert (Hres : forall i, 0 <= i < 32 ->
    Z.testbit res i = Z.testbit (b * 2 ^ 32 + lo) (i + k)).
  { intros i Hi. unfold res. rewrite concat_bits by lia.
    destruct (Z.eqb_spec k 0) as [-> | Hne]; cbn [negb].
    - rewrite (proj2 (Z.ltb_lt _ 32)) by lia. f_equal; lia.
    - rewrite Z.lor_spec, u32_bit, Z.shiftl_spec, Z.shiftr_spec by lia.
      destruct (Z.ltb_spec (i + k) 32).
      + rewrite (Z.testbit_neg_r b) by lia. apply orb_false_r.
      + rewrite (Hlob (i + k)) by lia. cbn. f_equal; lia. }
  assert (Hr32 : Z.testbit res 32 = false).
  { unfold res. destruct (Z.eqb_spec k 0); cbn [negb]; [apply Hlob; lia|].
    rewrite Z.lor_spec, Z.shiftr_spec, (Hlob (32 + k)) by lia.
    apply (proj1 (range_bits _ 32 ltac:(lia)) (u32_range _)). lia. }
  split; [exact Hres|]. intros i Hi.
  rewrite Z.lor_spec, Z.shiftr_spec, u32_bit, Z.shiftl_spec by lia.
  destruct (Z.eq_dec i 31) as [-> | Hne].
  - change (31 + 1) with 32. rewrite Hr32, concat_bits by lia.
    rewrite (proj2 (Z.ltb_ge _ 32)) by lia. cbn [orb]. unfold hi'.
    destruct (Z.eqb_spec k 0) as [-> | ]; cbn [negb]; [reflexivity|].
    rewrite Z.shiftr_spec by lia. f_equal; lia.
  - rewrite Hres by lia. rewrite (Z.testbit_neg_r hi') by lia. rewrite orb_false_r.
    f_equal; lia.
Qed.

(** Truncating to the operand, from the bits below 32. *)
Lemma trunc_bits x C k :
  (forall i, 0 <= i < 32 -> Z.testbit x i = Z.testbit C (i + k)) -> 0 <= k ->
  x .& SZ2MASK sz = (C / 2 ^ k) mod 2 ^ sz.
Proof.
  intros Hx Hk. pose proof (op_size_range sz (double_size_op sz Hd)).
  rewrite land_SZ2MASK by (apply double_size_op; assumption).
  apply Z.bits_inj'. intros i Hi. destruct (Z.lt_ge_cases i sz).
  - rewrite !Z.mod_pow2_bits_low, Hx, Z.div_pow2_bits by lia. reflexivity.
  - rewrite !Z.mod_pow2_bits_high by lia. reflexivity.
Qed.

Definition double_shift_result (r c : Z) : Z * FLAGS :=
  (r, SET_AF 0 (SET_OF (Z.b2z (xorb (Z.testbit a (sz - 1)) (Z.testbit r (sz - 1))))
        (result_flags sz r (SET_CF c f)))).

Lemma SHLD_spec :
  SHLD a b op3 sz f
  = double_shift_result ((shld_src sz a b * 2 ^ n / 2 ^ 32) mod 2 ^ sz)
      (Z.b2z (Z.testbit (shld_src sz a b) (32 + sz - n))).
Proof.
  pose proof (double_size_op sz Hd) as Hs. destruct (operand_facts sz Hs) as (Hz & Hh & Hp).
  destruct dbl_count as [Hn0 Hzb]. unfold SHLD. rewrite Hzb, count_mod. fold n.
  set (lo := if sz =? 16 then _ else b).
  assert (Hlo : lo = if sz =? 16 then b * 2 ^ 16 + b else b).
  { unfold lo. destruct (Z.eqb_spec sz 16) as [-> | ]; [apply lor_concat16; assumption | reflexivity]. }
  assert (Hlo32 : 0 <= lo < 2 ^ 32)
    by (rewrite Hlo; destruct Hd as [-> | ->]; cbn [Z.eqb Pos.eqb]; lia).
  destruct (shld_bits (n - 1) lo ltac:(lia) Hlo32) as [B0 B1].
  unfold shld_src. rewrite <- Hlo. clearbody lo. set (C := a * 2 ^ 32 + lo) in *.
  set (res := if negb (n - 1 =? 0) then _ else a) in *.
  set (lo' := if negb (n - 1 =? 0) then _ else lo) in *.
  replace (if negb (n - 1 =? 0) then (_, _) else (a, lo)) with (res, lo')
    by (unfold res, lo'; destruct (n - 1 =? 0); reflexivity).
  cbv iota beta.
  assert (Hr : ((res .<< 1) .| (lo' .>> 31)) .& SZ2MASK sz = (C * 2 ^ n / 2 ^ 32) mod 2 ^ sz).
  { replace (C * 2 ^ n / 2 ^ 32) with (C / 2 ^ (32 - n)).
    - apply trunc_bits; [|lia]. intros i Hi. rewrite B1 by lia. f_equal; lia.
    - replace (2 ^ 32) with (2 ^ (32 - n) * 2 ^ n) by (rewrite <- Z.pow_add_r; [f_equal|..]; lia).
      pose proof (pow2_pos n). pose proof (pow2_pos (32 - n)).
      rewrite Z.div_mul_cancel_r by lia. reflexivity. }
  rewrite Hr. set (r := (C * 2 ^ n / 2 ^ 32) mod 2 ^ sz) in *.
  assert (Hrr : 0 <= r < 2 ^ sz) by (apply Z.mod_pos_bound; lia).
  rewrite !(nz_land_msb _ sz Hs), B0, Z.lxor_spec by lia.
  change (Z.land r 0xff) with (r .& BYTE_MASK). rewrite pf_low_byte.
  cbn [CF SF SET_CF SET_PF SET_ZF SET_SF].
  unfold double_shift_result, result_flags. rewrite <- (sgn_neg sz r Hs Hrr).
  replace (32 + (sz - 1) - (n - 1)) with (32 + sz - n) by lia.
  rewrite b2z_xorb. destruct (Z.eqb_spec (n - 1) 0); [|rewrite xorb_comm; reflexivity].
  replace (Z.testbit C (32 + sz - n)) with (Z.testbit a (sz - 1)); [reflexivity|].
  unfold C. rewrite concat_bits, (proj2 (Z.ltb_ge _ 32)) by lia. f_equal; lia.
Qed.

Lemma SHRD_spec :
  SHRD a b op3 sz f
  = double_shift_result ((shrd_src sz a b / 2 ^ n) mod 2 ^ sz)
      (Z.b2z (Z.testbit (shrd_src sz a b) (n - 1))).
Proof.
  pose proof (double_size_op sz Hd) as Hs. destruct (operand_facts sz Hs) as (Hz & Hh & Hp).
  destruct dbl_count as [Hn0 Hzb]. unfold SHRD. rewrite Hzb, count_mod. fold n.
  set (lo := if sz =? 16 then _ else a).
  assert (Hlo : lo = if sz =? 16 then b * 2 ^ 16 + a else a).
  { unfold lo. destruct (Z.eqb_spec sz 16) as [-> | ]; [apply lor_concat16; assumption | reflexivity]. }
  assert (Hlo32 : 0 <= lo < 2 ^ 32)
    by (rewrite Hlo; destruct Hd as [-> | ->]; cbn [Z.eqb Pos.eqb]; lia).
  assert (Hsign : Z.testbit lo (sz - 1) = Z.testbit a (sz - 1)).
  { rewrite Hlo. destruct (Z.eqb_spec sz 16) as [-> | ]; [|reflexivity].
    rewrite concat_bits by lia. reflexivity. }
  destruct (shrd_bits (n - 1) lo ltac:(lia) Hlo32) as [B0 B1].
  unfold shrd_src. rewrite <- Hlo. clearbody lo. set (C := b * 2 ^ 32 + lo) in *.
  set (res := if negb (n - 1 =? 0) then _ else lo) in *.
  set (hi' := if negb (n - 1 =? 0) then _ else b) in *.
  assert (Hres1 : n - 1 = 0 -> res = lo) by (intros E; unfold res; rewrite E; reflexivity).
  replace (if negb (n - 1 =? 0) then (_, _) else (lo, b)) with (res, hi')
    by (unfold res, hi'; destruct (n - 1 =? 0); reflexivity).
  cbv iota beta.
  assert (Hr : ((res .>> 1) .| (hi' .<< 31)) .& SZ2MASK sz = (C / 2 ^ n) mod 2 ^ sz).
  { apply trunc_bits; [|lia]. intros i Hi. rewrite B1 by lia. f_equal; lia. }
  rewrite Hr. set (r := (C / 2 ^ n) mod 2 ^ sz) in *.
  assert (Hrr : 0 <= r < 2 ^ sz) by (apply Z.mod_pos_bound; lia).
  rewrite !(nz_land_msb _ sz Hs), nz_bit0, (B0 0), Z.lxor_spec, Hsign by lia.
  change (Z.land r 0xff) with (r .& BYTE_MASK). rewrite pf_low_byte.
  cbn [CF SF SET_CF SET_PF SET_ZF SET_SF].
  unfold double_shift_result, result_flags. rewrite <- (sgn_neg sz r Hs Hrr), b2z_xorb.
  destruct (Z.eqb_spec (n - 1) 0) as [E|]; [|rewrite xorb_comm; reflexivity].
  rewrite (Hres1 E), Hsign. reflexivity.
Qed.
End DoubleShift.

(** ** Bit scans and bit tests *)

Lemma bsf_loop_spec fuel : forall temp b,
  0 < b < 2 ^ Z.of_nat fuel -> 0 <= temp -> temp + Z.of_nat fuel < 2 ^ 32 ->
  exists k, 0 <= k /\ bsf_loop fuel temp b = Some (temp + k)
            /\ Z.testbit b k = true /\ forall i, 0 <= i < k -> Z.testbit b i = false.
Proof.
  induction fuel as [|fuel IH]; intros temp b Hb Ht Hf; [cbn in Hb; lia|].
  cbn [bsf_loop]. rewrite Nat2Z.inj_succ, Z.pow_succ_r in Hb by lia.
  pose proof (bit0_test b) as Hbit. destruct (b .& BIT_MASK 0 =? 0); cbn [negb] in Hbit.
  - assert (Heven : b = 2 * (b / 2)).
    { rewrite <- Z.div2_div. rewrite (Z.div2_odd b) at 1. rewrite <- Z.bit0_odd, <- Hbit. cbn. lia. }
    rewrite Z.shiftr_div_pow2 by lia. change (2 ^ 1) with 2.
    rewrite u32_small by lia.
    destruct (IH (temp + 1) (b / 2)) as (k & Hk & -> & Htk & Hlow); [lia..|].
    exists (k + 1). split; [lia|]. split; [f_equal; lia|].
    assert (HS : forall i, 0 <= i -> Z.testbit b (i + 1) = Z.testbit (b / 2) i).
    { intros i Hi. rewrite Heven at 1. rewrite Z.add_1_r, Z.testbit_even_succ by lia. reflexivity. }
    split; [rewrite HS by lia; exact Htk|]. intros i Hi.
    destruct (Z.eq_dec i 0) as [-> | ]; [symmetry; exact Hbit|].
    replace i with (i - 1 + 1) by lia. rewrite HS by lia. apply Hlow. lia.
  - exists 0. repeat split; [lia | f_equal; lia | symmetry; exact Hbit | lia].
Qed.

Lemma bsr_loop_spec sz (Hs : op_size sz) fuel : forall temp b s,
  0 <= s -> temp = sz - 1 - s -> s + Z.of_nat fuel = sz -> 0 < b < 2 ^ (sz - s) ->
  exists k, 0 <= k < sz /\ bsr_loop fuel (SZ2MSB sz) temp (b * 2 ^ s) = Some k
            /\ Z.testbit b k = true /\ forall i, k < i -> Z.testbit b i = false.
Proof.
  pose proof (op_size_range sz Hs) as Hz.
  induction fuel as [|fuel IH]; intros temp b s H0 -> Hsz Hb.
  { replace (sz - s) with 0 in Hb by lia. cbn in Hb. lia. }
  cbn [bsr_loop]. rewrite Nat2Z.inj_succ in Hsz.
  pose proof (msb_test sz Hs (b * 2 ^ s)) as Hbit.
  rewrite <- Z.shiftl_mul_pow2, Z.shiftl_spec in Hbit by lia.
  replace (sz - 1 - s) with (sz - s - 1) in Hbit by lia.
  rewrite msb_ge_half in Hbit by lia. rewrite <- Z.shiftl_mul_pow2 by lia.
  pose proof (pow2_split (sz - s) ltac:(lia)).
  destruct (Z.shiftl b s .& SZ2MSB sz =? 0); cbn [negb] in Hbit.
  - destruct (Z.leb_spec (2 ^ (sz - s - 1)) b); [discriminate|].
    assert (Hlt : b * 2 ^ (s + 1) < 2 ^ sz).
    { replace (2 ^ sz) with (2 ^ (sz - s - 1) * 2 ^ (s + 1))
        by (rewrite <- Z.pow_add_r by lia; f_equal; lia).
      pose proof (pow2_pos (s + 1)). nia. }
    assert (2 ^ sz <= 2 ^ 32) by (apply Z.pow_le_mono_r; lia).
    pose proof (pow2_pos (s + 1)).
    assert (sz - s - 1 <> 0) by (intros E; rewrite E in *; cbn in *; lia).
    rewrite Z.shiftl_shiftl, Z.shiftl_mul_pow2, !u32_small by (nia || lia).
    replace (sz - 1 - s - 1) with (sz - 1 - (s + 1)) by lia.
    apply IH; [lia | reflexivity | lia |].
    replace (sz - (s + 1)) with (sz - s - 1) by lia. lia.
  - exists (sz - s - 1). repeat split; [lia | lia | f_equal; lia | | ].
    + rewrite msb_ge_half by lia. symmetry. exact Hbit.
    + intros i Hi. apply (proj1 (range_bits b (sz - s) ltac:(lia))); lia.
Qed.

Lemma bsr_loop_mono fuel fuel' : forall msb temp b r,
  (fuel <= fuel')%nat -> bsr_loop fuel msb temp b = Some r -> bsr_loop fuel' msb temp b = Some r.
Proof.
  revert fuel'. induction fuel as [|fuel IH]; intros fuel' msb temp b r Hle H; [discriminate|].
  destruct fuel' as [|fuel']; [lia|]. cbn in *. destruct (_ =? 0); [|assumption].
  apply IH; [lia | assumption].
Qed.

Lemma bit_mask_pow k sz : double_size sz -> 0 <= k < sz -> 1 .<< k = 2 ^ k.
Proof.
  intros Hd Hk. rewrite Z.shiftl_mul_pow2, Z.mul_1_l by lia. apply u32_small.
  split; [pose proof (pow2_pos k); lia|]. apply Z.pow_lt_mono_r; destruct Hd; lia.
Qed.

Lemma land_not_pow2 a k : 0 <= a < 2 ^ 32 -> 0 <= k < 32 -> a .& not32 (2 ^ k) = Z.clearbit a k.
Proof.
  intros Ha Hk. apply Z.bits_inj'. intros i Hi.
  rewrite Z.land_spec, Z.clearbit_eqb by lia. unfold not32.
  destruct (Z.lt_ge_cases i 32).
  - rewrite u32_bit, Z.lnot_spec, Z.pow2_bits_eqb by lia. reflexivity.
  - rewrite (proj1 (range_bits a 32 ltac:(lia)) Ha) by lia. reflexivity.
Qed.

(** ** The shift and rotate theorems *)

(** C19 - SHL, SHR and SAR shift by the count modulo 32: a zero count changes
    nothing; otherwise the results are multiplication and (unsigned, signed)
    floor division by a power of two, CF is the last bit shifted out, ZF, SF and
    PF follow the result, and after a single SHL the overflow flag says exactly
    that the doubled signed operand does not fit. *)
Theorem shifts_correct u sz a op2 f :
  op_size sz -> 0 <= a < 2 ^ sz -> 0 <= CF f <= 1 ->
  let n := op2 mod 32 in
  if n =? 0 then SHL u a op2 sz f = (a, f) /\ SHR u a op2 sz f = (a, f) /\ SAR a op2 sz f = (a, f)
  else
    let flags o c r := SET_AF 0 (SET_OF o (result_flags sz r (SET_CF (Z.b2z c) f))) in
    let rl := (a * 2 ^ n) mod 2 ^ sz in
    let rr := a / 2 ^ n in
    let ra := (sgn sz a / 2 ^ n) mod 2 ^ sz in
    let ol := Z.b2z (xorb (Z.testbit a (sz - n)) (Z.testbit rl (sz - 1))) in
    SHL u a op2 sz f = (rl, flags (of_rule u n ol) (Z.testbit a (sz - n)) rl)
    /\ (n = 1 -> ol = Z.b2z (negb (fits sz (2 * sgn sz a))))
    /\ SHR u a op2 sz f
       = (rr, flags (of_rule u n (Z.b2z ((n =? 1) && Z.testbit a (sz - 1)))) (Z.testbit a (n - 1)) rr)
    /\ SAR a op2 sz f = (ra, flags 0 (Z.testbit (sgn sz a) (n - 1)) ra).
Proof.
  intros Hs Ha Hc n. destruct (Z.eqb_spec n 0) as [E | Hn].
  - unfold SHL, SHR, SAR. rewrite !count_mod. fold n. rewrite E. auto.
  - intros flags rl rr ra ol. split; [apply SHL_spec; assumption|].
    split; [|split; [apply SHR_spec; assumption | apply SAR_spec; assumption]].
    intros E1. subst ol rl. rewrite E1. f_equal.
    destruct (operand_facts sz Hs) as (Hz & Hh & Hp).
    rewrite !msb_ge_half by (try apply Z.mod_pos_bound; lia). unfold fits.
    rewrite (sgn_half sz Hs a Ha). change (2 ^ 1) with 2.
    destruct (sum_mod a a 0 (2 ^ sz)) as [Hm _]; [lia..|].
    replace (a * 2) with (a + a + 0) by lia. rewrite Hm, Hp.
    destruct (Z.leb_spec (2 * 2 ^ (sz - 1)) (a + a + 0)); split_leb; try reflexivity; lia.
Qed.

Lemma shifts_correct_witness : SAR 0x80 3 8 flags0 = (0xf0, SET_PF 1 (SET_SF 1 flags0)).
Proof.
  refine (proj2 (proj2 (proj2 (shifts_correct false 8 0x80 3 flags0 _ _ _))));
    [left; reflexivity | vm_compute | vm_compute]; split; congruence.
Defined.

(** ROL and ROR rotate the operand by the count: bit [i] of the result is
    bit [i - n] (ROL) or [i + n] (ROR) of the operand, indices modulo the operand
    size; CF is the bit that went around last, OF the sign change of a single
    rotate, and no other flag changes.  ROL's result is meant modulo the operand
    size, ROR's is in range. *)
Theorem rotates_correct u sz a op2 f :
  op_size sz -> 0 <= a < 2 ^ sz -> 0 <= CF f <= 1 ->
  let n := op2 mod 32 in
  n <> 0 ->
  (exists r, ROL u a op2 sz f
     = (r, SET_OF (of_rule u n (Z.b2z (xorb (Z.testbit r 0) (Z.testbit r (sz - 1)))))
             (SET_CF (Z.b2z (Z.testbit r 0)) f))
     /\ forall i, 0 <= i < sz -> Z.testbit r i = Z.testbit a ((i - n) mod sz))
  /\ (exists r, ROR u a op2 sz f
     = (r, SET_OF (of_rule u n (Z.b2z (xorb (Z.testbit r (sz - 1)) (Z.testbit r (sz - 2)))))
             (SET_CF (Z.b2z (Z.testbit r (sz - 1))) f))
     /\ 0 <= r < 2 ^ sz
     /\ forall i, 0 <= i < sz -> Z.testbit r i = Z.testbit a ((i + n) mod sz)).
Proof. intros. split; [apply ROL_spec | apply ROR_spec]; assumption. Qed.

Lemma rotates_correct_witness :
  exists r, fst (ROR false 0x01 1 8 flags0) = r /\ r = 0x80 /\ 0 <= r < 2 ^ 8.
Proof.
  destruct (rotates_correct false 8 0x01 1 flags0) as [_ (r & E & Hr & _)];
    [left; reflexivity | split; vm_compute; congruence | split; vm_compute; congruence
    | vm_compute; congruence |].
  exists r. rewrite E. cbn [fst]. split; [reflexivity|]. split; [|exact Hr].
  apply (f_equal fst) in E. vm_compute in E. congruence.
Defined.

(** RCL and RCR rotate the operand with CF as its extra top bit, over
    [sz + 1] places, and are inverse to each other: RCR by the same count
    restores the operand RCL rotated and the carry flag. *)
Theorem carry_rotates_correct u sz a op2 f :
  op_size sz -> 0 <= a < 2 ^ sz -> 0 <= CF f <= 1 ->
  let n := op2 mod 32 in
  let '(r, f1) := RCL u a op2 sz f in
  (forall i, 0 <= i <= sz ->
     carry_bit sz (r, f1) i = carry_bit sz (a, f) ((i - n) mod (sz + 1)))
  /\ let '(r2, f2) := RCR u (r mod 2 ^ sz) op2 sz f1 in r2 = a /\ CF f2 = CF f.
Proof.
  intros Hs Ha Hc n. pose proof (op_size_range sz Hs) as Hz.
  destruct (Z.eq_dec n 0) as [E | Hn].
  - unfold RCL, RCR. rewrite !count_mod. fold n. rewrite E. cbn [Z.eqb].
    rewrite Z.mod_small by assumption. split; [|split; reflexivity].
    intros i Hi. rewrite Z.sub_0_r, Z.mod_small by lia. reflexivity.
  - destruct (RCL_spec sz Hs u a op2 f Hn Hc) as (r & c & -> & HL). fold n in HL |- *.
    set (f1 := SET_OF _ _). assert (Hc1 : CF f1 = Z.b2z c) by reflexivity.
    assert (Hneg : negb (CF f1 =? 0) = c) by (rewrite Hc1; apply b2z_neq0).
    split; [intros i Hi; unfold carry_bit, fst, snd; rewrite Hneg; apply HL; assumption|].
    destruct (RCR_spec sz Hs u (r mod 2 ^ sz) op2 f1 Hn) as (r2 & c2 & -> & Hr2 & HR);
      [apply Z.mod_pos_bound, pow2_pos; lia | rewrite Hc1; apply b2z_range |].
    fold n in HR. rewrite Hneg in HR.
    assert (HB : forall i, 0 <= i <= sz -> cbit sz r2 c2 i = cbit sz a (negb (CF f =? 0)) i).
    { intros i Hi. rewrite HR by assumption.
      pose proof (Z.mod_pos_bound (i + n) (sz + 1) ltac:(lia)).
      transitivity (cbit sz r c ((i + n) mod (sz + 1))).
      - unfold cbit. destruct (Z.ltb_spec ((i + n) mod (sz + 1)) sz); [|reflexivity].
        apply Z.mod_pow2_bits_low; lia.
      - rewrite HL, Zminus_mod_idemp_l, Z.add_simpl_r, Z.mod_small by lia. reflexivity. }
    split.
    + apply Z.bits_inj'. intros i Hi. destruct (Z.lt_ge_cases i sz).
      * specialize (HB i ltac:(lia)). unfold cbit in HB.
        rewrite (proj2 (Z.ltb_lt i sz)) in HB by lia. exact HB.
      * rewrite (proj1 (range_bits r2 sz ltac:(lia)) Hr2) by lia.
        rewrite (proj1 (range_bits a sz ltac:(lia)) Ha) by lia. reflexivity.
    + specialize (HB sz ltac:(lia)). unfold cbit in HB. rewrite Z.ltb_irrefl in HB.
      cbn. rewrite HB. symmetry. apply bool_CF. assumption.
Qed.

Lemma carry_rotates_correct_witness :
  let '(r, f1) := RCL false 0x81 9 8 flags0 in r mod 2 ^ 8 = 0x81.
Proof.
  pose proof (carry_rotates_correct false 8 0x81 9 flags0) as H.
  destruct (RCL false 0x81 9 8 flags0) as [r f1] eqn:E. vm_compute in E. injection E as <- <-.
  destruct H as [_ _]; [left; reflexivity | split; vm_compute; congruence ..| reflexivity].
Defined.

(** SHLD and SHRD shift the concatenation of the two operands (the filler
    operand taken twice for 16-bit operands, so that counts above 16 recycle
    it): the result is the window of the operand size, CF the last bit shifted
    out and OF whether the sign of the destination changed. *)
Theorem double_shifts_correct sz a b op3 f :
  double_size sz -> 0 <= a < 2 ^ sz -> 0 <= b < 2 ^ sz ->
  let n := op3 mod 32 in
  if n =? 0 then SHLD a b op3 sz f = (a, f) /\ SHRD a b op3 sz f = (a, f)
  else
    SHLD a b op3 sz f
      = double_shift_result sz a f ((shld_src sz a b * 2 ^ n / 2 ^ 32) mod 2 ^ sz)
          (Z.b2z (Z.testbit (shld_src sz a b) (32 + sz - n)))
    /\ SHRD a b op3 sz f
      = double_shift_result sz a f ((shrd_src sz a b / 2 ^ n) mod 2 ^ sz)
          (Z.b2z (Z.testbit (shrd_src sz a b) (n - 1))).
Proof.
  intros Hd Ha Hb n. destruct (Z.eqb_spec n 0) as [E | Hn].
  - unfold SHLD, SHRD. rewrite !count_mod. fold n. rewrite E. auto.
  - split; [apply SHLD_spec | apply SHRD_spec]; assumption.
Qed.

Lemma double_shifts_correct_witness :
  SHLD 0x1234 0xabcd 20 16 flags0
  = double_shift_result 16 0x1234 flags0 0xbcda 0.
Proof.
  refine (proj1 (double_shifts_correct 16 0x1234 0xabcd 20 flags0 _ _ _));
    [left; reflexivity | vm_compute | vm_compute]; split; congruence.
Defined.

(** The bit instructions: BT copies the addressed bit (index modulo the
    operand size) to CF, BTS, BTR and BTC also set, clear and flip it; BSF and BSR
    always terminate, find the lowest and the highest set bit, and leave the
    destination alone (with ZF set) for a zero operand. *)
Theorem bit_instructions_correct sz a b f :
  double_size sz -> 0 <= a < 2 ^ sz -> 0 <= b < 2 ^ sz ->
  let k := b mod sz in
  let g := SET_CF (Z.b2z (Z.testbit a k)) f in
  BT a b sz f = g /\ BTS a b sz f = (Z.setbit a k, g)
  /\ BTR a b sz f = (Z.clearbit a k, g) /\ BTC a b sz f = (Z.lxor a (2 ^ k), g)
  /\ (b = 0 -> BSF a b f = Some (a, SET_ZF 1 f) /\ BSR a b sz f = Some (a, SET_ZF 1 f))
  /\ (b <> 0 -> exists lo hi,
        BSF a b f = Some (lo, SET_ZF 0 f) /\ BSR a b sz f = Some (hi, SET_ZF 0 f)
        /\ Z.testbit b lo = true /\ Z.testbit b hi = true
        /\ forall i, Z.testbit b i = true -> lo <= i <= hi).
Proof.
  intros Hd Ha Hb k g. pose proof (double_size_op sz Hd) as Hs.
  pose proof (op_size_range sz Hs) as Hz. pose proof (word_lt sz Hd) as Hw.
  assert (Hk : 0 <= k < sz) by (apply Z.mod_pos_bound; lia).
  unfold BT, BTS, BTR, BTC. fold k. rewrite (bit_mask_pow k sz Hd Hk), nz_land_pow2 by lia.
  rewrite land_not_pow2 by (apply Hw || lia; assumption). rewrite Z.setbit_spec'.
  do 4 (split; [reflexivity|]). unfold BSF, BSR.
  destruct (Z.eqb_spec b 0) as [-> | Hne]; split; intros Hb0; try lia; [split; reflexivity|].
  destruct (bsf_loop_spec 32 0 b) as (lo & Hlo & -> & Tlo & Llo); [specialize (Hw b Hb); cbn; lia | lia.. |].
  destruct (bsr_loop_spec sz Hs (Z.to_nat sz) (sz - 1) b 0) as (hi & Hhi & El & Thi & Lhi);
    [lia.. | rewrite Z.sub_0_r; lia |].
  rewrite Z.pow_0_r, Z.mul_1_r in El. rewrite (bsr_loop_mono (Z.to_nat sz) 32 _ _ _ hi) by (lia || assumption).
  exists lo, hi. repeat split; try assumption.
  - destruct (Z.lt_ge_cases i lo); [|assumption]. destruct (Z.lt_ge_cases i 0).
    + rewrite Z.testbit_neg_r in H by lia. discriminate.
    + rewrite Llo in H by lia. discriminate.
  - destruct (Z.lt_ge_cases hi i); [|assumption]. rewrite Lhi in H by lia. discriminate.
Qed.

Lemma bit_instructions_correct_witness : BTC 0x0f 19 16 flags0 = (0x07, SET_CF 1 flags0).
Proof.
  refine (proj1 (proj2 (proj2 (proj2 (bit_instructions_correct 16 0x0f 19 flags0 _ _ _)))));
    [left; reflexivity | vm_compute | vm_compute]; split; congruence.
Defined.

End Shift.
