(* ===== verification/Xcptn.v ===== *)
(** * Exceptions and reset

    [c_xcptn.c] with [check_interface_active] of [c_xtrn.c], [load_pseudo_descr]
    of [c_seg.c] and [c_cpu_reset] of [c_main.c].

    In the source an exception routine sets the fault status, calls
    [do_intrupt] and leaves through [c_cpu_continue], a long jump.  Here it sets
    the status and raises [Intrupt] with the arguments of the [do_intrupt] call;
    the interrupt is then delivered by whoever catches it.  A fault inside
    [do_intrupt] is a nested call in the source that never returns, so it
    replaces the interrupt being delivered.  The [xcode] argument of the routines
    is only traced and is left out. *)

From stdpp Require Import relations.
From S2P Require Import Prelude Cpu.

Module Xcptn.

Inductive exn :=
| Intrupt (vector : Z) (priv_check has_error_code : bool) (error_code : Z)
| CpuContinue       (** [c_cpu_continue] after a reset *)
| InterfaceAbort.   (** the long jump to [interface_abort] *)

(** The vectors of [c_xcptn.c]. *)
Definition I0_INT_NR : Z := 0.
Definition I1_INT_NR : Z := 1.
Definition I5_INT_NR : Z := 5.
Definition I6_INT_NR : Z := 6.
Definition I7_INT_NR : Z := 7.
Definition I16_INT_NR : Z := 16.
Definition DF_INT_NR : Z := 8.
Definition GP_INT_NR : Z := 13.
Definition NP_INT_NR : Z := 11.
Definition PF_INT_NR : Z := 14.
Definition SF_INT_NR : Z := 12.
Definition TS_INT_NR : Z := 10.
Definition INTERNAL : Z := 0.
Definition EXTERNAL : Z := 1.
Definition IDT_VECTOR_MASK : Z := 0xff.
Definition IDT_VECTOR_SHIFT : Z := 3.
Definition IDT_INDICATOR_BIT : Z := 2.

(** ** Reset *)

Definition load_pseudo_descr (index : Z) (c : cpu) : cpu :=
  let s := GET_SR index c in
  let s := SEG_limit 0xffff s in
  let s := SEG_ar_w 1 s in
  let s := SEG_ar_r 1 s in
  let s := SEG_ar_e 0 s in
  let s := SEG_ar_c 0 s in
  let s := SEG_ar_x 0 s in
  let s := SEG_ar_dpl (if VM (fl c) =? 1 then 3 else 0) s in
  SET_SR index s c.

(** Set a segment register's selector and base and give it the real mode
    descriptor. *)
Definition reset_sr (index sel bs : Z) (c : cpu) : cpu :=
  load_pseudo_descr index (SET_SR index (SEG_base bs (SEG_selector sel (GET_SR index c))) c).

(** CR0 bit 4. *)
Definition SET_ET (x : Z) (c : cpu) : cpu :=
  let v := CR_STAT (cr c) in
  modify_cr (SET_CR_STAT ((v .& not32 (BIT_MASK 4)) .| ((x .& 1) .<< 4))) c.

Definition c_cpu_reset (c : cpu) : cpu :=
  let c := modify_fl (fun f => SET_IOPL 0 (SET_NT 0 (SET_VM 0 (SET_RF 0 f)))) c in
  let c := modify_fl (fun f =>
             SET_OF 0 (SET_SF 0 (SET_ZF 0 (SET_AF 0 (SET_CF 0 (SET_PF 0 f)))))) c in
  let c := modify_fl (fun f => SET_DF 0 (SET_IF 0 (SET_TF 0 f))) c in
  let c := SET_ip 0xFFF0 c in
  let c := SET_CPL 0 c in
  let c := reset_sr CS_REG 0xF000 0xf0000 c in
  let c := reset_sr SS_REG 0 0 c in
  let c := reset_sr DS_REG 0 0 c in
  let c := reset_sr ES_REG 0 0 c in
  let c := reset_sr FS_REG 0 0 c in
  let c := reset_sr GS_REG 0 0 c in
  let c := modify_cr (SET_CR_STAT 0) c in
  let c := SET_idtr (mkSTAR 0 0x3ff) c in
  let c := SET_gdtr (mkSTAR 0 0) c in
  let c := SET_ldtr (SET_sar_limit 0 (SET_sar_base 0 (SET_sar_selector 0 (ldtr c)))) c in
  let c := SET_tr (SET_sar_limit 0 (SET_sar_base 0 (SET_sar_selector 0 (tr c)))) c in
  let c := SET_tr (SET_sar_super 3 (tr c)) c in
  let c := SET_GR A_EAX 0 c in
  let c := SET_GR A_ECX 0 c in
  let c := SET_GR A_EDX 0x00000303 c in
  let c := SET_GR A_EBX 0 c in
  let c := SET_GR A_ESP 0 c in
  let c := SET_GR A_EBP 0 c in
  let c := SET_GR A_ESI 0 c in
  let c := SET_GR A_EDI 0 c in
  SET_ET 1 c.

(** ** The exception routines *)

Section Routines.
Context {S : Type} `{HasCpu S}.
Abbreviation X := (M exn S).

Definition check_interface_active (except_nmbr : Z) : X unit :=
  a <- getc (fun c => interface_active (xs c)) ;;
  if a then
    modc (modify_xs (SET_interface_error except_nmbr)) ;;
    throw InterfaceAbort
  else ret tt.

Definition check_for_shutdown : X unit :=
  d <- getc (fun c => doing_double_fault (xs c)) ;;
  if d then
    modc (modify_xs (fun x =>
      SET_EXT INTERNAL (SET_doing_double_fault false (SET_doing_page_fault false
        (SET_doing_contributory false x))))) ;;
    modc c_cpu_reset ;;
    throw CpuContinue
  else ret tt.

(** The block each routine repeats: back to the start of the instruction, and
    the default operand and address size of the code segment. *)
Definition default_mode (c : cpu) : cpu :=
  let c := SET_ip (CCPU_save_EIP (xs c)) c in
  let x := ar_x (GET_SR CS_REG c) in
  SET_pop_disp 0 (SET_address_size x (SET_operand_size x c)).

Definition benign_exception (nmbr source : Z) : X unit :=
  modc default_mode ;;
  modc (modify_xs (SET_EXT source)) ;;
  modc (SET_took_absolute_toc true) ;;
  throw (Intrupt nmbr false false 0).

Definition DF_fault : X unit :=
  modc (modify_xs (SET_doing_fault false)) ;;
  pe <- getc GET_PE ;;
  when (pe =? 1)
    (check_for_shutdown ;; modc (modify_xs (SET_doing_double_fault true))) ;;
  modc default_mode ;;
  modc (modify_xs (SET_EXT INTERNAL)) ;;
  modc (SET_took_absolute_toc true) ;;
  throw (Intrupt DF_INT_NR false true 0).

Definition check_for_double_fault : X unit :=
  x <- getc xs ;;
  when (doing_contributory x || doing_page_fault x) DF_fault.

Definition contributory_exception (sel nmbr : Z) : X unit :=
  check_interface_active nmbr ;;
  check_for_shutdown ;;
  check_for_double_fault ;;
  modc (modify_xs (SET_doing_contributory true)) ;;
  ext <- getc (fun c => EXT (xs c)) ;;
  let error_code := (sel .& 0xfffc) .| ext in
  modc default_mode ;;
  modc (modify_xs (SET_EXT INTERNAL)) ;;
  modc (SET_took_absolute_toc true) ;;
  throw (Intrupt nmbr false true error_code).

Definition contributory_idt_exception (vector nmbr : Z) : X unit :=
  check_interface_active nmbr ;;
  check_for_shutdown ;;
  check_for_double_fault ;;
  modc (modify_xs (SET_doing_contributory true)) ;;
  ext <- getc (fun c => EXT (xs c)) ;;
  let error_code :=
    u16 (((vector .& IDT_VECTOR_MASK) .<< IDT_VECTOR_SHIFT) .| IDT_INDICATOR_BIT .| ext) in
  modc default_mode ;;
  modc (modify_xs (SET_EXT INTERNAL)) ;;
  modc (SET_took_absolute_toc true) ;;
  throw (Intrupt nmbr false true error_code).

Definition set_fault (b : bool) : X unit := modc (modify_xs (SET_doing_fault b)).

Definition GP (sel : Z) : X unit := set_fault true ;; contributory_exception sel GP_INT_NR.
Definition GP_INT (vector : Z) : X unit :=
  set_fault true ;; contributory_idt_exception vector GP_INT_NR.
Definition NP (sel : Z) : X unit := set_fault true ;; contributory_exception sel NP_INT_NR.
Definition NP_INT (vector : Z) : X unit :=
  set_fault true ;; contributory_idt_exception vector NP_INT_NR.
Definition SF_fault (sel : Z) : X unit := set_fault true ;; contributory_exception sel SF_INT_NR.
Definition TS (sel : Z) : X unit := set_fault true ;; contributory_exception sel TS_INT_NR.

Definition Int0 : X unit :=
  set_fault true ;;
  pe <- getc GET_PE ;;
  when (pe =? 1) (modc (modify_xs (SET_doing_contributory true))) ;;
  modc default_mode ;;
  modc (modify_xs (SET_EXT INTERNAL)) ;;
  modc (SET_took_absolute_toc true) ;;
  throw (Intrupt I0_INT_NR false false 0).

Definition Int1_f : X unit := set_fault true ;; benign_exception I1_INT_NR EXTERNAL.
Definition Int1_t : X unit := set_fault false ;; benign_exception I1_INT_NR EXTERNAL.
Definition Int5 : X unit := set_fault true ;; benign_exception I5_INT_NR INTERNAL.
Definition Int6 : X unit := set_fault true ;; benign_exception I6_INT_NR INTERNAL.
Definition Int7 : X unit := set_fault true ;; benign_exception I7_INT_NR INTERNAL.
Definition Int16 : X unit := set_fault true ;; benign_exception I16_INT_NR EXTERNAL.

(** EXT is left as it was here. *)
Definition PF_fault (page_error : Z) : X unit :=
  check_interface_active PF_INT_NR ;;
  set_fault true ;;
  check_for_shutdown ;;
  p <- getc (fun c => doing_page_fault (xs c)) ;;
  when p DF_fault ;;
  modc (modify_xs (SET_doing_page_fault true)) ;;
  modc default_mode ;;
  modc (SET_took_absolute_toc true) ;;
  throw (Intrupt PF_INT_NR false true page_error).

End Routines.

(** ** Escalation of faults

    The faults that can come up while an interrupt is being delivered, and the
    table by which a fault in a given status is delivered, becomes a double
    fault, or shuts the processor down. *)

Inductive fault :=
| FGP (sel : Z) | FNP (sel : Z) | FSF (sel : Z) | FTS (sel : Z)
| FGP_INT (vector : Z) | FNP_INT (vector : Z) | FPF (page_error : Z).

Definition raise_fault {S} `{HasCpu S} (k : fault) : M exn S unit :=
  match k with
  | FGP sel => GP sel | FNP sel => NP sel | FSF sel => SF_fault sel | FTS sel => TS sel
  | FGP_INT v => GP_INT v | FNP_INT v => NP_INT v | FPF e => PF_fault e
  end.

Inductive verdict := Shutdown | DoubleFault | Deliver.

Definition is_page (k : fault) : bool := match k with FPF _ => true | _ => false end.

Definition escalation (k : fault) (x : XSTATUS) : verdict :=
  if doing_double_fault x then Shutdown
  else if doing_page_fault x || (doing_contributory x && negb (is_page k)) then DoubleFault
  else Deliver.

Definition fault_vector (k : fault) : Z :=
  match k with
  | FGP _ => 13 | FNP _ => 11 | FSF _ => 12 | FTS _ => 10
  | FGP_INT _ => 13 | FNP_INT _ => 11 | FPF _ => 14
  end.

(** The pushed error code: selector and EXT bit, or IDT index with the IDT bit
    and the EXT bit, or the page fault code. *)
Definition fault_code (k : fault) (ext : Z) : Z :=
  match k with
  | FGP sel | FNP sel | FSF sel | FTS sel => (sel .& 0xfffc) .| ext
  | FGP_INT v | FNP_INT v => u16 (((v .& 0xff) .<< 3) .| 2 .| ext)
  | FPF e => e
  end.

(** The registers a handler finds: at the faulting instruction, in the default
    mode, with status [x]. *)
Definition at_fault (x : XSTATUS) (c : cpu) : cpu :=
  SET_took_absolute_toc true (SET_xs x (default_mode c)).

Definition cleared (x : XSTATUS) : XSTATUS :=
  SET_EXT INTERNAL (SET_doing_double_fault false (SET_doing_page_fault false
    (SET_doing_contributory false x))).

Section Escalation.
Context {S : Type} `{HasCpu S}.

Ltac exc_run :=
  unfold when, bind, getc, gets, modc, modify, ret, throw; rewrite ?the_put, ?put_put; cbn.

Lemma shutdown_run (s : S) :
  doing_double_fault (xs (the_cpu s)) = true ->
  check_for_shutdown s
  = Raise CpuContinue (put_cpu (c_cpu_reset (modify_xs cleared (the_cpu s))) s).
Proof. intros E. unfold check_for_shutdown. exc_run. rewrite E. exc_run. reflexivity. Qed.

Lemma no_shutdown_run (s : S) :
  doing_double_fault (xs (the_cpu s)) = false -> check_for_shutdown s = Ret tt s.
Proof. intros E. unfold check_for_shutdown. exc_run. rewrite E. reflexivity. Qed.

Lemma interface_run nmbr (s : S) :
  interface_active (xs (the_cpu s)) = false -> check_interface_active nmbr s = Ret tt s.
Proof. intros E. unfold check_interface_active. exc_run. rewrite E. reflexivity. Qed.

(** The status a double fault leaves: the double fault is only recorded in
    protected mode. *)
Definition df_status (pe : bool) (x : XSTATUS) : XSTATUS :=
  SET_EXT INTERNAL ((if pe then SET_doing_double_fault true else fun x => x) (SET_doing_fault false x)).

Lemma DF_run (s : S) :
  doing_double_fault (xs (the_cpu s)) = false ->
  let c := the_cpu s in
  DF_fault s = Raise (Intrupt DF_INT_NR false true 0)
                 (put_cpu (at_fault (df_status (GET_PE c =? 1) (xs c)) c) s).
Proof.
  intros E c. unfold DF_fault, when, getc, gets, bind at 1 2, modc, modify. rewrite the_put.
  change (GET_PE (modify_xs (SET_doing_fault false) (the_cpu s))) with (GET_PE c).
  unfold df_status. destruct (GET_PE c =? 1).
  - unfold bind at 1 2. rewrite no_shutdown_run by (rewrite the_put; exact E).
    unfold bind, throw. rewrite !the_put, !put_put. reflexivity.
  - unfold bind, throw, ret. rewrite !the_put, !put_put. reflexivity.
Qed.

(** The effect of a fault routine, given by the verdict on the status. *)
Definition fault_outcome (k : fault) (s : S) : outcome exn S unit :=
  let c := the_cpu s in
  let c1 := modify_xs (SET_doing_fault true) c in
  match escalation k (xs c) with
  | Shutdown => Raise CpuContinue (put_cpu (c_cpu_reset (modify_xs cleared c1)) s)
  | DoubleFault =>
      Raise (Intrupt DF_INT_NR false true 0)
        (put_cpu (at_fault (df_status (GET_PE c =? 1) (xs c1)) c) s)
  | Deliver =>
      Raise (Intrupt (fault_vector k) false true (fault_code k (EXT (xs c))))
        (put_cpu (at_fault (if is_page k then SET_doing_page_fault true (xs c1)
                            else SET_EXT INTERNAL (SET_doing_contributory true (xs c1))) c) s)
  end.

Lemma modc_bind {A} f (k : unit -> M exn S A) (s : S) :
  bind (modc f) k s = k tt (put_cpu (f (the_cpu s)) s).
Proof. reflexivity. Qed.

Lemma getc_bind {A B} (f : cpu -> A) (k : A -> M exn S B) (s : S) :
  bind (getc f) k s = k (f (the_cpu s)) s.
Proof. reflexivity. Qed.

(** The contributory exceptions differ in the vector and the error code. *)
Lemma contributory_run nmbr (g : Z -> Z) k (s : S) :
  is_page k = false -> fault_vector k = nmbr -> fault_code k = g ->
  interface_active (xs (the_cpu s)) = false ->
  (set_fault true ;;
   check_interface_active nmbr ;; check_for_shutdown ;; check_for_double_fault ;;
   modc (modify_xs (SET_doing_contributory true)) ;;
   ext <- getc (fun c => EXT (xs c)) ;;
   modc default_mode ;; modc (modify_xs (SET_EXT INTERNAL)) ;;
   modc (SET_took_absolute_toc true) ;;
   throw (Intrupt nmbr false true (g ext))) s = fault_outcome k s.
Proof.
  intros Hk <- <- Hi. unfold set_fault, fault_outcome, escalation. rewrite Hk, andb_true_r.
  rewrite modc_bind. set (s1 := put_cpu _ s).
  assert (Hs1 : the_cpu s1 = modify_xs (SET_doing_fault true) (the_cpu s)) by apply the_put.
  rewrite (bind_ret _ _ s1 tt s1) by (apply interface_run; rewrite Hs1; exact Hi).
  destruct (doing_double_fault (xs (the_cpu s))) eqn:Ed.
  { rewrite (bind_raise _ _ s1 _ _ (shutdown_run s1 ltac:(rewrite Hs1; exact Ed))).
    rewrite Hs1. unfold s1. rewrite put_put. reflexivity. }
  assert (Ed1 : doing_double_fault (xs (the_cpu s1)) = false) by (rewrite Hs1; exact Ed).
  rewrite (bind_ret _ _ s1 tt s1 (no_shutdown_run s1 Ed1)).
  unfold check_for_double_fault at 1. unfold bind at 1. rewrite getc_bind.
  rewrite (orb_comm (doing_page_fault (xs (the_cpu s)))).
  replace (doing_contributory (xs (the_cpu s1))) with (doing_contributory (xs (the_cpu s)))
    by (rewrite Hs1; reflexivity).
  replace (doing_page_fault (xs (the_cpu s1))) with (doing_page_fault (xs (the_cpu s)))
    by (rewrite Hs1; reflexivity).
  destruct (_ || _); unfold when.
  - rewrite DF_run by exact Ed1. rewrite Hs1. unfold s1. rewrite put_put. reflexivity.
  - unfold ret, bind, modc, modify, getc, gets, throw, s1.
    rewrite !the_put, !put_put. reflexivity.
Qed.

Lemma page_run e (s : S) :
  interface_active (xs (the_cpu s)) = false -> PF_fault e s = fault_outcome (FPF e) s.
Proof.
  intros Hi. unfold PF_fault, set_fault, fault_outcome, escalation. cbn [is_page negb].
  rewrite andb_false_r, orb_false_r.
  rewrite (bind_ret _ _ s tt s) by (apply interface_run; exact Hi).
  rewrite modc_bind. set (s1 := put_cpu _ s).
  assert (Hs1 : the_cpu s1 = modify_xs (SET_doing_fault true) (the_cpu s)) by apply the_put.
  destruct (doing_double_fault (xs (the_cpu s))) eqn:Ed.
  { rewrite (bind_raise _ _ s1 _ _ (shutdown_run s1 ltac:(rewrite Hs1; exact Ed))).
    rewrite Hs1. unfold s1. rewrite put_put. reflexivity. }
  assert (Ed1 : doing_double_fault (xs (the_cpu s1)) = false) by (rewrite Hs1; exact Ed).
  rewrite (bind_ret _ _ s1 tt s1 (no_shutdown_run s1 Ed1)), getc_bind.
  replace (doing_page_fault (xs (the_cpu s1))) with (doing_page_fault (xs (the_cpu s)))
    by (rewrite Hs1; reflexivity).
  destruct (doing_page_fault (xs (the_cpu s))); unfold when.
  - rewrite (bind_raise _ _ s1 _ _ (DF_run s1 Ed1)), Hs1. unfold s1. rewrite put_put. reflexivity.
  - unfold ret, bind, modc, modify, throw, s1. rewrite !the_put, !put_put. reflexivity.
Qed.

Lemma raise_fault_run k (s : S) :
  interface_active (xs (the_cpu s)) = false -> raise_fault k s = fault_outcome k s.
Proof.
  intros Hi. destruct k; cbn [raise_fault]; try (apply contributory_run; auto; fail).
  apply page_run. exact Hi.
Qed.

(** ** Nested delivery

    One failed delivery: a fault comes up, its interrupt is to be delivered, and
    on the way to the next fault the delivery may change anything but the fault
    status, the mode and the interface state. *)
Definition kept (s t : S) : Prop :=
  let x := xs (the_cpu s) in let y := xs (the_cpu t) in
  doing_contributory y = doing_contributory x /\ doing_page_fault y = doing_page_fault x
  /\ doing_double_fault y = doing_double_fault x /\ interface_active y = interface_active x
  /\ GET_PE (the_cpu t) = GET_PE (the_cpu s).

Definition failed_delivery (s t : S) : Prop :=
  exists k v p h code s', raise_fault k s = Raise (Intrupt v p h code) s' /\ kept s' t.

(** How many deliveries can still fail. *)
Definition slack (x : XSTATUS) : nat :=
  if doing_double_fault x then 0 else if doing_page_fault x then 1
  else if doing_contributory x then 2 else 3.

Definition protected_run (s : S) : Prop :=
  GET_PE (the_cpu s) = 1 /\ interface_active (xs (the_cpu s)) = false.

Lemma at_fault_xs x c : xs (at_fault x c) = x.
Proof. reflexivity. Qed.

Lemma at_fault_PE x c : GET_PE (at_fault x c) = GET_PE c.
Proof. reflexivity. Qed.

Lemma failed_slack (s t : S) :
  protected_run s -> failed_delivery s t ->
  protected_run t /\ (slack (xs (the_cpu t)) < slack (xs (the_cpu s)))%nat.
Proof.
  intros [Hpe Hi] (k & v & p & h & code & s' & Hr & Kc & Kp & Kd & Ki & Kpe).
  rewrite raise_fault_run in Hr by exact Hi. unfold fault_outcome, escalation in Hr.
  rewrite Hpe in Hr. unfold protected_run, slack. rewrite Kc, Kp, Kd, Ki, Kpe.
  destruct (xs (the_cpu s)) as [dc dp dd df ext ip0 ia ie] eqn:Ex.
  cbn [doing_double_fault doing_page_fault doing_contributory interface_active] in *. subst ia.
  destruct dd; [discriminate|].
  destruct dp, dc, (is_page k); cbn [orb andb negb] in Hr; injection Hr as <- <- <- <- <-;
    rewrite the_put, at_fault_xs, at_fault_PE, ?Hpe; cbn; rewrite ?Ex; cbn; auto with lia.
Qed.

Lemma nested_bound n : forall s t : S,
  protected_run s -> nsteps failed_delivery n s t ->
  protected_run t /\ (n + slack (xs (the_cpu t)) <= slack (xs (the_cpu s)))%nat.
Proof.
  induction n as [|n IH]; intros s t Hs Hn; inversion Hn as [|? ? u ? Hu Ht]; subst; [auto|].
  destruct (failed_slack s u Hs Hu) as [Hp Hlt].
  destruct (IH u t Hp Ht) as [Hp' Hle]. split; [assumption | lia].
Qed.

(** In real mode a double fault is not recorded, so a fault can be raised again
    and again. *)
Lemma real_mode_step (s : S) :
  GET_PE (the_cpu s) = 0 -> interface_active (xs (the_cpu s)) = false ->
  doing_double_fault (xs (the_cpu s)) = false ->
  exists t, failed_delivery s t /\ GET_PE (the_cpu t) = 0
    /\ interface_active (xs (the_cpu t)) = false /\ doing_double_fault (xs (the_cpu t)) = false.
Proof.
  intros Hpe Hi Hd.
  assert (Hx : exists v code u, raise_fault (FSF 0) s = Raise (Intrupt v false true code) u
    /\ GET_PE (the_cpu u) = 0 /\ interface_active (xs (the_cpu u)) = false
    /\ doing_double_fault (xs (the_cpu u)) = false).
  { rewrite raise_fault_run by exact Hi. unfold fault_outcome, escalation. rewrite Hd, Hpe.
    destruct (_ || _); do 3 eexists; (split; [reflexivity|]);
      rewrite the_put, at_fault_PE, at_fault_xs; repeat split; assumption. }
  destruct Hx as (v & code & u & Hr & Hu). exists u. split; [|exact Hu].
  exists (FSF 0), v, false, true, code, u. split; [exact Hr | repeat split].
Qed.
End Escalation.

(** ** Theorems *)

(** C15 - Every fault routine follows the escalation table: while a double fault
    is being delivered a further fault resets the CPU and clears the fault
    status; a contributory fault during a contributory or page fault, or any
    fault during a page fault, becomes double fault 8 with error code 0; otherwise
    the fault is delivered at the start of the faulting instruction with its
    vector, its error code and its class recorded. *)
Theorem fault_escalation {S} `{HasCpu S} k (s : S) :
  interface_active (xs (the_cpu s)) = false ->
  raise_fault k s =
  let c := the_cpu s in
  let c1 := modify_xs (SET_doing_fault true) c in
  match escalation k (xs c) with
  | Shutdown => Raise CpuContinue (put_cpu (c_cpu_reset (modify_xs cleared c1)) s)
  | DoubleFault =>
      Raise (Intrupt DF_INT_NR false true 0)
        (put_cpu (at_fault (df_status (GET_PE c =? 1) (xs c1)) c) s)
  | Deliver =>
      Raise (Intrupt (fault_vector k) false true (fault_code k (EXT (xs c))))
        (put_cpu (at_fault (if is_page k then SET_doing_page_fault true (xs c1)
                            else SET_EXT INTERNAL (SET_doing_contributory true (xs c1))) c) s)
  end.
Proof. apply raise_fault_run. Qed.

Lemma fault_escalation_witness :
  raise_fault (FGP 0x2b) cpu0
  = Raise (Intrupt 13 false true 0x28)
      (at_fault (SET_doing_contributory true (SET_doing_fault true (xs cpu0))) cpu0).
Proof. refine (fault_escalation (FGP 0x2b) cpu0 _). reflexivity. Defined.

(** In protected mode at most three deliveries can fail in a row: from a
    clean status, the fault that comes up in the third failed delivery finds a
    double fault in progress, and whatever it is, it resets the CPU. *)
Theorem nested_faults_bounded {S} `{HasCpu S} n (s t : S) :
  protected_run s -> slack (xs (the_cpu s)) = 3%nat -> nsteps failed_delivery n s t ->
  (n <= 3)%nat /\
  (n = 3%nat -> forall k, exists u, raise_fault k t = Raise CpuContinue u
     /\ GET_PE (the_cpu u) = 0 /\ ip (the_cpu u) = 0xfff0
     /\ slack (xs (the_cpu u)) = 3%nat).
Proof.
  intros Hs Hsl Hn. destruct (nested_bound n s t Hs Hn) as [[Hpe Hi] Hle].
  split; [lia|]. intros -> k.
  assert (Hd : doing_double_fault (xs (the_cpu t)) = true).
  { unfold slack in Hle. destruct (doing_double_fault _); [reflexivity|].
    destruct (doing_page_fault (xs (the_cpu t))), (doing_contributory (xs (the_cpu t)));
      unfold slack in Hsl; lia. }
  rewrite raise_fault_run by exact Hi. unfold fault_outcome, escalation. rewrite Hd.
  eexists. split; [reflexivity|]. rewrite the_put. repeat split.
Qed.

Lemma nested_faults_bounded_witness :
  exists t : cpu, nsteps failed_delivery 1 cpu0 t /\ (1 <= 3)%nat.
Proof.
  destruct (raise_fault (FGP 0) cpu0) as [|e t|] eqn:E; [discriminate | | discriminate].
  vm_compute in E. injection E as He Ht.
  assert (Hn : nsteps failed_delivery 1 cpu0 t).
  { apply nsteps_once. exists (FGP 0), 13, false, true, 0, t.
    split; [subst t; reflexivity | repeat split]. }
  exists t. split; [exact Hn|].
  refine (proj1 (nested_faults_bounded 1 cpu0 t _ _ Hn)); [split|]; reflexivity.
Defined.

(** In real mode there is no such bound: a double fault is not recorded
    there, so from any state with no double fault in progress deliveries can fail
    any number of times without ever shutting the processor down. *)
Theorem real_mode_never_shuts_down {S} `{HasCpu S} n (s : S) :
  GET_PE (the_cpu s) = 0 -> interface_active (xs (the_cpu s)) = false ->
  doing_double_fault (xs (the_cpu s)) = false ->
  exists t, nsteps failed_delivery n s t.
Proof.
  revert s. induction n as [|n IH]; intros s Hpe Hi Hd; [exists s; constructor|].
  destruct (real_mode_step s Hpe Hi Hd) as (u & Hu & Hpe' & Hi' & Hd').
  destruct (IH u Hpe' Hi' Hd') as [t Ht]. exists t. econstructor; eassumption.
Qed.

Lemma real_mode_never_shuts_down_witness :
  exists t : cpu, nsteps failed_delivery 7 (c_cpu_reset cpu0) t.
Proof. apply (real_mode_never_shuts_down 7 (c_cpu_reset cpu0)); reflexivity. Defined.

(** Reset determines the processor state: after [c_cpu_reset] every
    general, segment, table, flag and mode register is the same whatever was in it
    before (CS:EIP is F000:FFF0 with base F0000, real mode, interrupts off); what
    survives is CR1-CR3, the LDT type, the size and displacement state and the
    fault status. *)
Theorem reset_determines c c' :
  operand_size c = operand_size c' -> address_size c = address_size c' ->
  pop_disp c = pop_disp c' -> xs c = xs c' -> sar_super (ldtr c) = sar_super (ldtr c') ->
  SET_CR_STAT 0 (cr c) = SET_CR_STAT 0 (cr c') ->
  took_relative_jump c = took_relative_jump c' -> took_absolute_toc c = took_absolute_toc c' ->
  c_cpu_reset c = c_cpu_reset c'
  /\ ip (c_cpu_reset c) = 0xfff0 /\ base (GET_SR CS_REG (c_cpu_reset c)) = 0xf0000
  /\ GET_PE (c_cpu_reset c) = 0 /\ GET_PG (c_cpu_reset c) = 0 /\ IF (fl (c_cpu_reset c)) = 0.
Proof.
  intros. split; [|repeat split]. destruct c, c'. cbn in *. subst.
  repeat match goal with
         | H : SET_CR_STAT _ ?r = SET_CR_STAT _ ?r' |- _ => destruct r, r'; injection H as -> -> ->
         | r : SYSTEM_ADDRESS_REGISTER |- _ => destruct r
         end. cbn in *. subst. reflexivity.
Qed.

Lemma reset_determines_witness :
  c_cpu_reset cpu0 = c_cpu_reset (SET_ip 0x1234 cpu0).
Proof. apply (reset_determines cpu0 (SET_ip 0x1234 cpu0)); reflexivity. Defined.

End Xcptn.
