(* ===== verification/MulDiv.v ===== *)
(** * Multiplication and division

    The 64-bit helpers [c_neg64.c], [c_mul64.c] and [c_div64.c], and the
    instructions of [mul.c], [imul.c], [div.c] and [idiv.c].

    A 64-bit value is a pair of 32-bit words (high, low).  An IS32 is kept as its
    32-bit pattern: the source casts freely between IS32 and IU32 pointers.  C's
    signed division of the least integer by -1 is undefined (it traps on the
    hosts); everywhere else signed arithmetic is taken to wrap around. *)

From S2P Require Import Prelude Cpu Arith Shift Xcptn.

Module MulDiv.
Import Arith Shift Xcptn.

Definition BIT31_MASK : Z := BIT_MASK 31.
Definition BIT15_MASK : Z := BIT_MASK 15.
Definition BIT7_MASK : Z := BIT_MASK 7.

(** C's test of a masked value. *)
Definition tst (x m : Z) : bool := negb (x .& m =? 0).

(** ** 64-bit helpers *)

Definition neg64 (hr lr : Z) : Z * Z :=
  let hr := not32 hr in
  let lr := not32 lr in
  if lr =? 0xffffffff then (u32 (hr + 1), 0) else (hr, u32 (lr + 1)).

Definition mulu64 (mcand mpy : Z) : Z * Z :=
  let la := mcand .& WORD_MASK in
  let ha := (mcand .>> 16) .& WORD_MASK in
  let lb := mpy .& WORD_MASK in
  let hb := (mpy .>> 16) .& WORD_MASK in
  let res1 := u32 (la * lb) in
  let res2 := u32 (ha * lb) in
  let res3 := u32 (la * hb) in
  let res4 := u32 (ha * hb) in
  let hr := res2 .>> 16 in
  let lr := u32 (res1 + (res2 .<< 16)) in
  let hr :=
    if (tst res1 BIT31_MASK && tst res2 BIT15_MASK)
       || (negb (tst lr BIT31_MASK)
           && negb ((res1 .& BIT31_MASK) .| (res2 .& BIT15_MASK) =? 0))
    then u32 (hr + 1) else hr in
  let hr := u32 (hr + (res3 .>> 16)) in
  let temp := u32 (lr + (res3 .<< 16)) in
  let hr :=
    if (tst lr BIT31_MASK && tst res3 BIT15_MASK)
       || (negb (tst temp BIT31_MASK)
           && negb ((lr .& BIT31_MASK) .| (res3 .& BIT15_MASK) =? 0))
    then u32 (hr + 1) else hr in
  let lr := temp in
  let hr := u32 (hr + res4) in
  (hr, lr).

Definition neg32 (x : Z) : Z := u32 (- x).

Definition mul64 (mcand mpy : Z) : Z * Z :=
  if tst mcand BIT31_MASK then
    if tst mpy BIT31_MASK then mulu64 (neg32 mcand) (neg32 mpy)
    else let '(hr, lr) := mulu64 (neg32 mcand) mpy in neg64 hr lr
  else
    if tst mpy BIT31_MASK then let '(hr, lr) := mulu64 mcand (neg32 mpy) in neg64 hr lr
    else mulu64 mcand mpy.

(** One round of the shift-and-subtract loop on [hd], [ld] and [par_div]. *)
Definition divu64_step (divisor : Z) (s : Z * Z * Z) : Z * Z * Z :=
  let '(hd, ld, par_div) := s in
  let carry1 := nz (ld .& BIT31_MASK) in
  let carry2 := nz (hd .& BIT31_MASK) in
  let carry3 := nz (par_div .& BIT31_MASK) in
  let ld := ld .<< 1 in
  let hd := (hd .<< 1) .| carry1 in
  let par_div := (par_div .<< 1) .| carry2 in
  if negb (carry3 =? 0) || (divisor <=? par_div)
  then (hd, ld .| 1, u32 (par_div - divisor))
  else (hd, ld, par_div).

(** Quotient high, quotient low, remainder. *)
Definition divu64 (hr lr divisor : Z) : Z * Z * Z :=
  Nat.iter 64 (divu64_step divisor) (hr, lr, 0).

Definition div64 (hr lr divisor : Z) : Z * Z * Z :=
  if tst hr BIT31_MASK then
    if tst divisor BIT31_MASK then
      let '(hr, lr) := neg64 hr lr in
      let '(hr, lr, rem) := divu64 hr lr (neg32 divisor) in
      (hr, lr, neg32 rem)
    else
      let '(hr, lr) := neg64 hr lr in
      let '(hr, lr, rem) := divu64 hr lr divisor in
      let '(hr, lr) := neg64 hr lr in
      (hr, lr, neg32 rem)
  else
    if tst divisor BIT31_MASK then
      let '(hr, lr, rem) := divu64 hr lr (neg32 divisor) in
      let '(hr, lr) := neg64 hr lr in
      (hr, lr, rem)
    else divu64 hr lr divisor.

(** ** Multiply instructions

    They take the left operand and return the value stored back through [pop1];
    the callers keep its low half. *)

Definition set_CF_OF (b : Z) (c : cpu) : cpu := modify_fl (fun f => SET_OF b (SET_CF b f)) c.

Definition MUL8 (op1 op2 : Z) (c : cpu) : Z * cpu :=
  let result := u32 (op1 * op2) in
  let top := (result .>> 8) .& 0xff in
  let c := SET_BR A_AH top c in
  let c := if negb (top =? 0) then set_CF_OF 1 c else set_CF_OF 0 c in
  (result, c).

Definition MUL16 (op1 op2 : Z) (c : cpu) : Z * cpu :=
  let result := u32 (op1 * op2) in
  let top := (result .>> 16) .& WORD_MASK in
  let c := SET_WR A_DX top c in
  let c := if negb (top =? 0) then set_CF_OF 1 c else set_CF_OF 0 c in
  (result, c).

Definition MUL32 (op1 op2 : Z) (c : cpu) : Z * cpu :=
  let '(top, result) := mulu64 op1 op2 in
  let c := SET_GR A_EDX top c in
  let c := if negb (top =? 0) then set_CF_OF 1 c else set_CF_OF 0 c in
  (result, c).

Definition IMUL8 (op1 op2 : Z) (c : cpu) : Z * cpu :=
  let op1 := if tst op1 BIT7_MASK then op1 .| not32 BYTE_MASK else op1 in
  let op2 := if tst op2 BIT7_MASK then op2 .| not32 BYTE_MASK else op2 in
  let result := u32 (op1 * op2) in
  let c := SET_BR A_AH ((result .>> 8) .& BYTE_MASK) c in
  let c := if (result .& 0xff80 =? 0) || (result .& 0xff80 =? 0xff80)
           then set_CF_OF 0 c else set_CF_OF 1 c in
  (result, c).

Definition IMUL16 (op1 op2 : Z) (c : cpu) : Z * cpu :=
  let op1 := if tst op1 BIT15_MASK then op1 .| not32 WORD_MASK else op1 in
  let op2 := if tst op2 BIT15_MASK then op2 .| not32 WORD_MASK else op2 in
  let result := u32 (op1 * op2) in
  let c := SET_WR A_DX ((result .>> 16) .& WORD_MASK) c in
  let c := if (result .& 0xffff8000 =? 0) || (result .& 0xffff8000 =? 0xffff8000)
           then set_CF_OF 0 c else set_CF_OF 1 c in
  (result, c).

Definition IMUL16T (op2 op3 : Z) (c : cpu) : Z * cpu :=
  let op2 := if tst op2 BIT15_MASK then op2 .| not32 WORD_MASK else op2 in
  let op3 := if tst op3 BIT15_MASK then op3 .| not32 WORD_MASK else op3 in
  let result := u32 (op2 * op3) in
  let c := if (result .& 0xffff8000 =? 0) || (result .& 0xffff8000 =? 0xffff8000)
           then set_CF_OF 0 c else set_CF_OF 1 c in
  (result, c).

Definition IMUL32 (op1 op2 : Z) (c : cpu) : Z * cpu :=
  let '(top, result) := mul64 op1 op2 in
  let c := SET_GR A_EDX top c in
  let is_signed := tst result BIT31_MASK in
  let c := if ((top =? 0) && negb is_signed) || ((top =? 0xffffffff) && is_signed)
           then set_CF_OF 0 c else set_CF_OF 1 c in
  (result, c).

Definition IMUL32T (op2 op3 : Z) (c : cpu) : Z * cpu :=
  let '(top, result) := mul64 op2 op3 in
  let is_signed := tst result BIT31_MASK in
  let c := if ((top =? 0) && negb is_signed) || ((top =? 0xffffffff) && is_signed)
           then set_CF_OF 0 c else set_CF_OF 1 c in
  (result, c).

(** ** Divide instructions *)

Definition div_flags (f : FLAGS) : FLAGS :=
  SET_AF UNDEFINED_FLAG (SET_PF UNDEFINED_FLAG (SET_OF UNDEFINED_FLAG
    (SET_SF UNDEFINED_FLAG (SET_ZF 0 (SET_CF 1 f))))).

Definition idiv_flags (f : FLAGS) : FLAGS :=
  SET_AF UNDEFINED_FLAG (SET_PF UNDEFINED_FLAG (SET_ZF UNDEFINED_FLAG
    (SET_SF UNDEFINED_FLAG (SET_OF UNDEFINED_FLAG (SET_CF UNDEFINED_FLAG f))))).

Section Divide.
Context {S : Type} `{HasCpu S}.
Abbreviation X := (M exn S).

(** C's [/] and [%] on two IS32. *)
Definition sdiv (a b : Z) : X (Z * Z) :=
  let a := s32 a in
  let b := s32 b in
  if (b =? 0) || ((a =? - 2 ^ 31) && (b =? -1)) then undefined
  else ret (u32 (Z.quot a b), u32 (Z.rem a b)).

Definition DIV8 (op2 : Z) : X unit :=
  when (op2 =? 0) Int0 ;;
  op1 <- getc (GET_WR A_AX) ;;
  let result := op1 / op2 in
  when (negb (result .& 0xff00 =? 0)) Int0 ;;
  modc (SET_BR A_AL result) ;;
  modc (SET_BR A_AH (op1 mod op2)) ;;
  modc (modify_fl div_flags).

Definition DIV16 (op2 : Z) : X unit :=
  when (op2 =? 0) Int0 ;;
  dx <- getc (GET_WR A_DX) ;;
  ax <- getc (GET_WR A_AX) ;;
  let op1 := (dx .<< 16) .| ax in
  let result := op1 / op2 in
  when (negb (result .& 0xffff0000 =? 0)) Int0 ;;
  modc (SET_WR A_AX result) ;;
  modc (SET_WR A_DX (op1 mod op2)) ;;
  modc (modify_fl div_flags).

Definition DIV32 (op2 : Z) : X unit :=
  when (op2 =? 0) Int0 ;;
  hr <- getc (GET_GR A_EDX) ;;
  lr <- getc (GET_GR A_EAX) ;;
  let '(hr, lr, rem) := divu64 hr lr op2 in
  when (negb (hr =? 0)) Int0 ;;
  modc (SET_GR A_EAX lr) ;;
  modc (SET_GR A_EDX rem) ;;
  modc (modify_fl div_flags).

Definition IDIV8 (op2 : Z) : X unit :=
  when (op2 =? 0) Int0 ;;
  let sop2 := op2 in
  sop1 <- getc (GET_WR A_AX) ;;
  let sop1 := if tst sop1 BIT15_MASK then sop1 .| not32 WORD_MASK else sop1 in
  let sop2 := if tst sop2 BIT7_MASK then sop2 .| not32 BYTE_MASK else sop2 in
  let! (sresult, srem) := sdiv sop1 sop2 ;;
  when (negb ((sresult .& 0xff80 =? 0) || (sresult .& 0xff80 =? 0xff80))) Int0 ;;
  modc (SET_BR A_AL sresult) ;;
  modc (SET_BR A_AH srem) ;;
  modc (modify_fl idiv_flags).

Definition IDIV16 (op2 : Z) : X unit :=
  when (op2 =? 0) Int0 ;;
  let sop2 := op2 in
  dx <- getc (GET_WR A_DX) ;;
  ax <- getc (GET_WR A_AX) ;;
  let sop1 := (dx .<< 16) .| ax in
  let sop2 := if tst sop2 BIT15_MASK then sop2 .| not32 WORD_MASK else sop2 in
  let! (sresult, srem) := sdiv sop1 sop2 ;;
  when (negb ((sresult .& 0xffff8000 =? 0) || (sresult .& 0xffff8000 =? 0xffff8000))) Int0 ;;
  modc (SET_WR A_AX sresult) ;;
  modc (SET_WR A_DX srem) ;;
  modc (modify_fl idiv_flags).

Definition IDIV32 (op2 : Z) : X unit :=
  when (op2 =? 0) Int0 ;;
  shr <- getc (GET_GR A_EDX) ;;
  slr <- getc (GET_GR A_EAX) ;;
  let '(shr, slr, srem) := div64 shr slr op2 in
  when (negb (((shr =? 0) && (slr .& BIT31_MASK =? 0))
              || ((shr =? 0xffffffff) && negb (slr .& BIT31_MASK =? 0)))) Int0 ;;
  modc (SET_GR A_EAX slr) ;;
  modc (SET_GR A_EDX srem) ;;
  modc (modify_fl idiv_flags).

End Divide.

(** ** The 64-bit helpers are exact *)

Definition join (hr lr : Z) : Z := hr * 2 ^ 32 + lr.

Definition word (x : Z) : Prop := 0 <= x < 2 ^ 32.

Lemma tst_bit x n : 0 <= n -> tst x (BIT_MASK n) = Z.testbit x n.
Proof.
  intros Hn. unfold tst, BIT_MASK. rewrite land_eqb_nz, nz_land_pow2, b2z_neq0 by exact Hn.
  reflexivity.
Qed.

Lemma not32_word x : word x -> not32 x = 2 ^ 32 - 1 - x.
Proof.
  intros Hx. rewrite <- (not32_mod x 32) by (assumption || lia).
  symmetry. apply Z.mod_small, u32_range.
Qed.

Lemma neg64_spec hr lr :
  word hr -> word lr ->
  let '(h, l) := neg64 hr lr in word h /\ word l /\ join h l = (- join hr lr) mod 2 ^ 64.
Proof.
  intros Hh Hl. unfold neg64, join. rewrite !not32_word by assumption. unfold word in *.
  destruct (Z.eqb_spec (2 ^ 32 - 1 - lr) 0xffffffff) as [E | E].
  - assert (lr = 0) as -> by lia. destruct (Z.eq_dec hr 0) as [-> | Hz]; [repeat split; vm_compute; easy|].
    rewrite u32_small by lia. repeat split; [lia.. |].
    apply Z.mod_unique with (-1); lia.
  - rewrite u32_small by lia. repeat split; [lia.. |].
    apply Z.mod_unique with (-1); lia.
Qed.

(** The carry out of a 32-bit addition, from the sign bits. *)
Lemma carry_bits x y :
  word x -> word y ->
  (Z.testbit x 31 && Z.testbit y 31)
  || (negb (Z.testbit (u32 (x + y)) 31) && (Z.testbit x 31 || Z.testbit y 31))
  = (2 ^ 32 <=? x + y).
Proof.
  unfold word. intros Hx Hy.
  assert (Hm : forall z, 0 <= z < 2 ^ 32 -> Z.testbit z 31 = (2 ^ 31 <=? z))
    by (intros z Hz; apply (msb_ge_half z 32); lia).
  pose proof (u32_range (x + y)). rewrite !Hm by assumption. unfold u32.
  destruct (sum_mod x y 0 (2 ^ 32)) as [E _]; [lia.. |].
  rewrite Z.add_0_r in E. rewrite E.
  destruct (Z.leb_spec (2 ^ 32) (x + y)); split_leb; try reflexivity; lia.
Qed.

Lemma lor_masks_zero x m y n :
  0 <= m -> 0 <= n ->
  negb ((x .& BIT_MASK m) .| (y .& BIT_MASK n) =? 0) = Z.testbit x m || Z.testbit y n.
Proof.
  intros Hm Hn. rewrite <- (tst_bit x m), <- (tst_bit y n) by assumption. unfold tst.
  destruct (Z.eqb_spec ((x .& BIT_MASK m) .| (y .& BIT_MASK n)) 0) as [E | E].
  - apply Z.lor_eq_0_iff in E as [-> ->]. reflexivity.
  - destruct (Z.eqb_spec (x .& BIT_MASK m) 0) as [E1 | ]; [|reflexivity].
    destruct (Z.eqb_spec (y .& BIT_MASK n) 0) as [E2 | ]; [|reflexivity].
    rewrite E1, E2 in E. destruct E. reflexivity.
Qed.

Lemma land_word_mask x : x .& WORD_MASK = x mod 2 ^ 16.
Proof. change WORD_MASK with (2 ^ 16 - 1). apply land_mask. lia. Qed.

Lemma high_word x : word x -> (x .>> 16) .& WORD_MASK = x / 2 ^ 16.
Proof.
  unfold word. intros Hx. rewrite land_word_mask, Z.shiftr_div_pow2 by lia.
  apply Z.mod_small. split; [apply Z.div_pos | apply Z.div_lt_upper_bound]; lia.
Qed.

Lemma shl16_bit31 x : Z.testbit (x .<< 16) 31 = Z.testbit x 15.
Proof. rewrite u32_bit, Z.shiftl_spec by lia. reflexivity. Qed.

Lemma prod_bound a b : 0 <= a < 2 ^ 16 -> 0 <= b < 2 ^ 16 -> 0 <= a * b <= (2 ^ 16 - 1) * (2 ^ 16 - 1).
Proof. intros. nia. Qed.

(** The two carry tests of [mulu64]. *)
Lemma mulu_carry x y :
  word x -> 0 <= y ->
  (tst x BIT31_MASK && tst y BIT15_MASK)
  || (negb (tst (u32 (x + (y .<< 16))) BIT31_MASK)
      && negb ((x .& BIT31_MASK) .| (y .& BIT15_MASK) =? 0))
  = (2 ^ 32 <=? x + (y .<< 16)).
Proof.
  intros Hx Hy. unfold BIT31_MASK, BIT15_MASK. rewrite lor_masks_zero, !tst_bit by lia.
  rewrite <- (shl16_bit31 y). apply carry_bits; [exact Hx | apply u32_range].
Qed.

Lemma mulu64_spec a b :
  word a -> word b ->
  let '(h, l) := mulu64 a b in word h /\ word l /\ join h l = a * b.
Proof.
  intros Ha Hb. unfold mulu64. rewrite !land_word_mask, !Z.shiftr_div_pow2 by lia.
  rewrite !(Z.mod_small (_ / 2 ^ 16)) by
    (unfold word in *; split; [apply Z.div_pos | apply Z.div_lt_upper_bound]; lia).
  pose proof (Z.mod_pos_bound a (2 ^ 16) ltac:(lia)). pose proof (Z.mod_pos_bound b (2 ^ 16) ltac:(lia)).
  assert (0 <= a / 2 ^ 16 < 2 ^ 16)
    by (unfold word in *; split; [apply Z.div_pos | apply Z.div_lt_upper_bound]; lia).
  assert (0 <= b / 2 ^ 16 < 2 ^ 16)
    by (unfold word in *; split; [apply Z.div_pos | apply Z.div_lt_upper_bound]; lia).
  assert (Hab : a * b = (a / 2 ^ 16 * (b / 2 ^ 16)) * 2 ^ 32
    + (a / 2 ^ 16 * (b mod 2 ^ 16) + a mod 2 ^ 16 * (b / 2 ^ 16)) * 2 ^ 16
    + a mod 2 ^ 16 * (b mod 2 ^ 16)).
  { rewrite (Z_div_mod_eq_full a (2 ^ 16)) at 1. rewrite (Z_div_mod_eq_full b (2 ^ 16)) at 1. ring. }
  assert (Htot : a * b < 2 ^ 64) by (unfold word in *; nia). rewrite Hab in Htot |- *.
  pose proof (prod_bound (a mod 2 ^ 16) (b mod 2 ^ 16)) as P1.
  pose proof (prod_bound (a / 2 ^ 16) (b mod 2 ^ 16)) as P2.
  pose proof (prod_bound (a mod 2 ^ 16) (b / 2 ^ 16)) as P3.
  pose proof (prod_bound (a / 2 ^ 16) (b / 2 ^ 16)) as P4.
  set (r1 := a mod 2 ^ 16 * (b mod 2 ^ 16)) in *. set (r2 := a / 2 ^ 16 * (b mod 2 ^ 16)) in *.
  set (r3 := a mod 2 ^ 16 * (b / 2 ^ 16)) in *. set (r4 := a / 2 ^ 16 * (b / 2 ^ 16)) in *.
  clearbody r1 r2 r3 r4. specialize (P1 ltac:(lia) ltac:(lia)). specialize (P2 ltac:(lia) ltac:(lia)).
  specialize (P3 ltac:(lia) ltac:(lia)). specialize (P4 ltac:(lia) ltac:(lia)).
  rewrite (u32_small r1), (u32_small r2), (u32_small r3), (u32_small r4) by lia.
  pose proof (u32_range (r1 + (r2 .<< 16))) as Hlr.
  rewrite !mulu_carry by (unfold word; lia).
  assert (Hsh : forall r, 0 <= r < 2 ^ 32 -> r .<< 16 = (r mod 2 ^ 16) * 2 ^ 16).
  { intros r Hr. rewrite Z.shiftl_mul_pow2 by lia. unfold u32. symmetry.
    apply Z.mod_unique with (r / 2 ^ 16); [left|]; pose proof (Z_div_mod_eq_full r (2 ^ 16));
      pose proof (Z.mod_pos_bound r (2 ^ 16)); lia. }
  rewrite !Hsh in * by lia.
  pose proof (Z_div_mod_eq_full r2 (2 ^ 16)). pose proof (Z.mod_pos_bound r2 (2 ^ 16) ltac:(lia)).
  pose proof (Z_div_mod_eq_full r3 (2 ^ 16)). pose proof (Z.mod_pos_bound r3 (2 ^ 16) ltac:(lia)).
  destruct (sum_mod r1 (r2 mod 2 ^ 16 * 2 ^ 16) 0 (2 ^ 32)) as [E1 _]; [lia.. |].
  rewrite Z.add_0_r in E1. fold (u32 (r1 + r2 mod 2 ^ 16 * 2 ^ 16)) in E1.
  set (l1 := u32 (r1 + r2 mod 2 ^ 16 * 2 ^ 16)) in *.
  destruct (sum_mod l1 (r3 mod 2 ^ 16 * 2 ^ 16) 0 (2 ^ 32)) as [E2 _]; [lia.. |].
  rewrite Z.add_0_r in E2. fold (u32 (l1 + r3 mod 2 ^ 16 * 2 ^ 16)) in E2.
  set (l2 := u32 (l1 + r3 mod 2 ^ 16 * 2 ^ 16)) in *.
  clearbody l1 l2. unfold join, word. revert E1 E2.
  destruct (Z.leb_spec (2 ^ 32) (r1 + r2 mod 2 ^ 16 * 2 ^ 16));
    destruct (Z.leb_spec (2 ^ 32) (l1 + r3 mod 2 ^ 16 * 2 ^ 16));
    intros E1 E2; u32_inner; repeat split; lia.
Qed.

Lemma tst31 x : word x -> tst x BIT31_MASK = (2 ^ 31 <=? x).
Proof. intros Hx. unfold BIT31_MASK. rewrite tst_bit by lia. apply (msb_ge_half x 32); [lia | exact Hx]. Qed.

(** The sign test, with the signed value and the magnitude it selects. *)
Lemma sign_cases x :
  word x ->
  (tst x BIT31_MASK = true /\ s32 x = - neg32 x /\ 0 < neg32 x <= 2 ^ 31)
  \/ (tst x BIT31_MASK = false /\ s32 x = x /\ 0 <= x < 2 ^ 31).
Proof.
  intros Hx. rewrite tst31 by exact Hx. unfold s32. rewrite (sgn_half 32) by (unfold op_size; auto).
  change (32 - 1) with 31. unfold word in Hx.
  destruct (Z.leb_spec (2 ^ 31) x); [left | right]; (split; [reflexivity|]); [|lia].
  assert (neg32 x = 2 ^ 32 - x) as -> by (symmetry; apply Z.mod_unique with (-1); lia). lia.
Qed.

Lemma mod64_neg a b : a = b mod 2 ^ 64 -> (- a) mod 2 ^ 64 = (- b) mod 2 ^ 64.
Proof.
  intros ->. rewrite <- (Z.sub_0_l (b mod 2 ^ 64)), Zminus_mod_idemp_r, Z.sub_0_l. reflexivity.
Qed.

Lemma mul64_spec a b :
  word a -> word b ->
  let '(h, l) := mul64 a b in word h /\ word l /\ join h l = (s32 a * s32 b) mod 2 ^ 64.
Proof.
  intros Ha Hb. unfold mul64.
  assert (HM : forall x y, word x -> word y -> x <= 2 ^ 31 -> y <= 2 ^ 31 -> 
    let '(h, l) := mulu64 x y in word h /\ word l /\ join h l = (x * y) mod 2 ^ 64).
  { intros x y Hx Hy Lx Ly. pose proof (mulu64_spec x y Hx Hy) as HS.
    destruct (mulu64 x y) as [h l]. destruct HS as (? & ? & ->). unfold word in *.
    repeat split; try lia. symmetry. apply Z.mod_small. nia. }
  assert (HN : forall x y, word x -> word y -> x <= 2 ^ 31 -> y <= 2 ^ 31 ->
    let '(h, l) := (let '(hr, lr) := mulu64 x y in neg64 hr lr) in
    word h /\ word l /\ join h l = (- (x * y)) mod 2 ^ 64).
  { intros x y Hx Hy Lx Ly. specialize (HM x y Hx Hy Lx Ly).
    destruct (mulu64 x y) as [h l]. destruct HM as (Hh & Hl & HJ).
    pose proof (neg64_spec h l Hh Hl) as HS. destruct (neg64 h l) as [h' l'].
    destruct HS as (? & ? & ->). split; [assumption|]. split; [assumption|].
    apply mod64_neg. exact HJ. }
  unfold word in *.
  destruct (sign_cases a Ha) as [(-> & -> & ?) | (-> & -> & ?)];
    destruct (sign_cases b Hb) as [(-> & -> & ?) | (-> & -> & ?)];
    rewrite ?Z.mul_opp_opp, ?Z.mul_opp_l, ?Z.mul_opp_r; (apply HM || apply HN); lia.
Qed.

(** [x << 1 | b]. *)
Lemma shl1_or x b : word x -> (x .<< 1) .| Z.b2z b = u32 (2 * x) + Z.b2z b.
Proof.
  intros Hx. rewrite Z.shiftl_mul_pow2 by lia. change (2 ^ 1) with 2. rewrite (Z.mul_comm x).
  assert (E : u32 (2 * x) = (x mod 2 ^ 31) * 2 ^ 1).
  { unfold u32. change (2 ^ 32) with (2 * 2 ^ 31). rewrite Zmult_mod_distr_l. lia. }
  rewrite E. apply Z.bits_inj'. intros i Hi.
  rewrite concat_bits by (try apply b2z_range; destruct b; cbn; lia).
  rewrite Z.lor_spec. replace (x mod 2 ^ 31 * 2 ^ 1) with (x mod 2 ^ 31 * 2 ^ 1 + 0) by lia.
  rewrite concat_bits by lia. destruct (Z.ltb_spec i 1).
  - rewrite Z.testbit_0_l. reflexivity.
  - assert (Z.testbit (Z.b2z b) i = false) as ->; [|apply orb_false_r].
    destruct b; [apply testbit_one; lia | apply Z.testbit_0_l].
Qed.

(** One round on the dividend as one 64-bit number [w]: its top bit moves into
    the partial dividend [p], the quotient bit comes in at the bottom. *)
Definition ldiv_step (d : Z) (s : Z * Z) : Z * Z :=
  let '(w, p) := s in
  let p2 := 2 * p + w / 2 ^ 63 in
  let w2 := (2 * w) mod 2 ^ 64 in
  if d <=? p2 then (w2 + 1, p2 - d) else (w2, p2).

Lemma divu64_step_spec d hd ld p :
  word hd -> word ld -> word d -> 0 <= p < d ->
  let '(hd', ld', p') := divu64_step d (hd, ld, p) in
  word hd' /\ word ld' /\ (join hd' ld', p') = ldiv_step d (join hd ld, p).
Proof.
  intros Hh Hl Hd Hp. unfold divu64_step, ldiv_step.
  assert (Hcar : forall x, word x -> nz (x .& BIT31_MASK) = Z.b2z (2 ^ 31 <=? x)).
  { intros x Hx. rewrite <- tst31 by exact Hx. unfold tst, nz. reflexivity. }
  unfold word in *. rewrite !Hcar by (unfold word; lia).
  rewrite !shl1_or by (unfold word; lia). rewrite b2z_neq0.
  assert (Hu : forall x, 0 <= x < 2 ^ 32 -> u32 (2 * x) = 2 * x - 2 ^ 32 * Z.b2z (2 ^ 31 <=? x)).
  { intros x Hx. symmetry. unfold u32. apply Z.mod_unique with (Z.b2z (2 ^ 31 <=? x));
      [left|]; destruct (Z.leb_spec (2 ^ 31) x); cbn [Z.b2z]; lia. }
  assert (Hld1 : ld .<< 1 = u32 (2 * ld)) by (rewrite Z.shiftl_mul_pow2 by lia; f_equal; lia).
  assert (Hor : (ld .<< 1) .| 1 = u32 (2 * ld) + 1) by (apply (shl1_or ld true); unfold word; lia).
  assert (Htop : join hd ld / 2 ^ 63 = Z.b2z (2 ^ 31 <=? hd)).
  { unfold join. symmetry. apply Z.div_unique with (hd * 2 ^ 32 + ld - 2 ^ 63 * Z.b2z (2 ^ 31 <=? hd));
      [left|]; destruct (Z.leb_spec (2 ^ 31) hd); cbn [Z.b2z]; lia. }
  assert (Hw : (2 * join hd ld) mod 2 ^ 64 = join (u32 (2 * hd) + Z.b2z (2 ^ 31 <=? ld)) (u32 (2 * ld))).
  { symmetry. unfold join. rewrite !Hu by lia.
    apply Z.mod_unique with (Z.b2z (2 ^ 31 <=? hd)); [left|];
      destruct (Z.leb_spec (2 ^ 31) hd), (Z.leb_spec (2 ^ 31) ld); cbn [Z.b2z]; lia. }
  rewrite Htop, Hw, Hor, Hld1. rewrite !Hu by lia. unfold join.
  assert (Hc : (2 ^ 31 <=? p) || (d <=? 2 * p - 2 ^ 32 * Z.b2z (2 ^ 31 <=? p) + Z.b2z (2 ^ 31 <=? hd))
    = (d <=? 2 * p + Z.b2z (2 ^ 31 <=? hd))).
  { destruct (Z.leb_spec (2 ^ 31) p); cbn [orb Z.b2z].
    - symmetry. apply Z.leb_le. destruct (2 ^ 31 <=? hd); cbn [Z.b2z]; lia.
    - f_equal. lia. }
  rewrite Hc. destruct (Z.leb_spec d (2 * p + Z.b2z (2 ^ 31 <=? hd))).
  - rewrite <- (u32_small (2 * p + Z.b2z (2 ^ 31 <=? hd) - d))
      by (destruct (2 ^ 31 <=? hd); cbn [Z.b2z] in *; lia).
    split; [destruct (Z.leb_spec (2 ^ 31) hd), (Z.leb_spec (2 ^ 31) ld); cbn [Z.b2z] in *; lia|].
    split; [destruct (Z.leb_spec (2 ^ 31) ld); cbn [Z.b2z] in *; lia|].
    f_equal; [lia|]. unfold u32. destruct (Z.leb_spec (2 ^ 31) p); cbn [Z.b2z].
    + symmetry. rewrite <- (Z_mod_plus_full _ (-1)). f_equal. lia.
    + f_equal. lia.
  - assert (Hp31 : (2 ^ 31 <=? p) = false)
      by (apply Z.leb_gt; destruct (2 ^ 31 <=? hd); cbn [Z.b2z] in *; lia).
    rewrite Hp31. cbn [Z.b2z].
    split; [destruct (Z.leb_spec (2 ^ 31) hd), (Z.leb_spec (2 ^ 31) ld); cbn [Z.b2z] in *; lia|].
    split; [destruct (Z.leb_spec (2 ^ 31) ld); cbn [Z.b2z] in *; lia|].
    f_equal; lia.
Qed.

(** After [i] rounds the top [i] bits of the dividend [N] are divided: [q] and
    [p] are their quotient and remainder, [m] is what is left of the dividend. *)
Definition ldiv_inv (N d i : Z) (s : Z * Z) : Prop :=
  exists m q, let '(w, p) := s in
  w = m * 2 ^ i + q /\ 0 <= q < 2 ^ i /\ 0 <= m < 2 ^ (64 - i)
  /\ N = (q * d + p) * 2 ^ (64 - i) + m /\ 0 <= p < d.

Lemma ldiv_step_inv N d i s :
  0 < d -> 0 <= i < 64 -> ldiv_inv N d i s -> ldiv_inv N d (i + 1) (ldiv_step d s).
Proof.
  intros Hd Hi (m & q & Hinv). destruct s as [w p]. destruct Hinv as (Hw & Hq & Hm & HN & Hp).
  assert (P63 : 2 ^ 63 = 2 ^ i * 2 ^ (63 - i)) by (rewrite <- Z.pow_add_r by lia; f_equal; lia).
  assert (P64 : 2 ^ 64 = 2 * (2 ^ i * 2 ^ (63 - i))) by (rewrite <- P63; reflexivity).
  assert (Pm : 2 ^ (64 - i) = 2 * 2 ^ (63 - i)) by (rewrite <- Z.pow_succ_r by lia; f_equal; lia).
  assert (Pi : 2 ^ (i + 1) = 2 * 2 ^ i) by (rewrite <- Z.pow_succ_r by lia; f_equal; lia).
  pose proof (pow2_pos i ltac:(lia)) as Hpi. pose proof (pow2_pos (63 - i) ltac:(lia)) as Hpk.
  rewrite Pm in *. set (A := 2 ^ i) in *. set (B := 2 ^ (63 - i)) in *.
  pose proof (Z_div_mod_eq_full m B) as Em. pose proof (Z.mod_pos_bound m B ltac:(lia)) as Hm'.
  assert (Ht : 0 <= m / B <= 1) by (split; [apply Z.div_pos; lia | apply Z.lt_succ_r, Z.div_lt_upper_bound; lia]).
  set (t := m / B) in *. set (m' := m mod B) in *. clearbody t m'.
  assert (Htop : w / 2 ^ 63 = t).
  { rewrite P63. symmetry. apply Z.div_unique with (m' * A + q); [left; nia | subst; ring]. }
  assert (Hw2 : (2 * w) mod 2 ^ 64 = m' * (2 * A) + 2 * q).
  { rewrite P64. symmetry. apply Z.mod_unique with t; [left; nia | subst; ring]. }
  unfold ldiv_step. rewrite Htop, Hw2.
  assert (E64 : 64 - (i + 1) = 63 - i) by lia.
  destruct (Z.leb_spec d (2 * p + t)).
  - exists m', (2 * q + 1). rewrite Pi, E64. fold A B. repeat split; try nia; subst; ring.
  - exists m', (2 * q). rewrite Pi, E64. fold A B. repeat split; try nia; subst; ring.
Qed.

Lemma divu64_inv hr lr d (n : nat) :
  word hr -> word lr -> word d -> 0 < d -> (n <= 64)%nat ->
  let '(h, l, p) := Nat.iter n (divu64_step d) (hr, lr, 0) in
  word h /\ word l /\ ldiv_inv (join hr lr) d (Z.of_nat n) (join h l, p).
Proof.
  intros Hh Hl Hd Hd0. unfold word in *. induction n as [|n IH]; intros Hn.
  - cbn [Nat.iter nat_rect]. change (Nat.iter 0 _ _) with (hr, lr, 0). repeat split; try lia.
    exists (join hr lr), 0. unfold join. change (2 ^ Z.of_nat 0) with 1.
    change (64 - Z.of_nat 0) with 64. lia.
  - change (Nat.iter (Datatypes.S n) (divu64_step d) (hr, lr, 0))
      with (divu64_step d (Nat.iter n (divu64_step d) (hr, lr, 0))).
    specialize (IH ltac:(lia)). destruct (Nat.iter n _ _) as [[h l] p].
    destruct IH as (Hh' & Hl' & HI).
    assert (Hp : 0 <= p < d) by (destruct HI as (m & q & _ & _ & _ & _ & Hp); exact Hp).
    pose proof (divu64_step_spec d h l p Hh' Hl' Hd Hp) as HS.
    destruct (divu64_step d (h, l, p)) as [[h2 l2] p2]. destruct HS as (? & ? & HE).
    unfold word in *. repeat split; try lia. rewrite HE, Nat2Z.inj_succ. apply ldiv_step_inv; lia || assumption.
Qed.

Lemma divu64_spec hr lr d :
  word hr -> word lr -> word d -> 0 < d ->
  let '(h, l, r) := divu64 hr lr d in
  word h /\ word l /\ join h l = join hr lr / d /\ r = join hr lr mod d.
Proof.
  intros Hh Hl Hd Hd0. pose proof (divu64_inv hr lr d 64 Hh Hl Hd Hd0 ltac:(lia)) as HI.
  unfold divu64. destruct (Nat.iter 64 _ _) as [[h l] r]. destruct HI as (? & ? & m & q & Hw & Hq & Hm & HN & Hr).
  change (64 - Z.of_nat 64) with 0 in *. rewrite Z.pow_0_r in *.
  assert (m = 0) as -> by lia. split; [assumption|]. split; [assumption|].
  split; [apply Z.div_unique with r | apply Z.mod_unique with q]; lia.
Qed.

Lemma sgn64_cases hr lr :
  word hr -> word lr ->
  let v := join hr lr in
  (tst hr BIT31_MASK = true /\ sgn 64 v = - ((- v) mod 2 ^ 64) /\ 0 < (- v) mod 2 ^ 64 <= 2 ^ 63)
  \/ (tst hr BIT31_MASK = false /\ sgn 64 v = v /\ 0 <= v < 2 ^ 63).
Proof.
  intros Hh Hl v. rewrite tst31 by exact Hh. unfold word in *.
  assert (Hv : 0 <= v < 2 ^ 64) by (unfold v, join; lia).
  unfold sgn. rewrite (Z.mod_small v) by exact Hv. change (64 - 1) with 63.
  destruct (Z.leb_spec (2 ^ 31) hr); [left | right]; (split; [reflexivity|]);
    destruct (Z.ltb_spec v (2 ^ 63)); unfold v, join in *; try lia.
  assert ((- (hr * 2 ^ 32 + lr)) mod 2 ^ 64 = 2 ^ 64 - (hr * 2 ^ 32 + lr)) as ->
    by (symmetry; apply Z.mod_unique with (-1); lia). lia.
Qed.

Lemma neg32_mod x : neg32 (x mod 2 ^ 32) = (- x) mod 2 ^ 32.
Proof. unfold neg32, u32. rewrite <- (Z.sub_0_l (x mod _)), Zminus_mod_idemp_r, Z.sub_0_l. reflexivity. Qed.

(** Quotient and remainder of the signed division, truncated towards zero. *)
Lemma div64_spec hr lr d :
  word hr -> word lr -> word d -> d <> 0 ->
  let V := sgn 64 (join hr lr) in
  let '(h, l, r) := div64 hr lr d in
  word h /\ word l /\ join h l = Z.quot V (s32 d) mod 2 ^ 64 /\ r = Z.rem V (s32 d) mod 2 ^ 32.
Proof.
  intros Hh Hl Hd Hd0 V. unfold div64.
  assert (HU : forall h l e, word h -> word l -> 0 < e <= 2 ^ 31 ->
    let '(h', l', r) := divu64 h l e in
    word h' /\ word l' /\ join h' l' = Z.quot (join h l) e mod 2 ^ 64
    /\ r = Z.rem (join h l) e mod 2 ^ 32).
  { intros h l e Hh1 Hl1 He. pose proof (divu64_spec h l e Hh1 Hl1) as HS.
    destruct (divu64 h l e) as [[h' l'] r]. unfold word in *.
    assert (Hj : 0 <= join h l < 2 ^ 64) by (unfold join; lia).
    destruct HS as (? & ? & -> & ->); [lia.. |].
    rewrite Z.quot_div_nonneg, Z.rem_mod_nonneg by lia.
    pose proof (Z.mod_pos_bound (join h l) e ltac:(lia)).
    assert (0 <= join h l / e < 2 ^ 64)
      by (split; [apply Z.div_pos; lia | apply Z.div_lt_upper_bound; nia]).
    rewrite (Z.mod_small (_ / _)), (Z.mod_small (_ mod _)) by lia. repeat split; lia. }
  pose proof (neg64_spec hr lr Hh Hl) as HN0.
  destruct (neg64 hr lr) as [nh nl]. destruct HN0 as (Hnh & Hnl & HJ).
  assert (HNEG : forall h l x, word h -> word l -> join h l = x mod 2 ^ 64 ->
    let '(h', l') := neg64 h l in word h' /\ word l' /\ join h' l' = (- x) mod 2 ^ 64).
  { intros h l x Hh1 Hl1 E. pose proof (neg64_spec h l Hh1 Hl1) as HS.
    destruct (neg64 h l). destruct HS as (? & ? & ->). auto using mod64_neg. }
  destruct (sgn64_cases hr lr Hh Hl) as [(-> & EV & Bv) | (-> & EV & Bv)];
    destruct (sign_cases d Hd) as [(-> & -> & Bd) | (-> & -> & Bd)]; fold V in EV; rewrite EV.
  - rewrite <- HJ. specialize (HU nh nl (neg32 d) Hnh Hnl Bd).
    destruct (divu64 nh nl (neg32 d)) as [[h l] r]. destruct HU as (? & ? & ? & ->).
    rewrite Z.quot_opp_opp, Z.rem_opp_opp, neg32_mod by lia. auto.
  - rewrite <- HJ. specialize (HU nh nl d Hnh Hnl ltac:(lia)).
    destruct (divu64 nh nl d) as [[h l] r]. destruct HU as (Hh' & Hl' & Hq & ->).
    specialize (HNEG h l _ Hh' Hl' Hq). destruct (neg64 h l) as [h2 l2].
    rewrite Z.quot_opp_l, Z.rem_opp_l, neg32_mod by lia. destruct HNEG as (? & ? & ?). auto.
  - specialize (HU hr lr (neg32 d) Hh Hl Bd).
    destruct (divu64 hr lr (neg32 d)) as [[h l] r]. destruct HU as (Hh' & Hl' & Hq & ->).
    specialize (HNEG h l _ Hh' Hl' Hq). destruct (neg64 h l) as [h2 l2].
    rewrite Z.quot_opp_r, Z.rem_opp_r by lia. destruct HNEG as (? & ? & ?). auto.
  - apply HU; auto. lia.
Qed.

(** ** The instructions, by operand size *)

Definition MUL (sz : Z) : Z -> Z -> cpu -> Z * cpu :=
  if sz =? 8 then MUL8 else if sz =? 16 then MUL16 else MUL32.
Definition IMUL (sz : Z) : Z -> Z -> cpu -> Z * cpu :=
  if sz =? 8 then IMUL8 else if sz =? 16 then IMUL16 else IMUL32.
Definition IMULT (sz : Z) : Z -> Z -> cpu -> Z * cpu := if sz =? 16 then IMUL16T else IMUL32T.
Definition DIV {S} `{HasCpu S} (sz : Z) : Z -> M exn S unit :=
  if sz =? 8 then DIV8 else if sz =? 16 then DIV16 else DIV32.
Definition IDIV {S} `{HasCpu S} (sz : Z) : Z -> M exn S unit :=
  if sz =? 8 then IDIV8 else if sz =? 16 then IDIV16 else IDIV32.

(** Where the halves of a double width value live: AX, DX:AX or EDX:EAX. *)
Definition set_high (sz x : Z) (c : cpu) : cpu :=
  if sz =? 8 then SET_BR A_AH x c else if sz =? 16 then SET_WR A_DX x c else SET_GR A_EDX x c.

Definition set_low (sz x : Z) (c : cpu) : cpu :=
  if sz =? 8 then SET_BR A_AL x c else if sz =? 16 then SET_WR A_AX x c else SET_GR A_EAX x c.

Definition dividend (sz : Z) (c : cpu) : Z :=
  if sz =? 8 then GET_WR A_AX c
  else if sz =? 16 then GET_WR A_DX c * 2 ^ 16 + GET_WR A_AX c
  else GET_GR A_EDX c * 2 ^ 32 + GET_GR A_EAX c.

Lemma land_field x k m :
  0 <= k -> 0 <= m -> Z.land x ((2 ^ m - 1) * 2 ^ k) = ((x / 2 ^ k) mod 2 ^ m) * 2 ^ k.
Proof.
  intros Hk Hm. replace (2 ^ m - 1) with (Z.ones m) by (rewrite Z.ones_equiv; reflexivity).
  rewrite <- Z.land_ones, <- !Z.shiftl_mul_pow2 by lia.
  apply Z.bits_inj'. intros i Hi. rewrite Z.land_spec, !Z.shiftl_spec, Z.land_spec by lia.
  destruct (Z.lt_ge_cases i k).
  - rewrite !(Z.testbit_neg_r _ (i - k)) by lia. rewrite andb_false_r. reflexivity.
  - rewrite Z.div_pow2_bits by lia. do 2 f_equal. lia.
Qed.

(** The test that a signed value of double width fits the operand: all bits from
    the sign up are equal. *)
Lemma fits_test sz mask P :
  (sz = 8 /\ mask = 0xff80) \/ (sz = 16 /\ mask = 0xffff8000) ->
  - 2 ^ (2 * sz - 1) <= P <= 2 ^ (2 * sz - 1) ->
  (u32 P .& mask =? 0) || (u32 P .& mask =? mask) = fits sz P.
Proof.
  intros Hsz HP.
  assert (HF : forall k m, 0 <= k -> 0 <= m -> k + m <= 32 ->
    u32 P .& ((2 ^ m - 1) * 2 ^ k) = ((P / 2 ^ k) mod 2 ^ m) * 2 ^ k).
  { intros k m Hk Hm Hkm. rewrite land_field by assumption. f_equal.
    apply Z.bits_inj'. intros i Hi. destruct (Z.lt_ge_cases i m).
    - rewrite !Z.mod_pow2_bits_low, !Z.div_pow2_bits by lia. apply u32_bit. lia.
    - rewrite !Z.mod_pow2_bits_high by lia. reflexivity. }
  unfold fits. destruct Hsz as [[-> ->] | [-> ->]]; cbn [Z.mul Pos.mul Z.sub] in HP |- *.
  - change 0xff80 with ((2 ^ 9 - 1) * 2 ^ 7). rewrite HF by lia.
    pose proof (Z_div_mod_eq_full P (2 ^ 7)). pose proof (Z.mod_pos_bound P (2 ^ 7) ltac:(lia)).
    pose proof (Z_div_mod_eq_full (P / 2 ^ 7) (2 ^ 9)).
    pose proof (Z.mod_pos_bound (P / 2 ^ 7) (2 ^ 9) ltac:(lia)).
    change (8 - 1) with 7. change (8 + 7) with 15 in *.
    apply eq_true_iff_eq. rewrite orb_true_iff, andb_true_iff, !Z.eqb_eq, Z.leb_le, Z.ltb_lt. lia.
  - change 0xffff8000 with ((2 ^ 17 - 1) * 2 ^ 15). rewrite HF by lia.
    pose proof (Z_div_mod_eq_full P (2 ^ 15)). pose proof (Z.mod_pos_bound P (2 ^ 15) ltac:(lia)).
    pose proof (Z_div_mod_eq_full (P / 2 ^ 15) (2 ^ 17)).
    pose proof (Z.mod_pos_bound (P / 2 ^ 15) (2 ^ 17) ltac:(lia)).
    change (16 - 1) with 15.
    apply eq_true_iff_eq. rewrite orb_true_iff, andb_true_iff, !Z.eqb_eq, Z.leb_le, Z.ltb_lt. lia.
Qed.

Lemma sign_extend sz x :
  (sz = 8 \/ sz = 16) -> 0 <= x < 2 ^ sz ->
  (if tst x (BIT_MASK (sz - 1)) then x .| not32 (2 ^ sz - 1) else x) = u32 (sgn sz x).
Proof.
  intros Hsz Hx. assert (Hs : op_size sz) by (unfold op_size; lia).
  destruct (operand_facts sz Hs) as (Hz & Hh & Hp).
  rewrite tst_bit, sgn_cases by lia.
  assert (2 ^ sz < 2 ^ 32) by (apply Z.pow_lt_mono_r; lia).
  destruct (Z.testbit x (sz - 1)) eqn:E.
  - rewrite not32_word by (unfold word; lia).
    replace (2 ^ 32 - 1 - (2 ^ sz - 1)) with ((2 ^ (32 - sz) - 1) * 2 ^ sz)
      by (rewrite Z.mul_sub_distr_r, <- Z.pow_add_r by lia; replace (32 - sz + sz) with 32; lia).
    transitivity ((2 ^ (32 - sz) - 1) * 2 ^ sz + x).
    + apply Z.bits_inj'. intros i Hi. rewrite concat_bits, Z.lor_spec by lia.
      rewrite <- (Z.add_0_r ((2 ^ (32 - sz) - 1) * 2 ^ sz)), concat_bits by lia.
      destruct (Z.ltb_spec i sz); [rewrite Z.testbit_0_l, orb_false_r; reflexivity|].
      rewrite (proj1 (range_bits x sz ltac:(lia)) Hx) by lia. reflexivity.
    + rewrite Z.mul_sub_distr_r, <- Z.pow_add_r by lia. replace (32 - sz + sz) with 32 by lia.
      apply Z.mod_unique with (-1); lia.
  - symmetry. apply u32_small. lia.
Qed.

Lemma u32_mul_u32 x y : u32 (u32 x * u32 y) = u32 (x * y).
Proof. unfold u32. rewrite <- Zmult_mod. reflexivity. Qed.

Lemma sgn_bound sz x : op_size sz -> - 2 ^ (sz - 1) <= sgn sz x < 2 ^ (sz - 1).
Proof. intros Hs. apply sgn_range. apply op_size_range in Hs. lia. Qed.

Lemma set_BR_mod i x y c : u8 x = u8 y -> SET_BR i x c = SET_BR i y c.
Proof. intros E. unfold SET_BR. rewrite E. reflexivity. Qed.

Lemma set_WR_mod i x y c : u16 x = u16 y -> SET_WR i x c = SET_WR i y c.
Proof. intros E. unfold SET_WR. rewrite E. reflexivity. Qed.

Lemma u32_field P k m :
  0 <= k -> 0 <= m -> k + m <= 32 -> (u32 P .>> k) .& (2 ^ m - 1) = (P / 2 ^ k) mod 2 ^ m.
Proof.
  intros Hk Hm Hkm. rewrite land_mask, Z.shiftr_div_pow2 by lia.
  apply Z.bits_inj'. intros i Hi. destruct (Z.lt_ge_cases i m).
  - rewrite !Z.mod_pow2_bits_low, !Z.div_pow2_bits by lia. apply u32_bit. lia.
  - rewrite !Z.mod_pow2_bits_high by lia. reflexivity.
Qed.

(** The flags of the 32-bit signed multiply. *)
Lemma fits_test32 h l P :
  word h -> word l -> join h l = P mod 2 ^ 64 -> - 2 ^ 63 <= P <= 2 ^ 63 ->
  ((h =? 0) && negb (tst l BIT31_MASK)) || ((h =? 0xffffffff) && tst l BIT31_MASK) = fits 32 P.
Proof.
  intros Hh Hl HJ HP. rewrite tst31 by exact Hl. unfold word, join, fits in *. change (32 - 1) with 31.
  pose proof (Z_div_mod_eq_full P (2 ^ 64)).
  assert (P / 2 ^ 64 = 0 \/ P / 2 ^ 64 = -1) as [E | E].
  { pose proof (Z.div_le_lower_bound P (2 ^ 64) (-1)). pose proof (Z.div_lt_upper_bound P (2 ^ 64) 1). lia. }
  all: rewrite E in *; apply eq_true_iff_eq;
    rewrite orb_true_iff, !andb_true_iff, negb_true_iff, !Z.eqb_eq, Z.leb_gt, !Z.leb_le, Z.ltb_lt; lia.
Qed.

(** The instructions' outcomes in terms of the exact product. *)
Lemma mul_case sz a b c :
  op_size sz -> 0 <= a < 2 ^ sz -> 0 <= b < 2 ^ sz ->
  let P := a * b in
  exists r, MUL sz a b c = (r, set_CF_OF (Z.b2z (2 ^ sz <=? P)) (set_high sz (P / 2 ^ sz) c))
            /\ r mod 2 ^ sz = P mod 2 ^ sz.
Proof.
  intros Hs Ha Hb P. unfold MUL, set_high.
  assert (HP : 0 <= P < 2 ^ (sz + sz))
    by (unfold P; rewrite Z.pow_add_r by (apply op_size_range in Hs; lia); nia).
  assert (Htop : forall w t, 0 < w -> 0 <= P -> t = P / w -> negb (t =? 0) = (w <=? P)).
  { intros w t Hw HP0 ->. apply eq_true_iff_eq. rewrite negb_true_iff, Z.eqb_neq, Z.leb_le.
    pose proof (Z_div_mod_eq_full P w). pose proof (Z.mod_pos_bound P w Hw). nia. }
  destruct Hs as [-> | [-> | ->]]; cbn [Z.eqb Pos.eqb].
  - change (8 + 8) with 16 in HP. unfold MUL8. fold P. change 0xff with (2 ^ 8 - 1). rewrite u32_field by lia.
    rewrite (Z.mod_small (P / _)) by (split; [apply Z.div_pos | apply Z.div_lt_upper_bound]; lia).
    rewrite (Htop (2 ^ 8)) by lia. exists (u32 P). split; [|apply mod_mod_le; lia].
    destruct (2 ^ 8 <=? P); reflexivity.
  - change (16 + 16) with 32 in HP. unfold MUL16. fold P. change WORD_MASK with (2 ^ 16 - 1). rewrite u32_field by lia.
    rewrite (Z.mod_small (P / _)) by (split; [apply Z.div_pos | apply Z.div_lt_upper_bound]; lia).
    rewrite (Htop (2 ^ 16)) by lia. exists (u32 P). split; [|apply mod_mod_le; lia].
    destruct (2 ^ 16 <=? P); reflexivity.
  - unfold MUL32. pose proof (mulu64_spec a b Ha Hb) as HS. destruct (mulu64 a b) as [h l].
    destruct HS as (Hh & Hl & HJ). fold P in HJ. unfold word, join in *.
    assert (Hq : h = P / 2 ^ 32) by (apply Z.div_unique with l; lia).
    rewrite (Htop (2 ^ 32)) by lia. exists l. rewrite <- Hq.
    split; [destruct (2 ^ 32 <=? P); reflexivity|].
    rewrite <- HJ, Z.add_comm, Z_mod_plus_full. reflexivity.
Qed.

Lemma imul16_core a b :
  0 <= a < 2 ^ 16 -> 0 <= b < 2 ^ 16 ->
  let P := sgn 16 a * sgn 16 b in
  let x := if tst a BIT15_MASK then a .| not32 WORD_MASK else a in
  let y := if tst b BIT15_MASK then b .| not32 WORD_MASK else b in
  u32 (x * y) = u32 P /\
  (u32 P .& 0xffff8000 =? 0) || (u32 P .& 0xffff8000 =? 0xffff8000) = fits 16 P.
Proof.
  intros Ha Hb P x y. unfold x, y, BIT15_MASK. change WORD_MASK with (2 ^ 16 - 1).
  change 15 with (16 - 1). rewrite !sign_extend, u32_mul_u32 by (assumption || lia).
  split; [reflexivity|]. apply fits_test; [auto|].
  pose proof (sgn_bound 16 a). pose proof (sgn_bound 16 b). unfold P, op_size in *. cbn in *. nia.
Qed.

Lemma imul8_core a b :
  0 <= a < 2 ^ 8 -> 0 <= b < 2 ^ 8 ->
  let P := sgn 8 a * sgn 8 b in
  let x := if tst a BIT7_MASK then a .| not32 BYTE_MASK else a in
  let y := if tst b BIT7_MASK then b .| not32 BYTE_MASK else b in
  u32 (x * y) = u32 P /\
  (u32 P .& 0xff80 =? 0) || (u32 P .& 0xff80 =? 0xff80) = fits 8 P.
Proof.
  intros Ha Hb P x y. unfold x, y, BIT7_MASK. change BYTE_MASK with (2 ^ 8 - 1).
  change 7 with (8 - 1). rewrite !sign_extend, u32_mul_u32 by (assumption || lia).
  split; [reflexivity|]. apply fits_test; [auto|].
  pose proof (sgn_bound 8 a). pose proof (sgn_bound 8 b). unfold P, op_size in *. cbn in *. nia.
Qed.

Lemma imul32_core a b :
  word a -> word b ->
  let P := sgn 32 a * sgn 32 b in
  let '(h, l) := mul64 a b in
  h = (P / 2 ^ 32) mod 2 ^ 32 /\ l mod 2 ^ 32 = P mod 2 ^ 32 /\
  ((h =? 0) && negb (tst l BIT31_MASK)) || ((h =? 0xffffffff) && tst l BIT31_MASK) = fits 32 P.
Proof.
  intros Ha Hb P. pose proof (mul64_spec a b Ha Hb) as HS. destruct (mul64 a b) as [h l].
  destruct HS as (Hh & Hl & HJ). unfold s32 in HJ. fold P in HJ.
  assert (HP : - 2 ^ 63 <= P <= 2 ^ 63)
    by (pose proof (sgn_bound 32 a); pose proof (sgn_bound 32 b); unfold P, op_size in *; cbn in *; nia).
  pose proof (fits_test32 h l P Hh Hl HJ HP) as Hf. unfold word, join in *.
  pose proof (Z_div_mod_eq_full P (2 ^ 64)).
  split; [|split; [|exact Hf]].
  - apply Z.mod_unique with (P / 2 ^ 64); [lia|].
    symmetry. apply Z.div_unique with l; lia.
  - replace P with (l + (h + 2 ^ 32 * (P / 2 ^ 64)) * 2 ^ 32) by lia.
    rewrite Z_mod_plus_full. reflexivity.
Qed.

Lemma imul_case sz a b c :
  op_size sz -> 0 <= a < 2 ^ sz -> 0 <= b < 2 ^ sz ->
  let P := sgn sz a * sgn sz b in
  let flag := Z.b2z (negb (fits sz P)) in
  (exists r, IMUL sz a b c = (r, set_CF_OF flag (set_high sz ((P / 2 ^ sz) mod 2 ^ sz) c))
             /\ r mod 2 ^ sz = P mod 2 ^ sz)
  /\ (sz <> 8 -> exists r, IMULT sz a b c = (r, set_CF_OF flag c) /\ r mod 2 ^ sz = P mod 2 ^ sz).
Proof.
  intros Hs Ha Hb P flag. unfold IMUL, IMULT, set_high, flag.
  destruct Hs as [-> | [-> | ->]]; cbn [Z.eqb Pos.eqb].
  - split; [|lia]. unfold IMUL8. destruct (imul8_core a b Ha Hb) as [E F]. rewrite E. fold P in F |- *.
    change BYTE_MASK with (2 ^ 8 - 1). rewrite u32_field, F by lia.
    exists (u32 P). split; [|apply mod_mod_le; lia]. destruct (fits 8 P); reflexivity.
  - unfold IMUL16, IMUL16T. destruct (imul16_core a b Ha Hb) as [E F]. rewrite E. fold P in F |- *.
    rewrite F. split; [|intros _].
    + change (Z.land (u32 P .>> 16) WORD_MASK) with ((u32 P .>> 16) .& (2 ^ 16 - 1)).
      rewrite u32_field by lia. exists (u32 P). split; [|apply mod_mod_le; lia].
      destruct (fits 16 P); reflexivity.
    + exists (u32 P). split; [|apply mod_mod_le; lia]. destruct (fits 16 P); reflexivity.
  - unfold IMUL32, IMUL32T. pose proof (imul32_core a b Ha Hb) as HC. destruct (mul64 a b) as [h l].
    destruct HC as (-> & E & F). fold P in E, F |- *. rewrite F.
    split; [|intros _]; exists l; (split; [destruct (fits 32 P); reflexivity | exact E]).
Qed.

Section DivideSpec.
Context {S : Type} `{HasCpu S}.

(** The divide error leaves the instruction. *)
Lemma Int0_leaves (k : unit -> M exn S unit) s : bind Int0 k s = Int0 s.
Proof.
  destruct (Int0 s) as [a s'|e s'|] eqn:E.
  - unfold Int0, set_fault in E. unfold bind, modc, modify, getc, gets, when, throw, ret in E.
    destruct (_ =? 1) in E; discriminate.
  - rewrite (bind_raise _ _ _ _ _ E). reflexivity.
  - unfold bind. rewrite E. reflexivity.
Qed.

Lemma when_Int0 (b : bool) (k : unit -> M exn S unit) s :
  bind (when b Int0) k s = if b then Int0 s else k tt s.
Proof. destruct b; [apply Int0_leaves | reflexivity]. Qed.

Lemma stores_run f g h (s : S) :
  bind (modc f) (fun _ => bind (modc g) (fun _ => modc h)) s
  = Ret (E := exn) tt (put_cpu (h (g (f (the_cpu s)))) s).
Proof. unfold bind, modc, modify. rewrite !the_put, !put_put. reflexivity. Qed.

Lemma high_clear x k : 0 <= k -> 0 <= x < 2 ^ (2 * k) ->
  negb (x .& ((2 ^ k - 1) * 2 ^ k) =? 0) = (2 ^ k <=? x).
Proof.
  intros Hk Hx. rewrite land_field by assumption. pose proof (pow2_pos k Hk).
  replace (2 * k) with (k + k) in Hx by lia. rewrite Z.pow_add_r in Hx by lia.
  rewrite Z.mod_small by (split; [apply Z.div_pos | apply Z.div_lt_upper_bound]; lia).
  pose proof (Z_div_mod_eq_full x (2 ^ k)). pose proof (Z.mod_pos_bound x (2 ^ k) ltac:(lia)).
  assert (0 <= x / 2 ^ k) by (apply Z.div_pos; lia).
  apply eq_true_iff_eq. rewrite negb_true_iff, Z.eqb_neq, Z.leb_le.
  destruct (Z.eq_dec (x / 2 ^ k) 0) as [E | E]; [rewrite E in *; lia | split; nia].
Qed.

Lemma dividend_range sz (c : cpu) :
  op_size sz -> reg32 c -> 0 <= dividend sz c < 2 ^ (2 * sz).
Proof.
  intros Hs Hr. pose proof (Hr A_EDX ltac:(unfold A_EDX; lia)). pose proof (Hr A_EAX ltac:(unfold A_EAX; lia)).
  unfold dividend, GET_WR. destruct Hs as [-> | [-> | ->]]; cbn [Z.eqb Pos.eqb Z.mul Pos.mul].
  - apply u16_range.
  - pose proof (u16_range (GET_GR A_DX c)). pose proof (u16_range (GET_GR A_AX c)). lia.
  - lia.
Qed.

Lemma quot_bound V d n : 0 <= V < n -> 0 < d -> 0 <= V / d < n.
Proof.
  intros HV Hd. split; [apply Z.div_pos; lia|]. apply Z.le_lt_trans with V; [|lia].
  apply Z.div_le_upper_bound; [lia|]. nia.
Qed.

Lemma div_case sz d (s : S) :
  op_size sz -> 0 <= d < 2 ^ sz -> reg32 (the_cpu s) ->
  let c := the_cpu s in
  let V := dividend sz c in
  DIV sz d s =
  if (d =? 0) || (2 ^ sz <=? V / d) then Int0 s
  else Ret tt (put_cpu (modify_fl div_flags (set_high sz (V mod d) (set_low sz (V / d) c))) s).
Proof.
  intros Hs Hd Hr c V. pose proof (dividend_range sz c Hs Hr) as HV. fold V in HV.
  unfold DIV, set_high, set_low.
  destruct Hs as [-> | [-> | ->]]; cbn [Z.eqb Pos.eqb];
    [unfold DIV8 | unfold DIV16 | unfold DIV32]; rewrite when_Int0;
    (destruct (Z.eqb_spec d 0) as [-> | Hd0]; [reflexivity|]); cbn [orb];
    assert (HQ := quot_bound V d _ HV ltac:(lia)); rewrite !getc_bind; fold c.
  - change (GET_WR A_AX c) with V. change 0xff00 with ((2 ^ 8 - 1) * 2 ^ 8).
    rewrite when_Int0, high_clear by (exact HQ || lia). destruct (2 ^ 8 <=? V / d); [reflexivity|].
    apply stores_run.
  - assert (EV : (GET_WR A_DX c .<< 16) .| GET_WR A_AX c = V) by (apply lor_concat16; apply u16_range).
    rewrite EV.
    change 0xffff0000 with ((2 ^ 16 - 1) * 2 ^ 16).
    rewrite when_Int0, high_clear by (exact HQ || lia). destruct (2 ^ 16 <=? V / d); [reflexivity|].
    apply stores_run.
  - pose proof (divu64_spec (GET_GR A_EDX c) (GET_GR A_EAX c) d) as HS.
    destruct (divu64 _ _ d) as [[h l] r].
    destruct HS as (Hh & Hl & HJ & ->); [apply Hr; unfold A_EDX; lia | apply Hr; unfold A_EAX; lia
      | exact Hd | lia |].
    change (join (GET_GR A_EDX c) (GET_GR A_EAX c)) with V in *. unfold word, join in *.
    rewrite when_Int0.
    assert (negb (h =? 0) = (2 ^ 32 <=? V / d)) as ->
      by (apply eq_true_iff_eq; rewrite negb_true_iff, Z.eqb_neq, Z.leb_le; lia).
    destruct (Z.leb_spec (2 ^ 32) (V / d)); [reflexivity|].
    assert (l = V / d) as -> by lia. apply stores_run.
Qed.

Lemma s32_u32 x : - 2 ^ 31 <= x < 2 ^ 31 -> s32 (u32 x) = x.
Proof.
  intros Hx. unfold s32, sgn, u32. rewrite Z.mod_mod by lia. change (32 - 1) with 31.
  destruct (Z.lt_ge_cases x 0).
  - replace (x mod 2 ^ 32) with (x + 2 ^ 32) by (apply Z.mod_unique with (-1); lia).
    destruct (Z.ltb_spec (x + 2 ^ 32) (2 ^ 31)); lia.
  - rewrite Z.mod_small by lia. destruct (Z.ltb_spec x (2 ^ 31)); lia.
Qed.

Lemma sdiv_run a b (k : Z * Z -> M exn S unit) s :
  s32 b <> 0 ->
  bind (sdiv a b) k s
  = if (s32 a =? - 2 ^ 31) && (s32 b =? -1) then Undefined
    else k (u32 (Z.quot (s32 a) (s32 b)), u32 (Z.rem (s32 a) (s32 b))) s.
Proof.
  intros Hb. unfold sdiv, bind. rewrite (proj2 (Z.eqb_neq _ 0) Hb). cbn [orb].
  destruct (_ && _); reflexivity.
Qed.

Lemma quot_abs_bound V D n : 0 <= n -> - n <= V <= n -> D <> 0 -> - n <= Z.quot V D <= n.
Proof.
  intros Hn HV HD. assert (Z.abs (Z.quot V D) <= Z.abs V); [|lia].
  rewrite <- Z.quot_abs, Z.quot_div_nonneg by lia. apply Z.div_le_upper_bound; [lia | nia].
Qed.

Lemma u8_u32 q : u8 (u32 q) = u8 (q mod 2 ^ 8).
Proof. unfold u8, u32. rewrite Z.mod_mod by lia. apply mod_mod_le; lia. Qed.

Lemma u16_u32 q : u16 (u32 q) = u16 (q mod 2 ^ 16).
Proof. unfold u16, u32. rewrite Z.mod_mod by lia. apply mod_mod_le; lia. Qed.

Lemma sgn_nz sz d : op_size sz -> 0 <= d < 2 ^ sz -> d <> 0 -> sgn sz d <> 0.
Proof.
  intros Hs Hd Hd0. destruct (operand_facts sz Hs) as (? & ? & ?).
  rewrite (sgn_half sz Hs) by assumption. destruct (_ <=? _); lia.
Qed.

Lemma idiv_case sz d (s : S) :
  op_size sz -> 0 <= d < 2 ^ sz -> reg32 (the_cpu s) ->
  let c := the_cpu s in
  let V := sgn (2 * sz) (dividend sz c) in
  let D := sgn sz d in
  IDIV sz d s =
  if d =? 0 then Int0 s
  else if (sz =? 16) && ((V =? - 2 ^ 31) && (D =? -1)) then Undefined
  else if negb (fits sz (Z.quot V D)) then Int0 s
  else Ret tt (put_cpu (modify_fl idiv_flags
         (set_high sz (Z.rem V D mod 2 ^ sz) (set_low sz (Z.quot V D mod 2 ^ sz) c))) s).
Proof.
  intros Hs Hd Hr c V D. pose proof (dividend_range sz c Hs Hr) as HV.
  unfold IDIV, set_high, set_low. destruct (Z.eqb_spec d 0) as [-> | Hd0].
  { destruct Hs as [-> | [-> | ->]]; cbn [Z.eqb Pos.eqb];
      [unfold IDIV8 | unfold IDIV16 | unfold IDIV32]; rewrite when_Int0; reflexivity. }
  pose proof (sgn_nz sz d Hs Hd Hd0) as HD0. fold D in HD0.
  pose proof (sgn_bound sz d Hs) as HD. fold D in HD.
  assert (HVb : - 2 ^ (2 * sz - 1) <= V <= 2 ^ (2 * sz - 1))
    by (pose proof (sgn_range (2 * sz) (dividend sz c)); apply op_size_range in Hs; unfold V; lia).
  assert (HQ := quot_abs_bound V D (2 ^ (2 * sz - 1)) ltac:(apply Z.pow_nonneg; lia) HVb HD0).
  destruct Hs as [-> | [-> | ->]]; cbn [Z.eqb Pos.eqb andb]; cbn [Z.mul Pos.mul] in *;
    [unfold IDIV8 | unfold IDIV16 | unfold IDIV32]; rewrite when_Int0, (proj2 (Z.eqb_neq d 0) Hd0), !getc_bind;
    fold c.
  - assert (E1 : (if tst (GET_WR A_AX c) BIT15_MASK then GET_WR A_AX c .| not32 WORD_MASK else GET_WR A_AX c) = u32 V)
      by (apply (sign_extend 16); [auto | apply u16_range]).
    assert (E2 : (if tst d BIT7_MASK then d .| not32 BYTE_MASK else d) = u32 D)
      by (apply (sign_extend 8); auto).
    rewrite E1, E2. change (16 - 1) with 15 in *. change (8 - 1) with 7 in *.
    rewrite sdiv_run by (rewrite s32_u32; lia). rewrite !s32_u32 by lia.
    rewrite (proj2 (Z.eqb_neq V _)) by lia. cbn [andb].
    rewrite when_Int0, (fits_test 8) by auto. destruct (fits 8 (Z.quot V D)); cbn [negb]; [|reflexivity].
    rewrite stores_run. rewrite (set_BR_mod A_AL _ _ _ (u8_u32 _)), (set_BR_mod A_AH _ _ _ (u8_u32 _)).
    reflexivity.
  - assert (E1 : (GET_WR A_DX c .<< 16) .| GET_WR A_AX c = dividend 16 c)
      by (apply lor_concat16; apply u16_range).
    assert (E2 : (if tst d BIT15_MASK then d .| not32 WORD_MASK else d) = u32 D)
      by (apply (sign_extend 16); auto).
    rewrite E1, E2. change (16 - 1) with 15 in *. change (s32 (dividend 16 c)) with V.
    rewrite sdiv_run by (rewrite s32_u32; lia). rewrite !s32_u32 by lia. change (s32 (dividend 16 c)) with V.
    destruct (_ && _); [reflexivity|].
    rewrite when_Int0, (fits_test 16) by auto. destruct (fits 16 (Z.quot V D)); cbn [negb]; [|reflexivity].
    rewrite stores_run. rewrite (set_WR_mod A_AX _ _ _ (u16_u32 _)), (set_WR_mod A_DX _ _ _ (u16_u32 _)).
    reflexivity.
  - pose proof (div64_spec (GET_GR A_EDX c) (GET_GR A_EAX c) d) as HS.
    destruct (div64 _ _ d) as [[h l] r].
    destruct HS as (Hh & Hl & HJ & ->); [apply Hr; unfold A_EDX; lia | apply Hr; unfold A_EAX; lia
      | exact Hd | exact Hd0 |].
    change (sgn 64 (join (GET_GR A_EDX c) (GET_GR A_EAX c))) with V in *. change (s32 d) with D in *.
    change (64 - 1) with 63 in *.
    pose proof (fits_test32 h l _ Hh Hl HJ HQ) as HF. unfold tst in HF. rewrite negb_involutive in HF.
    rewrite when_Int0, HF. destruct (fits 32 (Z.quot V D)); cbn [negb]; [|reflexivity].
    assert (l = Z.quot V D mod 2 ^ 32) as ->; [|apply stores_run].
    unfold word, join in *. pose proof (Z_div_mod_eq_full (Z.quot V D) (2 ^ 64)).
    apply Z.mod_unique with (h + 2 ^ 32 * (Z.quot V D / 2 ^ 64)); lia.
Qed.

End DivideSpec.

(** ** Theorems *)

(** C20 - The multiply instructions: for every operand size MUL and IMUL leave the
    exact unsigned or signed product, its high half in AH, DX or EDX and its low
    half in the returned operand, and set CF and OF together exactly when the high
    half is significant; the two and three operand IMUL forms keep the low half.
    No other flag or register changes. *)
Theorem multiply_correct sz a b c :
  op_size sz -> 0 <= a < 2 ^ sz -> 0 <= b < 2 ^ sz ->
  let P := a * b in
  let I := sgn sz a * sgn sz b in
  let over := Z.b2z (negb (fits sz I)) in
  (exists r, MUL sz a b c = (r, set_CF_OF (Z.b2z (2 ^ sz <=? P)) (set_high sz (P / 2 ^ sz) c))
             /\ r mod 2 ^ sz = P mod 2 ^ sz)
  /\ (exists r, IMUL sz a b c = (r, set_CF_OF over (set_high sz ((I / 2 ^ sz) mod 2 ^ sz) c))
             /\ r mod 2 ^ sz = I mod 2 ^ sz)
  /\ (sz <> 8 -> exists r, IMULT sz a b c = (r, set_CF_OF over c) /\ r mod 2 ^ sz = I mod 2 ^ sz).
Proof. intros. split; [apply mul_case | apply imul_case]; assumption. Qed.

Lemma multiply_correct_witness :
  exists r, MUL 32 0xffffffff 0xffffffff cpu0
    = (r, set_CF_OF 1 (set_high 32 0xfffffffe cpu0)) /\ r mod 2 ^ 32 = 1.
Proof.
  refine (proj1 (multiply_correct 32 0xffffffff 0xffffffff cpu0 _ _ _));
    [right; right; reflexivity | vm_compute | vm_compute]; split; congruence.
Defined.

(** C21 - DIV raises the divide error exactly when the divisor is zero or the
    quotient does not fit the operand size, with no register changed before the
    error; otherwise it stores the quotient and the remainder of the double width
    dividend. *)
Theorem DIV_correct {S} `{HasCpu S} sz d (s : S) :
  op_size sz -> 0 <= d < 2 ^ sz -> reg32 (the_cpu s) ->
  let c := the_cpu s in
  let V := dividend sz c in
  DIV sz d s =
  if (d =? 0) || (2 ^ sz <=? V / d) then Int0 s
  else Ret tt (put_cpu (modify_fl div_flags (set_high sz (V mod d) (set_low sz (V / d) c))) s).
Proof. apply div_case. Qed.

Lemma DIV_correct_witness : DIV 8 0 cpu0 = Int0 cpu0.
Proof.
  refine (DIV_correct 8 0 cpu0 _ _ _); [left; reflexivity | split; vm_compute; congruence |].
  intros i Hi. reg_cases i; vm_compute; split; congruence.
Defined.

(** C22 - IDIV divides truncating towards zero and raises the divide error exactly
    when the divisor is zero or the signed quotient does not fit, for the 8 and 32
    bit forms on every input.  The 16 bit form has one exception: the dividend
    -2^31 divided by -1 is computed with C's 32-bit division, which is undefined
    there. *)
Theorem IDIV_correct {S} `{HasCpu S} sz d (s : S) :
  op_size sz -> 0 <= d < 2 ^ sz -> reg32 (the_cpu s) ->
  let c := the_cpu s in
  let V := sgn (2 * sz) (dividend sz c) in
  let D := sgn sz d in
  IDIV sz d s =
  if d =? 0 then Int0 s
  else if (sz =? 16) && ((V =? - 2 ^ 31) && (D =? -1)) then Undefined
  else if negb (fits sz (Z.quot V D)) then Int0 s
  else Ret tt (put_cpu (modify_fl idiv_flags
         (set_high sz (Z.rem V D mod 2 ^ sz) (set_low sz (Z.quot V D mod 2 ^ sz) c))) s).
Proof. apply idiv_case. Qed.

Lemma IDIV_correct_witness : IDIV 16 0xffff (SET_GR A_DX 0x8000 cpu0) = Undefined.
Proof.
  refine (IDIV_correct 16 0xffff (SET_GR A_DX 0x8000 cpu0) _ _ _);
    [right; left; reflexivity | split; vm_compute; congruence |].
  intros i Hi. reg_cases i; vm_compute; split; congruence.
Defined.

End MulDiv.
