(* ===== verification/Decimal.v ===== *)
(** * Decimal adjustment, sign extension and flag instructions

    [daa.c], [das.c], [aaa.c], [aas.c], [aam.c], [aad.c], [cbw.c], [cwd.c],
    [cwde.c], [cdq.c], [movsx.c], [xchg.c], [lahf.c], [sahf.c], [clc.c],
    [stc.c], [cmc.c], [cld.c] and [std.c]. *)

From S2P Require Import Prelude Cpu Arith Shift Xcptn MulDiv.

Module Decimal.
Import Arith Shift Xcptn MulDiv.

Definition GET_AL : cpu -> Z := GET_BR A_AL.
Definition GET_AH : cpu -> Z := GET_BR A_AH.
Definition GET_AX : cpu -> Z := GET_WR A_AX.
Definition SET_AL : Z -> cpu -> cpu := SET_BR A_AL.
Definition SET_AH : Z -> cpu -> cpu := SET_BR A_AH.
Definition SET_AX : Z -> cpu -> cpu := SET_WR A_AX.

(** The result flags the adjust instructions share. *)
Definition set_ZSP (temp_al : Z) (f : FLAGS) : FLAGS :=
  SET_PF (pf temp_al) (SET_SF (nz (temp_al .& BIT7_MASK)) (SET_ZF (Z.b2z (temp_al =? 0)) f)).

Definition DAA (c : cpu) : cpu :=
  let temp_al := GET_AL c in
  let '(temp_al, c) :=
    if (9 <? temp_al .& 0xf) || negb (AF (fl c) =? 0)
    then (u8 (temp_al + 6), modify_fl (SET_AF 1) c) else (temp_al, c) in
  let '(temp_al, c) :=
    if (0x99 <? GET_AL c) || negb (CF (fl c) =? 0)
    then (u8 (temp_al + 0x60), modify_fl (SET_CF 1) c) else (temp_al, c) in
  let c := SET_AL temp_al c in
  let c := modify_fl (set_ZSP temp_al) c in
  modify_fl (SET_OF UNDEFINED_FLAG) c.

Definition DAS (c : cpu) : cpu :=
  let temp_al := GET_AL c in
  let '(temp_al, c) :=
    if (9 <? temp_al .& 0xf) || negb (AF (fl c) =? 0)
    then (u8 (temp_al - 6), modify_fl (SET_AF 1) c) else (temp_al, c) in
  let '(temp_al, c) :=
    if (0x99 <? GET_AL c) || negb (CF (fl c) =? 0)
    then (u8 (temp_al - 0x60), modify_fl (SET_CF 1) c)
    else if 0x9f <? temp_al then (temp_al, modify_fl (SET_CF 1) c) else (temp_al, c) in
  let c := SET_AL temp_al c in
  let c := modify_fl (set_ZSP temp_al) c in
  modify_fl (SET_OF UNDEFINED_FLAG) c.

Definition undef_OSZP (f : FLAGS) : FLAGS :=
  SET_PF UNDEFINED_FLAG (SET_ZF UNDEFINED_FLAG (SET_SF UNDEFINED_FLAG (SET_OF UNDEFINED_FLAG f))).

Definition AAA (c : cpu) : cpu :=
  let c :=
    if (9 <? GET_AL c .& 0xf) || negb (AF (fl c) =? 0) then
      let c := SET_AX (GET_AX c + 6) c in
      let c := SET_AH (GET_AH c + 1) c in
      modify_fl (fun f => SET_AF 1 (SET_CF 1 f)) c
    else modify_fl (fun f => SET_AF 0 (SET_CF 0 f)) c in
  let c := SET_AL (GET_AL c .& 0xf) c in
  modify_fl undef_OSZP c.

Definition AAS (c : cpu) : cpu :=
  let c :=
    if (9 <? GET_AL c .& 0xf) || negb (AF (fl c) =? 0) then
      let c := SET_AX (GET_AX c - 6) c in
      let c := SET_AH (GET_AH c - 1) c in
      modify_fl (fun f => SET_AF 1 (SET_CF 1 f)) c
    else modify_fl (fun f => SET_AF 0 (SET_CF 0 f)) c in
  let c := SET_AL (GET_AL c .& 0xf) c in
  modify_fl undef_OSZP c.

Definition undef_AOC (f : FLAGS) : FLAGS :=
  SET_CF UNDEFINED_FLAG (SET_OF UNDEFINED_FLAG (SET_AF UNDEFINED_FLAG f)).

Definition AAM {S} `{HasCpu S} (op1 : Z) : M exn S unit :=
  when (op1 =? 0) Int0 ;;
  modc (fun c => SET_AH (GET_AL c / op1) c) ;;
  modc (fun c => SET_AL (GET_AL c mod op1) c) ;;
  temp_al <- getc GET_AL ;;
  modc (modify_fl (set_ZSP temp_al)) ;;
  modc (modify_fl undef_AOC).

Definition AAD (op1 : Z) (c : cpu) : cpu :=
  let temp_al := u8 (u32 (GET_AH c * op1 + GET_AL c)) in
  let c := SET_AL temp_al c in
  let c := SET_AH 0 c in
  let c := modify_fl (set_ZSP temp_al) c in
  modify_fl undef_AOC c.

Definition CBW (c : cpu) : cpu :=
  if tst (GET_AL c) BIT7_MASK then SET_AH 0xff c else SET_AH 0 c.

Definition CWD (c : cpu) : cpu :=
  if tst (GET_AX c) BIT15_MASK then SET_WR A_DX 0xffff c else SET_WR A_DX 0 c.

Definition CWDE (c : cpu) : cpu :=
  let temp := GET_AX c in
  SET_GR A_EAX (if tst temp BIT15_MASK then temp .| 0xffff0000 else temp) c.

Definition CDQ (c : cpu) : cpu :=
  if tst (GET_GR A_EAX c) BIT31_MASK then SET_GR A_EDX 0xffffffff c else SET_GR A_EDX 0 c.

Definition MOVSX (op2 op_sz : Z) : Z :=
  if negb (SZ2MSB op_sz .& op2 =? 0) then op2 .| not32 (SZ2MASK op_sz) else op2.

Definition XCHG (op1 op2 : Z) : Z * Z := let temp := op1 in (op2, temp).

Definition LAHF (c : cpu) : cpu :=
  let f := fl c in
  SET_AH ((SF f .<< 7) .| (ZF f .<< 6) .| (AF f .<< 4) .| (PF f .<< 2) .| CF f .| 0x2) c.

Definition SAHF (c : cpu) : cpu :=
  let temp := GET_AH c in
  let c := modify_fl (SET_SF (nz (temp .& BIT_MASK 7))) c in
  let c := modify_fl (SET_ZF (nz (temp .& BIT_MASK 6))) c in
  let c := modify_fl (SET_AF (nz (temp .& BIT_MASK 4))) c in
  let c := modify_fl (SET_PF (nz (temp .& BIT_MASK 2))) c in
  modify_fl (SET_CF (nz (temp .& BIT_MASK 0))) c.

Definition CLC (f : FLAGS) : FLAGS := SET_CF 0 f.
Definition STC (f : FLAGS) : FLAGS := SET_CF 1 f.
Definition CMC (f : FLAGS) : FLAGS := SET_CF (1 - CF f) f.
Definition CLD (f : FLAGS) : FLAGS := SET_DF 0 f.
Definition STD (f : FLAGS) : FLAGS := SET_DF 1 f.

(** ** Byte register laws *)

Lemma u8_unique z q r : 0 <= r < 2 ^ 8 -> z = q * 2 ^ 8 + r -> u8 z = r /\ z / 2 ^ 8 = q.
Proof.
  intros Hr ->. split; symmetry; [apply Z.mod_unique with q | apply Z.div_unique with r]; lia.
Qed.

(** A register as upper part, second byte and low byte. *)
Lemma reg_bytes g :
  exists p, g = p * 2 ^ 16 + u8 (g / 2 ^ 8) * 2 ^ 8 + u8 g
            /\ 0 <= u8 g < 2 ^ 8 /\ 0 <= u8 (g / 2 ^ 8) < 2 ^ 8.
Proof.
  exists (g / 2 ^ 8 / 2 ^ 8). pose proof (Z_div_mod_eq_full g (2 ^ 8)).
  pose proof (Z_div_mod_eq_full (g / 2 ^ 8) (2 ^ 8)).
  pose proof (u8_range g). pose proof (u8_range (g / 2 ^ 8)). unfold u8 in *. lia.
Qed.

Lemma bytes_read p s r :
  0 <= s < 2 ^ 8 -> 0 <= r < 2 ^ 8 ->
  let g := p * 2 ^ 16 + s * 2 ^ 8 + r in
  u8 g = r /\ u8 (g / 2 ^ 8) = s /\ u16 g = s * 2 ^ 8 + r.
Proof.
  intros Hs Hr g. destruct (u8_unique g (p * 2 ^ 8 + s) r Hr ltac:(unfold g; lia)) as [-> ->].
  destruct (u8_unique (p * 2 ^ 8 + s) p s Hs eq_refl) as [-> _].
  repeat split. symmetry. apply Z.mod_unique with p; unfold g; lia.
Qed.

Lemma AL_range c : 0 <= GET_AL c < 2 ^ 8.
Proof. apply u8_range. Qed.

Lemma AH_range c : 0 <= GET_AH c < 2 ^ 8.
Proof. apply u8_range. Qed.

Section Bytes.
Context (c : cpu) (x : Z).

Lemma EAX_bytes : exists p, GET_GR A_EAX c = p * 2 ^ 16 + GET_AH c * 2 ^ 8 + GET_AL c.
Proof. destruct (reg_bytes (GET_GR A_EAX c)) as (p & E & _). exists p. exact E. Qed.

Lemma AX_parts : GET_AX c = GET_AH c * 2 ^ 8 + GET_AL c.
Proof.
  destruct EAX_bytes as [p E]. change (GET_AX c) with (u16 (GET_GR A_EAX c)). rewrite E.
  apply bytes_read; [apply AH_range | apply AL_range].
Qed.

Lemma SET_AL_get :
  GET_AL (SET_AL x c) = u8 x /\ GET_AH (SET_AL x c) = GET_AH c.
Proof.
  destruct EAX_bytes as [p E].
  assert (E' : GET_GR A_EAX (SET_AL x c) = p * 2 ^ 16 + GET_AH c * 2 ^ 8 + u8 x).
  { change (GET_GR A_EAX (SET_AL x c)) with (GET_GR A_EAX c - GET_AL c + u8 x). lia. }
  change (GET_AL (SET_AL x c)) with (u8 (GET_GR A_EAX (SET_AL x c))).
  change (GET_AH (SET_AL x c)) with (u8 (GET_GR A_EAX (SET_AL x c) / 2 ^ 8)). rewrite E'.
  destruct (bytes_read p (GET_AH c) (u8 x) (AH_range c) (u8_range x)) as (? & ? & ?). auto.
Qed.

Lemma SET_AH_get :
  GET_AL (SET_AH x c) = GET_AL c /\ GET_AH (SET_AH x c) = u8 x.
Proof.
  destruct EAX_bytes as [p E].
  assert (E' : GET_GR A_EAX (SET_AH x c) = p * 2 ^ 16 + u8 x * 2 ^ 8 + GET_AL c).
  { change (GET_GR A_EAX (SET_AH x c)) with (GET_GR A_EAX c - GET_AH c * 2 ^ 8 + u8 x * 2 ^ 8). lia. }
  change (GET_AL (SET_AH x c)) with (u8 (GET_GR A_EAX (SET_AH x c))).
  change (GET_AH (SET_AH x c)) with (u8 (GET_GR A_EAX (SET_AH x c) / 2 ^ 8)). rewrite E'.
  destruct (bytes_read p (u8 x) (GET_AL c) (u8_range x) (AL_range c)) as (? & ? & ?). auto.
Qed.

Lemma SET_AX_get : GET_AX (SET_AX x c) = u16 x.
Proof. apply (GET_SET_WR 0 x c). lia. Qed.
End Bytes.

Lemma SET_AX_bytes c x :
  GET_AL (SET_AX x c) = u8 x /\ GET_AH (SET_AX x c) = u8 (x / 2 ^ 8).
Proof.
  pose proof (AX_parts (SET_AX x c)) as E. rewrite SET_AX_get in E.
  pose proof (AL_range (SET_AX x c)) as HL. pose proof (AH_range (SET_AX x c)) as HH.
  assert (Hx : x = (x / 2 ^ 16 * 2 ^ 8 + GET_AH (SET_AX x c)) * 2 ^ 8 + GET_AL (SET_AX x c)).
  { pose proof (Z_div_mod_eq_full x (2 ^ 16)). unfold u16 in E. lia. }
  destruct (u8_unique x _ _ HL Hx) as [E1 E2]. split; [auto|].
  rewrite E2. symmetry. eapply u8_unique; [assumption | reflexivity].
Qed.

(** ** Packed and unpacked decimal *)

(** The packed decimal byte of a number below 100. *)
Definition bcd (x : Z) : Z := x / 10 * 16 + x mod 10.

(** What DAA and DAS do to AL and CF, as a function of AL, AF and CF. *)
Definition daa_fun (al af cf : Z) : Z * Z :=
  let t := if (9 <? al .& 0xf) || negb (af =? 0) then u8 (al + 6) else al in
  if (0x99 <? al) || negb (cf =? 0) then (u8 (t + 0x60), 1) else (t, cf).

Definition das_fun (al af cf : Z) : Z * Z :=
  let t := if (9 <? al .& 0xf) || negb (af =? 0) then u8 (al - 6) else al in
  if (0x99 <? al) || negb (cf =? 0) then (u8 (t - 0x60), 1)
  else (t, if 0x9f <? t then 1 else cf).

Lemma SET_AL_fl x c : fl (SET_AL x c) = fl c.
Proof. reflexivity. Qed.

Lemma GET_AL_fl g c : GET_AL (modify_fl g c) = GET_AL c.
Proof. reflexivity. Qed.

Lemma GET_AH_fl g c : GET_AH (modify_fl g c) = GET_AH c.
Proof. reflexivity. Qed.

Lemma u8_idem x : u8 (u8 x) = u8 x.
Proof. apply u8_small, u8_range. Qed.

Lemma DAA_fun c :
  (GET_AL (DAA c), CF (fl (DAA c))) = daa_fun (GET_AL c) (AF (fl c)) (CF (fl c)).
Proof.
  unfold DAA, daa_fun. pose proof (u8_small (GET_AL c) (AL_range c)) as Hal.
  destruct ((9 <? _) || _); rewrite ?GET_AL_fl; cbn [fl modify_fl SET_fl CF SET_AF];
    destruct ((0x99 <? _) || _); rewrite !GET_AL_fl, (proj1 (SET_AL_get _ _)), ?u8_idem, ?Hal;
    reflexivity.
Qed.

Lemma DAS_fun c :
  (GET_AL (DAS c), CF (fl (DAS c))) = das_fun (GET_AL c) (AF (fl c)) (CF (fl c)).
Proof.
  unfold DAS, das_fun. pose proof (u8_small (GET_AL c) (AL_range c)) as Hal.
  destruct ((9 <? _) || _); rewrite ?GET_AL_fl; cbn [fl modify_fl SET_fl CF SET_AF];
    (destruct ((0x99 <? _) || _); [|destruct (0x9f <? _)]);
    rewrite !GET_AL_fl, (proj1 (SET_AL_get _ _)), ?u8_idem, ?Hal; reflexivity.
Qed.

(** Checking a statement on two decimal numbers and a carry by running it. *)
Definition all_bcd (P : Z -> Z -> Z -> bool) : bool :=
  forallb (fun x => forallb (fun y => P (Z.of_nat x) (Z.of_nat y) 0 && P (Z.of_nat x) (Z.of_nat y) 1)
                      (seq 0 100)) (seq 0 100).

Lemma all_bcd_spec P x y k :
  all_bcd P = true -> 0 <= x < 100 -> 0 <= y < 100 -> 0 <= k <= 1 -> P x y k = true.
Proof.
  intros HP Hx Hy Hk. unfold all_bcd in HP. rewrite forallb_forall in HP.
  specialize (HP (Z.to_nat x) ltac:(apply in_seq; lia)). rewrite forallb_forall in HP.
  specialize (HP (Z.to_nat y) ltac:(apply in_seq; lia)). rewrite !Z2Nat.id in HP by lia.
  apply andb_true_iff in HP as [H0 H1]. assert (k = 0 \/ k = 1) as [-> | ->] by lia; assumption.
Qed.

Lemma bcd_range x : 0 <= x < 100 -> 0 <= bcd x < 2 ^ 8.
Proof. intros Hx. unfold bcd. pose proof (Z_div_mod_eq_full x 10). pose proof (Z.mod_pos_bound x 10 ltac:(lia)). lia. Qed.

(** The last step of AAA and AAS: keep the low digit of AL. *)
Lemma low_digit d g :
  GET_AL (modify_fl g (SET_AL (GET_AL d .& 0xf) d)) = GET_AL d .& 0xf
  /\ GET_AH (modify_fl g (SET_AL (GET_AL d .& 0xf) d)) = GET_AH d.
Proof.
  split; [|apply (proj2 (SET_AL_get d _))].
  rewrite GET_AL_fl, (proj1 (SET_AL_get _ _)). apply u8_small.
  change 0xf with (2 ^ 4 - 1). rewrite land_mask by lia.
  pose proof (Z.mod_pos_bound (GET_AL d) (2 ^ 4)). lia.
Qed.

(** AAA and AAS on AL, AH and AF: the new AL and AH. *)
Lemma AAA_parts c :
  let adj := (9 <? GET_AL c .& 0xf) || negb (AF (fl c) =? 0) in
  GET_AL (AAA c) = (if adj then (u8 (GET_AL c + 6)) .& 0xf else GET_AL c .& 0xf)
  /\ GET_AH (AAA c) = (if adj then u8 (GET_AH c + (GET_AL c + 6) / 2 ^ 8 + 1) else GET_AH c)
  /\ CF (fl (AAA c)) = Z.b2z adj /\ AF (fl (AAA c)) = Z.b2z adj.
Proof.
  intros adj. unfold AAA. fold adj.
  rewrite (proj1 (low_digit _ _)), (proj2 (low_digit _ _)). destruct adj; [|repeat split].
  set (c1 := SET_AX (GET_AX c + 6) c).
  change (GET_AL (modify_fl _ ?d)) with (GET_AL d). change (GET_AH (modify_fl _ ?d)) with (GET_AH d).
  rewrite (proj1 (SET_AH_get c1 _)), (proj2 (SET_AH_get c1 _)).
  destruct (SET_AX_bytes c (GET_AX c + 6)) as [E1 E2]. fold c1 in E1, E2. rewrite E1, E2, (AX_parts c).
  replace (GET_AH c * 2 ^ 8 + GET_AL c + 6) with (GET_AL c + 6 + GET_AH c * 2 ^ 8) by lia.
  repeat split; [f_equal; unfold u8; apply Z_mod_plus_full|].
  rewrite Z.div_add by lia. unfold u8. rewrite Zplus_mod_idemp_l. f_equal. lia.
Qed.

Lemma AAS_parts c :
  let adj := (9 <? GET_AL c .& 0xf) || negb (AF (fl c) =? 0) in
  GET_AL (AAS c) = (if adj then (u8 (GET_AL c - 6)) .& 0xf else GET_AL c .& 0xf)
  /\ GET_AH (AAS c) = (if adj then u8 (GET_AH c + (GET_AL c - 6) / 2 ^ 8 - 1) else GET_AH c)
  /\ CF (fl (AAS c)) = Z.b2z adj /\ AF (fl (AAS c)) = Z.b2z adj.
Proof.
  intros adj. unfold AAS. fold adj.
  rewrite (proj1 (low_digit _ _)), (proj2 (low_digit _ _)). destruct adj; [|repeat split].
  set (c1 := SET_AX (GET_AX c - 6) c).
  change (GET_AL (modify_fl _ ?d)) with (GET_AL d). change (GET_AH (modify_fl _ ?d)) with (GET_AH d).
  rewrite (proj1 (SET_AH_get c1 _)), (proj2 (SET_AH_get c1 _)).
  destruct (SET_AX_bytes c (GET_AX c - 6)) as [E1 E2]. fold c1 in E1, E2. rewrite E1, E2, (AX_parts c).
  replace (GET_AH c * 2 ^ 8 + GET_AL c - 6) with (GET_AL c - 6 + GET_AH c * 2 ^ 8) by lia.
  repeat split; [f_equal; unfold u8; apply Z_mod_plus_full|].
  rewrite Z.div_add by lia. unfold u8. rewrite Zminus_mod_idemp_l. f_equal. lia.
Qed.

(** The adjustment of two digits, by running it. *)
Definition aaa_ok (x y : Z) : bool :=
  let r := (x + y) mod 2 ^ 8 in
  let adj := (9 <? r .& 0xf) || negb ((x mod 16 + y mod 16 + 0) / 16 =? 0) in
  bool_decide ((if adj then u8 (r + 6) .& 0xf else r .& 0xf) = (x + y) mod 10)
  && bool_decide (Z.b2z adj = (x + y) / 10) && bool_decide ((r + 6) / 2 ^ 8 = 0).

Definition aas_ok (x y : Z) : bool :=
  let r := (x - y) mod 2 ^ 8 in
  let adj := (9 <? r .& 0xf) || negb (Z.b2z (x mod 16 <? y mod 16 + 0) =? 0) in
  bool_decide ((if adj then u8 (r - 6) .& 0xf else r .& 0xf) = (x - y) mod 10)
  && bool_decide (Z.b2z adj = Z.b2z (x <? y))
  && bool_decide ((if adj then (r - 6) / 2 ^ 8 else 0) = 0).

Lemma digits_ok x y : 0 <= x < 10 -> 0 <= y < 10 -> aaa_ok x y = true /\ aas_ok x y = true.
Proof.
  intros Hx Hy.
  assert (HP : all_bcd (fun x y _ => negb ((x <? 10) && (y <? 10)) || (aaa_ok x y && aas_ok x y)) = true)
    by (vm_compute; reflexivity).
  pose proof (all_bcd_spec _ x y 0 HP ltac:(lia) ltac:(lia) ltac:(lia)) as HR. cbv beta in HR.
  rewrite (proj2 (Z.ltb_lt x 10)), (proj2 (Z.ltb_lt y 10)) in HR by lia.
  apply andb_true_iff, HR.
Qed.

Lemma aaa_digits x y f c :
  0 <= x < 10 -> 0 <= y < 10 ->
  let '(r, f1) := ADD x y 8 f in
  let c1 := AAA (SET_fl f1 (SET_AL r c)) in
  GET_AL c1 = (x + y) mod 10 /\ GET_AH c1 = u8 (GET_AH c + (x + y) / 10)
  /\ CF (fl c1) = (x + y) / 10 /\ AF (fl c1) = (x + y) / 10.
Proof.
  intros Hx Hy. rewrite ADD_eq by (unfold op_size; lia). unfold add_spec. rewrite (Z.add_0_r (x + y)).
  set (f1 := SET_AF _ _).
  pose proof (AAA_parts (SET_fl f1 (SET_AL ((x + y) mod 2 ^ 8) c))) as HP.
  change (GET_AL (SET_fl f1 ?d)) with (GET_AL d) in HP. change (GET_AH (SET_fl f1 ?d)) with (GET_AH d) in HP.
  rewrite (proj1 (SET_AL_get c _)), (proj2 (SET_AL_get c _)) in HP. unfold u8 at 1 2 3 4 5 6 in HP.
  rewrite Z.mod_mod in HP by lia.
  change (AF (fl (SET_fl f1 ?d))) with ((x mod 16 + y mod 16 + 0) / 16) in HP.
  destruct (digits_ok x y Hx Hy) as [HO _]. unfold aaa_ok in HO.
  rewrite !andb_true_iff, !bool_decide_eq_true in HO. destruct HO as ((HO1 & HO2) & HO3).
  destruct ((9 <? _) || _) in HP, HO1, HO2; rewrite <- HO2; destruct HP as (-> & -> & -> & ->);
    rewrite <- HO1, ?HO3; repeat split; try reflexivity.
  - unfold u8. f_equal. cbn [Z.b2z]. lia.
  - rewrite Z.add_0_r. symmetry. apply u8_small, AH_range.
Qed.

Lemma aas_digits x y f c :
  0 <= x < 10 -> 0 <= y < 10 ->
  let '(r, f1) := SUB x y 8 f in
  let c1 := AAS (SET_fl f1 (SET_AL r c)) in
  GET_AL c1 = (x - y) mod 10 /\ GET_AH c1 = u8 (GET_AH c - Z.b2z (x <? y))
  /\ CF (fl c1) = Z.b2z (x <? y) /\ AF (fl c1) = Z.b2z (x <? y).
Proof.
  intros Hx Hy. rewrite SUB_eq by (unfold op_size; lia). unfold sub_spec. rewrite (Z.sub_0_r (x - y)).
  set (f1 := SET_AF _ _).
  pose proof (AAS_parts (SET_fl f1 (SET_AL ((x - y) mod 2 ^ 8) c))) as HP.
  change (GET_AL (SET_fl f1 ?d)) with (GET_AL d) in HP. change (GET_AH (SET_fl f1 ?d)) with (GET_AH d) in HP.
  rewrite (proj1 (SET_AL_get c _)), (proj2 (SET_AL_get c _)) in HP. unfold u8 at 1 2 3 4 5 6 in HP.
  rewrite Z.mod_mod in HP by lia.
  change (AF (fl (SET_fl f1 ?d))) with (Z.b2z (x mod 16 <? y mod 16 + 0)) in HP.
  destruct (digits_ok x y Hx Hy) as [_ HO]. unfold aas_ok in HO.
  rewrite !andb_true_iff, !bool_decide_eq_true in HO. destruct HO as ((HO1 & HO2) & HO3).
  destruct ((9 <? _) || _) in HP, HO1, HO2, HO3; rewrite <- HO2; destruct HP as (-> & -> & -> & ->);
    rewrite <- HO1, ?HO3; repeat split; try reflexivity.
  - unfold u8. f_equal. cbn [Z.b2z]. lia.
  - rewrite Z.sub_0_r. symmetry. apply u8_small, AH_range.
Qed.

(** AAM then AAD in the same base. *)
Lemma aam_aad base (c : cpu) :
  0 < base < 2 ^ 8 ->
  exists c1, AAM base c = Ret tt c1 /\ GET_AL (AAD base c1) = GET_AL c /\ GET_AH (AAD base c1) = 0.
Proof.
  intros Hb. unfold AAM. rewrite when_Int0, (proj2 (Z.eqb_neq base 0)) by lia.
  unfold bind, modc, modify, getc, gets. cbn [the_cpu put_cpu HasCpu_cpu].
  set (c1 := SET_AL _ _). eexists. split; [reflexivity|].
  pose proof (AL_range c) as HL.
  assert (Hq : 0 <= GET_AL c / base < 2 ^ 8) by (apply quot_bound; lia).
  assert (Hm : 0 <= GET_AL c mod base < base) by (apply Z.mod_pos_bound; lia).
  assert (H1 : GET_AL (SET_AH (GET_AL c / base) c) = GET_AL c) by apply SET_AH_get.
  assert (EL : GET_AL c1 = GET_AL c mod base).
  { unfold c1. rewrite H1, (proj1 (SET_AL_get _ _)). apply u8_small. lia. }
  assert (EH : GET_AH c1 = GET_AL c / base).
  { unfold c1. rewrite (proj2 (SET_AL_get _ _)), (proj2 (SET_AH_get _ _)). apply u8_small. lia. }
  unfold AAD. rewrite ?GET_AH_fl, ?GET_AL_fl, (proj1 (SET_AH_get _ _)), (proj2 (SET_AH_get _ _)).
  rewrite (proj1 (SET_AL_get _ _)), ?GET_AH_fl, ?GET_AL_fl.
  rewrite EL, EH. split; [|reflexivity].
  replace (GET_AL c / base * base + GET_AL c mod base) with (GET_AL c)
    by (pose proof (Z_div_mod_eq_full (GET_AL c) base); lia).
  rewrite u32_small, u8_idem by lia. apply u8_small. exact HL.
Qed.

(** ** Theorems *)

(** Packed decimal arithmetic: ADC followed by DAA adds, and SBB followed by
    DAS subtracts, two-digit packed decimal numbers with carry; AL holds the
    decimal result modulo 100 and CF the decimal carry or borrow. *)
Theorem packed_decimal x y f c :
  0 <= x < 100 -> 0 <= y < 100 -> 0 <= CF f <= 1 ->
  (let '(r, f1) := ADC (bcd x) (bcd y) 8 f in
   let c1 := DAA (SET_fl f1 (SET_AL r c)) in
   GET_AL c1 = bcd ((x + y + CF f) mod 100) /\ CF (fl c1) = (x + y + CF f) / 100)
  /\ (let '(r, f1) := SBB (bcd x) (bcd y) 8 f in
       let c1 := DAS (SET_fl f1 (SET_AL r c)) in
       GET_AL c1 = bcd ((x - y - CF f) mod 100) /\ CF (fl c1) = Z.b2z (x <? y + CF f)).
Proof.
  intros Hx Hy Hc. assert (H8 : op_size 8) by (left; reflexivity).
  rewrite ADC_eq, SBB_eq by (try apply bcd_range; assumption).
  unfold add_spec, sub_spec. set (k := CF f) in *. clearbody k.
  set (P := fun x y k => let a := bcd x in let b := bcd y in
    bool_decide (daa_fun ((a + b + k) mod 2 ^ 8) ((a mod 16 + b mod 16 + k) / 16) ((a + b + k) / 2 ^ 8)
                 = (bcd ((x + y + k) mod 100), (x + y + k) / 100))
    && bool_decide (das_fun ((a - b - k) mod 2 ^ 8) (Z.b2z (a mod 16 <? b mod 16 + k)) (Z.b2z (a <? b + k))
                 = (bcd ((x - y - k) mod 100), Z.b2z (x <? y + k)))).
  assert (HP : all_bcd P = true) by (vm_compute; reflexivity).
  pose proof (all_bcd_spec P x y k HP Hx Hy Hc) as HR.
  unfold P in HR. rewrite andb_true_iff, !bool_decide_eq_true in HR. destruct HR as [HA HS].
  assert (HAL : forall r g, 0 <= r < 2 ^ 8 -> GET_AL (SET_fl g (SET_AL r c)) = r).
  { intros r g Hr. change (GET_AL (SET_fl g ?d)) with (GET_AL d).
    rewrite (proj1 (SET_AL_get c r)). apply u8_small, Hr. }
  set (FA := SET_AF _ _). set (FS := SET_AF _ _).
  pose proof (DAA_fun (SET_fl FA (SET_AL ((bcd x + bcd y + k) mod 2 ^ 8) c))) as EA.
  pose proof (DAS_fun (SET_fl FS (SET_AL ((bcd x - bcd y - k) mod 2 ^ 8) c))) as ES.
  rewrite HAL in EA, ES by (apply Z.mod_pos_bound; lia).
  unfold FA in EA at 3 4. unfold FS in ES at 3 4.
  cbn [fl SET_fl AF CF SET_AF SET_CF SET_OF result_flags] in EA, ES.
  rewrite HA in EA. rewrite HS in ES. injection EA as -> ->. injection ES as -> ->. auto.
Qed.

Lemma packed_decimal_witness :
  let '(r, f1) := ADC (bcd 58) (bcd 67) 8 flags0 in
  GET_AL (DAA (SET_fl f1 (SET_AL r cpu0))) = 0x25.
Proof.
  refine (proj1 (proj1 (packed_decimal 58 67 flags0 cpu0 _ _ _)));
    vm_compute; split; congruence.
Defined.

(** Unpacked decimal arithmetic: AAA after ADD and AAS after SUB of two
    digits leave the digit of the result in AL, carry into or borrow from AH (with
    AH wrapping around) and set CF and AF to the carry.  AAM splits AL in any
    nonzero base (a zero base is a divide error) and AAD in the same base joins it
    again. *)
Theorem unpacked_decimal x y base f c :
  0 <= x < 10 -> 0 <= y < 10 -> 0 < base < 2 ^ 8 ->
  (let '(r, f1) := ADD x y 8 f in
   let c1 := AAA (SET_fl f1 (SET_AL r c)) in
   GET_AL c1 = (x + y) mod 10 /\ GET_AH c1 = u8 (GET_AH c + (x + y) / 10)
   /\ CF (fl c1) = (x + y) / 10 /\ AF (fl c1) = (x + y) / 10)
  /\ (let '(r, f1) := SUB x y 8 f in
       let c1 := AAS (SET_fl f1 (SET_AL r c)) in
       GET_AL c1 = (x - y) mod 10 /\ GET_AH c1 = u8 (GET_AH c - Z.b2z (x <? y))
       /\ CF (fl c1) = Z.b2z (x <? y) /\ AF (fl c1) = Z.b2z (x <? y))
  /\ AAM 0 c = Int0 c
  /\ (exists c1, AAM base c = Ret tt c1 /\ GET_AL (AAD base c1) = GET_AL c /\ GET_AH (AAD base c1) = 0).
Proof.
  intros Hx Hy Hb. split; [apply aaa_digits; assumption|].
  split; [apply aas_digits; assumption|]. split; [|apply aam_aad; assumption].
  unfold AAM. rewrite when_Int0. reflexivity.
Qed.

Lemma unpacked_decimal_witness : exists c1, AAM 10 (SET_AL 123 cpu0) = Ret tt c1
  /\ GET_AL (AAD 10 c1) = 123 /\ GET_AH (AAD 10 c1) = 0.
Proof.
  refine (proj2 (proj2 (proj2 (unpacked_decimal 1 2 10 flags0 (SET_AL 123 cpu0) _ _ _))));
    vm_compute; split; congruence.
Defined.

(** The flags SAHF takes from a byte, put back together the way LAHF does. *)
Definition ahf_byte (t : Z) : Z :=
  (nz (t .& BIT_MASK 7) .<< 7) .| (nz (t .& BIT_MASK 6) .<< 6) .| (nz (t .& BIT_MASK 4) .<< 4)
  .| (nz (t .& BIT_MASK 2) .<< 2) .| nz (t .& BIT_MASK 0) .| 0x2.

Lemma ahf_byte_spec t : 0 <= t < 2 ^ 8 -> u8 (ahf_byte t) = (t .& 0xd5) .| 2.
Proof.
  intros Ht.
  assert (HF : forallb (fun n => u8 (ahf_byte (Z.of_nat n)) =? (Z.of_nat n .& 0xd5) .| 2) (seq 0 256) = true)
    by (vm_compute; reflexivity).
  rewrite forallb_forall in HF. specialize (HF (Z.to_nat t) ltac:(apply in_seq; lia)).
  rewrite Z2Nat.id, Z.eqb_eq in HF by lia. exact HF.
Qed.

Definition bit (x : Z) : Prop := x = 0 \/ x = 1.

(** LAHF and SAHF carry the low flag byte: SAHF after LAHF restores every
    flag, and LAHF after SAHF gives back AH with the reserved bits fixed (bit 1
    set, bits 3 and 5 clear). *)
Theorem lahf_sahf c :
  bit (SF (fl c)) -> bit (ZF (fl c)) -> bit (AF (fl c)) -> bit (PF (fl c)) -> bit (CF (fl c)) ->
  fl (SAHF (LAHF c)) = fl c /\ GET_AH (LAHF (SAHF c)) = (GET_AH c .& 0xd5) .| 2.
Proof.
  intros Hs Hz Ha Hp Hc. split.
  - assert (EH : GET_AH (LAHF c) = u8 ((SF (fl c) .<< 7) .| (ZF (fl c) .<< 6) .| (AF (fl c) .<< 4)
      .| (PF (fl c) .<< 2) .| CF (fl c) .| 0x2)) by apply SET_AH_get.
    unfold SAHF. rewrite EH. cbn [fl modify_fl SET_fl].
    change (fl (LAHF c)) with (fl c). destruct (fl c) as [cf pf0 af zf sf]. cbn in *.
    destruct Hs as [-> | ->], Hz as [-> | ->], Ha as [-> | ->], Hp as [-> | ->], Hc as [-> | ->];
      reflexivity.
  - assert (EH : GET_AH (LAHF (SAHF c)) = u8 (ahf_byte (GET_AH c))) by apply SET_AH_get.
    rewrite EH. apply ahf_byte_spec, AH_range.
Qed.

Lemma lahf_sahf_witness : GET_AH (LAHF (SAHF (SET_AH 0xff cpu0))) = 0xd7.
Proof. refine (proj2 (lahf_sahf (SET_AH 0xff cpu0) _ _ _ _ _)); left; reflexivity. Defined.

Lemma sgn_mod_wide sz w x :
  op_size sz -> sz <= w -> 0 <= x < 2 ^ sz ->
  sgn sz x mod 2 ^ w = if 2 ^ (sz - 1) <=? x then x + 2 ^ w - 2 ^ sz else x.
Proof.
  intros Hs Hw Hx. destruct (operand_facts sz Hs) as (Hz & Hh & Hp).
  assert (2 ^ sz <= 2 ^ w) by (apply Z.pow_le_mono_r; lia).
  rewrite (sgn_half sz Hs) by assumption. destruct (Z.leb_spec (2 ^ (sz - 1)) x).
  - symmetry. apply Z.mod_unique with (-1); lia.
  - apply Z.mod_small; lia.
Qed.

Lemma tst_msb x sz : op_size sz -> 0 <= x < 2 ^ sz -> tst x (BIT_MASK (sz - 1)) = (2 ^ (sz - 1) <=? x).
Proof. intros Hs Hx. apply op_size_range in Hs. rewrite tst_bit by lia. apply msb_ge_half; lia. Qed.

(** The sign extensions: CBW, CWDE and MOVSX give the two's complement of
    the signed operand at the wider width, CWD and CDQ leave it in DX:AX and
    EDX:EAX. *)
Theorem sign_extensions c sz x :
  reg32 c -> sz = 8 \/ sz = 16 -> 0 <= x < 2 ^ sz ->
  GET_AX (CBW c) = sgn 8 (GET_AL c) mod 2 ^ 16
  /\ GET_WR A_DX (CWD c) * 2 ^ 16 + GET_AX (CWD c) = sgn 16 (GET_AX c) mod 2 ^ 32
  /\ GET_GR A_EAX (CWDE c) = sgn 16 (GET_AX c) mod 2 ^ 32
  /\ GET_GR A_EDX (CDQ c) * 2 ^ 32 + GET_GR A_EAX (CDQ c) = sgn 32 (GET_GR A_EAX c) mod 2 ^ 64
  /\ MOVSX x sz = sgn sz x mod 2 ^ 32.
Proof.
  intros Hr Hsz Hx. pose proof (AL_range c) as HL. pose proof (u16_range (GET_GR A_EAX c)) as HA.
  change (u16 (GET_GR A_EAX c)) with (GET_AX c) in HA.
  pose proof (Hr A_EAX ltac:(unfold A_EAX; lia)) as HE.
  assert (H8 : op_size 8) by (left; reflexivity). assert (H16 : op_size 16) by (right; left; reflexivity).
  assert (H32 : op_size 32) by (right; right; reflexivity).
  split; [|split; [|split; [|split]]].
  - unfold CBW, BIT7_MASK. rewrite (tst_msb _ 8), (sgn_mod_wide 8 16) by (assumption || lia).
    change (8 - 1) with 7. destruct (2 ^ 7 <=? GET_AL c); rewrite AX_parts;
      destruct (SET_AH_get c 0xff) as [E1 E2], (SET_AH_get c 0) as [E3 E4];
      rewrite ?E1, ?E2, ?E3, ?E4; change (u8 0xff) with 0xff; change (u8 0) with 0; lia.
  - unfold CWD, BIT15_MASK. rewrite (tst_msb _ 16), (sgn_mod_wide 16 32) by (assumption || lia).
    change (16 - 1) with 15. destruct (2 ^ 15 <=? GET_AX c).
    + rewrite (proj1 (GET_SET_WR A_DX 0xffff c ltac:(unfold A_DX; lia))).
      change (GET_AX (SET_WR A_DX _ c)) with (GET_AX c).
      change (u16 0xffff) with 0xffff || change (u16 0) with 0. lia.
    + rewrite (proj1 (GET_SET_WR A_DX 0 c ltac:(unfold A_DX; lia))).
      change (GET_AX (SET_WR A_DX _ c)) with (GET_AX c).
      change (u16 0xffff) with 0xffff || change (u16 0) with 0. lia.
  - unfold CWDE, BIT15_MASK. rewrite GET_SET_GR, Z.eqb_refl by (unfold A_EAX; lia).
    change 0xffff0000 with (not32 (2 ^ 16 - 1)). apply (sign_extend 16); auto.
  - unfold CDQ, BIT31_MASK. rewrite (tst_msb _ 32), (sgn_mod_wide 32 64) by (assumption || lia).
    change (32 - 1) with 31. destruct (2 ^ 31 <=? GET_GR A_EAX c);
      rewrite !GET_SET_GR by (unfold A_EAX, A_EDX; lia); cbn [Z.eqb A_EAX A_EDX Pos.eqb]; lia.
  - assert (Hs : op_size sz) by (unfold op_size; lia). unfold MOVSX.
    rewrite (Z.land_comm (SZ2MSB sz)), (SZ2MSB_pow sz Hs), (SZ2MASK_ones sz Hs), Z.ones_equiv.
    apply (sign_extend sz); assumption.
Qed.

Lemma sign_extensions_witness : MOVSX 0x80 8 = 0xffffff80.
Proof.
  refine (proj2 (proj2 (proj2 (proj2 (sign_extensions cpu0 8 0x80 _ _ _)))));
    [|left; reflexivity | split; vm_compute; congruence].
  intros i Hi. reg_cases i; vm_compute; split; congruence.
Defined.

End Decimal.
