(* ===== verification/Flow.v ===== *)
(** * Jumps on conditions, condition bytes and loops

    [jxx.c], [setxx.c], [loopxx.c], [jcxz.c] and [update_relative_ip] of
    [c_xfer.c].  Of the limit checks of [update_relative_ip] none is compiled in:
    the build defines neither [TAKE_REAL_MODE_LIMIT_FAULT] nor
    [TAKE_PROT_MODE_LIMIT_FAILURE]. *)

From S2P Require Import Prelude Cpu Arith Shift.

Module Flow.
Import Arith Shift.

Definition update_relative_ip (rel_offset : Z) (c : cpu) : cpu :=
  let new_dest := u32 (ip c + rel_offset) in
  let new_dest := if operand_size c =? USE16 then new_dest .& WORD_MASK else new_dest in
  SET_took_relative_jump true (SET_ip new_dest c).

(** ** Conditional jumps *)

Definition JB (rel_offset : Z) (c : cpu) : cpu :=
  let f := fl c in if negb (CF f =? 0) then update_relative_ip rel_offset c else c.
Definition JBE (rel_offset : Z) (c : cpu) : cpu :=
  let f := fl c in if negb (CF f =? 0) || negb (ZF f =? 0) then update_relative_ip rel_offset c else c.
Definition JL (rel_offset : Z) (c : cpu) : cpu :=
  let f := fl c in if negb (SF f =? OF f) then update_relative_ip rel_offset c else c.
Definition JLE (rel_offset : Z) (c : cpu) : cpu :=
  let f := fl c in if negb (SF f =? OF f) || negb (ZF f =? 0) then update_relative_ip rel_offset c else c.
Definition JNB (rel_offset : Z) (c : cpu) : cpu :=
  let f := fl c in if CF f =? 0 then update_relative_ip rel_offset c else c.
Definition JNBE (rel_offset : Z) (c : cpu) : cpu :=
  let f := fl c in if (CF f =? 0) && (ZF f =? 0) then update_relative_ip rel_offset c else c.
Definition JNL (rel_offset : Z) (c : cpu) : cpu :=
  let f := fl c in if SF f =? OF f then update_relative_ip rel_offset c else c.
Definition JNLE (rel_offset : Z) (c : cpu) : cpu :=
  let f := fl c in if (SF f =? OF f) && (ZF f =? 0) then update_relative_ip rel_offset c else c.
Definition JNO (rel_offset : Z) (c : cpu) : cpu :=
  let f := fl c in if OF f =? 0 then update_relative_ip rel_offset c else c.
Definition JNP (rel_offset : Z) (c : cpu) : cpu :=
  let f := fl c in if PF f =? 0 then update_relative_ip rel_offset c else c.
Definition JNS (rel_offset : Z) (c : cpu) : cpu :=
  let f := fl c in if SF f =? 0 then update_relative_ip rel_offset c else c.
Definition JNZ (rel_offset : Z) (c : cpu) : cpu :=
  let f := fl c in if ZF f =? 0 then update_relative_ip rel_offset c else c.
Definition JO (rel_offset : Z) (c : cpu) : cpu :=
  let f := fl c in if negb (OF f =? 0) then update_relative_ip rel_offset c else c.
Definition JP (rel_offset : Z) (c : cpu) : cpu :=
  let f := fl c in if negb (PF f =? 0) then update_relative_ip rel_offset c else c.
Definition JS (rel_offset : Z) (c : cpu) : cpu :=
  let f := fl c in if negb (SF f =? 0) then update_relative_ip rel_offset c else c.
Definition JZ (rel_offset : Z) (c : cpu) : cpu :=
  let f := fl c in if negb (ZF f =? 0) then update_relative_ip rel_offset c else c.

(** ** Condition bytes: the value stored in the byte operand *)

Definition SETB (f : FLAGS) : Z := CF f.
Definition SETBE (f : FLAGS) : Z := Z.b2z (negb (CF f =? 0) || negb (ZF f =? 0)).
Definition SETL (f : FLAGS) : Z := Z.b2z (negb (SF f =? OF f)).
Definition SETLE (f : FLAGS) : Z := Z.b2z (negb (SF f =? OF f) || negb (ZF f =? 0)).
Definition SETNB (f : FLAGS) : Z := Z.b2z (CF f =? 0).
Definition SETNBE (f : FLAGS) : Z := Z.b2z ((CF f =? 0) && (ZF f =? 0)).
Definition SETNL (f : FLAGS) : Z := Z.b2z (SF f =? OF f).
Definition SETNLE (f : FLAGS) : Z := Z.b2z ((SF f =? OF f) && (ZF f =? 0)).
Definition SETNO (f : FLAGS) : Z := Z.b2z (OF f =? 0).
Definition SETNP (f : FLAGS) : Z := Z.b2z (PF f =? 0).
Definition SETNS (f : FLAGS) : Z := Z.b2z (SF f =? 0).
Definition SETNZ (f : FLAGS) : Z := Z.b2z (ZF f =? 0).
Definition SETO (f : FLAGS) : Z := OF f.
Definition SETP (f : FLAGS) : Z := PF f.
Definition SETS (f : FLAGS) : Z := SF f.
Definition SETZ (f : FLAGS) : Z := ZF f.

(** ** Loops *)

Definition LOOP16 (rel_offset : Z) (c : cpu) : cpu :=
  let c := SET_WR A_CX (u32 (GET_WR A_CX c - 1)) c in
  if negb (GET_WR A_CX c =? 0) then update_relative_ip rel_offset c else c.
Definition LOOP32 (rel_offset : Z) (c : cpu) : cpu :=
  let c := SET_GR A_ECX (u32 (GET_GR A_ECX c - 1)) c in
  if negb (GET_GR A_ECX c =? 0) then update_relative_ip rel_offset c else c.
Definition LOOPE16 (rel_offset : Z) (c : cpu) : cpu :=
  let c := SET_WR A_CX (u32 (GET_WR A_CX c - 1)) c in
  if negb (GET_WR A_CX c =? 0) && negb (ZF (fl c) =? 0) then update_relative_ip rel_offset c else c.
Definition LOOPE32 (rel_offset : Z) (c : cpu) : cpu :=
  let c := SET_GR A_ECX (u32 (GET_GR A_ECX c - 1)) c in
  if negb (GET_GR A_ECX c =? 0) && negb (ZF (fl c) =? 0) then update_relative_ip rel_offset c else c.
Definition LOOPNE16 (rel_offset : Z) (c : cpu) : cpu :=
  let c := SET_WR A_CX (u32 (GET_WR A_CX c - 1)) c in
  if negb (GET_WR A_CX c =? 0) && (ZF (fl c) =? 0) then update_relative_ip rel_offset c else c.
Definition LOOPNE32 (rel_offset : Z) (c : cpu) : cpu :=
  let c := SET_GR A_ECX (u32 (GET_GR A_ECX c - 1)) c in
  if negb (GET_GR A_ECX c =? 0) && (ZF (fl c) =? 0) then update_relative_ip rel_offset c else c.

Definition JCXZ (rel_offset : Z) (c : cpu) : cpu :=
  if GET_WR A_CX c =? 0 then update_relative_ip rel_offset c else c.
Definition JECXZ (rel_offset : Z) (c : cpu) : cpu :=
  if GET_GR A_ECX c =? 0 then update_relative_ip rel_offset c else c.

(** ** The sixteen conditions *)

Inductive cc := | CB | CBE | CL | CLE | CNB | CNBE | CNL | CNLE | CNO | CNP | CNS | CNZ | CO | CP | CS | CZ.

Definition jcc (k : cc) : Z -> cpu -> cpu :=
  match k with
  | CB => JB | CBE => JBE | CL => JL | CLE => JLE | CNB => JNB | CNBE => JNBE | CNL => JNL | CNLE => JNLE | CNO => JNO | CNP => JNP | CNS => JNS | CNZ => JNZ | CO => JO | CP => JP | CS => JS | CZ => JZ
  end.

Definition setcc (k : cc) : FLAGS -> Z :=
  match k with
  | CB => SETB | CBE => SETBE | CL => SETL | CLE => SETLE | CNB => SETNB | CNBE => SETNBE | CNL => SETNL | CNLE => SETNLE | CNO => SETNO | CNP => SETNP | CNS => SETNS | CNZ => SETNZ | CO => SETO | CP => SETP | CS => SETS | CZ => SETZ
  end.

(** What a condition says of the operands of a comparison. *)
Definition holds (k : cc) (sz a b : Z) : bool :=
  let r := (a - b) mod 2 ^ sz in
  let lt := sgn sz a <? sgn sz b in
  let ov := negb (fits sz (sgn sz a - sgn sz b)) in
  match k with
  | CB => a <? b | CNB => negb (a <? b)
  | CBE => (a <? b) || (a =? b) | CNBE => negb (a <? b) && negb (a =? b)
  | CL => lt | CNL => negb lt
  | CLE => lt || (a =? b) | CNLE => negb lt && negb (a =? b)
  | CZ => a =? b | CNZ => negb (a =? b)
  | CS => sgn sz r <? 0 | CNS => negb (sgn sz r <? 0)
  | CO => ov | CNO => negb ov
  | CP => negb (parity8 r =? 0) | CNP => parity8 r =? 0
  end.

Lemma diff_zero sz a b :
  op_size sz -> 0 <= a < 2 ^ sz -> 0 <= b < 2 ^ sz -> ((a - b) mod 2 ^ sz =? 0) = (a =? b).
Proof.
  intros Hs Ha Hb. replace (a - b) with (a - b - 0) by lia. rewrite diff_mod by lia.
  apply eq_true_iff_eq. rewrite !Z.eqb_eq. destruct (Z.ltb_spec a (b + 0)); lia.
Qed.

(** SF differs from OF exactly when the signed comparison says less. *)
Lemma less_flags sz a b :
  op_size sz -> 0 <= a < 2 ^ sz -> 0 <= b < 2 ^ sz ->
  (Z.b2z (sgn sz ((a - b) mod 2 ^ sz) <? 0) =? Z.b2z (negb (fits sz (sgn sz a - sgn sz b))))
  = negb (sgn sz a <? sgn sz b).
Proof.
  intros Hs Ha Hb. destruct (operand_facts sz Hs) as (Hz & Hh & Hp).
  assert (Hr : 0 <= (a - b) mod 2 ^ sz < 2 ^ sz) by (apply Z.mod_pos_bound; lia).
  rewrite (sgn_lt0 sz Hs) by exact Hr. unfold fits. rewrite !(sgn_half sz Hs) by assumption.
  replace (a - b) with (a - b - 0) by lia. rewrite diff_mod, Z.sub_0_r, Z.add_0_r, Hp by lia.
  destruct (Z.ltb_spec a b), (Z.leb_spec (2 ^ (sz - 1)) a), (Z.leb_spec (2 ^ (sz - 1)) b);
    split_leb; try reflexivity; lia.
Qed.

Lemma b2z_eq0 b : (Z.b2z b =? 0) = negb b.
Proof. destruct b; reflexivity. Qed.

Lemma parity8_b2z r : parity8 r = Z.b2z (negb (parity8 r =? 0)).
Proof. unfold parity8. rewrite b2z_eq0. destruct (fold_right _ _ _); reflexivity. Qed.

Lemma cmp_flags sz a b f :
  op_size sz -> 0 <= a < 2 ^ sz -> 0 <= b < 2 ^ sz ->
  let g := CMP a b sz f in
  let r := (a - b) mod 2 ^ sz in
  CF g = Z.b2z (a <? b) /\ ZF g = Z.b2z (a =? b) /\ SF g = Z.b2z (sgn sz r <? 0)
  /\ OF g = Z.b2z (negb (fits sz (sgn sz a - sgn sz b))) /\ PF g = parity8 r
  /\ (SF g =? OF g) = negb (sgn sz a <? sgn sz b).
Proof.
  intros Hs Ha Hb g r. unfold g, r. rewrite CMP_SUB, SUB_eq by assumption.
  pose proof (less_flags sz a b Hs Ha Hb) as HL. rewrite <- (diff_zero sz a b Hs Ha Hb).
  unfold sub_spec, result_flags. rewrite !Z.sub_0_r, !Z.add_0_r. cbn [snd CF ZF SF OF PF
    SET_AF SET_CF SET_OF SET_SF SET_ZF SET_PF]. repeat split. exact HL.
Qed.

Lemma jcc_setcc k rel c :
  jcc k rel c = if setcc k (fl c) =? 0 then c else update_relative_ip rel c.
Proof.
  destruct k; unfold jcc, setcc;
    unfold JB, JBE, JL, JLE, JNB, JNBE, JNL, JNLE, JNO, JNP, JNS, JNZ, JO, JP, JS, JZ,
      SETB, SETBE, SETL, SETLE, SETNB, SETNBE, SETNL, SETNLE, SETNO, SETNP, SETNS, SETNZ,
      SETO, SETP, SETS, SETZ; rewrite ?b2z_eq0;
    repeat match goal with |- context [?x =? ?y] => destruct (x =? y) end; reflexivity.
Qed.

Lemma setcc_cmp k sz a b f :
  op_size sz -> 0 <= a < 2 ^ sz -> 0 <= b < 2 ^ sz ->
  setcc k (CMP a b sz f) = Z.b2z (holds k sz a b).
Proof.
  intros Hs Ha Hb. destruct (cmp_flags sz a b f Hs Ha Hb) as (EC & EZ & ES & EO & EP & EL).
  destruct k; unfold setcc, holds;
    unfold SETB, SETBE, SETL, SETLE, SETNB, SETNBE, SETNL, SETNLE, SETNO, SETNP, SETNS, SETNZ,
      SETO, SETP, SETS, SETZ; rewrite ?EL, ?EC, ?EZ, ?ES, ?EO, ?EP, ?b2z_eq0, ?negb_involutive;
    try reflexivity. apply parity8_b2z.
Qed.

(** ** Loops *)

Section LoopRun.
Context (body : cpu -> cpu) (rel : Z).
Context (Hbody : forall c, GET_WR A_CX (body c) = GET_WR A_CX c).

(** Run a loop whose body leaves CX alone: the number of rounds and the final
    state; [None] is running out of fuel. *)
Fixpoint loop_run (fuel : nat) (c : cpu) : option (Z * cpu) :=
  match fuel with
  | O => None
  | S fuel =>
      let c := LOOP16 rel (SET_took_relative_jump false (body c)) in
      if took_relative_jump c then
        match loop_run fuel c with Some (n, c) => Some (n + 1, c) | None => None end
      else Some (1, c)
  end.

(** Rounds left: CX of them, and a full turn when CX is zero. *)
Definition rounds (cx : Z) : Z := if cx =? 0 then 2 ^ 16 else cx.

Lemma LOOP16_cx c :
  GET_WR A_CX (LOOP16 rel c) = (GET_WR A_CX c - 1) mod 2 ^ 16
  /\ (took_relative_jump c = false ->
      took_relative_jump (LOOP16 rel c) = negb ((GET_WR A_CX c - 1) mod 2 ^ 16 =? 0)).
Proof.
  unfold LOOP16.
  assert (E : GET_WR A_CX (SET_WR A_CX (u32 (GET_WR A_CX c - 1)) c) = (GET_WR A_CX c - 1) mod 2 ^ 16).
  { rewrite (proj1 (GET_SET_WR A_CX _ c ltac:(unfold A_CX; lia))). unfold u16, u32. apply mod_mod_le; lia. }
  rewrite E. destruct (_ =? 0) eqn:Ez; cbn [negb].
  - split; [exact E | intros H; exact H].
  - split; [|reflexivity].
    change (GET_WR A_CX (update_relative_ip rel ?d)) with (GET_WR A_CX d). exact E.
Qed.

Lemma loop_run_spec n : forall c fuel,
  (1 <= n)%nat -> (n <= fuel)%nat -> rounds (GET_WR A_CX c) = Z.of_nat n ->
  exists c', loop_run fuel c = Some (Z.of_nat n, c') /\ GET_WR A_CX c' = 0.
Proof using Hbody.
  induction n as [|n IH]; intros c fuel Hn Hf Hr; [lia|].
  destruct fuel as [|fuel]; [lia|]. cbn [loop_run].
  set (c0 := SET_took_relative_jump false (body c)).
  destruct (LOOP16_cx c0) as [Ecx Ej]. specialize (Ej eq_refl).
  assert (Hc0 : GET_WR A_CX c0 = GET_WR A_CX c) by apply Hbody. rewrite Hc0 in Ecx, Ej.
  pose proof (u16_range (GET_GR A_CX c)) as Hcx. fold (GET_WR A_CX c) in Hcx.
  assert (Hnext : (GET_WR A_CX c - 1) mod 2 ^ 16 = Z.of_nat n).
  { unfold rounds in Hr. destruct (Z.eqb_spec (GET_WR A_CX c) 0) as [-> | ].
    - symmetry. apply Z.mod_unique with (-1); lia.
    - rewrite Z.mod_small; lia. }
  rewrite Hnext in Ecx, Ej. rewrite Ej. destruct n as [|n].
  - cbn. eexists. split; [reflexivity | exact Ecx].
  - destruct (IH (LOOP16 rel c0) fuel) as (c' & E & Hz); [lia | lia | |].
    { unfold rounds. rewrite Ecx. destruct (Z.eqb_spec (Z.of_nat (S n)) 0); lia. }
    rewrite E. replace (negb (Z.of_nat (S n) =? 0)) with true
      by (symmetry; apply negb_true_iff, Z.eqb_neq; lia).
    exists c'. split; [do 2 f_equal; lia | exact Hz].
Qed.
End LoopRun.

(** ** Theorems *)

(** Comparison and branch agree with the integers: after CMP of two operands
    of any size, each of the sixteen conditional jumps is taken, and each
    condition byte is 1, exactly when the condition it names holds (below is the
    unsigned, less the signed order, overflow that the signed difference does not
    fit). *)
Theorem compare_and_branch k sz a b rel c :
  op_size sz -> 0 <= a < 2 ^ sz -> 0 <= b < 2 ^ sz ->
  let c1 := modify_fl (CMP a b sz) c in
  jcc k rel c1 = (if holds k sz a b then update_relative_ip rel c1 else c1)
  /\ setcc k (fl c1) = Z.b2z (holds k sz a b).
Proof.
  intros Hs Ha Hb c1.
  assert (E : setcc k (fl c1) = Z.b2z (holds k sz a b)) by (apply setcc_cmp; assumption).
  split; [|exact E]. rewrite jcc_setcc, E, b2z_eq0. destruct (holds k sz a b); reflexivity.
Qed.

Lemma compare_and_branch_witness : setcc CL (CMP 0x80 1 8 flags0) = 1.
Proof.
  refine (proj2 (compare_and_branch CL 8 0x80 1 0 cpu0 _ _ _));
    [left; reflexivity | vm_compute | vm_compute]; split; congruence.
Defined.

(** LOOP terminates: a loop whose body leaves CX alone runs exactly CX
    rounds (2^16 when it starts with CX zero) and ends with CX zero. *)
Theorem loop_terminates body rel c fuel :
  (forall d, GET_WR A_CX (body d) = GET_WR A_CX d) ->
  rounds (GET_WR A_CX c) <= Z.of_nat fuel ->
  exists c', loop_run body rel fuel c = Some (rounds (GET_WR A_CX c), c') /\ GET_WR A_CX c' = 0.
Proof.
  intros Hb Hf. pose proof (u16_range (GET_GR A_CX c)) as Hcx. fold (GET_WR A_CX c) in Hcx.
  assert (Hr : 1 <= rounds (GET_WR A_CX c)) by (unfold rounds; destruct (Z.eqb_spec (GET_WR A_CX c) 0); lia).
  destruct (loop_run_spec body rel Hb (Z.to_nat (rounds (GET_WR A_CX c))) c fuel) as (c' & E & Hz); [lia.. |].
  exists c'. rewrite Z2Nat.id in E by lia. auto.
Qed.

Lemma loop_terminates_witness :
  exists c', loop_run (fun d => d) 0 5 (SET_WR A_CX 3 cpu0) = Some (3, c') /\ GET_WR A_CX c' = 0.
Proof.
  refine (loop_terminates (fun d => d) 0 (SET_WR A_CX 3 cpu0) 5 _ _); [reflexivity|].
  vm_compute. congruence.
Defined.

End Flow.
