(* ===== verification/Mem.v ===== *)
(** * Physical memory

    The physical access routines of [ccpusas4.c]: [readSelfMod], [phyR],
    [phy_r8], [phy_r16], [phy_r32], [phy_w8], [phy_w16], [phy_w32],
    [write_word], [c_sas_PWS], [c_sas_PRS], [c_sas_connect_memory],
    [c_sas_memory_type] and the 20-bit wrapping controls.

    [M_area] is the byte array [Start_of_M_area], [memory_type] the type of each
    4K page.  The handlers of video and expanded memory are function pointers the
    devices install; they are the interface [Handlers] here, over a device state
    of their own.  What C leaves undefined (a function pointer or a type read
    beyond its array) is the outcome [Undefined]. *)

From S2P Require Import Prelude Cpu Arith Shift Xcptn MulDiv.

Module Mem.
Import Arith Shift Xcptn MulDiv.

(** [SAS_MEM_TYPE] of [sas.h]. *)
Definition SAS_RAM : Z := 0.
Definition SAS_VIDEO : Z := 1.
Definition SAS_ROM : Z := 2.
Definition SAS_WRAP : Z := 3.
Definition SAS_IO : Z := 4.
Definition SAS_MM_LIM : Z := 5.
Definition SAS_INACCESSIBLE : Z := 6.
Definition SAS_DANGEROUS : Z := 7.
Definition TYPE_RANGE : Z := SAS_INACCESSIBLE.

(** The installed handlers: the read pointers, the write pointers by memory type,
    and the notifications of expanded memory. *)
Class Handlers (V : Type) := {
  b_read : Z -> V -> Z * V;
  w_read : Z -> V -> Z * V;
  b_write_ptrs : Z -> Z -> Z -> V -> V;
  w_write_ptrs : Z -> Z -> Z -> V -> V;
  LIM_b_write : Z -> V -> V;
  LIM_w_write : Z -> V -> V
}.

Record sas (V : Type) := mkSas {
  M_area : Z -> Z;
  memory_type : Z -> Z;
  Length_of_M_area : Z;
  SasWrapMask : Z;
  vid : V
}.
Arguments mkSas {V} _ _ _ _ _.
Arguments M_area {V} _ _.
Arguments memory_type {V} _ _.
Arguments Length_of_M_area {V} _.
Arguments SasWrapMask {V} _.
Arguments vid {V} _.

Section Sas.
Context {V : Type} `{Handlers V}.

(** The value read beyond physical memory: the environment variable
    [BEYOND_MEMORY_VALUE], 0xfefefefe when it is not set. *)
Context (junk_value : Z).

Abbreviation S := (sas V).
Abbreviation X := (M exn S).

Definition SET_M_area (m : Z -> Z) (s : S) : S :=
  mkSas m (memory_type s) (Length_of_M_area s) (SasWrapMask s) (vid s).
Definition SET_memory_type (t : Z -> Z) (s : S) : S :=
  mkSas (M_area s) t (Length_of_M_area s) (SasWrapMask s) (vid s).
Definition SET_SasWrapMask (m : Z) (s : S) : S :=
  mkSas (M_area s) (memory_type s) (Length_of_M_area s) m (vid s).
Definition SET_vid (v : V) (s : S) : S :=
  mkSas (M_area s) (memory_type s) (Length_of_M_area s) (SasWrapMask s) v.

Definition poke (a v : Z) (s : S) : S :=
  SET_M_area (fun x => if x =? a then v else M_area s x) s.

Definition READ_SELF_MOD (addr : Z) (s : S) : Z := memory_type s (addr .>> 12).

Definition readSelfMod (addr typeSize : Z) (s : S) : Z :=
  let startType := READ_SELF_MOD addr s in
  if startType =? READ_SELF_MOD (u32 (addr + typeSize - 1)) s then startType else SAS_DANGEROUS.

(** A call of a read handler. *)
Definition call_read (f : Z -> V -> Z * V) (addr : Z) : X Z :=
  fun s => let '(r, v) := f addr (vid s) in Ret (u32 r) (SET_vid v s).

Definition call_write (f : V -> V) : X unit := modify (fun s => SET_vid (f (vid s)) s).

(** The loop that picks up the bytes of a RAM or ROM item, last byte first. *)
Fixpoint pick_up (n : nat) (addr retVal : Z) (s : S) : Z :=
  match n with
  | O => retVal
  | Datatypes.S n => pick_up n (addr - 1) (u32 ((retVal .<< 8) + M_area s addr)) s
  end.

(** [phyR] calls itself byte by byte across a type boundary; one byte has one
    type, so the nested call does not recur.  Running out of [fuel] would be the
    unbounded recursion that a page typed [SAS_DANGEROUS] gives. *)
Fixpoint phyR (fuel : nat) (addr typeSize : Z) (vidFP : Z -> V -> Z * V) : X Z :=
  match fuel with
  | O => undefined
  | Datatypes.S fuel => fun s =>
      let addr := addr .& SasWrapMask s in
      if (Length_of_M_area s <=? addr) || (Length_of_M_area s - addr <? typeSize)
      then Ret junk_value s
      else
        let type := readSelfMod addr typeSize s in
        if type =? SAS_DANGEROUS then
          (fix bytes (n : nat) (byte addr retVal : Z) : X Z :=
             match n with
             | O => ret retVal
             | Datatypes.S n =>
                 b <- phyR fuel addr 1 b_read ;;
                 bytes n (byte + 1) (u32 (addr + 1)) (u32 (retVal + (b .<< (byte * 8))))
             end) (Z.to_nat typeSize) 0 addr 0 s
        else if type =? SAS_VIDEO then call_read vidFP addr s
        else if type =? SAS_INACCESSIBLE then Ret 0xffffffff s
        else Ret (pick_up (Z.to_nat typeSize) (addr + typeSize - 1) 0 s) s
  end.

Definition phy_r8 (addr : Z) : X Z := v <- phyR 2 addr 1 b_read ;; ret (u8 v).
Definition phy_r16 (addr : Z) : X Z := v <- phyR 2 addr 2 w_read ;; ret (u16 v).
Definition phy_r32 (addr : Z) : X Z :=
  low <- phyR 2 addr 2 w_read ;;
  high <- phyR 2 (u32 (addr + 2)) 2 w_read ;;
  ret (u32 ((u16 high .<< 16) + u16 low)).

Definition write_word (addr wrd : Z) (s : S) : S :=
  let hi := u8 ((wrd .>> 8) .& 0xff) in
  let lo := u8 (wrd .& 0xff) in
  poke addr lo (poke (addr + 1) hi s).

(** The tables of write pointers have [TYPE_RANGE] entries. *)
Definition call_ptr (f : Z -> Z -> Z -> V -> V) (type addr val : Z) : X unit :=
  if type <? TYPE_RANGE then call_write (f type addr val) else undefined.

Definition phy_w8 (addr val : Z) : X unit := fun s =>
  let addr := addr .& SasWrapMask s in
  if addr <? Length_of_M_area s then
    let temp_val := readSelfMod addr 1 s in
    if temp_val =? SAS_RAM then Ret tt (poke addr val s)
    else if temp_val =? SAS_MM_LIM then call_write (LIM_b_write addr) (poke addr val s)
    else if (temp_val =? SAS_INACCESSIBLE) || (temp_val =? SAS_ROM) then Ret tt s
    else call_ptr b_write_ptrs temp_val addr val s
  else Ret tt s.

(** The bound is tested on [addr + 1] in 32 bits: the last address of the space
    passes it, and the type table is then read beyond its end. *)
Definition phy_w16 (addr val : Z) : X unit := fun s =>
  let addr := addr .& SasWrapMask s in
  if u32 (addr + 1) <? Length_of_M_area s then
    if Length_of_M_area s <=? addr then Undefined else
    let temp_val := readSelfMod addr 2 s in
    if temp_val =? SAS_RAM then Ret tt (write_word addr val s)
    else if temp_val =? SAS_MM_LIM then call_write (LIM_w_write addr) (write_word addr val s)
    else if (temp_val =? SAS_INACCESSIBLE) || (temp_val =? SAS_ROM) then Ret tt s
    else call_ptr w_write_ptrs temp_val addr val s
  else Ret tt s.

Definition phy_w32 (addr val : Z) : X unit :=
  phy_w16 addr (u16 val) ;; phy_w16 (u32 (addr + 2)) (u16 (val .>> 16)).

(** Block transfers. *)
Fixpoint c_sas_PWS (dest : Z) (src : list Z) : X unit :=
  match src with
  | [] => ret tt
  | b :: src => phy_w8 dest b ;; c_sas_PWS (u32 (dest + 1)) src
  end.

Fixpoint c_sas_PRS (src : Z) (length : nat) : X (list Z) :=
  match length with
  | O => ret []
  | Datatypes.S n => b <- phy_r8 src ;; bs <- c_sas_PRS (u32 (src + 1)) n ;; ret (b :: bs)
  end.

(** Connect a range of pages; a [high] on a page boundary is taken to be one too
    far.  A range that ends more than a page below its start wraps the count of
    [memset]. *)
Definition c_sas_connect_memory (low high type : Z) : X unit := fun s =>
  let high := if (high .& 0xfff =? 0) && negb (high =? 0) then high - 1 else high in
  if (high .>> 12) + 1 <? (low .>> 12) then Undefined else
  Ret tt (SET_memory_type (fun p => if ((low .>> 12) <=? p) && (p <=? (high .>> 12)) then u8 type
                                    else memory_type s p) s).

Definition c_sas_memory_type (addr : Z) (s : S) : Z := memory_type s (addr .>> 12).
Definition c_sas_enable_20_bit_wrapping (s : S) : S := SET_SasWrapMask 0xfffff s.
Definition c_sas_disable_20_bit_wrapping (s : S) : S := SET_SasWrapMask 0xffffffff s.
Definition c_sas_twenty_bit_wrapping_enabled (s : S) : bool := SasWrapMask s =? 0xfffff.

(** ** Memory that is plain RAM *)

Definition sas_ok (s : S) : Prop :=
  (forall a, 0 <= M_area s a < 2 ^ 8) /\ 0 < Length_of_M_area s < 2 ^ 32
  /\ (forall p, 0 <= memory_type s p <= SAS_INACCESSIBLE)
  /\ (SasWrapMask s = 2 ^ 20 - 1 \/ SasWrapMask s = 2 ^ 32 - 1).

(** [n] bytes at [a] are RAM and the wrap mask does not touch them. *)
Definition in_ram (s : S) (a n : Z) : Prop :=
  0 <= a /\ a + n <= Length_of_M_area s /\ a + n - 1 <= SasWrapMask s
  /\ forall i, 0 <= i < n -> READ_SELF_MOD (a + i) s = SAS_RAM.

Definition peek16 (s : S) (a : Z) : Z := M_area s (a + 1) * 2 ^ 8 + M_area s a.
Definition peek32 (s : S) (a : Z) : Z := peek16 s (a + 2) * 2 ^ 16 + peek16 s a.

(** The state with the byte array replaced: everything else is as it was. *)
Definition same_map (s s' : S) : Prop :=
  memory_type s' = memory_type s /\ Length_of_M_area s' = Length_of_M_area s
  /\ SasWrapMask s' = SasWrapMask s /\ vid s' = vid s.

Lemma same_map_refl s : same_map s s.
Proof. repeat split. Qed.

Lemma same_map_trans s1 s2 s3 : same_map s1 s2 -> same_map s2 s3 -> same_map s1 s3.
Proof. unfold same_map. intuition congruence. Qed.

Lemma mask_id s a : sas_ok s -> 0 <= a <= SasWrapMask s -> a .& SasWrapMask s = a.
Proof.
  intros (_ & _ & _ & [E | E]) Ha; rewrite E in *; rewrite land_mask by lia; apply Z.mod_small; lia.
Qed.

Lemma in_ram_map s s' a n : same_map s s' -> in_ram s a n -> in_ram s' a n.
Proof.
  intros (E1 & E2 & E3 & _) (Ha & Hl & Hm & Ht). unfold in_ram, READ_SELF_MOD in *.
  rewrite E1, E2, E3. auto.
Qed.

Lemma in_ram_sub s a n b m : in_ram s a n -> a <= b -> 1 <= m -> b + m <= a + n -> in_ram s b m.
Proof.
  intros (Ha & Hl & Hm & Ht) Hb Hm1 Hbm. repeat split; try lia.
  intros i Hi. replace (b + i) with (a + (b - a + i)) by lia. apply Ht. lia.
Qed.

Lemma poke_map a v s : same_map s (poke a v s).
Proof. repeat split. Qed.

Lemma poke_ok a v s : sas_ok s -> 0 <= v < 2 ^ 8 -> sas_ok (poke a v s).
Proof.
  intros (Hb & Hl & Ht & Hm) Hv. split; [|split; [|split]]; try assumption.
  intros x. cbn. destruct (x =? a); auto.
Qed.

Lemma poke_same a v s : M_area (poke a v s) a = v.
Proof. cbn. rewrite Z.eqb_refl. reflexivity. Qed.

Lemma poke_other a v s b : b <> a -> M_area (poke a v s) b = M_area s b.
Proof. intros Hb. cbn. rewrite (proj2 (Z.eqb_neq b a) Hb). reflexivity. Qed.

Section Ram.
Context (s : S) (Hok : sas_ok s).

Lemma ram_type a n : in_ram s a n -> 1 <= n <= 4 -> readSelfMod a n s = SAS_RAM.
Proof.
  intros (Ha & Hl & Hm & Ht) Hn. destruct Hok as (_ & HL & _ & _).
  unfold readSelfMod. rewrite u32_small by lia.
  replace (READ_SELF_MOD a s) with SAS_RAM
    by (symmetry; replace a with (a + 0) by lia; apply Ht; lia).
  replace (a + n - 1) with (a + (n - 1)) by lia. rewrite Ht by lia. reflexivity.
Qed.

Lemma phyR_ram a n f :
  in_ram s a n -> 1 <= n <= 4 ->
  phyR 2 a n f s = Ret (pick_up (Z.to_nat n) (a + n - 1) 0 s) s.
Proof.
  intros HR Hn. pose proof (ram_type a n HR Hn) as HT. destruct HR as (Ha & Hl & Hm & Ht).
  cbn [phyR]. rewrite (mask_id s a Hok) by lia.
  destruct (Z.leb_spec (Length_of_M_area s) a); [lia|].
  destruct (Z.ltb_spec (Length_of_M_area s - a) n); [lia|]. cbn [orb]. rewrite HT. reflexivity.
Qed.

Lemma pick_up_1 a : pick_up 1 (a + 1 - 1) 0 s = M_area s a.
Proof.
  destruct Hok as (Hb & _). cbn [pick_up]. replace (a + 1 - 1) with a by lia.
  pose proof (Hb a). change (0 .<< 8) with 0. apply u32_small. lia.
Qed.

Lemma pick_up_2 a : pick_up 2 (a + 2 - 1) 0 s = peek16 s a.
Proof.
  destruct Hok as (Hb & _). cbn [pick_up]. replace (a + 2 - 1) with (a + 1) by lia.
  replace (a + 1 - 1) with a by lia. pose proof (Hb a). pose proof (Hb (a + 1)).
  change (0 .<< 8) with 0. rewrite Z.add_0_l, (u32_small (M_area s (a + 1))) by lia.
  rewrite Z.shiftl_mul_pow2 by lia. unfold peek16.
  rewrite (u32_small (M_area s (a + 1) * 2 ^ 8)) by lia. apply u32_small. lia.
Qed.

Lemma peek16_range a : 0 <= peek16 s a < 2 ^ 16.
Proof. destruct Hok as (Hb & _). unfold peek16. pose proof (Hb a). pose proof (Hb (a + 1)). lia. Qed.

Lemma peek32_range a : 0 <= peek32 s a < 2 ^ 32.
Proof. unfold peek32. pose proof (peek16_range a). pose proof (peek16_range (a + 2)). lia. Qed.

Lemma phy_r8_ram a : in_ram s a 1 -> phy_r8 a s = Ret (M_area s a) s.
Proof.
  intros HR. unfold phy_r8. rewrite (bind_ret _ _ _ _ _ (phyR_ram a 1 _ HR ltac:(lia))).
  change (Z.to_nat 1) with 1%nat. rewrite pick_up_1. destruct Hok as (Hb & _).
  unfold ret. rewrite u8_small by apply Hb. reflexivity.
Qed.

Lemma phy_r16_ram a : in_ram s a 2 -> phy_r16 a s = Ret (peek16 s a) s.
Proof.
  intros HR. unfold phy_r16. rewrite (bind_ret _ _ _ _ _ (phyR_ram a 2 _ HR ltac:(lia))).
  change (Z.to_nat 2) with 2%nat. rewrite pick_up_2. unfold ret.
  rewrite u16_small by apply peek16_range. reflexivity.
Qed.

Lemma phy_r32_ram a : in_ram s a 4 -> phy_r32 a s = Ret (peek32 s a) s.
Proof.
  intros HR. assert (HL : 0 < Length_of_M_area s < 2 ^ 32) by apply Hok.
  pose proof HR as (Ha & Hl & _ & _).
  pose proof (in_ram_sub s a 4 a 2 HR ltac:(lia) ltac:(lia) ltac:(lia)) as H1.
  pose proof (in_ram_sub s a 4 (a + 2) 2 HR ltac:(lia) ltac:(lia) ltac:(lia)) as H2.
  unfold phy_r32. rewrite (bind_ret _ _ _ _ _ (phyR_ram a 2 _ H1 ltac:(lia))).
  rewrite (u32_small (a + 2)) by lia. rewrite (bind_ret _ _ _ _ _ (phyR_ram (a + 2) 2 _ H2 ltac:(lia))).
  change (Z.to_nat 2) with 2%nat. rewrite !pick_up_2.
  pose proof (peek16_range a). pose proof (peek16_range (a + 2)).
  rewrite !u16_small by assumption. rewrite Z.shiftl_mul_pow2 by lia.
  rewrite (u32_small (_ * 2 ^ 16)) by lia. unfold ret. rewrite u32_small by lia. reflexivity.
Qed.

Lemma phy_w8_ram a v : in_ram s a 1 -> phy_w8 a v s = Ret tt (poke a v s).
Proof.
  intros HR. pose proof (ram_type a 1 HR ltac:(lia)) as HT. destruct HR as (Ha & Hl & Hm & Ht).
  unfold phy_w8. rewrite (mask_id s a Hok) by lia.
  destruct (Z.ltb_spec a (Length_of_M_area s)); [|lia]. rewrite HT. reflexivity.
Qed.

Lemma phy_w16_ram a v : in_ram s a 2 -> phy_w16 a v s = Ret tt (write_word a v s).
Proof.
  intros HR. pose proof (ram_type a 2 HR ltac:(lia)) as HT. destruct HR as (Ha & Hl & Hm & Ht).
  assert (HL : 0 < Length_of_M_area s < 2 ^ 32) by apply Hok.
  unfold phy_w16. rewrite (mask_id s a Hok) by lia. rewrite u32_small by lia.
  destruct (Z.ltb_spec (a + 1) (Length_of_M_area s)); [|lia].
  destruct (Z.leb_spec (Length_of_M_area s) a); [lia|]. rewrite HT. reflexivity.
Qed.
End Ram.

Lemma write_word_spec s a v :
  sas_ok s -> 0 <= v < 2 ^ 16 ->
  let s' := write_word a v s in
  sas_ok s' /\ same_map s s' /\ peek16 s' a = v
  /\ forall b, b <> a -> b <> a + 1 -> M_area s' b = M_area s b.
Proof.
  intros Hok Hv s'. unfold s', write_word. change 0xff with (2 ^ 8 - 1).
  rewrite !land_mask, Z.shiftr_div_pow2 by lia.
  pose proof (Z.mod_pos_bound v (2 ^ 8) ltac:(lia)) as H0.
  assert (H1 : 0 <= v / 2 ^ 8 < 2 ^ 8) by (split; [apply Z.div_pos | apply Z.div_lt_upper_bound]; lia).
  rewrite (Z.mod_small (v / 2 ^ 8)) by exact H1. rewrite !u8_small by assumption.
  split; [auto using poke_ok|]. split; [repeat split|]. split.
  - unfold peek16. rewrite poke_same, poke_other, poke_same by lia.
    pose proof (Z_div_mod_eq_full v (2 ^ 8)). lia.
  - intros b Hb Hb1. rewrite !poke_other by assumption. reflexivity.
Qed.

Lemma phy_w32_ram s a v :
  sas_ok s -> in_ram s a 4 -> 0 <= v < 2 ^ 32 ->
  exists s', phy_w32 a v s = Ret tt s' /\ sas_ok s' /\ same_map s s' /\ peek32 s' a = v
  /\ forall b, b < a \/ a + 4 <= b -> M_area s' b = M_area s b.
Proof.
  intros Hok HR Hv. assert (HL : 0 < Length_of_M_area s < 2 ^ 32) by apply Hok.
  pose proof HR as (Ha & Hl & _ & _).
  destruct (write_word_spec s a (u16 v) Hok (u16_range v)) as (Ok1 & Map1 & P1 & O1).
  set (s1 := write_word a (u16 v) s) in *.
  assert (Hh : 0 <= v / 2 ^ 16 < 2 ^ 16) by (split; [apply Z.div_pos | apply Z.div_lt_upper_bound]; lia).
  destruct (write_word_spec s1 (a + 2) (v / 2 ^ 16) Ok1 Hh) as (Ok2 & Map2 & P2 & O2).
  set (s2 := write_word (a + 2) (v / 2 ^ 16) s1) in *.
  exists s2. split; [|split; [exact Ok2|split; [exact (same_map_trans _ _ _ Map1 Map2)|split]]].
  - unfold phy_w32. rewrite (bind_ret _ _ s tt s1)
      by (apply phy_w16_ram; [exact Hok | apply (in_ram_sub s a 4); auto; lia]).
    rewrite u32_small, Z.shiftr_div_pow2, u16_small by lia.
    apply phy_w16_ram; [exact Ok1|]. apply (in_ram_map s); [exact Map1|].
    apply (in_ram_sub s a 4); auto; lia.
  - unfold peek32. rewrite P2. replace (peek16 s2 a) with (u16 v).
    + pose proof (Z_div_mod_eq_full v (2 ^ 16)). unfold u16. lia.
    + rewrite <- P1. unfold peek16. rewrite !O2 by lia. reflexivity.
  - intros b Hb. rewrite O2, O1 by lia. reflexivity.
Qed.

(** ** Every type of memory *)

(** What a write of [n] bytes at [a] leaves alone. *)
Definition writes_only (a n : Z) (s s' : S) : Prop :=
  sas_ok s' /\ same_map s s' /\ forall b, b < a \/ a + n <= b -> M_area s' b = M_area s b.

Lemma wrapped_range s a : sas_ok s -> 0 <= a .& SasWrapMask s < 2 ^ 32.
Proof.
  intros (_ & _ & _ & [E | E]); rewrite E, land_mask by lia;
    match goal with |- context [a mod ?m] => pose proof (Z.mod_pos_bound a m ltac:(lia)) end; lia.
Qed.

Lemma one_type s a : 0 <= a < 2 ^ 32 -> readSelfMod a 1 s = READ_SELF_MOD a s.
Proof.
  intros Ha. unfold readSelfMod. replace (a + 1 - 1) with a by lia. rewrite u32_small by lia.
  rewrite Z.eqb_refl. reflexivity.
Qed.

Lemma type_range s a : sas_ok s -> 0 <= READ_SELF_MOD a s <= SAS_INACCESSIBLE.
Proof. intros (_ & _ & Ht & _). apply Ht. Qed.

Lemma SET_vid_ok v s : sas_ok s -> sas_ok (SET_vid v s).
Proof. intros (? & ? & ? & ?). repeat split; auto; apply H0 || apply H1 || apply H2. Qed.

(** One byte: no recursion. *)
Lemma phyR_byte fuel a f s :
  sas_ok s -> exists r v, phyR (Datatypes.S fuel) a 1 f s = Ret r (SET_vid v s).
Proof.
  intros Hok. pose proof (wrapped_range s a Hok) as Ha.
  assert (Hid : s = SET_vid (vid s) s) by (destruct s; reflexivity).
  cbn [phyR]. rewrite (one_type _ _ Ha). pose proof (type_range s (a .& SasWrapMask s) Hok) as Ht.
  destruct (_ || _); [eexists _, (vid s); rewrite <- Hid; reflexivity|].
  destruct (Z.eqb_spec (READ_SELF_MOD (a .& SasWrapMask s) s) SAS_DANGEROUS) as [E | _];
    [unfold SAS_DANGEROUS, SAS_INACCESSIBLE in *; lia|].
  destruct (_ =? SAS_VIDEO).
  { unfold call_read. destruct (f _ (vid s)) as [r v]. eauto. }
  destruct (_ =? SAS_INACCESSIBLE); eexists _, (vid s); rewrite <- Hid; reflexivity.
Qed.

Lemma phy_w16_cases a v s :
  sas_ok s ->
  let a' := a .& SasWrapMask s in
  phy_w16 a v s = Undefined
  <-> a' = 2 ^ 32 - 1
      \/ (a' + 1 < Length_of_M_area s /\ READ_SELF_MOD a' s <> READ_SELF_MOD (a' + 1) s).
Proof.
  intros Hok a'. pose proof (wrapped_range s a Hok) as Ha. fold a' in Ha.
  pose proof (type_range s a' Hok) as Ht. assert (HL : 0 < Length_of_M_area s < 2 ^ 32) by apply Hok.
  unfold phy_w16. fold a'. destruct (Z.eqb_spec a' (2 ^ 32 - 1)) as [E | NE].
  { rewrite E. change (u32 _) with 0. destruct (Z.ltb_spec 0 (Length_of_M_area s)); [|lia].
    destruct (Z.leb_spec (Length_of_M_area s) (2 ^ 32 - 1)); [|lia]. intuition. }
  rewrite (u32_small (a' + 1)) by lia. unfold readSelfMod.
  replace (a' + 2 - 1) with (a' + 1) by lia. rewrite (u32_small (a' + 1)) by lia.
  destruct (Z.ltb_spec (a' + 1) (Length_of_M_area s)); [|split; [discriminate | lia]].
  destruct (Z.leb_spec (Length_of_M_area s) a'); [lia|].
  destruct (Z.eqb_spec (READ_SELF_MOD a' s) (READ_SELF_MOD (a' + 1) s)) as [Et | Et].
  - split; [|intros [? | [_ ?]]; [lia | congruence]].
    destruct (READ_SELF_MOD a' s =? SAS_RAM); [discriminate|].
    destruct (READ_SELF_MOD a' s =? SAS_MM_LIM); [discriminate|].
    destruct (Z.eqb_spec (READ_SELF_MOD a' s) SAS_INACCESSIBLE); [discriminate|].
    destruct (READ_SELF_MOD a' s =? SAS_ROM); [discriminate|]. cbn [orb].
    unfold call_ptr, TYPE_RANGE. destruct (Z.ltb_spec (READ_SELF_MOD a' s) SAS_INACCESSIBLE);
      [discriminate | lia].
  - split; [auto | intros _; reflexivity].
Qed.

Lemma phy_w8_defined a v s : sas_ok s -> phy_w8 a v s <> Undefined.
Proof.
  intros Hok. pose proof (wrapped_range s a Hok) as Ha.
  pose proof (type_range s (a .& SasWrapMask s) Hok) as Ht.
  unfold phy_w8. rewrite (one_type _ _ Ha). destruct (_ <? _); [|discriminate].
  destruct (_ =? SAS_RAM); [discriminate|]. destruct (_ =? SAS_MM_LIM); [discriminate|].
  destruct (Z.eqb_spec (READ_SELF_MOD (a .& SasWrapMask s) s) SAS_INACCESSIBLE); [discriminate|].
  destruct (_ =? SAS_ROM); [discriminate|]. cbn [orb]. unfold call_ptr, TYPE_RANGE.
  destruct (Z.ltb_spec (READ_SELF_MOD (a .& SasWrapMask s) s) SAS_INACCESSIBLE); [discriminate | lia].
Qed.

Lemma phyR_bytes n byte a r s :
  sas_ok s ->
  exists r' v,
    (fix bytes (n : nat) (byte addr retVal : Z) : X Z :=
       match n with
       | O => ret retVal
       | Datatypes.S n =>
           b <- phyR 1 addr 1 b_read ;;
           bytes n (byte + 1) (u32 (addr + 1)) (u32 (retVal + (b .<< (byte * 8))))
       end) n byte a r s = Ret r' (SET_vid v s).
Proof.
  revert byte a r s. induction n as [|n IH]; intros byte a r s Hok.
  - exists r, (vid s). destruct s; reflexivity.
  - destruct (phyR_byte 0 a b_read s Hok) as (b & v & E).
    rewrite (bind_ret _ _ _ _ _ E).
    destruct (IH (byte + 1) (u32 (a + 1)) (u32 (r + (b .<< (byte * 8)))) (SET_vid v s)
                (SET_vid_ok v s Hok)) as (r' & v' & E').
    exists r', v'. rewrite E'. reflexivity.
Qed.

(** With 20-bit wrapping only the address modulo 1M matters. *)
Lemma wrap_mask (s : S) a b : SasWrapMask s = 2 ^ 20 - 1 -> a mod 2 ^ 20 = b mod 2 ^ 20 ->
  a .& SasWrapMask s = b .& SasWrapMask s.
Proof. intros -> E. rewrite !land_mask by lia. exact E. Qed.

Lemma wrap_next a b d : a mod 2 ^ 20 = b mod 2 ^ 20 -> u32 (a + d) mod 2 ^ 20 = u32 (b + d) mod 2 ^ 20.
Proof.
  intros E. unfold u32. rewrite !mod_mod_le by lia.
  rewrite (Z.add_mod a), (Z.add_mod b), E by lia. reflexivity.
Qed.

Lemma phyR_keeps_mask fuel a n f s r s' :
  phyR fuel a n f s = Ret r s' -> SasWrapMask s' = SasWrapMask s.
Proof.
  revert a n f s r s'. induction fuel as [|fuel IH]; intros a n f s r s'; [discriminate|].
  cbn [phyR]. destruct (_ || _); [congruence|]. destruct (_ =? SAS_DANGEROUS).
  - generalize (a .& SasWrapMask s). generalize 0 at 2. generalize 0.
    generalize (Z.to_nat n). clear n. intros n. revert s.
    induction n as [|n IHn]; intros s byte retVal addr; [unfold ret; congruence|].
    unfold bind at 1. destruct (phyR fuel addr 1 b_read s) as [b s1 | |] eqn:E; [|discriminate..].
    intros E1. apply IHn in E1. apply IH in E. congruence.
  - destruct (_ =? SAS_VIDEO); [unfold call_read; destruct (f _ _); intros [= _ <-]; reflexivity|].
    destruct (_ =? SAS_INACCESSIBLE); congruence.
Qed.

Lemma phy_w16_keeps_mask a v s s' : phy_w16 a v s = Ret tt s' -> SasWrapMask s' = SasWrapMask s.
Proof.
  unfold phy_w16, call_ptr, call_write, modify. intros E.
  repeat match type of E with (if ?b then _ else _) _ = _ => destruct b
                            | (if ?b then _ else _) = _ => destruct b end;
    (injection E as <-; reflexivity) || discriminate.
Qed.

(** *** Blocks *)

Lemma PWS_ram bs : forall a s,
  sas_ok s -> in_ram s a (Z.of_nat (length bs)) -> Forall (fun b => 0 <= b < 2 ^ 8) bs ->
  exists s', c_sas_PWS a bs s = Ret tt s' /\ writes_only a (Z.of_nat (length bs)) s s'
  /\ forall i b, bs !! i = Some b -> M_area s' (a + Z.of_nat i) = b.
Proof.
  induction bs as [|b bs IH]; intros a s Hok HR HB.
  - exists s. split; [reflexivity|]. split; [repeat split; auto; apply Hok|]. discriminate.
  - inversion HB as [|? ? Hb HB']; subst. cbn [length] in *.
    assert (HL : 0 < Length_of_M_area s < 2 ^ 32) by apply Hok.
    pose proof HR as (Ha & Hl & _ & _).
    set (s1 := poke a b s). assert (Hok1 : sas_ok s1) by (apply poke_ok; assumption).
    assert (E1 : phy_w8 a b s = Ret tt s1)
      by (apply phy_w8_ram; [exact Hok | eapply in_ram_sub; [exact HR | lia..]]).
    cbn [c_sas_PWS]. rewrite (bind_ret _ _ _ _ _ E1).
    destruct bs as [|b' bs'].
    + exists s1. split; [reflexivity|]. split.
      * split; [exact Hok1|]. split; [apply poke_map|]. intros x Hx. apply poke_other. cbn in Hx. lia.
      * intros [|i] x [= <-]. rewrite Z.add_0_r. apply poke_same.
    + rewrite u32_small by (cbn [length] in *; lia).
      destruct (IH (a + 1) s1 Hok1) as (s2 & E2 & (Hok2 & Hm2 & Ho2) & Hv2); [|exact HB'|].
      { apply (in_ram_map s); [apply poke_map|]. eapply in_ram_sub; [exact HR | cbn [length] in *; lia..]. }
      exists s2. split; [exact E2|]. split; [split; [exact Hok2|split]|].
      * exact (same_map_trans _ _ _ (poke_map a b s) Hm2).
      * intros x Hx. rewrite Ho2 by lia. apply poke_other. lia.
      * intros [|i] x; cbn [lookup list_lookup].
        -- intros [= <-]. rewrite Z.add_0_r, Ho2 by lia. apply poke_same.
        -- intros Hi. rewrite <- (Hv2 i x Hi). f_equal. lia.
Qed.

Lemma PRS_ram n : forall a s,
  sas_ok s -> (forall i, (i < n)%nat -> in_ram s (a + Z.of_nat i) 1) ->
  c_sas_PRS a n s = Ret (map (fun i => M_area s (a + Z.of_nat i)) (seq 0 n)) s.
Proof.
  induction n as [|n IH]; intros a s Hok HR; [reflexivity|]. cbn [c_sas_PRS].
  assert (HL : 0 < Length_of_M_area s < 2 ^ 32) by apply Hok.
  rewrite (bind_ret _ _ _ (M_area s a) s).
  2:{ apply phy_r8_ram; [exact Hok|]. specialize (HR 0%nat). rewrite Z.add_0_r in HR. apply HR. lia. }
  destruct n as [|n].
  { cbn. rewrite Z.add_0_r. reflexivity. }
  destruct (HR 1%nat ltac:(lia)) as (H1 & H2 & _). rewrite u32_small.
  2:{ destruct (HR 0%nat ltac:(lia)) as (? & _). lia. }
  rewrite (bind_ret _ _ _ (map (fun i => M_area s (a + 1 + Z.of_nat i)) (seq 0 (Datatypes.S n))) s).
  2:{ apply IH; [exact Hok|]. intros i Hi. replace (a + 1 + Z.of_nat i) with (a + Z.of_nat (Datatypes.S i)) by lia.
      apply HR. lia. }
  unfold ret. f_equal. change (seq 0 (Datatypes.S (Datatypes.S n))) with (0%nat :: seq 1 (Datatypes.S n)).
  rewrite <- (seq_shift (Datatypes.S n) 0). cbn [map]. rewrite map_map, Z.add_0_r. f_equal.
  apply map_ext. intros i. f_equal. lia.
Qed.

(** *** Connecting a range *)

(** The first address past the range [low] to [high], whichever way the caller
    means [high]. *)
Definition limit (high : Z) : Z :=
  if (high mod 2 ^ 12 =? 0) && negb (high =? 0) then high else (high / 2 ^ 12 + 1) * 2 ^ 12.

Lemma connect_spec low high type s :
  0 <= low <= high -> low mod 2 ^ 12 = 0 -> 0 <= type < 2 ^ 8 ->
  exists s', c_sas_connect_memory low high type s = Ret tt s'
  /\ M_area s' = M_area s /\ Length_of_M_area s' = Length_of_M_area s /\ SasWrapMask s' = SasWrapMask s
  /\ vid s' = vid s
  /\ (forall x, READ_SELF_MOD x s' = if (low <=? x) && (x <? limit high) then type else READ_SELF_MOD x s)
  /\ (sas_ok s -> type <= SAS_INACCESSIBLE -> sas_ok s').
Proof.
  intros Hlh Hl Ht. unfold c_sas_connect_memory. change 0xfff with (2 ^ 12 - 1).
  rewrite land_mask, !Z.shiftr_div_pow2, u8_small by lia.
  set (h := if (high mod 2 ^ 12 =? 0) && negb (high =? 0) then high - 1 else high).
  pose proof (Z_div_mod_eq_full low (2 ^ 12)). pose proof (Z_div_mod_eq_full high (2 ^ 12)).
  assert (Hh : limit high = (h / 2 ^ 12 + 1) * 2 ^ 12).
  { unfold limit, h. destruct (Z.eqb_spec (high mod 2 ^ 12) 0); cbn [andb]; [|reflexivity].
    destruct (Z.eqb_spec high 0); cbn [negb]; [reflexivity|].
    assert ((high - 1) / 2 ^ 12 = high / 2 ^ 12 - 1); [|lia].
    symmetry. apply Z.div_unique with (2 ^ 12 - 1); lia. }
  assert (Hle : low / 2 ^ 12 <= h / 2 ^ 12 + 1).
  { unfold h. destruct (_ && _); [|pose proof (Z.div_le_mono low high (2 ^ 12)); lia].
    pose proof (Z_div_mod_eq_full (high - 1) (2 ^ 12)).
    pose proof (Z.mod_pos_bound (high - 1) (2 ^ 12)). lia. }
  destruct (Z.ltb_spec (h / 2 ^ 12 + 1) (low / 2 ^ 12)); [lia|].
  eexists. split; [reflexivity|]. do 4 (split; [reflexivity|]). split.
  - intros x. unfold READ_SELF_MOD, SET_memory_type. cbn [memory_type].
    rewrite Z.shiftr_div_pow2 by lia. rewrite Hh.
    pose proof (Z_div_mod_eq_full x (2 ^ 12)). pose proof (Z.mod_pos_bound x (2 ^ 12) ltac:(lia)).
    destruct (Z.leb_spec (low / 2 ^ 12) (x / 2 ^ 12)), (Z.leb_spec (x / 2 ^ 12) (h / 2 ^ 12)),
      (Z.leb_spec low x), (Z.ltb_spec x ((h / 2 ^ 12 + 1) * 2 ^ 12)); cbn [andb]; try reflexivity; lia.
  - intros (Hb & HL & Hp & Hm) Hty. split; [exact Hb|]. split; [exact HL|]. split; [|exact Hm].
    intros q. clearbody h. unfold SET_memory_type. cbn [memory_type]. destruct (_ && _); [lia | apply Hp].
Qed.

(** ** Theorems *)

(** Write then read in RAM: a dword, a word or a byte written to RAM is read
    back as written, and the write changes no byte outside its own (nor the memory
    types, the wrap mask or any device). *)
Theorem memory_round_trip a v s :
  sas_ok s -> in_ram s a 4 -> 0 <= v < 2 ^ 32 ->
  (exists s', phy_w32 a v s = Ret tt s' /\ phy_r32 a s' = Ret v s' /\ writes_only a 4 s s')
  /\ (exists s', phy_w16 a (u16 v) s = Ret tt s' /\ phy_r16 a s' = Ret (u16 v) s' /\ writes_only a 2 s s')
  /\ (exists s', phy_w8 a (u8 v) s = Ret tt s' /\ phy_r8 a s' = Ret (u8 v) s' /\ writes_only a 1 s s').
Proof.
  intros Hok HR Hv.
  assert (H2 : in_ram s a 2) by (eapply in_ram_sub; [exact HR | lia..]).
  assert (H1 : in_ram s a 1) by (eapply in_ram_sub; [exact HR | lia..]).
  split; [|split].
  - destruct (phy_w32_ram s a v Hok HR Hv) as (s' & E & Hok' & Hm & Hp & Ho).
    exists s'. repeat split; try apply Hm; try apply Hok'; try assumption.
    rewrite <- Hp. apply phy_r32_ram; [exact Hok' | exact (in_ram_map _ _ _ _ Hm HR)].
  - destruct (write_word_spec s a (u16 v) Hok (u16_range v)) as (Hok' & Hm & Hp & Ho).
    exists (write_word a (u16 v) s). split; [apply phy_w16_ram; assumption|]. split.
    + rewrite <- Hp at 2. apply phy_r16_ram; [exact Hok' | exact (in_ram_map _ _ _ _ Hm H2)].
    + split; [exact Hok'|]. split; [exact Hm|]. intros b Hb. apply Ho; lia.
  - exists (poke a (u8 v) s). pose proof (poke_ok a (u8 v) s Hok (u8_range v)) as Hok'.
    split; [apply phy_w8_ram; assumption|]. split.
    + rewrite <- (poke_same a (u8 v) s) at 2.
      apply phy_r8_ram; [exact Hok' | exact (in_ram_map _ _ _ _ (poke_map a (u8 v) s) H1)].
    + split; [exact Hok'|]. split; [apply poke_map|]. intros b Hb. apply poke_other. lia.
Qed.

(** Block transfers: a block stored with PWS in RAM is what PRS loads from
    there, and the store changes no other byte. *)
Theorem block_round_trip a bs s :
  sas_ok s -> in_ram s a (Z.of_nat (length bs)) -> Forall (fun b => 0 <= b < 2 ^ 8) bs ->
  exists s', c_sas_PWS a bs s = Ret tt s' /\ c_sas_PRS a (length bs) s' = Ret bs s'
  /\ writes_only a (Z.of_nat (length bs)) s s'.
Proof.
  intros Hok HR HB. destruct (PWS_ram bs a s Hok HR HB) as (s' & E & Hw & Hv).
  exists s'. split; [exact E|]. split; [|exact Hw]. destruct Hw as (Hok' & Hm & _).
  rewrite PRS_ram; [|exact Hok'|].
  - f_equal. apply list_eq. intros i. rewrite list_lookup_fmap.
    destruct (bs !! i) as [b|] eqn:Ei.
    + pose proof (lookup_lt_Some _ _ _ Ei). rewrite lookup_seq_lt by assumption. cbn.
      rewrite (Hv i b Ei). reflexivity.
    + apply lookup_ge_None in Ei. rewrite lookup_seq_ge by assumption. reflexivity.
  - intros i Hi. apply (in_ram_map s); [exact Hm|].
    eapply in_ram_sub; [exact HR | lia..].
Qed.

(** Reads always return: whatever the memory types (video, ROM, inaccessible,
    expanded memory) and even across a type boundary, a physical read of up to four
    bytes ends with a value and changes nothing but the state of the device read. *)
Theorem reads_terminate a n f s :
  sas_ok s -> 1 <= n <= 4 -> exists r v, phyR 2 a n f s = Ret r (SET_vid v s).
Proof.
  intros Hok Hn. assert (Hid : SET_vid (vid s) s = s) by (destruct s; reflexivity).
  cbn [phyR]. destruct (_ || _); [exists junk_value, (vid s); rewrite Hid; reflexivity|].
  destruct (_ =? SAS_DANGEROUS); [apply phyR_bytes; exact Hok|].
  destruct (_ =? SAS_VIDEO).
  { unfold call_read. destruct (f _ (vid s)) as [r v]. eauto. }
  destruct (_ =? SAS_INACCESSIBLE); eexists _, (vid s); rewrite Hid; reflexivity.
Qed.

(** Writes: a byte write is always defined; a word write is undefined exactly
    at the last address of the 32-bit space (whose bound test wraps) and where the
    two bytes of the word lie in memory of different types (the table of write
    handlers is then indexed beyond its end). *)
Theorem word_write_defined a v s :
  sas_ok s ->
  let a' := a .& SasWrapMask s in
  phy_w8 a v s <> Undefined
  /\ (phy_w16 a v s = Undefined
      <-> a' = 2 ^ 32 - 1
          \/ (a' + 1 < Length_of_M_area s /\ READ_SELF_MOD a' s <> READ_SELF_MOD (a' + 1) s)).
Proof. intros Hok. split; [apply phy_w8_defined | apply phy_w16_cases]; exact Hok. Qed.

(** 20-bit wrapping: while it is enabled, accesses at addresses equal modulo
    1M are the same access, for every routine; disabling it makes every 32-bit
    address its own. *)
Theorem address_wrap a b v n f s :
  a mod 2 ^ 20 = b mod 2 ^ 20 ->
  let s1 := c_sas_enable_20_bit_wrapping s in
  c_sas_twenty_bit_wrapping_enabled s1 = true
  /\ phyR 2 a n f s1 = phyR 2 b n f s1 /\ phy_r32 a s1 = phy_r32 b s1
  /\ phy_w8 a v s1 = phy_w8 b v s1 /\ phy_w16 a v s1 = phy_w16 b v s1
  /\ phy_w32 a v s1 = phy_w32 b v s1
  /\ (forall x, 0 <= x < 2 ^ 32 -> x .& SasWrapMask (c_sas_disable_20_bit_wrapping s1) = x).
Proof.
  intros E s1. assert (Hm : SasWrapMask s1 = 2 ^ 20 - 1) by reflexivity.
  assert (HR : forall m n f s a b, SasWrapMask s = 2 ^ 20 - 1 -> a mod 2 ^ 20 = b mod 2 ^ 20 ->
               phyR (Datatypes.S m) a n f s = phyR (Datatypes.S m) b n f s)
    by (intros m n' f' s' x y Hs Hxy; cbn [phyR]; rewrite (wrap_mask s' x y Hs Hxy); reflexivity).
  assert (HW : forall s a b v, SasWrapMask s = 2 ^ 20 - 1 -> a mod 2 ^ 20 = b mod 2 ^ 20 ->
               phy_w16 a v s = phy_w16 b v s)
    by (intros s' x y w Hs Hxy; unfold phy_w16; rewrite (wrap_mask s' x y Hs Hxy); reflexivity).
  split; [reflexivity|]. split; [apply HR; assumption|]. split; [|split; [|split; [|split]]].
  - unfold phy_r32, bind. rewrite (HR 1%nat 2 w_read s1 a b Hm E).
    destruct (phyR 2 b 2 w_read s1) as [r s2 | |] eqn:E2; try reflexivity.
    rewrite (HR 1%nat 2 w_read s2 (u32 (a + 2)) (u32 (b + 2))); [reflexivity | | apply wrap_next; exact E].
    rewrite (phyR_keeps_mask _ _ _ _ _ _ _ E2). exact Hm.
  - unfold phy_w8. rewrite (wrap_mask s1 a b Hm E). reflexivity.
  - apply HW; assumption.
  - unfold phy_w32, bind. rewrite (HW s1 a b (u16 v) Hm E).
    destruct (phy_w16 b (u16 v) s1) as [[] s2 | |] eqn:E2; try reflexivity.
    apply HW; [|apply wrap_next; exact E]. rewrite (phy_w16_keeps_mask _ _ _ _ E2). exact Hm.
  - intros x Hx. change (SasWrapMask _) with (2 ^ 32 - 1). rewrite land_mask by lia.
    apply Z.mod_small. lia.
Qed.

(** ROM: connecting a range as ROM retypes exactly its pages (whether the
    caller gives the last address or the one after it) and changes nothing else;
    afterwards byte and word writes into the range have no effect. *)
Theorem rom_protected low high s :
  sas_ok s -> 0 <= low <= high -> low mod 2 ^ 12 = 0 ->
  exists s', c_sas_connect_memory low high SAS_ROM s = Ret tt s'
  /\ sas_ok s' /\ M_area s' = M_area s
  /\ (forall x, READ_SELF_MOD x s' = if (low <=? x) && (x <? limit high) then SAS_ROM else READ_SELF_MOD x s)
  /\ (forall a v, low <= a .& SasWrapMask s < limit high -> phy_w8 a v s' = Ret tt s')
  /\ (forall a v, low <= a .& SasWrapMask s -> (a .& SasWrapMask s) + 1 < limit high ->
      a .& SasWrapMask s <> 2 ^ 32 - 1 -> phy_w16 a v s' = Ret tt s').
Proof.
  intros Hok Hlh Hl.
  destruct (connect_spec low high SAS_ROM s Hlh Hl) as (s' & E & EM & EL & Em & _ & Ht & Hok'); [unfold SAS_ROM; lia|].
  assert (Hok1 : sas_ok s') by (apply Hok'; [exact Hok | unfold SAS_ROM, SAS_INACCESSIBLE; lia]).
  exists s'. do 4 (split; [assumption|]). split.
  - intros a v Ha. unfold phy_w8. rewrite Em, one_type by (apply wrapped_range; exact Hok).
    destruct (_ <? _); [|reflexivity]. rewrite Ht.
    destruct (Z.leb_spec low (a .& SasWrapMask s)), (Z.ltb_spec (a .& SasWrapMask s) (limit high));
      cbn [andb]; lia || reflexivity.
  - intros a v Ha Ha1 Hne. pose proof (wrapped_range s a Hok) as Hr. unfold phy_w16. rewrite Em.
    rewrite (u32_small (_ + 1)) by lia. destruct (Z.ltb_spec (a .& SasWrapMask s + 1) (Length_of_M_area s'));
      [|reflexivity]. destruct (Z.leb_spec (Length_of_M_area s') (a .& SasWrapMask s)); [lia|].
    unfold readSelfMod. rewrite u32_small, !Ht by lia.
    destruct (Z.leb_spec low (a .& SasWrapMask s)), (Z.ltb_spec (a .& SasWrapMask s) (limit high)),
      (Z.leb_spec low (a .& SasWrapMask s + 2 - 1)), (Z.ltb_spec (a .& SasWrapMask s + 2 - 1) (limit high));
      cbn [andb]; lia || reflexivity.
Qed.
End Sas.

(** ** Witnesses: one megabyte, no devices, the BIOS as ROM *)

Definition quiet : Handlers unit := {|
  b_read := fun _ v => (0xff, v); w_read := fun _ v => (0xffff, v);
  b_write_ptrs := fun _ _ _ v => v; w_write_ptrs := fun _ _ _ v => v;
  LIM_b_write := fun _ v => v; LIM_w_write := fun _ v => v |}.
#[local] Existing Instance quiet.

Definition sas0 : sas unit :=
  mkSas (fun _ => 0) (fun p => if (0xf0 <=? p) && (p <? 0x100) then SAS_ROM else SAS_RAM)
        0x200000 0xffffffff tt.

Lemma sas0_ok : sas_ok sas0.
Proof.
  split; [intros a; cbn; lia|]. split; [cbn; lia|]. split; [|right; reflexivity].
  intros p. unfold sas0, SAS_ROM, SAS_RAM, SAS_INACCESSIBLE. cbn. destruct (_ && _); lia.
Qed.

Lemma sas0_ram a n : 0 <= a -> 1 <= n -> a + n <= 0x2000 -> in_ram sas0 a n.
Proof.
  intros Ha Hn Han. split; [exact Ha|]. split; [cbn; lia|]. split; [cbn; lia|].
  intros i Hi. unfold READ_SELF_MOD, sas0. cbn [memory_type]. rewrite Z.shiftr_div_pow2 by lia.
  assert (H2 : (a + i) / 2 ^ 12 < 2) by (apply Z.div_lt_upper_bound; lia).
  destruct (Z.leb_spec 0xf0 ((a + i) / 2 ^ 12)); [lia | reflexivity].
Qed.

Lemma memory_round_trip_witness :
  exists s', phy_w32 0xfff 0x12345678 sas0 = Ret tt s'
  /\ phy_r32 0xfefefefe 0xfff s' = Ret 0x12345678 s' /\ writes_only 0xfff 4 sas0 s'.
Proof.
  refine (proj1 (memory_round_trip 0xfefefefe 0xfff 0x12345678 sas0 sas0_ok _ _)); [|lia].
  apply sas0_ram; lia.
Defined.

Lemma block_round_trip_witness :
  exists s', c_sas_PWS 0x10 [1; 2; 3] sas0 = Ret tt s'
  /\ c_sas_PRS 0xfefefefe 0x10 3 s' = Ret [1; 2; 3] s' /\ writes_only 0x10 3 sas0 s'.
Proof.
  refine (block_round_trip 0xfefefefe 0x10 [1; 2; 3] sas0 sas0_ok _ _);
    [apply sas0_ram; cbn; lia | repeat (constructor; [lia|]); constructor].
Defined.

Lemma reads_terminate_witness :
  exists r v, phyR 0xfefefefe 2 0xeffff 2 w_read sas0 = Ret r (SET_vid v sas0).
Proof. refine (reads_terminate 0xfefefefe 0xeffff 2 w_read sas0 sas0_ok _). lia. Defined.

Lemma word_write_defined_witness : phy_w16 0xeffff 0 sas0 = Undefined.
Proof.
  refine (proj2 (proj2 (word_write_defined 0xeffff 0 sas0 sas0_ok)) _).
  right. split; [reflexivity | vm_compute; congruence].
Defined.

Lemma address_wrap_witness :
  phyR 0xfefefefe 2 0x100000 1 b_read (c_sas_enable_20_bit_wrapping sas0)
  = phyR 0xfefefefe 2 0 1 b_read (c_sas_enable_20_bit_wrapping sas0).
Proof.
  refine (proj1 (proj2 (address_wrap 0xfefefefe 0x100000 0 0 1 b_read sas0 _))). reflexivity.
Defined.

Lemma rom_protected_witness :
  exists s', c_sas_connect_memory 0xc0000 0xc8000 SAS_ROM sas0 = Ret tt s' /\ sas_ok s'.
Proof.
  destruct (rom_protected 0xc0000 0xc8000 sas0 sas0_ok) as (s' & E & Hok & _); [lia | reflexivity|].
  exists s'. split; assumption.
Defined.

End Mem.
