(* ===== verification/Tlb.v ===== *)
(** * Address translation

    [c_tlb.c]: the translation lookaside buffer with its fast index
    ([FAST_TLB]), [lin2phy], [xtrn2phy], [test_tlb] and [flush_tlb].

    The routines run on a machine that holds the CPU registers, physical memory
    and the buffer.  Physical memory is the interface [PhyMem]: the access macros
    of [c_mem.h], and what they promise on plain RAM; the routines of the
    physical memory file are an instance of it. *)

From stdpp Require Import relations.
From S2P Require Import Prelude Cpu Debug Arith Shift Xcptn MulDiv Mem.

Module Tlb.
Import Xcptn.

Create HintDb tlbinv.

(** ** The memory interface *)

Class PhyMem (P : Type) := {
  phy_read_byte : Z -> M exn P Z;
  phy_read_word : Z -> M exn P Z;
  phy_read_dword : Z -> M exn P Z;
  phy_write_byte : Z -> Z -> M exn P unit;
  phy_write_word : Z -> Z -> M exn P unit;
  phy_write_dword : Z -> Z -> M exn P unit;
  byte_at : P -> Z -> Z;
  (** [n] bytes at the address are RAM *)
  is_ram : P -> Z -> Z -> Prop
}.

(** The little endian number in [n] bytes. *)
Fixpoint value_at {P} `{PhyMem P} (m : P) (a : Z) (n : nat) : Z :=
  match n with
  | O => 0
  | S n => byte_at m a + 2 ^ 8 * value_at m (a + 1) n
  end.

Abbreviation dword_at m a := (value_at m a 4).

(** After a write of the [n] bytes of [v] at [a] to RAM. *)
Definition stored {P} `{PhyMem P} (m m' : P) (a : Z) (n : nat) (v : Z) : Prop :=
  value_at m' a n = v
  /\ (forall b, b < a \/ a + Z.of_nat n <= b -> byte_at m' b = byte_at m b)
  /\ (forall b k, is_ram m' b k <-> is_ram m b k).

Class PhyMemLaws (P : Type) `{PhyMem P} := {
  ram_byte m a n : is_ram m a n -> forall i, 0 <= i < n -> 0 <= byte_at m (a + i) < 2 ^ 8;
  ram_sub m a n b k : is_ram m a n -> a <= b -> 1 <= k -> b + k <= a + n -> is_ram m b k;
  ram_bytes m a n : 1 <= n -> (forall i, 0 <= i < n -> is_ram m (a + i) 1) -> is_ram m a n;
  ram_end m a n : is_ram m a n -> 0 <= a /\ a + n < 2 ^ 32;
  read_byte_ram m a : is_ram m a 1 -> phy_read_byte a m = Ret (value_at m a 1) m;
  read_word_ram m a : is_ram m a 2 -> phy_read_word a m = Ret (value_at m a 2) m;
  read_dword_ram m a : is_ram m a 4 -> phy_read_dword a m = Ret (value_at m a 4) m;
  write_byte_ram m a v : is_ram m a 1 -> 0 <= v < 2 ^ 8 ->
    exists m', phy_write_byte a v m = Ret tt m' /\ stored m m' a 1 v;
  write_word_ram m a v : is_ram m a 2 -> 0 <= v < 2 ^ 16 ->
    exists m', phy_write_word a v m = Ret tt m' /\ stored m m' a 2 v;
  write_dword_ram m a v : is_ram m a 4 -> 0 <= v < 2 ^ 32 ->
    exists m', phy_write_dword a v m = Ret tt m' /\ stored m m' a 4 v
}.

(** ** The buffer *)

Record TLB_ENTRY := mkTLB_ENTRY { la : Z; pa : Z; v : bool; d : bool; mode : Z }.

Definition NR_TLB_SETS : nat := 4.
Definition NR_TLB_ENTRIES : nat := 8.

Record tlb_state := mkTlb {
  tlb : Z -> Z -> TLB_ENTRY;
  next_set : Z -> Z;
  page_index : Z -> Z;
  page_address : Z -> Z
}.

Definition PI_NOT_VALID : Z := 0.
Definition PI_VALID : Z := 0x80.
Definition PI_SET_ENTRY_MASK : Z := 0x7c.
Definition PI_SET_SHIFT : Z := 5.
Definition PI_ENTRY_SHIFT : Z := 2.
Definition NO_MAPPED_ADDRESS : Z := 0.

Definition OFFSET_MASK : Z := 0xfff.
Definition TBL_MASK : Z := 0x3ff.
Definition DIR_MASK : Z := 0x3ff.
Definition TBL_SHIFT : Z := 12.
Definition DIR_SHIFT : Z := 22.
Definition DIR_TBL_SHIFT : Z := 12.

Definition PE_PFA_MASK : Z := 0xfffff000.
Definition PE_P_MASK : Z := 0x1.
Definition PE_U_S_MASK : Z := 0x4.
Definition PE_R_W_MASK : Z := 0x2.
Definition PE_DIRTY : Z := 0x40.
Definition PE_ACCESSED : Z := 0x20.

Definition PG_R : Z := 0.
Definition PG_W : Z := 1.
Definition PG_S : Z := 0.
Definition PG_U : Z := 2.

Definition TCR_LA_MASK : Z := 0xfffff000.
Definition TCR_V_MASK : Z := 0x800.
Definition TCR_D_MASK : Z := 0x400.
Definition TCR_ND_MASK : Z := 0x200.
Definition TCR_U_MASK : Z := 0x100.
Definition TCR_NU_MASK : Z := 0x80.
Definition TCR_W_MASK : Z := 0x40.
Definition TCR_NW_MASK : Z := 0x20.
Definition TCR_C_MASK : Z := 0x1.
Definition TCR_ATTR_MASK : Z := 0x7e0.
Definition TDR_PA_MASK : Z := 0xfffff000.
Definition TDR_HT_MASK : Z := 0x10.
Definition TDR_REP_MASK : Z := 0xc.
Definition TDR_REP_SHIFT : Z := 2.

(** Rows: access required; columns: access available; S_R, S_W, U_R, U_W. *)
Definition access_check_table : list (list bool) :=
  [ [false; false; false; false];
    [false; false; false; false];
    [true; true; false; false];
    [true; true; true; false] ].
Definition access_check (reqd avail : Z) : bool :=
  nth (Z.to_nat avail) (nth (Z.to_nat reqd) access_check_table []) true.

(** A non-zero test, as a C condition. *)
Definition tst (z : Z) : bool := negb (z =? 0).

Definition upd (f : Z -> Z) (i x : Z) : Z -> Z := fun j => if j =? i then x else f j.

Definition set_page_index (i x : Z) (t : tlb_state) : tlb_state :=
  mkTlb (tlb t) (next_set t) (upd (page_index t) i x) (page_address t).
Definition set_page_address (i x : Z) (t : tlb_state) : tlb_state :=
  mkTlb (tlb t) (next_set t) (page_index t) (upd (page_address t) i x).
Definition set_next (i x : Z) (t : tlb_state) : tlb_state :=
  mkTlb (tlb t) (upd (next_set t) i x) (page_index t) (page_address t).
Definition set_entry (set entry : Z) (e : TLB_ENTRY) (t : tlb_state) : tlb_state :=
  mkTlb (fun s n => if (s =? set) && (n =? entry) then e else tlb t s n)
        (next_set t) (page_index t) (page_address t).

(** ** Flushing *)

Definition flush_entry (set entry : Z) (t : tlb_state) : tlb_state :=
  let e := tlb t set entry in
  let t := if v e then set_page_index (la e .>> DIR_TBL_SHIFT) PI_NOT_VALID t else t in
  set_entry set entry (mkTLB_ENTRY (la e) (pa e) false (d e) (mode e)) t.

Fixpoint flush_entries (set : Z) (n : nat) (entry : Z) (t : tlb_state) : tlb_state :=
  match n with
  | O => t
  | S n => flush_entries set n (entry + 1) (flush_entry set entry t)
  end.

Fixpoint flush_sets (n : nat) (set : Z) (t : tlb_state) : tlb_state :=
  match n with
  | O => t
  | S n => flush_sets n (set + 1) (flush_entries set NR_TLB_ENTRIES 0 t)
  end.

Definition flush_tlb (t : tlb_state) : tlb_state := flush_sets NR_TLB_SETS 0 t.

(** ** Looking up and loading *)

(** The fast lookup shared by [lin2phy] and [xtrn2phy]. *)
Definition fast_lookup (lin access : Z) (t : tlb_state) : option Z :=
  let pi := page_index t (lin .>> DIR_TBL_SHIFT) in
  if tst pi then
    let ma := page_address t ((pi .& PI_SET_ENTRY_MASK) + access) in
    if tst ma then Some (ma .| (lin .& OFFSET_MASK)) else None
  else None.

(** The search through the sets: the first entry that hits. *)
Fixpoint search_sets (n : nat) (set entry lookup : Z) (read_op : bool) (t : tlb_state) : option TLB_ENTRY :=
  match n with
  | O => None
  | S n =>
      let e := tlb t set entry in
      if v e && (la e =? lookup) && (read_op || d e) then Some e
      else search_sets n (set + 1) entry lookup read_op t
  end.

(** The protection [lin2phy] takes from a directory and a table entry: that of the
    numerically lower of the two. *)
Definition prot_of (pe : Z) : Z :=
  let comb := PG_R .| PG_S in
  let comb := if tst (pe .& PE_U_S_MASK) then comb .| PG_U else comb in
  if tst (pe .& PE_R_W_MASK) then comb .| PG_W else comb.

Definition lin2phy_comb (pde pte : Z) : Z :=
  if pde .& (PE_U_S_MASK .| PE_R_W_MASK) <? pte .& (PE_U_S_MASK .| PE_R_W_MASK)
  then prot_of pde else prot_of pte.

(** That of [xtrn2phy]. *)
Definition xtrn2phy_comb (pde pte : Z) : Z :=
  let comb := PG_R .| PG_S in
  let comb := if tst ((pde .| pte) .& PE_U_S_MASK) then comb .| PG_U else comb in
  if tst ((pde .& pte) .& PE_R_W_MASK) then comb .| PG_W else comb.

(** The next set of an entry, advanced round robin. *)
Definition take_set (entry : Z) (t : tlb_state) : Z * tlb_state :=
  let set := next_set t entry in
  (set, set_next entry (u32 (set + 1) .& 3) t).

(** Drop the index of the entry about to be replaced. *)
Definition drop_index (set entry : Z) (t : tlb_state) : tlb_state :=
  let e := tlb t set entry in
  if v e then set_page_index (la e .>> DIR_TBL_SHIFT) PI_NOT_VALID t else t.

(** Enter a translation, its index and its mapped addresses. *)
Definition load_entry (set entry : Z) (e : TLB_ENTRY) (t : tlb_state) : tlb_state :=
  let t := set_entry set entry e (drop_index set entry t) in
  let pi := u8 ((set .<< PI_SET_SHIFT) .| (entry .<< PI_ENTRY_SHIFT)) in
  let t := set_page_index (la e .>> DIR_TBL_SHIFT) (PI_VALID .| pi) t in
  let t := set_page_address (pi .| PG_S .| PG_R) (pa e) t in
  let t := set_page_address (pi .| PG_S .| PG_W) NO_MAPPED_ADDRESS t in
  let t := set_page_address (pi .| PG_U .| PG_R) NO_MAPPED_ADDRESS t in
  let t := set_page_address (pi .| PG_U .| PG_W) NO_MAPPED_ADDRESS t in
  let t := if d e then set_page_address (pi .| PG_S .| PG_W) (pa e) t else t in
  if PG_U <=? mode e then
    let t := set_page_address (pi .| PG_U .| PG_R) (pa e) t in
    if tst (mode e .& PG_W) && d e then set_page_address (pi .| PG_U .| PG_W) (pa e) t else t
  else t.

Definition pde_address (pdbr lin : Z) : Z :=
  u32 ((pdbr .& PE_PFA_MASK) + (((lin .>> DIR_SHIFT) .& DIR_MASK) .<< 2)).
Definition pte_address (pde lin : Z) : Z :=
  u32 ((pde .& PE_PFA_MASK) + (((lin .>> TBL_SHIFT) .& TBL_MASK) .<< 2)).

(** ** The machine *)

Record mach (P : Type) := mkMach {
  mcpu : cpu;
  mmem : P;
  mtlb : tlb_state;
  TR_TCR : Z;
  TR_TDR : Z;
  mdbg : Debug.debug
}.
Arguments mkMach {P} _ _ _ _ _ _.
Arguments mcpu {P} _.
Arguments mmem {P} _.
Arguments mtlb {P} _.
Arguments TR_TCR {P} _.
Arguments TR_TDR {P} _.
Arguments mdbg {P} _.

Definition SET_mtlb {P} (t : tlb_state) (s : mach P) : mach P :=
  mkMach (mcpu s) (mmem s) t (TR_TCR s) (TR_TDR s) (mdbg s).
Definition SET_mmem {P} (m : P) (s : mach P) : mach P :=
  mkMach (mcpu s) m (mtlb s) (TR_TCR s) (TR_TDR s) (mdbg s).
Definition SET_TCR {P} (x : Z) (s : mach P) : mach P :=
  mkMach (mcpu s) (mmem s) (mtlb s) x (TR_TDR s) (mdbg s).
Definition SET_TDR {P} (x : Z) (s : mach P) : mach P :=
  mkMach (mcpu s) (mmem s) (mtlb s) (TR_TCR s) x (mdbg s).
Definition SET_mdbg {P} (x : Debug.debug) (s : mach P) : mach P :=
  mkMach (mcpu s) (mmem s) (mtlb s) (TR_TCR s) (TR_TDR s) x.

#[export] Instance HasCpu_mach P : HasCpu (mach P).
Proof.
  refine {| the_cpu := mcpu;
            put_cpu := fun c s => mkMach c (mmem s) (mtlb s) (TR_TCR s) (TR_TDR s) (mdbg s) |};
    intros; try destruct s; reflexivity.
Defined.

Section Machine.
Context {P : Type} `{PhyMem P}.

Abbreviation X := (M exn (mach P)).

(** A physical memory access of the machine. *)
Definition onmem {A} (m : M exn P A) : X A := fun s =>
  match m (mmem s) with
  | Ret a x => Ret a (SET_mmem x s)
  | Raise e x => Raise e (SET_mmem x s)
  | Undefined => Undefined
  end.

Definition ontlb (f : tlb_state -> tlb_state) : X unit := modify (fun s => SET_mtlb (f (mtlb s)) s).

(** Raise #PF for a linear address. *)
Definition page_fault (lin code : Z) : X unit :=
  modc (modify_cr (SET_CR_PFLA lin)) ;; PF_fault (u16 code).

(** The part of [lin2phy] after a miss. *)
Definition lin2phy_miss (lin access : Z) : X Z :=
  let entry := (lin .>> DIR_TBL_SHIFT) .& 7 in
  let lookup := lin .& not32 OFFSET_MASK in
  let read_op := negb (tst (access .& PG_W)) in
  pdbr <- getc (fun c => CR_PDBR (cr c)) ;;
  let pde_addr := pde_address pdbr lin in
  pde <- onmem (phy_read_dword pde_addr) ;;
  when (pde .& PE_P_MASK =? 0) (page_fault lin (access .<< 1)) ;;
  let pte_addr := pte_address pde lin in
  pte <- onmem (phy_read_dword pte_addr) ;;
  when (pte .& PE_P_MASK =? 0) (page_fault lin (access .<< 1)) ;;
  let comb := lin2phy_comb pde pte in
  when (access_check access comb) (page_fault lin ((access .<< 1) .| 1)) ;;
  t <- gets mtlb ;;
  let '(set, t) := take_set entry t in
  let e := mkTLB_ENTRY lookup (pte .& PE_PFA_MASK) true (negb read_op) comb in
  ontlb (fun _ => load_entry set entry e t) ;;
  let new_pde := pde .| PE_ACCESSED in
  let new_pte := pte .| PE_ACCESSED in
  let new_pte := if d e then new_pte .| PE_DIRTY else new_pte in
  when (negb (new_pte =? pte)) (onmem (phy_write_dword pte_addr new_pte)) ;;
  when (negb (new_pde =? pde)) (onmem (phy_write_dword pde_addr new_pde)) ;;
  ret (pa e .| (lin .& OFFSET_MASK)).

Definition lin2phy (lin access : Z) : X Z :=
  t <- gets mtlb ;;
  match fast_lookup lin access t with
  | Some a => ret a
  | None =>
      let entry := (lin .>> DIR_TBL_SHIFT) .& 7 in
      let lookup := lin .& not32 OFFSET_MASK in
      let read_op := negb (tst (access .& PG_W)) in
      match search_sets NR_TLB_SETS 0 entry lookup read_op t with
      | Some e =>
          when (access_check access (mode e)) (page_fault lin ((access .<< 1) .| 1)) ;;
          ret (pa e .| (lin .& OFFSET_MASK))
      | None => lin2phy_miss lin access
      end
  end.

(** ** External translation: [None] is a [FALSE] return. *)

Definition xtrn2phy_miss (lin access_request : Z) : X (option Z) :=
  let access := access_request .& 3 in
  let read_op := negb (tst (access .& PG_W)) in
  pdbr <- getc (fun c => CR_PDBR (cr c)) ;;
  let pde_addr := pde_address pdbr lin in
  pde <- onmem (phy_read_dword pde_addr) ;;
  if pde .& PE_P_MASK =? 0 then ret None else
  let pte_addr := pte_address pde lin in
  pte <- onmem (phy_read_dword pte_addr) ;;
  if pte .& PE_P_MASK =? 0 then ret None else
  let comb := xtrn2phy_comb pde pte in
  if access_check access comb then ret None else
  when (tst (access_request .& 4)
        && ((pde .& PE_ACCESSED =? 0) || (pte .& PE_ACCESSED =? 0)
            || (negb read_op && (pte .& PE_DIRTY =? 0))))
    (let new_pde := pde .| PE_ACCESSED in
     let new_pte := pte .| PE_ACCESSED in
     let new_pte := if negb read_op then new_pte .| PE_DIRTY else new_pte in
     when (negb (new_pte =? pte)) (onmem (phy_write_dword pte_addr new_pte)) ;;
     when (negb (new_pde =? pde)) (onmem (phy_write_dword pde_addr new_pde))) ;;
  ret (Some ((pte .& PE_PFA_MASK) .| (lin .& OFFSET_MASK))).

Definition xtrn2phy (lin access_request : Z) : X (option Z) :=
  let access := access_request .& 3 in
  t <- gets mtlb ;;
  match fast_lookup lin access t with
  | Some a => ret (Some a)
  | None =>
      let entry := (lin .>> DIR_TBL_SHIFT) .& 7 in
      let lookup := lin .& not32 OFFSET_MASK in
      let read_op := negb (tst (access .& PG_W)) in
      match search_sets NR_TLB_SETS 0 entry lookup read_op t with
      | Some e =>
          if access_check access (mode e) then ret None
          else ret (Some (pa e .| (lin .& OFFSET_MASK)))
      | None => xtrn2phy_miss lin access_request
      end
  end.

(** ** The test registers *)

(** The set whose entry has the linear address and the validity looked for. *)
Fixpoint test_search (n : nat) (set entry lookup : Z) (reqd_v : bool) (t : tlb_state) : option Z :=
  match n with
  | O => None
  | S n =>
      let e := tlb t set entry in
      if Bool.eqb (v e) reqd_v && (la e =? lookup) then Some set
      else test_search n (set + 1) entry lookup reqd_v t
  end.

Definition test_attributes (e : TLB_ENTRY) (tcr : Z) : Z :=
  let tcr := tcr .& not32 TCR_ATTR_MASK in
  let tcr := if d e then tcr .| TCR_D_MASK else tcr .| TCR_ND_MASK in
  let tcr := if tst (mode e .& PG_U) then tcr .| TCR_U_MASK else tcr .| TCR_NU_MASK in
  if tst (mode e .& PG_W) then tcr .| TCR_W_MASK else tcr .| TCR_NW_MASK.

Definition test_tlb (s : mach P) : mach P :=
  let tcr := TR_TCR s in
  let tdr := TR_TDR s in
  let entry := (tcr .>> DIR_TBL_SHIFT) .& 7 in
  if tst (tcr .& TCR_C_MASK) then
    let lookup := tcr .& TCR_LA_MASK in
    let reqd_v := tst (tcr .& TCR_V_MASK) in
    match test_search NR_TLB_SETS 0 entry lookup reqd_v (mtlb s) with
    | Some set =>
        let e := tlb (mtlb s) set entry in
        let tdr := (pa e .| TDR_HT_MASK) .| (set .<< TDR_REP_SHIFT) in
        SET_TCR (test_attributes e tcr) (SET_TDR tdr s)
    | None => SET_TDR (tdr .& not32 TDR_HT_MASK) s
    end
  else
    let '(set, t) := if tst (tdr .& TDR_HT_MASK)
                     then ((tdr .& TDR_REP_MASK) .>> TDR_REP_SHIFT, mtlb s)
                     else take_set entry (mtlb s) in
    let t := drop_index set entry t in
    let mode := Z.b2z (tst (tcr .& TCR_W_MASK)) in
    let temp_u := Z.b2z (tst (tcr .& TCR_U_MASK)) in
    let e := mkTLB_ENTRY (tcr .& TCR_LA_MASK) (tdr .& TDR_PA_MASK) (tst (tcr .& TCR_V_MASK))
               (tst (tcr .& TCR_D_MASK)) (mode .| (temp_u .<< 1)) in
    SET_mtlb (set_entry set entry e t) s.

End Machine.

(** ** The buffer's invariant *)

(** The place of a set and entry in [page_address]. *)
Definition slot (set entry : Z) : Z := set * 32 + entry * 4.

Definition set_range (set entry : Z) : Prop := 0 <= set < 4 /\ 0 <= entry < 8.

(** A valid entry caches the translation of a page that belongs to its row. *)
Definition entry_ok (entry : Z) (e : TLB_ENTRY) : Prop :=
  v e = true ->
  exists page, 0 <= page < 2 ^ 20 /\ la e = page * 2 ^ 12 /\ page mod 8 = entry
  /\ 0 <= mode e < 4 /\ 0 <= pa e < 2 ^ 32 /\ pa e mod 2 ^ 12 = 0.

(** The address the fast index gives an access: the frame when the entry allows
    it (a write only once the entry is dirty), else none. *)
Definition mapped (e : TLB_ENTRY) (access : Z) : Z :=
  if negb (access_check access (mode e)) && (negb (tst (access .& PG_W)) || d e)
  then pa e else NO_MAPPED_ADDRESS.

(** The index of a page is empty or names a valid entry for that page. *)
Definition index_ok (t : tlb_state) (page : Z) : Prop :=
  page_index t page = PI_NOT_VALID
  \/ exists set, 0 <= set < 4 /\ page_index t page = PI_VALID .| slot set (page mod 8)
     /\ let e := tlb t set (page mod 8) in
        v e = true /\ la e = page * 2 ^ 12
        /\ forall access, 0 <= access < 4 ->
           page_address t (slot set (page mod 8) + access) = mapped e access.

Record tlb_inv (t : tlb_state) : Prop := {
  inv_next : forall entry, 0 <= entry < 8 -> 0 <= next_set t entry < 4;
  inv_entry : forall set entry, set_range set entry -> entry_ok entry (tlb t set entry);
  inv_index : forall page, 0 <= page < 2 ^ 20 -> index_ok t page
}.

(** Evaluate tests on literals. *)
Ltac closed_tests :=
  repeat match goal with
  | |- context [tst (?m .& 1)] =>
      let b := eval vm_compute in (tst (m .& 1)) in change (tst (m .& 1)) with b
  | |- context [2 <=? ?m] => let b := eval vm_compute in (2 <=? m) in change (2 <=? m) with b
  | |- context [access_check ?a ?m] =>
      let b := eval vm_compute in (access_check a m) in change (access_check a m) with b
  end.

Ltac four x := assert (x = 0 \/ x = 1 \/ x = 2 \/ x = 3) as [-> | [-> | [-> | ->]]] by lia.
Ltac eight x :=
  assert (x = 0 \/ x = 1 \/ x = 2 \/ x = 3 \/ x = 4 \/ x = 5 \/ x = 6 \/ x = 7)
    as [-> | [-> | [-> | [-> | [-> | [-> | [-> | ->]]]]]]] by lia.

Lemma slot_index set entry :
  set_range set entry ->
  u8 ((set .<< PI_SET_SHIFT) .| (entry .<< PI_ENTRY_SHIFT)) = slot set entry
  /\ (PI_VALID .| slot set entry) .& PI_SET_ENTRY_MASK = slot set entry
  /\ PI_VALID .| slot set entry <> 0
  /\ forall a, 0 <= a < 4 -> slot set entry .| a = slot set entry + a.
Proof.
  intros [Hs He]. split; [|split; [|split]].
  1-3: four set; eight entry; vm_compute; congruence.
  intros a Ha. four set; eight entry; four a; reflexivity.
Qed.

Lemma slot_inj s1 e1 s2 e2 a1 a2 :
  set_range s1 e1 -> set_range s2 e2 -> 0 <= a1 < 4 -> 0 <= a2 < 4 ->
  slot s1 e1 + a1 = slot s2 e2 + a2 -> s1 = s2 /\ e1 = e2.
Proof. unfold slot, set_range. lia. Qed.

Lemma page_of x : (x * 2 ^ 12) .>> DIR_TBL_SHIFT = x.
Proof. unfold DIR_TBL_SHIFT. rewrite Z.shiftr_div_pow2 by lia. apply Z.div_mul. lia. Qed.

Lemma mod8_range page : 0 <= page mod 8 < 8.
Proof. apply Z.mod_pos_bound. lia. Qed.

Lemma drop_tlb set entry t : tlb (drop_index set entry t) = tlb t.
Proof. unfold drop_index. destruct (v (tlb t set entry)); reflexivity. Qed.

Lemma drop_other set entry t :
  next_set (drop_index set entry t) = next_set t /\ page_address (drop_index set entry t) = page_address t.
Proof. unfold drop_index. destruct (v (tlb t set entry)); split; reflexivity. Qed.

Lemma set_entry_at set entry e t s n :
  tlb (set_entry set entry e t) s n = if (s =? set) && (n =? entry) then e else tlb t s n.
Proof. reflexivity. Qed.

(** After an entry's index has been dropped no page is indexed to it. *)
Lemma drop_index_ok set entry t page e' :
  tlb_inv t -> 0 <= page < 2 ^ 20 ->
  index_ok (set_entry set entry e' (drop_index set entry t)) page
  /\ (page_index (drop_index set entry t) page = PI_NOT_VALID
      \/ exists set', 0 <= set' < 4 /\ page_index (drop_index set entry t) page = PI_VALID .| slot set' (page mod 8)
         /\ (set', page mod 8) <> (set, entry)).
Proof.
  intros Hi Hp. pose proof (drop_other set entry t) as [_ Ea].
  destruct (inv_index t Hi page Hp) as [H0 | (set' & Hs' & Ei & Hv & Hla & Hm)].
  - assert (H0' : page_index (drop_index set entry t) page = PI_NOT_VALID).
    { unfold drop_index. destruct (v (tlb t set entry)); [|exact H0]. cbn [page_index set_page_index]. unfold upd.
        destruct (page =? _); auto. }
    split; left; exact H0'.
  - destruct (decide ((set', page mod 8) = (set, entry))) as [E | NE].
    + injection E as -> <-.
      assert (H0' : page_index (drop_index set (page mod 8) t) page = PI_NOT_VALID).
      { unfold drop_index. rewrite Hv, Hla, page_of. cbn. unfold upd. rewrite Z.eqb_refl. reflexivity. }
      split; left; exact H0'.
    + assert (Ei' : page_index (drop_index set entry t) page = PI_NOT_VALID
                    \/ page_index (drop_index set entry t) page = PI_VALID .| slot set' (page mod 8)).
      { unfold drop_index. destruct (v (tlb t set entry)); [|auto]. cbn [page_index set_page_index]. unfold upd.
        destruct (page =? _); auto. }
      destruct Ei' as [Ei' | Ei']; [split; left; exact Ei'|].
      split; [|right; exists set'; auto].
      right. exists set'. split; [exact Hs'|]. split; [exact Ei'|].
      rewrite set_entry_at. replace ((set' =? set) && (page mod 8 =? entry)) with false
        by (destruct (Z.eqb_spec set' set), (Z.eqb_spec (page mod 8) entry); auto; congruence).
      cbn zeta. rewrite drop_tlb. cbn [page_address set_entry]. rewrite Ea. auto.
Qed.

Lemma replace_inv set entry e t :
  tlb_inv t -> set_range set entry -> entry_ok entry e ->
  tlb_inv (set_entry set entry e (drop_index set entry t)).
Proof.
  intros Hi Hr He. pose proof (drop_other set entry t) as [En _]. split.
  - intros n Hn. cbn [next_set set_entry]. rewrite En. apply (inv_next t Hi n Hn).
  - intros s n Hsn. rewrite set_entry_at, drop_tlb.
    destruct (Z.eqb_spec s set), (Z.eqb_spec n entry); cbn [andb]; subst;
      try apply (inv_entry t Hi); assumption.
  - intros page Hp. apply drop_index_ok; assumption.
Qed.

Lemma next_inv t entry x : tlb_inv t -> 0 <= x < 4 -> tlb_inv (set_next entry x t).
Proof.
  intros [Hn He Hp] Hx. split; [|exact He | exact Hp].
  intros n Hn'. cbn. unfold upd. destruct (_ =? _); auto.
Qed.

Lemma take_set_inv t entry :
  tlb_inv t -> 0 <= entry < 8 ->
  let '(set, t') := take_set entry t in 0 <= set < 4 /\ tlb_inv t' /\ tlb t' = tlb t.
Proof.
  intros Hi He. unfold take_set. pose proof (inv_next t Hi entry He) as Hs.
  split; [exact Hs|]. split; [|reflexivity]. apply next_inv; [exact Hi|].
  change 3 with (2 ^ 2 - 1). rewrite land_mask by lia. apply Z.mod_pos_bound. lia.
Qed.

(** What loading an entry does to the buffer. *)
Lemma load_entry_spec set entry e t :
  set_range set entry -> entry_ok entry e -> v e = true ->
  let t' := load_entry set entry e t in
  let t0 := set_entry set entry e (drop_index set entry t) in
  tlb t' = tlb t0 /\ next_set t' = next_set t0
  /\ page_index t' = upd (page_index t0) (la e .>> DIR_TBL_SHIFT) (PI_VALID .| slot set entry)
  /\ (forall a, 0 <= a < 4 -> page_address t' (slot set entry + a) = mapped e a)
  /\ (forall j, j < slot set entry \/ slot set entry + 4 <= j -> page_address t' j = page_address t0 j).
Proof.
  intros Hr He Hv t' t0. destruct (He Hv) as (page & _ & _ & _ & Hmode & _).
  destruct (slot_index set entry Hr) as (Epi & _ & _ & Eor).
  unfold t', load_entry. fold t0. rewrite Epi.
  change PG_S with 0. change PG_R with 0. change PG_W with 1. change PG_U with 2.
  rewrite !Z.lor_0_r, <- !Z.lor_assoc. change (2 .| 1) with 3. rewrite !Eor by lia.
  set (sl := slot set entry). clearbody sl.
  split; [|split; [|split; [|split]]].
  1-3: destruct (d e), (2 <=? mode e); cbn [andb]; rewrite ?andb_false_r; try destruct (tst _); reflexivity.
  - intros a Ha. unfold mapped. change PG_W with 1.
    assert (Hq : forall x y, (sl + x =? sl + y) = (x =? y)) by (intros; destruct (Z.eqb_spec (sl + x) (sl + y)), (Z.eqb_spec x y); auto; lia).
    assert (Hq0 : forall x, (sl + x =? sl) = (x =? 0)) by (intros; destruct (Z.eqb_spec (sl + x) sl), (Z.eqb_spec x 0); auto; lia).
    set (m := mode e) in *. clearbody m.
    four m; four a; destruct (d e); closed_tests;
      cbn [andb orb negb page_address set_page_address set_page_index]; unfold upd;
      rewrite ?Hq, ?Hq0; reflexivity.
  - intros j Hj. assert (Hx : forall x, 0 <= x < 4 -> (j =? sl + x) = false) by (intros; apply Z.eqb_neq; lia).
    assert (Hx0 : (j =? sl) = false) by (apply Z.eqb_neq; lia).
    destruct (d e), (2 <=? mode e); cbn [andb]; rewrite ?andb_false_r; try destruct (tst _);
      cbn [andb page_address set_page_address set_page_index]; unfold upd; rewrite ?Hx0, ?Hx by lia; reflexivity.
Qed.

Lemma load_inv set entry e t :
  tlb_inv t -> set_range set entry -> entry_ok entry e -> v e = true ->
  tlb_inv (load_entry set entry e t).
Proof.
  intros Hi Hr He Hv. pose proof (replace_inv set entry e t Hi Hr He) as H0.
  destruct (load_entry_spec set entry e t Hr He Hv) as (Et & En & Ei & Ea & Eo).
  destruct (He Hv) as (pg & Hpg & Hla & Hmod & _).
  set (t0 := set_entry set entry e (drop_index set entry t)) in *.
  split; [rewrite En; apply H0 | rewrite Et; apply H0 |].
  intros page Hp. unfold index_ok. rewrite Ei, Et, Hla, page_of. unfold upd.
  destruct (Z.eqb_spec page pg) as [-> | NE].
  - right. exists set. split; [apply Hr|]. rewrite Hmod. split; [reflexivity|].
    assert (Ee : tlb t0 set entry = e) by (unfold t0; rewrite set_entry_at, !Z.eqb_refl; reflexivity).
    rewrite Ee. auto.
  - destruct (drop_index_ok set entry t page e Hi Hp) as [Hok HD].
    destruct HD as [H00 | (set' & Hs' & Ei' & HNE)]; [left; exact H00|].
    destruct Hok as [H00 | (set2 & Hs2 & E2 & Hv2 & Hl2 & Hm2)]; [left; exact H00|].
    right. exists set2. split; [exact Hs2|]. split; [exact E2|]. split; [exact Hv2|]. split; [exact Hl2|].
    intros a Ha. rewrite Eo; [exact (Hm2 a Ha)|].
    assert ((set2, page mod 8) <> (set, entry)).
    { intros [= -> E]. rewrite E in Hl2. fold t0 in Hl2. unfold t0 in Hl2.
      rewrite set_entry_at, !Z.eqb_refl in Hl2. cbn [andb] in Hl2. lia. }
    pose proof (mod8_range page). unfold slot. destruct Hr.
    destruct (Z.eq_dec set2 set), (Z.eq_dec (page mod 8) entry); [congruence | lia..].
Qed.

(** *** Flushing *)

Definition is_valid (t : tlb_state) (set entry : Z) : bool := v (tlb t set entry).

Lemma flush_entry_inv set entry t :
  tlb_inv t -> set_range set entry -> tlb_inv (flush_entry set entry t).
Proof.
  intros Hi Hr. unfold flush_entry. fold (drop_index set entry t).
  apply replace_inv; [exact Hi | exact Hr |]. intros Hv. discriminate.
Qed.

Lemma flush_entry_valid set entry t s n :
  is_valid (flush_entry set entry t) s n = is_valid t s n && negb ((s =? set) && (n =? entry)).
Proof.
  unfold is_valid, flush_entry. rewrite set_entry_at.
  replace (tlb (if v (tlb t set entry) then _ else t) s n) with (tlb t s n) by (destruct (v _); reflexivity).
  destruct ((s =? set) && (n =? entry)); cbn; [rewrite andb_false_r | rewrite andb_true_r]; reflexivity.
Qed.

Lemma flush_entries_spec set k : forall entry t,
  tlb_inv t -> 0 <= set < 4 -> 0 <= entry -> entry + Z.of_nat k <= 8 ->
  tlb_inv (flush_entries set k entry t)
  /\ forall s n, is_valid (flush_entries set k entry t) s n
     = is_valid t s n && negb ((s =? set) && (entry <=? n) && (n <? entry + Z.of_nat k)).
Proof.
  induction k as [|k IH]; intros entry t Hi Hs He Hk; cbn [flush_entries].
  - split; [exact Hi|]. intros s n. destruct (Z.leb_spec entry n), (Z.ltb_spec n (entry + Z.of_nat 0)); try lia;
      rewrite ?andb_false_r, andb_true_r; reflexivity.
  - destruct (IH (entry + 1) (flush_entry set entry t)) as [Hi' Hv']; [|lia..|].
    { apply flush_entry_inv; [exact Hi | split; lia]. }
    split; [exact Hi'|]. intros s n. rewrite Hv', flush_entry_valid, <- andb_assoc. f_equal.
    destruct (s =? set); [|reflexivity]. cbn [andb].
    destruct (Z.eqb_spec n entry), (Z.leb_spec entry n), (Z.leb_spec (entry + 1) n),
      (Z.ltb_spec n (entry + 1 + Z.of_nat k)), (Z.ltb_spec n (entry + Z.of_nat (S k))); lia || reflexivity.
Qed.

Lemma flush_sets_spec k : forall set t,
  tlb_inv t -> 0 <= set -> set + Z.of_nat k <= 4 ->
  tlb_inv (flush_sets k set t)
  /\ forall s n, 0 <= n < 8 -> set <= s < set + Z.of_nat k \/ is_valid t s n = false ->
     is_valid (flush_sets k set t) s n = false.
Proof.
  induction k as [|k IH]; intros set t Hi Hs Hk; cbn [flush_sets].
  - split; [exact Hi|]. intros s n _ [? | Hv]; [lia | exact Hv].
  - destruct (flush_entries_spec set 8 0 t Hi) as [Hi' Hv']; [lia..|].
    destruct (IH (set + 1) (flush_entries set 8 0 t) Hi') as [Hi'' Hv'']; [lia..|].
    split; [exact Hi''|]. intros s n Hn Hor. apply Hv''; [exact Hn|].
    destruct (Z.eq_dec s set) as [-> | NE].
    + right. rewrite Hv', Z.eqb_refl. destruct (Z.leb_spec 0 n); [|lia].
      destruct (Z.ltb_spec n (0 + Z.of_nat 8)); [|lia]. apply andb_false_r.
    + destruct Hor as [? | Hf]; [left; lia | right; rewrite Hv', Hf; reflexivity].
Qed.

Lemma flush_spec t :
  tlb_inv t ->
  tlb_inv (flush_tlb t) /\ (forall set entry, set_range set entry -> v (tlb (flush_tlb t) set entry) = false)
  /\ forall page, 0 <= page < 2 ^ 20 -> page_index (flush_tlb t) page = PI_NOT_VALID.
Proof.
  intros Hi. destruct (flush_sets_spec 4 0 t Hi) as [Hi' Hv]; [lia..|].
  assert (Hv' : forall set entry, set_range set entry -> v (tlb (flush_tlb t) set entry) = false)
    by (intros set entry [Hs He]; apply Hv; [exact He | left; cbn; lia]).
  split; [exact Hi'|]. split; [exact Hv'|].
  intros page Hp. destruct (inv_index _ Hi' page Hp) as [E | (set & Hs & _ & Hve & _)]; [exact E|].
  fold (flush_tlb t) in Hve. cbn zeta in Hve. rewrite Hv' in Hve; [discriminate|].
  split; [exact Hs | apply mod8_range].
Qed.

(** *** Looking up *)

Lemma search_sets_spec k entry lookup read_op t e : forall set,
  search_sets k set entry lookup read_op t = Some e ->
  exists s, set <= s < set + Z.of_nat k /\ e = tlb t s entry /\ v e = true /\ la e = lookup
  /\ read_op || d e = true.
Proof.
  induction k as [|k IH]; intros set; cbn [search_sets]; [discriminate|].
  destruct (v (tlb t set entry) && (la (tlb t set entry) =? lookup) && (read_op || d (tlb t set entry))) eqn:Eh.
  - intros [= <-]. apply andb_prop in Eh as [Eh E3]. apply andb_prop in Eh as [E1 E2].
    apply Z.eqb_eq in E2. exists set. repeat split; auto; lia.
  - intros Hs. destruct (IH (set + 1) Hs) as (s & Hr & Hrest). exists s. split; [lia | exact Hrest].
Qed.

Lemma lin_split lin :
  0 <= lin < 2 ^ 32 ->
  let page := lin / 2 ^ 12 in
  lin .>> DIR_TBL_SHIFT = page /\ 0 <= page < 2 ^ 20
  /\ (lin .>> DIR_TBL_SHIFT) .& 7 = page mod 8 /\ lin .& not32 OFFSET_MASK = page * 2 ^ 12
  /\ lin .& OFFSET_MASK = lin mod 2 ^ 12.
Proof.
  intros Hl page. assert (Es : lin .>> DIR_TBL_SHIFT = page) by (apply Z.shiftr_div_pow2; unfold DIR_TBL_SHIFT; lia).
  assert (Hp : 0 <= page < 2 ^ 20) by (split; [apply Z.div_pos | apply Z.div_lt_upper_bound]; lia).
  split; [exact Es|]. split; [exact Hp|]. split; [|split].
  - rewrite Es. change 7 with (2 ^ 3 - 1). apply land_mask. lia.
  - change (not32 OFFSET_MASK) with (Z.ones 32 - Z.ones 12).
    assert (Hb : lin .& (Z.ones 32 - Z.ones 12) = Z.ldiff lin (Z.ones 12)).
    { apply Z.bits_inj'. intros i Hi. rewrite Z.land_spec, Z.ldiff_spec.
      change (Z.ones 32 - Z.ones 12) with (Z.shiftl (Z.ones 20) 12). rewrite Z.shiftl_spec by lia.
      destruct (Z.ltb_spec i 32).
      - f_equal. rewrite !Z.testbit_ones by lia. destruct (Z.leb_spec 0 (i - 12)), (Z.ltb_spec (i - 12) 20),
          (Z.leb_spec 0 i), (Z.ltb_spec i 12); cbn; lia || reflexivity.
      - rewrite (proj1 (range_bits lin 32 ltac:(lia)) Hl i) by lia. reflexivity. }
    rewrite Hb, Z.ldiff_ones_r, Z.shiftr_div_pow2, Z.shiftl_mul_pow2 by lia. reflexivity.
  - change OFFSET_MASK with (2 ^ 12 - 1). apply land_mask. lia.
Qed.

(** A fast hit is a valid entry that allows the access. *)
Lemma fast_lookup_spec lin access t a :
  tlb_inv t -> 0 <= lin < 2 ^ 32 -> 0 <= access < 4 -> fast_lookup lin access t = Some a ->
  exists set, 0 <= set < 4 /\
  let e := tlb t set ((lin / 2 ^ 12) mod 8) in
  v e = true /\ la e = lin / 2 ^ 12 * 2 ^ 12 /\ access_check access (mode e) = false
  /\ negb (tst (access .& PG_W)) || d e = true /\ a = pa e .| (lin .& OFFSET_MASK).
Proof.
  intros Hi Hl Ha. destruct (lin_split lin Hl) as (Es & Hp & _). unfold fast_lookup. rewrite Es.
  destruct (inv_index t Hi _ Hp) as [-> | (set & Hs & Ei & Hv & Hla & Hm)]; [discriminate|].
  rewrite Ei. destruct (slot_index set ((lin / 2 ^ 12) mod 8)) as (_ & Em & Hne & _);
    [split; [exact Hs | apply mod8_range]|].
  unfold tst at 1. rewrite (proj2 (Z.eqb_neq _ _) Hne), Em. cbn [negb].
  rewrite (Hm access Ha). unfold mapped.
  destruct (access_check access _) eqn:Ec; [cbn; discriminate|].
  destruct (negb (tst (access .& PG_W)) || d _) eqn:Ed; [|cbn; discriminate]. cbn [negb andb].
  destruct (tst (pa _)); [|discriminate]. intros [= <-]. exists set. cbn zeta in *.
  repeat split; auto; apply Hs.
Qed.

(** *** Parts of a table entry *)

Lemma prot_range x : 0 <= prot_of x < 4.
Proof. unfold prot_of. destruct (tst _), (tst _); vm_compute; split; congruence. Qed.

Lemma comb_range x y : 0 <= lin2phy_comb x y < 4.
Proof. unfold lin2phy_comb. destruct (_ <? _); apply prot_range. Qed.

Lemma frame_ok x : 0 <= x .& PE_PFA_MASK < 2 ^ 32 /\ (x .& PE_PFA_MASK) mod 2 ^ 12 = 0.
Proof.
  split.
  - apply range_bits; [lia|]. intros i Hi. rewrite Z.land_spec.
    rewrite (proj1 (range_bits PE_PFA_MASK 32 ltac:(lia)) ltac:(vm_compute; split; congruence) i Hi).
    apply andb_false_r.
  - rewrite <- land_mask, <- Z.land_assoc by lia. change (PE_PFA_MASK .& (2 ^ 12 - 1)) with 0. apply Z.land_0_r.
Qed.

(** A page fault changes the registers and does not return. *)
Lemma PF_status {P} code (s : mach P) : exists e c, PF_fault code s = Raise e (put_cpu c s).
Proof.
  destruct (interface_active (xs (mcpu s))) eqn:Ei.
  - unfold PF_fault. erewrite bind_raise; [eauto|]. unfold check_interface_active. rewrite getc_bind.
    cbn [the_cpu HasCpu_mach]. rewrite Ei. reflexivity.
  - rewrite page_run by exact Ei. unfold fault_outcome. destruct (escalation _ _); eauto.
Qed.

(** ** The specification: a walk of the page tables *)

Inductive walk_result := NotPresent | Mapped (prot frame : Z).

Section Walk.
Context {P : Type} `{PhyMemLaws P}.

Definition walk (m : P) (pdbr lin : Z) : walk_result :=
  let pde := dword_at m (pde_address pdbr lin) in
  if pde .& PE_P_MASK =? 0 then NotPresent
  else
    let pte := dword_at m (pte_address pde lin) in
    if pte .& PE_P_MASK =? 0 then NotPresent
    else Mapped (lin2phy_comb pde pte) (pte .& PE_PFA_MASK).

(** Error code or physical address. *)
Definition translate (m : P) (pdbr lin access : Z) : Z + Z :=
  match walk m pdbr lin with
  | NotPresent => inl (access .<< 1)
  | Mapped prot frame =>
      if access_check access prot then inl ((access .<< 1) .| 1)
      else inr (frame .| (lin .& OFFSET_MASK))
  end.

(** The page tables of a directory are in RAM. *)
Definition tables_ok (m : P) (pdbr : Z) : Prop :=
  forall lin, 0 <= lin < 2 ^ 32 ->
  is_ram m (pde_address pdbr lin) 4
  /\ (dword_at m (pde_address pdbr lin) .& PE_P_MASK <> 0 ->
      is_ram m (pte_address (dword_at m (pde_address pdbr lin)) lin) 4).

(** Every valid entry of the buffer is what the tables say. *)
Definition coherent (m : P) (pdbr : Z) (t : tlb_state) : Prop :=
  forall set entry, set_range set entry ->
  let e := tlb t set entry in v e = true -> walk m pdbr (la e) = Mapped (mode e) (pa e).

Definition outside (a b : Z) : Prop := b < a \/ a + 4 <= b.

(** A byte that is in no table entry. *)
Definition off_tables (m : P) (pdbr b : Z) : Prop :=
  forall lin, 0 <= lin < 2 ^ 32 ->
  outside (pde_address pdbr lin) b
  /\ (dword_at m (pde_address pdbr lin) .& PE_P_MASK <> 0 ->
      outside (pte_address (dword_at m (pde_address pdbr lin)) lin) b).

(** *** Memories that differ in accessed and dirty bits only *)

Definition ad_mask : Z := 0xffffff9f.

Definition ad_equiv (m m' : P) : Prop :=
  (forall a, a mod 4 = 0 -> dword_at m a .& ad_mask = dword_at m' a .& ad_mask)
  /\ (forall a k, is_ram m a k <-> is_ram m' a k).

#[export] Instance ad_equiv_equivalence : Equivalence ad_equiv.
Proof.
  split.
  - intros m. split; reflexivity.
  - intros m m' [E R]. split; [intros a Ha; symmetry; auto | intros a k; symmetry; auto].
  - intros m1 m2 m3 [E R] [E' R']. split; [intros a Ha; rewrite E, E' by assumption; reflexivity|].
    intros a k. rewrite R, R'. reflexivity.
Qed.

Lemma dword_range m a : is_ram m a 4 -> 0 <= dword_at m a < 2 ^ 32.
Proof.
  intros HR. pose proof (ram_byte m a 4 HR 0 ltac:(lia)). pose proof (ram_byte m a 4 HR 1 ltac:(lia)).
  pose proof (ram_byte m a 4 HR 2 ltac:(lia)). pose proof (ram_byte m a 4 HR 3 ltac:(lia)).
  rewrite Z.add_0_r in *. cbn [value_at].
  replace (a + 1 + 1 + 1) with (a + 3) by lia. replace (a + 1 + 1) with (a + 2) by lia. lia.
Qed.

Lemma stored_ad m m' a x :
  stored m m' a 4 x -> a mod 4 = 0 -> x .& ad_mask = dword_at m a .& ad_mask -> ad_equiv m m'.
Proof.
  intros (Ev & Eo & Er) Ha Ex. split; [|intros; symmetry; apply Er].
  intros b Hb. destruct (Z.eq_dec b a) as [-> | NE]; [rewrite Ev; auto|].
  f_equal. pose proof (Z_div_mod_eq_full a 4). pose proof (Z_div_mod_eq_full b 4).
  cbn [value_at]. rewrite !Eo by lia. reflexivity.
Qed.

Lemma ad_or x k : k .& ad_mask = 0 -> (x .| k) .& ad_mask = x .& ad_mask.
Proof. intros E. rewrite Z.land_lor_distr_l, E. apply Z.lor_0_r. Qed.

Lemma ad_land x y k : k .& ad_mask = k -> x .& ad_mask = y .& ad_mask -> x .& k = y .& k.
Proof.
  intros Ek E. rewrite <- Ek, (Z.land_comm k), !Z.land_assoc, E. reflexivity.
Qed.

Lemma frame_mod4 x : (x .& PE_PFA_MASK) mod 4 = 0.
Proof.
  change 4 with (2 ^ 2). rewrite <- land_mask, <- Z.land_assoc by lia.
  change (PE_PFA_MASK .& (2 ^ 2 - 1)) with 0. apply Z.land_0_r.
Qed.

Lemma shl2_mod4 x : (x .<< 2) mod 4 = 0.
Proof.
  change 4 with (2 ^ 2). unfold u32. rewrite mod_mod_le, Z.shiftl_mul_pow2 by lia.
  apply Z.mod_mul. lia.
Qed.

Lemma pe_addr_mod4 x y : u32 ((x .& PE_PFA_MASK) + (y .<< 2)) mod 4 = 0.
Proof.
  unfold u32 at 1. change 4 with (2 ^ 2). rewrite mod_mod_le, Z.add_mod by lia.
  change (2 ^ 2) with 4. rewrite frame_mod4, shl2_mod4. reflexivity.
Qed.

Lemma pde_addr_mod4 pdbr lin : pde_address pdbr lin mod 4 = 0.
Proof. apply pe_addr_mod4. Qed.

Lemma pte_addr_mod4 pde lin : pte_address pde lin mod 4 = 0.
Proof. apply pe_addr_mod4. Qed.

(** The fields of an entry that a walk uses. *)
Lemma ad_fields x y :
  x .& ad_mask = y .& ad_mask ->
  x .& PE_P_MASK = y .& PE_P_MASK /\ x .& PE_PFA_MASK = y .& PE_PFA_MASK /\ prot_of x = prot_of y
  /\ x .& (PE_U_S_MASK .| PE_R_W_MASK) = y .& (PE_U_S_MASK .| PE_R_W_MASK).
Proof.
  intros E. unfold prot_of.
  rewrite (ad_land x y PE_U_S_MASK), (ad_land x y PE_R_W_MASK) by (reflexivity || exact E).
  repeat split; apply ad_land; reflexivity || exact E.
Qed.

Lemma ad_pte m m' pdbr lin :
  ad_equiv m m' ->
  pte_address (dword_at m (pde_address pdbr lin)) lin = pte_address (dword_at m' (pde_address pdbr lin)) lin.
Proof.
  intros [E _]. destruct (ad_fields _ _ (E _ (pde_addr_mod4 pdbr lin))) as (_ & Ef & _).
  unfold pte_address at 1 2. rewrite Ef. reflexivity.
Qed.

#[export] Instance walk_proper : Proper (ad_equiv ==> eq ==> eq ==> eq) walk.
Proof.
  intros m m' HE pdbr _ <- lin _ <-. unfold walk. cbn zeta. rewrite <- (ad_pte m m' pdbr lin HE).
  destruct HE as [E _].
  destruct (ad_fields _ _ (E _ (pde_addr_mod4 pdbr lin))) as (Ep & _ & Epr & Eu). rewrite Ep.
  destruct (_ =? 0); [reflexivity|].
  set (b := pte_address _ lin).
  destruct (ad_fields _ _ (E b (pte_addr_mod4 _ lin))) as (Ep' & Ef' & Epr' & Eu'). rewrite Ep'.
  destruct (_ =? 0); [reflexivity|]. unfold lin2phy_comb. rewrite Eu, Eu', Epr, Epr', Ef'. reflexivity.
Qed.

#[export] Instance tables_ok_proper : Proper (ad_equiv ==> eq ==> iff) tables_ok.
Proof.
  intros m m' HE pdbr _ <-. unfold tables_ok.
  assert (Hd : forall lin, dword_at m (pde_address pdbr lin) .& PE_P_MASK
                           = dword_at m' (pde_address pdbr lin) .& PE_P_MASK)
    by (intros lin; apply (ad_fields _ _ (proj1 HE _ (pde_addr_mod4 pdbr lin)))).
  split; intros HT lin Hl; destruct (HT lin Hl) as [H1 H2].
  - rewrite <- (ad_pte m m' pdbr lin HE), <- Hd, <- !(proj2 HE _ 4). auto.
  - rewrite (ad_pte m m' pdbr lin HE), Hd, !(proj2 HE _ 4). auto.
Qed.

(** A walk sees the page of the address only. *)
Lemma walk_page m pdbr lin :
  0 <= lin < 2 ^ 32 -> walk m pdbr (lin / 2 ^ 12 * 2 ^ 12) = walk m pdbr lin.
Proof.
  intros Hl. assert (E1 : forall x, (lin / 2 ^ 12 * 2 ^ 12) .>> TBL_SHIFT .& x = lin .>> TBL_SHIFT .& x).
  { intros x. f_equal. unfold TBL_SHIFT. rewrite !Z.shiftr_div_pow2, Z.div_mul by lia. reflexivity. }
  assert (E2 : (lin / 2 ^ 12 * 2 ^ 12) .>> DIR_SHIFT = lin .>> DIR_SHIFT).
  { unfold DIR_SHIFT. rewrite !Z.shiftr_div_pow2 by lia. change (2 ^ 22) with (2 ^ 12 * 2 ^ 10).
    rewrite <- !Z.div_div, Z.div_mul by lia. reflexivity. }
  unfold walk, pde_address, pte_address. rewrite E1, E2. reflexivity.
Qed.
End Walk.

(** ** Translation refines the walk *)

Section Refine.
Context {P : Type} `{PhyMemLaws P}.

Abbreviation pdbr s := (CR_PDBR (cr (mcpu s))).

Record wf (s : mach P) : Prop := {
  wf_inv : tlb_inv (mtlb s);
  wf_coherent : coherent (mmem s) (pdbr s) (mtlb s);
  wf_tables : tables_ok (mmem s) (pdbr s)
}.

Lemma page_fault_raises lin code (s : mach P) : exists e s', page_fault lin code s = Raise e s'.
Proof.
  unfold page_fault. rewrite modc_bind. destruct (PF_status (u16 code) (put_cpu (modify_cr (SET_CR_PFLA lin) (the_cpu s)) s))
    as (e & c & ->). eauto.
Qed.

(** What follows a page fault does not run. *)
Lemma page_fault_then {A} lin code (k k' : unit -> M exn (mach P) A) s :
  bind (page_fault lin code) k s = bind (page_fault lin code) k' s.
Proof.
  destruct (page_fault_raises lin code s) as (e & s' & E).
  rewrite !(bind_raise _ _ _ _ _ E). reflexivity.
Qed.

Lemma SET_mmem_id (s : mach P) : SET_mmem (mmem s) s = s.
Proof. destruct s; reflexivity. Qed.

Lemma read_run a (s : mach P) :
  is_ram (mmem s) a 4 -> onmem (phy_read_dword a) s = Ret (dword_at (mmem s) a) s.
Proof. intros HR. unfold onmem. rewrite read_dword_ram, SET_mmem_id by exact HR. reflexivity. Qed.

(** Writing back an entry with more accessed or dirty bits. *)
Lemma write_back (s : mach P) m0 a x :
  ad_equiv m0 (mmem s) -> is_ram m0 a 4 -> a mod 4 = 0 ->
  0 <= x < 2 ^ 32 -> x .& ad_mask = dword_at m0 a .& ad_mask ->
  forall b : bool, exists m', when b (onmem (phy_write_dword a x)) s = Ret tt (SET_mmem m' s) /\ ad_equiv m0 m'
  /\ forall i, outside a i -> byte_at m' i = byte_at (mmem s) i.
Proof.
  intros HE HR Ha Hx Em b. destruct b; cbn [when].
  - destruct (write_dword_ram (mmem s) a x) as (m' & E & Hst); [apply HE, HR | exact Hx|].
    exists m'. unfold onmem. rewrite E. split; [reflexivity|]. split; [|apply Hst].
    transitivity (mmem s); [exact HE|]. apply (stored_ad _ _ a x Hst Ha).
    rewrite Em. apply HE, Ha.
  - exists (mmem s). rewrite SET_mmem_id. split; [reflexivity|]. split; [exact HE | reflexivity].
Qed.

(** The entries of the buffer after a load: the new one, and old ones. *)
Lemma coherent_load m pd t set entry e :
  set_range set entry -> entry_ok entry e -> v e = true ->
  coherent m pd t -> walk m pd (la e) = Mapped (mode e) (pa e) ->
  coherent m pd (load_entry set entry e t).
Proof.
  intros Hr He Hv HC HW. destruct (load_entry_spec set entry e t Hr He Hv) as (Et & _).
  intros s n Hsn. cbn zeta. rewrite Et, set_entry_at, drop_tlb.
  destruct ((s =? set) && (n =? entry)); [intros _; exact HW | apply HC, Hsn].
Qed.

Lemma coherent_ad m m' pd t : ad_equiv m m' -> coherent m pd t -> coherent m' pd t.
Proof. intros HE HC set entry Hr. cbn zeta. intros Hv.
  rewrite <- HE. apply HC; assumption. Qed.

Definition refines (lin access : Z) (s : mach P) (r : outcome exn (mach P) Z) : Prop :=
  match translate (mmem s) (pdbr s) lin access with
  | inl code => r = (page_fault lin code ;; ret 0) s
  | inr a => exists s', r = Ret a s' /\ wf s' /\ mcpu s' = mcpu s /\ ad_equiv (mmem s) (mmem s')
             /\ forall b, off_tables (mmem s) (pdbr s) b -> byte_at (mmem s') b = byte_at (mmem s) b
  end.

(** A cached entry gives what the walk gives. *)
Lemma refines_hit lin access s e set :
  wf s -> 0 <= lin < 2 ^ 32 -> 0 <= set < 4 ->
  e = tlb (mtlb s) set ((lin / 2 ^ 12) mod 8) -> v e = true -> la e = lin / 2 ^ 12 * 2 ^ 12 ->
  refines lin access s
    ((when (access_check access (mode e)) (page_fault lin ((access .<< 1) .| 1)) ;;
      ret (pa e .| (lin .& OFFSET_MASK))) s).
Proof.
  intros Hwf Hl Hs Ee Hv Hla. unfold refines, translate.
  assert (HW : walk (mmem s) (pdbr s) lin = Mapped (mode e) (pa e)).
  { rewrite <- (walk_page _ _ _ Hl), <- Hla. rewrite Ee in *. apply (wf_coherent s Hwf); [|exact Hv].
    split; [exact Hs | apply mod8_range]. }
  clear Ee. rewrite HW. destruct (access_check access (mode e)); cbn [when].
  - apply page_fault_then.
  - exists s. split; [reflexivity|]. split; [exact Hwf|]. split; [reflexivity|]. split; reflexivity.
Qed.

Lemma refines_fault lin access s code (k : unit -> M exn (mach P) Z) :
  translate (mmem s) (pdbr s) lin access = inl code ->
  refines lin access s (bind (page_fault lin code) k s).
Proof. intros E. unfold refines. rewrite E. apply page_fault_then. Qed.

(** The two write backs at the end of a miss. *)
Lemma record_access (s1 : mach P) pde_addr pte_addr pde pte (dirty : bool) :
  is_ram (mmem s1) pde_addr 4 -> is_ram (mmem s1) pte_addr 4 -> pde_addr mod 4 = 0 -> pte_addr mod 4 = 0 ->
  dword_at (mmem s1) pde_addr = pde -> dword_at (mmem s1) pte_addr = pte ->
  let new_pte := if dirty then pte .| PE_ACCESSED .| PE_DIRTY else pte .| PE_ACCESSED in
  let new_pde := pde .| PE_ACCESSED in
  forall (k : unit -> M exn (mach P) Z), exists m',
  bind (when (negb (new_pte =? pte)) (onmem (phy_write_dword pte_addr new_pte)))
    (fun _ => bind (when (negb (new_pde =? pde)) (onmem (phy_write_dword pde_addr new_pde))) k) s1
  = k tt (SET_mmem m' s1) /\ ad_equiv (mmem s1) m'
  /\ forall i, outside pde_addr i -> outside pte_addr i -> byte_at m' i = byte_at (mmem s1) i.
Proof.
  intros Hpde Hpte M1 M2 E1 E2 new_pte new_pde k.
  pose proof (dword_range _ _ Hpde) as Rpde. pose proof (dword_range _ _ Hpte) as Rpte. rewrite E1, E2 in *.
  assert (Rn : 0 <= new_pte < 2 ^ 32)
    by (unfold new_pte; destruct dirty; repeat apply lor_range; try (exact Rpte || lia); vm_compute; split; congruence).
  assert (En : new_pte .& ad_mask = dword_at (mmem s1) pte_addr .& ad_mask)
    by (rewrite E2; unfold new_pte; destruct dirty; rewrite ?ad_or by reflexivity; reflexivity).
  destruct (write_back s1 (mmem s1) pte_addr new_pte (reflexivity _) Hpte M2 Rn En
              (negb (new_pte =? pte))) as (m2 & W2 & HE2 & O2).
  rewrite (bind_ret _ _ _ _ _ W2).
  destruct (write_back (SET_mmem m2 s1) (mmem s1) pde_addr new_pde HE2 Hpde M1)
    with (b := negb (new_pde =? pde)) as (m3 & W3 & HE3 & O3).
  { apply lor_range; [lia | exact Rpde | vm_compute; split; congruence]. }
  { rewrite E1. apply ad_or. reflexivity. }
  rewrite (bind_ret _ _ _ _ _ W3). exists m3. split; [reflexivity|]. split; [exact HE3|].
  intros i Hi1 Hi2. rewrite O3 by exact Hi1. apply O2, Hi2.
Qed.

(** A miss walks the tables, records the access in them and caches the result. *)
Lemma refines_miss lin access s :
  wf s -> 0 <= lin < 2 ^ 32 -> 0 <= access < 4 -> refines lin access s (lin2phy_miss lin access s).
Proof.
  intros Hwf Hl Ha. pose proof (lin_split lin Hl) as (Es & Hp & Een & Elk & _).
  destruct (wf_tables s Hwf lin Hl) as [Hpde Hpte].
  unfold lin2phy_miss. rewrite getc_bind. cbn [the_cpu HasCpu_mach].
  rewrite (bind_ret _ _ _ _ _ (read_run _ s Hpde)).
  set (pde := dword_at (mmem s) (pde_address (pdbr s) lin)) in *.
  destruct (Z.eqb_spec (pde .& PE_P_MASK) 0) as [E0 | N0]; cbn [when].
  { apply refines_fault. unfold translate, walk. fold pde. rewrite E0. reflexivity. }
  specialize (Hpte N0). rewrite (bind_ret _ _ s tt s) by reflexivity.
  rewrite (bind_ret _ _ _ _ _ (read_run _ s Hpte)).
  set (pte_addr := pte_address pde lin) in *. set (pte := dword_at (mmem s) pte_addr) in *.
  assert (HW : walk (mmem s) (pdbr s) lin
               = if pte .& PE_P_MASK =? 0 then NotPresent
                 else Mapped (lin2phy_comb pde pte) (pte .& PE_PFA_MASK)).
  { unfold walk. fold pde. rewrite (proj2 (Z.eqb_neq _ _) N0). reflexivity. }
  destruct (Z.eqb_spec (pte .& PE_P_MASK) 0) as [E1 | N1]; cbn [when].
  { apply refines_fault. unfold translate. rewrite HW. reflexivity. }
  rewrite (bind_ret _ _ s tt s) by reflexivity.
  set (comb := lin2phy_comb pde pte) in *. pose proof (comb_range pde pte) as Rc. fold comb in Rc.
  destruct (access_check access comb) eqn:Ec; cbn [when].
  { apply refines_fault. unfold translate. rewrite HW, Ec. reflexivity. }
  rewrite (bind_ret _ _ s tt s) by reflexivity.
  unfold bind at 1, gets. rewrite Een, Elk.
  pose proof (mod8_range (lin / 2 ^ 12)) as Hen. set (entry := (lin / 2 ^ 12) mod 8) in *.
  pose proof (take_set_inv (mtlb s) entry (wf_inv s Hwf) Hen) as HT.
  destruct (take_set entry (mtlb s)) as [set t1]. destruct HT as (Hset & Hi1 & Et1).
  set (e := mkTLB_ENTRY _ _ _ _ _).
  assert (Hr : set_range set entry) by (split; assumption).
  pose proof (frame_ok pte) as [Rf Rf'].
  assert (He : entry_ok entry e) by (intros _; exists (lin / 2 ^ 12); repeat split; auto; apply Hp || apply Rc || apply Rf).
  set (s1 := SET_mtlb (load_entry set entry e t1) s).
  rewrite (bind_ret _ _ s tt s1) by reflexivity.
  assert (HWe : walk (mmem s) (pdbr s) (la e) = Mapped (mode e) (pa e)) by (cbn [la e mode pa]; rewrite walk_page by exact Hl; exact HW).
  assert (HC1 : coherent (mmem s) (pdbr s) (load_entry set entry e t1)).
  { apply coherent_load; auto. intros x n Hxn. cbn zeta. rewrite Et1. apply (wf_coherent s Hwf), Hxn. }
  pose proof (record_access s1 (pde_address (pdbr s) lin) pte_addr pde pte (d e) Hpde Hpte
                (pde_addr_mod4 _ _) (pte_addr_mod4 _ _) eq_refl eq_refl) as HWB.
  cbn zeta in HWB. edestruct HWB as (m3 & E3 & HE3 & HO3). rewrite E3.
  unfold refines, translate. rewrite HW, Ec. eexists. split; [reflexivity|]. split; [|split; [reflexivity|]; split; [exact HE3|]].
  2:{ intros b Hb. destruct (Hb lin Hl) as [Hb1 Hb2]. exact (HO3 b Hb1 (Hb2 N0)). }
  split; cbn.
  - apply load_inv; auto.
  - apply (coherent_ad (mmem s)); assumption.
  - rewrite <- HE3. apply (wf_tables s Hwf).
Qed.

End Refine.

(** ** The invariant holds whatever memory contains *)

Section Invariant.
Context {P : Type} `{PhyMem P}.

(** The invariant holds of the state an outcome leaves. *)
Definition inv_after {A} (r : outcome exn (mach P) A) : Prop :=
  match r with
  | Ret _ s | Raise _ s => tlb_inv (mtlb s)
  | Undefined => True
  end.

Lemma inv_bind {A B} (m : M exn (mach P) A) (k : A -> M exn (mach P) B) s :
  inv_after (m s) -> (forall a s', tlb_inv (mtlb s') -> inv_after (k a s')) -> inv_after (bind m k s).
Proof. unfold bind. destruct (m s); cbn; auto. Qed.

Lemma inv_onmem {A} (m : M exn P A) s : tlb_inv (mtlb s) -> inv_after (onmem m s).
Proof. unfold onmem. destruct (m (mmem s)); cbn; auto. Qed.

Lemma inv_page_fault lin code s : tlb_inv (mtlb s) -> inv_after (page_fault lin code s).
Proof.
  intros Hi. unfold page_fault. rewrite modc_bind. set (s1 := put_cpu _ s).
  destruct (PF_status (u16 code) s1) as (e & c & ->). exact Hi.
Qed.

Lemma inv_when b m (s : mach P) : tlb_inv (mtlb s) -> inv_after (m s) -> inv_after (when b m s).
Proof. destruct b; cbn; auto. Qed.

#[local] Hint Resolve inv_onmem inv_page_fault inv_when : tlbinv.

(** A chain of steps that do not touch the buffer. *)
Ltac inv_chain :=
  repeat first
    [ progress cbn zeta
    | match goal with
      | |- inv_after (ret _ _) => assumption
      | |- inv_after (bind _ _ _) => apply inv_bind; [solve [eauto with tlbinv] | intros]
      | |- inv_after ((if ?b then _ else _) _) => destruct b
      end ].

Lemma inv_miss lin access s :
  tlb_inv (mtlb s) -> 0 <= lin < 2 ^ 32 -> inv_after (lin2phy_miss lin access s).
Proof.
  intros Hi Hl. pose proof (lin_split lin Hl) as (_ & Hp & Een & Elk & _).
  unfold lin2phy_miss. rewrite Een, Elk.
  apply inv_bind; [exact Hi | intros pd s1 H1]. cbn zeta.
  apply inv_bind; [auto with tlbinv | intros pde s2 H2].
  apply inv_bind; [auto with tlbinv | intros _ s3 H3].
  apply inv_bind; [auto with tlbinv | intros pte s4 H4].
  apply inv_bind; [auto with tlbinv | intros _ s5 H5].
  apply inv_bind; [auto with tlbinv | intros _ s6 H6].
  unfold bind at 1, gets. set (entry := (lin / 2 ^ 12) mod 8).
  pose proof (take_set_inv (mtlb s6) entry H6 (mod8_range _)) as HT.
  destruct (take_set entry (mtlb s6)) as [set t1]. destruct HT as (Hset & Hi1 & _).
  apply inv_bind.
  - cbn. apply load_inv; [exact Hi1 | split; [exact Hset | apply mod8_range] | | reflexivity].
    intros _. exists (lin / 2 ^ 12). pose proof (frame_ok pte). pose proof (comb_range pde pte). cbn. intuition.
  - intros. inv_chain.
Qed.

Lemma inv_lin2phy lin access s :
  tlb_inv (mtlb s) -> 0 <= lin < 2 ^ 32 -> inv_after (lin2phy lin access s).
Proof.
  intros Hi Hl. unfold lin2phy, bind at 1, gets. destruct (fast_lookup _ _ _); [exact Hi|].
  destruct (search_sets _ _ _ _ _ _); [inv_chain | apply inv_miss; assumption].
Qed.

Lemma inv_xtrn2phy lin access s : tlb_inv (mtlb s) -> inv_after (xtrn2phy lin access s).
Proof.
  intros Hi. unfold xtrn2phy, bind at 1, gets. destruct (fast_lookup _ _ _); [exact Hi|].
  destruct (search_sets _ _ _ _ _ _); [inv_chain|]. unfold xtrn2phy_miss.
  apply inv_bind; [exact Hi | intros pd s1 H1]. inv_chain.
  apply inv_bind; [|intros; assumption]. apply inv_when; [assumption|]. inv_chain. auto with tlbinv.
Qed.

Lemma inv_test (s : mach P) : tlb_inv (mtlb s) -> 0 <= TR_TCR s < 2 ^ 32 -> tlb_inv (mtlb (test_tlb s)).
Proof.
  intros Hi Hc. unfold test_tlb. destruct (tst (TR_TCR s .& TCR_C_MASK)).
  { destruct (test_search _ _ _ _ _ _); exact Hi. }
  pose proof (lin_split (TR_TCR s) Hc) as (_ & Hp & Een & Elk & _). rewrite Een.
  set (entry := (TR_TCR s / 2 ^ 12) mod 8). pose proof (mod8_range (TR_TCR s / 2 ^ 12)) as He. fold entry in He.
  set (choice := if tst (TR_TDR s .& TDR_HT_MASK) then _ else _).
  assert (HT : 0 <= fst choice < 4 /\ tlb_inv (snd choice)).
  { unfold choice. destruct (tst _); cbn [fst snd].
    - split; [|exact Hi]. change TDR_REP_MASK with (Z.shiftl (2 ^ 2 - 1) 2). unfold TDR_REP_SHIFT.
      rewrite Z.shiftr_land, Z.shiftr_shiftl_l by lia. change (Z.shiftl _ (2 - 2)) with (2 ^ 2 - 1).
      rewrite land_mask by lia. apply Z.mod_pos_bound. lia.
    - pose proof (take_set_inv (mtlb s) entry Hi He) as HT.
      destruct (take_set entry (mtlb s)). cbn. tauto. }
  destruct choice as [set t]. cbn [fst snd] in HT. destruct HT as [Hset Hit].
  cbn [mtlb SET_mtlb]. apply replace_inv; [exact Hit | split; assumption|].
  intros _. exists (TR_TCR s / 2 ^ 12). pose proof (frame_ok (TR_TDR s)). cbn [la pa mode].
  change TCR_LA_MASK with (not32 OFFSET_MASK). rewrite Elk.
  split; [exact Hp|]. split; [reflexivity|]. split; [reflexivity|]. split; [|assumption].
  destruct (tst _), (tst _); vm_compute; split; congruence.
Qed.

(** The steps of a machine that concern the buffer; everything else changes the
    registers and memory at will. *)
Inductive tstep : mach P -> mach P -> Prop :=
| step_lin2phy s s' lin access a :
    0 <= lin < 2 ^ 32 -> lin2phy lin access s = Ret a s' -> tstep s s'
| step_fault s s' lin access e :
    0 <= lin < 2 ^ 32 -> lin2phy lin access s = Raise e s' -> tstep s s'
| step_xtrn2phy s s' lin access a :
    0 <= lin < 2 ^ 32 -> xtrn2phy lin access s = Ret a s' -> tstep s s'
| step_flush s : tstep s (SET_mtlb (flush_tlb (mtlb s)) s)
| step_test s : 0 <= TR_TCR s < 2 ^ 32 -> tstep s (test_tlb s)
| step_other s c m tcr tdr dbg : tstep s (mkMach c m (mtlb s) tcr tdr dbg).

(** The buffer at power on: static data, all zero. *)
Definition tlb0 : tlb_state :=
  mkTlb (fun _ _ => mkTLB_ENTRY 0 0 false false 0) (fun _ => 0) (fun _ => 0) (fun _ => 0).

Lemma tlb0_inv : tlb_inv tlb0.
Proof.
  split; [cbn; lia | intros set entry _ Hv; discriminate | intros page _; left; reflexivity].
Qed.

Lemma tstep_inv s s' : tstep s s' -> tlb_inv (mtlb s) -> tlb_inv (mtlb s').
Proof.
  intros Hst Hi. destruct Hst as [s s' lin access a Hl E | s s' lin access e Hl E | s s' lin access a Hl E | s | s Hc | s c m x y].
  - pose proof (inv_lin2phy lin access s Hi Hl) as Hp. rewrite E in Hp. exact Hp.
  - pose proof (inv_lin2phy lin access s Hi Hl) as Hp. rewrite E in Hp. exact Hp.
  - pose proof (inv_xtrn2phy lin access s Hi) as Hp. rewrite E in Hp. exact Hp.
  - apply flush_spec, Hi.
  - apply inv_test; assumption.
  - exact Hi.
Qed.

End Invariant.

(** ** External translation *)

(** The test [lin2phy] makes and [xtrn2phy] does not: a user access to a page only
    one of whose two table entries is a user entry. *)
Definition leaks (pde pte access : Z) : bool :=
  tst (access .& PG_U) && xorb (tst (pde .& PE_U_S_MASK)) (tst (pte .& PE_U_S_MASK))
  && (negb (tst (access .& PG_W)) || (tst (pde .& PE_R_W_MASK) && tst (pte .& PE_R_W_MASK))).

Lemma tst_land_pow2 x n : 0 <= n -> tst (x .& 2 ^ n) = Z.testbit x n.
Proof.
  intros Hn. unfold tst. rewrite land_pow2 by exact Hn. pose proof (pow2_pos n Hn).
  destruct (Z.testbit x n); [|reflexivity]. destruct (Z.eqb_spec (2 ^ n) 0); [lia | reflexivity].
Qed.

Lemma field_bits x :
  x .& (PE_U_S_MASK .| PE_R_W_MASK) = 4 * Z.b2z (Z.testbit x 2) + 2 * Z.b2z (Z.testbit x 1).
Proof.
  change (PE_U_S_MASK .| PE_R_W_MASK) with (2 ^ 2 .| 2 ^ 1).
  rewrite Z.land_lor_distr_r, !land_pow2 by lia.
  destruct (Z.testbit x 2), (Z.testbit x 1); reflexivity.
Qed.

Lemma comb_differ pde pte access :
  0 <= access < 4 ->
  negb (access_check access (xtrn2phy_comb pde pte))
  = negb (access_check access (lin2phy_comb pde pte)) || leaks pde pte access.
Proof.
  intros Ha. unfold xtrn2phy_comb, lin2phy_comb, prot_of, leaks. rewrite !field_bits.
  change PE_U_S_MASK with (2 ^ 2). change PE_R_W_MASK with (2 ^ 1).
  rewrite !tst_land_pow2, Z.lor_spec, Z.land_spec by lia.
  destruct (Z.testbit pde 2), (Z.testbit pde 1), (Z.testbit pte 2), (Z.testbit pte 1); four access; reflexivity.
Qed.

Section Theorems.
Context {P : Type} `{PhyMemLaws P}.

Lemma empty_search k set entry lookup read_op t :
  0 <= set -> set + Z.of_nat k <= 4 -> 0 <= entry < 8 ->
  (forall s n, set_range s n -> v (tlb t s n) = false) ->
  search_sets k set entry lookup read_op t = None.
Proof.
  intros Hs Hk He Hv. destruct (search_sets k set entry lookup read_op t) as [e|] eqn:E; [|reflexivity].
  apply search_sets_spec in E as (s & Hr & -> & Hve & _). rewrite Hv in Hve; [discriminate|].
  split; [lia | exact He].
Qed.

Lemma lin2phy_refines (s : mach P) lin access :
  wf s -> 0 <= lin < 2 ^ 32 -> 0 <= access < 4 -> refines lin access s (lin2phy lin access s).
Proof.
  intros Hwf Hl Ha. pose proof (lin_split lin Hl) as (_ & _ & Een & Elk & _).
  unfold lin2phy, bind at 1, gets.
  destruct (fast_lookup lin access (mtlb s)) as [a|] eqn:Ef.
  - destruct (fast_lookup_spec lin access (mtlb s) a (wf_inv s Hwf) Hl Ha Ef)
      as (set & Hs & Hv & Hla & Hc & _ & Ea).
    pose proof (refines_hit lin access s _ set Hwf Hl Hs eq_refl Hv Hla) as HR.
    rewrite Hc in HR. rewrite Ea. exact HR.
  - destruct (search_sets _ _ _ _ _ _) as [e|] eqn:Es; [|apply refines_miss; assumption].
    apply search_sets_spec in Es as (set & Hs & Ee & Hv & Hla & _). rewrite Een in Ee. rewrite Elk in Hla.
    apply (refines_hit lin access s e set); auto.
Qed.

(** C4 - Invariant of the buffer: from power on, after any sequence of
    translations (returning or faulting), external translations, flushes, writes of
    the test registers and arbitrary changes of registers and memory, the fast page
    index only ever names valid entries for its page and gives exactly the accesses
    they allow. *)
Theorem tlb_invariant (s0 s : mach P) :
  mtlb s0 = tlb0 -> rtc tstep s0 s -> tlb_inv (mtlb s).
Proof.
  intros E0 Hst. assert (Hi : tlb_inv (mtlb s0)) by (rewrite E0; apply tlb0_inv). clear E0.
  induction Hst as [s | s1 s2 s3 H12 _ IH]; [exact Hi | apply IH, (tstep_inv _ _ H12), Hi].
Qed.

(** C3 - Translation refines the page walk: with a coherent buffer and page tables
    in RAM, [lin2phy] gives exactly the address or the page fault (with its error
    code and CR2) that walking the tables gives, whether it hits the fast index, the
    buffer or neither; afterwards the buffer is coherent again, the registers are
    unchanged, and memory has changed in the accessed and dirty bits of table entries
    only. *)
Theorem lin2phy_refines_walk (s : mach P) lin access :
  wf s -> 0 <= lin < 2 ^ 32 -> 0 <= access < 4 ->
  match translate (mmem s) (CR_PDBR (cr (mcpu s))) lin access with
  | inl code => lin2phy lin access s = (page_fault lin code ;; ret 0) s
  | inr a => exists s', lin2phy lin access s = Ret a s' /\ wf s' /\ mcpu s' = mcpu s
             /\ ad_equiv (mmem s) (mmem s')
             /\ forall b, off_tables (mmem s) (CR_PDBR (cr (mcpu s))) b ->
                byte_at (mmem s') b = byte_at (mmem s) b
  end.
Proof.
  intros. change (refines lin access s (lin2phy lin access s)). apply lin2phy_refines; assumption.
Qed.

(** Flushing: after [flush_tlb] no entry is valid and no page is indexed, so
    the buffer is coherent with any memory and any page directory: the next
    translation follows the tables as they are then. *)
Theorem flush_forgets (s : mach P) :
  tlb_inv (mtlb s) ->
  let t := flush_tlb (mtlb s) in
  tlb_inv t /\ (forall set entry, set_range set entry -> v (tlb t set entry) = false)
  /\ (forall page, 0 <= page < 2 ^ 20 -> page_index t page = PI_NOT_VALID)
  /\ forall c m, tables_ok m (CR_PDBR (cr c)) -> wf (mkMach c m t (TR_TCR s) (TR_TDR s) (mdbg s)).
Proof.
  intros Hi t. destruct (flush_spec (mtlb s) Hi) as (Hi' & Hv & Hp). fold t in Hi', Hv, Hp.
  do 3 (split; [assumption|]). intros c m HT. split; [exact Hi' | | exact HT].
  intros set entry Hr. cbn zeta. intros Hve. cbn [mtlb] in Hve. rewrite (Hv set entry Hr) in Hve. discriminate.
Qed.

(** External translation: with nothing cached, [xtrn2phy] (asked only to
    translate) grants what [lin2phy] grants and, in addition, user accesses to pages
    of which only one table entry is a user entry, which [lin2phy] refuses. *)
Theorem external_translation (s : mach P) lin access :
  tables_ok (mmem s) (CR_PDBR (cr (mcpu s))) ->
  (forall set entry, set_range set entry -> v (tlb (mtlb s) set entry) = false) ->
  page_index (mtlb s) (lin .>> DIR_TBL_SHIFT) = PI_NOT_VALID ->
  0 <= lin < 2 ^ 32 -> 0 <= access < 4 ->
  let pde := dword_at (mmem s) (pde_address (CR_PDBR (cr (mcpu s))) lin) in
  let pte := dword_at (mmem s) (pte_address pde lin) in
  let present := tst (pde .& PE_P_MASK) && tst (pte .& PE_P_MASK) in
  let allowed := present && negb (access_check access (lin2phy_comb pde pte)) in
  let address := (pte .& PE_PFA_MASK) .| (lin .& OFFSET_MASK) in
  (translate (mmem s) (CR_PDBR (cr (mcpu s))) lin access = inr address <-> allowed = true)
  /\ xtrn2phy lin access s
     = Ret (if allowed || (present && leaks pde pte access) then Some address else None) s.
Proof.
  intros HT Hv Hpi Hl Ha pde pte present allowed address. destruct (HT lin Hl) as [Hpde Hpte].
  fold pde in Hpte. split.
  { unfold translate, walk. fold pde. fold pte. unfold allowed, present, tst, address.
    clearbody pde pte. clear. set (c1 := access .<< 1). set (c2 := c1 .| 1). clearbody c1 c2.
    destruct (pde .& PE_P_MASK =? 0), (pte .& PE_P_MASK =? 0), (access_check access (lin2phy_comb pde pte));
      cbn [negb andb]; split; (discriminate || reflexivity). }
  assert (E3 : access .& 3 = access) by (change 3 with (2 ^ 2 - 1); rewrite land_mask by lia; apply Z.mod_small; lia).
  assert (E4 : tst (access .& 4) = false) by (four access; reflexivity).
  pose proof (lin_split lin Hl) as (_ & _ & Een & _ & _).
  unfold xtrn2phy, xtrn2phy_miss, bind at 1, gets. rewrite E3, E4, Een.
  unfold fast_lookup. rewrite Hpi. change (tst PI_NOT_VALID) with false. cbn iota.
  rewrite empty_search by first [exact Hv | apply mod8_range | vm_compute; congruence].
  rewrite getc_bind. cbn [the_cpu HasCpu_mach]. rewrite (bind_ret _ _ _ _ _ (read_run _ s Hpde)). fold pde.
  unfold allowed, present, tst in *. destruct (Z.eqb_spec (pde .& PE_P_MASK) 0) as [? | N0]; [reflexivity|].
  rewrite (bind_ret _ _ _ _ _ (read_run _ s (Hpte N0))). fold pte.
  destruct (pte .& PE_P_MASK =? 0); [reflexivity|]. cbn [negb andb].
  rewrite <- comb_differ by exact Ha. destruct (access_check access (xtrn2phy_comb pde pte)); reflexivity.
Qed.

End Theorems.

(** ** The physical memory routines implement the interface *)

Section SasMemory.
Context {V : Type} `{Mem.Handlers V} (junk_value : Z).

Definition sas_memory : PhyMem (Mem.sas V) := {|
  phy_read_byte := Mem.phy_r8 junk_value;
  phy_read_word := Mem.phy_r16 junk_value;
  phy_read_dword := Mem.phy_r32 junk_value;
  phy_write_byte := Mem.phy_w8;
  phy_write_word := Mem.phy_w16;
  phy_write_dword := Mem.phy_w32;
  byte_at := Mem.M_area;
  is_ram := fun s a n => Mem.sas_ok s /\ Mem.in_ram s a n
|}.
#[local] Existing Instance sas_memory.

Lemma value_at_1 s a : value_at s a 1 = Mem.M_area s a.
Proof. cbn [value_at byte_at sas_memory]. lia. Qed.

Lemma value_at_2 s a : value_at s a 2 = Mem.peek16 s a.
Proof. unfold Mem.peek16. cbn [value_at byte_at sas_memory]. lia. Qed.

Lemma value_at_4 s a : value_at s a 4 = Mem.peek32 s a.
Proof.
  unfold Mem.peek32, Mem.peek16. cbn [value_at byte_at sas_memory].
  replace (a + 1 + 1 + 1) with (a + 2 + 1) by lia. replace (a + 1 + 1) with (a + 2) by lia. lia.
Qed.

Lemma same_ram s s' a n :
  Mem.same_map s s' -> Mem.sas_ok s -> Mem.sas_ok s' -> is_ram s' a n <-> is_ram s a n.
Proof.
  intros Hm Hok Hok'. assert (Hm' : Mem.same_map s' s) by (unfold Mem.same_map in *; intuition congruence).
  cbn [is_ram sas_memory]. split; intros [_ HR]; split; auto; eapply Mem.in_ram_map; eauto.
Qed.

#[export] Instance sas_memory_laws : PhyMemLaws (Mem.sas V).
Proof.
  split.
  - intros m a n [Hok _] i _. apply Hok.
  - intros m a n b k [Hok HR] Hb Hk Hbk. split; [exact Hok|]. eapply Mem.in_ram_sub; eauto.
  - intros m a n Hn HB. destruct (HB 0 ltac:(lia)) as [Hok (H1 & _)]. rewrite Z.add_0_r in H1.
    destruct (HB (n - 1) ltac:(lia)) as [_ (_ & H3 & H4 & _)]. split; [exact Hok|].
    split; [exact H1|]. split; [lia|]. split; [lia|]. intros i Hi.
    destruct (HB i Hi) as [_ (_ & _ & _ & H5)]. rewrite <- (H5 0 ltac:(lia)), Z.add_0_r. reflexivity.
  - intros m a n [Hok (Ha & Hn & _)]. pose proof (proj1 (proj2 Hok)). lia.
  - intros m a [Hok HR]. rewrite value_at_1. apply Mem.phy_r8_ram; assumption.
  - intros m a [Hok HR]. rewrite value_at_2. apply Mem.phy_r16_ram; assumption.
  - intros m a [Hok HR]. rewrite value_at_4. apply Mem.phy_r32_ram; assumption.
  - intros m a x [Hok HR] Hx. exists (Mem.poke a x m). split; [apply Mem.phy_w8_ram; assumption|].
    split; [rewrite value_at_1; apply Mem.poke_same|]. split.
    + intros b Hb. apply Mem.poke_other. lia.
    + intros b k. apply same_ram; [apply Mem.poke_map | exact Hok | apply Mem.poke_ok; assumption].
  - intros m a x [Hok HR] Hx. destruct (Mem.write_word_spec m a x Hok Hx) as (Hok' & Hm & Hp & Ho).
    exists (Mem.write_word a x m). split; [apply Mem.phy_w16_ram; assumption|].
    split; [rewrite value_at_2; exact Hp|]. split.
    + intros b Hb. apply Ho; lia.
    + intros b k. apply same_ram; assumption.
  - intros m a x [Hok HR] Hx. destruct (Mem.phy_w32_ram m a x Hok HR Hx) as (m' & E & Hok' & Hm & Hp & Ho).
    exists m'. split; [exact E|]. split; [rewrite value_at_4; exact Hp|]. split.
    + intros b Hb. apply Ho. lia.
    + intros b k. apply same_ram; assumption.
Qed.
End SasMemory.

(** ** Witnesses: a directory at 0x1000 whose first table, at 0x2000, maps page 0 to
    the frame 0x5000 and page 1 to 0x7000, for the supervisor only; linear address 8
    holds the descriptor of a writable data segment *)

Definition demo_memory : PhyMem (Mem.sas unit) := sas_memory (H := Mem.quiet) 0xfefefefe.
#[local] Existing Instance demo_memory.
#[local] Existing Instance Mem.quiet.

Definition demo_laws : PhyMemLaws (Mem.sas unit) := sas_memory_laws (H := Mem.quiet) 0xfefefefe.
#[local] Existing Instance demo_laws.

Definition demo_sas : Mem.sas unit :=
  Mem.SET_M_area (fun a => if a =? 0x1000 then 0x07 else if a =? 0x1001 then 0x20
                           else if a =? 0x2000 then 0x03 else if a =? 0x2001 then 0x50
                           else if a =? 0x2004 then 0x03 else if a =? 0x2005 then 0x70
                           else if a =? 0x500d then 0x92 else 0) Mem.sas0.

Definition demo_cpu : cpu := 
  SET_gdtr (mkSTAR 0 0xff) (modify_cr (fun r => SET_CR_STAT 0x80000001 (SET_CR_PDBR 0x1000 r)) cpu0).
Definition demo : mach (Mem.sas unit) := mkMach demo_cpu demo_sas tlb0 0 0 Debug.debug0.

Lemma demo_ram a n : 0 <= a -> 1 <= n -> a + n <= 0xf0000 -> is_ram demo_sas a n.
Proof.
  intros Ha Hn Han. split.
  - split; [|exact (proj2 Mem.sas0_ok)]. intros x. unfold demo_sas, Mem.SET_M_area. cbn [Mem.M_area].
    repeat destruct (x =? _); lia.
  - split; [exact Ha|]. split; [change (a + n <= 0x200000); lia|]. split; [change (a + n - 1 <= 0xffffffff); lia|].
    intros i Hi. unfold Mem.READ_SELF_MOD. change (Mem.memory_type demo_sas) with (Mem.memory_type Mem.sas0).
    unfold Mem.sas0. cbn [Mem.memory_type]. rewrite Z.shiftr_div_pow2 by lia.
    assert ((a + i) / 2 ^ 12 < 0xf0) by (apply Z.div_lt_upper_bound; lia).
    destruct (Z.leb_spec 0xf0 ((a + i) / 2 ^ 12)); [lia | reflexivity].
Qed.

Lemma index_range x : 0 <= (x .& DIR_MASK) .<< 2 <= 0xffc.
Proof.
  change DIR_MASK with (2 ^ 10 - 1). rewrite land_mask, Z.shiftl_mul_pow2 by lia.
  pose proof (Z.mod_pos_bound x (2 ^ 10) ltac:(lia)). rewrite u32_small by lia. lia.
Qed.

(** Where the tables are. *)
Lemma demo_entries lin :
  0x1000 <= pde_address 0x1000 lin <= 0x1ffc
  /\ (dword_at demo_sas (pde_address 0x1000 lin) .& PE_P_MASK <> 0 ->
      0x2000 <= pte_address (dword_at demo_sas (pde_address 0x1000 lin)) lin <= 0x2ffc).
Proof.
  pose proof (index_range (lin .>> DIR_SHIFT)) as H1. pose proof (index_range (lin .>> TBL_SHIFT)) as H2.
  assert (E : pde_address 0x1000 lin = 0x1000 + ((lin .>> DIR_SHIFT .& DIR_MASK) .<< 2)).
  { unfold pde_address. change (0x1000 .& PE_PFA_MASK) with 0x1000. apply u32_small. lia. }
  pose proof (pde_addr_mod4 0x1000 lin) as Hm. set (a := pde_address 0x1000 lin) in *.
  assert (Ha : 0x1000 <= a <= 0x1ffc) by lia. split; [exact Ha|].
  intros Hp. destruct (Z.eq_dec a 0x1000) as [-> | NE].
  - unfold pte_address. change (dword_at demo_sas 0x1000 .& PE_PFA_MASK) with 0x2000.
    change TBL_MASK with DIR_MASK. rewrite u32_small by lia. lia.
  - exfalso. apply Hp. assert (E0 : dword_at demo_sas a = 0); [|rewrite E0; reflexivity].
    assert (Hz : forall x, 0x1002 <= x < 0x2000 -> byte_at demo_sas x = 0).
    { intros x Hx. cbn [byte_at demo_memory sas_memory]. unfold demo_sas, Mem.SET_M_area. cbn [Mem.M_area].
      destruct (Z.eqb_spec x 0x1000), (Z.eqb_spec x 0x1001), (Z.eqb_spec x 0x2000), (Z.eqb_spec x 0x2001),
        (Z.eqb_spec x 0x2004), (Z.eqb_spec x 0x2005), (Z.eqb_spec x 0x500d); lia || reflexivity. }
    pose proof (Z_div_mod_eq_full a 4). cbn [value_at]. rewrite !Hz by lia. reflexivity.
Qed.

Lemma demo_tables : tables_ok demo_sas 0x1000.
Proof.
  intros lin Hl. destruct (demo_entries lin) as [H1 H2]. split; [apply demo_ram; lia|].
  intros Hp. specialize (H2 Hp). apply demo_ram; lia.
Qed.

Lemma demo_wf : wf demo.
Proof. split; [apply tlb0_inv | intros set entry _; cbn zeta; discriminate | exact demo_tables]. Qed.

Lemma tlb_invariant_witness :
  tlb_inv (mtlb (SET_mtlb (flush_tlb (mtlb demo)) demo)).
Proof.
  refine (tlb_invariant demo _ eq_refl _). apply rtc_once. apply step_flush.
Defined.

Lemma lin2phy_refines_walk_witness :
  exists s', lin2phy 0x123 PG_W demo = Ret 0x5123 s' /\ wf s' /\ mcpu s' = mcpu demo
  /\ ad_equiv (mmem demo) (mmem s')
  /\ forall b, off_tables (mmem demo) 0x1000 b -> byte_at (mmem s') b = byte_at (mmem demo) b.
Proof.
  refine (lin2phy_refines_walk demo 0x123 PG_W demo_wf _ _); vm_compute; split; congruence.
Defined.

Lemma flush_forgets_witness : page_index (flush_tlb (mtlb demo)) 0 = PI_NOT_VALID.
Proof.
  refine (proj1 (proj2 (proj2 (flush_forgets demo tlb0_inv))) 0 _). lia.
Defined.

Lemma external_translation_witness : xtrn2phy 0x123 PG_U demo = Ret (Some 0x5123) demo.
Proof.
  refine (proj2 (external_translation demo 0x123 PG_U demo_tables _ _ _ _));
    [reflexivity | reflexivity | vm_compute; split; congruence | vm_compute; split; congruence].
Defined.

End Tlb.
