(* ===== verification/Page.v ===== *)
(** * Paged memory accesses

    [c_page.c]: the checks [spr_chk_] and [usr_chk_] and the supervisor reads and
    writes of bytes, words and double words, with the split of an access that
    spans two pages. *)

From S2P Require Import Prelude Cpu Arith Shift Xcptn MulDiv Mem Tlb.

Module Page.
Import Xcptn Tlb.

Definition LAST_DWORD_ON_PAGE : Z := 0xffc.
Definition LAST_WORD_ON_PAGE : Z := 0xffe.
Definition NO_PHYSICAL_MAPPING : Z := 0.

Section Access.
Context {P : Type} `{PhyMem P}.

Abbreviation X := (M exn (mach P)).

Definition paging : X bool := getc (fun c => GET_PG c =? 1).

Definition spr_chk_byte (lin_addr access : Z) : X Z :=
  pg <- paging ;;
  if pg then lin2phy lin_addr (access .| PG_S) else ret lin_addr.

Definition spr_chk_dword (lin_addr access : Z) : X unit :=
  pg <- paging ;;
  when pg
    (_ <- lin2phy lin_addr (access .| PG_S) ;;
     when (LAST_DWORD_ON_PAGE <? lin_addr .& OFFSET_MASK)
       (_ <- lin2phy (u32 (lin_addr + 3)) (access .| PG_S) ;; ret tt)).

Definition spr_chk_word (lin_addr access : Z) : X unit :=
  pg <- paging ;;
  when pg
    (_ <- lin2phy lin_addr (access .| PG_S) ;;
     when (LAST_WORD_ON_PAGE <? lin_addr .& OFFSET_MASK)
       (_ <- lin2phy (u32 (lin_addr + 1)) (access .| PG_S) ;; ret tt)).

(** The access mode of the current privilege. *)
Definition usr_access (access : Z) (c : cpu) : Z :=
  if CPL c =? 3 then access .| PG_U else access .| PG_S.

Definition usr_chk_byte (lin_addr access : Z) : X Z :=
  pg <- paging ;;
  if pg then access <- getc (usr_access access) ;; lin2phy lin_addr access
  else ret lin_addr.

Definition usr_chk_dword (lin_addr access : Z) : X Z :=
  pg <- paging ;;
  if pg then
    access <- getc (usr_access access) ;;
    phy_addr <- lin2phy lin_addr access ;;
    if LAST_DWORD_ON_PAGE <? lin_addr .& OFFSET_MASK
    then _ <- lin2phy (u32 (lin_addr + 3)) access ;; ret NO_PHYSICAL_MAPPING
    else ret phy_addr
  else ret lin_addr.

Definition usr_chk_word (lin_addr access : Z) : X Z :=
  pg <- paging ;;
  if pg then
    access <- getc (usr_access access) ;;
    phy_addr <- lin2phy lin_addr access ;;
    if LAST_WORD_ON_PAGE <? lin_addr .& OFFSET_MASK
    then _ <- lin2phy (u32 (lin_addr + 1)) access ;; ret NO_PHYSICAL_MAPPING
    else ret phy_addr
  else ret lin_addr.

Definition spr_read_byte (lin_addr : Z) : X Z :=
  pg <- paging ;;
  a <- (if pg then lin2phy lin_addr (PG_R .| PG_S) else ret lin_addr) ;;
  onmem (phy_read_byte a).

Definition spr_read_word (lin_addr : Z) : X Z :=
  pg <- paging ;;
  if pg && (LAST_WORD_ON_PAGE <? lin_addr .& OFFSET_MASK) then
    low_byte <- spr_read_byte lin_addr ;;
    high_byte <- spr_read_byte (u32 (lin_addr + 1)) ;;
    ret (u16 ((high_byte .<< 8) .| low_byte))
  else
    a <- (if pg then lin2phy lin_addr (PG_R .| PG_S) else ret lin_addr) ;;
    onmem (phy_read_word a).

Definition spr_read_dword (lin_addr : Z) : X Z :=
  pg <- paging ;;
  if pg && (LAST_DWORD_ON_PAGE <? lin_addr .& OFFSET_MASK) then
    low_word <- spr_read_word lin_addr ;;
    high_word <- spr_read_word (u32 (lin_addr + 2)) ;;
    ret ((high_word .<< 16) .| low_word)
  else
    a <- (if pg then lin2phy lin_addr (PG_R .| PG_S) else ret lin_addr) ;;
    onmem (phy_read_dword a).

Definition spr_write_byte (lin_addr data : Z) : X unit :=
  pg <- paging ;;
  a <- (if pg then lin2phy lin_addr (PG_W .| PG_S) else ret lin_addr) ;;
  onmem (phy_write_byte a data).

Definition spr_write_word (lin_addr data : Z) : X unit :=
  pg <- paging ;;
  if pg && (LAST_WORD_ON_PAGE <? lin_addr .& OFFSET_MASK) then
    spr_write_byte lin_addr (u8 data) ;;
    spr_write_byte (u32 (lin_addr + 1)) (u8 (data .>> 8))
  else
    a <- (if pg then lin2phy lin_addr (PG_W .| PG_S) else ret lin_addr) ;;
    onmem (phy_write_word a data).

Definition spr_write_dword (lin_addr data : Z) : X unit :=
  pg <- paging ;;
  if pg && (LAST_DWORD_ON_PAGE <? lin_addr .& OFFSET_MASK) then
    spr_write_word lin_addr (u16 data) ;;
    spr_write_word (u32 (lin_addr + 2)) (u16 (data .>> 16))
  else
    a <- (if pg then lin2phy lin_addr (PG_W .| PG_S) else ret lin_addr) ;;
    onmem (phy_write_dword a data).

End Access.

(** ** Linear memory as the page tables map it *)

Section Linear.
Context {P : Type} `{PhyMemLaws P}.

Abbreviation pd s := (CR_PDBR (cr (mcpu s))).

(** The physical address of a mapped linear address. *)
Definition vmap (s : mach P) (lin : Z) : Z :=
  match walk (mmem s) (pd s) lin with
  | Mapped _ frame => frame .| (lin .& OFFSET_MASK)
  | NotPresent => 0
  end.

(** A linear address that is mapped to RAM outside the page tables. *)
Definition resident (s : mach P) (lin : Z) : Prop :=
  0 <= lin < 2 ^ 32 /\ walk (mmem s) (pd s) lin <> NotPresent
  /\ is_ram (mmem s) (vmap s lin) 1 /\ off_tables (mmem s) (pd s) (vmap s lin).

Definition resident_range (s : mach P) (lin : Z) (n : nat) : Prop :=
  forall i, 0 <= i < Z.of_nat n -> resident s (lin + i).

(** The little endian number at a linear address. *)
Fixpoint vvalue (s : mach P) (lin : Z) (n : nat) : Z :=
  match n with
  | O => 0
  | S n => byte_at (mmem s) (vmap s lin) + 2 ^ 8 * vvalue s (lin + 1) n
  end.

(** [s'] has the address space of [s]; of the memory outside the page tables at
    most the bytes in [D] have changed. *)
Record framed (D : Z -> Prop) (s s' : mach P) : Prop := {
  f_cpu : mcpu s' = mcpu s;
  f_wf : wf s';
  f_walk : forall lin, 0 <= lin < 2 ^ 32 -> walk (mmem s') (pd s) lin = walk (mmem s) (pd s) lin;
  f_off : forall b, off_tables (mmem s) (pd s) b -> off_tables (mmem s') (pd s) b;
  f_ram : forall a k, is_ram (mmem s) a k <-> is_ram (mmem s') a k;
  f_mem : forall b, off_tables (mmem s) (pd s) b -> ~ D b -> byte_at (mmem s') b = byte_at (mmem s) b
}.

Definition nothing (_ : Z) : Prop := False.

Lemma framed_trans D1 D2 D s1 s2 s3 :
  framed D1 s1 s2 -> framed D2 s2 s3 -> (forall b, D1 b \/ D2 b -> D b) -> framed D s1 s3.
Proof.
  intros [C1 W1 K1 O1 R1 M1] [C2 W2 K2 O2 R2 M2] HD. rewrite C1 in *. split; auto.
  - intros lin Hl. rewrite K2, K1 by exact Hl. reflexivity.
  - intros a k. rewrite R1. apply R2.
  - intros b Hb Hn. rewrite M2, M1 by auto. reflexivity.
Qed.

Lemma framed_vmap D s s' lin : framed D s s' -> 0 <= lin < 2 ^ 32 -> vmap s' lin = vmap s lin.
Proof. intros HF Hl. unfold vmap. rewrite (f_cpu _ _ _ HF), (f_walk _ _ _ HF lin Hl). reflexivity. Qed.

Lemma framed_resident D s s' lin : framed D s s' -> resident s lin -> resident s' lin.
Proof.
  intros HF (Hl & Hw & Hr & Ho). pose proof (framed_vmap D s s' lin HF Hl) as Ev. unfold resident.
  rewrite Ev, (f_cpu _ _ _ HF), (f_walk _ _ _ HF lin Hl). split; [exact Hl|]. split; [exact Hw|].
  split; [apply HF, Hr | apply (f_off _ _ _ HF), Ho].
Qed.

Lemma framed_value D s s' n : forall lin,
  framed D s s' -> resident_range s lin n ->
  (forall i, 0 <= i < Z.of_nat n -> ~ D (vmap s (lin + i))) -> vvalue s' lin n = vvalue s lin n.
Proof.
  induction n as [|n IH]; intros lin HF HR HD; [reflexivity|]. cbn [vvalue].
  pose proof (HR 0 ltac:(lia)) as R0. pose proof (HD 0 ltac:(lia)) as D0. rewrite Z.add_0_r in *.
  rewrite (framed_vmap D s s' lin HF) by apply R0.
  rewrite (f_mem _ _ _ HF) by (apply R0 || exact D0). rewrite IH; [reflexivity | exact HF | |].
  - intros i Hi. replace (lin + 1 + i) with (lin + (1 + i)) by lia. apply HR. lia.
  - intros i Hi. replace (lin + 1 + i) with (lin + (1 + i)) by lia. apply HD. lia.
Qed.

Lemma vvalue_app s k : forall n lin,
  vvalue s lin (n + k) = vvalue s lin n + 2 ^ (8 * Z.of_nat n) * vvalue s (lin + Z.of_nat n) k.
Proof.
  intros n. induction n as [|n IH]; intros lin.
  - cbn [Nat.add vvalue]. rewrite Z.add_0_r. change (2 ^ (8 * Z.of_nat 0)) with 1. lia.
  - cbn [Nat.add vvalue]. rewrite IH. replace (lin + 1 + Z.of_nat n) with (lin + Z.of_nat (S n)) by lia.
    replace (8 * Z.of_nat (S n)) with (8 + 8 * Z.of_nat n) by lia. rewrite Z.pow_add_r by lia. ring.
Qed.

(** *** Frames and offsets *)

Lemma frame_or f off : f mod 2 ^ 12 = 0 -> 0 <= off < 2 ^ 12 -> f .| off = f + off.
Proof.
  intros Hf Ho. pose proof (Z_div_mod_eq_full f (2 ^ 12)) as E.
  replace (f .| off) with (Z.shiftl (f / 2 ^ 12) 12 .| off) by (f_equal; rewrite Z.shiftl_mul_pow2 by lia; lia).
  rewrite join_lor by lia. lia.
Qed.

Lemma walk_frame m pdbr lin prot f : walk m pdbr lin = Mapped prot f -> f mod 2 ^ 12 = 0.
Proof.
  unfold walk. destruct (_ =? 0); [discriminate|]. destruct (_ =? 0); [discriminate|].
  intros [= _ <-]. apply frame_ok.
Qed.

Lemma vmap_offset s lin : resident s lin -> vmap s lin mod 2 ^ 12 = lin mod 2 ^ 12.
Proof.
  intros (Hl & Hw & _). destruct (lin_split lin Hl) as (_ & _ & _ & _ & Eo). unfold vmap.
  destruct (walk (mmem s) (pd s) lin) as [|prot f] eqn:E; [congruence|].
  apply walk_frame in E. pose proof (Z.mod_pos_bound lin (2 ^ 12) ltac:(lia)).
  rewrite Eo, frame_or by assumption. rewrite Z.add_mod, E, Z.add_0_l, !Zmod_mod by lia. reflexivity.
Qed.

Lemma vmap_distinct s lin i j :
  resident s (lin + i) -> resident s (lin + j) -> 0 < j - i < 2 ^ 12 -> vmap s (lin + i) <> vmap s (lin + j).
Proof.
  intros Hi Hj Hd E. pose proof (vmap_offset s _ Hi) as Ei. rewrite E, (vmap_offset s _ Hj) in Ei.
  pose proof (Z_div_mod_eq_full (lin + i) (2 ^ 12)). pose proof (Z_div_mod_eq_full (lin + j) (2 ^ 12)). lia.
Qed.

(** Within a page the physical addresses follow each other. *)
Lemma vmap_page s lin i :
  resident s lin -> 0 <= i -> lin mod 2 ^ 12 + i < 2 ^ 12 -> vmap s (lin + i) = vmap s lin + i.
Proof.
  intros (Hl & Hw & _) Hi Hp. pose proof (Z_div_mod_eq_full lin (2 ^ 12)) as E.
  pose proof (Z.mod_pos_bound lin (2 ^ 12) ltac:(lia)) as Hm.
  assert (Hq : lin / 2 ^ 12 < 2 ^ 20) by (apply Z.div_lt_upper_bound; lia).
  assert (Hl' : 0 <= lin + i < 2 ^ 32) by lia.
  assert (Ed : (lin + i) / 2 ^ 12 = lin / 2 ^ 12) by (symmetry; apply Z.div_unique with (lin mod 2 ^ 12 + i); lia).
  assert (Em : (lin + i) mod 2 ^ 12 = lin mod 2 ^ 12 + i) by (symmetry; apply Z.mod_unique with (lin / 2 ^ 12); lia).
  assert (Ew : walk (mmem s) (pd s) (lin + i) = walk (mmem s) (pd s) lin)
    by (rewrite <- (walk_page _ _ _ Hl'), Ed; apply walk_page, Hl).
  destruct (lin_split lin Hl) as (_ & _ & _ & _ & Eo). destruct (lin_split _ Hl') as (_ & _ & _ & _ & Eo').
  unfold vmap. rewrite Ew. destruct (walk (mmem s) (pd s) lin) as [|prot f] eqn:E1; [congruence|].
  apply walk_frame in E1. rewrite Eo, Eo', Em, !frame_or by (assumption || lia). lia.
Qed.

Lemma value_page s n : forall lin,
  resident_range s lin n -> (0 < n)%nat -> lin mod 2 ^ 12 + Z.of_nat n <= 2 ^ 12 ->
  vvalue s lin n = value_at (mmem s) (vmap s lin) n.
Proof.
  induction n as [|n IH]; intros lin HR Hn Hp; [lia|]. cbn [vvalue value_at]. f_equal. f_equal.
  destruct n as [|n]; [reflexivity|].
  pose proof (HR 0 ltac:(lia)) as R0. rewrite Z.add_0_r in R0.
  rewrite <- (vmap_page s lin 1) by (exact R0 || lia). apply IH; [|lia|].
  - intros i Hi. replace (lin + 1 + i) with (lin + (1 + i)) by lia. apply HR. lia.
  - pose proof (Z_div_mod_eq_full lin (2 ^ 12)). pose proof (Z.mod_pos_bound lin (2 ^ 12) ltac:(lia)).
    assert (E : (lin + 1) mod 2 ^ 12 = lin mod 2 ^ 12 + 1)
      by (symmetry; apply Z.mod_unique with (lin / 2 ^ 12); lia). lia.
Qed.

Lemma ram_page s lin n :
  resident_range s lin n -> (0 < n)%nat -> lin mod 2 ^ 12 + Z.of_nat n <= 2 ^ 12 ->
  is_ram (mmem s) (vmap s lin) (Z.of_nat n)
  /\ forall b, vmap s lin <= b < vmap s lin + Z.of_nat n -> off_tables (mmem s) (pd s) b
     /\ exists i, 0 <= i < Z.of_nat n /\ b = vmap s (lin + i).
Proof.
  intros HR Hn Hp. pose proof (HR 0 ltac:(lia)) as R0. rewrite Z.add_0_r in R0. split.
  - apply ram_bytes; [lia|]. intros i Hi. rewrite <- (vmap_page s lin i R0) by lia. apply (HR i Hi).
  - intros b Hb. assert (Eb : b = vmap s (lin + (b - vmap s lin))) by (rewrite vmap_page by (exact R0 || lia); lia).
    split; [rewrite Eb; apply HR; lia | exists (b - vmap s lin); split; [lia | exact Eb]].
Qed.

(** *** Translation *)

Lemma off_tables_ad m m' pdbr b : ad_equiv m m' -> off_tables m pdbr b -> off_tables m' pdbr b.
Proof.
  intros HE HO lin Hl. destruct (HO lin Hl) as [H1 H2]. split; [exact H1|].
  rewrite <- (ad_pte m m' pdbr lin HE).
  destruct (ad_fields _ _ (proj1 HE _ (pde_addr_mod4 pdbr lin))) as (Ep & _). rewrite <- Ep. exact H2.
Qed.

Lemma super_allowed access prot : access = PG_R .| PG_S \/ access = PG_W .| PG_S -> 0 <= prot < 4 ->
  access_check access prot = false.
Proof. intros [-> | ->] Hp; four prot; reflexivity. Qed.

Lemma walk_prot m pdbr lin prot f : walk m pdbr lin = Mapped prot f -> 0 <= prot < 4.
Proof.
  unfold walk. destruct (_ =? 0); [discriminate|]. destruct (_ =? 0); [discriminate|].
  intros [= <- _]. apply comb_range.
Qed.

(** A permitted translation of a resident address. *)
Lemma lin2phy_ok s lin access :
  wf s -> resident s lin -> 0 <= access < 4 ->
  match walk (mmem s) (pd s) lin with
  | Mapped prot _ => access_check access prot = false
  | NotPresent => False
  end ->
  exists s', lin2phy lin access s = Ret (vmap s lin) s' /\ framed nothing s s'.
Proof.
  intros Hwf (Hl & Hw & _) Ha Hc.
  pose proof (lin2phy_refines s lin access Hwf Hl Ha) as HR. unfold refines, translate in HR. unfold vmap.
  destruct (walk _ _ lin) as [|prot f] eqn:E; [contradiction|]. rewrite Hc in HR.
  destruct HR as (s' & ER & Hwf' & Ec & HE & HM). exists s'. split; [exact ER|].
  split; [exact Ec | exact Hwf' | | | apply HE |].
  - intros l Hl'. symmetry. apply walk_proper; [exact HE | reflexivity | reflexivity].
  - intros b Hb. eapply off_tables_ad; eassumption.
  - intros b Hb _. apply HM, Hb.
Qed.

(** The supervisor may always access it. *)
Lemma super_lin2phy s lin access :
  wf s -> resident s lin -> access = PG_R .| PG_S \/ access = PG_W .| PG_S ->
  exists s', lin2phy lin access s = Ret (vmap s lin) s' /\ framed nothing s s'.
Proof.
  intros Hwf HR Ha. apply lin2phy_ok; [exact Hwf | exact HR | destruct Ha as [-> | ->]; vm_compute; split; congruence|].
  destruct (walk (mmem s) (pd s) lin) as [|prot f] eqn:E; [now destruct HR as (_ & [] & _)|].
  exact (super_allowed access prot Ha (walk_prot _ _ _ _ _ E)).
Qed.

(** *** Writes outside the tables leave the address space as it is *)

Section Store.
Context (s : mach P) (Hwf : wf s) (m' : P) (a : Z) (n : nat) (x : Z).
Context (Hst : stored (mmem s) m' a n x).
Context (Hoff : forall b, a <= b < a + Z.of_nat n -> off_tables (mmem s) (pd s) b).

Lemma store_outside t :
  (forall b, a <= b < a + Z.of_nat n -> outside t b) -> dword_at m' t = dword_at (mmem s) t.
Proof.
  intros Ho. destruct Hst as (_ & Eo & _).
  assert (Hb : forall i, 0 <= i < 4 -> byte_at m' (t + i) = byte_at (mmem s) (t + i)).
  { intros i Hi. apply Eo. destruct (Z.lt_ge_cases (t + i) a); [auto|].
    destruct (Z.lt_ge_cases (t + i) (a + Z.of_nat n)); [|auto]. destruct (Ho (t + i)); lia. }
  pose proof (Hb 0 ltac:(lia)) as B0. pose proof (Hb 1 ltac:(lia)) as B1.
  pose proof (Hb 2 ltac:(lia)) as B2. pose proof (Hb 3 ltac:(lia)) as B3.
  rewrite Z.add_0_r in B0. cbn [value_at].
  replace (t + 1 + 1 + 1) with (t + 3) by lia. replace (t + 1 + 1) with (t + 2) by lia.
  rewrite B0, B1, B2, B3. reflexivity.
Qed.

Lemma store_pde lin : 0 <= lin < 2 ^ 32 ->
  dword_at m' (pde_address (pd s) lin) = dword_at (mmem s) (pde_address (pd s) lin).
Proof. intros Hl. apply store_outside. intros b Hb. apply (Hoff b Hb lin Hl). Qed.

Lemma store_walk lin : 0 <= lin < 2 ^ 32 -> walk m' (pd s) lin = walk (mmem s) (pd s) lin.
Proof.
  intros Hl. unfold walk. rewrite store_pde by exact Hl.
  destruct (Z.eqb_spec (dword_at (mmem s) (pde_address (pd s) lin) .& PE_P_MASK) 0) as [|N]; [reflexivity|].
  rewrite store_outside; [reflexivity|]. intros b Hb. apply (Hoff b Hb lin Hl), N.
Qed.

Lemma store_framed : framed (fun b => a <= b < a + Z.of_nat n) s (SET_mmem m' s).
Proof.
  destruct Hst as (_ & Eo & Er). split; cbn [mcpu mmem SET_mmem].
  - reflexivity.
  - split; cbn [mcpu mmem mtlb SET_mmem]; [apply Hwf | |].
    + intros set entry Hr. cbn zeta. intros Hv.
      destruct (inv_entry _ (wf_inv s Hwf) set entry Hr Hv) as (page & Hp & Ela & _).
      rewrite store_walk by lia. apply (wf_coherent s Hwf); assumption.
    + intros lin Hl. rewrite store_pde, !Er by exact Hl. apply (wf_tables s Hwf lin Hl).
  - exact store_walk.
  - intros b Hb lin Hl. rewrite store_pde by exact Hl. apply (Hb lin Hl).
  - intros b k. symmetry. apply Er.
  - intros b _ Hb. apply Eo. lia.
Qed.
End Store.

(** *** Accesses within a page *)

(** The physical addresses of the bytes of a linear range. *)
Definition bytes_of (s : mach P) (lin : Z) (n : nat) (b : Z) : Prop :=
  exists i, 0 <= i < Z.of_nat n /\ b = vmap s (lin + i).

(** What a read and a write of [n] bytes at [lin] should do. *)
Definition read_spec (n : nat) (f : Z -> M exn (mach P) Z) : Prop :=
  forall s lin, wf s -> GET_PG (mcpu s) = 1 -> resident_range s lin n ->
  exists s', f lin s = Ret (vvalue s lin n) s' /\ framed nothing s s'.

Definition write_spec (n : nat) (f : Z -> Z -> M exn (mach P) unit) : Prop :=
  forall s lin x, wf s -> GET_PG (mcpu s) = 1 -> resident_range s lin n -> 0 <= x < 2 ^ (8 * Z.of_nat n) ->
  exists s', f lin x s = Ret tt s' /\ vvalue s' lin n = x /\ framed (bytes_of s lin n) s s'.

Lemma range_sub s lin n k j :
  resident_range s lin n -> 0 <= j -> j + Z.of_nat k <= Z.of_nat n -> resident_range s (lin + j) k.
Proof. intros HR Hj Hk i Hi. rewrite <- Z.add_assoc. apply HR. lia. Qed.

Lemma range_framed D s s' lin n : framed D s s' -> resident_range s lin n -> resident_range s' lin n.
Proof. intros HF HR i Hi. eapply framed_resident; eauto. Qed.

Lemma range_first s lin n : resident_range s lin n -> (0 < n)%nat -> resident s lin.
Proof. intros HR Hn. rewrite <- (Z.add_0_r lin). apply HR. lia. Qed.

Lemma read_in_page n (op : Z -> M exn P Z) s lin :
  (forall m a, is_ram m a (Z.of_nat n) -> op a m = Ret (value_at m a n) m) ->
  wf s -> resident_range s lin n -> (0 < n)%nat -> lin mod 2 ^ 12 + Z.of_nat n <= 2 ^ 12 ->
  exists s', bind (lin2phy lin (PG_R .| PG_S)) (fun a => onmem (op a)) s = Ret (vvalue s lin n) s'
  /\ framed nothing s s'.
Proof.
  intros Hop Hwf HR Hn Hp.
  destruct (super_lin2phy s lin (PG_R .| PG_S) Hwf (range_first _ _ _ HR Hn) (or_introl eq_refl)) as (s1 & E1 & F1).
  exists s1. split; [|exact F1]. rewrite (bind_ret _ _ _ _ _ E1). pose proof (range_framed _ _ _ _ _ F1 HR) as HR1.
  pose proof (framed_value _ _ _ n lin F1 HR ltac:(unfold nothing; auto)) as Ev.
  pose proof (framed_vmap _ _ _ lin F1 (proj1 (range_first _ _ _ HR Hn))) as Em.
  unfold onmem. rewrite <- Em, Hop by (apply ram_page; assumption).
  rewrite <- value_page, Ev by assumption. rewrite SET_mmem_id. reflexivity.
Qed.

Lemma write_in_page n (op : Z -> Z -> M exn P unit) s lin x :
  (forall m a v, is_ram m a (Z.of_nat n) -> 0 <= v < 2 ^ (8 * Z.of_nat n) ->
   exists m', op a v m = Ret tt m' /\ stored m m' a n v) ->
  wf s -> resident_range s lin n -> (0 < n)%nat -> lin mod 2 ^ 12 + Z.of_nat n <= 2 ^ 12 ->
  0 <= x < 2 ^ (8 * Z.of_nat n) ->
  exists s', bind (lin2phy lin (PG_W .| PG_S)) (fun a => onmem (op a x)) s = Ret tt s'
  /\ vvalue s' lin n = x /\ framed (bytes_of s lin n) s s'.
Proof.
  intros Hop Hwf HR Hn Hp Hx.
  destruct (super_lin2phy s lin (PG_W .| PG_S) Hwf (range_first _ _ _ HR Hn) (or_intror eq_refl)) as (s1 & E1 & F1).
  rewrite (bind_ret _ _ _ _ _ E1). pose proof (range_framed _ _ _ _ _ F1 HR) as HR1.
  pose proof (framed_vmap _ _ _ lin F1 (proj1 (range_first _ _ _ HR Hn))) as Em. rewrite <- Em.
  destruct (ram_page s1 lin n HR1 Hn Hp) as [Hram Hby].
  destruct (Hop (mmem s1) (vmap s1 lin) x Hram Hx) as (m' & E2 & Hst).
  pose proof (store_framed s1 (f_wf _ _ _ F1) m' _ n x Hst ltac:(intros b Hb; apply Hby, Hb)) as F2.
  exists (SET_mmem m' s1). unfold onmem. rewrite E2. split; [reflexivity|]. split.
  - rewrite value_page by (assumption || exact (range_framed _ _ _ _ _ F2 HR1)).
    rewrite (framed_vmap _ _ _ lin F2 (proj1 (range_first _ _ _ HR Hn))). apply Hst.
  - apply (framed_trans _ _ _ _ _ _ F1 F2). intros b [[] | Hb].
    destruct (Hby b Hb) as [_ (i & Hi & ->)]. exists i. split; [exact Hi|].
    apply (framed_vmap _ _ _ _ F1), HR, Hi.
Qed.

(** *** Accesses across a page boundary: two halves *)

Lemma read_halves n f g (combine : Z -> Z -> Z) s lin :
  read_spec n f -> read_spec n g ->
  (forall lo hi, 0 <= lo < 2 ^ (8 * Z.of_nat n) -> 0 <= hi < 2 ^ (8 * Z.of_nat n) ->
   combine lo hi = lo + 2 ^ (8 * Z.of_nat n) * hi) ->
  (forall s' l, resident_range s' l n -> 0 <= vvalue s' l n < 2 ^ (8 * Z.of_nat n)) ->
  (0 < n)%nat -> wf s -> GET_PG (mcpu s) = 1 -> resident_range s lin (n + n) ->
  exists s', bind (f lin) (fun lo => bind (g (u32 (lin + Z.of_nat n))) (fun hi => ret (combine lo hi))) s
             = Ret (vvalue s lin (n + n)) s' /\ framed nothing s s'.
Proof.
  intros Hf Hg Hc Hv Hn Hwf Hpg HR.
  pose proof (range_sub s lin _ n 0 HR ltac:(lia) ltac:(lia)) as R1. rewrite Z.add_0_r in R1.
  pose proof (range_sub s lin _ n (Z.of_nat n) HR ltac:(lia) ltac:(lia)) as R2.
  rewrite u32_small by apply (range_first _ _ _ R2 Hn).
  destruct (Hf s lin Hwf Hpg R1) as (s1 & E1 & F1). rewrite (bind_ret _ _ _ _ _ E1).
  destruct (Hg s1 (lin + Z.of_nat n)) as (s2 & E2 & F2);
    [apply F1 | rewrite (f_cpu _ _ _ F1); exact Hpg | exact (range_framed _ _ _ _ _ F1 R2)|].
  rewrite (bind_ret _ _ _ _ _ E2). exists s2.
  rewrite (framed_value _ _ _ n _ F1 R2) by (unfold nothing; auto).
  split; [|apply (framed_trans _ _ _ _ _ _ F1 F2); tauto].
  unfold ret. rewrite Hc, vvalue_app by (apply Hv; assumption). reflexivity.
Qed.

Lemma write_halves n f g s lin x y :
  write_spec n f -> write_spec n g -> (0 < n <= 4)%nat ->
  wf s -> GET_PG (mcpu s) = 1 -> resident_range s lin (n + n) ->
  0 <= x < 2 ^ (8 * Z.of_nat n) -> 0 <= y < 2 ^ (8 * Z.of_nat n) ->
  exists s', bind (f lin x) (fun _ => g (u32 (lin + Z.of_nat n)) y) s = Ret tt s'
  /\ vvalue s' lin (n + n) = x + 2 ^ (8 * Z.of_nat n) * y /\ framed (bytes_of s lin (n + n)) s s'.
Proof.
  intros Hf Hg Hn Hwf Hpg HR Hx Hy.
  pose proof (range_sub s lin _ n 0 HR ltac:(lia) ltac:(lia)) as R1. rewrite Z.add_0_r in R1.
  pose proof (range_sub s lin _ n (Z.of_nat n) HR ltac:(lia) ltac:(lia)) as R2.
  rewrite u32_small by apply (range_first _ _ _ R2 ltac:(lia)).
  destruct (Hf s lin x Hwf Hpg R1 Hx) as (s1 & E1 & V1 & F1). rewrite (bind_ret _ _ _ _ _ E1).
  destruct (Hg s1 (lin + Z.of_nat n) y) as (s2 & E2 & V2 & F2);
    [apply F1 | rewrite (f_cpu _ _ _ F1); exact Hpg | exact (range_framed _ _ _ _ _ F1 R2) | exact Hy|].
  exists s2. split; [exact E2|]. split.
  - rewrite vvalue_app, V2. f_equal. rewrite <- V1.
    apply (framed_value _ _ _ n lin F2 (range_framed _ _ _ _ _ F1 R1)).
    intros i Hi (j & Hj & E). rewrite !(framed_vmap _ _ _ _ F1), <- Z.add_assoc in E
      by (apply R1 || apply R2; lia). revert E. apply (vmap_distinct s lin i (Z.of_nat n + j)); [apply HR; lia.. | lia].
  - apply (framed_trans _ _ _ _ _ _ F1 F2). intros b [(i & Hi & ->) | (i & Hi & ->)].
    + exists i. split; [lia | reflexivity].
    + exists (Z.of_nat n + i). split; [lia|]. rewrite (framed_vmap _ _ _ _ F1) by (apply R2; lia).
      f_equal. lia.
Qed.

Lemma vvalue_range n : forall s lin, resident_range s lin n -> 0 <= vvalue s lin n < 2 ^ (8 * Z.of_nat n).
Proof.
  induction n as [|n IH]; intros s lin HR; [cbn; lia|]. cbn [vvalue].
  pose proof (range_first _ _ _ HR ltac:(lia)) as (_ & _ & Hr & _).
  pose proof (ram_byte _ _ _ Hr 0 ltac:(lia)) as Hb. rewrite Z.add_0_r in Hb.
  pose proof (IH s (lin + 1) (range_sub _ _ _ n 1 HR ltac:(lia) ltac:(lia))) as Hv.
  replace (8 * Z.of_nat (S n)) with (8 + 8 * Z.of_nat n) by lia. rewrite Z.pow_add_r by lia. nia.
Qed.

Lemma paging_run {A} (k : bool -> M exn (mach P) A) s : GET_PG (mcpu s) = 1 -> bind paging k s = k true s.
Proof. intros E. unfold paging. rewrite getc_bind. cbn [the_cpu HasCpu_mach]. rewrite E. reflexivity. Qed.

(** The split test is exact. *)
Lemma spans lin last n :
  0 <= lin < 2 ^ 32 -> last + n = 2 ^ 12 -> (last <? lin .& OFFSET_MASK) = negb (lin mod 2 ^ 12 + n <=? 2 ^ 12).
Proof.
  intros Hl E. destruct (lin_split lin Hl) as (_ & _ & _ & _ & ->).
  destruct (Z.ltb_spec last (lin mod 2 ^ 12)), (Z.leb_spec (lin mod 2 ^ 12 + n) (2 ^ 12)); lia || reflexivity.
Qed.

Lemma lin_mod lin : 0 <= lin mod 2 ^ 12 < 2 ^ 12.
Proof. apply Z.mod_pos_bound. lia. Qed.

Lemma spr_read_byte_ok : read_spec 1 spr_read_byte.
Proof.
  intros s lin Hwf Hpg HR. unfold spr_read_byte. rewrite paging_run by exact Hpg.
  apply (read_in_page 1); auto using read_byte_ram. pose proof (lin_mod lin). lia.
Qed.

Lemma spr_write_byte_ok : write_spec 1 spr_write_byte.
Proof.
  intros s lin x Hwf Hpg HR Hx. unfold spr_write_byte. rewrite paging_run by exact Hpg.
  apply (write_in_page 1); auto using write_byte_ram. pose proof (lin_mod lin). lia.
Qed.

Lemma spr_read_word_ok : read_spec 2 spr_read_word.
Proof.
  intros s lin Hwf Hpg HR. unfold spr_read_word. rewrite paging_run by exact Hpg. cbn [andb].
  rewrite (spans lin _ 2) by first [reflexivity | apply (range_first _ _ _ HR); lia].
  destruct (Z.leb_spec (lin mod 2 ^ 12 + 2) (2 ^ 12)); cbn [negb].
  - apply (read_in_page 2); auto using read_word_ram.
  - apply (read_halves 1 _ _ (fun lo hi => u16 ((hi .<< 8) .| lo)));
      auto using spr_read_byte_ok, vvalue_range.
    change (8 * Z.of_nat 1) with 8. intros lo hi Hlo Hhi.
    rewrite (u32_small (Z.shiftl hi 8)) by (rewrite Z.shiftl_mul_pow2; lia).
    rewrite join_lor by lia. apply u16_small. lia.
Qed.

Lemma spr_write_word_ok : write_spec 2 spr_write_word.
Proof.
  intros s lin x Hwf Hpg HR Hx. unfold spr_write_word. rewrite paging_run by exact Hpg. cbn [andb].
  rewrite (spans lin _ 2) by first [reflexivity | apply (range_first _ _ _ HR); lia].
  destruct (Z.leb_spec (lin mod 2 ^ 12 + 2) (2 ^ 12)); cbn [negb].
  - apply (write_in_page 2); auto using write_word_ram.
  - change (8 * Z.of_nat 2) with 16 in Hx. rewrite Z.shiftr_div_pow2 by lia.
    destruct (write_halves 1 spr_write_byte spr_write_byte s lin (u8 x) (u8 (x / 2 ^ 8))) as (s' & E & V & F);
      auto using spr_write_byte_ok; try apply u8_range; try lia.
    exists s'. split; [exact E|]. split; [|exact F]. cbn [Nat.add] in V. rewrite V. change (8 * Z.of_nat 1) with 8.
    pose proof (Z_div_mod_eq_full x (2 ^ 8)). rewrite (u8_small (x / 2 ^ 8)); [unfold u8; lia|].
    split; [apply Z.div_pos | apply Z.div_lt_upper_bound]; lia.
Qed.

Lemma spr_read_dword_ok : read_spec 4 spr_read_dword.
Proof.
  intros s lin Hwf Hpg HR. unfold spr_read_dword. rewrite paging_run by exact Hpg. cbn [andb].
  rewrite (spans lin _ 4) by first [reflexivity | apply (range_first _ _ _ HR); lia].
  destruct (Z.leb_spec (lin mod 2 ^ 12 + 4) (2 ^ 12)); cbn [negb].
  - apply (read_in_page 4); auto using read_dword_ram; lia.
  - apply (read_halves 2 _ _ (fun lo hi => (hi .<< 16) .| lo));
      auto using spr_read_word_ok, vvalue_range; try lia.
    change (8 * Z.of_nat 2) with 16. intros lo hi Hlo Hhi.
    rewrite (u32_small (Z.shiftl hi 16)) by (rewrite Z.shiftl_mul_pow2; lia).
    apply join_lor; lia.
Qed.

Lemma spr_write_dword_ok : write_spec 4 spr_write_dword.
Proof.
  intros s lin x Hwf Hpg HR Hx. unfold spr_write_dword. rewrite paging_run by exact Hpg. cbn [andb].
  rewrite (spans lin _ 4) by first [reflexivity | apply (range_first _ _ _ HR); lia].
  destruct (Z.leb_spec (lin mod 2 ^ 12 + 4) (2 ^ 12)); cbn [negb].
  - apply (write_in_page 4); auto using write_dword_ram; lia.
  - change (8 * Z.of_nat 4) with 32 in Hx. rewrite Z.shiftr_div_pow2 by lia.
    destruct (write_halves 2 spr_write_word spr_write_word s lin (u16 x) (u16 (x / 2 ^ 16))) as (s' & E & V & F);
      auto using spr_write_word_ok; try apply u16_range; try lia.
    exists s'. split; [exact E|]. split; [|exact F]. cbn [Nat.add] in V. rewrite V. change (8 * Z.of_nat 2) with 16.
    pose proof (Z_div_mod_eq_full x (2 ^ 16)). rewrite (u16_small (x / 2 ^ 16)); [unfold u16; lia|].
    split; [apply Z.div_pos | apply Z.div_lt_upper_bound]; lia.
Qed.

(** ** Theorems *)

(** C14 - Paged writes and reads: with paging on, a double word written at a linear
    address whose bytes are mapped to RAM outside the page tables (on one page or
    across two) is read back as written; the page mapping is unchanged and no other
    byte outside the tables changes. *)
Theorem paged_round_trip s lin x :
  wf s -> GET_PG (mcpu s) = 1 -> resident_range s lin 4 -> 0 <= x < 2 ^ 32 ->
  exists s1 s2, spr_write_dword lin x s = Ret tt s1 /\ spr_read_dword lin s1 = Ret x s2
  /\ framed (bytes_of s lin 4) s s1 /\ framed nothing s1 s2.
Proof.
  intros Hwf Hpg HR Hx. destruct (spr_write_dword_ok s lin x Hwf Hpg HR Hx) as (s1 & E1 & V1 & F1).
  destruct (spr_read_dword_ok s1 lin) as (s2 & E2 & F2);
    [apply F1 | rewrite (f_cpu _ _ _ F1); exact Hpg | exact (range_framed _ _ _ _ _ F1 HR)|].
  exists s1, s2. rewrite V1 in E2. auto.
Qed.

End Linear.

(** ** Witness: a double word across the two mapped pages *)

#[local] Existing Instance demo_memory.
#[local] Existing Instance demo_laws.

Lemma demo_resident lin :
  0 <= lin < 2 ^ 32 -> walk demo_sas 0x1000 lin <> NotPresent -> 0x3000 <= vmap demo lin < 0xf0000 -> resident demo lin.
Proof.
  intros Hl Hw Hv. split; [exact Hl|]. split; [exact Hw|]. split; [apply demo_ram; lia|].
  intros l Hl'. destruct (demo_entries l) as [H1 H2]. unfold outside.
  change (mmem demo) with demo_sas. change (CR_PDBR (cr (mcpu demo))) with 0x1000.
  split; [lia|]. intros Hp. specialize (H2 Hp). lia.
Qed.

Lemma paged_round_trip_witness :
  exists s1 s2, spr_write_dword 0xffe 0x12345678 demo = Ret tt s1 /\ spr_read_dword 0xffe s1 = Ret 0x12345678 s2
  /\ framed (bytes_of demo 0xffe 4) demo s1 /\ framed nothing s1 s2.
Proof.
  refine (paged_round_trip demo 0xffe 0x12345678 demo_wf eq_refl _ _); [|lia].
  intros i Hi. assert (i = 0 \/ i = 1 \/ i = 2 \/ i = 3) as [-> | [-> | [-> | ->]]] by lia;
    (apply demo_resident; [lia | vm_compute; congruence | vm_compute; split; congruence]).
Defined.

End Page.
