(* ===== verification/Basic.v ===== *)
(** * Flags register and selectors

    The flag and selector routines of [c_bsic.c]: [getFLAGS], [setFLAGS],
    [c_getEFLAGS], [c_setEFLAGS], [descriptor_super_type], [selector_is_null],
    [selector_outside_GDT] and [selector_outside_GDT_LDT], with the field macros
    of [c_bsic.h]. *)

From S2P Require Import Prelude Cpu Arith Shift Xcptn MulDiv Mem Tlb.

Module Basic.
Import Tlb.

(** ** The flags register *)

Definition getFLAGS (c : cpu) : Z :=
  let f := fl c in
  (NT f .<< 14) .| (IOPL f .<< 12) .| (OF f .<< 11) .|
  (DF f .<< 10) .| (IF f .<< 9) .| (TF f .<< 8) .|
  (SF f .<< 7) .| (ZF f .<< 6) .| (AF f .<< 4) .|
  (PF f .<< 2) .| CF f .| 0x2.

Definition c_getEFLAGS (c : cpu) : Z :=
  getFLAGS c .| (VM (fl c) .<< 17) .| (RF (fl c) .<< 16).

Definition setFLAGS (flags : Z) (c : cpu) : cpu :=
  let c := modify_fl (fun f =>
    let f := SET_CF (nz (flags .& BIT_MASK 0)) f in
    let f := SET_PF (nz (flags .& BIT_MASK 2)) f in
    let f := SET_AF (nz (flags .& BIT_MASK 4)) f in
    let f := SET_ZF (nz (flags .& BIT_MASK 6)) f in
    let f := SET_SF (nz (flags .& BIT_MASK 7)) f in
    let f := SET_TF (nz (flags .& BIT_MASK 8)) f in
    let f := SET_DF (nz (flags .& BIT_MASK 10)) f in
    SET_OF (nz (flags .& BIT_MASK 11)) f) c in
  let c := if CPL c <=? IOPL (fl c) then modify_fl (SET_IF (nz (flags .& BIT_MASK 9))) c else c in
  let c := modify_fl (SET_NT (nz (flags .& BIT_MASK 14))) c in
  if CPL c =? 0 then modify_fl (SET_IOPL ((flags .>> 12) .& 3)) c else c.

Definition c_setEFLAGS (flags : Z) (c : cpu) : cpu :=
  let c := setFLAGS flags c in
  let c := modify_fl (SET_RF (nz (flags .& BIT_MASK 16))) c in
  if CPL c =? 0 then modify_fl (SET_VM (nz (flags .& BIT_MASK 17))) c else c.

(** ** Access rights and selectors *)

Definition GET_AR_P (x : Z) : Z := nz (x .& BIT_MASK 7).
Definition GET_AR_E (x : Z) : Z := nz (x .& BIT_MASK 2).
Definition GET_AR_C (x : Z) : Z := nz (x .& BIT_MASK 2).
Definition GET_AR_W (x : Z) : Z := nz (x .& BIT_MASK 1).
Definition GET_AR_R (x : Z) : Z := nz (x .& BIT_MASK 1).
Definition GET_AR_X (x : Z) : Z := nz (x .& BIT_MASK 14).
Definition GET_AR_DPL (x : Z) : Z := (x .& 0x60) .>> 5.
Definition GET_AR_SUPER (x : Z) : Z := x .& 0x1f.
Definition NOT_PRESENT : Z := 0.
Definition ACCESSED : Z := 1.

Definition GET_SELECTOR_INDEX_TIMES8 (x : Z) : Z := x .& 0xfff8.
Definition GET_SELECTOR_INDEX (x : Z) : Z := (x .& 0xfff8) .>> 3.
Definition GET_SELECTOR_TI (x : Z) : Z := (x .& 0x0004) .>> 2.
Definition GET_SELECTOR_RPL (x : Z) : Z := x .& 0x3.
Definition SET_SELECTOR_RPL (x y : Z) : Z := u16 ((x .& not32 3) .| y).

Definition INVALID : Z := 0x00.
Definition AVAILABLE_TSS : Z := 0x01.
Definition BUSY_TSS : Z := 0x03.
Definition XTND_AVAILABLE_TSS : Z := 0x09.
Definition XTND_BUSY_TSS : Z := 0x0b.
Definition EXPANDUP_READONLY_DATA : Z := 0x11.
Definition EXPANDUP_WRITEABLE_DATA : Z := 0x13.
Definition EXPANDDOWN_READONLY_DATA : Z := 0x15.
Definition EXPANDDOWN_WRITEABLE_DATA : Z := 0x17.
Definition NONCONFORM_NOREAD_CODE : Z := 0x19.
Definition NONCONFORM_READABLE_CODE : Z := 0x1b.
Definition CONFORM_NOREAD_CODE : Z := 0x1d.
Definition CONFORM_READABLE_CODE : Z := 0x1f.

Definition descriptor_super_type (AR : Z) : Z :=
  let super := GET_AR_SUPER AR in
  if (super =? 0x0) || (super =? 0x8) || (super =? 0xa) || (super =? 0xd) then INVALID
  else if super <? 0x10 then super
  else super .| ACCESSED.

Definition selector_is_null (selector : Z) : bool :=
  (GET_SELECTOR_INDEX selector =? 0) && (GET_SELECTOR_TI selector =? 0).

(** [Some] is the descriptor's address and a [FALSE] return, [None] is [TRUE]. *)
Definition selector_outside_GDT (selector : Z) (c : cpu) : option Z :=
  let offset := GET_SELECTOR_INDEX_TIMES8 selector in
  if (GET_SELECTOR_TI selector =? 1) || (offset =? 0) || (star_limit (gdtr c) <? offset + 7) then None
  else Some (u32 (star_base (gdtr c) + offset)).

Definition selector_outside_GDT_LDT (selector : Z) (c : cpu) : option Z :=
  let offset := GET_SELECTOR_INDEX_TIMES8 selector in
  if GET_SELECTOR_TI selector =? 0 then
    if (offset =? 0) || (star_limit (gdtr c) <? offset + 7) then None
    else Some (u32 (star_base (gdtr c) + offset))
  else
    if (sar_selector (ldtr c) <=? 3) || (sar_limit (ldtr c) <? offset + 7) then None
    else Some (u32 (sar_base (ldtr c) + offset)).

(** ** Bits of the flags register *)

Definition flags_ok (f : FLAGS) : Prop :=
  Forall (fun x => x = 0 \/ x = 1)
    [CF f; PF f; AF f; ZF f; SF f; TF f; IF f; DF f; OF f; NT f; RF f; VM f]
  /\ 0 <= IOPL f < 4.

(** The bit of EFLAGS at each position. *)
Definition flag_at (f : FLAGS) (i : Z) : bool :=
  match i with
  | 0 => CF f =? 1 | 1 => true | 2 => PF f =? 1 | 4 => AF f =? 1 | 6 => ZF f =? 1
  | 7 => SF f =? 1 | 8 => TF f =? 1 | 9 => IF f =? 1 | 10 => DF f =? 1 | 11 => OF f =? 1
  | 12 => Z.testbit (IOPL f) 0 | 13 => Z.testbit (IOPL f) 1 | 14 => NT f =? 1
  | 16 => RF f =? 1 | 17 => VM f =? 1 | _ => false
  end.

(** The positions a program at privilege [cpl] can change. *)
Definition writable (cpl iopl i : Z) : bool :=
  match i with
  | 0 | 2 | 4 | 6 | 7 | 8 | 10 | 11 | 14 | 16 => true
  | 9 => cpl <=? iopl
  | 12 | 13 | 17 => cpl =? 0
  | _ => false
  end.

Lemma flag_shift x n i : x = 0 \/ x = 1 -> 0 <= n < 32 -> 0 <= i ->
  Z.testbit (x .<< n) i = (i =? n) && (x =? 1).
Proof.
  intros [-> | ->] Hn Hi.
  - rewrite Z.shiftl_0_l, andb_false_r. apply Z.bits_0.
  - rewrite Z.shiftl_1_l, u32_small by (split; [lia | apply Z.pow_lt_mono_r; lia]).
    rewrite andb_true_r, Z.pow2_bits_eqb by lia. apply Z.eqb_sym.
Qed.

Lemma iopl_shift x i : 0 <= x < 4 -> 0 <= i ->
  Z.testbit (x .<< 12) i
  = if i =? 12 then Z.testbit x 0 else if i =? 13 then Z.testbit x 1 else false.
Proof.
  intros Hx Hi. rewrite u32_small by (rewrite Z.shiftl_mul_pow2; lia).
  rewrite Z.shiftl_spec by lia.
  destruct (Z.eqb_spec i 12) as [-> | ]; [reflexivity|].
  destruct (Z.eqb_spec i 13) as [-> | ]; [reflexivity|].
  destruct (Z.lt_ge_cases i 12); [apply Z.testbit_neg_r; lia|].
  apply (proj1 (range_bits x 2 ltac:(lia)) ltac:(lia)). lia.
Qed.

Lemma bit_cases (Q : Z -> Prop) :
  (forall i, 18 <= i -> Q i) ->
  Q 0 -> Q 1 -> Q 2 -> Q 3 -> Q 4 -> Q 5 -> Q 6 -> Q 7 -> Q 8 -> Q 9 -> Q 10 -> Q 11 -> Q 12 -> Q 13 ->
  Q 14 -> Q 15 -> Q 16 -> Q 17 -> forall i, 0 <= i -> Q i.
Proof.
  intros. destruct (Z.lt_ge_cases i 18); [|auto].
  assert (i = 0 \/ i = 1 \/ i = 2 \/ i = 3 \/ i = 4 \/ i = 5 \/ i = 6 \/ i = 7 \/ i = 8 \/ i = 9 \/ i = 10
          \/ i = 11 \/ i = 12 \/ i = 13 \/ i = 14 \/ i = 15 \/ i = 16 \/ i = 17) as Hc by lia.
  repeat destruct Hc as [-> | Hc]; subst; assumption.
Qed.

Lemma flag_at_high f i : 18 <= i -> flag_at f i = false.
Proof. intros Hi. destruct i as [|p|p]; [lia | | lia]. do 5 (try destruct p as [p|p|]; try lia; try reflexivity). Qed.

Lemma writable_high cpl iopl i : 18 <= i -> writable cpl iopl i = false.
Proof. intros Hi. destruct i as [|p|p]; [lia | | lia]. do 5 (try destruct p as [p|p|]; try lia; try reflexivity). Qed.

Lemma eflags_bit c i : flags_ok (fl c) -> 0 <= i -> Z.testbit (c_getEFLAGS c) i = flag_at (fl c) i.
Proof.
  intros [HF HI] Hi. unfold c_getEFLAGS, getFLAGS. set (f := fl c) in *. clearbody f.
  repeat match goal with H : Forall _ (_ :: _) |- _ => inversion_clear H end.
  rewrite !Z.lor_spec, iopl_shift, !flag_shift by (assumption || lia).
  assert (E2 : Z.testbit 2 i = (i =? 1)) by (change 2 with (2 ^ 1); rewrite Z.pow2_bits_eqb by lia; apply Z.eqb_sym).
  assert (E0 : Z.testbit (CF f) i = (i =? 0) && (CF f =? 1)).
  { assert (E : CF f = 0 \/ CF f = 1) by assumption. destruct E as [-> | ->].
    - rewrite andb_false_r. apply Z.bits_0.
    - rewrite andb_true_r. change 1 with (2 ^ 0). rewrite Z.pow2_bits_eqb by lia. apply Z.eqb_sym. }
  rewrite E2, E0. clear - Hi. revert i Hi. apply bit_cases;
    [|cbn [Z.eqb Pos.eqb andb orb flag_at]; rewrite ?orb_false_r, ?orb_true_r; reflexivity..].
  intros i Hi. rewrite flag_at_high by exact Hi.
  repeat (rewrite (proj2 (Z.eqb_neq i _)) by lia). reflexivity.
Qed.

Lemma nz_flag v n : 0 <= n -> nz (v .& BIT_MASK n) = Z.b2z (Z.testbit v n).
Proof. apply nz_land_pow2. Qed.

Lemma b2z_flag b : Z.b2z b = 0 \/ Z.b2z b = 1.
Proof. destruct b; auto. Qed.

Lemma b2z_is1 b : (Z.b2z b =? 1) = b.
Proof. destruct b; reflexivity. Qed.

Lemma iopl_range v : 0 <= (v .>> 12) .& 3 < 4.
Proof. change 3 with (2 ^ 2 - 1). rewrite land_mask by lia. apply Z.mod_pos_bound. lia. Qed.

Lemma iopl_bits v : Z.testbit ((v .>> 12) .& 3) 0 = Z.testbit v 12 /\ Z.testbit ((v .>> 12) .& 3) 1 = Z.testbit v 13.
Proof. split; rewrite Z.land_spec, Z.shiftr_spec by lia; apply andb_true_r. Qed.

(** The flags after a store, in one record. *)
Lemma setEFLAGS_flags v c :
  let b n := Z.b2z (Z.testbit v n) in
  fl (c_setEFLAGS v c)
  = mkFLAGS (b 0) (b 2) (b 4) (b 6) (b 7) (b 8)
      (if CPL c <=? IOPL (fl c) then b 9 else IF (fl c)) (b 10) (b 11)
      (if CPL c =? 0 then (v .>> 12) .& 3 else IOPL (fl c)) (b 14) (b 16)
      (if CPL c =? 0 then b 17 else VM (fl c)).
Proof.
  unfold c_setEFLAGS, setFLAGS. rewrite !nz_flag by lia. set (c1 := modify_fl _ c).
  change (CPL c1) with (CPL c). change (IOPL (fl c1)) with (IOPL (fl c)).
  destruct (CPL c <=? IOPL (fl c)); set (c2 := modify_fl (SET_NT _) _); change (CPL c2) with (CPL c);
    destruct (CPL c =? 0) eqn:E0; set (c3 := modify_fl (SET_RF _) _); change (CPL c3) with (CPL c);
    rewrite E0; reflexivity.
Qed.

Lemma set_flags_ok v c : flags_ok (fl c) -> flags_ok (fl (c_setEFLAGS v c)).
Proof.
  intros [HF HI]. rewrite setEFLAGS_flags. pose proof (iopl_range v).
  repeat match goal with H : Forall _ (_ :: _) |- _ => inversion_clear H end.
  split; cbn [CF PF AF ZF SF TF IF DF OF IOPL NT RF VM].
  - destruct (CPL c <=? IOPL (fl c)), (CPL c =? 0); repeat (constructor; [solve [auto using b2z_flag]|]); constructor.
  - destruct (CPL c =? 0); assumption.
Qed.

(** ** Theorems *)

(** Privileged flags: storing a value in EFLAGS changes exactly the bits the
    current privilege allows: IF only when CPL is at most IOPL, IOPL and VM only at
    privilege 0, and no bit that is not a flag; the other bits read back as before. *)
Theorem eflags_update v c i :
  flags_ok (fl c) -> 0 <= i ->
  flags_ok (fl (c_setEFLAGS v c))
  /\ Z.testbit (c_getEFLAGS (c_setEFLAGS v c)) i
     = if writable (CPL c) (IOPL (fl c)) i then Z.testbit v i else Z.testbit (c_getEFLAGS c) i.
Proof.
  intros Hok Hi. pose proof (set_flags_ok v c Hok) as Hok'. split; [exact Hok'|].
  rewrite !eflags_bit by assumption. destruct (iopl_bits v) as [I0 I1]. rewrite setEFLAGS_flags.
  revert i Hi. apply bit_cases.
  { intros i Hi. rewrite writable_high, !flag_at_high by exact Hi. reflexivity. }
  all: cbn [writable flag_at CF PF AF ZF SF TF IF DF OF IOPL NT RF VM];
    try destruct (CPL c <=? IOPL (fl c)); try destruct (CPL c =? 0); rewrite ?b2z_is1, ?I0, ?I1; reflexivity.
Qed.

Lemma eflags_update_witness : Z.testbit (c_getEFLAGS (c_setEFLAGS 0x3202 cpu0)) 12 = true.
Proof. refine (proj2 (eflags_update 0x3202 cpu0 12 _ _)); [|lia]. split; [|cbn; lia]. repeat (constructor; [left; reflexivity|]). constructor. Defined.

End Basic.
