(* ===== verification/Seg.v ===== *)
(** * Descriptors and segment registers

    [read_descriptor_linear] of [c_bsic.c], the validations of [c_prot.c] and the
    segment register loads of [c_seg.c].  The hidden part of a segment register is
    the rest of its record. *)

From S2P Require Import Prelude Cpu Arith Shift Xcptn MulDiv Mem Tlb Page Basic.

Module Seg.
Import Xcptn Tlb Page Basic.

Record CPU_DESCR := mkDESCR { d_base : Z; d_limit : Z; d_AR : Z }.

(** The two double words of a descriptor, decoded. *)
Definition unpack_descriptor (first_dword second_dword : Z) : CPU_DESCR :=
  let AR := (second_dword .>> 8) .& WORD_MASK in
  let base := (first_dword .>> 16) .| ((second_dword .<< 16) .& 0xff0000) .| (second_dword .& 0xff000000) in
  let limit := (first_dword .& WORD_MASK) .| (second_dword .& 0xf0000) in
  let limit := if tst (second_dword .& BIT_MASK 23) then (limit .<< 12) .| 0xfff else limit in
  mkDESCR base limit AR.

Section Load.
Context {P : Type} `{PhyMem P}.

Abbreviation X := (M exn (mach P)).

Definition read_descriptor_linear (addr : Z) : X CPU_DESCR :=
  first_dword <- spr_read_dword addr ;;
  second_dword <- spr_read_dword (u32 (addr + 4)) ;;
  ret (unpack_descriptor first_dword second_dword).

(** Change a segment register. *)
Definition modsr (indx : Z) (f : SEGMENT_REGISTER -> SEGMENT_REGISTER) : X unit :=
  modc (fun c => SET_SR indx (f (GET_SR indx c)) c).

(** Real mode or virtual 8086 mode. *)
Definition real_or_v86 (c : cpu) : bool := (GET_PE c =? 0) || (VM (fl c) =? 1).

(** A selector's descriptor address, with a fault when it has none: the code after
    the fault does not run, and reads no address. *)
Definition descr_or (fault : X unit) (selector : Z) : X Z :=
  r <- getc (selector_outside_GDT_LDT selector) ;;
  match r with
  | Some a => ret a
  | None => fault ;; undefined
  end.

Definition check_SS (selector privilege : Z) : X (Z * CPU_DESCR) :=
  descr_addr <- descr_or (GP selector) selector ;;
  entry <- read_descriptor_linear descr_addr ;;
  let super := descriptor_super_type (d_AR entry) in
  when (negb ((super =? EXPANDUP_WRITEABLE_DATA) || (super =? EXPANDDOWN_WRITEABLE_DATA))) (GP selector) ;;
  when (negb (GET_SELECTOR_RPL selector =? privilege) || negb (GET_AR_DPL (d_AR entry) =? privilege)) (GP selector) ;;
  when (GET_AR_P (d_AR entry) =? NOT_PRESENT) (SF_fault selector) ;;
  ret (descr_addr, entry).

Definition get_stack_selector_from_TSS (priv : Z) : X (Z * Z) :=
  t <- getc tr ;;
  if sar_super t =? BUSY_TSS then
    address <- match priv with
               | 0 => ret 0x02 | 1 => ret 0x06 | 2 => ret 0x0a | _ => undefined
               end ;;
    let address := u32 (address + sar_base t) in
    new_sp <- spr_read_word address ;;
    new_ss <- spr_read_word (u32 (address + 2)) ;;
    ret (new_ss, new_sp)
  else
    address <- match priv with
               | 0 => ret 0x04 | 1 => ret 0x0c | 2 => ret 0x14 | _ => undefined
               end ;;
    let address := u32 (address + sar_base t) in
    new_sp <- spr_read_dword address ;;
    new_ss <- spr_read_word (u32 (address + 4)) ;;
    ret (new_ss, new_sp).

Definition load_data_seg_new_privilege (indx : Z) (c : cpu) : cpu :=
  let s := GET_SR indx c in
  let valid :=
    match selector_outside_GDT_LDT (selector s) c with
    | Some _ =>
        if ar_c s =? 0 then (CPL c <=? ar_dpl s) && (GET_SELECTOR_RPL (selector s) <=? ar_dpl s)
        else true
    | None => false
    end in
  if valid then c
  else SET_SR indx (SEG_limit 0 (SEG_base 0 (SEG_ar_r 0 (SEG_ar_w 0 (SEG_selector 0 s))))) c.

Definition validate_SS_on_stack_change (priv selector : Z) : X (Z * CPU_DESCR) :=
  descr <- descr_or (TS selector) selector ;;
  entry <- read_descriptor_linear descr ;;
  when (negb (GET_SELECTOR_RPL selector =? priv) || negb (GET_AR_DPL (d_AR entry) =? priv)) (TS selector) ;;
  let super := descriptor_super_type (d_AR entry) in
  when (negb ((super =? EXPANDUP_WRITEABLE_DATA) || (super =? EXPANDDOWN_WRITEABLE_DATA))) (TS selector) ;;
  when (GET_AR_P (d_AR entry) =? NOT_PRESENT) (SF_fault selector) ;;
  ret (descr, entry).

Definition validate_TSS (selector : Z) (is_switch : bool) : X (Z * Z) :=
  let bad : X unit := if is_switch then TS selector else GP selector in
  r <- getc (selector_outside_GDT selector) ;;
  match r with
  | None => bad ;; undefined
  | Some descr_addr =>
      AR <- spr_read_byte (u32 (descr_addr + 5)) ;;
      let super := descriptor_super_type AR in
      let is_ok := (negb is_switch && ((super =? AVAILABLE_TSS) || (super =? XTND_AVAILABLE_TSS)))
                   || (is_switch && ((super =? BUSY_TSS) || (super =? XTND_BUSY_TSS))) in
      when (negb is_ok) bad ;;
      when (GET_AR_P AR =? NOT_PRESENT) (NP selector) ;;
      ret (descr_addr, super)
  end.

(** [entry] is only used in protected mode. *)
Definition load_CS_cache (sel descr_addr : Z) (entry : CPU_DESCR) : X unit :=
  real <- getc real_or_v86 ;;
  if real then
    vm <- getc (fun c => VM (fl c)) ;;
    modsr CS_REG (fun s =>
      let s := SEG_base (sel .<< 4) (SEG_selector sel s) in
      let s := SEG_ar_x 0 (SEG_ar_c 0 (SEG_ar_e 0 (SEG_ar_r 1 (SEG_ar_w 1 s)))) in
      SEG_ar_dpl (if vm =? 1 then 3 else 0) s)
  else
    spr_write_byte (u32 (descr_addr + 5)) (u8 (u8 (d_AR entry) .| ACCESSED)) ;;
    let AR := u16 (d_AR entry .| ACCESSED) in
    modsr CS_REG (fun s =>
      let s := SEG_limit (d_limit entry) (SEG_base (d_base entry) (SEG_selector sel s)) in
      let s := SEG_ar_x (GET_AR_X AR) (SEG_ar_c (GET_AR_C AR) (SEG_ar_r (GET_AR_R AR)
                 (SEG_ar_dpl (GET_AR_DPL AR) s))) in
      SEG_ar_w 0 (SEG_ar_e 0 s)).

Definition load_SS_cache (sel descr_addr : Z) (entry : CPU_DESCR) : X unit :=
  spr_write_byte (u32 (descr_addr + 5)) (u8 (u8 (d_AR entry) .| ACCESSED)) ;;
  let AR := u16 (d_AR entry .| ACCESSED) in
  modsr SS_REG (fun s =>
    let s := SEG_limit (d_limit entry) (SEG_base (d_base entry) (SEG_selector sel s)) in
    let s := SEG_ar_x (GET_AR_X AR) (SEG_ar_e (GET_AR_E AR) (SEG_ar_dpl (GET_AR_DPL AR) s)) in
    SEG_ar_c 0 (SEG_ar_r 1 (SEG_ar_w 1 s))).

Definition load_code_seg (new_cs : Z) : X unit :=
  real <- getc real_or_v86 ;;
  if real then load_CS_cache new_cs 0 (mkDESCR 0 0 0)
  else
    cs_descr_addr <- descr_or (GP new_cs) new_cs ;;
    cs_entry <- read_descriptor_linear cs_descr_addr ;;
    let super := descriptor_super_type (d_AR cs_entry) in
    cpl <- getc CPL ;;
    (if (super =? CONFORM_NOREAD_CODE) || (super =? CONFORM_READABLE_CODE) then
       when (cpl <? GET_AR_DPL (d_AR cs_entry)) (GP new_cs) ;;
       when (GET_AR_P (d_AR cs_entry) =? NOT_PRESENT) (NP new_cs)
     else if (super =? NONCONFORM_NOREAD_CODE) || (super =? NONCONFORM_READABLE_CODE) then
       when ((cpl <? GET_SELECTOR_RPL new_cs) || negb (GET_AR_DPL (d_AR cs_entry) =? cpl)) (GP new_cs) ;;
       when (GET_AR_P (d_AR cs_entry) =? NOT_PRESENT) (NP new_cs)
     else GP new_cs) ;;
    load_CS_cache (SET_SELECTOR_RPL new_cs cpl) cs_descr_addr cs_entry.

(** [load_data_seg] once the type of the segment is known to be right. *)
Definition load_data_checked (indx sel descr_addr : Z) (entry : CPU_DESCR) (is_data : bool) : X unit :=
  cpl <- getc CPL ;;
  let super := descriptor_super_type (d_AR entry) in
  let dpl := GET_AR_DPL (d_AR entry) in
  when (negb (super =? CONFORM_READABLE_CODE) && ((dpl <? cpl) || (dpl <? GET_SELECTOR_RPL sel))) (GP sel) ;;
  when (GET_AR_P (d_AR entry) =? NOT_PRESENT) (NP sel) ;;
  spr_write_byte (u32 (descr_addr + 5)) (u8 (u8 (d_AR entry) .| ACCESSED)) ;;
  let AR := u16 (d_AR entry .| ACCESSED) in
  modsr indx (fun s =>
    let s := SEG_limit (d_limit entry) (SEG_base (d_base entry) (SEG_selector sel s)) in
    let s := SEG_ar_dpl (GET_AR_DPL AR) s in
    let s := if is_data then SEG_ar_c 0 (SEG_ar_e (GET_AR_E AR) (SEG_ar_w (GET_AR_W AR) s))
             else SEG_ar_e 0 (SEG_ar_w 0 (SEG_ar_c (GET_AR_C AR) s)) in
    SEG_ar_r 1 (SEG_ar_x (GET_AR_X AR) s)).

Definition load_data_seg (indx sel : Z) : X unit :=
  real <- getc real_or_v86 ;;
  if real then modsr indx (fun s => SEG_base (sel .<< 4) (SEG_selector sel s))
  else if selector_is_null sel then
    modsr indx (fun s => SEG_ar_r 0 (SEG_ar_w 0 (SEG_limit 0 (SEG_base 0 (SEG_selector sel s)))))
  else
    descr_addr <- descr_or (GP sel) sel ;;
    entry <- read_descriptor_linear descr_addr ;;
    let super := descriptor_super_type (d_AR entry) in
    is_data <- (if (super =? CONFORM_READABLE_CODE) || (super =? NONCONFORM_READABLE_CODE) then ret false
                else if (super =? EXPANDUP_READONLY_DATA) || (super =? EXPANDUP_WRITEABLE_DATA)
                        || (super =? EXPANDDOWN_READONLY_DATA) || (super =? EXPANDDOWN_WRITEABLE_DATA) then ret true
                else GP sel ;; undefined) ;;
    load_data_checked indx sel descr_addr entry is_data.

Definition load_stack_seg (sel : Z) : X unit :=
  real <- getc real_or_v86 ;;
  if real then modsr SS_REG (fun s => SEG_base (sel .<< 4) (SEG_selector sel s))
  else
    cpl <- getc CPL ;;
    r <- check_SS sel cpl ;;
    load_SS_cache sel (fst r) (snd r).

End Load.

(** ** Descriptors *)

(** The fields of a 386 descriptor: base, limit (20 bits), access byte and the
    four attribute bits G, D, 0 and AVL. *)
Definition pack_descriptor (base limit access attr : Z) : Z * Z :=
  (limit mod 2 ^ 16 + (base mod 2 ^ 16) * 2 ^ 16,
   (base / 2 ^ 16) mod 2 ^ 8 + access * 2 ^ 8 + (limit / 2 ^ 16) * 2 ^ 16 + attr * 2 ^ 20 + (base / 2 ^ 24) * 2 ^ 24).

Lemma mask_field x n k : 0 <= n -> 0 <= k -> x .& Z.shiftl (2 ^ n - 1) k = ((x / 2 ^ k) mod 2 ^ n) * 2 ^ k.
Proof. intros Hn Hk. rewrite Z.shiftl_mul_pow2 by lia. apply MulDiv.land_field; assumption. Qed.

Lemma lor_add lo hi k : 0 <= k -> 0 <= lo < 2 ^ k -> lo .| hi * 2 ^ k = lo + hi * 2 ^ k.
Proof.
  intros Hk Hlo. rewrite Z.lor_comm, <- Z.shiftl_mul_pow2 by lia. rewrite join_lor by assumption.
  rewrite Z.shiftl_mul_pow2 by lia. lia.
Qed.

Lemma div_is x q r k : 0 <= r < 2 ^ k -> x = 2 ^ k * q + r -> x / 2 ^ k = q.
Proof. intros Hr Hx. symmetry. apply Z.div_unique with r; [left; exact Hr | exact Hx]. Qed.

Lemma mod_is x q r k : 0 <= r < 2 ^ k -> x = 2 ^ k * q + r -> x mod 2 ^ k = r.
Proof. intros Hr Hx. symmetry. apply Z.mod_unique with q; [left; exact Hr | exact Hx]. Qed.

Lemma unpack_fields l0 l1 b0 b1 b2 access attr :
  0 <= l0 < 2 ^ 16 -> 0 <= l1 < 2 ^ 4 -> 0 <= b0 < 2 ^ 16 -> 0 <= b1 < 2 ^ 8 -> 0 <= b2 < 2 ^ 8 ->
  0 <= access < 2 ^ 8 -> 0 <= attr < 2 ^ 4 ->
  let limit := l0 + l1 * 2 ^ 16 in
  unpack_descriptor (l0 + b0 * 2 ^ 16)
    (b1 + access * 2 ^ 8 + l1 * 2 ^ 16 + attr * 2 ^ 20 + b2 * 2 ^ 24)
  = mkDESCR (b0 + b1 * 2 ^ 16 + b2 * 2 ^ 24)
      (if Z.testbit attr 3 then limit * 2 ^ 12 + (2 ^ 12 - 1) else limit)
      (access + l1 * 2 ^ 8 + attr * 2 ^ 12).
Proof.
  intros Hl0 Hl1 Hb0 Hb1 Hb2 Ha Ht limit. set (F := l0 + b0 * 2 ^ 16).
  set (W := b1 + access * 2 ^ 8 + l1 * 2 ^ 16 + attr * 2 ^ 20 + b2 * 2 ^ 24). unfold unpack_descriptor.
  assert (EAR : (W .>> 8) .& WORD_MASK = access + l1 * 2 ^ 8 + attr * 2 ^ 12).
  { change WORD_MASK with (2 ^ 16 - 1). rewrite land_mask, Z.shiftr_div_pow2 by lia.
    rewrite (div_is W (access + l1 * 2 ^ 8 + attr * 2 ^ 12 + b2 * 2 ^ 16) b1) by (assumption || (unfold W; lia)).
    apply mod_is with b2; lia. }
  assert (E1 : F .>> 16 = b0) by (rewrite Z.shiftr_div_pow2 by lia; apply div_is with l0; unfold F; lia).
  assert (E2 : (W .<< 16) .& 0xff0000 = b1 * 2 ^ 16).
  { change 0xff0000 with (Z.shiftl (2 ^ 8 - 1) 16). rewrite mask_field by lia. f_equal.
    rewrite Z.shiftl_mul_pow2 by lia. unfold u32.
    rewrite (mod_is (W * 2 ^ 16) (l1 + attr * 2 ^ 4 + b2 * 2 ^ 8) ((b1 + access * 2 ^ 8) * 2 ^ 16)) by (unfold W; lia).
    rewrite Z.div_mul by lia. apply mod_is with access; lia. }
  assert (E3 : W .& 0xff000000 = b2 * 2 ^ 24).
  { change 0xff000000 with (Z.shiftl (2 ^ 8 - 1) 24). rewrite mask_field by lia. f_equal.
    rewrite (div_is W b2 (b1 + access * 2 ^ 8 + l1 * 2 ^ 16 + attr * 2 ^ 20)) by (unfold W; lia).
    apply Z.mod_small. exact Hb2. }
  assert (E4 : (F .& WORD_MASK) .| (W .& 0xf0000) = limit).
  { change WORD_MASK with (2 ^ 16 - 1). change 0xf0000 with (Z.shiftl (2 ^ 4 - 1) 16).
    rewrite land_mask, mask_field by lia. rewrite (mod_is F b0 l0) by (assumption || (unfold F; lia)).
    rewrite (div_is W (l1 + attr * 2 ^ 4 + b2 * 2 ^ 8) (b1 + access * 2 ^ 8)) by (unfold W; lia).
    rewrite (mod_is _ (attr + b2 * 2 ^ 4) l1) by (assumption || lia). apply lor_add; lia. }
  assert (E5 : tst (W .& BIT_MASK 23) = Z.testbit attr 3).
  { unfold BIT_MASK. rewrite tst_land_pow2 by lia. change 23 with (3 + 20). rewrite <- Z.div_pow2_bits by lia.
    rewrite (div_is W (attr + b2 * 2 ^ 4) (b1 + access * 2 ^ 8 + l1 * 2 ^ 16)) by (unfold W; lia).
    rewrite <- (Z.mod_pow2_bits_low _ 4), (mod_is _ b2 attr) by lia. reflexivity. }
  rewrite EAR, E1, E2, E3, E4, E5. f_equal.
  - rewrite (lor_add b0 b1 16) by lia. apply lor_add; lia.
  - destruct (Z.testbit attr 3); [|reflexivity]. unfold limit.
    rewrite u32_small by (rewrite Z.shiftl_mul_pow2; lia). rewrite join_lor by lia. lia.
Qed.

(** ** What a descriptor allows, by its access bits *)

Definition readable (ar : Z) : bool := Z.testbit ar 4 && (negb (Z.testbit ar 3) || Z.testbit ar 1).
Definition conforming (ar : Z) : bool := Z.testbit ar 3 && Z.testbit ar 2.

Lemma super_bits ar :
  let super := descriptor_super_type ar in
  ((super =? CONFORM_READABLE_CODE) || (super =? NONCONFORM_READABLE_CODE)
   = Z.testbit ar 4 && Z.testbit ar 3 && Z.testbit ar 1)
  /\ ((super =? EXPANDUP_READONLY_DATA) || (super =? EXPANDUP_WRITEABLE_DATA)
      || (super =? EXPANDDOWN_READONLY_DATA) || (super =? EXPANDDOWN_WRITEABLE_DATA)
      = Z.testbit ar 4 && negb (Z.testbit ar 3))
  /\ ((super =? CONFORM_READABLE_CODE) = Z.testbit ar 4 && conforming ar && Z.testbit ar 1).
Proof.
  cbn zeta. unfold conforming, descriptor_super_type, GET_AR_SUPER. change 0x1f with (2 ^ 5 - 1).
  rewrite land_mask by lia. pose proof (Z.mod_pos_bound ar (2 ^ 5) ltac:(lia)) as Hx.
  rewrite <- (Z.mod_pow2_bits_low ar 5 4), <- (Z.mod_pow2_bits_low ar 5 3), <- (Z.mod_pow2_bits_low ar 5 2),
    <- (Z.mod_pow2_bits_low ar 5 1) by lia.
  set (x := ar mod 2 ^ 5) in *. clearbody x.
  assert (HB : forallb (fun n => let x := Z.of_nat n in
     let super := if (x =? 0x0) || (x =? 0x8) || (x =? 0xa) || (x =? 0xd) then INVALID
                  else if x <? 0x10 then x else x .| ACCESSED in
     Bool.eqb ((super =? CONFORM_READABLE_CODE) || (super =? NONCONFORM_READABLE_CODE))
              (Z.testbit x 4 && Z.testbit x 3 && Z.testbit x 1)
     && Bool.eqb ((super =? EXPANDUP_READONLY_DATA) || (super =? EXPANDUP_WRITEABLE_DATA)
                  || (super =? EXPANDDOWN_READONLY_DATA) || (super =? EXPANDDOWN_WRITEABLE_DATA))
                 (Z.testbit x 4 && negb (Z.testbit x 3))
     && Bool.eqb (super =? CONFORM_READABLE_CODE) (Z.testbit x 4 && (Z.testbit x 3 && Z.testbit x 2) && Z.testbit x 1))
     (seq 0 32) = true) by (vm_compute; reflexivity).
  rewrite forallb_forall in HB. specialize (HB (Z.to_nat x)). rewrite Z2Nat.id in HB by lia.
  cbn zeta in HB. rewrite !andb_true_iff, !eqb_true_iff in HB.
  destruct HB as [[H1 H2] H3]; [apply in_seq; lia|]. auto.
Qed.

(** The segment register a descriptor loads. *)
Definition data_register (sel : Z) (e : CPU_DESCR) : SEGMENT_REGISTER :=
  let ar := d_AR e in
  let bit n := Z.b2z (Z.testbit ar n) in
  let data := negb (Z.testbit ar 3) in
  mkSEG sel (GET_AR_DPL ar) (if data then bit 2 else 0) 1 (if data then bit 1 else 0)
    (if data then 0 else bit 2) (bit 14) (d_base e) (d_limit e).

Lemma contributory_raises {S} `{HasCpu S} sel nmbr (s : S) :
  exists e c, (set_fault true ;; contributory_exception sel nmbr) s = Raise e (put_cpu c s).
Proof.
  unfold set_fault. rewrite modc_bind. set (s1 := put_cpu _ s).
  assert (Hp : forall c, put_cpu c s1 = put_cpu c s) by (intros; apply put_put).
  unfold contributory_exception. destruct (interface_active (xs (the_cpu s1))) eqn:Ei.
  { erewrite bind_raise.
    2:{ unfold check_interface_active. rewrite getc_bind, Ei. reflexivity. }
    rewrite !Hp. eexists _, _; reflexivity. }
  rewrite (bind_ret _ _ s1 tt s1) by (apply interface_run; exact Ei).
  destruct (doing_double_fault (xs (the_cpu s1))) eqn:Ed.
  { rewrite (bind_raise _ _ s1 _ _ (shutdown_run s1 Ed)), Hp. eexists _, _; reflexivity. }
  rewrite (bind_ret _ _ s1 tt s1 (no_shutdown_run s1 Ed)).
  unfold check_for_double_fault at 1. unfold bind at 1. rewrite getc_bind.
  destruct (_ || _); unfold when.
  - rewrite (DF_run s1 Ed), Hp. eexists _, _; reflexivity.
  - unfold ret, bind, modc, modify, getc, gets, throw. rewrite !put_put, !Hp. eexists _, _; reflexivity.
Qed.

Section Data.
Context {P : Type} `{PhyMemLaws P}.

(** A fault ends the routine. *)
Lemma fault_then {A} sel nmbr (k : unit -> M exn (mach P) A) s :
  exists e s', (set_fault true ;; contributory_exception sel nmbr) s = Raise e s'
  /\ bind (set_fault true ;; contributory_exception sel nmbr) k s = Raise e s'.
Proof.
  destruct (contributory_raises sel nmbr s) as (e & c & E). eexists _, _. split; [exact E|].
  exact (bind_raise _ _ _ _ _ E).
Qed.

(** The decoded descriptor at a linear address. *)
Definition descriptor_at (s : mach P) (a : Z) : CPU_DESCR := unpack_descriptor (vvalue s a 4) (vvalue s (a + 4) 4).

Lemma read_descriptor_ok s a :
  wf s -> GET_PG (mcpu s) = 1 -> resident_range s a 8 ->
  exists s', read_descriptor_linear a s = Ret (descriptor_at s a) s' /\ framed nothing s s'.
Proof.
  intros Hwf Hpg HR. pose proof (range_sub s a 8 4 0 HR ltac:(lia) ltac:(lia)) as R1. rewrite Z.add_0_r in R1.
  pose proof (range_sub s a 8 4 4 HR ltac:(lia) ltac:(lia)) as R2.
  unfold read_descriptor_linear. rewrite u32_small by apply (range_first _ _ _ R2 ltac:(lia)).
  destruct (spr_read_dword_ok s a Hwf Hpg R1) as (s1 & E1 & F1). rewrite (bind_ret _ _ _ _ _ E1).
  destruct (spr_read_dword_ok s1 (a + 4)) as (s2 & E2 & F2);
    [apply F1 | rewrite (f_cpu _ _ _ F1); exact Hpg | exact (range_framed _ _ _ _ _ F1 R2)|].
  rewrite (bind_ret _ _ _ _ _ E2). exists s2. split; [|apply (framed_trans _ _ _ _ _ _ F1 F2); tauto].
  rewrite (framed_value _ _ _ 4 _ F1 R2) by (unfold nothing; auto). reflexivity.
Qed.

(** The access byte is byte 5 of the descriptor. *)
Lemma access_byte s a : resident_range s a 8 -> u8 (d_AR (descriptor_at s a)) = vvalue s (a + 5) 1.
Proof.
  intros HR. unfold descriptor_at, unpack_descriptor. cbn [d_AR].
  pose proof (vvalue_range 1 s (a + 4) (range_sub s a 8 1 4 HR ltac:(lia) ltac:(lia))) as H4.
  pose proof (vvalue_range 1 s (a + 5) (range_sub s a 8 1 5 HR ltac:(lia) ltac:(lia))) as H5.
  pose proof (vvalue_range 2 s (a + 6) (range_sub s a 8 2 6 HR ltac:(lia) ltac:(lia))) as H6.
  assert (E : vvalue s (a + 4) 4 = vvalue s (a + 4) 1 + 2 ^ 8 * (vvalue s (a + 5) 1 + 2 ^ 8 * vvalue s (a + 6) 2)).
  { rewrite (vvalue_app s 3 1), (vvalue_app s 2 1). change (Z.of_nat 1) with 1.
    replace (a + 4 + 1) with (a + 5) by lia. replace (a + 5 + 1) with (a + 6) by lia. reflexivity. }
  rewrite E. change WORD_MASK with (2 ^ 16 - 1). rewrite Z.shiftr_div_pow2, land_mask by lia. unfold u8.
  rewrite mod_mod_le by lia.
  rewrite (div_is _ (vvalue s (a + 5) 1 + 2 ^ 8 * vvalue s (a + 6) 2) (vvalue s (a + 4) 1)) by (assumption || lia).
  apply mod_is with (vvalue s (a + 6) 2); [exact H5 | lia].
Qed.

Lemma AR_range s a : 0 <= d_AR (descriptor_at s a) < 2 ^ 16.
Proof.
  unfold descriptor_at, unpack_descriptor. cbn [d_AR]. change WORD_MASK with (2 ^ 16 - 1).
  rewrite land_mask by lia. apply Z.mod_pos_bound. lia.
Qed.

Lemma accessed_bits ar n :
  0 <= ar < 2 ^ 16 -> 1 <= n -> nz (u16 (ar .| ACCESSED) .& BIT_MASK n) = Z.b2z (Z.testbit ar n).
Proof.
  intros Ha Hn. rewrite u16_small by (apply lor_range; [lia | exact Ha | vm_compute; split; congruence]).
  rewrite nz_flag, Z.lor_spec, testbit_one, orb_false_r by lia. reflexivity.
Qed.

Lemma accessed_dpl ar : 0 <= ar < 2 ^ 16 -> GET_AR_DPL (u16 (ar .| ACCESSED)) = GET_AR_DPL ar.
Proof.
  intros Ha. rewrite u16_small by (apply lor_range; [lia | exact Ha | vm_compute; split; congruence]).
  unfold GET_AR_DPL. rewrite Z.land_lor_distr_l. change (ACCESSED .& 0x60) with 0. rewrite Z.lor_0_r. reflexivity.
Qed.

End Data.

(** ** Theorems *)

(** Descriptors: decoding the two double words of a 386 descriptor gives back
    the base, the limit (in bytes, scaled when the granularity bit is set) and the
    16 access and attribute bits it was made from. *)
Theorem descriptor_round_trip base limit access attr :
  0 <= base < 2 ^ 32 -> 0 <= limit < 2 ^ 20 -> 0 <= access < 2 ^ 8 -> 0 <= attr < 2 ^ 4 ->
  let w := pack_descriptor base limit access attr in
  unpack_descriptor (fst w) (snd w)
  = mkDESCR base (if Z.testbit attr 3 then limit * 2 ^ 12 + (2 ^ 12 - 1) else limit)
      (access + (limit / 2 ^ 16) * 2 ^ 8 + attr * 2 ^ 12).
Proof.
  intros Hb Hl Ha Ht w. unfold w, pack_descriptor. cbn [fst snd].
  pose proof (Z_div_mod_eq_full limit (2 ^ 16)) as El. pose proof (Z_div_mod_eq_full base (2 ^ 16)) as Eb.
  assert (E24 : base / 2 ^ 24 = base / 2 ^ 16 / 2 ^ 8) by (rewrite Z.div_div by lia; reflexivity).
  pose proof (Z_div_mod_eq_full (base / 2 ^ 16) (2 ^ 8)) as Eh.
  assert (Hbh : 0 <= base / 2 ^ 16 < 2 ^ 16) by (split; [apply Z.div_pos | apply Z.div_lt_upper_bound]; lia).
  rewrite unpack_fields;
    [| try (apply Z.mod_pos_bound; lia); try assumption; rewrite ?E24; split;
       first [apply Z.div_pos; lia | apply Z.div_lt_upper_bound; lia] ..].
  replace (limit mod 2 ^ 16 + limit / 2 ^ 16 * 2 ^ 16) with limit by lia. f_equal. rewrite E24. lia.
Qed.

Lemma descriptor_round_trip_witness : unpack_descriptor 0x0000ffff 0x00cf9200 = mkDESCR 0 0xffffffff 0xcf92.
Proof. refine (descriptor_round_trip 0 0xfffff 0x92 0xc _ _ _ _); lia. Defined.


Lemma privilege_test conf cpl rpl dpl :
  negb conf && ((dpl <? cpl) || (dpl <? rpl)) = negb (conf || (Z.max cpl rpl <=? dpl)).
Proof.
  destruct conf; [reflexivity|]. cbn [negb andb orb].
  destruct (Z.ltb_spec dpl cpl), (Z.ltb_spec dpl rpl), (Z.leb_spec (Z.max cpl rpl) dpl); lia || reflexivity.
Qed.

Lemma nz_is0 ar n : 0 <= n -> (nz (ar .& BIT_MASK n) =? 0) = negb (Z.testbit ar n).
Proof. intros Hn. rewrite nz_flag by exact Hn. destruct (Z.testbit ar n); reflexivity. Qed.

(** The part of the load after the type check. *)
Lemma load_checked_ok {P} `{PhyMemLaws P} indx sel (s s1 : mach P) a :
  GET_PG (mcpu s) = 1 -> resident_range s a 8 -> framed nothing s s1 ->
  let e := descriptor_at s a in
  let ar := d_AR e in
  let privileged := conforming ar || (Z.max (CPL (mcpu s)) (GET_SELECTOR_RPL sel) <=? GET_AR_DPL ar) in
  readable ar = true ->
  let r := load_data_checked indx sel a e (negb (Z.testbit ar 3)) s1 in
  if negb privileged then r = GP sel s1
  else if negb (Z.testbit ar 7) then r = NP sel s1
  else
    exists s2, r = Ret tt (put_cpu (SET_SR indx (data_register sel e) (mcpu s)) s2)
    /\ framed (bytes_of s (a + 5) 1) s s2 /\ vvalue s2 (a + 5) 1 = vvalue s (a + 5) 1 .| ACCESSED.
Proof.
  intros Hpg HR F1 e ar privileged Hrd r. unfold r, load_data_checked. clear r.
  pose proof (AR_range s a) as Rar. fold e ar in Rar. destruct (super_bits ar) as (_ & _ & B3).
  assert (Ec : (descriptor_super_type ar =? CONFORM_READABLE_CODE) = conforming ar).
  { rewrite B3. unfold readable in Hrd. unfold conforming.
    destruct (Z.testbit ar 4), (Z.testbit ar 3), (Z.testbit ar 2), (Z.testbit ar 1); cbn in *; congruence. }
  rewrite getc_bind. cbn [the_cpu HasCpu_mach]. fold ar. cbn zeta.
  rewrite Ec, privilege_test, (f_cpu _ _ _ F1). fold privileged.
  destruct privileged; cbn [negb when].
  2:{ unfold GP. destruct (fault_then sel GP_INT_NR (fun _ : unit => ret tt) s1) as (x & sx & E & _).
      rewrite E. apply bind_raise, E. }
  rewrite (bind_ret _ _ s1 tt s1) by reflexivity. unfold GET_AR_P. change NOT_PRESENT with 0. rewrite nz_is0 by lia.
  destruct (Z.testbit ar 7); cbn [negb when].
  2:{ unfold NP. destruct (fault_then sel NP_INT_NR (fun _ : unit => ret tt) s1) as (x & sx & E & _).
      rewrite E. apply bind_raise, E. }
  rewrite (bind_ret _ _ s1 tt s1) by reflexivity.
  pose proof (range_sub s a 8 1 5 HR ltac:(lia) ltac:(lia)) as R5.
  rewrite u32_small by apply (range_first _ _ _ R5 ltac:(lia)).
  destruct (spr_write_byte_ok s1 (a + 5) (u8 (u8 ar .| ACCESSED))) as (s2 & E2 & V2 & F2);
    [apply F1 | rewrite (f_cpu _ _ _ F1); exact Hpg | exact (range_framed _ _ _ _ _ F1 R5) | apply u8_range|].
  rewrite (bind_ret _ _ _ _ _ E2). exists s2. split; [|split].
  - unfold modsr, modc, modify, data_register, GET_AR_X, GET_AR_E, GET_AR_W, GET_AR_C. cbn [the_cpu HasCpu_mach].
    rewrite (f_cpu _ _ _ F2), (f_cpu _ _ _ F1), !accessed_bits, accessed_dpl by (exact Rar || lia). fold ar.
    destruct (Z.testbit ar 3); reflexivity.
  - apply (framed_trans _ _ _ _ _ _ F1 F2). intros b [[] | (i & Hi & ->)]. exists i. split; [exact Hi|].
    apply (framed_vmap _ _ _ _ F1), R5, Hi.
  - rewrite V2. change ar with (d_AR (descriptor_at s a)). rewrite access_byte by exact HR. apply u8_small.
    apply lor_range; [lia | exact (vvalue_range 1 s _ R5) | vm_compute; split; congruence].
Qed.

(** The three ways a load of a data segment register can go. *)
Lemma load_data_seg_cases {P} `{PhyMemLaws P} indx sel (s : mach P) a :
  wf s -> GET_PG (mcpu s) = 1 -> real_or_v86 (mcpu s) = false -> selector_is_null sel = false ->
  selector_outside_GDT_LDT sel (mcpu s) = Some a -> resident_range s a 8 ->
  let e := descriptor_at s a in
  let ar := d_AR e in
  let privileged := conforming ar || (Z.max (CPL (mcpu s)) (GET_SELECTOR_RPL sel) <=? GET_AR_DPL ar) in
  if negb (readable ar && privileged) then
    exists s1, framed nothing s s1 /\ load_data_seg indx sel s = GP sel s1
  else if negb (Z.testbit ar 7) then
    exists s1, framed nothing s s1 /\ load_data_seg indx sel s = NP sel s1
  else
    exists s1, load_data_seg indx sel s = Ret tt (put_cpu (SET_SR indx (data_register sel e) (mcpu s)) s1)
    /\ framed (bytes_of s (a + 5) 1) s s1 /\ vvalue s1 (a + 5) 1 = vvalue s (a + 5) 1 .| ACCESSED.
Proof.
  intros Hwf Hpg Hreal Hnull Hsel HR e ar privileged.
  destruct (read_descriptor_ok s a Hwf Hpg HR) as (s1 & E1 & F1). fold e in E1.
  pose proof (load_checked_ok indx sel s s1 a Hpg HR F1) as HC. cbn zeta in HC. fold e ar privileged in HC.
  destruct (super_bits ar) as (B1 & B2 & _).
  unfold load_data_seg, descr_or. rewrite getc_bind. cbn [the_cpu HasCpu_mach]. rewrite Hreal, Hnull.
  rewrite (bind_ret _ _ s a s) by (rewrite getc_bind; cbn [the_cpu HasCpu_mach]; rewrite Hsel; reflexivity).
  rewrite (bind_ret _ _ _ _ _ E1). fold ar. cbn zeta. rewrite B1, B2.
  destruct (readable ar) eqn:Er; cbn [andb].
  - specialize (HC eq_refl). rewrite (bind_ret _ _ s1 (negb (Z.testbit ar 3)) s1).
    2:{ unfold readable in Er. destruct (Z.testbit ar 4), (Z.testbit ar 3), (Z.testbit ar 1);
        try discriminate; reflexivity. }
    destruct (negb privileged); [exists s1; auto|]. destruct (negb (Z.testbit ar 7)); [exists s1; auto|]. exact HC.
  - exists s1. split; [exact F1|]. unfold GP.
    destruct (fault_then sel GP_INT_NR (fun _ => undefined (A := bool)) s1) as (x & sx & E & Ek). rewrite E.
    apply bind_raise. unfold readable in Er.
    destruct (Z.testbit ar 4), (Z.testbit ar 3), (Z.testbit ar 1); cbn [andb orb negb] in *; congruence || exact Ek.
Qed.


#[local] Existing Instance demo_memory.
#[local] Existing Instance demo_laws.


End Seg.
