(* ===== verification/Virt.v ===== *)
(** * Operand accesses

    The [vir_] reads and writes of [c_page.c], through which instructions and the
    stack reach memory: a data breakpoint check, the access to a physical address
    found before or else to the linear address, and the note to the host debugger.

    The second part gives linear memory one description for paging on and off, in
    which the files on the stack and on far transfers state what they do. *)

From S2P Require Import Prelude Cpu Debug Arith Shift Xcptn MulDiv Mem Tlb Page.

Module Virt.
Import Debug Xcptn Tlb Page.

(** The bytes of a number in memory order. *)
Definition le_bytes (n : nat) (x : Z) : list Z := map (fun i => u8 (Z.shiftr x (8 * Z.of_nat i))) (seq 0 n).

Section Access.
Context {P : Type} `{PhyMem P}.

Abbreviation X := (M exn (mach P)).

Definition ondbg (f : debug -> debug) : X unit := modify (fun s => SET_mdbg (f (mdbg s)) s).

(** The check every access starts with. *)
Definition data_break (lin_addr attr size : Z) : X unit :=
  ondbg (fun d => if tst (nr_data_break d) then check_for_data_exception lin_addr attr size d else d).

Definition notify (address bytes : Z) (write : bool) (data : list Z) (reversed : bool) : X unit :=
  ondbg (fun d => SET_active (softpc_host_debug_access address bytes write data reversed (active_debug d)) d).

Definition softpc_host_debug_read (address : Z) (bytes : nat) (data : Z) : X Z :=
  notify address (Z.of_nat bytes) false (le_bytes bytes data) false ;; ret data.

Definition vir_read_byte (lin_addr phy_addr : Z) : X Z :=
  data_break lin_addr D_R D_BYTE ;;
  v <- (if tst phy_addr then onmem (phy_read_byte phy_addr) else spr_read_byte lin_addr) ;;
  softpc_host_debug_read lin_addr 1 v.

Definition vir_read_word (lin_addr phy_addr : Z) : X Z :=
  data_break lin_addr D_R D_WORD ;;
  v <- (if tst phy_addr then onmem (phy_read_word phy_addr) else spr_read_word lin_addr) ;;
  softpc_host_debug_read lin_addr 2 v.

Definition vir_read_dword (lin_addr phy_addr : Z) : X Z :=
  data_break lin_addr D_R D_DWORD ;;
  v <- (if tst phy_addr then onmem (phy_read_dword phy_addr) else spr_read_dword lin_addr) ;;
  softpc_host_debug_read lin_addr 4 v.

Definition vir_write_byte (lin_addr phy_addr data : Z) : X unit :=
  data_break lin_addr D_W D_BYTE ;;
  (if tst phy_addr then onmem (phy_write_byte phy_addr data) else spr_write_byte lin_addr data) ;;
  notify lin_addr 1 true (le_bytes 1 data) false.

Definition vir_write_word (lin_addr phy_addr data : Z) : X unit :=
  data_break lin_addr D_W D_WORD ;;
  (if tst phy_addr then onmem (phy_write_word phy_addr data) else spr_write_word lin_addr data) ;;
  notify lin_addr 2 true (le_bytes 2 data) false.

Definition vir_write_dword (lin_addr phy_addr data : Z) : X unit :=
  data_break lin_addr D_W D_DWORD ;;
  (if tst phy_addr then onmem (phy_write_dword phy_addr data) else spr_write_dword lin_addr data) ;;
  notify lin_addr 4 true (le_bytes 4 data) false.

(** The byte loops run from the last address down: the first byte of the buffer is
    the one at the highest address. *)
Fixpoint read_down (read : Z -> X Z) (n : nat) (addr : Z) : X (list Z) :=
  match n with
  | O => ret []
  | S n => b <- read addr ;; l <- read_down read n (u32 (addr - 1)) ;; ret (b :: l)
  end.

Fixpoint write_down (write : Z -> Z -> X unit) (data : list Z) (addr : Z) : X unit :=
  match data with
  | [] => ret tt
  | b :: data => write addr b ;; write_down write data (u32 (addr - 1))
  end.

Definition vir_read_bytes (lin_addr phy_addr : Z) (num_bytes : nat) : X (list Z) :=
  data_break lin_addr D_R D_BYTE ;;
  destbuff <- (if tst phy_addr
               then read_down (fun a => onmem (phy_read_byte a)) num_bytes (u32 (phy_addr + u32 (Z.of_nat num_bytes - 1)))
               else read_down spr_read_byte num_bytes (u32 (lin_addr + u32 (Z.of_nat num_bytes - 1)))) ;;
  notify lin_addr (Z.of_nat num_bytes) false destbuff true ;;
  ret destbuff.

(** [data] holds the [num_bytes] bytes to be written. *)
Definition vir_write_bytes (lin_addr phy_addr : Z) (data : list Z) : X unit :=
  data_break lin_addr D_W D_BYTE ;;
  let num_bytes := Z.of_nat (length data) in
  (if tst phy_addr
   then write_down (fun a b => onmem (phy_write_byte a b)) data (u32 (phy_addr + u32 (num_bytes - 1)))
   else write_down spr_write_byte data (u32 (lin_addr + u32 (num_bytes - 1)))) ;;
  notify lin_addr num_bytes true data true.

End Access.

(** ** Linear memory, paged or not *)

Section Linear.
Context {P : Type} `{PhyMemLaws P}.

Definition pg (s : mach P) : bool := GET_PG (mcpu s) =? 1.

Definition lwf (s : mach P) : Prop := pg s = true -> wf s.

(** The physical address of a linear address. *)
Definition lmap (s : mach P) (lin : Z) : Z := if pg s then vmap s lin else lin.

(** The address reaches RAM that holds no page table in use. *)
Definition lready (s : mach P) (lin : Z) : Prop :=
  if pg s then resident s lin else 0 <= lin < 2 ^ 32 /\ is_ram (mmem s) lin 1.

Definition lrange (s : mach P) (lin : Z) (n : nat) : Prop :=
  forall i, 0 <= i < Z.of_nat n -> lready s (lin + i).

Fixpoint lvalue (s : mach P) (lin : Z) (n : nat) : Z :=
  match n with
  | O => 0
  | S n => byte_at (mmem s) (lmap s lin) + 2 ^ 8 * lvalue s (lin + 1) n
  end.

Definition lbytes (s : mach P) (lin : Z) (n : nat) (b : Z) : Prop :=
  exists i, 0 <= i < Z.of_nat n /\ b = lmap s (lin + i).

(** [s'] has the address space of [s] and the memory of [s] but for the bytes in
    [D]; its registers may differ. *)
Record lframed (D : Z -> Prop) (s s' : mach P) : Prop := {
  lf_cr : cr (mcpu s') = cr (mcpu s);
  lf_wf : lwf s';
  lf_map : forall lin, 0 <= lin < 2 ^ 32 -> lmap s' lin = lmap s lin;
  lf_walk : pg s = true -> forall lin, 0 <= lin < 2 ^ 32 ->
    walk (mmem s') (CR_PDBR (cr (mcpu s))) lin = walk (mmem s) (CR_PDBR (cr (mcpu s))) lin;
  lf_ready : forall lin, lready s lin -> lready s' lin;
  lf_mem : forall lin, lready s lin -> ~ D (lmap s lin) ->
    byte_at (mmem s') (lmap s lin) = byte_at (mmem s) (lmap s lin)
}.

Lemma lready_lin s lin : lready s lin -> 0 <= lin < 2 ^ 32.
Proof. unfold lready. destruct (pg s); intros H1; apply H1. Qed.

Lemma lframed_trans D1 D2 D s1 s2 s3 :
  lframed D1 s1 s2 -> lframed D2 s2 s3 -> (forall b, D1 b \/ D2 b -> D b) -> lframed D s1 s3.
Proof.
  intros [C1 W1 K1 T1 R1 M1] [C2 W2 K2 T2 R2 M2] HD. split; auto; [congruence| | |].
  - intros lin Hl. rewrite K2, K1 by exact Hl. reflexivity.
  - intros Hp lin Hl. rewrite <- (T1 Hp lin Hl), <- C1. apply T2; [|exact Hl].
    unfold pg, GET_PG in *. rewrite C1. exact Hp.
  - intros lin Hr Hn. rewrite <- (M1 lin Hr), <- (K1 lin (lready_lin _ _ Hr)) by auto.
    apply M2; [auto|]. rewrite (K1 lin (lready_lin _ _ Hr)). auto.
Qed.

Lemma lframed_weaken (D D' : Z -> Prop) s s' : lframed D s s' -> (forall b, D b -> D' b) -> lframed D' s s'.
Proof. intros [] HD. split; auto. Qed.

(** Of the registers only the control registers matter. *)
Lemma lframed_same s s' :
  cr (mcpu s') = cr (mcpu s) -> mmem s' = mmem s -> mtlb s' = mtlb s -> lwf s -> lframed nothing s s'.
Proof.
  intros Ec Em Et Hw.
  assert (Ep : pg s' = pg s) by (unfold pg, GET_PG; rewrite Ec; reflexivity).
  assert (Ev : forall lin, vmap s' lin = vmap s lin) by (intros; unfold vmap; rewrite Ec, Em; reflexivity).
  split.
  - exact Ec.
  - intros Hp. rewrite Ep in Hp. destruct (Hw Hp) as [W1 W2 W3]. split; rewrite ?Ec, ?Em, ?Et; assumption.
  - intros lin _. unfold lmap. rewrite Ep, Ev. reflexivity.
  - intros _ lin _. rewrite Em. reflexivity.
  - intros lin. unfold lready, resident. rewrite Ep, Ev, Em, Ec. auto.
  - intros. rewrite Em. reflexivity.
Qed.

Lemma lframed_refl s : lwf s -> lframed nothing s s.
Proof. now apply lframed_same. Qed.

Lemma lframed_cpu c s : cr c = cr (mcpu s) -> lwf s -> lframed nothing s (put_cpu c s).
Proof. intros. apply lframed_same; auto. Qed.

Lemma lrange_framed D s s' lin n : lframed D s s' -> lrange s lin n -> lrange s' lin n.
Proof. intros HF HR i Hi. eapply lf_ready; eauto. Qed.

Lemma lrange_sub s lin n a k :
  lrange s lin n -> lin <= a -> a + Z.of_nat k <= lin + Z.of_nat n -> lrange s a k.
Proof. intros HR Ha Hk i Hi. replace (a + i) with (lin + (a - lin + i)) by lia. apply HR. lia. Qed.

Lemma lrange_first s lin n : lrange s lin n -> (0 < n)%nat -> lready s lin.
Proof. intros HR Hn. rewrite <- (Z.add_0_r lin). apply HR. lia. Qed.

Lemma lvalue_framed D s s' n : forall lin,
  lframed D s s' -> lrange s lin n ->
  (forall i, 0 <= i < Z.of_nat n -> ~ D (lmap s (lin + i))) -> lvalue s' lin n = lvalue s lin n.
Proof.
  induction n as [|n IH]; intros lin HF HR HD; [reflexivity|]. cbn [lvalue].
  pose proof (lrange_first _ _ _ HR ltac:(lia)) as R0. pose proof (HD 0 ltac:(lia)) as D0. rewrite Z.add_0_r in D0.
  rewrite (lf_map _ _ _ HF) by (apply (lready_lin _ _ R0)). rewrite (lf_mem _ _ _ HF) by assumption.
  rewrite IH; [reflexivity | exact HF | apply (lrange_sub _ _ _ _ _ HR); lia |].
  intros i Hi. replace (lin + 1 + i) with (lin + (1 + i)) by lia. apply HD. lia.
Qed.

Lemma lmap_distinct s a b : lready s a -> lready s b -> 0 < b - a < 2 ^ 12 -> lmap s a <> lmap s b.
Proof.
  unfold lready, lmap. destruct (pg s); intros Ha Hb Hd; [|lia].
  replace b with (a + (b - a)) in * by lia. rewrite <- (Z.add_0_r a) at 1.
  apply vmap_distinct; [rewrite Z.add_0_r; exact Ha | exact Hb | lia].
Qed.

(** A write leaves the bytes beside it alone, as far as a page reaches. *)
Lemma lvalue_beside s s' a n b k :
  lframed (lbytes s a n) s s' -> lrange s a n -> lrange s b k ->
  b + Z.of_nat k <= a /\ a + Z.of_nat n - b <= 2 ^ 12 \/ a + Z.of_nat n <= b /\ b + Z.of_nat k - a <= 2 ^ 12 ->
  lvalue s' b k = lvalue s b k.
Proof.
  intros HF HA HB Hd. apply (lvalue_framed _ _ _ _ _ HF HB). intros i Hi (j & Hj & E). destruct Hd as [Hd | Hd].
  - revert E. apply lmap_distinct; [apply HB, Hi | apply HA, Hj | lia].
  - symmetry in E. revert E. apply lmap_distinct; [apply HA, Hj | apply HB, Hi | lia].
Qed.

Lemma lvalue_range n : forall s lin, lrange s lin n -> 0 <= lvalue s lin n < 2 ^ (8 * Z.of_nat n).
Proof.
  induction n as [|n IH]; intros s lin HR; [cbn; lia|]. cbn [lvalue].
  assert (Hb : 0 <= byte_at (mmem s) (lmap s lin) < 2 ^ 8).
  { pose proof (lrange_first _ _ _ HR ltac:(lia)) as Hr. unfold lready, lmap in *. rewrite <- (Z.add_0_r (if pg s then vmap s lin else lin)).
    apply (ram_byte _ _ 1); [|lia]. destruct (pg s); apply Hr. }
  pose proof (IH s (lin + 1) ltac:(apply (lrange_sub _ _ _ _ _ HR); lia)) as Hv.
  replace (8 * Z.of_nat (S n)) with (8 + 8 * Z.of_nat n) by lia. rewrite Z.pow_add_r by lia. nia.
Qed.

(** *** Paging on: as the page tables map it *)

Lemma pg_on s : pg s = true -> GET_PG (mcpu s) = 1.
Proof. apply Z.eqb_eq. Qed.

Lemma lrange_paged s lin n : pg s = true -> lrange s lin n <-> resident_range s lin n.
Proof. intros E. unfold lrange, resident_range, lready. rewrite E. reflexivity. Qed.

Lemma lvalue_paged s n : pg s = true -> forall lin, lvalue s lin n = vvalue s lin n.
Proof.
  intros E. induction n as [|n IH]; intros lin; [reflexivity|]. cbn [lvalue vvalue]. unfold lmap at 1.
  rewrite E, IH. reflexivity.
Qed.

Lemma lframed_paged D s s' : pg s = true -> framed D s s' -> lframed D s s'.
Proof.
  intros E HF. assert (Ep : pg s' = true) by (unfold pg in *; rewrite (f_cpu _ _ _ HF); exact E). split.
  - rewrite (f_cpu _ _ _ HF). reflexivity.
  - intros _. apply HF.
  - intros lin Hl. unfold lmap. rewrite Ep, E. apply (framed_vmap _ _ _ _ HF Hl).
  - intros _. apply HF.
  - intros lin. unfold lready. rewrite Ep, E. apply (framed_resident _ _ _ _ HF).
  - intros lin Hr. unfold lmap, lready in *. rewrite E in *. apply (f_mem _ _ _ HF), Hr.
Qed.

(** *** Paging off: physical memory *)

Lemma lrange_flat s lin n : pg s = false -> (0 < n)%nat -> lrange s lin n -> is_ram (mmem s) lin (Z.of_nat n).
Proof.
  intros E Hn HR. apply ram_bytes; [lia|]. intros i Hi. pose proof (HR i Hi) as Hr. unfold lready in Hr.
  rewrite E in Hr. apply Hr.
Qed.

Lemma lvalue_flat s n : pg s = false -> forall lin, lvalue s lin n = value_at (mmem s) lin n.
Proof.
  intros E. induction n as [|n IH]; intros lin; [reflexivity|]. cbn [lvalue value_at]. unfold lmap at 1.
  rewrite E, IH. reflexivity.
Qed.

Lemma lframed_flat s m' a n x :
  pg s = false -> stored (mmem s) m' a n x -> lframed (lbytes s a n) s (SET_mmem m' s).
Proof.
  intros E (_ & Eo & Er). assert (Ep : pg (SET_mmem m' s) = false) by exact E. split; cbn [mcpu mmem SET_mmem].
  - reflexivity.
  - intros Hp. congruence.
  - intros lin _. unfold lmap. rewrite Ep, E. reflexivity.
  - congruence.
  - intros lin. unfold lready. rewrite Ep, E. intros [Hl Hr]. split; [exact Hl | apply Er, Hr].
  - intros lin _ Hd. unfold lmap in *. rewrite E in *. apply Eo.
    destruct (Z.lt_ge_cases lin a); [auto|]. destruct (Z.lt_ge_cases lin (a + Z.of_nat n)); [|auto].
    exfalso. apply Hd. exists (lin - a). split; [lia|]. unfold lmap. rewrite E. lia.
Qed.

(** *** Reads and writes *)

Definition lread (n : nat) (f : Z -> M exn (mach P) Z) : Prop :=
  forall s lin, lwf s -> lrange s lin n ->
  exists s', f lin s = Ret (lvalue s lin n) s' /\ mcpu s' = mcpu s /\ lframed nothing s s'.

Definition lwrite (n : nat) (f : Z -> Z -> M exn (mach P) unit) : Prop :=
  forall s lin x, lwf s -> lrange s lin n -> 0 <= x < 2 ^ (8 * Z.of_nat n) ->
  exists s', f lin x s = Ret tt s' /\ mcpu s' = mcpu s /\ lvalue s' lin n = x /\ lframed (lbytes s lin n) s s'.

(** A routine that is right with paging on and uses physical memory with it off. *)
Lemma lread_of n f op :
  (0 < n)%nat -> read_spec n f -> (forall s lin, pg s = false -> f lin s = onmem (op lin) s) ->
  (forall m a, is_ram m a (Z.of_nat n) -> op a m = Ret (value_at m a n) m) -> lread n f.
Proof.
  intros Hn Hf Hoff Hop s lin Hw HR. destruct (pg s) eqn:E.
  - destruct (Hf s lin (Hw E) (pg_on _ E)) as (s' & ER & HF); [apply lrange_paged; assumption|].
    exists s'. rewrite lvalue_paged by exact E. split; [exact ER|]. split; [apply HF|]. apply lframed_paged; assumption.
  - exists s. rewrite Hoff, lvalue_flat by exact E. unfold onmem.
    rewrite Hop, SET_mmem_id by (apply lrange_flat; assumption). auto using lframed_refl.
Qed.

Lemma lbytes_paged s lin n b : pg s = true -> bytes_of s lin n b -> lbytes s lin n b.
Proof. intros E (i & Hi & ->). exists i. split; [exact Hi|]. unfold lmap. rewrite E. reflexivity. Qed.

Lemma lwrite_of n f op :
  (0 < n)%nat -> write_spec n f -> (forall s lin x, pg s = false -> f lin x s = onmem (op lin x) s) ->
  (forall m a v, is_ram m a (Z.of_nat n) -> 0 <= v < 2 ^ (8 * Z.of_nat n) ->
   exists m', op a v m = Ret tt m' /\ stored m m' a n v) -> lwrite n f.
Proof.
  intros Hn Hf Hoff Hop s lin x Hw HR Hx. destruct (pg s) eqn:E.
  - destruct (Hf s lin x (Hw E) (pg_on _ E)) as (s' & ER & HV & HF); [apply lrange_paged; assumption | exact Hx|].
    exists s'. split; [exact ER|]. split; [apply HF|]. split.
    + rewrite lvalue_paged; [exact HV|]. unfold pg in *. rewrite (f_cpu _ _ _ HF). exact E.
    + eapply lframed_weaken; [apply lframed_paged; eassumption|]. intros b. apply lbytes_paged, E.
  - destruct (Hop (mmem s) lin x) as (m' & EO & HS); [apply lrange_flat; assumption | exact Hx|].
    exists (SET_mmem m' s). rewrite Hoff by exact E. unfold onmem. rewrite EO. split; [reflexivity|].
    split; [reflexivity|]. split; [|exact (lframed_flat _ _ _ _ _ E HS)].
    rewrite lvalue_flat by exact E. apply HS.
Qed.

Lemma pg_run {A} (k : bool -> M exn (mach P) A) s : bind paging k s = k (pg s) s.
Proof. reflexivity. Qed.

Lemma spr_read_byte_l : lread 1 spr_read_byte.
Proof.
  apply (lread_of 1 _ phy_read_byte); auto using spr_read_byte_ok, read_byte_ram.
  intros s lin E. unfold spr_read_byte. rewrite pg_run, E. reflexivity.
Qed.

Lemma spr_read_word_l : lread 2 spr_read_word.
Proof.
  apply (lread_of 2 _ phy_read_word); auto using spr_read_word_ok, read_word_ram.
  intros s lin E. unfold spr_read_word. rewrite pg_run, E. reflexivity.
Qed.

Lemma spr_read_dword_l : lread 4 spr_read_dword.
Proof.
  apply (lread_of 4 _ phy_read_dword); auto using spr_read_dword_ok, read_dword_ram with lia.
  intros s lin E. unfold spr_read_dword. rewrite pg_run, E. reflexivity.
Qed.

Lemma spr_write_byte_l : lwrite 1 spr_write_byte.
Proof.
  apply (lwrite_of 1 _ phy_write_byte); auto using spr_write_byte_ok, write_byte_ram.
  intros s lin x E. unfold spr_write_byte. rewrite pg_run, E. reflexivity.
Qed.

Lemma spr_write_word_l : lwrite 2 spr_write_word.
Proof.
  apply (lwrite_of 2 _ phy_write_word); auto using spr_write_word_ok, write_word_ram.
  intros s lin x E. unfold spr_write_word. rewrite pg_run, E. reflexivity.
Qed.

Lemma spr_write_dword_l : lwrite 4 spr_write_dword.
Proof.
  apply (lwrite_of 4 _ phy_write_dword); auto using spr_write_dword_ok, write_dword_ram with lia.
  intros s lin x E. unfold spr_write_dword. rewrite pg_run, E. reflexivity.
Qed.

(** The breakpoint check and the note to the debugger change neither. *)
Lemma lframed_dbg d s : lwf s -> lframed nothing s (SET_mdbg d s).
Proof. intros. apply lframed_same; auto. Qed.

Lemma lvalue_same s s' n : (forall lin, lmap s' lin = lmap s lin) -> mmem s' = mmem s ->
  forall lin, lvalue s' lin n = lvalue s lin n.
Proof. intros El Em. induction n as [|n IH]; intros lin; [reflexivity|]. cbn [lvalue]. rewrite El, Em, IH. reflexivity. Qed.

Lemma ondbg_run f s : lwf s -> exists d, ondbg f s = Ret tt (SET_mdbg d s) /\ lframed nothing s (SET_mdbg d s).
Proof. intros Hw. exists (f (mdbg s)). split; [reflexivity | apply lframed_dbg, Hw]. Qed.

Lemma data_break_run lin attr size s :
  lwf s -> exists d, data_break lin attr size s = Ret tt (SET_mdbg d s) /\ lframed nothing s (SET_mdbg d s).
Proof. apply ondbg_run. Qed.

(** Frames compose without growing. *)
Lemma lframed_then D s1 s2 s3 : lframed nothing s1 s2 -> lframed D s2 s3 -> lframed D s1 s3.
Proof. intros F1 F2. apply (lframed_trans _ _ _ _ _ _ F1 F2). intros b [[] | Hb]. exact Hb. Qed.

Lemma lframed_after D s1 s2 s3 : lframed D s1 s2 -> lframed nothing s2 s3 -> lframed D s1 s3.
Proof. intros F1 F2. apply (lframed_trans _ _ _ _ _ _ F1 F2). intros b [Hb | []]. exact Hb. Qed.

Lemma lread_vir n f attr size :
  lread n f -> lread n (fun lin => data_break lin attr size ;; v <- f lin ;; softpc_host_debug_read lin n v).
Proof.
  intros Hf s lin Hw HR.
  destruct (data_break_run lin attr size s Hw) as (d1 & E1 & F1). rewrite (bind_ret _ _ _ _ _ E1).
  destruct (Hf (SET_mdbg d1 s) lin) as (s2 & E2 & C2 & F2); [apply F1 | exact (lrange_framed _ _ _ _ _ F1 HR)|].
  rewrite (bind_ret _ _ _ _ _ E2).
  rewrite (lvalue_framed _ _ _ _ _ F1 HR) by (unfold nothing; auto).
  unfold softpc_host_debug_read, notify. set (g := fun d => SET_active _ d).
  destruct (ondbg_run g s2 (lf_wf _ _ _ F2)) as (d3 & E3 & F3). rewrite (bind_ret _ _ _ _ _ E3).
  eexists. split; [reflexivity|]. split; [exact C2|].
  exact (lframed_then _ _ _ _ F1 (lframed_then _ _ _ _ F2 F3)).
Qed.

Lemma lbytes_same s s' lin n b :
  (forall i, 0 <= i < Z.of_nat n -> lmap s' (lin + i) = lmap s (lin + i)) -> lbytes s' lin n b -> lbytes s lin n b.
Proof. intros E (i & Hi & ->). exists i. split; [exact Hi | apply E, Hi]. Qed.

(** The bytes of a range are the same after a framed change. *)
Lemma lbytes_framed D s s' lin n b : lframed D s s' -> lrange s lin n -> lbytes s' lin n b -> lbytes s lin n b.
Proof. intros HF HR. apply lbytes_same. intros i Hi. apply (lf_map _ _ _ HF), (lready_lin s), HR, Hi. Qed.

Lemma lwrite_vir n f attr size bytes :
  lwrite n f -> lwrite n (fun lin x => data_break lin attr size ;; f lin x ;;
                                       notify lin bytes true (le_bytes n x) false).
Proof.
  intros Hf s lin x Hw HR Hx.
  destruct (data_break_run lin attr size s Hw) as (d1 & E1 & F1). rewrite (bind_ret _ _ _ _ _ E1).
  destruct (Hf (SET_mdbg d1 s) lin x) as (s2 & E2 & C2 & V2 & F2);
    [apply F1 | exact (lrange_framed _ _ _ _ _ F1 HR) | exact Hx|].
  rewrite (bind_ret _ _ _ _ _ E2). unfold notify. set (g := fun d => SET_active _ d).
  destruct (ondbg_run g s2 (lf_wf _ _ _ F2)) as (d3 & E3 & F3). exists (SET_mdbg d3 s2).
  split; [exact E3|]. split; [exact C2|]. split.
  - rewrite (lvalue_framed _ _ _ _ _ F3) by
      (unfold nothing; auto; exact (lrange_framed _ _ _ _ _ F2 (lrange_framed _ _ _ _ _ F1 HR))). exact V2.
  - apply (lframed_weaken (lbytes (SET_mdbg d1 s) lin n)).
    + exact (lframed_then _ _ _ _ F1 (lframed_after _ _ _ _ F2 F3)).
    + intros b. apply (lbytes_framed _ _ _ _ _ _ F1 HR).
Qed.

Lemma vir_read_byte_l : lread 1 (fun lin => vir_read_byte lin NO_PHYSICAL_MAPPING).
Proof. apply (lread_vir 1), spr_read_byte_l. Qed.
Lemma vir_read_word_l : lread 2 (fun lin => vir_read_word lin NO_PHYSICAL_MAPPING).
Proof. apply (lread_vir 2), spr_read_word_l. Qed.
Lemma vir_read_dword_l : lread 4 (fun lin => vir_read_dword lin NO_PHYSICAL_MAPPING).
Proof. apply (lread_vir 4), spr_read_dword_l. Qed.
Lemma vir_write_byte_l : lwrite 1 (fun lin => vir_write_byte lin NO_PHYSICAL_MAPPING).
Proof. apply (lwrite_vir 1), spr_write_byte_l. Qed.
Lemma vir_write_word_l : lwrite 2 (fun lin => vir_write_word lin NO_PHYSICAL_MAPPING).
Proof. apply (lwrite_vir 2), spr_write_word_l. Qed.
Lemma vir_write_dword_l : lwrite 4 (fun lin => vir_write_dword lin NO_PHYSICAL_MAPPING).
Proof. apply (lwrite_vir 4), spr_write_dword_l. Qed.

(** *** Checked accesses *)

(** The current privilege may access the address; [write] is [PG_R] or [PG_W]. *)
Definition lallows (s : mach P) (write lin : Z) : Prop :=
  pg s = true ->
  match walk (mmem s) (CR_PDBR (cr (mcpu s))) lin with
  | Mapped prot _ => access_check (usr_access write (mcpu s)) prot = false
  | NotPresent => False
  end.

(** [n] bytes an instruction may access. *)
Definition lusable (s : mach P) (write lin : Z) (n : nat) : Prop :=
  lrange s lin n /\ forall i, 0 <= i < Z.of_nat n -> lallows s write (lin + i).

Lemma usr_access_range access c : access = PG_R \/ access = PG_W -> 0 <= usr_access access c < 4.
Proof. unfold usr_access. intros [-> | ->]; destruct (CPL c =? 3); vm_compute; split; congruence. Qed.

(** The physical address a check gives: none, or that of an operand on one page. *)
Definition chk_result (s : mach P) (lin n v : Z) : Prop :=
  v = NO_PHYSICAL_MAPPING \/ v = lmap s lin /\ (pg s = true -> lin mod 2 ^ 12 + n <= 2 ^ 12).

Lemma usr_lin2phy s write lin :
  lwf s -> pg s = true -> write = PG_R \/ write = PG_W -> lready s lin -> lallows s write lin ->
  exists s', lin2phy lin (usr_access write (mcpu s)) s = Ret (lmap s lin) s' /\ framed nothing s s'.
Proof.
  intros Hw Hp Hm HR HA. unfold lready, lmap in *. rewrite Hp in *.
  apply lin2phy_ok; [apply Hw, Hp | exact HR | apply usr_access_range, Hm | apply HA, Hp].
Qed.

Lemma framed_allows s s' write lin :
  framed nothing s s' -> 0 <= lin < 2 ^ 32 -> lallows s write lin -> lallows s' write lin.
Proof.
  intros HF Hl HA Hp. unfold lallows, pg in *. rewrite (f_cpu _ _ _ HF) in *.
  rewrite (f_walk _ _ _ HF lin Hl). apply HA, Hp.
Qed.

(** The word and double word checks, for [n] bytes. *)
Lemma usr_chk_ok n last s write lin :
  (1 < n)%nat -> last + Z.of_nat n = 2 ^ 12 -> write = PG_R \/ write = PG_W -> lwf s -> lusable s write lin n ->
  exists v s', (pg <- paging ;;
    if pg then
      access <- getc (usr_access write) ;;
      phy_addr <- lin2phy lin access ;;
      if last <? lin .& OFFSET_MASK
      then _ <- lin2phy (u32 (lin + (Z.of_nat n - 1))) access ;; ret NO_PHYSICAL_MAPPING
      else ret phy_addr
    else ret lin) s = Ret v s'
  /\ chk_result s lin (Z.of_nat n) v /\ mcpu s' = mcpu s /\ lframed nothing s s'.
Proof.
  intros Hn Hlast Hm Hw [HR HA]. rewrite pg_run. pose proof (lrange_first _ _ _ HR ltac:(lia)) as R0.
  destruct (pg s) eqn:Hp.
  2:{ exists lin, s. split; [reflexivity|]. split; [right; unfold lmap; rewrite Hp; split; [reflexivity | congruence]|].
      auto using lframed_refl. }
  rewrite getc_bind. cbn [the_cpu HasCpu_mach]. pose proof (HA 0 ltac:(lia)) as A0. rewrite Z.add_0_r in A0.
  destruct (usr_lin2phy s write lin Hw Hp Hm R0 A0) as (s1 & E1 & F1). rewrite (bind_ret _ _ _ _ _ E1).
  pose proof (lframed_paged _ _ _ Hp F1) as L1. rewrite (spans lin last (Z.of_nat n)) by (apply (lready_lin s), R0 || exact Hlast).
  destruct (Z.leb_spec (lin mod 2 ^ 12 + Z.of_nat n) (2 ^ 12)) as [Hin|]; cbn [negb].
  - exists (lmap s lin), s1. split; [reflexivity|]. split; [right; auto|]. split; [apply F1 | exact L1].
  - pose proof (HR (Z.of_nat n - 1) ltac:(lia)) as R2. rewrite u32_small by apply (lready_lin _ _ R2).
    destruct (usr_lin2phy s1 write (lin + (Z.of_nat n - 1))) as (s2 & E2 & F2);
      [apply L1 | unfold pg in *; rewrite (f_cpu _ _ _ F1); exact Hp | exact Hm | apply (lf_ready _ _ _ L1), R2
       | apply (framed_allows _ _ _ _ F1 (lready_lin _ _ R2)), HA; lia |].
    rewrite (f_cpu _ _ _ F1) in E2. rewrite (bind_ret _ _ _ _ _ E2).
    exists NO_PHYSICAL_MAPPING, s2. split; [reflexivity|]. split; [left; reflexivity|].
    pose proof (framed_trans _ _ nothing _ _ _ F1 F2 ltac:(tauto)) as F.
    split; [apply F | exact (lframed_paged _ _ _ Hp F)].
Qed.

Lemma usr_chk_word_l s write lin :
  write = PG_R \/ write = PG_W -> lwf s -> lusable s write lin 2 ->
  exists v s', usr_chk_word lin write s = Ret v s' /\ chk_result s lin 2 v /\ mcpu s' = mcpu s /\ lframed nothing s s'.
Proof. apply (usr_chk_ok 2 LAST_WORD_ON_PAGE); [lia | reflexivity]. Qed.

Lemma usr_chk_dword_l s write lin :
  write = PG_R \/ write = PG_W -> lwf s -> lusable s write lin 4 ->
  exists v s', usr_chk_dword lin write s = Ret v s' /\ chk_result s lin 4 v /\ mcpu s' = mcpu s /\ lframed nothing s s'.
Proof. apply (usr_chk_ok 4 LAST_DWORD_ON_PAGE); [lia | reflexivity]. Qed.

(** *** Through the physical address of a check *)

Section Physical.
Context (n : nat) (Hn : (0 < n)%nat).

Definition one_page (s : mach P) (lin : Z) : Prop := pg s = true -> lin mod 2 ^ 12 + Z.of_nat n <= 2 ^ 12.

Lemma phys_ram s lin :
  lrange s lin n -> one_page s lin ->
  is_ram (mmem s) (lmap s lin) (Z.of_nat n) /\ value_at (mmem s) (lmap s lin) n = lvalue s lin n.
Proof.
  intros HR H1. unfold lmap. destruct (pg s) eqn:E.
  - apply (lrange_paged _ _ _ E) in HR. specialize (H1 E). rewrite lvalue_paged by exact E. split.
    + apply (ram_page s lin n HR Hn H1).
    + symmetry. apply value_page; assumption.
  - rewrite lvalue_flat by exact E. split; [apply lrange_flat; assumption | reflexivity].
Qed.

Lemma phys_read (op : Z -> M exn P Z) s lin :
  (forall m a, is_ram m a (Z.of_nat n) -> op a m = Ret (value_at m a n) m) ->
  lrange s lin n -> one_page s lin -> onmem (op (lmap s lin)) s = Ret (lvalue s lin n) s.
Proof.
  intros Hop HR H1. destruct (phys_ram s lin HR H1) as [Hr Hv]. unfold onmem.
  rewrite Hop, SET_mmem_id, Hv by exact Hr. reflexivity.
Qed.

Lemma phys_write (op : Z -> Z -> M exn P unit) s lin x :
  (forall m a v, is_ram m a (Z.of_nat n) -> 0 <= v < 2 ^ (8 * Z.of_nat n) ->
   exists m', op a v m = Ret tt m' /\ stored m m' a n v) ->
  lwf s -> lrange s lin n -> one_page s lin -> 0 <= x < 2 ^ (8 * Z.of_nat n) ->
  exists s', onmem (op (lmap s lin) x) s = Ret tt s' /\ mcpu s' = mcpu s
  /\ lvalue s' lin n = x /\ lframed (lbytes s lin n) s s'.
Proof.
  intros Hop Hw HR H1 Hx. destruct (phys_ram s lin HR H1) as [Hr _].
  destruct (Hop (mmem s) (lmap s lin) x Hr Hx) as (m' & EO & HS). exists (SET_mmem m' s). unfold onmem. rewrite EO.
  assert (HF : lframed (lbytes s lin n) s (SET_mmem m' s)).
  { unfold lmap in HS. destruct (pg s) eqn:E; [|exact (lframed_flat _ _ _ _ _ E HS)].
    destruct (ram_page s lin n (proj1 (lrange_paged _ _ _ E) HR) Hn (H1 E)) as [_ Hby].
    eapply lframed_weaken; [apply lframed_paged; [exact E | exact (store_framed s (Hw E) m' _ n x HS ltac:(intros b Hb; apply Hby, Hb))]|].
    intros b Hb. destruct (Hby b Hb) as [_ (i & Hi & ->)]. exists i. split; [exact Hi|]. unfold lmap. rewrite E. reflexivity. }
  split; [reflexivity|]. split; [reflexivity|]. split; [|exact HF].
  destruct (phys_ram (SET_mmem m' s) lin) as [_ <-]; [exact (lrange_framed _ _ _ _ _ HF HR) | exact H1|].
  rewrite (lf_map _ _ _ HF) by apply (lready_lin _ _ (lrange_first _ _ _ HR Hn)). apply HS.
Qed.

End Physical.

(** The access after a check, by the physical address if there is one. *)
Lemma chosen_read n op f s s1 lin v :
  (0 < n)%nat -> lread n f -> (forall m a, is_ram m a (Z.of_nat n) -> op a m = Ret (value_at m a n) m) ->
  lrange s lin n -> chk_result s lin (Z.of_nat n) v -> lframed nothing s s1 -> pg s1 = pg s ->
  exists s2, (if tst v then onmem (op v) else f lin) s1 = Ret (lvalue s lin n) s2
  /\ mcpu s2 = mcpu s1 /\ lframed nothing s1 s2.
Proof.
  intros Hn Hf Hop HR Hv HF Hp. pose proof (lrange_framed _ _ _ _ _ HF HR) as HR1.
  rewrite <- (lvalue_framed _ _ _ _ _ HF HR) by (unfold nothing; auto).
  destruct (tst v) eqn:Et; [|apply Hf; [apply HF | exact HR1]]. destruct Hv as [-> | [-> H1]]; [discriminate|].
  rewrite <- (lf_map _ _ _ HF) by apply (lready_lin _ _ (lrange_first _ _ _ HR Hn)).
  exists s1. rewrite (phys_read n Hn op) by (assumption || (unfold one_page; rewrite Hp; exact H1)).
  split; [reflexivity|]. split; [reflexivity | apply lframed_refl, HF].
Qed.

Lemma chosen_write n op f s s1 lin v x :
  (0 < n)%nat -> lwrite n f ->
  (forall m a v, is_ram m a (Z.of_nat n) -> 0 <= v < 2 ^ (8 * Z.of_nat n) ->
   exists m', op a v m = Ret tt m' /\ stored m m' a n v) ->
  lrange s lin n -> chk_result s lin (Z.of_nat n) v -> lframed nothing s s1 -> pg s1 = pg s ->
  0 <= x < 2 ^ (8 * Z.of_nat n) ->
  exists s2, (if tst v then onmem (op v x) else f lin x) s1 = Ret tt s2
  /\ mcpu s2 = mcpu s1 /\ lvalue s2 lin n = x /\ lframed (lbytes s1 lin n) s1 s2.
Proof.
  intros Hn Hf Hop HR Hv HF Hp Hx. pose proof (lrange_framed _ _ _ _ _ HF HR) as HR1.
  destruct (tst v) eqn:Et; [|apply Hf; [apply HF | exact HR1 | exact Hx]].
  destruct Hv as [-> | [-> H1]]; [discriminate|].
  rewrite <- (lf_map _ _ _ HF) by apply (lready_lin _ _ (lrange_first _ _ _ HR Hn)).
  apply (phys_write n Hn op); try assumption; [apply HF | unfold one_page; rewrite Hp; exact H1].
Qed.

Lemma lf_pg D s s' : lframed D s s' -> pg s' = pg s.
Proof. intros HF. unfold pg, GET_PG. rewrite (lf_cr _ _ _ HF). reflexivity. Qed.

Lemma lusable_framed D s s' write lin n :
  lframed D s s' -> CPL (mcpu s') = CPL (mcpu s) -> lusable s write lin n -> lusable s' write lin n.
Proof.
  intros HF Ec [HR HA]. split; [exact (lrange_framed _ _ _ _ _ HF HR)|].
  intros i Hi Hp. rewrite (lf_pg _ _ _ HF) in Hp. specialize (HA i Hi Hp).
  rewrite (lf_cr _ _ _ HF), (lf_walk _ _ _ HF Hp) by apply (lready_lin _ _ (HR i Hi)).
  unfold usr_access in *. rewrite Ec. exact HA.
Qed.

Lemma lusable_sub s write lin n a k :
  lusable s write lin n -> lin <= a -> a + Z.of_nat k <= lin + Z.of_nat n -> lusable s write a k.
Proof.
  intros [HR HA] H1 H2. split; [exact (lrange_sub _ _ _ _ _ HR H1 H2)|].
  intros i Hi. replace (a + i) with (lin + (a - lin + i)) by lia. apply HA. lia.
Qed.

(** What may be written may be read. *)
Lemma lusable_read s lin n : lusable s PG_W lin n -> lusable s PG_R lin n.
Proof.
  intros [HR HA]. split; [exact HR|]. intros i Hi Hp. specialize (HA i Hi Hp).
  destruct (walk _ _ _) as [|prot f] eqn:E; [contradiction|]. apply walk_prot in E. revert HA.
  unfold usr_access. destruct (CPL (mcpu s) =? 3); four prot; vm_compute; congruence.
Qed.

(** A checked write and a checked read of a double word. *)
Lemma checked_write s lin x :
  lwf s -> lusable s PG_W lin 4 -> 0 <= x < 2 ^ 32 ->
  exists s1, (phy <- usr_chk_dword lin PG_W ;; vir_write_dword lin phy x) s = Ret tt s1
  /\ mcpu s1 = mcpu s /\ lvalue s1 lin 4 = x /\ lframed (lbytes s lin 4) s s1.
Proof.
  intros Hw HU Hx. destruct (usr_chk_dword_l s PG_W lin (or_intror eq_refl) Hw HU) as (v & sa & Ea & Va & Ca & Fa).
  destruct (data_break_run lin D_W D_DWORD sa (lf_wf _ _ _ Fa)) as (d & Eb & Fb).
  pose proof (lframed_then _ _ _ _ Fa Fb) as Fab.
  destruct (chosen_write 4 phy_write_dword spr_write_dword s (SET_mdbg d sa) lin v x) as (sc & Ec & Cc & Vc & Fc);
    try assumption; [lia | apply spr_write_dword_l | apply write_dword_ram | apply HU | exact (lf_pg _ _ _ Fab) |].
  destruct (ondbg_run (fun d => SET_active (softpc_host_debug_access lin 4 true (le_bytes 4 x) false (active_debug d)) d)
              sc (lf_wf _ _ _ Fc)) as (d' & Ed & Fd).
  pose proof (lframed_then _ _ _ _ Fab Fc) as F1. exists (SET_mdbg d' sc). unfold vir_write_dword.
  rewrite (bind_ret _ _ _ _ _ Ea), (bind_ret _ _ _ _ _ Eb), (bind_ret _ _ _ _ _ Ec).
  split; [exact Ed|]. split; [exact (eq_trans Cc Ca)|]. split.
  - rewrite <- Vc. apply (lvalue_framed _ _ _ _ _ Fd); [exact (lrange_framed _ _ _ _ _ F1 (proj1 HU)) | unfold nothing; auto].
  - apply (lframed_weaken _ _ _ _ (lframed_after _ _ _ _ F1 Fd)). intros b. apply (lbytes_framed _ _ _ _ _ _ Fab (proj1 HU)).
Qed.

Lemma checked_read s lin :
  lwf s -> lusable s PG_R lin 4 ->
  exists s1, (phy <- usr_chk_dword lin PG_R ;; vir_read_dword lin phy) s = Ret (lvalue s lin 4) s1
  /\ mcpu s1 = mcpu s /\ lframed nothing s s1.
Proof.
  intros Hw HU. destruct (usr_chk_dword_l s PG_R lin (or_introl eq_refl) Hw HU) as (v & sa & Ea & Va & Ca & Fa).
  destruct (data_break_run lin D_R D_DWORD sa (lf_wf _ _ _ Fa)) as (d & Eb & Fb).
  pose proof (lframed_then _ _ _ _ Fa Fb) as Fab.
  destruct (chosen_read 4 phy_read_dword spr_read_dword s (SET_mdbg d sa) lin v) as (sc & Ec & Cc & Fc);
    try assumption; [lia | apply spr_read_dword_l | apply read_dword_ram | apply HU | exact (lf_pg _ _ _ Fab) |].
  destruct (ondbg_run (fun d => SET_active (softpc_host_debug_access lin 4 false (le_bytes 4 (lvalue s lin 4)) false
              (active_debug d)) d) sc (lf_wf _ _ _ Fc)) as (d' & Ed & Fd).
  exists (SET_mdbg d' sc). unfold vir_read_dword, softpc_host_debug_read, notify.
  rewrite (bind_ret _ _ _ _ _ Ea), (bind_ret _ _ _ _ _ Eb), (bind_ret _ _ _ _ _ Ec), (bind_ret _ _ _ _ _ Ed).
  split; [reflexivity|]. split; [exact (eq_trans Cc Ca)|].
  exact (lframed_then _ _ _ _ Fab (lframed_then _ _ _ _ Fc Fd)).
Qed.

(** ** Theorem *)

(** Operand accesses: a double word the current privilege may write, on one page
    or across two, with paging on or off, that is checked and written through the
    address the check gives, is read back as written by a checked read; the address
    space is unchanged, and so is every other byte. *)
Theorem operand_round_trip s lin x :
  lwf s -> lusable s PG_W lin 4 -> 0 <= x < 2 ^ 32 ->
  exists s1 s2, (phy <- usr_chk_dword lin PG_W ;; vir_write_dword lin phy x) s = Ret tt s1
  /\ (phy <- usr_chk_dword lin PG_R ;; vir_read_dword lin phy) s1 = Ret x s2
  /\ lframed (lbytes s lin 4) s s1 /\ lframed nothing s1 s2.
Proof.
  intros Hw HU Hx. destruct (checked_write s lin x Hw HU Hx) as (s1 & E1 & C1 & V1 & F1).
  destruct (checked_read s1 lin (lf_wf _ _ _ F1)) as (s2 & E2 & _ & F2).
  - apply lusable_read, (lusable_framed _ _ _ _ _ _ F1); [rewrite C1; reflexivity | exact HU].
  - exists s1, s2. rewrite V1 in E2. auto.
Qed.

End Linear.

(** ** Witness: a double word across the two mapped pages *)

#[local] Existing Instance demo_memory.
#[local] Existing Instance demo_laws.

Lemma operand_round_trip_witness :
  exists s1 s2, (phy <- usr_chk_dword 0xffe PG_W ;; vir_write_dword 0xffe phy 0x12345678) demo = Ret tt s1
  /\ (phy <- usr_chk_dword 0xffe PG_R ;; vir_read_dword 0xffe phy) s1 = Ret 0x12345678 s2
  /\ lframed (lbytes demo 0xffe 4) demo s1 /\ lframed nothing s1 s2.
Proof.
  refine (operand_round_trip demo 0xffe 0x12345678 (fun _ => demo_wf) _ _); [|lia].
  split; intros i Hi; assert (i = 0 \/ i = 1 \/ i = 2 \/ i = 3) as [-> | [-> | [-> | ->]]] by lia;
    first [apply demo_resident; [lia | vm_compute; congruence | vm_compute; split; congruence]
          | intros _; vm_compute; reflexivity].
Defined.

End Virt.
