(* ===== verification/Addr.v ===== *)
(** * Memory addressing

    [c_addr.c]: the decoding of the mod/rm and SIB bytes into a segment and an
    offset ([d_mem]), address arithmetic ([address_add]) and the check of an operand
    against the limit of its segment ([limit_check]).

    [d_mem] takes bytes from the instruction stream: the class [Fetch] is the macro
    [GET_INST_BYTE] of [c_mem.h], the class [FetchLaws] that taking a byte leaves the
    registers alone, except that EIP may advance when the stream goes on in another
    page. *)

From S2P Require Import Prelude Cpu Debug Arith Shift Xcptn MulDiv Mem Tlb Page Basic Seg.

Module Addr.
Import Xcptn Basic Seg.

Class Fetch (S : Type) := { GET_INST_BYTE : M exn S Z }.

Class FetchLaws (S : Type) `{HasCpu S} `{Fetch S} : Prop := {
  fetch_cpu : forall s b s', GET_INST_BYTE s = Ret b s' ->
    (exists x, the_cpu s' = SET_ip x (the_cpu s)) /\ 0 <= b < 2 ^ 8
}.

Definition SEG_CLR : Z := 6.

(** ** Tables

    The addressing types are numbered as in the source: 0-23 are A_1600 to A_1627,
    24-44 A_3200 to A_3227 without the r/m 4 of the SIB byte, 45-68 A_32S00 to
    A_32S27; the subtypes 1-32 are A_SI00 to A_SI37, 0 is A_SINO. *)

Definition addr_maintype : list (list (list Z)) :=
  [ [ [0; 1; 2; 3; 4; 5; 6; 7];
      [8; 9; 10; 11; 12; 13; 14; 15];
      [16; 17; 18; 19; 20; 21; 22; 23] ];
    [ [24; 25; 26; 27; 0; 28; 29; 30];
      [31; 32; 33; 34; 0; 35; 36; 37];
      [38; 39; 40; 41; 0; 42; 43; 44] ];
    [ [45; 46; 47; 48; 49; 50; 51; 52];
      [53; 54; 55; 56; 57; 58; 59; 60];
      [61; 62; 63; 64; 65; 66; 67; 68] ] ].

Definition A_SINO : Z := 0.
Definition addr_subtype : list (list Z) :=
  [ [1; 2; 3; 4; 5; 6; 7; 8]; [9; 10; 11; 12; 13; 14; 15; 16];
    [17; 18; 19; 20; 21; 22; 23; 24]; [25; 26; 27; 28; 29; 30; 31; 32] ].

Inductive disp_kind := D_NO | D_S8 | D_S16 | D_Z16 | D_32.

Definition addr_disp : list (list (list disp_kind)) :=
  [ [ [D_NO; D_NO; D_NO; D_NO; D_NO; D_NO; D_Z16; D_NO];
      [D_S8; D_S8; D_S8; D_S8; D_S8; D_S8; D_S8; D_S8];
      [D_S16; D_S16; D_S16; D_S16; D_S16; D_S16; D_S16; D_S16] ];
    [ [D_NO; D_NO; D_NO; D_NO; D_NO; D_32; D_NO; D_NO];
      [D_S8; D_S8; D_S8; D_S8; D_S8; D_S8; D_S8; D_S8];
      [D_32; D_32; D_32; D_32; D_32; D_32; D_32; D_32] ] ].

Definition addr_default_seg : list (list (list Z)) :=
  [ [ [DS_REG; DS_REG; SS_REG; SS_REG; DS_REG; DS_REG; DS_REG; DS_REG];
      [DS_REG; DS_REG; SS_REG; SS_REG; DS_REG; DS_REG; SS_REG; DS_REG];
      [DS_REG; DS_REG; SS_REG; SS_REG; DS_REG; DS_REG; SS_REG; DS_REG] ];
    [ [DS_REG; DS_REG; DS_REG; DS_REG; SS_REG; DS_REG; DS_REG; DS_REG];
      [DS_REG; DS_REG; DS_REG; DS_REG; SS_REG; SS_REG; DS_REG; DS_REG];
      [DS_REG; DS_REG; DS_REG; DS_REG; SS_REG; SS_REG; DS_REG; DS_REG] ] ].

Definition at2 {A} (t : list (list A)) (i j : Z) : option A := t !! Z.to_nat i ≫= (fun l => l !! Z.to_nat j).
Definition at3 {A} (t : list (list (list A))) (i j k : Z) : option A := t !! Z.to_nat i ≫= (fun l => at2 l j k).

Definition GET_MODE (x : Z) : Z := (x .>> 6) .& 0x3.
Definition GET_R_M (x : Z) : Z := x .& 0x7.
Definition GET_SS (x : Z) : Z := (x .>> 6) .& 0x3.
Definition GET_INDEX (x : Z) : Z := (x .>> 3) .& 0x7.
Definition GET_BASE (x : Z) : Z := x .& 0x7.

(** The switch on the addressing type. *)
Definition main_offset (identifier disp : Z) (c : cpu) : option Z :=
  match identifier with
  | 0 | 8 | 16 => Some (u32 (GET_WR A_BX c + GET_WR A_SI c + disp) .& WORD_MASK)
  | 1 | 9 | 17 => Some (u32 (GET_WR A_BX c + GET_WR A_DI c + disp) .& WORD_MASK)
  | 2 | 10 | 18 => Some (u32 (GET_WR A_BP c + GET_WR A_SI c + disp) .& WORD_MASK)
  | 3 | 11 | 19 => Some (u32 (GET_WR A_BP c + GET_WR A_DI c + disp) .& WORD_MASK)
  | 4 | 12 | 20 => Some (u32 (GET_WR A_SI c + disp) .& WORD_MASK)
  | 5 | 13 | 21 => Some (u32 (GET_WR A_DI c + disp) .& WORD_MASK)
  | 6 => Some (disp .& WORD_MASK)
  | 14 | 22 => Some (u32 (GET_WR A_BP c + disp) .& WORD_MASK)
  | 7 | 15 | 23 => Some (u32 (GET_WR A_BX c + disp) .& WORD_MASK)
  | 24 | 31 | 38 | 45 | 53 | 61 => Some (u32 (GET_GR A_EAX c + disp))
  | 25 | 32 | 39 | 46 | 54 | 62 => Some (u32 (GET_GR A_ECX c + disp))
  | 26 | 33 | 40 | 47 | 55 | 63 => Some (u32 (GET_GR A_EDX c + disp))
  | 27 | 34 | 41 | 48 | 56 | 64 => Some (u32 (GET_GR A_EBX c + disp))
  | 49 | 57 | 65 => Some (u32 (GET_GR A_ESP c + pop_disp c + disp))
  | 28 | 50 => Some disp
  | 35 | 42 | 58 | 66 => Some (u32 (GET_GR A_EBP c + disp))
  | 29 | 36 | 43 | 51 | 59 | 67 => Some (u32 (GET_GR A_ESI c + disp))
  | 30 | 37 | 44 | 52 | 60 | 68 => Some (u32 (GET_GR A_EDI c + disp))
  | _ => None
  end.

(** The switch on the subtype: what it adds. *)
Definition sub_offset (sub_id : Z) (c : cpu) : Z :=
  match sub_id with
  | 1 => GET_GR A_EAX c | 2 => GET_GR A_ECX c | 3 => GET_GR A_EDX c | 4 => GET_GR A_EBX c
  | 6 => GET_GR A_EBP c | 7 => GET_GR A_ESI c | 8 => GET_GR A_EDI c
  | 9 => GET_GR A_EAX c .<< 1 | 10 => GET_GR A_ECX c .<< 1 | 11 => GET_GR A_EDX c .<< 1 | 12 => GET_GR A_EBX c .<< 1
  | 14 => GET_GR A_EBP c .<< 1 | 15 => GET_GR A_ESI c .<< 1 | 16 => GET_GR A_EDI c .<< 1
  | 17 => GET_GR A_EAX c .<< 2 | 18 => GET_GR A_ECX c .<< 2 | 19 => GET_GR A_EDX c .<< 2 | 20 => GET_GR A_EBX c .<< 2
  | 22 => GET_GR A_EBP c .<< 2 | 23 => GET_GR A_ESI c .<< 2 | 24 => GET_GR A_EDI c .<< 2
  | 25 => GET_GR A_EAX c .<< 3 | 26 => GET_GR A_ECX c .<< 3 | 27 => GET_GR A_EDX c .<< 3 | 28 => GET_GR A_EBX c .<< 3
  | 30 => GET_GR A_EBP c .<< 3 | 31 => GET_GR A_ESI c .<< 3 | 32 => GET_GR A_EDI c .<< 3
  | _ => 0
  end.

Definition address_add (offset delta : Z) (c : cpu) : Z :=
  if address_size c =? USE32 then u32 (offset + delta) else u32 (offset + delta) .& WORD_MASK.

Section Decode.
Context {S : Type} `{HasCpu S} `{Fetch S}.

Abbreviation X := (M exn S).

(** What C leaves undefined when there is nothing. *)
Definition defined {A} (o : option A) : X A :=
  match o with Some a => ret a | None => undefined end.

Definition displacement (k : disp_kind) : X Z :=
  match k with
  | D_NO => ret 0
  | D_S8 =>
      disp <- GET_INST_BYTE ;;
      ret (if Tlb.tst (disp .& BIT_MASK 7) then disp .| not32 BYTE_MASK else disp)
  | D_S16 =>
      b0 <- GET_INST_BYTE ;; b1 <- GET_INST_BYTE ;;
      let disp := b0 .| (b1 .<< 8) in
      ret (if Tlb.tst (disp .& BIT_MASK 15) then disp .| not32 WORD_MASK else disp)
  | D_Z16 =>
      b0 <- GET_INST_BYTE ;; b1 <- GET_INST_BYTE ;; ret (b0 .| (b1 .<< 8))
  | D_32 =>
      b0 <- GET_INST_BYTE ;; b1 <- GET_INST_BYTE ;; b2 <- GET_INST_BYTE ;; b3 <- GET_INST_BYTE ;;
      ret (b0 .| (b1 .<< 8) .| (b2 .<< 16) .| (b3 .<< 24))
  end.

(** The segment register and the offset. *)
Definition d_mem (modRM segment_override : Z) : X (Z * Z) :=
  let mode := GET_MODE modRM in
  let r_m := GET_R_M modRM in
  sz <- getc address_size ;;
  let! (r_m, identifier, sub_id) :=
    (if (r_m =? 4) && (sz =? USE32) then
       sib <- GET_INST_BYTE ;;
       let r_m := GET_BASE sib in
       identifier <- defined (at3 addr_maintype 2 mode r_m) ;;
       sub_id <- defined (at2 addr_subtype (GET_SS sib) (GET_INDEX sib)) ;;
       ret (r_m, identifier, sub_id)
     else
       identifier <- defined (at3 addr_maintype sz mode r_m) ;;
       ret (r_m, identifier, A_SINO)) ;;
  kind <- defined (at3 addr_disp sz mode r_m) ;;
  disp <- displacement kind ;;
  seg <- (if segment_override =? SEG_CLR then defined (at3 addr_default_seg sz mode r_m) else ret segment_override) ;;
  c <- getc (fun c => c) ;;
  mem_off <- defined (main_offset identifier disp c) ;;
  ret (seg, if sub_id =? A_SINO then mem_off else u32 (mem_off + sub_offset sub_id c)).

(** ** Limits *)

(** Whether the items fall outside the segment. *)
Definition bad_limit (seg : SEGMENT_REGISTER) (offset nr_items op_sz : Z) : bool :=
  let range := u32 (nr_items * op_sz - 1) in
  if Tlb.tst (ar_e seg) then
    let segment_top := if ar_x seg =? USE32 then 0xffffffff else 0xffff in
    (offset <=? limit seg) || (u32 (segment_top - range) <? offset)
  else
    let segment_top := limit seg in
    if (segment_top <? offset) || (segment_top <? range) then true
    else if u32 (segment_top - range) <? offset then
      if negb (offset mod op_sz =? 0) then true
      else if ar_x seg =? USE16 then negb (limit seg =? 0xffff)
      else negb (limit seg =? 0xffffffff)
    else false.

Definition limit_check (index offset nr_items op_sz : Z) : X unit :=
  seg <- getc (GET_SR index) ;;
  let bad := bad_limit seg offset nr_items op_sz in
  real <- getc real_or_v86 ;;
  if real then ret tt
  else when bad (if index =? SS_REG then SF_fault 0 else GP 0).

End Decode.

(** ** The effective address of the architecture *)

(** The number of displacement bytes. *)
Definition disp_bytes (wide : bool) (mode base : Z) : nat :=
  let full := if wide then 4%nat else 2%nat in
  if mode =? 1 then 1%nat
  else if (mode =? 2) || (base =? if wide then 5 else 6) then full else 0%nat.

Fixpoint le_value (bs : list Z) : Z :=
  match bs with [] => 0 | b :: bs => b + 2 ^ 8 * le_value bs end.

(** The displacement is signed. *)
Definition disp_value (bs : list Z) : Z :=
  match bs with [] => 0 | _ => sgn (8 * Z.of_nat (length bs)) (le_value bs) end.

Definition base16 (mode r_m : Z) (c : cpu) : Z :=
  nth (Z.to_nat r_m)
    [GET_WR A_BX c + GET_WR A_SI c; GET_WR A_BX c + GET_WR A_DI c; GET_WR A_BP c + GET_WR A_SI c;
     GET_WR A_BP c + GET_WR A_DI c; GET_WR A_SI c; GET_WR A_DI c;
     (if mode =? 0 then 0 else GET_WR A_BP c); GET_WR A_BX c] 0.

Definition base32 (mode base : Z) (c : cpu) : Z :=
  if (mode =? 0) && (base =? 5) then 0
  else GET_GR base c + (if base =? 4 then pop_disp c else 0).

Definition scaled_index (sib : Z) (c : cpu) : Z :=
  if GET_INDEX sib =? 4 then 0 else GET_GR (GET_INDEX sib) c * 2 ^ GET_SS sib.

(** The stack segment is the default when BP, EBP or ESP is the base. *)
Definition stack_based (wide : bool) (mode base : Z) : bool :=
  if wide then (base =? 4) || ((base =? 5) && negb (mode =? 0))
  else (base =? 2) || (base =? 3) || ((base =? 6) && negb (mode =? 0)).

Section Stream.
Context {S : Type} `{FetchLaws S}.

(** The next bytes of the stream are [bs]; [s'] is the state after them. *)
Fixpoint fetched (bs : list Z) (s s' : S) : Prop :=
  match bs with
  | [] => s' = s
  | b :: bs => exists s1, GET_INST_BYTE s = Ret b s1 /\ fetched bs s1 s'
  end.

Lemma fetched_cpu bs : forall s s', fetched bs s s' ->
  (exists x, the_cpu s' = SET_ip x (the_cpu s)) /\ Forall (fun b => 0 <= b < 2 ^ 8) bs.
Proof.
  induction bs as [|b bs IH]; intros s s' HF; cbn [fetched] in HF.
  { subst. split; [exists (ip (the_cpu s)); destruct (the_cpu s); reflexivity | constructor]. }
  destruct HF as (s1 & E & HF).
  destruct (fetch_cpu _ _ _ E) as [[x Ec] Hb]. destruct (IH _ _ HF) as [[y EF] HB].
  split; [exists y; rewrite EF, Ec; reflexivity | constructor; assumption].
Qed.

Lemma fetched_app bs bs' : forall s s', fetched (bs ++ bs') s s' <-> exists s1, fetched bs s s1 /\ fetched bs' s1 s'.
Proof.
  induction bs as [|b bs IH]; intros s s'; cbn [app fetched].
  - split; [eauto | intros (s1 & E & HF); subst; exact HF].
  - setoid_rewrite IH. split.
    + intros (s1 & E & s2 & F1 & F2). eauto.
    + intros (s1 & (s2 & E & F1) & F2). eauto.
Qed.
End Stream.

(** Joining bytes. *)
Lemma join_byte lo b k : 0 <= k <= 24 -> 0 <= lo < 2 ^ k -> 0 <= b < 2 ^ 8 -> lo .| (b .<< k) = lo + 2 ^ k * b.
Proof.
  intros Hk Hlo Hb. assert (2 ^ k <= 2 ^ 24) by (apply Z.pow_le_mono_r; lia).
  rewrite u32_small by (rewrite Z.shiftl_mul_pow2 by lia; nia). rewrite Z.lor_comm. apply join_lor; lia.
Qed.

(** Sign extension of a byte or word by setting the upper bits. *)
Lemma extend_sign x k : 0 < k < 32 -> 0 <= x < 2 ^ k ->
  (if Tlb.tst (x .& BIT_MASK (k - 1)) then x .| not32 (2 ^ k - 1) else x) = sgn k x mod 2 ^ 32.
Proof.
  intros Hk Hx. unfold BIT_MASK. rewrite Tlb.tst_land_pow2 by lia. rewrite sgn_cases by lia.
  assert (2 ^ k < 2 ^ 32) by (apply Z.pow_lt_mono_r; lia).
  destruct (Z.testbit x (k - 1)); [|rewrite Z.mod_small; lia].
  replace ((x - 2 ^ k) mod 2 ^ 32) with (x + (2 ^ 32 - 2 ^ k))
    by (symmetry; rewrite <- (Z_mod_plus_full _ 1); rewrite Z.mod_small; lia).
  replace (2 ^ 32 - 2 ^ k) with (2 ^ k * (2 ^ (32 - k) - 1)).
  2:{ rewrite Z.mul_sub_distr_l, <- Z.pow_add_r by lia. replace (k + (32 - k)) with 32 by lia. lia. }
  rewrite <- (join_lor x _ k) by lia. rewrite Z.lor_comm. f_equal.
  apply Z.bits_inj'. intros n Hn. unfold not32, u32.
  replace (2 ^ k - 1) with (Z.ones k) by (rewrite Z.ones_equiv; lia).
  replace (2 ^ (32 - k) - 1) with (Z.ones (32 - k)) by (rewrite Z.ones_equiv; lia).
  rewrite Z.shiftl_spec by lia. destruct (Z.ltb_spec n 32) as [H1 | H1].
  - rewrite Z.mod_pow2_bits_low, Z.lnot_spec by lia. destruct (Z.ltb_spec n k).
    + rewrite Z.ones_spec_low, Z.testbit_neg_r by lia. reflexivity.
    + rewrite Z.ones_spec_high, Z.ones_spec_low by lia. reflexivity.
  - rewrite Z.mod_pow2_bits_high, Z.ones_spec_high by lia. reflexivity.
Qed.

Ltac three x := assert (x = 0 \/ x = 1 \/ x = 2) as [-> | [-> | ->]] by lia.

Lemma word_sum x d d' : d mod 2 ^ 16 = d' mod 2 ^ 16 -> u32 (x + d) .& WORD_MASK = (x + d') mod 2 ^ 16.
Proof.
  intros E. change WORD_MASK with (2 ^ 16 - 1). rewrite land_mask by lia. unfold u32. rewrite mod_mod_le by lia.
  rewrite Z.add_mod, E, <- Z.add_mod by lia. reflexivity.
Qed.

Lemma dword_sum x d d' : d mod 2 ^ 32 = d' mod 2 ^ 32 -> u32 (x + d) = (x + d') mod 2 ^ 32.
Proof. intros E. unfold u32. rewrite Z.add_mod, E, <- Z.add_mod by lia. reflexivity. Qed.

(** The types of the 16-bit modes, and of the 32-bit modes without and with SIB. *)
Lemma main_type16 mode r_m c d d' :
  0 <= mode < 3 -> 0 <= r_m < 8 -> d mod 2 ^ 16 = d' mod 2 ^ 16 ->
  exists id, at3 addr_maintype 0 mode r_m = Some id
  /\ main_offset id d c = Some ((base16 mode r_m c + d') mod 2 ^ 16).
Proof.
  intros Hm Hr Hd. three mode; Tlb.eight r_m; (eexists; split; [reflexivity|]); cbn; f_equal;
    first [apply word_sum, Hd | change WORD_MASK with (2 ^ 16 - 1); rewrite land_mask, Hd by lia; f_equal; lia].
Qed.

Lemma main_type32 (sib : bool) mode base c d d' :
  0 <= mode < 3 -> 0 <= base < 8 -> (sib = false -> base <> 4) -> 0 <= d < 2 ^ 32 -> d = d' mod 2 ^ 32 ->
  exists id, at3 addr_maintype (if sib then 2 else 1) mode base = Some id
  /\ main_offset id d c = Some ((base32 mode base c + d') mod 2 ^ 32).
Proof.
  intros Hm Hb Hs Hd E.
  assert (E' : d mod 2 ^ 32 = d' mod 2 ^ 32) by (rewrite E, Zmod_mod; reflexivity).
  destruct sib; three mode; Tlb.eight base; try (now destruct (Hs eq_refl));
    (eexists; split; [reflexivity|]); cbn -[Z.add Z.pow Z.modulo]; f_equal;
    first [rewrite <- Z.add_assoc, Z.add_0_l; apply dword_sum, E' | apply dword_sum, E' | rewrite Z.add_0_r; apply dword_sum, E' | rewrite Z.add_0_l; exact E].
Qed.

Lemma sub_type sib c :
  0 <= sib < 2 ^ 8 ->
  exists sub, at2 addr_subtype (GET_SS sib) (GET_INDEX sib) = Some sub /\ (sub =? A_SINO) = false
  /\ forall x, u32 (x mod 2 ^ 32 + sub_offset sub c) = (x + scaled_index sib c) mod 2 ^ 32.
Proof.
  intros Hs. unfold scaled_index.
  assert (H1 : 0 <= GET_SS sib < 4) by (unfold GET_SS; change 3 with (2 ^ 2 - 1); rewrite land_mask by lia; apply Z.mod_pos_bound; lia).
  assert (H2 : 0 <= GET_INDEX sib < 8) by (unfold GET_INDEX; change 7 with (2 ^ 3 - 1); rewrite land_mask by lia; apply Z.mod_pos_bound; lia).
  generalize dependent (GET_SS sib). generalize dependent (GET_INDEX sib). intros ix Hx ss Hss.
  Tlb.four ss; Tlb.eight ix; (eexists; split; [reflexivity|]); (split; [reflexivity|]); intros x;
    cbn -[Z.add Z.pow Z.modulo Z.mul Z.shiftl u32]; rewrite ?Z.shiftl_mul_pow2 by lia; unfold u32;
    rewrite ?Zplus_mod_idemp_l, ?Zplus_mod_idemp_r, ?Z.mul_1_r; reflexivity.
Qed.

Lemma GET_MODE_range x : 0 <= GET_MODE x < 4.
Proof. unfold GET_MODE. change 3 with (2 ^ 2 - 1). rewrite land_mask by lia. apply Z.mod_pos_bound. lia. Qed.

Lemma low3_range x : 0 <= x .& 7 < 8.
Proof. change 7 with (2 ^ 3 - 1). rewrite land_mask by lia. apply Z.mod_pos_bound. lia. Qed.

Definition disp_need (k : disp_kind) : nat :=
  match k with D_NO => 0 | D_S8 => 1 | D_S16 | D_Z16 => 2 | D_32 => 4 end%nat.

Lemma disp_table wide mode base :
  0 <= mode < 3 -> 0 <= base < 8 ->
  exists k, at3 addr_disp (if wide : bool then 1 else 0) mode base = Some k
  /\ disp_need k = disp_bytes wide mode base /\ (wide = true -> k <> D_Z16)
  /\ at3 addr_default_seg (if wide then 1 else 0) mode base = Some (if stack_based wide mode base then SS_REG else DS_REG).
Proof. intros Hm Hb. destruct wide; three mode; Tlb.eight base; eexists; repeat split; congruence. Qed.

Lemma sgn_mod_low w x m : 0 <= m <= w -> 0 <= x < 2 ^ w -> sgn w x mod 2 ^ m = x mod 2 ^ m.
Proof.
  intros Hm Hx. unfold sgn. rewrite (Z.mod_small x) by lia. destruct (_ <? _); [reflexivity|].
  replace (2 ^ w) with (2 ^ (w - m) * 2 ^ m) by (rewrite <- Z.pow_add_r by lia; f_equal; lia).
  rewrite <- (Z_mod_plus_full (x - _) (2 ^ (w - m))). f_equal. lia.
Qed.

Section Effective.
Context {S : Type} `{FetchLaws S}.

Lemma displacement_ok k bs s s' :
  fetched bs s s' -> length bs = disp_need k ->
  exists d, displacement k s = Ret d s' /\ 0 <= d < 2 ^ 32
  /\ d mod 2 ^ 16 = disp_value bs mod 2 ^ 16 /\ (k <> D_Z16 -> d = disp_value bs mod 2 ^ 32).
Proof.
  intros HF HL. destruct (fetched_cpu _ _ _ HF) as [_ HB].
  assert (E2 : forall d, d = disp_value bs mod 2 ^ 32 ->
    0 <= d < 2 ^ 32 /\ d mod 2 ^ 16 = disp_value bs mod 2 ^ 16 /\ (k <> D_Z16 -> d = disp_value bs mod 2 ^ 32)).
  { intros d ->. split; [apply Z.mod_pos_bound; lia|]. split; [apply mod_mod_le; lia | reflexivity]. }
  destruct k; destruct bs as [|b0 [|b1 [|b2 [|b3 [|? ?]]]]]; try discriminate; cbn [fetched] in HF; decompose record HF; subst;
    repeat match goal with HB : Forall _ (_ :: _) |- _ => apply Forall_cons in HB; destruct HB as [? HB] end; cbn [displacement];
    repeat match goal with HE : GET_INST_BYTE _ = Ret _ _ |- _ => rewrite (bind_ret _ _ _ _ _ HE); clear HE end;
    eexists; (split; [reflexivity|]).
  - apply E2. reflexivity.
  - apply E2. cbn [disp_value length le_value]. change BYTE_MASK with (2 ^ 8 - 1). change (8 * Z.of_nat 1) with 8. rewrite Z.mul_0_r, Z.add_0_r. apply (extend_sign _ 8); lia.
  - apply E2. cbn [disp_value length le_value]. change WORD_MASK with (2 ^ 16 - 1). change (8 * Z.of_nat 2) with 16. rewrite Z.mul_0_r, Z.add_0_r, join_byte by lia.
    apply (extend_sign _ 16); lia.
  - rewrite join_byte by lia. cbn [disp_value length le_value]. change (8 * Z.of_nat 2) with 16.
    rewrite sgn_mod_low by lia. rewrite Z.mul_0_r, Z.add_0_r. split; [lia|]. split; [reflexivity | congruence].
  - apply E2. cbn [disp_value length le_value]. change (8 * Z.of_nat 4) with 32. rewrite sgn_mod_low by lia.
    rewrite (join_byte b0) by lia. rewrite (join_byte (_ + _) b2) by lia. rewrite (join_byte (_ + _) b3) by lia.
    rewrite Z.mod_small; lia.
Qed.

(** From the addressing type on. *)
Lemma d_mem_tail sz mode base k seg override id sub disp d mo (s s' : S) :
  at3 addr_disp sz mode base = Some k -> at3 addr_default_seg sz mode base = Some seg ->
  displacement k s = Ret d s' -> main_offset id d (the_cpu s') = Some mo ->
  disp = (fun c => if sub =? A_SINO then mo else u32 (mo + sub_offset sub c)) ->
  (kind <- defined (at3 addr_disp sz mode base) ;; disp <- displacement kind ;;
   seg <- (if override =? SEG_CLR then defined (at3 addr_default_seg sz mode base) else ret override) ;;
   c <- getc (fun c => c) ;; mem_off <- defined (main_offset id disp c) ;;
   ret (seg, if sub =? A_SINO then mem_off else u32 (mem_off + sub_offset sub c))) s
  = Ret (if override =? SEG_CLR then seg else override, disp (the_cpu s')) s'.
Proof.
  intros Ek Es Ed Em ->. rewrite Ek, Es. cbn [defined]. unfold bind at 1, ret at 1. rewrite (bind_ret _ _ _ _ _ Ed).
  destruct (override =? SEG_CLR); unfold bind, ret, getc, gets; rewrite Em; reflexivity.
Qed.

(** C11 - Effective addresses: for every mod/rm byte with a memory operand, both address
    sizes and every SIB byte, [d_mem] takes exactly the SIB and displacement bytes of
    the encoding and gives base plus scaled index plus signed displacement, modulo
    the address size; the segment is the override if there is one, else SS when the
    base is BP, EBP or ESP, else DS.  Like the processor it counts what POP has
    already taken when the base is ESP. *)
Theorem effective_address modRM override sib disp (s s' : S) :
  let c := the_cpu s in
  let wide := address_size c =? USE32 in
  let mode := GET_MODE modRM in
  let has_sib := (GET_R_M modRM =? 4) && wide in
  let base := if has_sib then GET_BASE sib else GET_R_M modRM in
  address_size c = USE16 \/ address_size c = USE32 -> mode <> 3 ->
  fetched ((if has_sib then [sib] else []) ++ disp) s s' -> length disp = disp_bytes wide mode base ->
  d_mem modRM override s =
  Ret (if override =? SEG_CLR then if stack_based wide mode base then SS_REG else DS_REG else override,
       if wide then (base32 mode base c + disp_value disp + (if has_sib then scaled_index sib c else 0)) mod 2 ^ 32
       else (base16 mode base c + disp_value disp) mod 2 ^ 16) s'.
Proof.
  intros c wide mode has_sib base Hsz Hm HF HL.
  assert (Hmode : 0 <= mode < 3) by (unfold mode in *; pose proof (GET_MODE_range modRM); lia).
  assert (Hbase : 0 <= base < 8) by (unfold base; destruct has_sib; apply low3_range).
  apply fetched_app in HF. destruct HF as (s1 & F1 & F2).
  destruct (fetched_cpu _ _ _ F1) as [[x1 C1] HB]. destruct (fetched_cpu _ _ _ F2) as [[x2 C2] _].
  destruct (disp_table wide mode base Hmode Hbase) as (k & Ek & Lk & Zk & Es). rewrite <- Lk in HL.
  destruct (displacement_ok k disp s1 s' F2 HL) as (d & Ed & Rd & D16 & D32).
  assert (Esz : address_size c = if wide then 1 else 0) by (unfold wide; destruct Hsz as [-> | ->]; reflexivity).
  unfold d_mem. rewrite getc_bind. fold c mode. rewrite Esz.
  replace ((if wide then 1 else 0) =? USE32) with wide by (destruct wide; reflexivity). fold has_sib.
  assert (C : the_cpu s' = SET_ip x2 c) by (rewrite C2, C1; reflexivity).
  subst has_sib base. destruct wide eqn:Ew; [destruct (Z.eqb_spec (GET_R_M modRM) 4) as [E4 | E4]|];
    cbn [andb app fetched] in *.
  - destruct F1 as (s2 & E1 & <-). apply Forall_cons in HB. destruct HB as [Hsib _].
    destruct (main_type32 true mode (GET_BASE sib) c d (disp_value disp)) as (id & Ei & Eo); auto.
    destruct (sub_type sib c Hsib) as (sub & Esub & Nsub & Hsub).
    erewrite bind_ret by (rewrite (bind_ret _ _ _ _ _ E1), Ei, Esub; reflexivity).
    etransitivity; [eapply d_mem_tail; eauto; rewrite C; exact Eo|]. cbv beta. rewrite C, Nsub, Hsub. reflexivity.
  - subst s1. destruct (main_type32 false mode (GET_R_M modRM) c d (disp_value disp)) as (id & Ei & Eo); auto.
    erewrite bind_ret by (rewrite Ei; reflexivity).
    etransitivity; [eapply d_mem_tail; eauto; rewrite C; exact Eo|]. cbv beta. rewrite (Z.add_0_r (base32 _ _ _ + _)). reflexivity.
  - rewrite !andb_false_r in *. cbn [fetched] in F1. subst s1.
    destruct (main_type16 mode (GET_R_M modRM) c d (disp_value disp)) as (id & Ei & Eo); auto.
    erewrite bind_ret by (rewrite Ei; reflexivity).
    etransitivity; [eapply d_mem_tail; eauto; rewrite C; exact Eo | reflexivity].
Qed.

End Effective.

(** ** Limits *)

(** Offsets the segment contains. *)
Definition in_segment (seg : SEGMENT_REGISTER) (b : Z) : Prop :=
  if Tlb.tst (ar_e seg) then limit seg < b <= (if ar_x seg =? USE32 then 0xffffffff else 0xffff)
  else 0 <= b <= limit seg.

(** A segment as large as its offsets can address, in which addresses wrap. *)
Definition full_size (seg : SEGMENT_REGISTER) : bool :=
  negb (Tlb.tst (ar_e seg)) && (limit seg =? if ar_x seg =? USE16 then 0xffff else 0xffffffff).

(** Where the [i]-th item starts. *)
Definition item_offset (seg : SEGMENT_REGISTER) (offset op_sz i : Z) : Z :=
  if full_size seg then (offset + i * op_sz) mod (limit seg + 1) else offset + i * op_sz.

(** The first offset and every byte of every item are in the segment. *)
Definition items_fit (seg : SEGMENT_REGISTER) (offset nr_items op_sz : Z) : Prop :=
  in_segment seg offset /\
  forall i j, 0 <= i < nr_items -> 0 <= j < op_sz -> in_segment seg (item_offset seg offset op_sz i + j).

Definition seg_ok (seg : SEGMENT_REGISTER) : Prop :=
  0 <= limit seg < 2 ^ 32 /\ (ar_x seg = USE16 \/ ar_x seg = USE32).

(** Without wrapping the items are one block. *)
Lemma block_fits seg offset n sz :
  full_size seg = false -> 1 <= n -> 1 <= sz ->
  items_fit seg offset n sz <-> in_segment seg offset /\ in_segment seg (offset + (n * sz - 1)).
Proof.
  intros Hf Hn Hs. unfold items_fit, item_offset. rewrite Hf. split.
  - intros [H0 Hfit]. pose proof (Hfit (n - 1) (sz - 1) ltac:(lia) ltac:(lia)) as H1. split; [exact H0|].
    replace (offset + (n * sz - 1)) with (offset + (n - 1) * sz + (sz - 1)) by lia. exact H1.
  - intros [H0 H1]. split; [exact H0|]. intros i j Hi Hj. assert (0 <= i * sz + j <= n * sz - 1) by nia.
    unfold in_segment in *. destruct (Tlb.tst (ar_e seg)); lia.
Qed.

(** In a full size segment aligned items wrap, others do not. *)
Lemma full_fits seg offset n sz :
  full_size seg = true -> seg_ok seg -> sz = 1 \/ sz = 2 \/ sz = 4 -> 1 <= n -> n * sz <= limit seg + 1 ->
  0 <= offset <= limit seg ->
  items_fit seg offset n sz <-> offset + (n * sz - 1) <= limit seg \/ offset mod sz = 0.
Proof.
  intros Hf [Hl Hx] Hs Hn Ht Ho. unfold items_fit, item_offset. rewrite Hf.
  unfold full_size in Hf. apply andb_prop in Hf. destruct Hf as [He Hlim].
  assert (HL : exists q, limit seg + 1 = q * 4) by (apply Z.eqb_eq in Hlim; destruct (ar_x seg =? USE16); rewrite Hlim;
    [exists 0x4000 | exists 0x40000000]; reflexivity). destruct HL as [q Hq].
  unfold in_segment. destruct (Tlb.tst (ar_e seg)); [discriminate|]. split.
  - intros [_ Hfit]. destruct (Z.le_gt_cases (offset + (n * sz - 1)) (limit seg)) as [|Hover]; [auto | right].
    set (i := (limit seg - offset) / sz).
    pose proof (Z_div_mod_eq_full (limit seg - offset) sz) as Ei. pose proof (Z.mod_pos_bound (limit seg - offset) sz ltac:(lia)).
    fold i in Ei. assert (0 <= i) by (apply Z.div_pos; lia). assert (i < n) by nia.
    pose proof (Hfit i (sz - 1) ltac:(lia) ltac:(lia)) as Hlast.
    rewrite Z.mod_small in Hlast by nia. assert (Er : (limit seg - offset) mod sz = sz - 1) by lia.
    pose proof (Z_div_mod_eq_full offset sz). pose proof (Z.mod_pos_bound offset sz ltac:(lia)).
    destruct Hs as [-> | [-> | ->]]; lia.
  - intros Hc. split; [exact Ho|]. intros i j Hi Hj. pose proof (Z.mod_pos_bound (offset + i * sz) (limit seg + 1) ltac:(lia)) as Hm.
    split; [lia|]. destruct Hc as [Hc | Hc].
    + rewrite Z.mod_small by nia. nia.
    + assert (Ea : ((offset + i * sz) mod (limit seg + 1)) mod sz = 0).
      { rewrite (Z.mod_eq (offset + i * sz)) by lia. pose proof (Z_div_mod_eq_full offset sz) as Eo. rewrite Hc in Eo.
        set (k := (offset + i * sz) / (limit seg + 1)). rewrite Eo, Hq.
        destruct Hs as [-> | [-> | ->]]; [apply Z.mod_1_r | |]; apply Z.mod_divide; try lia.
        - exists (offset / 2 + i - 2 * q * k). lia.
        - exists (offset / 4 + i - q * k). lia. }
      set (a := (offset + i * sz) mod (limit seg + 1)) in *. pose proof (Z_div_mod_eq_full a sz) as Eq.
      destruct Hs as [-> | [-> | ->]]; lia.
Qed.

Lemma bad_limit_spec seg offset n sz :
  seg_ok seg -> sz = 1 \/ sz = 2 \/ sz = 4 -> 1 <= n -> n * sz <= 2 ^ 16 -> 0 <= offset < 2 ^ 32 ->
  bad_limit seg offset n sz = false <-> items_fit seg offset n sz.
Proof.
  intros Hok Hs Hn Ht Ho. pose proof Hok as [Hl Hx]. unfold bad_limit. rewrite (u32_small (n * sz - 1)) by lia.
  destruct (full_size seg) eqn:Hf.
  - assert (Hlim : 0xffff <= limit seg) by (unfold full_size in Hf; destruct (ar_x seg =? USE16); lia).
    pose proof Hf as Hf'. unfold full_size in Hf'. apply andb_prop in Hf'. destruct Hf' as [He El].
    apply negb_true_iff in He. rewrite He. rewrite (u32_small (limit seg - _)) by lia.
    replace (limit seg <? n * sz - 1) with false by lia. rewrite orb_false_r.
    destruct (Z.ltb_spec (limit seg) offset) as [Hbig | Hin].
    + split; [discriminate|]. intros [Hfit _]. unfold in_segment in Hfit. rewrite He in Hfit. lia.
    + rewrite full_fits by (assumption || lia). destruct (Z.ltb_spec (limit seg - (n * sz - 1)) offset).
      * destruct (Z.eqb_spec (offset mod sz) 0) as [E0 | E0]; cbn [negb].
        -- split; [auto|]. intros _. destruct (ar_x seg =? USE16); rewrite El; reflexivity.
        -- split; [discriminate|]. intros [|]; lia.
      * split; [left; lia | reflexivity].
  - rewrite block_fits by (assumption || lia). unfold in_segment. unfold full_size in Hf.
    destruct (Tlb.tst (ar_e seg)); cbn [negb andb] in Hf.
    + rewrite u32_small by (destruct (ar_x seg =? USE32); lia).
      destruct (ar_x seg =? USE32); rewrite orb_false_iff, Z.leb_gt, Z.ltb_ge; lia.
    + destruct (Z.ltb_spec (limit seg) offset); [split; [discriminate | lia]|].
      destruct (Z.ltb_spec (limit seg) (n * sz - 1)); [split; [discriminate | lia]|]. cbn [orb].
      rewrite u32_small by lia. destruct (Z.ltb_spec (limit seg - (n * sz - 1)) offset); [|split; [lia | reflexivity]].
      destruct (ar_x seg =? USE16); rewrite Hf; destruct (negb (offset mod sz =? 0)); split; try discriminate; lia.
Qed.


(** ** Witnesses *)

(** Registers and the rest of an instruction, for concrete runs. *)
#[local] Instance HasCpu_code : HasCpu (cpu * list Z).
Proof.
  refine {| the_cpu := fst; put_cpu := fun c s => (c, snd s) |}; intros; try destruct s; reflexivity.
Defined.

#[local] Instance Fetch_code : Fetch (cpu * list Z) :=
  {| GET_INST_BYTE := fun s => match snd s with
                               | b :: l => if (0 <=? b) && (b <? 2 ^ 8) then Ret b (fst s, l) else Undefined
                               | [] => Undefined
                               end |}.

#[local] Instance Fetch_code_laws : FetchLaws (cpu * list Z).
Proof.
  split. intros [c [|b0 l]] b s'; cbn [GET_INST_BYTE Fetch_code snd fst]; [discriminate|]. destruct (_ && _) eqn:E; [|discriminate].
  intros [= -> <-]. split; [exists (ip c); destruct c; reflexivity | lia].
Qed.

(** [EBP + ECX * 4 - 8] *)
Lemma effective_address_witness :
  d_mem 0x44 SEG_CLR (SET_GR A_EBP 0x1000 (SET_GR A_ECX 0x10 (SET_address_size 1 cpu0)), [0x8d; 0xf8; 0x90])
  = Ret (SS_REG, 0x1038) (SET_GR A_EBP 0x1000 (SET_GR A_ECX 0x10 (SET_address_size 1 cpu0)), [0x90]).
Proof.
  refine (effective_address 0x44 SEG_CLR 0x8d [0xf8] (_, [0x8d; 0xf8; 0x90]) (_, [0x90]) _ _ _ _).
  - right. reflexivity.
  - vm_compute. congruence.
  - cbn. eexists. split; [reflexivity|]. eexists. split; reflexivity.
  - reflexivity.
Defined.


End Addr.
