(* ===== verification/Stack.v ===== *)
(** * The stack and its instructions

    [c_stack.c]: stack pointer updates, pushes and pops, and the checks that come
    before them; [push.c], [pop.c], [pusha.c], [popa.c], [pushf.c], [popf.c],
    [enter.c], [leave.c], the segment register load of [mov.c] that POP uses, and the
    near calls and returns of [call.c] and [ret.c]. *)

From S2P Require Import Prelude Cpu Debug Arith Shift Xcptn MulDiv Mem Tlb Page Basic Seg Virt Addr.

Module Stack.
Import Xcptn Tlb Page Basic Seg Virt Addr.

(** ** The stack pointer and the frame pointer *)

Definition GET_SS_AR_X (c : cpu) : Z := ar_x (GET_SR SS_REG c).

Definition byte_change_SP (delta : Z) (c : cpu) : cpu :=
  if GET_SS_AR_X c =? USE32 then SET_GR A_ESP (u32 (GET_GR A_ESP c + delta)) c
  else SET_WR A_SP (u32 (GET_WR A_SP c + delta)) c.

Definition change_SP (items : Z) (c : cpu) : cpu :=
  let items := if operand_size c =? USE16 then items * 2 else items * 4 in
  if GET_SS_AR_X c =? USE32 then SET_GR A_ESP (u32 (GET_GR A_ESP c + items)) c
  else SET_WR A_SP (u32 (GET_WR A_SP c + items)) c.

Definition get_current_BP (c : cpu) : Z :=
  if GET_SS_AR_X c =? USE32 then GET_GR A_EBP c else GET_WR A_BP c.

Definition GetStackPointer (c : cpu) : Z :=
  if GET_SS_AR_X c =? USE32 then GET_GR A_ESP c else GET_WR A_SP c.

Definition set_current_BP (new_bp : Z) (c : cpu) : cpu :=
  if GET_SS_AR_X c =? USE32 then SET_GR A_EBP new_bp c else SET_WR A_BP new_bp c.

Definition set_current_SP (new_sp : Z) (c : cpu) : cpu :=
  if GET_SS_AR_X c =? USE32 then SET_GR A_ESP new_sp c else SET_WR A_SP new_sp c.

(** An offset in 32 or 16 bit arithmetic, by the size of the stack. *)
Definition stack_mask (offset : Z) (c : cpu) : Z :=
  if GET_SS_AR_X c =? 0 then offset .& WORD_MASK else offset.

Section Stack.
Context {P : Type} `{PhyMem P}.

Abbreviation X := (M exn (mach P)).

Definition stack_top (c : cpu) : Z := u32 (base (GET_SR SS_REG c) + GetStackPointer c).

Definition spop : X Z :=
  addr <- getc stack_top ;;
  sz <- getc operand_size ;;
  if sz =? USE16 then
    val <- vir_read_word addr NO_PHYSICAL_MAPPING ;;
    modc (byte_change_SP 2) ;; ret val
  else
    val <- vir_read_dword addr NO_PHYSICAL_MAPPING ;;
    modc (byte_change_SP 4) ;; ret val.

Definition spush (data : Z) : X unit :=
  sz <- getc operand_size ;;
  if sz =? USE16 then
    modc (byte_change_SP (-2)) ;;
    addr <- getc stack_top ;;
    vir_write_word addr NO_PHYSICAL_MAPPING (u16 data)
  else
    modc (byte_change_SP (-4)) ;;
    addr <- getc stack_top ;;
    vir_write_dword addr NO_PHYSICAL_MAPPING data.

Definition spush16 (data : Z) : X unit :=
  sz <- getc operand_size ;;
  if sz =? USE16 then
    modc (byte_change_SP (-2)) ;;
    addr <- getc stack_top ;;
    vir_write_word addr NO_PHYSICAL_MAPPING (u16 data)
  else
    modc (byte_change_SP (-4)) ;;
    addr <- getc stack_top ;;
    vir_write_word addr NO_PHYSICAL_MAPPING (u16 data).

Definition tpop (item_offset byte_offset : Z) : X Z :=
  c <- getc (fun c => c) ;;
  let offset := if operand_size c =? USE16 then item_offset * 2 + byte_offset else item_offset * 4 + byte_offset in
  let addr := stack_mask (u32 (GetStackPointer c + offset)) c in
  let addr := u32 (addr + base (GET_SR SS_REG c)) in
  if operand_size c =? USE16 then vir_read_word addr NO_PHYSICAL_MAPPING
  else vir_read_dword addr NO_PHYSICAL_MAPPING.

(** ** Checks *)

Definition op_bytes (c : cpu) : Z := if operand_size c =? USE16 then 2 else 4.

(** The paging checks of a new stack: no wrapping of the offset. *)
Fixpoint check_new_items (n : nat) (base offset : Z) (word : bool) : X unit :=
  match n with
  | O => ret tt
  | S n =>
      if word then spr_chk_word (u32 (base + offset)) PG_W ;; check_new_items n base (u32 (offset + 2)) word
      else spr_chk_dword (u32 (base + offset)) PG_W ;; check_new_items n base (u32 (offset + 4)) word
  end.

Definition validate_new_stack_space (nr_items stack_top : Z) (entry : CPU_DESCR) (stack_sel : Z) : X unit :=
  op <- getc operand_size ;;
  let bytes := if op =? USE16 then u32 (nr_items * 2) else u32 (nr_items * 4) in
  (if GET_AR_E (d_AR entry) =? 0 then
     when ((stack_top <? bytes) || (d_limit entry <? u32 (stack_top - 1))) (SF_fault 0)
   else
     let upper := if GET_AR_X (d_AR entry) =? USE16 then 0xffff else 0xffffffff in
     when ((stack_top <=? u32 (d_limit entry + bytes)) || (upper <? u32 (stack_top - 1))) (SF_fault 0)) ;;
  check_new_items (Z.to_nat nr_items) (d_base entry) (u32 (stack_top - bytes)) (op =? USE16).

(** The paging checks of the current stack. *)
Fixpoint check_items (n : nat) (offset access : Z) : X unit :=
  match n with
  | O => ret tt
  | S n =>
      c <- getc (fun c => c) ;;
      (if op_bytes c =? 2 then usr_chk_word (u32 (base (GET_SR SS_REG c) + offset)) access
       else usr_chk_dword (u32 (base (GET_SR SS_REG c) + offset)) access) ;;
      check_items n (stack_mask (u32 (offset + op_bytes c)) c) access
  end.

Definition stack_access_fault : X unit :=
  real <- getc real_or_v86 ;;
  if real then GP 0 else SF_fault 0.

Definition validate_stack_exists (use_bp : bool) (nr_items : Z) : X unit :=
  c <- getc (fun c => c) ;;
  let offset := if use_bp then get_current_BP c else GetStackPointer c in
  when (ar_r (GET_SR SS_REG c) =? 0) stack_access_fault ;;
  limit_check SS_REG offset nr_items (op_bytes c) ;;
  check_items (Z.to_nat nr_items) offset PG_R.

Definition validate_stack_space (use_bp : bool) (nr_items : Z) : X unit :=
  c <- getc (fun c => c) ;;
  let size := nr_items * - op_bytes c in
  let offset := if use_bp then get_current_BP c else GetStackPointer c in
  let offset := stack_mask (u32 (offset + size)) c in
  when (ar_w (GET_SR SS_REG c) =? 0) stack_access_fault ;;
  limit_check SS_REG offset nr_items (op_bytes c) ;;
  check_items (Z.to_nat nr_items) offset PG_W.

(** ** Instructions *)

Definition USE_SP : bool := false.
Definition USE_BP : bool := true.

Definition PUSH (op1 : Z) : X unit := validate_stack_space USE_SP 1 ;; spush op1.
Definition PUSH_SR (op1 : Z) : X unit := validate_stack_space USE_SP 1 ;; spush16 op1.

(** The popped value is the result. *)
Definition POP : X Z := validate_stack_exists USE_SP 1 ;; spop.

Definition MOV_SR (op1 op2 : Z) : X unit :=
  match op1 with
  | 3 | 0 | 4 | 5 => load_data_seg op1 (u16 op2)
  | 2 => load_stack_seg (u16 op2)
  | _ => ret tt
  end.

Definition POP_SR (op1 : Z) : X unit :=
  validate_stack_exists USE_SP 1 ;;
  op2 <- tpop 0 0 ;;
  let op2 := op2 .& WORD_MASK in
  MOV_SR op1 op2 ;;
  modc (change_SP 1).

Definition push_reg (i : Z) : X unit := x <- getc (GET_GR i) ;; spush x.

Definition PUSHA : X unit :=
  validate_stack_space USE_SP 8 ;;
  temp <- getc (GET_GR A_ESP) ;;
  push_reg A_EAX ;; push_reg A_ECX ;; push_reg A_EDX ;; push_reg A_EBX ;;
  spush temp ;;
  push_reg A_EBP ;; push_reg A_ESI ;; push_reg A_EDI.

Definition pop_word (i : Z) : X unit := x <- spop ;; modc (SET_WR i x).
Definition pop_dword (i : Z) : X unit := x <- spop ;; modc (SET_GR i x).

Definition POPA : X unit :=
  validate_stack_exists USE_SP 8 ;;
  pop_word A_DI ;; pop_word A_SI ;; pop_word A_BP ;; _ <- spop ;;
  pop_word A_BX ;; pop_word A_DX ;; pop_word A_CX ;; pop_word A_AX.

Definition POPAD : X unit :=
  validate_stack_exists USE_SP 8 ;;
  pop_dword A_EDI ;; pop_dword A_ESI ;; pop_dword A_EBP ;; _ <- spop ;;
  pop_dword A_EBX ;; pop_dword A_EDX ;; pop_dword A_ECX ;; pop_dword A_EAX.

Definition PUSHF : X unit :=
  validate_stack_space USE_SP 1 ;;
  flags <- getc c_getEFLAGS ;;
  let flags := flags .& not32 (BIT_MASK 17) in
  let flags := flags .& not32 (BIT_MASK 16) in
  spush flags.

Definition POPF : X unit :=
  validate_stack_exists USE_SP 1 ;;
  x <- spop ;; modc (setFLAGS x).

Definition POPFD : X unit :=
  validate_stack_exists USE_SP 1 ;;
  f <- getc fl ;;
  val <- spop ;;
  modc (c_setEFLAGS val) ;;
  modc (modify_fl (SET_VM (VM f))) ;;
  modc (modify_fl (SET_RF (RF f))).

(** The loop of ENTER copies [n] parameters, of which the first is [p_delta] and an
    item away from the frame. *)
Fixpoint enter_params (read : Z -> X Z) (size : Z) (n : nat) (p_delta : Z) : X unit :=
  match n with
  | O => ret tt
  | S n =>
      let p_delta := p_delta - size in
      c <- getc (fun c => c) ;;
      let p_addr := stack_mask (u32 (get_current_BP c + p_delta)) c in
      let p_addr := u32 (p_addr + base (GET_SR SS_REG c)) in
      param <- read p_addr ;;
      spush param ;;
      enter_params read size n p_delta
  end.

(** [ENTER16] and [ENTER32] differ in the frame pointer pushed and the size of a
    parameter. *)
Definition ENTER (get_BP : cpu -> Z) (read : Z -> X Z) (size op1 op2 : Z) : X unit :=
  let op2 := op2 .& 0x1f in
  validate_stack_space USE_SP (op2 + 1) ;;
  when (1 <? op2)
    (r <- getc (fun c => ar_r (GET_SR SS_REG c)) ;;
     when (r =? 0) (SF_fault 0) ;;
     validate_stack_space USE_BP (op2 - 1)) ;;
  bp <- getc get_BP ;;
  spush bp ;;
  frame_ptr <- getc GetStackPointer ;;
  when (0 <? op2)
    (enter_params read size (Z.to_nat (op2 - 1)) 0 ;;
     spush frame_ptr) ;;
  modc (set_current_BP frame_ptr) ;;
  when (tst op1) (modc (byte_change_SP (- op1))).

Definition ENTER16 : Z -> Z -> X unit := ENTER (GET_WR A_BP) (fun a => vir_read_word a NO_PHYSICAL_MAPPING) 2.
Definition ENTER32 : Z -> Z -> X unit := ENTER (GET_GR A_EBP) (fun a => vir_read_dword a NO_PHYSICAL_MAPPING) 4.

Definition LEAVE16 : X unit :=
  validate_stack_exists USE_BP 1 ;;
  bp <- getc (GET_GR A_EBP) ;;
  modc (set_current_SP bp) ;;
  new_bp <- spop ;;
  modc (SET_WR A_BP new_bp).

Definition LEAVE32 : X unit :=
  validate_stack_exists USE_BP 1 ;;
  bp <- getc (GET_GR A_EBP) ;;
  modc (set_current_SP bp) ;;
  new_bp <- spop ;;
  modc (SET_GR A_EBP new_bp).

Definition CALLN (offset : Z) : X unit :=
  validate_stack_space USE_SP 1 ;;
  eip <- getc ip ;;
  spush eip ;;
  modc (SET_ip offset).

Definition CALLR (rel_offset : Z) : X unit :=
  validate_stack_space USE_SP 1 ;;
  c <- getc (fun c => c) ;;
  let new_dest := u32 (ip c + rel_offset) in
  let new_dest := if operand_size c =? USE16 then new_dest .& WORD_MASK else new_dest in
  spush (ip c) ;;
  modc (SET_ip new_dest).

Definition RETN (op1 : Z) : X unit :=
  validate_stack_exists USE_SP 1 ;;
  new_ip <- tpop 0 0 ;;
  c <- getc (fun c => c) ;;
  when ((GET_PE c =? 1) && (VM (fl c) =? 0) && (limit (GET_SR CS_REG c) <? new_ip)) (GP 0) ;;
  modc (SET_ip new_ip) ;;
  modc (change_SP 1) ;;
  when (tst op1) (modc (byte_change_SP op1)).

End Stack.

(** ** The stack pointer *)

(** Stack offsets are below this. *)
Definition sp_top (c : cpu) : Z := if GET_SS_AR_X c =? USE32 then 2 ^ 32 else 2 ^ 16.

Lemma sp_range c : reg32 c -> 0 <= GetStackPointer c < sp_top c.
Proof.
  intros HR. unfold GetStackPointer, sp_top. destruct (_ =? _); [apply HR; unfold A_ESP; lia | apply u16_range].
Qed.

Lemma ss_gr i x c : GET_SS_AR_X (SET_GR i x c) = GET_SS_AR_X c.
Proof. reflexivity. Qed.
Lemma ss_wr i x c : GET_SS_AR_X (SET_WR i x c) = GET_SS_AR_X c.
Proof. reflexivity. Qed.

Lemma SET_GR_same i c : SET_GR i (GET_GR i c) c = c.
Proof. destruct c as [g]. destruct g. unfold SET_GR, GET_GR, SET_gr, upd_gr. cbn. destruct i as [|[[[]|[]|]|[[]|[]|]|]|]; reflexivity. Qed.

Lemma SET_GR_twice i x y c : SET_GR i x (SET_GR i y c) = SET_GR i x c.
Proof. destruct c as [g]. destruct g. unfold SET_GR, SET_gr, upd_gr. cbn. destruct i as [|[[[]|[]|]|[[]|[]|]|]|]; reflexivity. Qed.

Lemma SET_WR_same i c : 0 <= i < 8 -> SET_WR i (GET_WR i c) c = c.
Proof.
  intros Hi. unfold SET_WR, GET_WR. rewrite (u16_small (u16 _)) by apply u16_range.
  replace (_ - _ + _) with (GET_GR i c) by lia. apply SET_GR_same.
Qed.

(** Only the low half of the new value counts. *)
Lemma SET_WR_low i x c : SET_WR i x c = SET_WR i (u16 x) c.
Proof. unfold SET_WR. rewrite (u16_small (u16 x)) by apply u16_range. reflexivity. Qed.

Lemma low_half g x : u16 (g - u16 g + u16 x) = u16 x.
Proof.
  unfold u16 at 1. pose proof (Z_div_mod_eq_full g (2 ^ 16)) as E. fold (u16 g) in E.
  replace (g - u16 g + u16 x) with (u16 x + g / 2 ^ 16 * 2 ^ 16) by lia. rewrite Z_mod_plus_full. apply u16_small, u16_range.
Qed.

Lemma SET_WR_twice i x y c : 0 <= i < 8 -> SET_WR i x (SET_WR i y c) = SET_WR i x c.
Proof.
  intros Hi. unfold SET_WR. rewrite GET_SET_GR, Z.eqb_refl, SET_GR_twice by lia. f_equal. rewrite low_half. lia.
Qed.

Lemma sp_get x c : 0 <= x < sp_top c -> GetStackPointer (set_current_SP x c) = x.
Proof.
  unfold GetStackPointer, set_current_SP, sp_top. destruct (GET_SS_AR_X c =? USE32) eqn:E; intros Hx;
    rewrite ?ss_gr, ?ss_wr, E; [reflexivity|].
  destruct (GET_SET_WR A_SP x c) as [-> _]; [unfold A_SP; lia | apply u16_small, Hx].
Qed.

Lemma sp_set_get c : set_current_SP (GetStackPointer c) c = c.
Proof.
  unfold GetStackPointer, set_current_SP. destruct (_ =? _); [apply SET_GR_same | apply SET_WR_same; unfold A_SP; lia].
Qed.

Lemma sp_set_set x y c : set_current_SP x (set_current_SP y c) = set_current_SP x c.
Proof.
  unfold set_current_SP. destruct (GET_SS_AR_X c =? USE32) eqn:E; rewrite ?ss_gr, ?ss_wr, E;
    [apply SET_GR_twice | apply SET_WR_twice; unfold A_SP; lia].
Qed.

Lemma sp_change d c : 0 <= GetStackPointer c + d < sp_top c -> byte_change_SP d c = set_current_SP (GetStackPointer c + d) c.
Proof.
  unfold byte_change_SP, GetStackPointer, set_current_SP, sp_top. destruct (_ =? _); intros Hd;
    rewrite u32_small by lia; reflexivity.
Qed.

Lemma change_SP_bytes items c : change_SP items c = byte_change_SP (items * op_bytes c) c.
Proof. unfold change_SP, op_bytes. destruct (operand_size c =? USE16); reflexivity. Qed.

(** What the stack pointer does not touch. *)
Definition same_but_gr (c c' : cpu) : Prop := exists g, c' = SET_gr g c.

Lemma sp_gr x c : same_but_gr c (set_current_SP x c).
Proof. unfold set_current_SP. destruct (_ =? _); eexists; reflexivity. Qed.

Lemma GR_sp i x c : 0 <= i < 8 -> i <> 4 -> GET_GR i (set_current_SP x c) = GET_GR i c.
Proof.
  intros Hi Hn. unfold set_current_SP, SET_WR, A_ESP, A_SP. destruct (_ =? USE32); rewrite GET_SET_GR by lia;
    (destruct (Z.eqb_spec i 4); [contradiction | reflexivity]).
Qed.

Lemma reg32_sp x c : reg32 c -> 0 <= x < sp_top c -> reg32 (set_current_SP x c).
Proof.
  intros HR Hx i Hi. destruct (Z.eq_dec i 4) as [-> | Hn]; [|rewrite GR_sp by assumption; apply HR, Hi].
  unfold set_current_SP, sp_top in *. destruct (_ =? _).
  - change 4 with A_ESP. rewrite GET_SET_GR by (unfold A_ESP; lia). rewrite Z.eqb_refl. exact Hx.
  - unfold SET_WR. change 4 with A_SP. rewrite GET_SET_GR by (unfold A_SP; lia). rewrite Z.eqb_refl.
    pose proof (HR A_SP ltac:(unfold A_SP; lia)) as Hg. pose proof (u16_range x).
    pose proof (Z_div_mod_eq_full (GET_GR A_SP c) (2 ^ 16)) as E. fold (u16 (GET_GR A_SP c)) in E.
    pose proof (u16_range (GET_GR A_SP c)).
    assert (0 <= GET_GR A_SP c / 2 ^ 16 < 2 ^ 16) by (split; [apply Z.div_pos | apply Z.div_lt_upper_bound]; lia). lia.
Qed.

(** The size of an item. *)
Definition osz (c : cpu) : nat := if operand_size c =? USE16 then 2%nat else 4%nat.

Lemma op_bytes_osz c : op_bytes c = Z.of_nat (osz c).
Proof. unfold op_bytes, osz. destruct (_ =? _); reflexivity. Qed.

Lemma osz_range c : 2 <= Z.of_nat (osz c) <= 4.
Proof. unfold osz. destruct (_ =? _); lia. Qed.

(** ** Windows

    A part of the stack segment, from one offset up to another, that is RAM the
    current privilege may write, of at most a page and without wrapping. *)

Section Window.
Context {P : Type} `{PhyMemLaws P}.

Abbreviation sp s := (GetStackPointer (mcpu s)).
Abbreviation sbase s := (base (GET_SR SS_REG (mcpu s))).

Record window (lo hi : Z) (s : mach P) : Prop := {
  w_wf : lwf s;
  w_reg : reg32 (mcpu s);
  w_x : GET_SS_AR_X (mcpu s) = 0 \/ GET_SS_AR_X (mcpu s) = 1;
  w_bounds : 0 <= lo /\ hi <= sp_top (mcpu s) /\ hi - lo <= 2 ^ 12;
  w_base : 0 <= sbase s /\ sbase s + hi <= 2 ^ 32;
  w_use : lusable s PG_W (sbase s + lo) (Z.to_nat (hi - lo))
}.

(** The item at an offset. *)
Definition slot (s : mach P) (off : Z) (n : nat) : Z := lvalue s (sbase s + off) n.

(** At most the bytes from one offset to another were written. *)
Definition wrote (a b : Z) (s s' : mach P) : Prop := lframed (lbytes s (sbase s + a) (Z.to_nat (b - a))) s s'.

(** The segment, the mode and the rest of what the stack depends on. *)
Definition same_stack (s s' : mach P) : Prop :=
  GET_SR SS_REG (mcpu s') = GET_SR SS_REG (mcpu s) /\ CPL (mcpu s') = CPL (mcpu s).

Lemma window_step lo hi D s s' :
  window lo hi s -> lframed D s s' -> same_stack s s' -> reg32 (mcpu s') -> window lo hi s'.
Proof.
  intros [W1 W2 W3 W4 W5 W6] HF [ES EC] HR.
  split; auto; [apply HF | unfold GET_SS_AR_X in *; rewrite ES; exact W3
    | unfold sp_top, GET_SS_AR_X in *; rewrite ES; exact W4 | rewrite ES; exact W5|].
  rewrite ES. apply (lusable_framed _ _ _ _ _ _ HF EC W6).
Qed.

Lemma same_stack_refl s : same_stack s s.
Proof. split; reflexivity. Qed.

Lemma same_stack_trans s1 s2 s3 : same_stack s1 s2 -> same_stack s2 s3 -> same_stack s1 s3.
Proof. intros [A1 B1] [A2 B2]. split; congruence. Qed.

Lemma same_stack_gr s s' : same_but_gr (mcpu s) (mcpu s') -> same_stack s s'.
Proof. intros [g E]. unfold same_stack. rewrite E. split; reflexivity. Qed.

Lemma window_use lo hi s a n :
  window lo hi s -> lo <= a -> a + Z.of_nat n <= hi -> lusable s PG_W (sbase s + a) n.
Proof. intros HW Ha Hb. apply (lusable_sub _ _ _ _ _ _ (w_use _ _ _ HW)); lia. Qed.

Lemma window_range lo hi s a n :
  window lo hi s -> lo <= a -> a + Z.of_nat n <= hi -> lrange s (sbase s + a) n.
Proof. intros HW Ha Hb. apply (window_use lo hi s a n HW Ha Hb). Qed.

(** Linear addresses in the window do not wrap. *)
Lemma window_lin lo hi s a : window lo hi s -> lo <= a < hi -> u32 (sbase s + a) = sbase s + a.
Proof. intros HW Ha. destruct (w_base _ _ _ HW), (w_bounds _ _ _ HW). apply u32_small. lia. Qed.

(** What was written leaves the rest of the window alone. *)
Lemma slot_kept lo hi s s' a b off n :
  window lo hi s -> wrote a b s s' -> same_stack s s' -> lo <= a -> a <= b <= hi ->
  lo <= off -> off + Z.of_nat n <= hi -> off + Z.of_nat n <= a \/ b <= off ->
  slot s' off n = slot s off n.
Proof.
  intros HW HF [ES _] Ha Hb Ho Hn Hd. unfold slot. rewrite ES. destruct (w_bounds _ _ _ HW) as (_ & _ & Hlen).
  apply (lvalue_beside _ _ _ _ _ _ HF); [apply (window_range lo hi s); lia || exact HW.. | lia].
Qed.

Lemma slot_nothing lo hi s s' off n :
  window lo hi s -> lframed nothing s s' -> same_stack s s' -> lo <= off -> off + Z.of_nat n <= hi ->
  slot s' off n = slot s off n.
Proof.
  intros HW HF [ES _] Ho Hn. unfold slot. rewrite ES. apply (lvalue_framed _ _ _ _ _ HF); [|unfold nothing; auto].
  exact (window_range lo hi s off n HW Ho Hn).
Qed.

Lemma wrote_trans lo hi s1 s2 s3 a b a1 b1 a2 b2 :
  window lo hi s1 -> same_stack s1 s2 -> wrote a1 b1 s1 s2 -> wrote a2 b2 s2 s3 ->
  lo <= a -> b <= hi -> a <= a1 -> b1 <= b -> a <= a2 -> b2 <= b -> wrote a b s1 s3.
Proof.
  intros HW [ES _] F1 F2 Ha Hb H1 H2 H3 H4. apply (lframed_trans _ _ _ _ _ _ F1 F2). rewrite ES.
  intros x [(i & Hi & ->) | (i & Hi & ->)].
  - exists (a1 - a + i). split; [lia | f_equal; lia].
  - exists (a2 - a + i). split; [lia|]. replace (sbase s1 + a + (a2 - a + i)) with (sbase s1 + a2 + i) by lia.
    apply (lf_map _ _ _ F1). destruct (w_base _ _ _ HW), (w_bounds _ _ _ HW). lia.
Qed.

Lemma wrote_nothing a b s s' : lframed nothing s s' -> wrote a b s s'.
Proof. intros HF. apply (lframed_weaken _ _ _ _ HF). intros ? []. Qed.

(** Changes of registers other than the control registers. *)
Lemma put_framed c s : lwf s -> cr c = cr (mcpu s) -> lframed nothing s (put_cpu c s).
Proof. auto using lframed_cpu. Qed.

(** *** Pushing *)

(** The stack pointer goes down [k] bytes and [write] writes [n] bytes there. *)
Lemma push_run lo hi k (n : nat) write x s :
  window lo hi s -> lwrite n (fun a => write a NO_PHYSICAL_MAPPING) -> 0 < Z.of_nat n <= k ->
  lo <= sp s - k -> sp s <= hi -> 0 <= x < 2 ^ (8 * Z.of_nat n) ->
  exists s', (modc (byte_change_SP (- k)) ;; addr <- getc stack_top ;; write addr NO_PHYSICAL_MAPPING x) s = Ret tt s'
  /\ mcpu s' = set_current_SP (sp s - k) (mcpu s)
  /\ slot s' (sp s - k) n = x /\ wrote (sp s - k) (sp s) s s' /\ same_stack s s' /\ window lo hi s'.
Proof.
  intros HW Hwr Hn Hlo Hhi Hx. pose proof (sp_range _ (w_reg _ _ _ HW)) as Hsp. destruct (w_bounds _ _ _ HW) as (B0 & B1 & _).
  rewrite modc_bind. cbn [the_cpu HasCpu_mach]. rewrite sp_change by lia.
  replace (sp s + - k) with (sp s - k) by lia. set (c1 := set_current_SP _ _).
  destruct (sp_gr (sp s - k) (mcpu s)) as [g Eg]. fold c1 in Eg.
  assert (F0 : lframed nothing s (put_cpu c1 s)) by (apply put_framed; [apply HW | rewrite Eg; reflexivity]).
  assert (S0 : same_stack s (put_cpu c1 s)) by (apply same_stack_gr; exists g; exact Eg).
  assert (W0 : window lo hi (put_cpu c1 s)).
  { apply (window_step _ _ _ _ _ HW F0 S0). apply reg32_sp; [apply HW | lia]. }
  rewrite getc_bind. cbn [the_cpu HasCpu_mach]. change (mcpu (put_cpu c1 s)) with c1. unfold stack_top.
  assert (Esp : GetStackPointer c1 = sp s - k) by (apply sp_get; lia). rewrite Esp.
  assert (Eb : base (GET_SR SS_REG c1) = sbase s) by (rewrite Eg; reflexivity). rewrite Eb.
  rewrite (window_lin lo hi s) by (exact HW || lia).
  destruct (Hwr (put_cpu c1 s) (sbase s + (sp s - k)) x) as (s' & E & C & V & F);
    [apply F0 | rewrite <- Eb; exact (window_range lo hi (put_cpu c1 s) (sp s - k) n W0 ltac:(lia) ltac:(lia)) | exact Hx |].
  change (mcpu (put_cpu c1 s)) with c1 in C.
  assert (S1 : same_stack s s') by (apply same_stack_gr; exists g; rewrite C; exact Eg).
  assert (F1 : wrote (sp s - k) (sp s) s s').
  { unfold wrote. apply (lframed_weaken (lbytes (put_cpu c1 s) (sbase s + (sp s - k)) n)); [exact (lframed_then _ _ _ _ F0 F)|].
    intros b Hb. apply (lbytes_framed _ _ _ _ _ _ F0) in Hb; [|apply (window_range lo hi s _ _ HW); lia].
    destruct Hb as (i & Hi & ->). exists i. split; [lia | reflexivity]. }
  exists s'. split; [exact E|]. split; [exact C|]. split; [unfold slot; rewrite C, Eb; exact V|].
  split; [exact F1|]. split; [exact S1|]. apply (window_step _ _ _ _ _ HW F1 S1). rewrite C. apply reg32_sp; [apply HW | lia].
Qed.

Definition low (c : cpu) (x : Z) : Z := x mod 2 ^ (8 * Z.of_nat (osz c)).

Lemma spush_run lo hi x s :
  window lo hi s -> lo <= sp s - Z.of_nat (osz (mcpu s)) -> sp s <= hi -> 0 <= x < 2 ^ 32 ->
  let n := osz (mcpu s) in
  exists s', spush x s = Ret tt s' /\ mcpu s' = set_current_SP (sp s - Z.of_nat n) (mcpu s)
  /\ slot s' (sp s - Z.of_nat n) n = low (mcpu s) x /\ wrote (sp s - Z.of_nat n) (sp s) s s' /\ same_stack s s' /\ window lo hi s'.
Proof.
  intros HW Hlo Hhi Hx n. unfold spush. rewrite getc_bind. cbn [the_cpu HasCpu_mach]. unfold low, n, osz in *.
  destruct (operand_size (mcpu s) =? USE16).
  - apply (push_run lo hi 2 2 vir_write_word); auto using vir_write_word_l; [lia | apply u16_range].
  - change (8 * Z.of_nat 4) with 32. rewrite (Z.mod_small x) by exact Hx.
    apply (push_run lo hi 4 4 vir_write_dword); auto using vir_write_dword_l; lia.
Qed.

Lemma spush16_run lo hi x s :
  window lo hi s -> lo <= sp s - Z.of_nat (osz (mcpu s)) -> sp s <= hi ->
  let n := osz (mcpu s) in
  exists s', spush16 x s = Ret tt s' /\ mcpu s' = set_current_SP (sp s - Z.of_nat n) (mcpu s)
  /\ slot s' (sp s - Z.of_nat n) 2 = u16 x /\ wrote (sp s - Z.of_nat n) (sp s) s s' /\ same_stack s s' /\ window lo hi s'.
Proof.
  intros HW Hlo Hhi n. unfold spush16. rewrite getc_bind. cbn [the_cpu HasCpu_mach]. unfold n, osz in *.
  destruct (operand_size (mcpu s) =? USE16).
  - apply (push_run lo hi 2 2 vir_write_word); auto using vir_write_word_l; [lia | apply u16_range].
  - apply (push_run lo hi 4 2 vir_write_word); auto using vir_write_word_l; [lia | apply u16_range].
Qed.

(** *** Reading *)

Lemma read_slot lo hi n read off s :
  window lo hi s -> lread n (fun a => read a NO_PHYSICAL_MAPPING) -> lo <= off -> off + Z.of_nat n <= hi -> (0 < n)%nat ->
  exists s', read (u32 (sbase s + off)) NO_PHYSICAL_MAPPING s = Ret (slot s off n) s'
  /\ mcpu s' = mcpu s /\ lframed nothing s s' /\ window lo hi s'.
Proof.
  intros HW Hrd Ha Hb Hn. rewrite (window_lin lo hi s) by (exact HW || lia).
  destruct (Hrd s (sbase s + off)) as (s' & E & C & F); [apply HW | exact (window_range lo hi s off n HW Ha Hb)|].
  exists s'. split; [exact E|]. split; [exact C|]. split; [exact F|].
  apply (window_step _ _ _ _ _ HW F); [split; rewrite C; reflexivity | rewrite C; apply HW].
Qed.

(** The stack pointer goes up after a read. *)
Lemma sp_up lo hi s d :
  window lo hi s -> 0 <= d -> sp s + d <= hi -> sp s + d < sp_top (mcpu s) ->
  let s' := put_cpu (set_current_SP (sp s + d) (mcpu s)) s in
  modc (E := exn) (byte_change_SP d) s = Ret tt s' /\ lframed nothing s s' /\ same_stack s s' /\ window lo hi s'.
Proof.
  intros HW Hd Hhi Ht. pose proof (sp_range _ (w_reg _ _ _ HW)). unfold modc, modify. cbn [the_cpu HasCpu_mach].
  rewrite sp_change by lia. set (s' := put_cpu _ s). split; [reflexivity|].
  destruct (sp_gr (sp s + d) (mcpu s)) as [g Eg].
  assert (F : lframed nothing s s') by (apply put_framed; [apply HW | rewrite Eg; reflexivity]).
  assert (S : same_stack s s') by (apply same_stack_gr; exists g; exact Eg).
  split; [exact F|]. split; [exact S|]. apply (window_step _ _ _ _ _ HW F S), reg32_sp; [apply HW | lia].
Qed.

Lemma spop_run lo hi s :
  window lo hi s -> lo <= sp s -> sp s + Z.of_nat (osz (mcpu s)) <= hi -> sp s + Z.of_nat (osz (mcpu s)) < sp_top (mcpu s) ->
  let n := osz (mcpu s) in
  exists s', spop s = Ret (slot s (sp s) n) s' /\ mcpu s' = set_current_SP (sp s + Z.of_nat n) (mcpu s)
  /\ lframed nothing s s' /\ same_stack s s' /\ window lo hi s'.
Proof.
  intros HW Hlo Hhi Ht n. unfold spop. rewrite !getc_bind. cbn [the_cpu HasCpu_mach]. unfold stack_top.
  assert (Hgo : forall read, lread n (fun a => read a NO_PHYSICAL_MAPPING) ->
    exists s', (val <- read (u32 (sbase s + sp s)) NO_PHYSICAL_MAPPING ;; modc (byte_change_SP (Z.of_nat n)) ;; ret val) s
      = Ret (slot s (sp s) n) s' /\ mcpu s' = set_current_SP (sp s + Z.of_nat n) (mcpu s)
    /\ lframed nothing s s' /\ same_stack s s' /\ window lo hi s').
  { intros read Hrd. pose proof (osz_range (mcpu s)) as Hn. fold n in Hn, Hhi, Ht.
    destruct (read_slot lo hi n read (sp s) s HW Hrd) as (s1 & E1 & C1 & F1 & W1); [lia..|].
    rewrite (bind_ret _ _ _ _ _ E1). destruct (sp_up lo hi s1 (Z.of_nat n) W1) as (E2 & F2 & S2 & W2); rewrite ?C1; try lia.
    rewrite (bind_ret _ _ _ _ _ E2), C1. eexists. split; [reflexivity|]. split; [reflexivity|].
    rewrite C1 in *. split; [exact (lframed_then _ _ _ _ F1 F2)|]. split; [|exact W2].
    apply (same_stack_trans _ s1); [split; rewrite C1; reflexivity | exact S2]. }
  unfold n, osz in *. destruct (operand_size (mcpu s) =? USE16); apply Hgo; [apply vir_read_word_l | apply vir_read_dword_l].
Qed.

Lemma tpop_run lo hi item byte s :
  let n := osz (mcpu s) in let off := sp s + item * Z.of_nat n + byte in
  window lo hi s -> lo <= off -> off + Z.of_nat n <= hi ->
  exists s', tpop item byte s = Ret (slot s off n) s' /\ mcpu s' = mcpu s /\ lframed nothing s s' /\ window lo hi s'.
Proof.
  intros n off HW Hlo Hhi. unfold tpop. rewrite getc_bind. cbn [the_cpu HasCpu_mach].
  destruct (w_bounds _ _ _ HW) as (B0 & B1 & _). pose proof (osz_range (mcpu s)) as Hn. fold n in Hn.
  assert (Ho : 0 <= off < 2 ^ 32 /\ stack_mask off (mcpu s) = off).
  { unfold sp_top in B1. unfold stack_mask. destruct (w_x _ _ _ HW) as [Ex | Ex]; rewrite Ex in *.
    - change (hi <= 2 ^ 16) in B1. change WORD_MASK with (2 ^ 16 - 1). cbn [Z.eqb]. rewrite land_mask, Z.mod_small by lia. lia.
    - change (hi <= 2 ^ 32) in B1. split; [lia | reflexivity]. }
  replace (if operand_size (mcpu s) =? USE16 then _ else _) with (item * Z.of_nat n + byte)
    by (unfold n, osz; destruct (_ =? _); reflexivity).
  replace (sp s + (item * Z.of_nat n + byte)) with off by (unfold off; lia).
  rewrite (u32_small off), (proj2 Ho), (Z.add_comm off) by apply Ho.
  unfold n, osz in *. destruct (operand_size (mcpu s) =? USE16);
    [apply (read_slot lo hi 2 vir_read_word); auto using vir_read_word_l
    | apply (read_slot lo hi 4 vir_read_dword); auto using vir_read_dword_l]; lia.
Qed.

(** *** The checks *)

(** The limit lets [nr] items at the offset through. *)
Definition limit_ok (c : cpu) (off nr : Z) : Prop :=
  real_or_v86 c = true \/ bad_limit (GET_SR SS_REG c) off nr (op_bytes c) = false.

Lemma limit_run off nr (s : mach P) :
  limit_ok (mcpu s) off nr -> limit_check SS_REG off nr (op_bytes (mcpu s)) s = Ret tt s.
Proof.
  intros HL. unfold limit_check. rewrite !getc_bind. cbn [the_cpu HasCpu_mach].
  destruct (real_or_v86 (mcpu s)) eqn:E; [reflexivity|]. destruct HL as [HL | HL]; [congruence|]. rewrite HL. reflexivity.
Qed.

Lemma mask_small lo hi s off : window lo hi s -> lo <= off < hi -> stack_mask (u32 off) (mcpu s) = off.
Proof.
  intros HW Ho. destruct (w_bounds _ _ _ HW) as (B0 & B1 & _). unfold sp_top in B1. unfold stack_mask.
  destruct (w_x _ _ _ HW) as [Ex | Ex]; rewrite Ex in *.
  - change (hi <= 2 ^ 16) in B1. change WORD_MASK with (2 ^ 16 - 1). cbn [Z.eqb]. rewrite u32_small, land_mask, Z.mod_small; lia.
  - change (hi <= 2 ^ 32) in B1. cbn [Z.eqb]. apply u32_small. lia.
Qed.

Lemma check_items_run lo hi access k : access = PG_R \/ access = PG_W -> forall off s,
  window lo hi s -> lo <= off -> off + Z.of_nat k * Z.of_nat (osz (mcpu s)) <= hi ->
  exists s', check_items k off access s = Ret tt s' /\ mcpu s' = mcpu s /\ lframed nothing s s' /\ window lo hi s'.
Proof.
  intros Ha. induction k as [|k IH]; intros off s HW Hlo Hhi.
  { exists s. split; [reflexivity|]. split; [reflexivity|]. split; [apply lframed_refl, HW | exact HW]. }
  cbn [check_items]. rewrite getc_bind. cbn [the_cpu HasCpu_mach]. pose proof (osz_range (mcpu s)) as Hn.
  rewrite (window_lin lo hi s) by (exact HW || nia).
  assert (HU : lusable s access (sbase s + off) (osz (mcpu s))).
  { pose proof (window_use lo hi s off (osz (mcpu s)) HW Hlo ltac:(nia)) as HU. destruct Ha as [-> | ->]; [apply lusable_read|]; exact HU. }
  assert (Hc : exists v s1, (if op_bytes (mcpu s) =? 2 then usr_chk_word (sbase s + off) access
      else usr_chk_dword (sbase s + off) access) s = Ret v s1 /\ mcpu s1 = mcpu s /\ lframed nothing s s1).
  { rewrite op_bytes_osz. unfold osz in *. destruct (operand_size (mcpu s) =? USE16); cbn [Z.of_nat Z.eqb].
    - destruct (usr_chk_word_l s access (sbase s + off) Ha (w_wf _ _ _ HW) HU) as (v & s1 & E & _ & C & F). eauto.
    - destruct (usr_chk_dword_l s access (sbase s + off) Ha (w_wf _ _ _ HW) HU) as (v & s1 & E & _ & C & F). eauto. }
  destruct Hc as (v & s1 & E1 & C1 & F1). rewrite (bind_ret _ _ _ _ _ E1).
  assert (W1 : window lo hi s1) by (apply (window_step _ _ _ _ _ HW F1); [split; rewrite C1; reflexivity | rewrite C1; apply HW]).
  destruct k as [|k].
  { exists s1. auto. }
  rewrite op_bytes_osz, (mask_small lo hi s) by (exact HW || nia).
  destruct (IH (off + Z.of_nat (osz (mcpu s))) s1 W1) as (s2 & E2 & C2 & F2 & W2); [lia | rewrite C1; nia |].
  exists s2. split; [exact E2|]. split; [congruence|]. split; [exact (lframed_then _ _ _ _ F1 F2) | exact W2].
Qed.

Definition from (use_bp : bool) (c : cpu) : Z := if use_bp then get_current_BP c else GetStackPointer c.

Lemma space_run lo hi use_bp nr s :
  let off := from use_bp (mcpu s) - nr * Z.of_nat (osz (mcpu s)) in
  window lo hi s -> 1 <= nr -> lo <= off -> from use_bp (mcpu s) <= hi ->
  ar_w (GET_SR SS_REG (mcpu s)) <> 0 -> limit_ok (mcpu s) off nr ->
  exists s', validate_stack_space use_bp nr s = Ret tt s' /\ mcpu s' = mcpu s /\ lframed nothing s s' /\ window lo hi s'.
Proof.
  intros off HW Hnr Hlo Hhi Hw HL. unfold validate_stack_space. rewrite getc_bind. cbn [the_cpu HasCpu_mach].
  fold (from use_bp (mcpu s)). pose proof (osz_range (mcpu s)).
  replace (from use_bp (mcpu s) + nr * - op_bytes (mcpu s)) with off by (unfold off; rewrite op_bytes_osz; lia).
  rewrite (mask_small lo hi s) by (exact HW || (unfold off in *; nia)).
  replace (ar_w (GET_SR SS_REG (mcpu s)) =? 0) with false by lia. unfold when, bind at 1, ret at 1.
  rewrite (bind_ret _ _ _ _ _ (limit_run off nr s HL)).
  apply (check_items_run lo hi PG_W _ (or_intror eq_refl)); [exact HW | exact Hlo | unfold off; lia].
Qed.

Lemma exists_run lo hi use_bp nr s :
  let off := from use_bp (mcpu s) in
  window lo hi s -> 0 <= nr -> lo <= off -> off + nr * Z.of_nat (osz (mcpu s)) <= hi ->
  ar_r (GET_SR SS_REG (mcpu s)) <> 0 -> limit_ok (mcpu s) off nr ->
  exists s', validate_stack_exists use_bp nr s = Ret tt s' /\ mcpu s' = mcpu s /\ lframed nothing s s' /\ window lo hi s'.
Proof.
  intros off HW Hnr Hlo Hhi Hr HL. unfold validate_stack_exists. rewrite getc_bind. cbn [the_cpu HasCpu_mach].
  fold (from use_bp (mcpu s)). fold off.
  replace (ar_r (GET_SR SS_REG (mcpu s)) =? 0) with false by lia. unfold when, bind at 1, ret at 1.
  rewrite (bind_ret _ _ _ _ _ (limit_run off nr s HL)).
  apply (check_items_run lo hi PG_R _ (or_introl eq_refl)); [exact HW | exact Hlo | lia].
Qed.

(** *** Several items *)

(** [s] came from [s1] by moving the stack pointer of [c0] to [y]. *)
Record moved (lo hi : Z) (c0 : cpu) (s1 : mach P) (y : Z) (s : mach P) : Prop := {
  mv_cpu : mcpu s = set_current_SP y c0;
  mv_frame : lframed nothing s1 s;
  mv_stack : same_stack s1 s;
  mv_window : window lo hi s;
  mv_sp : 0 <= y < sp_top c0
}.

Lemma osz_sp y c : osz (set_current_SP y c) = osz c.
Proof. destruct (sp_gr y c) as [g ->]. reflexivity. Qed.

Lemma sp_top_sp y c : sp_top (set_current_SP y c) = sp_top c.
Proof. destruct (sp_gr y c) as [g ->]. reflexivity. Qed.

Lemma moved_sp lo hi c0 s1 y s : moved lo hi c0 s1 y s -> sp s = y.
Proof. intros HM. rewrite (mv_cpu _ _ _ _ _ _ HM). apply sp_get, HM. Qed.

Lemma moved_slot lo hi c0 s1 y s off n :
  window lo hi s1 -> moved lo hi c0 s1 y s -> lo <= off -> off + Z.of_nat n <= hi -> slot s off n = slot s1 off n.
Proof. intros HW HM Ha Hb. exact (slot_nothing lo hi s1 s off n HW (mv_frame _ _ _ _ _ _ HM) (mv_stack _ _ _ _ _ _ HM) Ha Hb). Qed.

Lemma moved_trans lo hi c0 s1 y s s' :
  moved lo hi c0 s1 y s -> mcpu s' = mcpu s -> lframed nothing s s' -> window lo hi s' -> moved lo hi c0 s1 y s'.
Proof.
  intros HM C F W. split; [rewrite C; apply HM | exact (lframed_then _ _ _ _ (mv_frame _ _ _ _ _ _ HM) F) | | exact W | apply HM].
  apply (same_stack_trans _ s); [apply HM | split; rewrite C; reflexivity].
Qed.

Lemma pop_skip lo hi c0 s1 y s :
  let n := osz c0 in
  window lo hi s1 -> moved lo hi c0 s1 y s -> lo <= y -> y + Z.of_nat n <= hi -> y + Z.of_nat n < sp_top c0 ->
  exists s', spop s = Ret (slot s1 y n) s' /\ moved lo hi c0 s1 (y + Z.of_nat n) s'.
Proof.
  intros n HW HM Hlo Hhi Ht. pose proof (mv_cpu _ _ _ _ _ _ HM) as C. pose proof (moved_sp _ _ _ _ _ _ HM) as Y.
  destruct (spop_run lo hi s (mv_window _ _ _ _ _ _ HM)) as (s' & E & C' & F & S & W); rewrite ?Y, ?C, ?osz_sp, ?sp_top_sp; try lia.
  rewrite C, osz_sp, Y in *. fold n in E, C'. rewrite sp_set_set in C'. rewrite (moved_slot _ _ _ _ _ _ _ _ HW HM) in E by assumption.
  exists s'. split; [exact E|].
  split; [exact C' | exact (lframed_then _ _ _ _ (mv_frame _ _ _ _ _ _ HM) F)
    | exact (same_stack_trans _ _ _ (mv_stack _ _ _ _ _ _ HM) S) | exact W | pose proof (mv_sp _ _ _ _ _ _ HM); lia].
Qed.

(** A pop into a register that has the value already. *)
Lemma pop_step lo hi c0 s1 y s (g : Z -> cpu -> cpu) :
  let n := osz c0 in
  window lo hi s1 -> moved lo hi c0 s1 y s -> lo <= y -> y + Z.of_nat n <= hi -> y + Z.of_nat n < sp_top c0 ->
  g (slot s1 y n) (set_current_SP (y + Z.of_nat n) c0) = set_current_SP (y + Z.of_nat n) c0 ->
  exists s', (x <- spop ;; modc (g x)) s = Ret tt s' /\ moved lo hi c0 s1 (y + Z.of_nat n) s'.
Proof.
  intros n HW HM Hlo Hhi Ht Hg. destruct (pop_skip lo hi c0 s1 y s HW HM Hlo Hhi Ht) as (s' & E & HM'). fold n in E, HM'.
  pose proof (mv_cpu _ _ _ _ _ _ HM') as C'. rewrite (bind_ret _ _ _ _ _ E). unfold modc, modify. cbn [the_cpu HasCpu_mach].
  rewrite C', Hg, <- C'. change (put_cpu (mcpu s') s') with (put_cpu (the_cpu s') s'). rewrite put_the. exists s'. auto.
Qed.

(** The items from an offset up. *)
Fixpoint holds (n : nat) (s : mach P) (y : Z) (l : list Z) : Prop :=
  match l with
  | [] => True
  | x :: l => slot s y n = x /\ holds n s (y + Z.of_nat n) l
  end.

Lemma holds_kept n s s' hi l : forall y,
  (forall off, y <= off -> off + Z.of_nat n <= hi -> slot s' off n = slot s off n) ->
  y + Z.of_nat (length l) * Z.of_nat n <= hi -> holds n s y l -> holds n s' y l.
Proof.
  induction l as [|x l IH]; intros y Hk Hhi; cbn [holds length] in *; [auto|]. intros [Hx Hl]. split.
  - rewrite Hk by nia. exact Hx.
  - apply IH; [intros off H1 H2; apply Hk; lia | nia | exact Hl].
Qed.

(** [s] came from [s0] by pushing the items of [l], the last one first, of [n] bytes each. *)
Record pushed (lo hi : Z) (s0 : mach P) (y : Z) (l : list Z) (s : mach P) : Prop := {
  pu_cpu : mcpu s = set_current_SP y (mcpu s0);
  pu_wrote : wrote y (sp s0) s0 s;
  pu_stack : same_stack s0 s;
  pu_window : window lo hi s;
  pu_window0 : window lo hi s0;
  pu_sp : y + Z.of_nat (length l) * Z.of_nat (osz (mcpu s0)) = sp s0;
  pu_bounds : lo <= y /\ sp s0 <= hi;
  pu_items : holds (osz (mcpu s0)) s y l
}.

Lemma pushed_none lo hi s : window lo hi s -> lo <= sp s <= hi -> pushed lo hi s (sp s) [] s.
Proof.
  intros HW Hb. split; try assumption; cbn [length holds]; auto; try lia.
  - symmetry. apply sp_set_get.
  - apply wrote_nothing, lframed_refl, HW.
  - apply same_stack_refl.
Qed.

Lemma push_step lo hi s0 y l s x :
  let n := osz (mcpu s0) in
  pushed lo hi s0 y l s -> lo <= y - Z.of_nat n -> 0 <= x < 2 ^ 32 ->
  exists s', spush x s = Ret tt s' /\ pushed lo hi s0 (y - Z.of_nat n) (low (mcpu s0) x :: l) s'.
Proof.
  intros n [C F S W W0 Hy [Hb0 Hb1] Hl] Hlo Hx. pose proof (osz_range (mcpu s0)) as Hn. fold n in Hn, Hy, Hl.
  pose proof (sp_range _ (w_reg _ _ _ W0)) as Hsp.
  assert (Y : sp s = y) by (rewrite C; apply sp_get; destruct (w_bounds _ _ _ W0); nia).
  destruct (spush_run lo hi x s W) as (s' & E & C' & V & F' & S' & W'); rewrite ?Y, ?C, ?osz_sp; fold n; try nia; try exact Hx.
  rewrite C, osz_sp, Y in *. fold n in C', V, F'. rewrite sp_set_set in C'. exists s'. split; [exact E|].
  assert (Hlow : low (set_current_SP y (mcpu s0)) x = low (mcpu s0) x) by (unfold low; rewrite osz_sp; reflexivity).
  rewrite Hlow in V. split; cbn [length holds]; fold n; auto; try nia.
  - apply (wrote_trans lo hi s0 s s' _ _ y (sp s0) (y - Z.of_nat n) y W0 S F F'); nia.
  - exact (same_stack_trans _ _ _ S S').
  - split; [exact V|]. replace (y - Z.of_nat n + Z.of_nat n) with y by lia.
    apply (holds_kept n s s' hi l y); [|nia | exact Hl].
    intros off H1 H2. apply (slot_kept lo hi s s' (y - Z.of_nat n) y off n W F' S'); nia.
Qed.

End Window.

(** A pushed state is where the pops start. *)
Lemma pushed_moved {P} `{PhyMemLaws P} lo hi (s0 : mach P) y l s :
  pushed lo hi s0 y l s -> moved lo hi (mcpu s0) s y s.
Proof.
  intros [C F S W W0 Hy [Hb0 Hb1] Hl]. pose proof (sp_range _ (w_reg _ _ _ W0)). pose proof (osz_range (mcpu s0)).
  split; [exact C | apply lframed_refl, W | apply same_stack_refl | exact W|]. destruct (w_bounds _ _ _ W0). nia.
Qed.

Section Instructions.
Context {P : Type} `{PhyMemLaws P}.

Abbreviation sp s := (GetStackPointer (mcpu s)).

(** The stack can be read and written. *)
Record stack_ready (lo hi : Z) (s : mach P) : Prop := {
  sr_window : window lo hi s;
  sr_r : ar_r (GET_SR SS_REG (mcpu s)) <> 0;
  sr_w : ar_w (GET_SR SS_REG (mcpu s)) <> 0
}.

Lemma limit_ok_sp y c off nr : limit_ok (set_current_SP y c) off nr <-> limit_ok c off nr.
Proof. destruct (sp_gr y c) as [g ->]. reflexivity. Qed.

Lemma ready_pushed lo hi s0 y l s : stack_ready lo hi s0 -> pushed lo hi s0 y l s -> stack_ready lo hi s.
Proof. intros [_ R W] [C F S HW _ _ _ _]. destruct S as [ES _]. split; [exact HW | rewrite ES; assumption..]. Qed.

(** Room for [nr] items is checked, then they are pushed. *)
Lemma space_pushed lo hi nr s :
  stack_ready lo hi s -> 1 <= nr -> lo <= sp s - nr * Z.of_nat (osz (mcpu s)) -> sp s <= hi ->
  limit_ok (mcpu s) (sp s - nr * Z.of_nat (osz (mcpu s))) nr ->
  exists s', validate_stack_space USE_SP nr s = Ret tt s' /\ mcpu s' = mcpu s /\ lframed nothing s s'
  /\ pushed lo hi s' (sp s') [] s'.
Proof.
  intros [HW HR Hw] Hn Hlo Hhi HL.
  destruct (space_run lo hi USE_SP nr s HW Hn Hlo Hhi Hw HL) as (s' & E & C & F & W). exists s'.
  split; [exact E|]. split; [exact C|]. split; [exact F|]. apply pushed_none; [exact W|]. rewrite C.
  pose proof (osz_range (mcpu s)). nia.
Qed.

(** Items on the stack are checked, then they are popped. *)
Lemma exists_moved lo hi nr s0 y l s :
  stack_ready lo hi s0 -> pushed lo hi s0 y l s -> nr = Z.of_nat (length l) -> limit_ok (mcpu s0) y nr ->
  exists s', validate_stack_exists USE_SP nr s = Ret tt s' /\ moved lo hi (mcpu s0) s y s'.
Proof.
  intros HR HP -> HL. pose proof (pushed_moved _ _ _ _ _ _ HP) as HM. destruct (ready_pushed _ _ _ _ _ _ HR HP) as [W R _].
  destruct (pu_bounds _ _ _ _ _ _ HP) as [B0 B1]. pose proof (pu_sp _ _ _ _ _ _ HP) as Hy.
  pose proof (moved_sp _ _ _ _ _ _ HM) as Y. pose proof (mv_cpu _ _ _ _ _ _ HM) as C.
  destruct (exists_run lo hi USE_SP (Z.of_nat (length l)) s W) as (s' & E & C' & F & W');
    unfold from, USE_SP; rewrite ?Y; try lia; try assumption.
  - rewrite C, osz_sp. nia.
  - rewrite C. apply limit_ok_sp. exact HL.
  - exists s'. split; [exact E|]. exact (moved_trans _ _ _ _ _ _ _ HM C' F W').
Qed.

Lemma push_reg_step lo hi s0 y l s i :
  let n := osz (mcpu s0) in
  pushed lo hi s0 y l s -> lo <= y - Z.of_nat n -> 0 <= i < 8 -> i <> 4 ->
  exists s', push_reg i s = Ret tt s' /\ pushed lo hi s0 (y - Z.of_nat n) (low (mcpu s0) (GET_GR i (mcpu s0)) :: l) s'.
Proof.
  intros n HP Hlo Hi Hne.
  assert (E : GET_GR i (mcpu s) = GET_GR i (mcpu s0)) by (rewrite (pu_cpu _ _ _ _ _ _ HP); apply GR_sp; assumption).
  destruct (push_step lo hi s0 y l s (GET_GR i (mcpu s0)) HP Hlo) as (s' & Es & HP').
  - apply (w_reg _ _ _ (pu_window0 _ _ _ _ _ _ HP)), Hi.
  - exists s'. split; [|exact HP']. unfold push_reg. rewrite getc_bind. cbn [the_cpu HasCpu_mach]. rewrite E. exact Es.
Qed.

(** A pop into a general register, of either size. *)
Definition pop_reg (word : bool) (i : Z) : M exn (mach P) unit := if word then pop_word i else pop_dword i.

Lemma pop_reg_step lo hi c0 s1 y s i :
  let n := osz c0 in
  window lo hi s1 -> moved lo hi c0 s1 y s -> lo <= y -> y + Z.of_nat n <= hi -> y + Z.of_nat n < sp_top c0 ->
  reg32 c0 -> 0 <= i < 8 -> i <> 4 -> slot s1 y n = low c0 (GET_GR i c0) ->
  exists s', pop_reg (operand_size c0 =? USE16) i s = Ret tt s' /\ moved lo hi c0 s1 (y + Z.of_nat n) s'.
Proof.
  intros n HW HM Hlo Hhi Ht HR Hi Hne Hs. unfold pop_reg.
  destruct (operand_size c0 =? USE16) eqn:Eo.
  - apply (pop_step lo hi c0 s1 y s (SET_WR i)); try assumption. fold n. rewrite Hs. unfold low.
    replace (osz c0) with 2%nat by (unfold osz; rewrite Eo; reflexivity). change (2 ^ (8 * Z.of_nat 2)) with (2 ^ 16).
    fold (u16 (GET_GR i c0)). rewrite <- (GR_sp i (y + Z.of_nat n) c0) by assumption. apply SET_WR_same, Hi.
  - apply (pop_step lo hi c0 s1 y s (SET_GR i)); try assumption. fold n. rewrite Hs. unfold low.
    replace (osz c0) with 4%nat by (unfold osz; rewrite Eo; reflexivity). change (2 ^ (8 * Z.of_nat 4)) with (2 ^ 32).
    rewrite Z.mod_small by apply HR, Hi. rewrite <- (GR_sp i (y + Z.of_nat n) c0) by assumption. apply SET_GR_same.
Qed.

(** Run the next push, or the next pop, of a register. *)
Ltac reg_side := unfold A_EAX, A_ECX, A_EDX, A_EBX, A_EBP, A_ESI, A_EDI, A_AX, A_CX, A_DX, A_BX, A_BP, A_SI, A_DI in *; lia.

Ltac push_next :=
  match goal with
  | HP : pushed ?lo ?hi ?s0 ?y ?l ?s |- context [bind (push_reg ?i) _ ?s] =>
      let s' := fresh "s" in let E := fresh "E" in let HP' := fresh "HP" in
      destruct (push_reg_step lo hi s0 y l s i HP) as (s' & E & HP'); [lia | reg_side | reg_side |];
      rewrite (bind_ret _ _ _ _ _ E); clear E HP
  end.

Ltac pop_next :=
  match goal with
  | HW : window ?lo ?hi ?s1, HM : moved ?lo ?hi ?c0 ?s1 ?y ?s |- context [bind (pop_reg _ ?i) _ ?s] =>
      let s' := fresh "s" in let E := fresh "E" in let HM' := fresh "HM" in
      destruct (pop_reg_step lo hi c0 s1 y s i HW HM) as (s' & E & HM'); [lia | lia | lia | assumption | reg_side | reg_side | assumption |];
      rewrite (bind_ret _ _ _ _ _ E); clear E HM
  end.

(** The registers in the order PUSHA leaves them on the stack. *)
Definition pusha_items (c : cpu) : list Z :=
  map (fun i => low c (GET_GR i c)) [A_EDI; A_ESI; A_EBP; A_ESP; A_EBX; A_EDX; A_ECX; A_EAX].

Lemma PUSHA_run lo hi s :
  stack_ready lo hi s -> lo <= sp s - 8 * Z.of_nat (osz (mcpu s)) -> sp s <= hi ->
  limit_ok (mcpu s) (sp s - 8 * Z.of_nat (osz (mcpu s))) 8 ->
  exists s0 s1, PUSHA s = Ret tt s1 /\ mcpu s0 = mcpu s /\ lframed nothing s s0
  /\ pushed lo hi s0 (sp s - 8 * Z.of_nat (osz (mcpu s))) (pusha_items (mcpu s)) s1.
Proof.
  intros HR Hlo Hhi HL. destruct (space_pushed lo hi 8 s HR ltac:(lia) Hlo Hhi HL) as (s0 & E0 & C0 & F0 & HP).
  unfold PUSHA. rewrite (bind_ret _ _ _ _ _ E0), getc_bind. cbn [the_cpu HasCpu_mach].
  pose proof (osz_range (mcpu s)) as Hn. rewrite <- C0 in Hlo, Hn, Hhi. exists s0. rewrite <- C0.
  do 4 push_next. match goal with HP : pushed _ _ _ _ _ ?s |- context [bind (spush ?x) _ ?s] =>
    destruct (push_step lo hi s0 _ _ s x HP) as (s5 & E5 & HP5); [lia | apply (w_reg _ _ _ (pu_window0 _ _ _ _ _ _ HP)); reg_side || (unfold A_ESP; lia)|] end.
  rewrite (bind_ret _ _ _ _ _ E5). clear HP. do 2 push_next.
  match goal with HP : pushed lo hi s0 ?y ?l ?s |- _ =>
    destruct (push_reg_step lo hi s0 y l s A_EDI HP) as (s8 & E8 & HP8); [lia | reg_side | reg_side |] end.
  exists s8. split; [exact E8|]. split; [reflexivity|]. split; [exact F0|].
  match type of HP8 with pushed _ _ _ ?y _ _ => replace (sp s0 - 8 * Z.of_nat (osz (mcpu s0))) with y by lia end. exact HP8.
Qed.

Lemma frame_sp s0 s a : mcpu s0 = mcpu s -> lframed nothing s s0 -> forall b s1, wrote a b s0 s1 -> lwf s ->
  (forall i, 0 <= i < Z.of_nat (Z.to_nat (b - a)) -> 0 <= base (GET_SR SS_REG (mcpu s)) + a + i < 2 ^ 32) -> wrote a b s s1.
Proof.
  intros C F b s1 HF Hw Hr. unfold wrote in *. rewrite C in HF.
  apply (lframed_weaken _ _ _ _ (lframed_then _ _ _ _ F HF)). intros x (i & Hi & ->). exists i. split; [exact Hi|].
  apply (lf_map _ _ _ F). auto.
Qed.

(** PUSHA and POPA: on a stack with room for the eight registers, for both
    operand sizes and both stack sizes, PUSHA moves the stack pointer eight items down
    and POPA (POPAD) afterwards restores every register and the stack pointer; only
    the eight items below the stack pointer are written. *)
Theorem pusha_popa lo hi s :
  let c := mcpu s in
  let y := sp s - 8 * Z.of_nat (osz c) in
  stack_ready lo hi s -> lo <= y -> sp s <= hi -> limit_ok c y 8 ->
  exists s1 s2, PUSHA s = Ret tt s1 /\ mcpu s1 = set_current_SP y c
  /\ (if operand_size c =? USE16 then POPA else POPAD) s1 = Ret tt s2 /\ mcpu s2 = c /\ wrote y (sp s) s s2.
Proof.
  intros c y; subst c y; intros HR Hlo Hhi HL.
  destruct (PUSHA_run lo hi s HR Hlo Hhi HL) as (s0 & s1 & E1 & C0 & F0 & HP).
  assert (HR0 : stack_ready lo hi s0).
  { destruct HR as [HW Hr Hw]. split; [apply HP | rewrite C0; assumption..]. }
  destruct (exists_moved lo hi 8 s0 _ _ s1 HR0 HP eq_refl) as (s2 & E2 & HM); [rewrite C0; exact HL|].
  exists s1. pose proof (pu_window _ _ _ _ _ _ HP) as HW. pose proof (pu_items _ _ _ _ _ _ HP) as HI.
  pose proof (pu_cpu _ _ _ _ _ _ HP) as C1. rewrite C0 in *.
  pose proof (w_reg _ _ _ (sr_window _ _ _ HR)) as Hreg.
  pose proof (sp_range _ Hreg) as Hsp. pose proof (osz_range (mcpu s)) as Hn.
  unfold pusha_items in HI. cbn [map holds] in HI. decompose [and] HI. clear HI.
  assert (Ep : (if operand_size (mcpu s) =? USE16 then POPA else POPAD) s1
    = (let w := operand_size (mcpu s) =? USE16 in
       pop_reg w A_EDI ;; pop_reg w A_ESI ;; pop_reg w A_EBP ;; _ <- spop ;;
       pop_reg w A_EBX ;; pop_reg w A_EDX ;; pop_reg w A_ECX ;; pop_reg w A_EAX) s2).
  { unfold POPA, POPAD. destruct (operand_size (mcpu s) =? USE16); rewrite (bind_ret _ _ _ _ _ E2); reflexivity. }
  rewrite Ep. cbv zeta. do 3 pop_next.
  match goal with HM : moved _ _ _ _ ?y ?t |- context [bind spop _ ?t] =>
    destruct (pop_skip lo hi (mcpu s) s1 y t HW HM) as (s6 & E6 & HM6); [lia..|]; rewrite (bind_ret _ _ _ _ _ E6); clear HM end.
  do 3 pop_next.
  match goal with HM : moved _ _ _ _ ?y ?t |- context [pop_reg _ A_EAX ?t] =>
    destruct (pop_reg_step lo hi (mcpu s) s1 y t A_EAX HW HM) as (s10 & E10 & HM10); [lia | lia | lia | assumption | reg_side | reg_side | assumption |] end.
  exists s10. split; [exact E1|]. split; [exact C1|]. split; [exact E10|]. split.
  - rewrite (mv_cpu _ _ _ _ _ _ HM10). etransitivity; [|apply sp_set_get]. f_equal. lia.
  - apply (frame_sp s0 s); [exact C0 | exact F0 | | apply HR |].
    + pose proof (pu_wrote _ _ _ _ _ _ HP) as HF. rewrite C0 in HF.
      exact (lframed_after _ _ _ _ HF (mv_frame _ _ _ _ _ _ HM10)).
    + intros i Hi. destruct (w_base _ _ _ (sr_window _ _ _ HR)), (w_bounds _ _ _ (sr_window _ _ _ HR)). lia.
Qed.

(** *** Other registers change *)

(** What memory accesses through the stack depend on. *)
Definition env_same (c c' : cpu) : Prop := sr c' = sr c /\ CPL c' = CPL c /\ cr c' = cr c.

Lemma window_put lo hi c' s :
  window lo hi s -> env_same (mcpu s) c' -> reg32 c' ->
  lframed nothing s (put_cpu c' s) /\ same_stack s (put_cpu c' s) /\ window lo hi (put_cpu c' s).
Proof.
  intros HW (ES & EC & ER) HR.
  assert (F : lframed nothing s (put_cpu c' s)) by (apply put_framed; [apply HW | exact ER]).
  assert (S : same_stack s (put_cpu c' s)) by (split; [unfold GET_SR; cbn; rewrite ES; reflexivity | exact EC]).
  split; [exact F|]. split; [exact S|]. exact (window_step _ _ _ _ _ HW F S HR).
Qed.

Lemma env_sp y c : env_same c (set_current_SP y c).
Proof. destruct (sp_gr y c) as [g ->]. repeat split. Qed.

Lemma moved_refl lo hi c0 y s :
  window lo hi s -> mcpu s = set_current_SP y c0 -> 0 <= y < sp_top c0 -> moved lo hi c0 s y s.
Proof. intros HW C Hy. split; [exact C | apply lframed_refl, HW | apply same_stack_refl | exact HW | exact Hy]. Qed.

Lemma moved_exists lo hi nr c0 s1 y s :
  moved lo hi c0 s1 y s -> 0 <= nr -> lo <= y -> y + nr * Z.of_nat (osz c0) <= hi ->
  ar_r (GET_SR SS_REG c0) <> 0 -> limit_ok c0 y nr ->
  exists s', validate_stack_exists USE_SP nr s = Ret tt s' /\ moved lo hi c0 s1 y s'.
Proof.
  intros HM Hn Hlo Hhi Hr HL. pose proof (mv_cpu _ _ _ _ _ _ HM) as C. pose proof (moved_sp _ _ _ _ _ _ HM) as Y.
  destruct (exists_run lo hi USE_SP nr s (mv_window _ _ _ _ _ _ HM) Hn) as (s' & E & C' & F & W);
    unfold from, USE_SP; rewrite ?Y; try assumption.
  - rewrite C, osz_sp. exact Hhi.
  - rewrite C. destruct (sp_gr y c0) as [g ->]. exact Hr.
  - rewrite C. apply limit_ok_sp, HL.
  - exists s'. split; [exact E|]. exact (moved_trans _ _ _ _ _ _ _ HM C' F W).
Qed.

Lemma moved_tpop lo hi item byte c0 s1 y s :
  let n := osz c0 in let off := y + item * Z.of_nat n + byte in
  window lo hi s1 -> moved lo hi c0 s1 y s -> lo <= off -> off + Z.of_nat n <= hi ->
  exists s', tpop item byte s = Ret (slot s1 off n) s' /\ moved lo hi c0 s1 y s'.
Proof.
  intros n off HW HM Hlo Hhi. pose proof (mv_cpu _ _ _ _ _ _ HM) as C. pose proof (moved_sp _ _ _ _ _ _ HM) as Y.
  assert (En : osz (mcpu s) = n) by (rewrite C; apply osz_sp).
  destruct (tpop_run lo hi item byte s (mv_window _ _ _ _ _ _ HM)) as (s' & E & C' & F & W); rewrite ?En, ?Y; try assumption.
  rewrite En, Y in E. fold off in E. rewrite (moved_slot _ _ _ _ _ _ _ _ HW HM) in E by assumption.
  exists s'. split; [exact E|]. exact (moved_trans _ _ _ _ _ _ _ HM C' F W).
Qed.

(** The general registers determine a change of them. *)
Lemma gr_ext c c1 c2 :
  same_but_gr c c1 -> same_but_gr c c2 -> (forall i, 0 <= i < 8 -> GET_GR i c1 = GET_GR i c2) -> c1 = c2.
Proof.
  intros [g1 ->] [g2 ->] Hg. f_equal. destruct g1, g2.
  pose proof (Hg 0 ltac:(lia)). pose proof (Hg 1 ltac:(lia)). pose proof (Hg 2 ltac:(lia)). pose proof (Hg 3 ltac:(lia)).
  pose proof (Hg 4 ltac:(lia)). pose proof (Hg 5 ltac:(lia)). pose proof (Hg 6 ltac:(lia)). pose proof (Hg 7 ltac:(lia)).
  cbn in *. congruence.
Qed.

Lemma SET_ip_sp x y c : set_current_SP y (SET_ip x c) = SET_ip x (set_current_SP y c).
Proof. unfold set_current_SP. change (GET_SS_AR_X (SET_ip x c)) with (GET_SS_AR_X c). destruct (_ =? _); reflexivity. Qed.

Lemma wrote_from s0 s a b s1 lo hi :
  window lo hi s -> mcpu s0 = mcpu s -> lframed nothing s s0 -> lo <= a -> b <= hi -> wrote a b s0 s1 -> wrote a b s s1.
Proof.
  intros HW C F Ha Hb HF. apply (frame_sp s0 s a C F b s1 HF (w_wf _ _ _ HW)). intros i Hi.
  destruct (w_base _ _ _ HW), (w_bounds _ _ _ HW). lia.
Qed.

Lemma pow8_osz c : 2 ^ (8 * Z.of_nat (osz c)) <= 2 ^ 32.
Proof. pose proof (osz_range c). apply Z.pow_le_mono_r; lia. Qed.

Lemma CALLN_run lo hi s target :
  let c := mcpu s in
  let y := sp s - Z.of_nat (osz c) in
  stack_ready lo hi s -> lo <= y -> sp s <= hi -> limit_ok c y 1 -> 0 <= ip c < 2 ^ 32 ->
  exists s1, CALLN target s = Ret tt s1 /\ mcpu s1 = set_current_SP y (SET_ip target c)
  /\ slot s1 y (osz c) = low c (ip c) /\ wrote y (sp s) s s1 /\ window lo hi s1.
Proof.
  intros c y; subst c y; intros HR Hlo Hhi HL Hip. pose proof (osz_range (mcpu s)) as Hn.
  destruct (space_pushed lo hi 1 s HR ltac:(lia)) as (s0 & E0 & C0 & F0 & HP); try (rewrite Z.mul_1_l; assumption); [exact Hhi|].
  destruct (push_step lo hi s0 _ _ s0 (ip (mcpu s0)) HP) as (s1 & E1 & HP1); [rewrite C0; exact Hlo | rewrite C0; exact Hip|].
  pose proof (pu_cpu _ _ _ _ _ _ HP1) as C1. pose proof (pu_wrote _ _ _ _ _ _ HP1) as F1.
  pose proof (proj1 (pu_items _ _ _ _ _ _ HP1)) as V1. pose proof (pu_window _ _ _ _ _ _ HP1) as W1. rewrite C0 in *.
  destruct (window_put lo hi (SET_ip target (mcpu s1)) s1 W1) as (F2 & S2 & W2); [repeat split | exact (w_reg _ _ _ W1) |].
  exists (put_cpu (SET_ip target (mcpu s1)) s1). unfold CALLN. rewrite (bind_ret _ _ _ _ _ E0), getc_bind.
  cbn [the_cpu HasCpu_mach]. rewrite C0, (bind_ret _ _ _ _ _ E1). split; [reflexivity|].
  split; [rewrite SET_ip_sp, <- C1; reflexivity|]. split; [|split; [|exact W2]].
  - rewrite (slot_nothing lo hi s1 _ _ _ W1 F2 S2) by lia. exact V1.
  - apply (wrote_from s0 s _ _ _ lo hi (sr_window _ _ _ HR) C0 F0 Hlo Hhi). exact (lframed_after _ _ _ _ F1 F2).
Qed.

Lemma RETN_run lo hi c y s :
  let n := osz c in
  window lo hi s -> mcpu s = set_current_SP y c -> lo <= y -> y + Z.of_nat n <= hi -> y + Z.of_nat n < sp_top c ->
  ar_r (GET_SR SS_REG c) <> 0 -> limit_ok c y 1 -> real_or_v86 c = true \/ slot s y n <= limit (GET_SR CS_REG c) ->
  exists s', RETN 0 s = Ret tt s' /\ mcpu s' = set_current_SP (y + Z.of_nat n) (SET_ip (slot s y n) c) /\ lframed nothing s s'.
Proof.
  intros n HW C Hlo Hhi Ht Hr HL Hcs. destruct (w_bounds _ _ _ HW) as (B0 & _). pose proof (osz_range c) as Hn. fold n in Hn.
  assert (HM : moved lo hi c s y s) by (apply moved_refl; [exact HW | exact C | lia]).
  destruct (moved_exists lo hi 1 c s y s HM) as (s3 & E3 & M3); fold n; try lia; try assumption.
  destruct (moved_tpop lo hi 0 0 c s y s3 HW M3) as (s4 & E4 & M4); fold n; try lia.
  fold n in E4. rewrite Z.mul_0_l, !Z.add_0_r in E4. unfold RETN.
  rewrite (bind_ret _ _ _ _ _ E3), (bind_ret _ _ _ _ _ E4), getc_bind. cbn [the_cpu HasCpu_mach].
  pose proof (mv_cpu _ _ _ _ _ _ M4) as C4. destruct (sp_gr y c) as [g Eg].
  assert (Hno : (GET_PE (mcpu s4) =? 1) && (VM (fl (mcpu s4)) =? 0) && (limit (GET_SR CS_REG (mcpu s4)) <? slot s y n) = false).
  { rewrite C4, Eg. change (GET_PE (SET_gr g c)) with (GET_PE c). change (VM (fl (SET_gr g c))) with (VM (fl c)).
    change (GET_SR CS_REG (SET_gr g c)) with (GET_SR CS_REG c). unfold real_or_v86 in Hcs. lia. }
  rewrite Hno. unfold when, tst. cbn [negb Z.eqb]. unfold bind, ret, modc, modify. cbn [the_cpu HasCpu_mach put_cpu mcpu].
  assert (Ec : change_SP 1 (SET_ip (slot s y n) (mcpu s4)) = set_current_SP (y + Z.of_nat n) (SET_ip (slot s y n) c)).
  { rewrite change_SP_bytes, op_bytes_osz, C4, <- SET_ip_sp, osz_sp. change (osz (SET_ip (slot s y n) c)) with n.
    rewrite Z.mul_1_l, sp_change; rewrite ?sp_top_sp, ?sp_get; change (sp_top (SET_ip (slot s y n) c)) with (sp_top c);
      rewrite ?sp_set_set; try lia. reflexivity. }
  eexists. split; [reflexivity|]. split; [exact Ec|]. cbn.
  apply (lframed_then _ _ s4); [apply M4|]. apply lframed_same; cbn; auto; [rewrite Ec, C4, SET_ip_sp | apply M4].
  destruct (sp_gr (y + Z.of_nat n) c) as [g' ->]. rewrite Eg. reflexivity.
Qed.

(** Near calls and returns: a near call pushes the return address and goes to
    its target; a near return afterwards restores EIP, the stack pointer and every
    other register, for both operand and stack sizes, when EIP fits the operand size
    and (in protected mode) lies in the code segment. *)
Theorem near_call_return lo hi s target :
  let c := mcpu s in
  let y := sp s - Z.of_nat (osz c) in
  stack_ready lo hi s -> lo <= y -> sp s <= hi -> limit_ok c y 1 ->
  0 <= ip c < 2 ^ (8 * Z.of_nat (osz c)) -> real_or_v86 c = true \/ ip c <= limit (GET_SR CS_REG c) ->
  exists s1 s2, CALLN target s = Ret tt s1 /\ mcpu s1 = set_current_SP y (SET_ip target c)
  /\ RETN 0 s1 = Ret tt s2 /\ mcpu s2 = c /\ wrote y (sp s) s s2.
Proof.
  intros c y; subst c y; intros HR Hlo Hhi HL Hip Hcs. pose proof (pow8_osz (mcpu s)). pose proof (osz_range (mcpu s)).
  destruct (CALLN_run lo hi s target HR Hlo Hhi HL ltac:(lia)) as (s1 & E1 & C1 & V1 & F1 & W1).
  unfold low in V1. rewrite Z.mod_small in V1 by exact Hip.
  pose proof (sp_range _ (w_reg _ _ _ (sr_window _ _ _ HR))) as Hsp.
  destruct (RETN_run lo hi (SET_ip target (mcpu s)) _ s1 W1 C1) as (s2 & E2 & C2 & F2);
    change (osz (SET_ip target (mcpu s))) with (osz (mcpu s)) in *;
    change (sp_top (SET_ip target (mcpu s))) with (sp_top (mcpu s)); try lia; try apply HR; try assumption.
  - rewrite V1. exact Hcs.
  - exists s1, s2. split; [exact E1|]. split; [exact C1|]. split; [exact E2|]. split; [|exact (lframed_after _ _ _ _ F1 F2)].
    rewrite C2, V1. replace (sp s - _ + _) with (sp s) by lia.
    replace (SET_ip (ip (mcpu s)) (SET_ip target (mcpu s))) with (mcpu s) by (destruct (mcpu s); reflexivity). apply sp_set_get.
Qed.

(** *** Frames *)

Lemma reg32_GR i x c : reg32 c -> 0 <= i < 8 -> 0 <= x < 2 ^ 32 -> reg32 (SET_GR i x c).
Proof. intros HR Hi Hx j Hj. rewrite GET_SET_GR by lia. destruct (j =? i); [exact Hx | apply HR, Hj]. Qed.

Lemma reg32_WR i x c : reg32 c -> 0 <= i < 8 -> reg32 (SET_WR i x c).
Proof.
  intros HR Hi. apply reg32_GR; [exact HR | exact Hi|]. pose proof (HR i Hi) as Hg. pose proof (u16_range x).
  pose proof (Z_div_mod_eq_full (GET_GR i c) (2 ^ 16)) as E. fold (u16 (GET_GR i c)) in E. pose proof (u16_range (GET_GR i c)).
  assert (0 <= GET_GR i c / 2 ^ 16 < 2 ^ 16) by (split; [apply Z.div_pos | apply Z.div_lt_upper_bound]; lia). lia.
Qed.

Lemma bp_gr x c : same_but_gr c (set_current_BP x c).
Proof. unfold set_current_BP. destruct (_ =? _); eexists; reflexivity. Qed.

Lemma bp_get x c : 0 <= x < sp_top c -> get_current_BP (set_current_BP x c) = x.
Proof.
  unfold get_current_BP, set_current_BP, sp_top. destruct (GET_SS_AR_X c =? USE32) eqn:E; intros Hx;
    rewrite ?ss_gr, ?ss_wr, E; [reflexivity|].
  destruct (GET_SET_WR A_BP x c) as [-> _]; [unfold A_BP; lia | apply u16_small, Hx].
Qed.

Lemma bp_sp x y c : set_current_BP x (set_current_SP y c) = set_current_SP y (set_current_BP x c).
Proof.
  unfold set_current_BP, set_current_SP. destruct (GET_SS_AR_X c =? USE32) eqn:E; rewrite ?ss_gr, ?ss_wr, E;
    destruct c as [g]; destruct g; reflexivity.
Qed.

Lemma get_bp_sp y c : get_current_BP (set_current_SP y c) = get_current_BP c.
Proof.
  destruct (sp_gr y c) as [g Eg]. unfold get_current_BP. rewrite Eg at 1. change (GET_SS_AR_X (SET_gr g c)) with (GET_SS_AR_X c).
  unfold GET_WR, A_EBP, A_BP. rewrite !(GR_sp 5) by lia. reflexivity.
Qed.

Lemma reg32_bp x c : reg32 c -> 0 <= x < sp_top c -> reg32 (set_current_BP x c).
Proof.
  unfold set_current_BP, sp_top. destruct (_ =? _); intros HR Hx; [apply reg32_GR | apply reg32_WR]; auto; unfold A_EBP, A_BP; lia.
Qed.

Lemma pushed_trans lo hi s0 y l s s' :
  pushed lo hi s0 y l s -> mcpu s' = mcpu s -> lframed nothing s s' -> window lo hi s' -> pushed lo hi s0 y l s'.
Proof.
  intros [C F S W W0 Hy Hb Hl] C' F' W'. assert (S' : same_stack s s') by (split; rewrite C'; reflexivity).
  split; try assumption; [congruence | exact (lframed_after _ _ _ _ F F') | exact (same_stack_trans _ _ _ S S') |].
  pose proof (osz_range (mcpu s0)). apply (holds_kept _ s s' hi); [|nia | exact Hl].
  intros off Ho1 Ho2. apply (slot_nothing lo hi s s' off _ W F' S'); lia.
Qed.

(** Copying the parameters: some values are pushed. *)
Lemma enter_params_run lo hi s0 read k : lread (osz (mcpu s0)) read ->
  let n := Z.of_nat (osz (mcpu s0)) in
  forall delta y l s, pushed lo hi s0 y l s -> lo <= y - Z.of_nat k * n ->
  ((0 < k)%nat -> lo <= get_current_BP (mcpu s0) + delta - Z.of_nat k * n /\ get_current_BP (mcpu s0) + delta <= hi) ->
  exists l' s', enter_params read n k delta s = Ret tt s' /\ pushed lo hi s0 (y - Z.of_nat k * n) (l' ++ l) s'.
Proof.
  intros Hrd n. induction k as [|k IH]; intros delta y l s HP Hlo Hb.
  { exists [], s. split; [reflexivity|]. replace (y - Z.of_nat 0 * n) with y by lia. exact HP. }
  pose proof (osz_range (mcpu s0)) as Hn. fold n in Hn. pose proof (pu_window _ _ _ _ _ _ HP) as W. cbn [enter_params].
  destruct (Hb ltac:(lia)) as [Hblo Hbhi].
  rewrite getc_bind. cbn [the_cpu HasCpu_mach]. pose proof (pu_cpu _ _ _ _ _ _ HP) as C. 
  replace (get_current_BP (mcpu s)) with (get_current_BP (mcpu s0)) by (rewrite C; symmetry; apply get_bp_sp).
  replace (get_current_BP (mcpu s0) + (delta - n)) with (get_current_BP (mcpu s0) + delta - n) by lia.
  rewrite (mask_small lo hi s) by (exact W || nia). set (off := get_current_BP (mcpu s0) + delta - n) in *.
  rewrite (Z.add_comm off).
  destruct (read_slot lo hi (osz (mcpu s0)) (fun a _ => read a) off s W Hrd) as (s1 & E1 & C1 & F1 & W1); fold n; try nia.
  rewrite (bind_ret _ _ _ _ _ E1). pose proof (pushed_trans _ _ _ _ _ _ _ HP C1 F1 W1) as HP1.
  assert (Hx : 0 <= slot s off (osz (mcpu s0)) < 2 ^ 32).
  { pose proof (lvalue_range _ _ _ (window_range lo hi s off (osz (mcpu s0)) W ltac:(nia) ltac:(fold n; lia))). pose proof (pow8_osz (mcpu s0)). unfold slot. lia. }
  destruct (push_step lo hi s0 y l s1 _ HP1 ltac:(fold n; nia) Hx) as (s2 & E2 & HP2). rewrite (bind_ret _ _ _ _ _ E2). fold n in HP2.
  destruct (IH (delta - n) (y - n) _ s2 HP2) as (l' & s3 & E3 & HP3); try (unfold off in *; nia).
  exists (l' ++ [low (mcpu s0) (slot s off (osz (mcpu s0)))]), s3. split; [exact E3|]. rewrite <- app_assoc. cbn [app].
  replace (y - Z.of_nat (S k) * n) with (y - n - Z.of_nat k * n) by lia. exact HP3.
Qed.

Lemma holds_last n s l x : forall y, holds n s y (l ++ [x]) -> slot s (y + Z.of_nat (length l) * Z.of_nat n) n = x.
Proof.
  induction l as [|z l IH]; intros y; cbn [app holds length].
  - intros [Hx _]. rewrite Z.mul_0_l, Z.add_0_r. exact Hx.
  - intros [_ Hl]. rewrite <- (IH _ Hl). f_equal. lia.
Qed.

(** The two checks of ENTER, the second for the parameters. *)
Lemma enter_checks lo hi lv s :
  let n := Z.of_nat (osz (mcpu s)) in
  let bp := get_current_BP (mcpu s) in
  stack_ready lo hi s -> 0 <= lv -> lo <= sp s - (lv + 1) * n -> sp s <= hi -> limit_ok (mcpu s) (sp s - (lv + 1) * n) (lv + 1) ->
  (1 < lv -> lo <= bp - (lv - 1) * n /\ bp <= hi /\ limit_ok (mcpu s) (bp - (lv - 1) * n) (lv - 1)) ->
  exists s', (validate_stack_space USE_SP (lv + 1) ;;
    when (1 <? lv)
      (r <- getc (fun c => ar_r (GET_SR SS_REG c)) ;; when (r =? 0) (SF_fault 0) ;; validate_stack_space USE_BP (lv - 1))) s
    = Ret tt s' /\ mcpu s' = mcpu s /\ lframed nothing s s' /\ window lo hi s'.
Proof.
  intros n bp HR Hlv Hlo Hhi HL Hbp.
  destruct (space_run lo hi USE_SP (lv + 1) s (sr_window _ _ _ HR) ltac:(lia) Hlo Hhi (sr_w _ _ _ HR) HL) as (s0 & E0 & C0 & F0 & W0).
  rewrite (bind_ret _ _ _ _ _ E0). destruct (Z.ltb_spec 1 lv) as [H1 | H1]; cbn [when]; [|exists s0; auto].
  destruct (Hbp H1) as (B1 & B2 & B3). rewrite getc_bind. cbn [the_cpu HasCpu_mach]. rewrite C0.
  destruct (Z.eqb_spec (ar_r (GET_SR SS_REG (mcpu s))) 0) as [E | _]; [destruct (sr_r _ _ _ HR E)|].
  destruct (space_run lo hi USE_BP (lv - 1) s0 W0) as (s1 & E1 & C1 & F1 & W1); rewrite ?C0; try assumption; [lia | apply HR |].
  exists s1. split; [exact E1|]. split; [congruence|]. split; [exact (lframed_then _ _ _ _ F0 F1) | exact W1].
Qed.

(** The pushes of ENTER: the old frame pointer, and as many items as the level says. *)
Lemma enter_pushes lo hi s0 (get_BP : cpu -> Z) read lv :
  let c := mcpu s0 in let n := Z.of_nat (osz c) in let bp := get_current_BP c in let f := sp s0 - n in
  window lo hi s0 -> lread (osz c) read -> 0 <= get_BP c < 2 ^ 32 -> 0 <= lv -> lo <= f - lv * n -> sp s0 <= hi ->
  (1 < lv -> lo <= bp - (lv - 1) * n /\ bp <= hi) ->
  exists l s1, (bp <- getc get_BP ;; spush bp ;; frame_ptr <- getc GetStackPointer ;;
    when (0 <? lv) (enter_params read n (Z.to_nat (lv - 1)) 0 ;; spush frame_ptr) ;; ret frame_ptr) s0 = Ret f s1
  /\ pushed lo hi s0 (f - lv * n) (l ++ [low c (get_BP c)]) s1.
Proof.
  intros c n bp f; subst c bp f; intros HW Hrd Hbp Hlv Hlo Hhi Hp. pose proof (osz_range (mcpu s0)) as Hn. fold n in Hn.
  pose proof (sp_range _ (w_reg _ _ _ HW)) as Hsp. destruct (w_bounds _ _ _ HW) as (B0 & B1 & _).
  pose proof (pushed_none lo hi s0 HW ltac:(nia)) as HP0. rewrite getc_bind. cbn [the_cpu HasCpu_mach].
  destruct (push_step lo hi s0 _ _ s0 (get_BP (mcpu s0)) HP0) as (s1 & E1 & HP1); [fold n; nia | exact Hbp|].
  rewrite (bind_ret _ _ _ _ _ E1), getc_bind. cbn [the_cpu HasCpu_mach]. fold n in HP1.
  assert (Ef : sp s1 = sp s0 - n) by (rewrite (pu_cpu _ _ _ _ _ _ HP1); apply sp_get; nia). rewrite Ef.
  destruct (Z.ltb_spec 0 lv) as [Hpos | Hpos]; cbn [when].
  2:{ exists [], s1. replace lv with 0 by lia. rewrite Z.mul_0_l, Z.sub_0_r. split; [reflexivity | exact HP1]. }
  destruct (enter_params_run lo hi s0 read (Z.to_nat (lv - 1)) Hrd 0 _ _ s1 HP1) as (l' & s2 & E2 & HP2); fold n; rewrite ?Z2Nat.id by lia.
  { nia. }
  { intros Hk. destruct (Hp ltac:(lia)). lia. }
  fold n in E2, HP2. rewrite Z2Nat.id in HP2 by lia.
  destruct (push_step lo hi s0 _ _ s2 (sp s0 - n) HP2) as (s3 & E3 & HP3); [fold n; nia | unfold sp_top in Hsp; destruct (_ =? _); nia|].
  exists (low (mcpu s0) (sp s0 - n) :: l'), s3. split.
  - rewrite bind_assoc, (bind_ret _ _ _ _ _ E2), (bind_ret _ _ _ _ _ E3). reflexivity.
  - fold n in HP3. replace (sp s0 - n - lv * n) with (sp s0 - n - (lv - 1) * n - n) by lia. exact HP3.
Qed.

(** Where a frame can be built: room for the old frame pointer, the level's items and
    the locals, and for the parameters when there are any. *)
Record enter_room (lo hi op1 lv : Z) (s : mach P) : Prop := {
  er_items : lo <= sp s - (lv + 1) * Z.of_nat (osz (mcpu s)) /\ sp s <= hi;
  er_limit : limit_ok (mcpu s) (sp s - (lv + 1) * Z.of_nat (osz (mcpu s))) (lv + 1);
  er_params : 1 < lv ->
    lo <= get_current_BP (mcpu s) - (lv - 1) * Z.of_nat (osz (mcpu s)) /\ get_current_BP (mcpu s) <= hi
    /\ limit_ok (mcpu s) (get_current_BP (mcpu s) - (lv - 1) * Z.of_nat (osz (mcpu s))) (lv - 1);
  er_locals : 0 <= op1 <= sp s - (lv + 1) * Z.of_nat (osz (mcpu s))
}.

Lemma enter_split get_BP (read : Z -> M exn (mach P) Z) size op1 op2 s :
  let lv := op2 .& 0x1f in
  ENTER get_BP read size op1 op2 s =
  (validate_stack_space USE_SP (lv + 1) ;;
   when (1 <? lv)
     (r <- getc (fun c => ar_r (GET_SR SS_REG c)) ;; when (r =? 0) (SF_fault 0) ;; validate_stack_space USE_BP (lv - 1)) ;;
   fun s0 => (fp <- (bp <- getc get_BP ;; spush bp ;; frame_ptr <- getc GetStackPointer ;;
             when (0 <? lv) (enter_params read size (Z.to_nat (lv - 1)) 0 ;; spush frame_ptr) ;; ret frame_ptr) ;;
      modc (set_current_BP fp) ;; when (tst op1) (modc (byte_change_SP (- op1)))) s0) s.
Proof.
  intros lv. unfold ENTER. fold lv. unfold bind, getc, gets, ret. destruct (validate_stack_space _ _ _) as [a t| |]; try reflexivity.
  destruct (when _ _ t) as [b t1| |]; try reflexivity. destruct (spush _ t1) as [b' t2| |]; try reflexivity.
  destruct (when _ _ t2) as [b'' t3| |]; reflexivity.
Qed.

Lemma ENTER_run lo hi get_BP read op1 op2 s :
  let c := mcpu s in let lv := op2 .& 0x1f in let n := Z.of_nat (osz c) in let f := sp s - n in
  stack_ready lo hi s -> enter_room lo hi op1 lv s -> lread (osz c) read -> 0 <= get_BP c < 2 ^ 32 ->
  exists s1, ENTER get_BP read n op1 op2 s = Ret tt s1 /\ mcpu s1 = set_current_SP (f - lv * n - op1) (set_current_BP f c)
  /\ slot s1 f (osz c) = low c (get_BP c) /\ wrote (f - lv * n) (sp s) s s1 /\ window lo hi s1.
Proof.
  intros c lv n f; subst c f; intros HR [[Hlo Hhi] HL Hpar Hloc] Hrd Hbp. fold n in Hlo, HL, Hpar, Hloc.
  assert (Hlv : 0 <= lv) by (unfold lv; change 31 with (2 ^ 5 - 1); rewrite land_mask by lia; apply Z.mod_pos_bound; lia).
  destruct (enter_checks lo hi lv s HR Hlv Hlo Hhi HL Hpar) as (s0 & E0 & C0 & F0 & W0).
  destruct (enter_pushes lo hi s0 get_BP read lv W0) as (l & s1 & E1 & HP); rewrite ?C0; fold n; try assumption; try lia; try (intros Hl; destruct (Hpar Hl) as (A & B & _); auto).
  rewrite C0 in E1, HP. fold n in E1, HP.
  pose proof (pu_window _ _ _ _ _ _ HP) as W1. pose proof (pu_cpu _ _ _ _ _ _ HP) as C1. pose proof (pu_wrote _ _ _ _ _ _ HP) as F1.
  pose proof (pu_sp _ _ _ _ _ _ HP) as Hy. pose proof (pu_items _ _ _ _ _ _ HP) as HI. rewrite C0 in *. apply holds_last in HI.
  rewrite length_app in Hy. cbn [length] in Hy. fold n in HI, Hy.
  replace (sp s - n - lv * n + Z.of_nat (length l) * n) with (sp s - n) in HI by lia.
  pose proof (osz_range (mcpu s)) as Hn. fold n in Hn. pose proof (sp_range _ (w_reg _ _ _ (sr_window _ _ _ HR))) as Hsp.
  set (c2 := set_current_SP (sp s - n - lv * n - op1) (set_current_BP (sp s - n) (mcpu s))).
  destruct (bp_gr (sp s - n) (mcpu s)) as [g Eg].
  assert (Ht : sp_top (set_current_BP (sp s - n) (mcpu s)) = sp_top (mcpu s)) by (rewrite Eg; reflexivity).
  destruct (window_put lo hi c2 s1 W1) as (F2 & S2 & W2).
  { unfold c2, env_same. rewrite C1. destruct (sp_gr (sp s - n - lv * n) (mcpu s)) as [g1 ->].
    destruct (sp_gr (sp s - n - lv * n - op1) (set_current_BP (sp s - n) (mcpu s))) as [g2 ->]. rewrite Eg. repeat split. }
  { apply reg32_sp; [apply reg32_bp; [apply HR | lia] | rewrite Ht; nia]. }
  exists (put_cpu c2 s1). split; [|split; [reflexivity | split; [|split; [|exact W2]]]].
  - rewrite enter_split. fold lv. rewrite <- bind_assoc, (bind_ret _ _ _ _ _ E0), (bind_ret _ _ _ _ _ E1).
    rewrite modc_bind. cbn [the_cpu HasCpu_mach]. rewrite C1, bp_sp. unfold tst, when, ret, modc, modify. cbn [the_cpu HasCpu_mach].
    destruct (Z.eqb_spec op1 0) as [-> | Hne]; cbn [negb].
    + unfold c2. rewrite Z.sub_0_r. reflexivity.
    + assert (Eb : byte_change_SP (- op1) (set_current_SP (sp s - n - lv * n) (set_current_BP (sp s - n) (mcpu s))) = c2).
      { unfold c2. rewrite sp_change; rewrite ?sp_set_set, ?sp_top_sp, ?sp_get, ?Ht by (rewrite ?Ht; nia); [reflexivity | nia]. }
      exact (f_equal (fun c => Ret tt (put_cpu c s1)) Eb).
  - rewrite (slot_nothing lo hi s1 _ _ _ W1 F2 S2); [exact HI | nia | fold n; lia].
  - apply (wrote_from s0 s _ _ _ lo hi (sr_window _ _ _ HR) C0 F0); [nia | exact Hhi|].
    exact (lframed_after _ _ _ _ F1 F2).
Qed.

(** LEAVE of either size. *)
Definition restore_BP (word : bool) (x : Z) (c : cpu) : cpu := if word then SET_WR A_BP x c else SET_GR A_EBP x c.

Lemma LEAVE_run lo hi s :
  let c := mcpu s in let n := osz c in let f := get_current_BP c in let word := operand_size c =? USE16 in
  window lo hi s -> lo <= f -> f + Z.of_nat n <= hi -> f + Z.of_nat n < sp_top c ->
  ar_r (GET_SR SS_REG c) <> 0 -> limit_ok c f 1 ->
  exists s', (if word then LEAVE16 else LEAVE32) s = Ret tt s'
  /\ mcpu s' = restore_BP word (slot s f n) (set_current_SP (f + Z.of_nat n) c) /\ lframed nothing s s'.
Proof.
  intros c n f word HW Hlo Hhi Ht Hr HL. pose proof (osz_range c) as Hn. fold n in Hn. destruct (w_bounds _ _ _ HW) as (B0 & _).
  destruct (exists_run lo hi USE_BP 1 s HW) as (s0 & E0 & C0 & F0 & W0); unfold from, USE_BP; fold c n f; try lia; try assumption.
  assert (Efp : set_current_SP (GET_GR A_EBP c) c = set_current_SP f c).
  { unfold f, get_current_BP, set_current_SP. destruct (GET_SS_AR_X c =? USE32); [reflexivity|]. apply SET_WR_low. }
  destruct (window_put lo hi (set_current_SP f c) s0 W0) as (F1 & S1 & W1).
  { rewrite C0. apply env_sp. }
  { apply reg32_sp; [apply HW | lia]. }
  set (s1 := put_cpu _ s0) in *. assert (M1 : moved lo hi c s1 f s1) by (apply moved_refl; [exact W1 | reflexivity | lia]).
  destruct (pop_skip lo hi c s1 f s1 W1 M1 Hlo Hhi Ht) as (s2 & E2 & M2). fold n in E2, M2.
  assert (V : slot s1 f n = slot s f n).
  { rewrite (slot_nothing lo hi s0 s1 f n W0 F1 S1 Hlo Hhi).
    apply (slot_nothing lo hi s s0 f n HW F0); [split; rewrite C0; reflexivity | exact Hlo | exact Hhi]. }
  pose proof (lframed_then _ _ _ _ F0 (lframed_then _ _ _ _ F1 (mv_frame _ _ _ _ _ _ M2))) as F2. pose proof (mv_cpu _ _ _ _ _ _ M2) as C2.
  exists (put_cpu (restore_BP word (slot s f n) (mcpu s2)) s2). split; [|split; [rewrite C2; reflexivity|]].
  - assert (Eg : forall (set : Z -> cpu -> cpu), (validate_stack_exists USE_BP 1 ;; bp <- getc (GET_GR A_EBP) ;; modc (set_current_SP bp) ;;
        new_bp <- spop ;; modc (set new_bp)) s = Ret tt (put_cpu (set (slot s f n) (mcpu s2)) s2)).
    { intros set. rewrite (bind_ret _ _ _ _ _ E0), getc_bind, modc_bind. cbn [the_cpu HasCpu_mach]. rewrite C0. fold c.
      rewrite Efp. fold s1. rewrite (bind_ret _ _ _ _ _ E2), V. reflexivity. }
    unfold restore_BP. destruct word; [exact (Eg (SET_WR A_BP)) | exact (Eg (SET_GR A_EBP))].
  - apply (lframed_then _ _ _ _ F2). apply put_framed; [apply F2|]. unfold restore_BP, SET_WR. destruct word; reflexivity.
Qed.

(** The frame is undone: register by register. *)
Lemma frame_restored word c f y z :
  (word = true -> GET_SS_AR_X c <> USE32) -> reg32 c -> 0 <= f < sp_top c -> z = GetStackPointer c ->
  restore_BP word (if word then GET_WR A_BP c else GET_GR A_EBP c) (set_current_SP z (set_current_SP y (set_current_BP f c))) = c.
Proof.
  intros Hw HR Hf ->. rewrite sp_set_set, <- bp_sp, sp_set_get. unfold restore_BP, set_current_BP.
  destruct word; [|destruct (_ =? _); [rewrite SET_GR_twice; apply SET_GR_same|]].
  - destruct (Z.eqb_spec (GET_SS_AR_X c) USE32) as [E | _]; [destruct (Hw eq_refl E)|].
    rewrite SET_WR_twice by (unfold A_BP; lia). apply SET_WR_same. unfold A_BP; lia.
  - unfold SET_WR. change A_BP with A_EBP. rewrite SET_GR_twice. apply SET_GR_same.
Qed.

(** ENTER and LEAVE: whatever the level and the size of the locals, LEAVE after
    ENTER restores the frame pointer, the stack pointer and every other register, for
    both operand sizes on a 16-bit stack and 32-bit operands on a 32-bit stack
    (a 16-bit frame on a 32-bit stack saves only half of EBP); ENTER makes the frame
    pointer point to the saved one, and only the items of the frame are written. *)
Theorem enter_leave lo hi s op1 op2 :
  let c := mcpu s in let lv := op2 .& 0x1f in let n := Z.of_nat (osz c) in let f := sp s - n in
  let word := operand_size c =? USE16 in
  stack_ready lo hi s -> enter_room lo hi op1 lv s -> limit_ok c f 1 -> (word = true -> GET_SS_AR_X c <> USE32) ->
  exists s1 s2, (if word then ENTER16 op1 op2 else ENTER32 op1 op2) s = Ret tt s1
  /\ get_current_BP (mcpu s1) = f /\ sp s1 = f - lv * n - op1 /\ slot s1 f (osz c) = low c (GET_GR A_EBP c)
  /\ (if word then LEAVE16 else LEAVE32) s1 = Ret tt s2 /\ mcpu s2 = c /\ wrote (f - lv * n) (sp s) s s2.
Proof.
  intros c lv n f word; subst c f; intros HR HE HL Hw. pose proof (osz_range (mcpu s)) as Hn. fold n in Hn.
  assert (Hreg : reg32 (mcpu s)) by apply HR. pose proof (Hreg A_EBP ltac:(unfold A_EBP; lia)) as Hbp.
  assert (Hg : 0 <= (if word then GET_WR A_BP else GET_GR A_EBP) (mcpu s) < 2 ^ 32)
    by (destruct word; [pose proof (u16_range (GET_GR A_BP (mcpu s))); unfold GET_WR; lia | exact Hbp]).
  assert (Hrd : lread (osz (mcpu s)) (if word then fun a => vir_read_word a NO_PHYSICAL_MAPPING else fun a => vir_read_dword a NO_PHYSICAL_MAPPING)).
  { unfold osz, word. destruct (_ =? _); [apply vir_read_word_l | apply vir_read_dword_l]. }
  destruct (ENTER_run lo hi _ _ op1 op2 s HR HE Hrd Hg) as (s1 & E1 & C1 & V1 & F1 & W1). fold n lv in E1, C1, V1, F1.
  destruct HE as [[Hlo Hhi] _ _ Hloc]. fold n in Hlo, Hloc. pose proof (sp_range _ Hreg) as Hsp.
  assert (Hlv : 0 <= lv) by (unfold lv; change 31 with (2 ^ 5 - 1); rewrite land_mask by lia; apply Z.mod_pos_bound; lia).
  assert (Hf : 0 <= sp s - n < sp_top (mcpu s)) by nia. set (f := sp s - n) in *.
  destruct (bp_gr f (mcpu s)) as [g Eg]. assert (Ht : sp_top (set_current_BP f (mcpu s)) = sp_top (mcpu s)) by (rewrite Eg; reflexivity).
  assert (Es : same_but_gr (mcpu s) (mcpu s1)).
  { destruct (sp_gr (f - lv * n - op1) (set_current_BP f (mcpu s))) as [g1 Eg1]. exists g1. rewrite C1, Eg1, Eg. reflexivity. }
  destruct Es as [g2 Es]. assert (Ef : get_current_BP (mcpu s1) = f) by (rewrite C1, get_bp_sp; apply bp_get, Hf).
  assert (Eo : osz (mcpu s1) = osz (mcpu s) /\ sp_top (mcpu s1) = sp_top (mcpu s) /\ operand_size (mcpu s1) = operand_size (mcpu s))
    by (rewrite Es; repeat split). destruct Eo as (Eo & Et & Ew).
  destruct (LEAVE_run lo hi s1 W1) as (s2 & E2 & C2 & F2); rewrite ?Ef, ?Eo, ?Et; fold n; try (unfold f; nia);
    [rewrite Es; apply HR | rewrite Es; exact HL |].
  rewrite Ef, Ew, Eo, C1, V1, sp_set_set in C2. rewrite Ew in E2. fold word n in E2, C2.
  assert (Elow : low (mcpu s) ((if word then GET_WR A_BP else GET_GR A_EBP) (mcpu s)) = if word then GET_WR A_BP (mcpu s) else GET_GR A_EBP (mcpu s)).
  { unfold low, osz. unfold word in *. destruct (_ =? _); [apply u16_small, u16_range | apply Z.mod_small, Hbp]. }
  assert (Hall : low (mcpu s) ((if word then GET_WR A_BP else GET_GR A_EBP) (mcpu s)) = low (mcpu s) (GET_GR A_EBP (mcpu s))).
  { rewrite Elow. unfold low, osz, word. destruct (_ =? _); [reflexivity | symmetry; apply Z.mod_small, Hbp]. }
  exists s1, s2. split; [|split; [exact Ef|split; [rewrite C1; apply sp_get; rewrite Ht; unfold f; nia|]]].
  { unfold n, osz in E1. fold word in E1. destruct word; exact E1. }
  split; [rewrite V1; exact Hall|]. split; [exact E2|]. split; [|exact (lframed_after _ _ _ _ F1 F2)].
  rewrite C2, Elow. rewrite <- (sp_set_set _ 0). apply frame_restored; try assumption. unfold f. lia.
Qed.

End Instructions.
(** ** Witnesses: a stack across the two mapped pages *)

#[local] Existing Instance demo_memory.
#[local] Existing Instance demo_laws.

(** A byte of the demonstration machine that may be written. *)
Definition demo_writable (lin : Z) : bool :=
  match walk demo_sas 0x1000 lin with
  | NotPresent => false
  | Mapped prot _ => negb (access_check (usr_access PG_W demo_cpu) prot)
                     && (0x3000 <=? vmap demo lin) && (vmap demo lin <? 0xf0000)
  end.

Lemma demo_usable lo n :
  0 <= lo -> lo + Z.of_nat n <= 2 ^ 32 -> forallb (fun i => demo_writable (lo + Z.of_nat i)) (seq 0 n) = true ->
  lusable demo PG_W lo n.
Proof.
  intros H0 H1 Hall. rewrite forallb_forall in Hall.
  assert (HB : forall i, 0 <= i < Z.of_nat n -> demo_writable (lo + i) = true).
  { intros i Hi. rewrite <- (Z2Nat.id i) by lia. apply Hall, in_seq. lia. }
  unfold demo_writable in HB. split; intros i Hi; specialize (HB i Hi).
  - destruct (walk demo_sas 0x1000 (lo + i)) eqn:E; [discriminate|]. apply demo_resident; [lia | rewrite E; discriminate | lia].
  - intros _. change (mmem demo) with demo_sas. change (CR_PDBR (cr (mcpu demo))) with 0x1000.
    destruct (walk demo_sas 0x1000 (lo + i)); [discriminate|]. change (mcpu demo) with demo_cpu.
    destruct (access_check _ _); [discriminate | reflexivity].
Qed.

Lemma demo_window lo hi c :
  env_same demo_cpu c -> reg32 c -> 0 <= lo <= hi -> hi <= 2 ^ 16 -> hi - lo <= 2 ^ 12 ->
  forallb (fun i => demo_writable (lo + Z.of_nat i)) (seq 0 (Z.to_nat (hi - lo))) = true ->
  window lo hi (put_cpu c demo).
Proof.
  intros Hc HR H0 H1 H2 Hall. pose proof Hc as (Esr & Ecpl & Ecr).
  assert (Ess : GET_SR SS_REG c = GET_SR SS_REG demo_cpu) by (unfold GET_SR; rewrite Esr; reflexivity).
  assert (F : lframed nothing demo (put_cpu c demo)) by (apply put_framed; [intros _; exact demo_wf | exact Ecr]).
  split; change (mcpu (put_cpu c demo)) with c; unfold sp_top, GET_SS_AR_X; rewrite ?Ess.
  - apply F.
  - exact HR.
  - left. reflexivity.
  - split; [lia|]. split; [exact H1 | exact H2].
  - change (base (GET_SR SS_REG demo_cpu)) with 0. lia.
  - apply (lusable_framed _ _ _ _ _ _ F Ecpl). change (base (GET_SR SS_REG demo_cpu)) with 0. rewrite Z.add_0_l.
    apply demo_usable; [lia | lia | exact Hall].
Qed.

Definition demo_stack_cpu : cpu := SET_GR A_EBP 0x1020 (SET_GR A_ESP 0x1010 demo_cpu).
Definition demo_stack : mach (Mem.sas unit) := put_cpu demo_stack_cpu demo.

Lemma demo_stack_ready : stack_ready 0xfc0 0x1040 demo_stack.
Proof.
  split; [|vm_compute; discriminate..]. apply demo_window; try lia; [repeat split | | vm_compute; reflexivity].
  intros i Hi. reg_cases i; vm_compute; split; congruence.
Qed.

Lemma pusha_popa_witness :
  exists s1 s2, PUSHA demo_stack = Ret tt s1 /\ mcpu s1 = set_current_SP 0x1000 demo_stack_cpu
  /\ POPA s1 = Ret tt s2 /\ mcpu s2 = demo_stack_cpu /\ wrote 0x1000 0x1010 demo_stack s2.
Proof.
  refine (pusha_popa 0xfc0 0x1040 demo_stack demo_stack_ready _ _ _).
  - vm_compute. discriminate.
  - vm_compute. discriminate.
  - right. vm_compute. reflexivity.
Defined.

Lemma near_call_return_witness :
  exists s1 s2, CALLN 0x4321 demo_stack = Ret tt s1 /\ mcpu s1 = set_current_SP 0x100e (SET_ip 0x4321 demo_stack_cpu)
  /\ RETN 0 s1 = Ret tt s2 /\ mcpu s2 = demo_stack_cpu /\ wrote 0x100e 0x1010 demo_stack s2.
Proof.
  refine (near_call_return 0xfc0 0x1040 demo_stack 0x4321 demo_stack_ready _ _ _ _ _).
  - vm_compute. discriminate.
  - vm_compute. discriminate.
  - right. vm_compute. reflexivity.
  - vm_compute. split; congruence.
  - right. vm_compute. discriminate.
Defined.

(** A frame of level 3 with 16 bytes of locals. *)
Lemma enter_leave_witness :
  let lv := 3 .& 0x1f in let n := Z.of_nat (osz (mcpu demo_stack)) in let f := GetStackPointer (mcpu demo_stack) - n in
  exists s1 s2, (if operand_size (mcpu demo_stack) =? USE16 then ENTER16 16 3 else ENTER32 16 3) demo_stack = Ret tt s1
  /\ get_current_BP (mcpu s1) = f /\ GetStackPointer (mcpu s1) = f - lv * n - 16
  /\ slot s1 f (osz (mcpu demo_stack)) = low (mcpu demo_stack) (GET_GR A_EBP (mcpu demo_stack))
  /\ (if operand_size (mcpu demo_stack) =? USE16 then LEAVE16 else LEAVE32) s1 = Ret tt s2 /\ mcpu s2 = mcpu demo_stack
  /\ wrote (f - lv * n) (GetStackPointer (mcpu demo_stack)) demo_stack s2.
Proof.
  apply (enter_leave 0xfc0 0x1040 demo_stack 16 3 demo_stack_ready).
  - split; [vm_compute; split; discriminate | right; vm_compute; reflexivity | | vm_compute; split; discriminate].
    intros _. split; [vm_compute; discriminate|]. split; [vm_compute; discriminate | right; vm_compute; reflexivity].
  - right. vm_compute. reflexivity.
  - intros _. vm_compute. discriminate.
Defined.

End Stack.
