(* ===== verification/Xfer.v ===== *)
(** * Far transfers of control

    The control, debug and test register moves of [mov.c], the task switch of
    [c_tsksw.c], the validation of far destinations of [c_xfer.c], and the far calls,
    jumps and returns of [call.c], [jmp.c] and [ret.c]. *)

From S2P Require Import Prelude Cpu Debug Arith Shift Xcptn MulDiv Flow Mem Tlb Page Basic Seg Virt Addr Stack.

Module Xfer.
Import Debug Xcptn Tlb Page Basic Seg Virt Addr Stack.

Definition LDT_SEGMENT : Z := 0x02.
Definition CALL_GATE : Z := 0x04.
Definition TASK_GATE : Z := 0x05.
Definition INTERRUPT_GATE : Z := 0x06.
Definition TRAP_GATE : Z := 0x07.
Definition XTND_CALL_GATE : Z := 0x0c.
Definition XTND_INTERRUPT_GATE : Z := 0x0e.
Definition XTND_TRAP_GATE : Z := 0x0f.

Definition CALL_ID : Z := 0.
Definition JMP_ID : Z := 1.
Definition INT_ID : Z := 0.

(** Where a transfer goes. *)
Definition MORE_PRIVILEGE0 : Z := 0.
Definition SAME_LEVEL : Z := 3.
Definition LOWER_PRIVILEGE : Z := 4.
Definition NEW_TASK : Z := 5.

Definition CR0_VALID_BITS : Z := 0x8000001f.
Definition CR3_VALID_BITS : Z := 0xfffff000.
Definition DR7_VALID_BITS : Z := 0xffff03ff.
Definition DR6_VALID_BITS : Z := 0x0000e00f.
Definition DSR_BT_MASK : Z := BIT_MASK 15.

Definition CR3_OFFSET_IN_386_TSS : Z := 0x1c.
Definition IP_OFFSET_IN_386_TSS : Z := 0x20.
Definition IP_OFFSET_IN_286_TSS : Z := 0x0e.
Definition LOCAL_BRK_ENABLE : Z := 0x155.

Definition code_conforming (super : Z) : bool := (super =? CONFORM_NOREAD_CODE) || (super =? CONFORM_READABLE_CODE).
Definition code_nonconforming (super : Z) : bool := (super =? NONCONFORM_NOREAD_CODE) || (super =? NONCONFORM_READABLE_CODE).

Section Transfer.
Context {P : Type} `{PhyMem P}.

Abbreviation X := (M exn (mach P)).

(** ** Moves to special registers *)

Definition MOV_CR (op1 op2 : Z) : X unit :=
  match op1 with
  | 0 =>
      when (tst (op2 .& BIT_MASK 31) && negb (tst (op2 .& BIT_MASK 0))) (GP 0) ;;
      keep_et <- getc (fun c => nz (CR_STAT (cr c) .& BIT_MASK 4)) ;;
      modc (modify_cr (SET_CR_STAT (op2 .& CR0_VALID_BITS))) ;;
      modc (modify_cr (fun r => SET_CR_STAT ((CR_STAT r .& not32 (BIT_MASK 4)) .| (keep_et .<< 4)) r))
  | 2 => modc (modify_cr (SET_CR_PFLA op2))
  | 3 =>
      modc (modify_cr (SET_CR_PDBR (op2 .& CR3_VALID_BITS))) ;;
      ontlb flush_tlb
  | _ => ret tt
  end.

Definition MOV_DR (op1 op2 : Z) : X unit :=
  match op1 with
  | 0 | 1 | 2 | 3 => ondbg (fun d => setup_breakpoints (SET_DR op1 op2 d))
  | 6 => ondbg (SET_DR DR_DSR (op2 .& DR6_VALID_BITS))
  | 7 => ondbg (fun d => setup_breakpoints (SET_DR DR_DCR (op2 .& DR7_VALID_BITS) d))
  | _ => ret tt
  end.

(** The cache test registers only print. *)
Definition MOV_TR (op1 op2 : Z) : X unit :=
  match op1 with
  | 6 => modify (fun s => test_tlb (SET_TCR op2 s))
  | 7 => modify (SET_TDR op2)
  | _ => ret tt
  end.

(** ** Task switch *)

Definition modify_tr (f : SYSTEM_ADDRESS_REGISTER -> SYSTEM_ADDRESS_REGISTER) (c : cpu) : cpu := SET_tr (f (tr c)) c.
Definition modify_ldtr (f : SYSTEM_ADDRESS_REGISTER -> SYSTEM_ADDRESS_REGISTER) (c : cpu) : cpu := SET_ldtr (f (ldtr c)) c.

Definition load_LDT_in_task_switch (tss_selector : Z) : X unit :=
  selector <- getc (fun c => sar_selector (ldtr c)) ;;
  let bad : X unit := modc (modify_ldtr (SET_sar_selector 0)) ;; TS tss_selector in
  when (negb (selector_is_null selector))
    (r <- getc (selector_outside_GDT selector) ;;
     match r with
     | None => bad ;; undefined
     | Some descr_addr =>
         entry <- read_descriptor_linear descr_addr ;;
         when (negb (descriptor_super_type (d_AR entry) =? LDT_SEGMENT)) bad ;;
         when (GET_AR_P (d_AR entry) =? NOT_PRESENT) bad ;;
         modc (modify_ldtr (fun r => SET_sar_limit (d_limit entry) (SET_sar_base (d_base entry) r)))
     end).

Definition load_data_seg_new_task (indx selector : Z) : X unit :=
  load_data_seg indx selector ;;
  vm <- getc (fun c => VM (fl c)) ;;
  when (vm =? 1) (modc (load_pseudo_descr indx)).

(** Values stored one after the other, [step] bytes apart. *)
Fixpoint save_all (write : Z -> Z -> X unit) (step addr : Z) (values : list Z) : X unit :=
  match values with
  | [] => ret tt
  | v :: values => write addr v ;; save_all write step (u32 (addr + step)) values
  end.

(** Registers loaded one after the other. *)
Fixpoint load_all (read : Z -> X Z) (step addr : Z) (sets : list (Z -> cpu -> cpu)) : X unit :=
  match sets with
  | [] => ret tt
  | set :: sets => v <- read addr ;; modc (set v) ;; load_all read step (u32 (addr + step)) sets
  end.

Definition SET_SELECTOR (indx sel : Z) (c : cpu) : cpu := SET_SR indx (SEG_selector sel (GET_SR indx c)) c.

Definition selectors (indices : list Z) (c : cpu) : list Z := map (fun i => selector (GET_SR i c)) indices.

(** The outgoing state. *)
Definition save_task (returning : bool) (TSS_selector return_ip : Z) : X unit :=
  c <- getc (fun c => c) ;;
  if sar_super (tr c) =? XTND_BUSY_TSS then
    when (sar_limit (tr c) <? 0x67) (TS TSS_selector) ;;
    let flags := c_getEFLAGS c in
    let flags := if returning then flags .& not32 (BIT_MASK 14) else flags in
    save_all spr_write_dword 4 (u32 (sar_base (tr c) + CR3_OFFSET_IN_386_TSS))
      ([CR_PDBR (cr c); return_ip; flags] ++ map (fun i => GET_GR i c) [0; 1; 2; 3; 4; 5; 6; 7]) ;;
    save_all spr_write_word 4 (u32 (sar_base (tr c) + 0x48)) (selectors [ES_REG; CS_REG; SS_REG; DS_REG; FS_REG; GS_REG] c)
  else
    when (sar_limit (tr c) <? 0x29) (TS TSS_selector) ;;
    let flags := getFLAGS c in
    let flags := if returning then flags .& not32 (BIT_MASK 14) else flags in
    save_all spr_write_word 2 (u32 (sar_base (tr c) + IP_OFFSET_IN_286_TSS))
      ([u16 return_ip; u16 flags] ++ map (fun i => GET_WR i c) [0; 1; 2; 3; 4; 5; 6; 7]
       ++ selectors [ES_REG; CS_REG; SS_REG; DS_REG] c).

(** Set the flags with the rights of the highest privilege. *)
Definition flags_at_0 (set : cpu -> cpu) (c : cpu) : cpu := SET_CPL (CPL c) (set (SET_CPL 0 c)).

(** The incoming state; the byte with the T bit is the result. *)
Definition load_task (TSS_selector : Z) : X Z :=
  t <- getc tr ;;
  let tss_addr := sar_base t in
  if sar_super t =? XTND_BUSY_TSS then
    when (sar_limit t <? 0x67) (TS TSS_selector) ;;
    pdbr <- spr_read_dword (u32 (tss_addr + CR3_OFFSET_IN_386_TSS)) ;;
    old <- getc (fun c => CR_PDBR (cr c)) ;;
    when (negb (pdbr =? old)) (MOV_CR 3 pdbr) ;;
    load_all spr_read_dword 4 (u32 (tss_addr + IP_OFFSET_IN_386_TSS))
      ([SET_ip; fun flags => flags_at_0 (c_setEFLAGS flags)] ++ map SET_GR [0; 1; 2; 3; 4; 5; 6; 7]) ;;
    load_all spr_read_word 4 (u32 (tss_addr + 0x48))
      (map SET_SELECTOR [ES_REG; CS_REG; SS_REG; DS_REG; FS_REG; GS_REG]
       ++ [fun sel => modify_ldtr (SET_sar_selector sel)]) ;;
    spr_read_byte (u32 (tss_addr + 0x64))
  else
    when (sar_limit t <? 0x2b) (TS TSS_selector) ;;
    load_all spr_read_word 2 (u32 (tss_addr + IP_OFFSET_IN_286_TSS))
      ([SET_ip; fun flags => flags_at_0 (fun c => modify_fl (SET_VM 0) (setFLAGS flags c))]
       ++ map SET_WR [0; 1; 2; 3; 4; 5; 6; 7]
       ++ map SET_SELECTOR [ES_REG; CS_REG; SS_REG; DS_REG]) ;;
    modc (fun c => SET_SELECTOR GS_REG 0 (SET_SELECTOR FS_REG 0 c)) ;;
    sel <- spr_read_word (u32 (tss_addr + 0x2a)) ;;
    modc (modify_ldtr (SET_sar_selector sel)) ;;
    ret 0.

Definition invalidate_caches (c : cpu) : cpu :=
  fold_left (fun c i => SET_SR i (SEG_ar_w 0 (SEG_ar_r 0 (GET_SR i c))) c)
    [CS_REG; DS_REG; ES_REG; SS_REG; FS_REG; GS_REG] c.

(** The new code segment, checked; in virtual 8086 mode the variables that are loaded
    into CS afterwards have not been assigned. *)
Definition new_task_code : X (Z * Z * CPU_DESCR) :=
  vm <- getc (fun c => VM (fl c)) ;;
  if vm =? 1 then modc (SET_CPL 3) ;; undefined
  else
    new_cs <- getc (fun c => selector (GET_SR CS_REG c)) ;;
    modc (SET_CPL (GET_SELECTOR_RPL new_cs)) ;;
    cs_descr <- descr_or (TS new_cs) new_cs ;;
    cs_entry <- read_descriptor_linear cs_descr ;;
    let super := descriptor_super_type (d_AR cs_entry) in
    cpl <- getc CPL ;;
    (if code_conforming super then
       when (GET_AR_P (d_AR cs_entry) =? NOT_PRESENT) (NP new_cs) ;;
       when (cpl <? GET_AR_DPL (d_AR cs_entry)) (TS new_cs)
     else if code_nonconforming super then
       when (GET_AR_P (d_AR cs_entry) =? NOT_PRESENT) (NP new_cs) ;;
       when (negb (GET_AR_DPL (d_AR cs_entry) =? cpl)) (TS new_cs)
     else TS new_cs) ;;
    ret (new_cs, cs_descr, cs_entry).

Definition switch_tasks (returning nesting : bool) (TSS_selector descr return_ip : Z) : X unit :=
  old_tss <- getc (fun c => sar_selector (tr c)) ;;
  when (old_tss =? 0) (TS TSS_selector) ;;
  new_tss <- read_descriptor_linear descr ;;
  gdt <- getc (fun c => star_base (gdtr c)) ;;
  let old_descr := u32 (gdt + GET_SELECTOR_INDEX_TIMES8 old_tss) in
  old_AR <- spr_read_byte (u32 (old_descr + 5)) ;;
  save_task returning TSS_selector return_ip ;;
  (* load task register *)
  let AR := d_AR new_tss .| BIT_MASK 1 in
  spr_write_byte (u32 (descr + 5)) (u8 AR) ;;
  modc (SET_tr (mkSAR TSS_selector (descriptor_super_type AR) (d_base new_tss) (d_limit new_tss))) ;;
  (if nesting then spr_write_word (d_base new_tss) old_tss
   else spr_write_byte (u32 (old_descr + 5)) (old_AR .& not32 (BIT_MASK 1))) ;;
  T_byte <- load_task TSS_selector ;;
  modc invalidate_caches ;;
  (if nesting then modc (modify_fl (SET_NT 1)) else when (negb returning) (modc (modify_fl (SET_NT 0)))) ;;
  modc (modify_cr (fun r => SET_CR_STAT (CR_STAT r .| BIT_MASK 3) r)) ;;
  ondbg (fun d => SET_DR DR_DCR (DR d DR_DCR .& not32 LOCAL_BRK_ENABLE) d) ;;
  when (tst (T_byte .& BIT_MASK 0)) (ondbg (fun d => SET_DR DR_DSR (DR d DR_DSR .| DSR_BT_MASK) d)) ;;
  (* error checking *)
  load_LDT_in_task_switch TSS_selector ;;
  let! (new_cs, cs_descr, cs_entry) := new_task_code ;;
  load_CS_cache new_cs cs_descr cs_entry ;;
  vm <- getc (fun c => VM (fl c)) ;;
  ss <- getc (fun c => selector (GET_SR SS_REG c)) ;;
  (if vm =? 1 then load_stack_seg ss ;; modc (load_pseudo_descr SS_REG)
   else
     cpl <- getc CPL ;;
     r <- validate_SS_on_stack_change cpl ss ;;
     load_SS_cache ss (fst r) (snd r)) ;;
  let new_seg i := sel <- getc (fun c => selector (GET_SR i c)) ;; load_data_seg_new_task i sel in
  new_seg DS_REG ;; new_seg ES_REG ;; new_seg FS_REG ;; new_seg GS_REG.

(** ** Destinations *)

(** The selector, offset and count of a call gate. *)
Definition read_call_gate (descr_addr super : Z) : X (Z * Z * Z) :=
  first_dword <- spr_read_dword descr_addr ;;
  second_dword <- spr_read_dword (u32 (descr_addr + 4)) ;;
  let selector := u16 (first_dword .>> 16) in
  let offset := first_dword .& WORD_MASK in
  let count := second_dword .& BYTE_MASK in
  if super =? XTND_CALL_GATE then
    modc (SET_operand_size USE32) ;;
    ret (selector, (second_dword .& not32 WORD_MASK) .| offset, count .& 0x0f)
  else
    modc (SET_operand_size USE16) ;;
    ret (selector, offset, count .& 0x1f).

(** The descriptor's address and the destination type. *)
Definition validate_gate_dest (caller_id new_cs : Z) : X (Z * Z) :=
  descr_addr <- descr_or (GP new_cs) new_cs ;;
  AR <- spr_read_byte (u32 (descr_addr + 5)) ;;
  let super := descriptor_super_type AR in
  cpl <- getc CPL ;;
  dest_type <-
    (if code_conforming super then
       when (cpl <? GET_AR_DPL AR) (GP new_cs) ;; ret SAME_LEVEL
     else if code_nonconforming super then
       when (cpl <? GET_AR_DPL AR) (GP new_cs) ;;
       when (tst (caller_id .& JMP_ID) && negb (GET_AR_DPL AR =? cpl)) (GP new_cs) ;;
       ret (if GET_AR_DPL AR <? cpl then GET_AR_DPL AR else SAME_LEVEL)
     else GP new_cs ;; ret SAME_LEVEL) ;;
  c <- getc (fun c => c) ;;
  when ((VM (fl c) =? 1) && (negb (dest_type =? MORE_PRIVILEGE0) || negb (operand_size c =? USE32))) (GP new_cs) ;;
  when (GET_AR_P AR =? NOT_PRESENT) (NP new_cs) ;;
  ret (descr_addr, dest_type).

(** The descriptor's address and its type. *)
Definition validate_task_dest (selector : Z) : X (Z * Z) :=
  r <- getc (selector_outside_GDT selector) ;;
  match r with
  | None => GP selector ;; undefined
  | Some descr_addr =>
      AR <- spr_read_byte (u32 (descr_addr + 5)) ;;
      let super := descriptor_super_type AR in
      when (negb ((super =? AVAILABLE_TSS) || (super =? XTND_AVAILABLE_TSS))) (GP selector) ;;
      when (GET_AR_P AR =? NOT_PRESENT) (NP selector) ;;
      ret (descr_addr, super)
  end.

(** What a far destination turns out to be: [d_count] is only set by a call gate. *)
Record far_dest := mkDest { d_cs : Z; d_ip : Z; d_descr : Z; d_count : option Z; d_type : Z }.

(** The access check of gates and task segments. *)
Definition gate_access (new_cs AR : Z) : X unit :=
  cpl <- getc CPL ;;
  when ((GET_AR_DPL AR <? GET_SELECTOR_RPL new_cs) || (GET_AR_DPL AR <? cpl)) (GP new_cs) ;;
  when (GET_AR_P AR =? NOT_PRESENT) (NP new_cs).

Definition validate_far_dest (new_cs new_ip caller_id : Z) : X far_dest :=
  cs_descr_addr <- descr_or (GP new_cs) new_cs ;;
  AR <- spr_read_byte (u32 (cs_descr_addr + 5)) ;;
  let super := descriptor_super_type AR in
  cpl <- getc CPL ;;
  if code_conforming super then
    when (cpl <? GET_AR_DPL AR) (GP new_cs) ;;
    when (GET_AR_P AR =? NOT_PRESENT) (NP new_cs) ;;
    ret (mkDest new_cs new_ip cs_descr_addr None SAME_LEVEL)
  else if code_nonconforming super then
    when ((cpl <? GET_SELECTOR_RPL new_cs) || negb (GET_AR_DPL AR =? cpl)) (GP new_cs) ;;
    when (GET_AR_P AR =? NOT_PRESENT) (NP new_cs) ;;
    ret (mkDest new_cs new_ip cs_descr_addr None SAME_LEVEL)
  else if (super =? CALL_GATE) || (super =? XTND_CALL_GATE) then
    gate_access new_cs AR ;;
    let! (new_cs, new_ip, count) := read_call_gate cs_descr_addr super ;;
    let! (cs_descr_addr, dest_type) := validate_gate_dest caller_id new_cs ;;
    ret (mkDest new_cs new_ip cs_descr_addr (Some count) dest_type)
  else if super =? TASK_GATE then
    gate_access new_cs AR ;;
    new_cs <- spr_read_word (u32 (cs_descr_addr + 2)) ;;
    r <- validate_task_dest new_cs ;;
    ret (mkDest new_cs new_ip (fst r) None NEW_TASK)
  else if (super =? AVAILABLE_TSS) || (super =? XTND_AVAILABLE_TSS) then
    when (GET_SELECTOR_TI new_cs =? 1) (GP new_cs) ;;
    gate_access new_cs AR ;;
    ret (mkDest new_cs new_ip cs_descr_addr None NEW_TASK)
  else GP new_cs ;; undefined.

(** ** Far calls and jumps *)

(** Room for a new instruction pointer in the code segment. *)
Definition check_ip : X unit :=
  c <- getc (fun c => c) ;;
  when (limit (GET_SR CS_REG c) <? ip c) (GP 0).

Definition no_descr : CPU_DESCR := mkDESCR 0 0 0.

(** Push the return address and go to new code. *)
Definition call_to (new_cs new_ip descr_addr : Z) (entry : CPU_DESCR) : X unit :=
  cs <- getc (fun c => selector (GET_SR CS_REG c)) ;;
  spush16 cs ;;
  eip <- getc ip ;;
  spush eip ;;
  load_CS_cache new_cs descr_addr entry ;;
  modc (SET_ip new_ip).

Fixpoint pop_params (n : nat) : X (list Z) :=
  match n with
  | O => ret []
  | S n => x <- spop ;; l <- pop_params n ;; ret (x :: l)
  end.

Fixpoint push_params (l : list Z) : X unit :=
  match l with
  | [] => ret tt
  | x :: l => spush x ;; push_params l
  end.

(** A call to more privileged code, on the stack its level has in the task segment. *)
Definition call_inner (d : far_dest) : X unit :=
  cs_entry <- read_descriptor_linear (d_descr d) ;;
  let dpl := d_type d in
  let new_cs := SET_SELECTOR_RPL (d_cs d) dpl in
  let! (new_ss, new_sp) := get_stack_selector_from_TSS dpl ;;
  let! (ss_descr_addr, ss_entry) := validate_SS_on_stack_change dpl new_ss ;;
  count <- match d_count d with Some count => ret count | None => undefined end ;;
  validate_new_stack_space (count + 4) new_sp ss_entry new_ss ;;
  when (d_limit cs_entry <? d_ip d) (GP 0) ;;
  modc (SET_CPL dpl) ;;
  old <- getc (fun c => c) ;;
  load_CS_cache new_cs (d_descr d) cs_entry ;;
  modc (SET_ip (d_ip d)) ;;
  params <- pop_params (Z.to_nat count) ;;
  load_SS_cache new_ss ss_descr_addr ss_entry ;;
  modc (set_current_SP new_sp) ;;
  spush16 (selector (GET_SR SS_REG old)) ;;
  spush (GET_GR A_ESP old) ;;
  push_params (rev params) ;;
  spush16 (selector (GET_SR CS_REG old)) ;;
  spush (ip old).

Definition call_dest (d : far_dest) : X unit :=
  if d_type d =? NEW_TASK then
    eip <- getc ip ;;
    switch_tasks false true (d_cs d) (d_descr d) eip ;;
    check_ip
  else if d_type d =? SAME_LEVEL then
    cs_entry <- read_descriptor_linear (d_descr d) ;;
    cpl <- getc CPL ;;
    let new_cs := SET_SELECTOR_RPL (d_cs d) cpl in
    validate_stack_space USE_SP 2 ;;
    when (d_limit cs_entry <? d_ip d) (GP 0) ;;
    call_to new_cs (d_ip d) (d_descr d) cs_entry
  else call_inner d.

Definition CALLF (op1_ip op1_cs : Z) : X unit :=
  let new_cs := u16 op1_cs in
  real <- getc real_or_v86 ;;
  if real then
    validate_stack_space USE_SP 2 ;;
    call_to new_cs op1_ip 0 no_descr
  else
    d <- validate_far_dest new_cs op1_ip CALL_ID ;;
    call_dest d.

Definition jump_dest (d : far_dest) : X unit :=
  if d_type d =? NEW_TASK then
    eip <- getc ip ;;
    switch_tasks false false (d_cs d) (d_descr d) eip ;;
    check_ip
  else when (d_type d =? SAME_LEVEL)
    (entry <- read_descriptor_linear (d_descr d) ;;
     when (d_limit entry <? d_ip d) (GP 0) ;;
     cpl <- getc CPL ;;
     load_CS_cache (SET_SELECTOR_RPL (d_cs d) cpl) (d_descr d) entry ;;
     modc (SET_ip (d_ip d))).

Definition JMPF (op1_ip op1_cs : Z) : X unit :=
  let new_cs := u16 op1_cs in
  real <- getc real_or_v86 ;;
  if real then
    load_CS_cache new_cs 0 no_descr ;;
    modc (SET_ip op1_ip)
  else
    d <- validate_far_dest new_cs op1_ip JMP_ID ;;
    jump_dest d.

Definition JMPN (offset : Z) : X unit := modc (SET_ip offset).

(** ** Far returns *)

(** The code segment a return goes to, for the privilege of its selector. *)
Definition return_code (new_cs privilege : Z) : X (Z * CPU_DESCR) :=
  cs_descr_addr <- descr_or (GP new_cs) new_cs ;;
  cs_entry <- read_descriptor_linear cs_descr_addr ;;
  let super := descriptor_super_type (d_AR cs_entry) in
  (if code_conforming super then when (privilege <? GET_AR_DPL (d_AR cs_entry)) (GP new_cs)
   else if code_nonconforming super then when (negb (GET_AR_DPL (d_AR cs_entry) =? privilege)) (GP new_cs)
   else GP new_cs) ;;
  when (GET_AR_P (d_AR cs_entry) =? NOT_PRESENT) (NP new_cs) ;;
  ret (cs_descr_addr, cs_entry).

(** Data segments the lower privilege may not use are invalidated. *)
Definition revalidate_data (c : cpu) : cpu :=
  load_data_seg_new_privilege GS_REG (load_data_seg_new_privilege FS_REG
    (load_data_seg_new_privilege ES_REG (load_data_seg_new_privilege DS_REG c))).

(** A return may not go to more privilege; one to less privilege finds [items] on the
    stack. *)
Definition outward_check (new_cs cpl items : Z) : X unit :=
  let privilege := GET_SELECTOR_RPL new_cs in
  if privilege <? cpl then GP new_cs
  else when (negb (privilege =? cpl)) (validate_stack_exists USE_SP items).

Definition RETF (op1 : Z) : X unit :=
  validate_stack_exists USE_SP 2 ;;
  new_ip <- tpop 0 0 ;;
  x <- tpop 1 0 ;;
  let new_cs := u16 x in
  op <- getc operand_size ;;
  let stk_item := if op =? USE16 then op1 / 2 else op1 / 4 in
  real <- getc real_or_v86 ;;
  stk_inc <-
    (if real then
       load_CS_cache new_cs 0 no_descr ;;
       modc (SET_ip new_ip) ;; ret 2
     else
       cpl <- getc CPL ;;
       let privilege := GET_SELECTOR_RPL new_cs in
       outward_check new_cs cpl (4 + stk_item) ;;
       let! (cs_descr_addr, cs_entry) := return_code new_cs privilege ;;
       if privilege =? cpl then
         when (d_limit cs_entry <? new_ip) (GP 0) ;;
         load_CS_cache new_cs cs_descr_addr cs_entry ;;
         modc (SET_ip new_ip) ;; ret 2
       else
         y <- tpop 3 op1 ;;
         let new_ss := u16 y in
         let! (ss_descr_addr, ss_entry) := check_SS new_ss privilege ;;
         when (d_limit cs_entry <? new_ip) (GP 0) ;;
         modc (SET_CPL privilege) ;;
         load_CS_cache new_cs cs_descr_addr cs_entry ;;
         modc (SET_ip new_ip) ;;
         new_sp <- tpop 2 op1 ;;
         load_SS_cache new_ss ss_descr_addr ss_entry ;;
         modc (set_current_SP new_sp) ;;
         modc revalidate_data ;; ret 0) ;;
  modc (change_SP stk_inc) ;;
  modc (byte_change_SP op1).

End Transfer.
End Xfer.
