(* ===== verification/Intr.v ===== *)
(** * Interrupt delivery

    [do_intrupt] of [c_intr.c] with the gates of the interrupt descriptor table, the
    instructions that call it ([intx.c], [into.c], [bound.c]), the interrupt return of
    [iret.c], and the delivery of the interrupts the exception routines raise. *)

From S2P Require Import Prelude Cpu Debug Arith Shift Xcptn MulDiv Flow Mem Tlb Page Basic Seg Virt Addr Stack Xfer.

Module Intr.
Import Debug Xcptn Tlb Page Basic Seg Virt Addr Stack Xfer.

Section Deliver.
Context {P : Type} `{PhyMem P}.

Abbreviation X := (M exn (mach P)).

(** ** Delivery *)

(** What an interrupt gate leads to; [int_ip] is not set by a task gate. *)
Record int_dest := mkInt { int_super : Z; int_cs : Z; int_ip : option Z; int_descr : Z; int_type : Z }.

Definition validate_int_dest (vector : Z) (do_priv : bool) : X int_dest :=
  let offset := u16 (vector * 8) in
  idt <- getc idtr ;;
  when (star_limit idt <? offset + 7) (GP_INT vector) ;;
  let descr_addr := u32 (star_base idt + offset) in
  AR <- spr_read_byte (u32 (descr_addr + 5)) ;;
  let super := descriptor_super_type AR in
  (if (super =? INTERRUPT_GATE) || (super =? TRAP_GATE) then modc (SET_operand_size USE16)
   else if (super =? XTND_INTERRUPT_GATE) || (super =? XTND_TRAP_GATE) then modc (SET_operand_size USE32)
   else when (negb (super =? TASK_GATE)) (GP_INT vector)) ;;
  cpl <- getc CPL ;;
  when (do_priv && (GET_AR_DPL AR <? cpl)) (GP_INT vector) ;;
  when (GET_AR_P AR =? NOT_PRESENT) (NP_INT vector) ;;
  cs <- spr_read_word (u32 (descr_addr + 2)) ;;
  if super =? TASK_GATE then
    let! (descr_addr, tss_super) := validate_task_dest cs ;;
    (if (tss_super =? BUSY_TSS) || (tss_super =? AVAILABLE_TSS) then modc (SET_operand_size USE16)
     else when ((tss_super =? XTND_BUSY_TSS) || (tss_super =? XTND_AVAILABLE_TSS)) (modc (SET_operand_size USE32))) ;;
    ret (mkInt super cs None descr_addr NEW_TASK)
  else
    ip <- spr_read_word descr_addr ;;
    ip <- (if (super =? XTND_INTERRUPT_GATE) || (super =? XTND_TRAP_GATE) then
             hi <- spr_read_word (u32 (descr_addr + 6)) ;; ret ((hi .<< 16) .| ip)
           else ret ip) ;;
    let! (descr_addr, dest_type) := validate_gate_dest INT_ID cs ;;
    ret (mkInt super cs (Some ip) descr_addr dest_type).

(** The flags to push: RF is set for a fault. *)
Definition intrupt_flags (c : cpu) : Z :=
  if doing_fault (xs c) then c_getEFLAGS c .| BIT_MASK 16 else c_getEFLAGS c.

(** The flags, the return address and the error code. *)
Definition push_frame (flags : Z) (has_error_code : bool) (error_code : Z) : X unit :=
  spush flags ;;
  cs <- getc (fun c => selector (GET_SR CS_REG c)) ;; spush16 cs ;;
  eip <- getc ip ;; spush eip ;;
  when has_error_code (spush error_code).

(** Go to the handler. *)
Definition enter_handler (super new_cs new_ip descr_addr : Z) (entry : CPU_DESCR) : X unit :=
  load_CS_cache new_cs descr_addr entry ;;
  modc (SET_ip new_ip) ;;
  when ((super =? INTERRUPT_GATE) || (super =? XTND_INTERRUPT_GATE)) (modc (modify_fl (SET_IF 0))) ;;
  modc (modify_fl (SET_TF 0)) ;;
  modc (modify_fl (SET_NT 0)).

Definition int_real (vector : Z) : X unit :=
  validate_stack_space USE_SP 3 ;;
  let ivt_addr := u32 (vector * 4) in
  new_ip <- onmem (phy_read_word ivt_addr) ;;
  new_cs <- onmem (phy_read_word (u32 (ivt_addr + 2))) ;;
  flags <- getc intrupt_flags ;;
  push_frame flags false 0 ;;
  load_CS_cache new_cs 0 no_descr ;;
  modc (SET_ip new_ip) ;;
  modc (modify_fl (SET_IF 0)) ;;
  modc (modify_fl (SET_TF 0)).

Definition int_task (d : int_dest) (has_error_code : bool) (error_code : Z) : X unit :=
  eip <- getc ip ;;
  switch_tasks false true (int_cs d) (int_descr d) eip ;;
  when has_error_code (validate_stack_space USE_SP 1 ;; spush error_code) ;;
  check_ip.

Definition int_same (d : int_dest) (has_error_code : bool) (error_code : Z) : X unit :=
  cs_entry <- read_descriptor_linear (int_descr d) ;;
  cpl <- getc CPL ;;
  let new_cs := SET_SELECTOR_RPL (int_cs d) cpl in
  validate_stack_space USE_SP (if has_error_code then 4 else 3) ;;
  new_ip <- defined (int_ip d) ;;
  when (d_limit cs_entry <? new_ip) (GP 0) ;;
  flags <- getc intrupt_flags ;;
  push_frame flags has_error_code error_code ;;
  enter_handler (int_super d) new_cs new_ip (int_descr d) cs_entry.

(** Push the data selectors of virtual 8086 mode and invalidate the segments. *)
Definition leave_v86 : X unit :=
  let push_sel i := x <- getc (fun c => selector (GET_SR i c)) ;; spush16 x in
  push_sel GS_REG ;; push_sel FS_REG ;; push_sel DS_REG ;; push_sel ES_REG ;;
  load_data_seg GS_REG 0 ;; load_data_seg FS_REG 0 ;; load_data_seg DS_REG 0 ;; load_data_seg ES_REG 0.

Definition int_inner (d : int_dest) (has_error_code : bool) (error_code : Z) : X unit :=
  cs_entry <- read_descriptor_linear (int_descr d) ;;
  let dpl := int_type d in
  let new_cs := SET_SELECTOR_RPL (int_cs d) dpl in
  let! (new_ss, new_sp) := get_stack_selector_from_TSS dpl ;;
  let! (ss_descr_addr, ss_entry) := validate_SS_on_stack_change dpl new_ss ;;
  vm <- getc (fun c => VM (fl c)) ;;
  let stk_sz := (if vm =? 1 then 9 else 5) + (if has_error_code then 1 else 0) in
  validate_new_stack_space stk_sz new_sp ss_entry new_ss ;;
  new_ip <- defined (int_ip d) ;;
  when (d_limit cs_entry <? new_ip) (GP 0) ;;
  flags <- getc intrupt_flags ;;
  modc (SET_CPL dpl) ;;
  modc (modify_fl (SET_VM 0)) ;;
  old <- getc (fun c => c) ;;
  load_SS_cache new_ss ss_descr_addr ss_entry ;;
  modc (set_current_SP new_sp) ;;
  when (9 <=? stk_sz) leave_v86 ;;
  spush16 (selector (GET_SR SS_REG old)) ;;
  spush (GET_GR A_ESP old) ;;
  push_frame flags has_error_code error_code ;;
  enter_handler (int_super d) new_cs new_ip (int_descr d) cs_entry.

Definition int_enter (d : int_dest) (has_error_code : bool) (error_code : Z) : X unit :=
  if int_type d =? NEW_TASK then int_task d has_error_code error_code
  else if int_type d =? SAME_LEVEL then int_same d has_error_code error_code
  else int_inner d has_error_code error_code.

(** The end of a successful delivery. *)
Definition intrupt_done (x : XSTATUS) : XSTATUS :=
  SET_doing_double_fault false (SET_doing_page_fault false (SET_doing_contributory false
    (SET_doing_fault false (SET_EXT INTERNAL x)))).

Definition do_intrupt (vector : Z) (priv_check has_error_code : bool) (error_code : Z) : X unit :=
  if vector =? 0xffff then ret tt
  else
    pe <- getc GET_PE ;;
    (if pe =? 0 then int_real vector
     else
       d <- validate_int_dest vector priv_check ;;
       int_enter d has_error_code error_code) ;;
    modc (modify_xs intrupt_done).

(** An exception routine calls [do_intrupt] and continues with the next instruction; a
    fault that comes up on the way does the same from inside that call, and does not
    return to it.  [None] is a chain of more than [fuel] calls. *)
Fixpoint deliver (fuel : nat) (e : exn) (s : mach P) : option (outcome exn (mach P) unit) :=
  match e with
  | CpuContinue => Some (Ret tt s)
  | InterfaceAbort => Some (Raise InterfaceAbort s)
  | Intrupt vector priv_check has_error_code error_code =>
      match fuel with
      | O => None
      | S fuel =>
          match do_intrupt vector priv_check has_error_code error_code s with
          | Raise e s => deliver fuel e s
          | o => Some o
          end
      end
  end.

(** ** Instructions *)

Definition INTx (op1 : Z) : X unit :=
  modc (modify_xs (SET_EXT INTERNAL)) ;;
  do_intrupt (u16 op1) true false 0.

Definition INTO : X unit :=
  o <- getc (fun c => OF (fl c)) ;;
  when (tst o)
    (modc (modify_xs (SET_EXT INTERNAL)) ;;
     do_intrupt 4 true false 0).

(** The signed value of an operand. *)
Definition bound_operand (op_sz x : Z) : Z :=
  if (op_sz =? 16) && tst (x .& BIT_MASK 15) then s32 (x .| not32 WORD_MASK) else s32 x.

Definition BOUND (op1 op2_0 op2_1 op_sz : Z) : X unit :=
  let value := bound_operand op_sz op1 in
  let lower := bound_operand op_sz op2_0 in
  let upper := bound_operand op_sz op2_1 in
  when ((value <? lower) || (upper <? value)) Int5.

(** ** Interrupt return *)

Definition set_current_FLAGS (flags : Z) (c : cpu) : cpu :=
  if operand_size c =? USE16 then setFLAGS flags c else c_setEFLAGS flags c.

(** The return address and flags on the stack. *)
Definition iret_frame : X (Z * Z * Z) :=
  validate_stack_exists USE_SP 3 ;;
  new_ip <- tpop 0 0 ;;
  new_cs <- tpop 1 0 ;;
  new_flags <- tpop 2 0 ;;
  ret (new_ip, u16 new_cs, new_flags).

Definition iret_v86 (new_ip new_cs new_flags : Z) : X unit :=
  validate_stack_exists USE_SP 9 ;;
  when (0xffff <? new_ip) (GP 0) ;;
  modc (c_setEFLAGS new_flags) ;;
  modc (SET_CPL 3) ;;
  load_CS_cache new_cs 0 no_descr ;;
  modsr CS_REG (SEG_limit 0xffff) ;;
  modc (SET_ip new_ip) ;;
  new_sp <- tpop 3 0 ;;
  new_ss <- tpop 4 0 ;;
  let load_item i item := sel <- tpop item 0 ;; load_data_seg i (u16 sel) in
  load_item ES_REG 5 ;; load_item DS_REG 6 ;; load_item FS_REG 7 ;; load_item GS_REG 8 ;;
  load_stack_seg (u16 new_ss) ;;
  modc (set_current_SP new_sp) ;;
  modc (fun c => fold_left (fun c i => load_pseudo_descr i c) [SS_REG; DS_REG; ES_REG; FS_REG; GS_REG] c).

(** To code of the privilege of the return selector. *)
Definition iret_level (new_ip new_cs new_flags cpl : Z) : X unit :=
  let privilege := GET_SELECTOR_RPL new_cs in
  let! (cs_descr_addr, cs_entry) := return_code new_cs privilege ;;
  if privilege =? cpl then
    when (d_limit cs_entry <? new_ip) (GP 0) ;;
    load_CS_cache new_cs cs_descr_addr cs_entry ;;
    modc (SET_ip new_ip) ;;
    modc (change_SP 3) ;;
    modc (set_current_FLAGS new_flags)
  else
    y <- tpop 4 0 ;;
    let new_ss := u16 y in
    let! (ss_descr_addr, ss_entry) := check_SS new_ss privilege ;;
    when (d_limit cs_entry <? new_ip) (GP 0) ;;
    load_CS_cache new_cs cs_descr_addr cs_entry ;;
    modc (SET_ip new_ip) ;;
    modc (set_current_FLAGS new_flags) ;;
    new_sp <- tpop 3 0 ;;
    load_SS_cache new_ss ss_descr_addr ss_entry ;;
    modc (set_current_SP new_sp) ;;
    modc (SET_CPL privilege) ;;
    modc revalidate_data.

Definition IRET : X unit :=
  real <- getc real_or_v86 ;;
  if real then
    let! (new_ip, new_cs, new_flags) := iret_frame ;;
    load_CS_cache new_cs 0 no_descr ;;
    modc (SET_ip new_ip) ;;
    modc (change_SP 3) ;;
    modc (set_current_FLAGS new_flags)
  else
    nt <- getc (fun c => NT (fl c)) ;;
    if nt =? 1 then
      tss <- getc (fun c => sar_base (tr c)) ;;
      back_link <- spr_read_word tss ;;
      r <- validate_TSS back_link true ;;
      eip <- getc ip ;;
      switch_tasks true false back_link (fst r) eip ;;
      check_ip
    else
      let! (new_ip, new_cs, new_flags) := iret_frame ;;
      cpl <- getc CPL ;;
      let new_flags := if negb (cpl =? 0) then new_flags .& not32 (BIT_MASK 17) else new_flags in
      if tst (new_flags .& BIT_MASK 17) then iret_v86 new_ip new_cs new_flags
      else
        outward_check new_cs cpl 5 ;;
        iret_level new_ip new_cs new_flags cpl.

End Deliver.
End Intr.
