(* ===== verification/Wp.v ===== *)
(** * Weakest preconditions on the registers

    Far transfers and interrupt delivery touch memory in many places, but what the
    privilege rules and the fault status say is about the registers.  The judgement
    [wp m Q F c] follows a computation on the registers alone: started with registers
    [c], it returns only values and registers in [Q], and leaves by an exception only
    when a fault routine was called with registers in [F]. *)

From S2P Require Import Prelude Cpu Debug Arith Shift Xcptn MulDiv Mem Tlb Page Basic Seg Virt Addr Stack.

Module Wp.
Import Debug Xcptn Tlb Page Basic Seg Virt Addr Stack.

(** Physical memory accesses raise nothing: faults come from paging and from the
    instructions. *)
Class PhyQuiet (P : Type) `{PhyMem P} := {
  quiet_read_byte a m e m' : phy_read_byte a m <> Raise e m';
  quiet_read_word a m e m' : phy_read_word a m <> Raise e m';
  quiet_read_dword a m e m' : phy_read_dword a m <> Raise e m';
  quiet_write_byte a v m e m' : phy_write_byte a v m <> Raise e m';
  quiet_write_word a v m e m' : phy_write_word a v m <> Raise e m';
  quiet_write_dword a v m e m' : phy_write_dword a v m <> Raise e m'
}.

(** The registers at a page fault. *)
Definition at_page (lin : Z) (c : cpu) : cpu := modify_cr (SET_CR_PFLA lin) c.

Create HintDb wp.

Section Wp.
Context {P : Type} `{PhyQuiet P}.

Abbreviation X := (M exn (mach P)).

Definition wp {A} (m : X A) (Q : A -> cpu -> Prop) (F : cpu -> Prop) (c : cpu) : Prop :=
  forall s, mcpu s = c ->
  match m s with
  | Ret a s' => Q a (mcpu s')
  | Raise e s' => exists k s1, F (mcpu s1) /\ raise_fault k s1 = Raise e s'
  | Undefined => True
  end.

(** ** Structural rules *)

Lemma wp_ret {A} (a : A) Q F c : Q a c -> wp (ret a) Q F c.
Proof. intros HQ s <-. exact HQ. Qed.

Lemma wp_bind {A B} (m : X A) (k : A -> X B) Q F c :
  wp m (fun a => wp (k a) Q F) F c -> wp (bind m k) Q F c.
Proof.
  intros HM s Hs. specialize (HM s Hs). unfold bind. destruct (m s) as [a s'|e s'|]; [|exact HM | exact HM].
  exact (HM s' eq_refl).
Qed.

Lemma wp_weaken {A} (m : X A) (Q Q' : A -> cpu -> Prop) (F F' : cpu -> Prop) c :
  wp m Q F c -> (forall a c', Q a c' -> Q' a c') -> (forall c', F c' -> F' c') -> wp m Q' F' c.
Proof.
  intros HM HQ HF s Hs. specialize (HM s Hs). destruct (m s) as [a s'|e s'|]; auto.
  destruct HM as (k & s1 & H1 & H2). eauto.
Qed.

Lemma wp_gets {A} (f : mach P -> A) (Q : A -> cpu -> Prop) F c : (forall a, Q a c) -> wp (gets f) Q F c.
Proof. intros HQ s <-. apply HQ. Qed.

Lemma wp_getc {A} (f : cpu -> A) (Q : A -> cpu -> Prop) F c : Q (f c) c -> wp (getc f) Q F c.
Proof. intros HQ s <-. exact HQ. Qed.

Lemma wp_modc f (Q : unit -> cpu -> Prop) F c : Q tt (f c) -> wp (modc f) Q F c.
Proof. intros HQ s <-. exact HQ. Qed.

Lemma wp_modify f (Q : unit -> cpu -> Prop) F c : (forall s, mcpu (f s) = mcpu s) -> Q tt c -> wp (modify f) Q F c.
Proof. intros Hf HQ s <-. cbn. rewrite Hf. exact HQ. Qed.

Lemma wp_undefined {A} (Q : A -> cpu -> Prop) F c : wp undefined Q F c.
Proof. intros s _. exact I. Qed.

Lemma wp_when (b : bool) (m : X unit) (Q : unit -> cpu -> Prop) F c :
  (b = true -> wp m Q F c) -> (b = false -> Q tt c) -> wp (when b m) Q F c.
Proof. destruct b; intros H1 H2; [apply H1 | apply wp_ret, H2]; reflexivity. Qed.

Lemma wp_if {A} (b : bool) (m1 m2 : X A) Q F c :
  (b = true -> wp m1 Q F c) -> (b = false -> wp m2 Q F c) -> wp (if b then m1 else m2) Q F c.
Proof. destruct b; auto. Qed.

(** ** Faults do not return *)

(** It has an outcome; it has one and that is an exception. *)
Definition stops {A} (m : X A) : Prop := forall s, m s <> Undefined.
Definition raises {A} (m : X A) : Prop := forall s, exists e s', m s = Raise e s'.

Lemma raises_stops {A} (m : X A) : raises m -> stops m.
Proof. intros Hm s. destruct (Hm s) as (e & s' & ->). discriminate. Qed.

Lemma raises_bind {A B} (m : X A) (k : A -> X B) : stops m -> (forall a, raises (k a)) -> raises (bind m k).
Proof.
  intros Hm Hk s. unfold bind. specialize (Hm s). destruct (m s) as [a s'|e s'|]; [apply Hk | eauto | contradiction].
Qed.

Lemma stops_bind {A B} (m : X A) (k : A -> X B) : stops m -> (forall a, stops (k a)) -> stops (bind m k).
Proof. intros Hm Hk s. unfold bind. specialize (Hm s). destruct (m s) as [a s'|e s'|]; [apply Hk | discriminate | contradiction]. Qed.

Lemma raises_throw {A} e : raises (throw (A := A) e).
Proof. intros s. eauto. Qed.

Lemma stops_ret {A} (a : A) : stops (ret a).
Proof. intros s. discriminate. Qed.
Lemma stops_getc {A} (f : cpu -> A) : stops (getc f).
Proof. intros s. discriminate. Qed.
Lemma stops_modc f : stops (modc f).
Proof. intros s. discriminate. Qed.
Lemma stops_if {A} (b : bool) (m1 m2 : X A) : stops m1 -> stops m2 -> stops (if b then m1 else m2).
Proof. destruct b; auto. Qed.
Lemma stops_when (b : bool) (m : X unit) : stops m -> stops (when b m).
Proof. intros Hm. apply stops_if; [exact Hm | apply stops_ret]. Qed.

Hint Resolve raises_throw stops_ret stops_getc stops_modc stops_if stops_when raises_stops : wp.
Hint Resolve stops_bind raises_bind : wp.

Lemma double_raises : raises DF_fault.
Proof. unfold DF_fault, check_for_shutdown. auto 12 with wp. Qed.

Hint Resolve double_raises : wp.

Lemma fault_raises k : raises (raise_fault k).
Proof.
  destruct k; cbn [raise_fault]; unfold GP, NP, SF_fault, TS, GP_INT, NP_INT, PF_fault, contributory_exception,
    contributory_idt_exception, check_interface_active, check_for_shutdown, check_for_double_fault, set_fault; auto 20 with wp.
Qed.

Lemma wp_fault k (Q : unit -> cpu -> Prop) (F : cpu -> Prop) c : F c -> wp (raise_fault k) Q F c.
Proof. intros HF s <-. destruct (fault_raises k s) as (e & s' & E). rewrite E. exists k, s. auto. Qed.

Lemma wp_GP sel (Q : unit -> cpu -> Prop) (F : cpu -> Prop) c : F c -> wp (GP sel) Q F c.
Proof. apply (wp_fault (FGP sel)). Qed.
Lemma wp_NP sel (Q : unit -> cpu -> Prop) (F : cpu -> Prop) c : F c -> wp (NP sel) Q F c.
Proof. apply (wp_fault (FNP sel)). Qed.
Lemma wp_SF sel (Q : unit -> cpu -> Prop) (F : cpu -> Prop) c : F c -> wp (SF_fault sel) Q F c.
Proof. apply (wp_fault (FSF sel)). Qed.
Lemma wp_TS sel (Q : unit -> cpu -> Prop) (F : cpu -> Prop) c : F c -> wp (TS sel) Q F c.
Proof. apply (wp_fault (FTS sel)). Qed.
Lemma wp_GP_INT v (Q : unit -> cpu -> Prop) (F : cpu -> Prop) c : F c -> wp (GP_INT v) Q F c.
Proof. apply (wp_fault (FGP_INT v)). Qed.
Lemma wp_NP_INT v (Q : unit -> cpu -> Prop) (F : cpu -> Prop) c : F c -> wp (NP_INT v) Q F c.
Proof. apply (wp_fault (FNP_INT v)). Qed.

Lemma wp_page_fault lin code (Q : unit -> cpu -> Prop) (F : cpu -> Prop) c :
  F (at_page lin c) -> wp (page_fault lin code) Q F c.
Proof. intros HF. apply wp_bind, wp_modc. apply (wp_fault (FPF (u16 code))), HF. Qed.

(** ** Memory accesses leave the registers alone *)

(** Whatever a computation that changes no register and faults only on paging returns. *)
Definition access {A} (m : X A) : Prop :=
  forall (Q : A -> cpu -> Prop) (F : cpu -> Prop) c, (forall a, Q a c) -> (forall lin, F (at_page lin c)) -> wp m Q F c.

Lemma access_ret {A} (a : A) : access (ret a).
Proof. intros Q F c HQ _. apply wp_ret, HQ. Qed.

Lemma access_bind {A B} (m : X A) (k : A -> X B) : access m -> (forall a, access (k a)) -> access (bind m k).
Proof. intros Hm Hk Q F c HQ HF. apply wp_bind, Hm; [intros a; apply Hk; assumption | exact HF]. Qed.

Lemma access_if {A} (b : bool) (m1 m2 : X A) : access m1 -> access m2 -> access (if b then m1 else m2).
Proof. destruct b; auto. Qed.

Lemma access_when (b : bool) (m : X unit) : access m -> access (when b m).
Proof. intros Hm. apply access_if; [exact Hm | apply access_ret]. Qed.

Lemma access_gets {A} (f : mach P -> A) : access (gets f).
Proof. intros Q F c HQ _. apply wp_gets, HQ. Qed.

Lemma access_getc {A} (f : cpu -> A) : access (getc f).
Proof. intros Q F c HQ _. apply wp_getc, HQ. Qed.

Lemma access_undefined {A} : access (undefined (A := A)).
Proof. intros Q F c _ _. apply wp_undefined. Qed.

Lemma access_onmem {A} (m : M exn P A) : (forall x e x', m x <> Raise e x') -> access (onmem m).
Proof.
  intros Hm Q F c HQ _ s <-. unfold onmem. destruct (m (mmem s)) as [a x|e x|] eqn:E; [apply HQ | exfalso; eapply Hm, E | exact I].
Qed.

Lemma access_ontlb f : access (ontlb f).
Proof. intros Q F c HQ _. apply wp_modify; [reflexivity | apply HQ]. Qed.

Lemma access_ondbg f : access (ondbg f).
Proof. intros Q F c HQ _. apply wp_modify; [reflexivity | apply HQ]. Qed.

Lemma access_page_fault lin code : access (page_fault lin code).
Proof. intros Q F c _ HF. apply wp_page_fault, HF. Qed.

End Wp.

#[export] Hint Resolve access_ret access_bind access_if access_when access_gets access_getc access_undefined
  access_ontlb access_ondbg access_page_fault : wp.
#[export] Hint Extern 2 (access (onmem _)) =>
  apply access_onmem; first [apply quiet_read_byte | apply quiet_read_word | apply quiet_read_dword
    | apply quiet_write_byte | apply quiet_write_word | apply quiet_write_dword] : wp.

(** Follow the structure of a memory access. *)
Ltac access_tac :=
  repeat first [ solve [auto with wp nocore]
               | progress intros
               | apply access_bind | apply access_if | apply access_when
               | match goal with |- access (match ?x with _ => _ end) => destruct x end ].

Section Accesses.
Context {P : Type} `{PhyQuiet P}.

Lemma access_lin2phy lin acc : access (lin2phy lin acc).
Proof. unfold lin2phy, lin2phy_miss. access_tac. Qed.
Hint Resolve access_lin2phy : wp.

Lemma access_usr_chk_word lin acc : access (usr_chk_word lin acc).
Proof. unfold usr_chk_word, paging. access_tac. Qed.
Lemma access_usr_chk_dword lin acc : access (usr_chk_dword lin acc).
Proof. unfold usr_chk_dword, paging. access_tac. Qed.
Lemma access_spr_chk_word lin acc : access (spr_chk_word lin acc).
Proof. unfold spr_chk_word, paging. access_tac. Qed.
Lemma access_spr_chk_dword lin acc : access (spr_chk_dword lin acc).
Proof. unfold spr_chk_dword, paging. access_tac. Qed.
Lemma access_spr_read_byte a : access (spr_read_byte a).
Proof. unfold spr_read_byte, paging. access_tac. Qed.
Hint Resolve access_spr_read_byte : wp.
Lemma access_spr_read_word a : access (spr_read_word a).
Proof. unfold spr_read_word, paging. access_tac. Qed.
Hint Resolve access_spr_read_word : wp.
Lemma access_spr_read_dword a : access (spr_read_dword a).
Proof. unfold spr_read_dword, paging. access_tac. Qed.
Lemma access_spr_write_byte a v : access (spr_write_byte a v).
Proof. unfold spr_write_byte, paging. access_tac. Qed.
Hint Resolve access_spr_write_byte : wp.
Lemma access_spr_write_word a v : access (spr_write_word a v).
Proof. unfold spr_write_word, paging. access_tac. Qed.
Hint Resolve access_spr_write_word : wp.
Lemma access_spr_write_dword a v : access (spr_write_dword a v).
Proof. unfold spr_write_dword, paging. access_tac. Qed.
Hint Resolve access_spr_read_dword access_spr_write_dword : wp.

Lemma access_vir_read_word a p : access (vir_read_word a p).
Proof. unfold vir_read_word, data_break, softpc_host_debug_read, notify. access_tac. Qed.
Lemma access_vir_read_dword a p : access (vir_read_dword a p).
Proof. unfold vir_read_dword, data_break, softpc_host_debug_read, notify. access_tac. Qed.
Lemma access_vir_write_word a p v : access (vir_write_word a p v).
Proof. unfold vir_write_word, data_break, notify. access_tac. Qed.
Lemma access_vir_write_dword a p v : access (vir_write_dword a p v).
Proof. unfold vir_write_dword, data_break, notify. access_tac. Qed.

Lemma access_read_descriptor a : access (read_descriptor_linear a).
Proof. unfold read_descriptor_linear. access_tac. Qed.

End Accesses.

#[export] Hint Resolve access_lin2phy access_usr_chk_word access_usr_chk_dword access_spr_chk_word access_spr_chk_dword
  access_spr_read_byte access_spr_read_word access_spr_read_dword access_spr_write_byte access_spr_write_word
  access_spr_write_dword access_vir_read_word access_vir_read_dword access_vir_write_word access_vir_write_dword
  access_read_descriptor : wp.

(** ** What operations preserve *)

(** A relation on the registers that paging, the general registers, the segment
    registers other than CS and the operand size do not affect. *)
Class Ambient (R : cpu -> cpu -> Prop) := {
  amb_refl c : R c c;
  amb_trans c1 c2 c3 : R c1 c2 -> R c2 c3 -> R c1 c3;
  amb_page lin c : R c (at_page lin c);
  amb_gr g c : R c (SET_gr g c);
  amb_sr i x c : i <> CS_REG -> R c (SET_SR i x c);
  amb_size x c : R c (SET_operand_size x c)
}.

#[export] Hint Extern 0 (Ambient _) => typeclasses eauto : wp.

Section Within.
Context {P : Type} `{PhyQuiet P} (R : cpu -> cpu -> Prop) `{!Ambient R}.

Abbreviation X := (M exn (mach P)).

Definition within {A} (m : X A) : Prop := forall c, wp m (fun _ => R c) (R c) c.

Lemma wp_within {A} (m : X A) (Q : A -> cpu -> Prop) (F : cpu -> Prop) c :
  within m -> (forall a c', R c c' -> Q a c') -> (forall c', R c c' -> F c') -> wp m Q F c.
Proof. intros Hm HQ HF. exact (wp_weaken _ _ _ _ _ _ (Hm c) HQ HF). Qed.

Lemma within_access {A} (m : X A) : access m -> within m.
Proof. intros Hm c. apply Hm; [intros _; apply amb_refl | intros lin; apply amb_page]. Qed.

Lemma within_bind {A B} (m : X A) (k : A -> X B) : within m -> (forall a, within (k a)) -> within (bind m k).
Proof.
  intros Hm Hk c. apply wp_bind. apply (wp_within m); [exact Hm | | auto].
  intros a c' Hc. apply (wp_within (k a)); [apply Hk | |]; intros; eapply amb_trans; eassumption.
Qed.

Lemma within_ret {A} (a : A) : within (ret a).
Proof. intros c. apply wp_ret, amb_refl. Qed.
Lemma within_undefined {A} : within (undefined (A := A)).
Proof. intros c. apply wp_undefined. Qed.
Lemma within_getc {A} (f : cpu -> A) : within (getc f).
Proof. intros c. apply wp_getc, amb_refl. Qed.
Lemma within_if {A} (b : bool) (m1 m2 : X A) : within m1 -> within m2 -> within (if b then m1 else m2).
Proof. destruct b; auto. Qed.
Lemma within_when (b : bool) (m : X unit) : within m -> within (when b m).
Proof. intros Hm. apply within_if; [exact Hm | apply within_ret]. Qed.
Lemma within_modc f : (forall c, R c (f c)) -> within (modc f).
Proof. intros Hf c. apply wp_modc, Hf. Qed.
Lemma within_modsr i f : i <> CS_REG -> within (modsr i f).
Proof. intros Hi. apply within_modc. intros c. apply amb_sr, Hi. Qed.

Lemma within_GP sel : within (GP sel).
Proof. intros c. apply wp_GP, amb_refl. Qed.
Lemma within_NP sel : within (NP sel).
Proof. intros c. apply wp_NP, amb_refl. Qed.
Lemma within_SF sel : within (SF_fault sel).
Proof. intros c. apply wp_SF, amb_refl. Qed.
Lemma within_TS sel : within (TS sel).
Proof. intros c. apply wp_TS, amb_refl. Qed.
Lemma within_GP_INT v : within (GP_INT v).
Proof. intros c. apply wp_GP_INT, amb_refl. Qed.
Lemma within_NP_INT v : within (NP_INT v).
Proof. intros c. apply wp_NP_INT, amb_refl. Qed.

Lemma amb_set_SP x c : R c (set_current_SP x c).
Proof. unfold set_current_SP. destruct (_ =? _); apply amb_gr. Qed.
Lemma amb_byte_SP x c : R c (byte_change_SP x c).
Proof. unfold byte_change_SP. destruct (_ =? _); apply amb_gr. Qed.
Lemma amb_change_SP x c : R c (change_SP x c).
Proof. rewrite change_SP_bytes. apply amb_byte_SP. Qed.

End Within.

#[export] Hint Resolve within_access within_ret within_undefined within_getc within_GP within_NP within_SF within_TS
  within_GP_INT within_NP_INT : wp.

Ltac amb := first [ apply amb_refl | apply amb_gr | apply amb_size | apply amb_set_SP; typeclasses eauto | apply amb_byte_SP; typeclasses eauto
  | apply amb_change_SP; typeclasses eauto | apply amb_sr; assumption ].

(** Follow the structure of an operation. *)
Ltac within_step :=
  match goal with
  | |- within _ (bind _ _) => apply within_bind; [assumption || typeclasses eauto | | intros ?]
  | |- within _ (when _ _) => apply within_when; [assumption || typeclasses eauto |]
  | |- within _ (if _ then _ else _) => apply within_if
  | |- within _ (modsr _ _) => apply within_modsr; [assumption || typeclasses eauto |]; try (unfold CS_REG, SS_REG, DS_REG, ES_REG, FS_REG, GS_REG; congruence)
  | |- within _ (modc _) => apply within_modc; intros ?; amb
  | |- within _ (match ?x with _ => _ end) => destruct x
  end.
Ltac within_tac := repeat first [ solve [auto with wp nocore] | within_step ].

Section Operations.
Context {P : Type} `{PhyQuiet P} (R : cpu -> cpu -> Prop) `{!Ambient R}.

Abbreviation within m := (within (P := P) R m).

Lemma within_spop : within spop.
Proof. unfold spop. within_tac. Qed.
Lemma within_spush x : within (spush x).
Proof. unfold spush. within_tac. Qed.
Lemma within_spush16 x : within (spush16 x).
Proof. unfold spush16. within_tac. Qed.
Lemma within_tpop i b : within (tpop i b).
Proof. unfold tpop. within_tac. Qed.

Lemma within_limit_check i off nr sz : within (limit_check i off nr sz).
Proof. unfold limit_check. within_tac. Qed.
Hint Resolve within_limit_check : wp.

Lemma within_check_items n : forall off acc, within (check_items n off acc).
Proof. induction n as [|n IH]; intros off acc; cbn [check_items]; within_tac. Qed.
Lemma within_check_new_items n : forall base off word, within (check_new_items n base off word).
Proof. induction n as [|n IH]; intros base off word; cbn [check_new_items]; within_tac. Qed.
Hint Resolve within_check_items within_check_new_items : wp.

Lemma within_stack_access_fault : within stack_access_fault.
Proof. unfold stack_access_fault. within_tac. Qed.
Hint Resolve within_stack_access_fault : wp.

Lemma within_stack_exists use_bp nr : within (validate_stack_exists use_bp nr).
Proof. unfold validate_stack_exists. within_tac. Qed.
Lemma within_stack_space use_bp nr : within (validate_stack_space use_bp nr).
Proof. unfold validate_stack_space. within_tac. Qed.
Lemma within_new_stack_space nr top entry sel : within (validate_new_stack_space nr top entry sel).
Proof. unfold validate_new_stack_space. within_tac. Qed.

Lemma within_descr_or (m : M exn (mach P) unit) sel : within m -> within (descr_or m sel).
Proof. intros Hm. unfold descr_or. within_tac. Qed.
Hint Resolve within_descr_or : wp.

Lemma within_check_SS sel p : within (check_SS sel p).
Proof. unfold check_SS. within_tac. Qed.
Lemma within_stack_from_TSS p : within (get_stack_selector_from_TSS p).
Proof. unfold get_stack_selector_from_TSS. within_tac. Qed.
Lemma within_SS_change p sel : within (validate_SS_on_stack_change p sel).
Proof. unfold validate_SS_on_stack_change. within_tac. Qed.
Lemma within_TSS sel b : within (validate_TSS sel b).
Proof. unfold validate_TSS. within_tac. Qed.
Lemma within_load_SS_cache sel d e : within (load_SS_cache sel d e).
Proof. unfold load_SS_cache. within_tac. Qed.
Hint Resolve within_check_SS within_load_SS_cache : wp.
Lemma within_load_stack_seg sel : within (load_stack_seg sel).
Proof. unfold load_stack_seg. within_tac. Qed.
Lemma within_load_data_checked i sel d e b : i <> CS_REG -> within (load_data_checked i sel d e b).
Proof. intros Hi. unfold load_data_checked. within_tac. Qed.
Hint Resolve within_load_data_checked : wp.
Lemma within_load_data_seg i sel : i <> CS_REG -> within (load_data_seg i sel).
Proof. intros Hi. unfold load_data_seg. within_tac. Qed.

Lemma amb_new_privilege i c : i <> CS_REG -> R c (load_data_seg_new_privilege i c).
Proof. intros Hi. unfold load_data_seg_new_privilege. destruct (match _ with Some _ => _ | None => _ end); [apply amb_refl | apply amb_sr, Hi]. Qed.

End Operations.

#[export] Hint Resolve within_spop within_spush within_spush16 within_tpop within_stack_exists within_stack_space
  within_new_stack_space within_descr_or within_check_SS within_stack_from_TSS within_SS_change within_TSS
  within_load_SS_cache within_load_stack_seg within_load_data_seg : wp.

(** ** The physical memory routines raise nothing *)

Section SasQuiet.
Context {V : Type} `{Mem.Handlers V} (junk_value : Z).

Abbreviation calm m := (forall (s : Mem.sas V) (e : exn) s', m s <> Raise e s').

Lemma calm_bind {A B} (m : M exn (Mem.sas V) A) (k : A -> M exn (Mem.sas V) B) :
  calm m -> (forall a, calm (k a)) -> calm (bind m k).
Proof.
  intros Hm Hk s e s'. unfold bind. destruct (m s) as [a s1|e1 s1|] eqn:E; [apply Hk | | discriminate].
  exfalso. eapply Hm, E.
Qed.

Lemma calm_ret {A} (a : A) : calm (ret a).
Proof. discriminate. Qed.

Lemma calm_call_read f a : calm (Mem.call_read f a).
Proof. intros s e s'. unfold Mem.call_read. destruct (f a (Mem.vid s)). discriminate. Qed.

Lemma calm_phyR n : forall a sz f, calm (Mem.phyR junk_value n a sz f).
Proof.
  induction n as [|n IH]; intros a sz f s e s'; [discriminate|]. cbn [Mem.phyR].
  destruct (_ || _); [discriminate|]. destruct (_ =? Mem.SAS_DANGEROUS).
  - generalize 0 at 1 as byte. generalize 0 as r. generalize (a .& Mem.SasWrapMask s) as a'. revert s e s'.
    generalize (Z.to_nat sz) as k. intros k. induction k as [|k IHk]; intros s e s' a' r byte; [discriminate|].
    revert s e s'. apply calm_bind; [apply IH|]. intros x s e s'. apply IHk.
  - destruct (_ =? Mem.SAS_VIDEO); [apply calm_call_read|]. destruct (_ =? Mem.SAS_INACCESSIBLE); discriminate.
Qed.

Lemma calm_call_ptr f t a v : calm (Mem.call_ptr f t a v).
Proof. intros s e s'. unfold Mem.call_ptr. destruct (_ <? _); discriminate. Qed.

Lemma calm_w8 a v : calm (Mem.phy_w8 a v).
Proof.
  intros s e s'. unfold Mem.phy_w8. repeat first [destruct (_ <? _) | destruct (_ =? _) | destruct (_ || _)];
    try discriminate; apply calm_call_ptr.
Qed.

Lemma calm_w16 a v : calm (Mem.phy_w16 a v).
Proof.
  intros s e s'. unfold Mem.phy_w16. repeat first [destruct (_ <? _) | destruct (_ <=? _) | destruct (_ =? _) | destruct (_ || _)];
    try discriminate; apply calm_call_ptr.
Qed.

Lemma sas_quiet : PhyQuiet (Mem.sas V) (H := sas_memory junk_value).
Proof.
  split; intros; cbn [phy_read_byte phy_read_word phy_read_dword phy_write_byte phy_write_word phy_write_dword sas_memory];
    repeat first [ apply calm_phyR | apply calm_w8 | apply calm_w16 | apply calm_ret | apply calm_bind; [|intros ?] ].
Qed.
End SasQuiet.

Definition demo_quiet : PhyQuiet (Mem.sas unit) (H := demo_memory) := sas_quiet (H := Mem.quiet) 0xfefefefe.

End Wp.
