(* ===== verification/Ring.v ===== *)
(** * Privilege and fault status across transfers

    What far transfers and interrupt delivery do to the privilege level, and that
    delivering an interrupt comes to an end.  The proofs follow the operations of
    [Xfer.v] and [Intr.v] with the judgement of [Wp.v]. *)

From S2P Require Import Prelude Cpu Debug Arith Shift Xcptn MulDiv Flow Mem Tlb Page Basic Seg Virt Addr Stack Xfer Intr Wp.

Module Ring.
Import Debug Xcptn Tlb Page Basic Seg Virt Addr Stack Xfer Intr Wp.

(** ** The fault status *)

Definition vm_bit (c : cpu) : Prop := VM (fl c) = 0 \/ VM (fl c) = 1.

(** The fault status and the mode are kept, and VM stays a bit. *)
Definition steady (c c' : cpu) : Prop := kept c c' /\ (vm_bit c -> vm_bit c').

(** Register changes that keep them. *)
Ltac steady_now := intros; split; [repeat split; reflexivity | intros Hvm; first [exact Hvm | left; reflexivity]].

#[export] Instance steady_ambient : Ambient steady.
Proof.
  split; try steady_now. intros c1 c2 c3 [K1 V1] [K2 V2].
  split; [unfold kept in *; cbn [the_cpu HasCpu_cpu] in *; intuition congruence | auto].
Qed.

Lemma steady_setFLAGS v (c : cpu) : steady c (setFLAGS v c).
Proof. unfold setFLAGS. destruct (CPL _ <=? _); destruct (CPL _ =? 0); steady_now. Qed.

Lemma steady_setEFLAGS v (c : cpu) : steady c (c_setEFLAGS v c).
Proof.
  unfold c_setEFLAGS. eapply amb_trans; [apply steady_setFLAGS|]. destruct (CPL _ =? 0); [|steady_now].
  split; [repeat split; reflexivity|]. intros _. apply b2z_flag.
Qed.

Lemma steady_flags_at_0 (set : cpu -> cpu) c : (forall c : cpu, steady c (set c)) -> steady c (flags_at_0 set c).
Proof. intros Hs. unfold flags_at_0. eapply amb_trans; [|steady_now]. eapply amb_trans; [|apply Hs]. steady_now. Qed.

Ltac steady_tac := intros; first [ steady_now | apply steady_setFLAGS | apply steady_setEFLAGS
  | eapply amb_trans; [apply steady_setFLAGS | steady_now] | apply amb_change_SP; typeclasses eauto
  | apply amb_byte_SP; typeclasses eauto | apply amb_set_SP; typeclasses eauto ].

Ltac keeps_tac := repeat first [ solve [auto with wp nocore] | within_step | apply within_modc; solve [steady_tac] ].

Section Fault.
Context {P : Type} `{PhyQuiet P}.

Abbreviation keeps m := (within (P := P) steady m).

Lemma keeps_save_all write step : (forall a v, keeps (write a v)) -> forall l a, keeps (save_all write step a l).
Proof. intros Hw l. induction l as [|x l IH]; intros a; cbn [save_all]; within_tac.
  Qed.

Lemma keeps_load_all read step : (forall a, keeps (read a)) -> forall l, Forall (fun f => forall v (c : cpu), steady c (f v c)) l ->
  forall a, keeps (load_all read step a l).
Proof.
  intros Hr l Hl. induction Hl as [|f l Hf Hl IH]; intros a; cbn [load_all]; within_tac.
  apply within_modc. apply Hf.
Qed.

Lemma keeps_modsr i f : keeps (modsr i f).
Proof. unfold modsr. keeps_tac. Qed.
Hint Resolve keeps_modsr : wp.

Lemma keeps_load_CS_cache sel d e : keeps (load_CS_cache sel d e).
Proof. unfold load_CS_cache. keeps_tac. Qed.
Lemma keeps_MOV_CR3 v : keeps (MOV_CR 3 v).
Proof. unfold MOV_CR. keeps_tac. Qed.
Lemma keeps_load_LDT sel : keeps (load_LDT_in_task_switch sel).
Proof. unfold load_LDT_in_task_switch. keeps_tac. Qed.
Lemma keeps_load_data_seg i sel : keeps (load_data_seg i sel).
Proof. unfold load_data_seg, load_data_checked. keeps_tac. Qed.
Hint Resolve keeps_load_CS_cache keeps_MOV_CR3 keeps_load_LDT keeps_load_data_seg : wp.
Lemma keeps_data_seg_new_task i sel : keeps (load_data_seg_new_task i sel).
Proof. unfold load_data_seg_new_task. keeps_tac. Qed.
Hint Resolve keeps_data_seg_new_task keeps_save_all : wp.
Lemma keeps_save_task r sel eip : keeps (save_task r sel eip).
Proof. unfold save_task. keeps_tac; apply keeps_save_all; keeps_tac. Qed.

Lemma keeps_load_task sel : keeps (load_task sel).
Proof.
  unfold load_task. keeps_tac; (apply keeps_load_all; [keeps_tac|]);
    repeat (apply Forall_cons; split; [intros; first [steady_now | apply steady_flags_at_0; intros; steady_tac]|]); try apply Forall_nil_2.
Qed.
Hint Resolve keeps_save_task keeps_load_task : wp.

Lemma keeps_new_task_code : keeps new_task_code.
Proof. unfold new_task_code. keeps_tac. Qed.
Hint Resolve keeps_new_task_code : wp.

(** The task switched bit is not the protection bit. *)
Lemma steady_TS (c : cpu) : steady c (modify_cr (fun r => SET_CR_STAT (CR_STAT r .| BIT_MASK 3) r) c).
Proof.
  split; [|auto]. repeat split. unfold GET_PE. cbn [the_cpu HasCpu_cpu modify_cr SET_cr cr SET_CR_STAT CR_STAT].
  rewrite Z.land_lor_distr_l, Z.lor_0_r. reflexivity.
Qed.

Lemma keeps_switch_tasks r n sel d eip : keeps (switch_tasks r n sel d eip).
Proof. unfold switch_tasks. keeps_tac. apply within_modc, steady_TS. Qed.
Hint Resolve keeps_switch_tasks : wp.

Lemma keeps_task_dest sel : keeps (validate_task_dest sel).
Proof. unfold validate_task_dest. keeps_tac. Qed.
Lemma keeps_gate_dest id sel : keeps (validate_gate_dest id sel).
Proof. unfold validate_gate_dest. keeps_tac. Qed.
Lemma keeps_check_ip : keeps check_ip.
Proof. unfold check_ip. keeps_tac. Qed.
Hint Resolve keeps_task_dest keeps_gate_dest keeps_check_ip : wp.

Lemma keeps_int_dest v p : keeps (validate_int_dest v p).
Proof. unfold validate_int_dest. keeps_tac. Qed.
Lemma keeps_push_frame fl h e : keeps (push_frame fl h e).
Proof. unfold push_frame. keeps_tac. Qed.
Lemma keeps_enter_handler t cs eip d e : keeps (enter_handler t cs eip d e).
Proof. unfold enter_handler. keeps_tac. Qed.
Hint Resolve keeps_int_dest keeps_push_frame keeps_enter_handler : wp.

Lemma keeps_int_task d h e : keeps (int_task d h e).
Proof. unfold int_task. keeps_tac. Qed.
Lemma keeps_int_same d h e : keeps (int_same d h e).
Proof. unfold int_same, defined. keeps_tac. Qed.
Lemma keeps_leave_v86 : keeps leave_v86.
Proof. unfold leave_v86. keeps_tac. Qed.
Hint Resolve keeps_leave_v86 : wp.
Lemma keeps_int_inner d h e : keeps (int_inner d h e).
Proof. unfold int_inner, defined. keeps_tac. Qed.
Hint Resolve keeps_int_task keeps_int_same keeps_int_inner : wp.

(** A delivery in protected mode ends with the status cleared, or with a fault that
    comes up in the status it started with. *)
Lemma intrupt_fault v p h code c :
  GET_PE c = 1 -> v <> 0xffff ->
  wp (P := P) (do_intrupt v p h code) (fun _ c' => exists c1, kept c c1 /\ c' = modify_xs intrupt_done c1) (kept c) c.
Proof.
  intros Hpe Hv. unfold do_intrupt. rewrite (proj2 (Z.eqb_neq v 0xffff) Hv).
  apply wp_bind, wp_getc. rewrite Hpe. cbn [Z.eqb]. apply wp_bind.
  assert (Hk : keeps (d <- validate_int_dest v p ;; int_enter d h code)) by (unfold int_enter; keeps_tac).
  apply (wp_within steady _ _ _ c Hk); [|intros c' Hc; apply Hc]. intros [] c' [Hc _]. apply wp_modc. exists c'. split; [exact Hc | reflexivity].
Qed.

(** What delivery may end in. *)
Definition settled (o : outcome exn (mach P) unit) : Prop :=
  match o with
  | Ret _ s => slack (xs (mcpu s)) = 3%nat
  | Raise _ _ => False
  | Undefined => True
  end.

Lemma fault_settles k (s1 s' : mach P) e :
  protected_run s1 -> raise_fault k s1 = Raise e s' ->
  (e = CpuContinue /\ slack (xs (mcpu s')) = 3%nat)
  \/ exists v p h code, e = Intrupt v p h code /\ v <> 0xffff /\ protected_run s'
     /\ (slack (xs (mcpu s')) < slack (xs (mcpu s1)))%nat.
Proof.
  intros Hp E. pose proof E as E'. rewrite raise_fault_run in E' by apply Hp. unfold fault_outcome in E'.
  assert (HF : forall v p h code, e = Intrupt v p h code ->
    protected_run s' /\ (slack (xs (mcpu s')) < slack (xs (mcpu s1)))%nat).
  { intros v p h code ->. apply (failed_slack s1 s' Hp). exists k, v, p, h, code, s'. split; [exact E | repeat split]. }
  destruct (escalation _ _); injection E' as <- Es.
  - left. split; [reflexivity|]. rewrite <- Es. reflexivity.
  - right. do 4 eexists. split; [reflexivity|]. split; [unfold DF_INT_NR; lia|]. eapply HF. reflexivity.
  - right. do 4 eexists. split; [reflexivity|]. split; [destruct k; discriminate|]. eapply HF. reflexivity.
Qed.

Lemma deliver_settles n : forall v p h code (s : mach P),
  protected_run s -> v <> 0xffff -> (slack (xs (mcpu s)) < n)%nat ->
  exists o, deliver n (Intrupt v p h code) s = Some o /\ settled o.
Proof.
  induction n as [|n IH]; intros v p h code s Hp Hv Hn; [lia|]. cbn [deliver].
  pose proof (intrupt_fault v p h code (mcpu s) (proj1 Hp) Hv s eq_refl) as HW.
  destruct (do_intrupt v p h code s) as [[] s'|e s'|].
  - destruct HW as (c1 & _ & E). eexists. split; [reflexivity|]. cbn [settled]. rewrite E. reflexivity.
  - destruct HW as (k & s1 & (Kc & Kp & Kd & Ki & Kpe) & E). cbn [the_cpu HasCpu_cpu] in *.
    assert (Hp1 : protected_run s1).
    { destruct Hp as [H1 H2]. split; cbn [the_cpu HasCpu_mach] in *; congruence. }
    assert (Es : slack (xs (mcpu s1)) = slack (xs (mcpu s))) by (unfold slack; rewrite Kc, Kp, Kd; reflexivity).
    destruct (fault_settles k s1 s' e Hp1 E) as [[-> H3] | (v' & p' & h' & code' & -> & Hv' & Hp' & Hlt)].
    + destruct n; eexists; (split; [reflexivity | exact H3]).
    + apply IH; [exact Hp' | exact Hv' | lia].
  - eexists. split; [reflexivity | exact I].
Qed.


End Fault.
#[export] Hint Resolve keeps_save_task keeps_load_task keeps_load_LDT : wp.

(** ** The privilege level *)

(** Protected mode at a privilege; CS and the privilege agree; virtual 8086 mode. *)
Definition at_level (p : Z) (c : cpu) : Prop := GET_PE c = 1 /\ VM (fl c) = 0 /\ CPL c = p.
Definition landed (c : cpu) : Prop := at_level (GET_SELECTOR_RPL (selector (GET_SR CS_REG c))) c.
Definition in_v86 (c : cpu) : Prop := GET_PE c = 1 /\ VM (fl c) = 1 /\ CPL c = 3.

Definition ring_ok (c : cpu) : Prop := landed c \/ in_v86 c.

(** The mode, the privilege and the code segment are kept. *)
Definition same_ring (c c' : cpu) : Prop :=
  CPL c' = CPL c /\ VM (fl c') = VM (fl c) /\ GET_PE c' = GET_PE c /\ GET_SR CS_REG c' = GET_SR CS_REG c.

#[export] Instance same_ring_ambient : Ambient same_ring.
Proof.
  split; unfold same_ring; try (intros; repeat split; reflexivity).
  - intuition congruence.
  - intros i x c Hi. repeat split. unfold CS_REG in Hi.
    destruct i as [|p|p]; try reflexivity. do 3 (try destruct p as [p|p|]; try reflexivity). contradiction.
Qed.

Lemma level_same p c c' : same_ring c c' -> at_level p c -> at_level p c'.
Proof. intros (E1 & E2 & E3 & _) (H1 & H2 & H3). unfold at_level. rewrite E1, E2, E3. auto. Qed.

Lemma landed_same c c' : same_ring c c' -> landed c -> landed c'.
Proof. intros HS. unfold landed. pose proof HS as (_ & _ & _ & ->). apply level_same, HS. Qed.

Lemma v86_same c c' : same_ring c c' -> in_v86 c -> in_v86 c'.
Proof. intros (E1 & E2 & E3 & _) (H1 & H2 & H3). unfold in_v86. rewrite E1, E2, E3. auto. Qed.

Lemma ring_same c c' : same_ring c c' -> ring_ok c -> ring_ok c'.
Proof. intros HS [HL | HV]; [left; exact (landed_same _ _ HS HL) | right; exact (v86_same _ _ HS HV)]. Qed.

Lemma rpl_range x : 0 <= GET_SELECTOR_RPL x < 4.
Proof. unfold GET_SELECTOR_RPL. change 3 with (2 ^ 2 - 1). rewrite land_mask by lia. apply Z.mod_pos_bound. lia. Qed.

Lemma dpl_range x : 0 <= GET_AR_DPL x < 4.
Proof.
  unfold GET_AR_DPL. rewrite Z.shiftr_div_pow2 by lia. change 0x60 with (Z.shiftl (2 ^ 2 - 1) 5).
  rewrite mask_field by lia. rewrite Z.div_mul by lia. apply Z.mod_pos_bound. lia.
Qed.

Lemma stamp_rpl x p : 0 <= p < 4 -> GET_SELECTOR_RPL (SET_SELECTOR_RPL x p) = p.
Proof.
  intros Hp. unfold GET_SELECTOR_RPL, SET_SELECTOR_RPL, u16. apply Z.bits_inj'. intros i Hi.
  set (y := _ .| p). change 3 with (2 ^ 2 - 1). rewrite land_mask by lia. destruct (Z.ltb_spec i 2) as [H1 | H1].
  - subst y. rewrite !Z.mod_pow2_bits_low, Z.lor_spec, Z.land_spec by lia.
    assert (E : Z.testbit (not32 3) i = false) by (assert (i = 0 \/ i = 1) as [-> | ->] by lia; reflexivity).
    rewrite E, andb_false_r. reflexivity.
  - rewrite Z.mod_pow2_bits_high by lia. symmetry. apply (proj1 (range_bits p 2 ltac:(lia)) Hp). lia.
Qed.

Section Privilege.
Context {P : Type} `{PhyQuiet P}.

Abbreviation X := (M exn (mach P)).
Abbreviation ring m := (within (P := P) same_ring m).

(** Whatever faults come up, the registers it returns with satisfy [Q]. *)
Definition leads {A} (m : X A) (Q : A -> cpu -> Prop) (c : cpu) : Prop := wp m Q (fun _ => True) c.

Lemma leads_seq {A B} (m : X A) (k : A -> X B) Q c :
  ring m -> (forall a c', same_ring c c' -> leads (k a) Q c') -> leads (bind m k) Q c.
Proof. intros Hm Hk. apply wp_bind, (wp_within same_ring); auto. Qed.

Lemma leads_end {A} (m : X A) (Q : A -> cpu -> Prop) c : ring m -> (forall a c', same_ring c c' -> Q a c') -> leads m Q c.
Proof. intros Hm HQ. apply (wp_within same_ring); auto. Qed.

Lemma leads_modc_seq {B} f (k : unit -> X B) Q c : leads (k tt) Q (f c) -> leads (bind (modc f) k) Q c.
Proof. intros Hk. apply wp_bind, wp_modc, Hk. Qed.

Lemma leads_getc_seq {A B} (f : cpu -> A) (k : A -> X B) Q c : leads (k (f c)) Q c -> leads (bind (getc f) k) Q c.
Proof. intros Hk. apply wp_bind, wp_getc, Hk. Qed.

(** A guard: its condition is false afterwards. *)
Lemma leads_guard {B} (b : bool) (m : X unit) (k : unit -> X B) Q c :
  (forall Q', wp m Q' (fun _ => True) c) -> (b = false -> leads (k tt) Q c) -> leads (bind (when b m) k) Q c.
Proof. intros Hm Hk. apply wp_bind, wp_when; [intros _; apply Hm | intros E; apply Hk, E]. Qed.

Lemma leads_when (b : bool) (m : X unit) (Q : unit -> cpu -> Prop) c :
  (b = true -> leads m Q c) -> (b = false -> Q tt c) -> leads (when b m) Q c.
Proof. apply wp_when. Qed.

Lemma leads_weaken {A} (m : X A) (Q Q' : A -> cpu -> Prop) c :
  leads m Q c -> (forall a c', Q a c' -> Q' a c') -> leads m Q' c.
Proof. intros Hm HQ. apply (wp_weaken _ _ _ _ _ _ Hm); auto. Qed.

Lemma leads_bind {A B} (m : X A) (k : A -> X B) Q c :
  leads m (fun a => leads (k a) Q) c -> leads (bind m k) Q c.
Proof. apply wp_bind. Qed.

Lemma leads_via {A B} (Q1 : A -> cpu -> Prop) (m : X A) (k : A -> X B) Q c :
  leads m Q1 c -> (forall a c', Q1 a c' -> leads (k a) Q c') -> leads (bind m k) Q c.
Proof. intros Hm Hk. apply wp_bind. apply (wp_weaken _ _ _ _ _ _ Hm); auto. Qed.

Lemma leads_load_CS sel d e (Q : unit -> cpu -> Prop) c :
  (forall seg, selector seg = sel -> Q tt (SET_SR CS_REG seg c)) -> leads (load_CS_cache sel d e) Q c.
Proof.
  intros HQ. unfold load_CS_cache. apply wp_bind, wp_getc. apply wp_if; intros _.
  - apply wp_bind, wp_getc, wp_modc, HQ. reflexivity.
  - apply wp_bind, access_spr_write_byte; [intros _ | auto]. apply wp_modc, HQ. reflexivity.
Qed.

(** The code segment at a level. *)
Lemma landed_CS seg p c : at_level p c -> GET_SELECTOR_RPL (selector seg) = p -> landed (SET_SR CS_REG seg c).
Proof. intros HL <-. exact HL. Qed.

Lemma descr_ring m sel : ring m -> ring (descr_or m sel).
Proof. apply within_descr_or. typeclasses eauto. Qed.

(** The steps so far, put together. *)
Ltac chain := repeat first [apply amb_refl | eapply amb_trans; [eassumption|]].

(** One step of an operation: a register read, a guard, or a part that keeps the ring. *)
Ltac no_return := intros;
  match goal with
  | |- wp (GP _) _ _ _ => apply wp_GP
  | |- wp (NP _) _ _ _ => apply wp_NP
  | |- wp (SF_fault _) _ _ _ => apply wp_SF
  | |- wp (TS _) _ _ _ => apply wp_TS
  | |- wp (GP_INT _) _ _ _ => apply wp_GP_INT
  | |- wp (NP_INT _) _ _ _ => apply wp_NP_INT
  end; exact I.

Ltac ring_step :=
  match goal with
  | |- leads (bind (getc _) _) _ _ => apply leads_getc_seq
  | |- leads (bind (when _ _) _) _ _ => apply leads_guard; [solve [no_return] | intros ?]
  | |- leads (bind _ _) _ _ => apply leads_seq; [solve [within_tac] | intros ? ? ?]
  | |- leads (ret _) _ _ => apply wp_ret
  end.

Lemma ring_task_dest sel : ring (validate_task_dest sel).
Proof. unfold validate_task_dest. within_tac. Qed.
Lemma ring_gate_access sel AR : ring (gate_access sel AR).
Proof. unfold gate_access. within_tac. Qed.
Lemma ring_read_call_gate a super : ring (read_call_gate a super).
Proof. unfold read_call_gate. within_tac. Qed.
Lemma ring_check_ip : ring check_ip.
Proof. unfold check_ip. within_tac. Qed.
Lemma ring_pop_params n : ring (pop_params n).
Proof. induction n as [|n IH]; cbn [pop_params]; within_tac. Qed.
Lemma ring_push_params l : ring (push_params l).
Proof. induction l as [|x l IH]; cbn [push_params]; within_tac. Qed.
Lemma ring_return_code sel p : ring (return_code sel p).
Proof. unfold return_code. within_tac. Qed.
Lemma ring_push_frame fl h e : ring (push_frame fl h e).
Proof. unfold push_frame. within_tac. Qed.
Lemma ring_iret_frame : ring iret_frame.
Proof. unfold iret_frame. within_tac. Qed.
Hint Resolve ring_task_dest ring_gate_access ring_read_call_gate ring_check_ip ring_pop_params ring_push_params
  ring_return_code ring_push_frame ring_iret_frame : wp.

(** What a gate can lead to. *)
Definition gate_type (id : Z) (c : cpu) (ty : Z) : Prop :=
  (ty = SAME_LEVEL \/ (0 <= ty < CPL c /\ id .& JMP_ID = 0)) /\ (VM (fl c) = 1 -> ty = 0).

Lemma gate_dest_leads id sel c :
  leads (validate_gate_dest id sel) (fun r c' => same_ring c c' /\ gate_type id c (snd r)) c.
Proof.
  unfold validate_gate_dest. ring_step. ring_step. rename a0 into AR. ring_step.
  assert (HS : same_ring c c'0) by (eapply amb_trans; eassumption). destruct HS as (EC & EV & _).
  apply (leads_via (fun ty c1 => c1 = c'0 /\ (ty = SAME_LEVEL \/ (0 <= ty < CPL c /\ id .& JMP_ID = 0)))).
  - destruct (code_conforming _); [|destruct (code_nonconforming _)].
    + repeat ring_step. split; [reflexivity | left; reflexivity].
    + ring_step. ring_step. ring_step. split; [reflexivity|].
      pose proof (dpl_range AR). destruct (Z.ltb_spec (GET_AR_DPL AR) (CPL c'0)); [|auto]. right. split; [lia|].
      destruct (tst (id .& JMP_ID)) eqn:Et; [|unfold tst in Et; lia]. cbn [andb] in *. lia.
    + apply wp_bind. no_return.
  - intros ty c1 [-> Hty]. ring_step. ring_step. ring_step. ring_step. split; [eapply amb_trans; eassumption|]. cbn [snd].
    split; [exact Hty|]. intros Hv. rewrite EV, Hv in *. cbn [Z.eqb Pos.eqb andb] in *. unfold MORE_PRIVILEGE0 in *.
    destruct (Z.eqb_spec ty 0); [assumption | discriminate].
Qed.

Lemma ring_data_seg_new_task i sel : i <> CS_REG -> ring (load_data_seg_new_task i sel).
Proof. intros Hi. unfold load_data_seg_new_task. within_tac. Qed.

Lemma ring_load_pseudo i : i <> CS_REG -> ring (modc (load_pseudo_descr i)).
Proof. intros Hi. apply within_modc. intros c. apply amb_sr, Hi. Qed.
Hint Resolve ring_data_seg_new_task ring_load_pseudo : wp.
Hint Extern 1 (_ <> CS_REG) => discriminate : wp.

(** *** Task switches *)

Lemma leads_steady {A B} (m : X A) (k : A -> X B) Q c :
  within steady m -> (forall a c', steady c c' -> leads (k a) Q c') -> leads (bind m k) Q c.
Proof. intros Hm Hk. apply wp_bind, (wp_within steady); auto. Qed.

Definition prot (c : cpu) : Prop := GET_PE c = 1 /\ vm_bit c.

Lemma prot_steady c c' : steady c c' -> prot c -> prot c'.
Proof. intros [(_ & _ & _ & _ & E) HV] [H1 H2]. cbn [the_cpu HasCpu_cpu] in E. split; [congruence | auto]. Qed.

Lemma new_task_code_leads c :
  prot c -> leads new_task_code (fun r c' => at_level (GET_SELECTOR_RPL (fst (fst r))) c') c.
Proof.
  intros [Hpe Hv]. unfold new_task_code. ring_step. destruct Hv as [Hv | Hv]; rewrite Hv; cbn [Z.eqb Pos.eqb].
  2:{ apply leads_modc_seq, wp_undefined. }
  ring_step. apply leads_modc_seq. set (sel := selector _). set (c1 := SET_CPL _ c).
  assert (HL : at_level (GET_SELECTOR_RPL sel) c1) by (repeat split; assumption).
  clearbody c1. repeat ring_step. cbn [fst].
  repeat match goal with HS : same_ring ?a _, HA : at_level _ ?a |- _ => apply (level_same _ _ _ HS) in HA end. exact HL.
Qed.

(** A part that keeps protected mode. *)
Lemma leads_prot {A B} (m : X A) (k : A -> X B) Q c :
  prot c -> within steady m -> (forall a c', prot c' -> leads (k a) Q c') -> leads (bind m k) Q c.
Proof. intros HP Hm Hk. apply leads_steady; [exact Hm|]. intros a c' HS. apply Hk, (prot_steady _ _ HS), HP. Qed.

Lemma switch_tasks_leads r n sel d eip c : prot c -> leads (switch_tasks r n sel d eip) (fun _ => landed) c.
Proof.
  intros HP. unfold switch_tasks.
  repeat (apply leads_prot; [eassumption | solve [keeps_tac | apply within_modc, steady_TS] | intros ? ? ?]).
  eapply leads_via; [apply new_task_code_leads; eassumption|]. intros [[new_cs cs_descr] cs_entry] c1 HL. cbn [fst] in HL.
  apply leads_bind, leads_load_CS. intros seg Hseg. assert (HC : landed (SET_SR CS_REG seg c1)) by (apply (landed_CS _ _ _ HL); congruence).
  generalize dependent (SET_SR CS_REG seg c1). intros c2 HC.
  repeat (apply leads_seq; [solve [within_tac] | intros ? ? ?]). apply leads_end; [solve [within_tac]|]. intros [] c3 HS.
  repeat match goal with HS : same_ring ?a _, HA : landed ?a |- _ => apply (landed_same _ _ HS) in HA end. exact HC.
Qed.

(** *** Far destinations *)

Lemma far_dest_leads cs eip id c :
  leads (validate_far_dest cs eip id)
    (fun d c' => same_ring c c' /\ (d_type d = NEW_TASK \/ d_type d = SAME_LEVEL \/ (0 <= d_type d < CPL c /\ id .& JMP_ID = 0))) c.
Proof.
  unfold validate_far_dest. ring_step. ring_step. ring_step.
  assert (HS : same_ring c c'0) by (eapply amb_trans; eassumption). pose proof (proj1 HS) as EC.
  destruct (code_conforming _); [|destruct (code_nonconforming _); [|destruct (_ || _); [|destruct (_ =? TASK_GATE); [|destruct (_ || _)]]]].
  - repeat ring_step. auto.
  - repeat ring_step. auto.
  - ring_step. apply leads_seq; [solve [within_tac] | intros [[new_cs new_ip] count] c2 HS2].
    eapply leads_via; [apply gate_dest_leads|]. intros [da ty] c3 (HS3 & HG & _). ring_step. cbn [d_type snd] in *.
    assert (E2 : same_ring c c2) by (eapply amb_trans; [exact HS|]; eapply amb_trans; eassumption).
    split; [eapply amb_trans; eassumption|]. rewrite (proj1 E2) in HG. tauto.
  - repeat ring_step. split; [|auto]. chain.
  - repeat ring_step. split; [|auto]. eapply amb_trans; eassumption.
  - apply wp_bind. no_return.
Qed.

(** *** Calls and jumps *)

(** In a code segment of privilege [q]. *)
Definition arrived (q : Z) (c : cpu) : Prop := landed c /\ CPL c = q.

Lemma arrived_same q c c' : same_ring c c' -> arrived q c -> arrived q c'.
Proof. intros HS [HL HC]. split; [exact (landed_same _ _ HS HL) | rewrite (proj1 HS); exact HC]. Qed.

(** Load the code segment of the level, then go on inside it. *)
Lemma leads_arrive {B} sel d e (k : unit -> X B) q (Q : B -> cpu -> Prop) c :
  at_level q c -> GET_SELECTOR_RPL sel = q -> (forall c', arrived q c' -> leads (k tt) Q c') ->
  leads (bind (load_CS_cache sel d e) k) Q c.
Proof.
  intros HL Hr Hk. apply leads_bind, leads_load_CS. intros seg Hseg. apply Hk.
  split; [apply (landed_CS _ _ _ HL); congruence | apply HL].
Qed.

(** The rest of an operation keeps the ring. *)
Lemma leads_rest {A} (m : X A) q c : arrived q c -> ring m -> leads m (fun _ => arrived q) c.
Proof. intros HA Hm. apply leads_end; [exact Hm|]. intros a c' HS. exact (arrived_same _ _ _ HS HA). Qed.

(** Carry a level over the steps done so far. *)
Ltac level_up := repeat match goal with HS : same_ring ?a _, HA : at_level _ ?a |- _ => apply (level_same _ _ _ HS) in HA end.

Lemma ring_set_ip x : ring (modc (SET_ip x)).
Proof. apply within_modc. intros c. repeat split. Qed.
Lemma ring_revalidate : ring (modc revalidate_data).
Proof.
  assert (HN : forall i (c1 c2 : cpu), i <> CS_REG -> same_ring c1 c2 -> same_ring c1 (load_data_seg_new_privilege i c2)).
  { intros i c1 c2 Hi HS. exact (amb_trans _ _ _ HS (amb_new_privilege same_ring i c2 Hi)). }
  apply within_modc. intros c. unfold revalidate_data. do 4 (apply HN; [discriminate|]). apply amb_refl.
Qed.
Hint Resolve ring_set_ip ring_revalidate : wp.

Lemma call_to_leads cs eip a e p c :
  at_level p c -> GET_SELECTOR_RPL cs = p -> leads (call_to cs eip a e) (fun _ => arrived p) c.
Proof.
  intros HL Hr. unfold call_to. repeat ring_step. level_up. apply leads_arrive with (q := p); [assumption..|].
  intros c1 HA. apply (leads_rest _ _ _ HA). within_tac.
Qed.

Lemma call_inner_leads d p c :
  at_level p c -> 0 <= d_type d < 4 -> leads (call_inner d) (fun _ => arrived (d_type d)) c.
Proof.
  intros HL Hd. unfold call_inner. ring_step. apply leads_seq; [solve [within_tac] | intros [new_ss new_sp] c2 HS2].
  apply leads_seq; [solve [within_tac] | intros [ss_descr ss_entry] c3 HS3].
  ring_step. ring_step. ring_step. level_up. apply leads_modc_seq.
  assert (HD : at_level (d_type d) (SET_CPL (d_type d) c'1)) by (destruct HL as (E1 & E2 & _); repeat split; assumption).
  generalize dependent (SET_CPL (d_type d) c'1). intros c4 HD. ring_step.
  apply leads_arrive with (q := d_type d); [exact HD | apply stamp_rpl, Hd|]. intros c5 HA. apply (leads_rest _ _ _ HA). within_tac.
Qed.

(** The privilege a destination gives. *)
Definition dest_cpl (p ty : Z) : Z := if ty =? SAME_LEVEL then p else ty.

Lemma call_dest_leads d p c :
  at_level p c -> 0 <= p < 4 -> (d_type d = NEW_TASK \/ d_type d = SAME_LEVEL \/ 0 <= d_type d < p) ->
  leads (call_dest d) (fun _ c' => landed c' /\ (d_type d = NEW_TASK \/ CPL c' = dest_cpl p (d_type d))) c.
Proof.
  intros HL Hp Hd. unfold call_dest, dest_cpl. destruct (Z.eqb_spec (d_type d) NEW_TASK) as [E | N].
  - ring_step. eapply leads_via; [apply switch_tasks_leads; destruct HL as (E1 & E2 & _); split; [exact E1 | left; exact E2]|].
    intros [] c1 HC. apply leads_end; [solve [within_tac]|]. intros [] c2 HS. split; [exact (landed_same _ _ HS HC) | auto].
  - assert (HG : forall q (m : X unit) c, leads m (fun _ => arrived q) c -> leads m (fun _ c' => landed c' /\ (d_type d = NEW_TASK \/ CPL c' = q)) c).
    { intros q m c0 Hm. apply (leads_weaken _ _ _ _ Hm). intros [] c' [HC2 HQ2]. auto. }
    destruct (Z.eqb_spec (d_type d) SAME_LEVEL) as [E | N2].
    + ring_step. ring_step. ring_step. ring_step. level_up. apply HG, call_to_leads; [assumption|].
      assert (E' : CPL c' = p) by (destruct HL as (E1 & E2 & E3); unfold same_ring in *; intuition congruence).
      rewrite E'. apply stamp_rpl, Hp.
    + apply HG, (call_inner_leads d p); [exact HL|]. destruct Hd as [Hd | [Hd | Hd]]; [contradiction.. | lia].
Qed.

Lemma jump_dest_leads d p c :
  at_level p c -> 0 <= p < 4 -> landed c ->
  leads (jump_dest d) (fun _ c' => landed c' /\ (d_type d = NEW_TASK \/ CPL c' = p)) c.
Proof.
  intros HL Hp HC. unfold jump_dest. destruct (Z.eqb_spec (d_type d) NEW_TASK) as [E | N].
  - ring_step. eapply leads_via; [apply switch_tasks_leads; destruct HL as (E1 & E2 & _); split; [exact E1 | left; exact E2]|].
    intros [] c1 HC1. apply leads_end; [solve [within_tac]|]. intros [] c2 HS. split; [exact (landed_same _ _ HS HC1) | auto].
  - apply leads_when; [intros _ | intros _; split; [exact HC | right; apply HL]].
    ring_step. ring_step. ring_step. level_up. apply leads_arrive with (q := p); [assumption | destruct HL as (_ & _ & ->); apply stamp_rpl, Hp|].
    intros c1 HA. apply (leads_weaken _ _ _ _ (leads_rest _ _ _ HA (ring_set_ip _))). intros [] c2 [HC2 HQ2]. auto.
Qed.

(** *** Returns *)

(** The mode tells which branch a transfer takes. *)
Lemma level_mode p c : at_level p c -> real_or_v86 c = false.
Proof. intros (E1 & E2 & _). unfold real_or_v86. rewrite E1, E2. reflexivity. Qed.

Lemma v86_mode c : in_v86 c -> real_or_v86 c = true.
Proof. intros (E1 & E2 & _). unfold real_or_v86. rewrite E1, E2. reflexivity. Qed.

Lemma v86_CS seg c : in_v86 c -> in_v86 (SET_SR CS_REG seg c).
Proof. auto. Qed.

(** Load the code segment in virtual 8086 mode, then go on. *)
Lemma leads_arrive_v86 {B} sel d e (k : unit -> X B) (Q : B -> cpu -> Prop) c :
  in_v86 c -> (forall c', in_v86 c' -> leads (k tt) Q c') -> leads (bind (load_CS_cache sel d e) k) Q c.
Proof. intros HV Hk. apply leads_bind, leads_load_CS. intros seg _. apply Hk, HV. Qed.

Lemma leads_rest_v86 {A} (m : X A) c : in_v86 c -> ring m -> leads m (fun _ => in_v86) c.
Proof. intros HA Hm. apply leads_end; [exact Hm|]. intros a c' HS. exact (v86_same _ _ HS HA). Qed.

Lemma leads_outward {B} new_cs p items (k : unit -> X B) Q c :
  at_level p c -> (forall c', at_level p c' -> p <= GET_SELECTOR_RPL new_cs -> leads (k tt) Q c') ->
  leads (bind (outward_check new_cs p items) k) Q c.
Proof.
  intros HL Hk. unfold outward_check. destruct (Z.ltb_spec (GET_SELECTOR_RPL new_cs) p) as [Hlt | Hge].
  - apply wp_bind. no_return.
  - apply leads_seq; [within_tac|]. intros [] c3 HS. apply Hk; [exact (level_same _ _ _ HS HL) | exact Hge].
Qed.

(** An outward return loads a code segment of the privilege of its selector. *)
Lemma RETF_leads n p c :
  at_level p c -> leads (RETF n) (fun _ c' => landed c' /\ p <= CPL c') c.
Proof.
  intros HL. unfold RETF. ring_step. ring_step. ring_step. ring_step. ring_step. level_up.
  rewrite (level_mode _ _ HL). set (new_cs := u16 a1). set (q := GET_SELECTOR_RPL new_cs).
  apply (leads_via (fun _ c' => landed c' /\ p <= CPL c')).
  2:{ intros items c3 [HC Hq]. apply leads_end; [solve [within_tac]|]. intros [] c4 HS.
      split; [exact (landed_same _ _ HS HC) | rewrite (proj1 HS); exact Hq]. }
  ring_step. destruct HL as (E1 & E2 & E3). rewrite E3.
  assert (HL : at_level p c'1) by (repeat split; assumption).
  apply (leads_outward _ _ _ _ _ _ HL). intros c3 HL3 Hge.
  apply leads_seq; [solve [within_tac] | intros [cs_descr cs_entry] c4 HS4]. level_up.
  destruct (Z.eqb_spec q p) as [Eq | Nq].
  - ring_step. apply leads_arrive with (q := p); [assumption | exact Eq|]. intros c5 HA.
    assert (Hr : ring (modc (SET_ip a0) ;; ret 2)) by within_tac.
    apply (leads_weaken _ _ _ _ (leads_rest _ _ _ HA Hr)). intros x c6 [HC6 Hq6]. split; [exact HC6 | lia].
  - ring_step. apply leads_seq; [solve [within_tac] | intros [ss_descr ss_entry] c6 HS6]. ring_step. level_up. apply leads_modc_seq.
    assert (HD : at_level q (SET_CPL q c6)) by (destruct HL3 as (F1 & F2 & _); repeat split; assumption).
    apply leads_arrive with (q := q); [exact HD | reflexivity|]. intros c7 HA. eapply leads_weaken; [apply (leads_rest _ q _ HA); within_tac|].
    intros x c8 [HC8 Hq8]. split; [exact HC8 | lia].
Qed.

Lemma same_setFLAGS v c : same_ring c (setFLAGS v c).
Proof. unfold setFLAGS. destruct (CPL _ <=? _); destruct (CPL _ =? 0); repeat split. Qed.

(** Flags without VM leave virtual 8086 mode off. *)
Lemma same_current_FLAGS v c : VM (fl c) = 0 -> tst (v .& BIT_MASK 17) = false -> same_ring c (set_current_FLAGS v c).
Proof.
  intros Hv Hb. unfold set_current_FLAGS, c_setEFLAGS. destruct (_ =? USE16); [apply same_setFLAGS|].
  assert (E0 : nz (v .& BIT_MASK 17) = 0) by (unfold tst in Hb; unfold nz; rewrite Hb; reflexivity). rewrite E0.
  eapply amb_trans; [apply same_setFLAGS|]. destruct (CPL _ =? 0); repeat split. symmetry.
  rewrite (proj1 (proj2 (same_setFLAGS v c))). exact Hv.
Qed.

(** Flags of virtual 8086 mode itself, where the privilege does not allow a change. *)
Lemma v86_current_FLAGS v c : in_v86 c -> in_v86 (set_current_FLAGS v c).
Proof.
  intros (H1 & H2 & H3). unfold set_current_FLAGS, c_setEFLAGS. destruct (same_setFLAGS v c) as (E1 & E2 & E3 & _).
  destruct (_ =? USE16); [unfold in_v86; rewrite E1, E2, E3; auto|].
  change (CPL (modify_fl (SET_RF (nz (v .& BIT_MASK 16))) (setFLAGS v c))) with (CPL (setFLAGS v c)).
  rewrite E1, H3. cbn [Z.eqb]. unfold in_v86.
  change (GET_PE (setFLAGS v c) = 1 /\ VM (fl (setFLAGS v c)) = 1 /\ CPL (setFLAGS v c) = 3). rewrite E1, E2, E3. auto.
Qed.

Lemma iret_v86_leads eip cs flags c :
  at_level 0 c -> tst (flags .& BIT_MASK 17) = true -> leads (iret_v86 eip cs flags) (fun _ => in_v86) c.
Proof.
  intros HL Hb. unfold iret_v86. ring_step. ring_step. level_up. apply leads_modc_seq, leads_modc_seq.
  assert (HV : in_v86 (SET_CPL 3 (c_setEFLAGS flags c'))).
  { destruct HL as (E1 & E2 & E3). destruct (same_setFLAGS flags c') as (F1 & F2 & F3 & _). unfold in_v86, c_setEFLAGS.
    change (CPL (modify_fl (SET_RF (nz (flags .& BIT_MASK 16))) (setFLAGS flags c'))) with (CPL (setFLAGS flags c')).
    rewrite F1, E3. cbn [Z.eqb]. split; [exact (eq_trans F3 E1)|]. split; [|reflexivity].
    unfold tst in Hb. cbn. unfold nz. rewrite Hb. reflexivity. }
  apply leads_arrive_v86; [exact HV|]. intros c1 HV1. apply leads_bind, wp_modc.
  assert (HV2 : in_v86 (SET_SR CS_REG (SEG_limit 0xffff (GET_SR CS_REG c1)) c1)) by exact HV1.
  apply (leads_rest_v86 _ _ HV2). within_tac. apply within_modc. intros c2.
  cbn [fold_left]. unfold load_pseudo_descr. repeat (eapply amb_trans; [|apply amb_sr; discriminate]). apply amb_refl.
Qed.

Lemma iret_level_leads eip cs flags p c :
  at_level p c -> tst (flags .& BIT_MASK 17) = false ->
  leads (iret_level eip cs flags p) (fun _ => arrived (GET_SELECTOR_RPL cs)) c.
Proof.
  intros HL Hf. unfold iret_level. set (q := GET_SELECTOR_RPL cs).
  apply leads_seq; [solve [within_tac] | intros [cs_descr cs_entry] c1 HS1]. level_up.
  destruct (Z.eqb_spec q p) as [Eq | Nq].
  - ring_step. apply leads_arrive with (q := q); [rewrite Eq; assumption | reflexivity|]. intros c2 HA.
    apply leads_modc_seq, leads_modc_seq, wp_modc.
    assert (HA2 : arrived q (change_SP 3 (SET_ip eip c2))).
    { refine (arrived_same _ _ _ _ HA). refine (amb_trans _ (SET_ip eip c2) _ _ _); [repeat split | apply amb_change_SP; typeclasses eauto]. }
    apply (arrived_same q _ _ (same_current_FLAGS _ _ (proj1 (proj2 (proj1 HA2))) Hf) HA2).
  - ring_step. apply leads_seq; [solve [within_tac] | intros [ss_descr ss_entry] c3 HS3]. ring_step. level_up.
    apply leads_bind, leads_load_CS. intros seg Hseg. apply leads_modc_seq, leads_modc_seq.
    set (c4 := SET_ip eip _). assert (HL4 : at_level p c4) by exact HL.
    assert (HS4 : same_ring c4 (set_current_FLAGS flags c4)) by (apply same_current_FLAGS; [apply HL4 | exact Hf]).
    assert (HC4 : GET_SELECTOR_RPL (selector (GET_SR CS_REG (set_current_FLAGS flags c4))) = q).
    { destruct HS4 as (_ & _ & _ & ->). unfold q. rewrite <- Hseg. reflexivity. }
    level_up. generalize dependent (set_current_FLAGS flags c4). intros c5 HL5 _ HC5.
    ring_step. ring_step. ring_step. apply leads_modc_seq. level_up.
    assert (HA : arrived q (SET_CPL q c'2)).
    { assert (ES : GET_SR CS_REG c'2 = GET_SR CS_REG c5) by (unfold same_ring in *; intuition congruence).
      destruct HL5 as (F1 & F2 & _). split; [|reflexivity]. split; [exact F1|]. split; [exact F2|].
      change (q = GET_SELECTOR_RPL (selector (GET_SR CS_REG c'2))). rewrite ES. symmetry. exact HC5. }
    apply (leads_rest _ _ _ HA). within_tac.
Qed.

Lemma IRET_leads p c :
  at_level p c -> 0 <= p < 4 ->
  leads IRET (fun _ c' => ring_ok c' /\ (NT (fl c) = 1 \/ p <= CPL c')) c.
Proof.
  intros HL Hp. unfold IRET. ring_step. rewrite (level_mode _ _ HL). ring_step.
  destruct (Z.eqb_spec (NT (fl c)) 1) as [En | Nn].
  { ring_step. ring_step. ring_step. ring_step. level_up.
    eapply leads_via; [apply switch_tasks_leads; destruct HL as (E1 & E2 & _); split; [exact E1 | left; exact E2]|].
    intros [] c1 HC. apply leads_end; [solve [within_tac]|]. intros [] c2 HS. split; [left; exact (landed_same _ _ HS HC) | auto]. }
  apply leads_seq; [solve [within_tac] | intros [[new_ip new_cs] flags] c1 HS1]. level_up. ring_step.
  replace (CPL c1) with p by (symmetry; apply HL).
  set (new_flags := if negb (p =? 0) then flags .& not32 (BIT_MASK 17) else flags).
  destruct (tst (new_flags .& BIT_MASK 17)) eqn:Ef.
  - assert (E0 : p = 0).
    { destruct (Z.eqb_spec p 0) as [|Hn]; [assumption|]. unfold new_flags in Ef. cbn [negb] in Ef.
      rewrite <- Z.land_assoc in Ef. change (not32 (BIT_MASK 17) .& BIT_MASK 17) with 0 in Ef. rewrite Z.land_0_r in Ef. discriminate. }
    subst p. apply (leads_weaken _ _ _ _ (iret_v86_leads _ _ _ _ HL Ef)). intros [] c2 HV.
    split; [right; exact HV | right]. destruct HV as (_ & _ & ->). lia.
  - apply (leads_outward _ _ _ _ _ _ HL). intros c3 HL3 Hge.
    apply (leads_weaken _ _ _ _ (iret_level_leads _ _ _ _ _ HL3 Ef)). intros [] c4 [HC Hq]. split; [left; exact HC | right; lia].
Qed.

(** *** Interrupts *)

Lemma ring_fl f : (forall x, VM (f x) = VM x) -> ring (modc (modify_fl f)).
Proof. intros Hf. apply within_modc. intros c. repeat split. apply Hf. Qed.

Lemma ring_leave_v86 : ring leave_v86.
Proof. unfold leave_v86. within_tac. Qed.
Hint Resolve ring_leave_v86 : wp.

Lemma int_dest_leads v p c :
  leads (validate_int_dest v p) (fun d c' => same_ring c c' /\ (int_type d = NEW_TASK \/ gate_type INT_ID c (int_type d))) c.
Proof.
  unfold validate_int_dest. repeat ring_step. destruct (_ =? TASK_GATE).
  - apply leads_seq; [solve [within_tac] | intros [da ty] c3 HS3]. cbv beta iota. ring_step. ring_step. split; [|left; reflexivity].
    chain.
  - ring_step. ring_step. eapply leads_via; [apply gate_dest_leads|]. intros [da ty] c3 (HS3 & HG). ring_step.
    match goal with HG : gate_type _ ?c0 _ |- _ => assert (HS : same_ring c c0) by (chain) end.
    split; [eapply amb_trans; eassumption|]. right. unfold gate_type in *. destruct HS as (EC & EV & _). rewrite EC, EV in HG. exact HG.
Qed.

Lemma enter_handler_leads super cs eip da e q c :
  at_level q c -> GET_SELECTOR_RPL cs = q -> leads (enter_handler super cs eip da e) (fun _ => arrived q) c.
Proof.
  intros HL Hr. unfold enter_handler. apply leads_arrive with (q := q); [assumption..|]. intros c1 HA.
  apply (leads_rest _ _ _ HA). within_tac; apply ring_fl; reflexivity.
Qed.

Lemma int_same_leads d h e p c : at_level p c -> 0 <= p < 4 -> leads (int_same d h e) (fun _ => arrived p) c.
Proof.
  intros HL Hp. unfold int_same, defined. repeat (ring_step; level_up). apply enter_handler_leads; [assumption|].
  match goal with HA : at_level p _ |- context [CPL ?x] => replace (CPL x) with p by (unfold at_level, same_ring in *; intuition congruence) end.
  apply stamp_rpl, Hp.
Qed.

Lemma int_inner_leads d h e c :
  GET_PE c = 1 -> 0 <= int_type d < 4 -> leads (int_inner d h e) (fun _ => arrived (int_type d)) c.
Proof.
  intros Hpe Hd. unfold int_inner, defined. ring_step. apply leads_seq; [solve [within_tac] | intros [new_ss new_sp] c2 HS2].
  apply leads_seq; [solve [within_tac] | intros [ss_descr ss_entry] c3 HS3].
  ring_step. ring_step. ring_step. ring_step. ring_step. apply leads_modc_seq, leads_modc_seq.
  match goal with |- leads _ _ (modify_fl _ (SET_CPL _ ?x)) => assert (HL : at_level (int_type d) (modify_fl (SET_VM 0) (SET_CPL (int_type d) x)))
    by (split; [change (GET_PE x = 1); unfold same_ring in *; intuition congruence | split; reflexivity]) end.
  generalize dependent (modify_fl (SET_VM 0) (SET_CPL (int_type d) c'1)). intros c4 HL. repeat (ring_step; level_up).
  apply enter_handler_leads; [assumption | apply stamp_rpl, Hd].
Qed.

Lemma int_enter_leads d h e p c :
  prot c -> CPL c = p -> 0 <= p < 4 -> int_type d = NEW_TASK \/ gate_type INT_ID c (int_type d) ->
  leads (int_enter d h e) (fun _ c' => landed c' /\ (int_type d = NEW_TASK \/ CPL c' = dest_cpl p (int_type d))) c.
Proof.
  intros HP Hc Hp Hd. unfold int_enter, dest_cpl.
  assert (HG : forall q (m : X unit) c, leads m (fun _ => arrived q) c -> leads m (fun _ c' => landed c' /\ (int_type d = NEW_TASK \/ CPL c' = q)) c).
  { intros q m c0 Hm. apply (leads_weaken _ _ _ _ Hm). intros [] c' [HC2 HQ2]. auto. }
  destruct (Z.eqb_spec (int_type d) NEW_TASK) as [E | N].
  - unfold int_task. ring_step. eapply leads_via; [apply switch_tasks_leads, HP|]. intros [] c1 HC.
    apply leads_end; [solve [within_tac]|]. intros [] c2 HS. split; [exact (landed_same _ _ HS HC) | auto].
  - destruct Hd as [Hd | [Hd Hv]]; [contradiction|]. destruct (Z.eqb_spec (int_type d) SAME_LEVEL) as [E | N2].
    + apply HG, int_same_leads; [|exact Hp]. destruct HP as [Hpe [H0v | H1v]]; [repeat split; assumption|].
      rewrite (Hv H1v) in E. discriminate.
    + apply HG, int_inner_leads; [apply HP|]. destruct Hd as [Hd | [Hd _]]; [contradiction | lia].
Qed.

(** *** In virtual 8086 mode *)

Lemma CALLF_v86 eip cs c : in_v86 c -> leads (CALLF eip cs) (fun _ => in_v86) c.
Proof.
  intros HV. unfold CALLF, call_to. ring_step. rewrite (v86_mode _ HV). repeat ring_step.
  apply leads_arrive_v86; [repeat match goal with HS : same_ring ?a _, HA : in_v86 ?a |- _ => apply (v86_same _ _ HS) in HA end; exact HV|].
  intros c1 HV1. apply (leads_rest_v86 _ _ HV1). within_tac.
Qed.

Lemma JMPF_v86 eip cs c : in_v86 c -> leads (JMPF eip cs) (fun _ => in_v86) c.
Proof.
  intros HV. unfold JMPF. ring_step. rewrite (v86_mode _ HV). apply leads_arrive_v86; [exact HV|].
  intros c1 HV1. apply (leads_rest_v86 _ _ HV1). within_tac.
Qed.

Ltac v86_up := repeat match goal with HS : same_ring ?a _, HA : in_v86 ?a |- _ => apply (v86_same _ _ HS) in HA end.

Lemma RETF_v86 n c : in_v86 c -> leads (RETF n) (fun _ => in_v86) c.
Proof.
  intros HV. unfold RETF. repeat ring_step. v86_up. rewrite (v86_mode _ HV).
  apply (leads_via (fun _ => in_v86)).
  - apply leads_arrive_v86; [exact HV|]. intros c1 HV1. apply (leads_rest_v86 _ _ HV1). within_tac.
  - intros x c1 HV1. apply (leads_rest_v86 _ _ HV1). within_tac.
Qed.

Lemma IRET_v86 c : in_v86 c -> leads IRET (fun _ => in_v86) c.
Proof.
  intros HV. unfold IRET. ring_step. rewrite (v86_mode _ HV).
  apply leads_seq; [solve [within_tac] | intros [[new_ip new_cs] flags] c1 HS1]. v86_up.
  apply leads_arrive_v86; [exact HV|]. intros c2 HV2. apply leads_modc_seq, leads_modc_seq, wp_modc, v86_current_FLAGS.
  refine (v86_same (SET_ip new_ip c2) _ _ HV2). apply amb_change_SP. typeclasses eauto.
Qed.

Lemma ring_prot c : ring_ok c -> prot c /\ 0 <= CPL c < 4.
Proof.
  intros [(E1 & E2 & E3) | (E1 & E2 & E3)]; (split; [split; [exact E1 | unfold vm_bit; auto]|]).
  - rewrite E3. apply rpl_range.
  - lia.
Qed.

Lemma intrupt_leads v p h e c : ring_ok c -> leads (do_intrupt v p h e) (fun _ => ring_ok) c.
Proof.
  intros HR. unfold do_intrupt. destruct (v =? 0xffff); [apply wp_ret, HR|]. ring_step.
  destruct (ring_prot c HR) as [HP Hc]. rewrite (proj1 HP). cbn [Z.eqb].
  apply (leads_via (fun _ => landed)); [|intros [] c1 HC; apply wp_modc; left; exact HC].
  eapply leads_via; [apply int_dest_leads|]. intros d c1 [HS Hd]. destruct HS as (E1 & E2 & E3 & E4).
  eapply leads_weaken; [apply (int_enter_leads d h e (CPL c) c1)|intros [] c2 [HC _]; exact HC].
  - unfold prot, vm_bit. rewrite E2, E3. exact HP.
  - exact E1.
  - exact Hc.
  - unfold gate_type in *. rewrite E1, E2. exact Hd.
Qed.

End Privilege.

(** ** Theorems *)

Section Theorems.
Context {P : Type} `{PhyQuiet P}.

(** The transfers of control. *)
Inductive transfer :=
| CallFar (ip cs : Z) | JmpFar (ip cs : Z) | RetFar (n : Z) | IntReturn
| Interrupt (vector : Z) (priv_check has_error_code : bool) (error_code : Z).

Definition run_transfer (t : transfer) : M exn (mach P) unit :=
  match t with
  | CallFar ip cs => CALLF ip cs
  | JmpFar ip cs => JMPF ip cs
  | RetFar n => RETF n
  | IntReturn => IRET
  | Interrupt v p h e => do_intrupt v p h e
  end.

Lemma landed_level c : landed c -> exists p, at_level p c /\ 0 <= p < 4.
Proof. intros HC. eexists. split; [exact HC | apply rpl_range]. Qed.

Lemma transfer_leads t c : ring_ok c -> leads (run_transfer t) (fun _ => ring_ok) c.
Proof.
  intros [HC | HV].
  - destruct (landed_level c HC) as (p & HL & Hp). pose proof (level_mode _ _ HL) as Hm. destruct t as [eip cs|eip cs|n| |v q h e]; cbn [run_transfer].
    + unfold CALLF. apply leads_getc_seq. rewrite Hm. eapply leads_via; [apply far_dest_leads|]. intros d c1 [HS Hd].
      eapply leads_weaken; [apply (call_dest_leads d p c1 (level_same _ _ _ HS HL) Hp)|intros [] c2 [HC2 _]; left; exact HC2].
      destruct HL as (_ & _ & <-). tauto.
    + unfold JMPF. apply leads_getc_seq. rewrite Hm. eapply leads_via; [apply far_dest_leads|]. intros d c1 [HS Hd].
      eapply leads_weaken; [apply (jump_dest_leads d p c1 (level_same _ _ _ HS HL) Hp (landed_same _ _ HS HC))|intros [] c2 [HC2 _]; left; exact HC2].
    + eapply leads_weaken; [apply (RETF_leads n p c HL)|intros [] c2 [HC2 _]; left; exact HC2].
    + eapply leads_weaken; [apply (IRET_leads p c HL Hp)|intros [] c2 [HC2 _]; exact HC2].
    + apply intrupt_leads. left. exact HC.
  - destruct t as [eip cs|eip cs|n| |v q h e]; cbn [run_transfer]; [| | | |apply intrupt_leads; right; exact HV];
      (eapply leads_weaken; [first [apply CALLF_v86 | apply JMPF_v86 | apply RETF_v86 | apply IRET_v86]; exact HV | intros [] c2 HV2; right; exact HV2]).
Qed.

(** C1 - The privilege follows the code segment: in protected mode the current
    privilege is the RPL of CS, and 3 in virtual 8086 mode, after every far call, jump,
    return, interrupt and interrupt return that completes: through gates, task switches,
    stack switches and mode changes. *)
Theorem privilege_follows_cs (t : transfer) (s s' : mach P) :
  ring_ok (mcpu s) -> run_transfer t s = Ret tt s' -> ring_ok (mcpu s').
Proof. intros HR E. pose proof (transfer_leads t (mcpu s) HR s eq_refl) as HW. rewrite E in HW. exact HW. Qed.

(** What a computation returns with. *)
Lemma leads_ret {A} (m : M exn (mach P) A) Q s a s' : leads m Q (mcpu s) -> m s = Ret a s' -> Q a (mcpu s').
Proof. intros HW E. specialize (HW s eq_refl). rewrite E in HW. exact HW. Qed.

Lemma bind_inv {A B} (m : M exn (mach P) A) (k : A -> M exn (mach P) B) s b s' :
  bind m k s = Ret b s' -> exists a s1, m s = Ret a s1 /\ k a s1 = Ret b s'.
Proof. unfold bind. destruct (m s) as [a s1|e s1|]; [|discriminate..]. eauto. Qed.

(** C2 - No transfer gains privilege but through a gate: in protected mode a far return
    and an interrupt return within the task never lower CPL; a far jump that is no
    task switch keeps it; and a far call that is no task switch keeps it or goes to the
    more privileged level that the checked destination names. *)
Theorem no_escalation (s : mach P) eip cs n :
  landed (mcpu s) ->
  (forall s', RETF n s = Ret tt s' -> CPL (mcpu s) <= CPL (mcpu s'))
  /\ (forall s', IRET s = Ret tt s' -> NT (fl (mcpu s)) <> 1 -> CPL (mcpu s) <= CPL (mcpu s'))
  /\ (forall s', JMPF eip cs s = Ret tt s' ->
       exists d s1, validate_far_dest (u16 cs) eip JMP_ID s = Ret d s1
       /\ (d_type d <> NEW_TASK -> CPL (mcpu s') = CPL (mcpu s)))
  /\ (forall s', CALLF eip cs s = Ret tt s' ->
       exists d s1, validate_far_dest (u16 cs) eip CALL_ID s = Ret d s1
       /\ (d_type d <> NEW_TASK ->
           CPL (mcpu s') = (if d_type d =? SAME_LEVEL then CPL (mcpu s) else d_type d) /\ CPL (mcpu s') <= CPL (mcpu s))).
Proof.
  intros HC. destruct (landed_level _ HC) as (p & HL & Hp). pose proof (level_mode _ _ HL) as Hm.
  assert (Ep : CPL (mcpu s) = p) by apply HL. rewrite Ep. repeat apply conj.
  - intros s' E. exact (proj2 (leads_ret _ _ _ _ _ (RETF_leads n p _ HL) E)).
  - intros s' E Hn. destruct (leads_ret _ _ _ _ _ (IRET_leads p _ HL Hp) E) as [_ [E1 | E1]]; [contradiction | exact E1].
  - intros s' E. unfold JMPF in E. rewrite getc_bind in E. cbn [the_cpu HasCpu_mach] in E. rewrite Hm in E.
    destruct (bind_inv _ _ _ _ _ E) as (d & s1 & E1 & E2). exists d, s1. split; [exact E1|]. intros Hd.
    destruct (leads_ret _ _ _ _ _ (far_dest_leads _ _ _ _) E1) as [HS _].
    destruct (leads_ret _ _ _ _ _ (jump_dest_leads d p _ (level_same _ _ _ HS HL) Hp (landed_same _ _ HS HC)) E2) as [_ [HN | HN]]; [contradiction | exact HN].
  - intros s' E. unfold CALLF in E. rewrite getc_bind in E. cbn [the_cpu HasCpu_mach] in E. rewrite Hm in E.
    destruct (bind_inv _ _ _ _ _ E) as (d & s1 & E1 & E2). exists d, s1. split; [exact E1|]. intros Hd.
    destruct (leads_ret _ _ _ _ _ (far_dest_leads _ _ _ _) E1) as [HS HT]. rewrite Ep in HT.
    assert (HT' : d_type d = NEW_TASK \/ d_type d = SAME_LEVEL \/ 0 <= d_type d < p) by tauto.
    destruct (leads_ret _ _ _ _ _ (call_dest_leads d p _ (level_same _ _ _ HS HL) Hp HT') E2) as [_ [HN | HN]]; [contradiction|].
    unfold dest_cpl in HN. split; [exact HN|]. rewrite HN. destruct (Z.eqb_spec (d_type d) SAME_LEVEL); lia.
Qed.

End Theorems.
(** ** Witnesses: a flat machine in protected mode whose descriptor table, at 0x2000, has a
    code segment in entry 1; it has no interrupt table *)

#[local] Existing Instance demo_memory.
#[local] Existing Instance demo_quiet.

Definition flat_sas : Mem.sas unit :=
  Mem.SET_M_area (fun a => if a =? 0x2008 then 0xff else if a =? 0x2009 then 0xff else if a =? 0x200d then 0x9a else 0) Mem.sas0.
Definition flat_cpu : cpu := SET_GR A_ESP 0x1000 (SET_gdtr (mkSTAR 0x2000 0xff) cpu0).
Definition flat : mach (Mem.sas unit) := mkMach flat_cpu flat_sas tlb0 0 0 debug0.

Definition ret_state {A} (o : outcome exn (mach (Mem.sas unit)) A) : mach (Mem.sas unit) :=
  match o with Ret _ s => s | Raise _ s => s | Undefined => flat end.

Lemma flat_landed : landed (mcpu flat).
Proof. repeat split. Qed.

Lemma flat_call : CALLF 0x100 8 flat = Ret tt (ret_state (CALLF 0x100 8 flat)).
Proof. vm_compute. reflexivity. Qed.

Lemma privilege_follows_cs_witness : ring_ok (mcpu (ret_state (CALLF 0x100 8 flat))).
Proof. exact (privilege_follows_cs (CallFar 0x100 8) flat _ (or_introl flat_landed) flat_call). Defined.

Lemma no_escalation_witness :
  exists d s1, validate_far_dest 8 0x100 CALL_ID flat = Ret d s1
  /\ (d_type d <> NEW_TASK -> CPL (mcpu (ret_state (CALLF 0x100 8 flat))) <= 0).
Proof.
  destruct (proj2 (proj2 (proj2 (no_escalation flat 0x100 8 0 flat_landed))) _ flat_call) as (d & s1 & E & HC).
  exists d, s1. split; [exact E|]. intros Hd. exact (proj2 (HC Hd)).
Defined.


End Ring.
