(* ===== verification/Real.v ===== *)
(** * Far transfers and interrupts in real mode

    Far calls against far returns, and interrupts against interrupt returns, when
    segments are not described by tables: every register comes back. *)

From S2P Require Import Prelude Cpu Debug Arith Shift Xcptn MulDiv Flow Mem Tlb Page Basic Seg Virt Addr Stack Xfer Intr.

Module Real.
Import Debug Xcptn Tlb Page Basic Seg Virt Addr Stack Xfer Intr.

(** The code segment register [load_CS_cache] makes of a selector. *)
Definition real_CS (sel vm : Z) (s : SEGMENT_REGISTER) : SEGMENT_REGISTER :=
  SEG_ar_dpl (if vm =? 1 then 3 else 0)
    (SEG_ar_x 0 (SEG_ar_c 0 (SEG_ar_e 0 (SEG_ar_r 1 (SEG_ar_w 1 (SEG_base (sel .<< 4) (SEG_selector sel s))))))).

(** CS holds what its selector loads. *)
Definition real_cs (c : cpu) : Prop :=
  let s := GET_SR CS_REG c in
  0 <= selector s < 2 ^ 16 /\ real_CS (selector s) (VM (fl c)) s = s.

(** Go to [sel:eip]. *)
Definition goto (sel eip : Z) (c : cpu) : cpu :=
  SET_ip eip (SET_SR CS_REG (real_CS sel (VM (fl c)) (GET_SR CS_REG c)) c).

Lemma goto_sp sel eip y c : set_current_SP y (goto sel eip c) = goto sel eip (set_current_SP y c).
Proof.
  unfold goto, set_current_SP. change (GET_SS_AR_X (SET_ip eip _)) with (GET_SS_AR_X c). destruct (_ =? _); reflexivity.
Qed.

Lemma goto_back sel eip c : real_cs c -> goto (selector (GET_SR CS_REG c)) (ip c) (goto sel eip c) = c.
Proof.
  intros [_ E]. unfold goto.
  change (GET_SR CS_REG (SET_ip eip (SET_SR CS_REG ?s c))) with s.
  change (VM (fl (SET_ip eip (SET_SR CS_REG _ c)))) with (VM (fl c)).
  assert (E2 : forall s, real_CS (selector (GET_SR CS_REG c)) (VM (fl c)) (real_CS sel (VM (fl c)) s) = real_CS (selector (GET_SR CS_REG c)) (VM (fl c)) s)
    by (intros []; reflexivity).
  rewrite E2, E. destruct c as [? ? ? ? ? ? ? r]. destruct r. reflexivity.
Qed.

(** ** Flags *)


Lemma flag_of_bit x : x = 0 \/ x = 1 -> Z.b2z (x =? 1) = x.
Proof. intros [-> | ->]; reflexivity. Qed.

Lemma iopl_of_bits v x : 0 <= x < 4 -> Z.testbit v 12 = Z.testbit x 0 -> Z.testbit v 13 = Z.testbit x 1 -> (v .>> 12) .& 3 = x.
Proof.
  intros Hx E0 E1. destruct (iopl_bits v) as [B0 B1]. pose proof (iopl_range v) as Hr. rewrite E0 in B0. rewrite E1 in B1.
  set (z := _ .& 3) in *. clearbody z. clear v E0 E1.
  assert (z = 0 \/ z = 1 \/ z = 2 \/ z = 3) as Hz by lia. assert (x = 0 \/ x = 1 \/ x = 2 \/ x = 3) as Hy by lia. clear Hx Hr.
  destruct Hz as [-> | [-> | [-> | ->]]], Hy as [-> | [-> | [-> | ->]]]; discriminate || reflexivity.
Qed.

(** What an interrupt does to the flags. *)
Definition masked (c : cpu) : cpu := modify_fl (SET_TF 0) (modify_fl (SET_IF 0) c).

(** Storing the flags read before undoes it, with the rights of privilege 0. *)
Lemma setFLAGS_back v c :
  flags_ok (fl c) -> CPL c = 0 -> (forall i, 0 <= i < 16 -> Z.testbit v i = flag_at (fl c) i) -> setFLAGS v (masked c) = c.
Proof.
  intros [HF HI] Hc Hb. unfold setFLAGS. rewrite !nz_flag by lia. rewrite !Hb by lia.
  rewrite (iopl_of_bits v (IOPL (fl c)) HI (Hb 12 ltac:(lia)) (Hb 13 ltac:(lia))).
  repeat match goal with HF : Forall _ (_ :: _) |- _ => inversion_clear HF end. cbn [flag_at].
  rewrite !flag_of_bit by assumption. destruct c as [g ip f cpl]. cbn [CPL fl] in *. subst cpl. unfold masked, modify_fl. cbn [CPL fl SET_fl].
  destruct f. cbn in *. destruct (Z.leb_spec 0 IOPL); [reflexivity | lia].
Qed.

Lemma setEFLAGS_back v c :
  flags_ok (fl c) -> CPL c = 0 -> (forall i, 0 <= i < 18 -> Z.testbit v i = flag_at (fl c) i) -> c_setEFLAGS v (masked c) = c.
Proof.
  intros HF Hc Hb. unfold c_setEFLAGS. rewrite setFLAGS_back by (try assumption; intros; apply Hb; lia).
  change (CPL (modify_fl _ c)) with (CPL c). rewrite Hc. cbn [Z.eqb]. rewrite !nz_flag, !Hb by lia. cbn [flag_at].
  destruct HF as [HF _]. repeat match goal with HF : Forall _ (_ :: _) |- _ => inversion_clear HF end.
  rewrite !flag_of_bit by assumption. destruct c as [? ? f]. destruct f. reflexivity.
Qed.

Lemma goto_masked sel eip x c : goto sel eip (modify_xs x (masked c)) = modify_xs x (masked (goto sel eip c)).
Proof. destruct c. reflexivity. Qed.

Lemma masked_sp y x c : set_current_SP y (modify_xs x (masked c)) = modify_xs x (masked (set_current_SP y c)).
Proof.
  unfold set_current_SP. change (GET_SS_AR_X (modify_xs x (masked c))) with (GET_SS_AR_X c). destruct (_ =? _); destruct c; reflexivity.
Qed.

(** The new flags depend on the privilege and the old flags only. *)
Definition new_flags (v cpl : Z) (f : FLAGS) : FLAGS :=
  let b n := nz (v .& BIT_MASK n) in
  mkFLAGS (b 0) (b 2) (b 4) (b 6) (b 7) (b 8) (if cpl <=? IOPL f then b 9 else IF f) (b 10) (b 11)
    (if cpl =? 0 then (v .>> 12) .& 3 else IOPL f) (b 14) (RF f) (VM f).

Lemma setFLAGS_new v c : setFLAGS v c = SET_fl (new_flags v (CPL c) (fl c)) c.
Proof.
  destruct c as [g i f p]. destruct f as [cf pf af zf sf tf ef df xf iopl nt rf vm]. unfold setFLAGS, new_flags, modify_fl.
  cbn [fl SET_fl CPL SET_CF SET_PF SET_AF SET_ZF SET_SF SET_TF SET_DF SET_OF SET_IF SET_NT SET_IOPL CF PF AF ZF SF TF IF DF OF IOPL NT RF VM].
  destruct (p <=? iopl); cbn [fl SET_fl CPL SET_IF SET_NT SET_IOPL CF PF AF ZF SF TF IF DF OF IOPL NT RF VM];
    destruct (p =? 0); reflexivity.
Qed.

Lemma current_FLAGS_done v x c : set_current_FLAGS v (modify_xs x c) = modify_xs x (set_current_FLAGS v c).
Proof.
  unfold set_current_FLAGS, c_setEFLAGS. rewrite !setFLAGS_new. change (operand_size (modify_xs x c)) with (operand_size c).
  destruct (_ =? USE16); [reflexivity|].
  change (CPL (modify_fl _ (SET_fl _ (modify_xs x c)))) with (CPL c). change (CPL (modify_fl _ (SET_fl _ c))) with (CPL c).
  destruct (CPL c =? 0); reflexivity.
Qed.

Lemma eflags_range c : flags_ok (fl c) -> 0 <= c_getEFLAGS c < 2 ^ 32.
Proof.
  intros HF. cut (0 <= c_getEFLAGS c < 2 ^ 18); [lia|]. apply range_bits; [lia|]. intros i [Hi | Hi]; [|apply Z.testbit_neg_r, Hi].
  rewrite eflags_bit by (assumption || lia). apply flag_at_high, Hi.
Qed.

(** The flags an interrupt return pops, at either size. *)
Lemma current_FLAGS_back c :
  flags_ok (fl c) -> CPL c = 0 -> set_current_FLAGS (low c (c_getEFLAGS c)) (masked c) = c.
Proof.
  intros HF Hc. unfold set_current_FLAGS, low, osz. change (operand_size (masked c)) with (operand_size c).
  destruct (operand_size c =? USE16).
  - apply setFLAGS_back; [assumption..|]. intros i Hi. change (8 * Z.of_nat 2) with 16. rewrite Z.mod_pow2_bits_low by lia.
    apply eflags_bit; [exact HF | lia].
  - apply setEFLAGS_back; [assumption..|]. intros i Hi. change (8 * Z.of_nat 4) with 32.
    rewrite Z.mod_small by (apply eflags_range, HF). apply eflags_bit; [exact HF | lia].
Qed.

Section Frames.
Context {P : Type} `{PhyMemLaws P}.

Abbreviation sp s := (GetStackPointer (mcpu s)).

Lemma load_CS_real sel a e (s : mach P) :
  real_or_v86 (mcpu s) = true ->
  load_CS_cache sel a e s
  = Ret tt (put_cpu (SET_SR CS_REG (real_CS sel (VM (fl (mcpu s))) (GET_SR CS_REG (mcpu s))) (mcpu s)) s).
Proof. intros E. unfold load_CS_cache. rewrite getc_bind. cbn [the_cpu HasCpu_mach]. rewrite E. reflexivity. Qed.

(** Registers change, but not the stack segment, the privilege and the control
    registers. *)
Definition stack_same (c c' : cpu) : Prop :=
  GET_SR SS_REG c' = GET_SR SS_REG c /\ CPL c' = CPL c /\ cr c' = cr c.

Lemma window_regs lo hi c' s :
  window lo hi s -> stack_same (mcpu s) c' -> reg32 c' ->
  lframed nothing s (put_cpu c' s) /\ same_stack s (put_cpu c' s) /\ window lo hi (put_cpu c' s).
Proof.
  intros HW (ES & EC & ER) HR.
  assert (F : lframed nothing s (put_cpu c' s)) by (apply put_framed; [apply HW | exact ER]).
  assert (S : same_stack s (put_cpu c' s)) by (split; [exact ES | exact EC]).
  split; [exact F|]. split; [exact S|]. exact (window_step _ _ _ _ _ HW F S HR).
Qed.

(** The low word of an item. *)
Lemma slot_low lo hi s off n :
  window lo hi s -> lo <= off -> off + Z.of_nat n <= hi -> (2 <= n)%nat -> u16 (slot s off n) = slot s off 2.
Proof.
  intros HW Ha Hb Hn. unfold slot. set (a := _ + off). replace n with (2 + (n - 2))%nat by lia.
  assert (HR : lrange s a 2) by (apply (window_range lo hi s off 2 HW); lia).
  pose proof (lvalue_range 2 s a HR) as Hr. cbn [Nat.add lvalue] in *. unfold u16.
  apply (mod_is _ (lvalue s (a + 1 + 1) (n - 2)) _ 16); [exact Hr | lia].
Qed.

Lemma push16_step lo hi s0 y l s x :
  let n := osz (mcpu s0) in
  pushed lo hi s0 y l s -> lo <= y - Z.of_nat n ->
  exists s' v, spush16 x s = Ret tt s' /\ pushed lo hi s0 (y - Z.of_nat n) (v :: l) s' /\ u16 v = u16 x.
Proof.
  intros n [C F S W W0 Hy [Hb0 Hb1] Hl] Hlo. pose proof (osz_range (mcpu s0)) as Hn. fold n in Hn, Hy, Hl.
  pose proof (sp_range _ (w_reg _ _ _ W0)) as Hsp.
  assert (Y : sp s = y) by (rewrite C; apply sp_get; destruct (w_bounds _ _ _ W0); nia).
  destruct (spush16_run lo hi x s W) as (s' & E & C' & V & F' & S' & W'); rewrite ?Y, ?C, ?osz_sp; fold n; try nia.
  rewrite C, osz_sp, Y in *. fold n in C', V, F'. rewrite sp_set_set in C'. exists s', (slot s' (y - Z.of_nat n) n).
  split; [exact E|]. split; [|rewrite (slot_low lo hi s') by (exact W' || nia); exact V].
  split; cbn [length holds]; fold n; auto; try nia.
  - apply (wrote_trans lo hi s0 s s' _ _ y (sp s0) (y - Z.of_nat n) y W0 S F F'); nia.
  - exact (same_stack_trans _ _ _ S S').
  - split; [reflexivity|]. replace (y - Z.of_nat n + Z.of_nat n) with y by lia.
    apply (holds_kept n s s' hi l y); [|nia | exact Hl].
    intros off H1 H2. apply (slot_kept lo hi s s' (y - Z.of_nat n) y off n W F' S'); nia.
Qed.

(** The return address: EIP at [y], CS above it. *)
Lemma push_return lo hi s0 y l s :
  let c := mcpu s0 in let n := Z.of_nat (osz c) in
  pushed lo hi s0 y l s -> lo <= y - 2 * n -> 0 <= ip c < 2 ^ 32 -> 0 <= selector (GET_SR CS_REG c) < 2 ^ 16 ->
  exists s' v,
    (forall B (k : M exn (mach P) B),
     (cs <- getc (fun c => selector (GET_SR CS_REG c)) ;; spush16 cs ;; eip <- getc ip ;; spush eip ;; k) s = k s')
  /\ pushed lo hi s0 (y - 2 * n) (low c (ip c) :: v :: l) s' /\ u16 v = selector (GET_SR CS_REG c).
Proof.
  intros c n; subst c n; intros HP Hlo Hip Hsel. pose proof (osz_range (mcpu s0)) as Hn.
  assert (HG : forall y l s, pushed lo hi s0 y l s -> selector (GET_SR CS_REG (mcpu s)) = selector (GET_SR CS_REG (mcpu s0)) /\ ip (mcpu s) = ip (mcpu s0)).
  { intros y0 l0 s1 HP1. rewrite (pu_cpu _ _ _ _ _ _ HP1). destruct (sp_gr y0 (mcpu s0)) as [g ->]. split; reflexivity. }
  destruct (HG _ _ _ HP) as [E1 _].
  destruct (push16_step lo hi s0 y l s (selector (GET_SR CS_REG (mcpu s0))) HP) as (s1 & v & Es & HP1 & Hv); [lia|].
  destruct (HG _ _ _ HP1) as [_ E2].
  destruct (push_step lo hi s0 _ _ s1 (ip (mcpu s0)) HP1) as (s2 & Es2 & HP2); [lia | exact Hip|].
  exists s2, v. split; [|split; [|rewrite Hv; apply u16_small, Hsel]].
  - intros B k. rewrite getc_bind. cbn [the_cpu HasCpu_mach]. rewrite E1, (bind_ret _ _ _ _ _ Es), getc_bind.
    cbn [the_cpu HasCpu_mach]. rewrite E2, (bind_ret _ _ _ _ _ Es2). reflexivity.
  - replace (y - 2 * Z.of_nat (osz (mcpu s0))) with (y - Z.of_nat (osz (mcpu s0)) - Z.of_nat (osz (mcpu s0))) by lia. exact HP2.
Qed.

(** The frame is left and its owner runs on with other registers. *)
Lemma leave_frame lo hi s0 y l s1 c' :
  pushed lo hi s0 y l s1 -> stack_same (mcpu s0) c' -> reg32 (set_current_SP y c') ->
  let s2 := put_cpu (set_current_SP y c') s1 in
  window lo hi s2 /\ holds (osz (mcpu s0)) s2 y l /\ wrote y (sp s0) s0 s2.
Proof.
  intros [C F S W W0 Hy [Hb0 Hb1] Hl] HS HR s2. pose proof (osz_range (mcpu s0)) as Hn.
  assert (HS2 : stack_same (mcpu s1) (set_current_SP y c')).
  { destruct HS as (E1 & E2 & E3), (sp_gr y c') as [g ->]. rewrite C. destruct (sp_gr y (mcpu s0)) as [g' ->]. repeat split; assumption. }
  destruct (window_regs lo hi _ s1 W HS2 HR) as (F2 & S2 & W2). split; [exact W2|]. split; [|exact (lframed_after _ _ _ _ F F2)].
  apply (holds_kept _ s1 _ hi l y); [|nia | exact Hl]. intros off H1 H2. apply (slot_nothing lo hi s1 _ off _ W F2 S2); lia.
Qed.

Lemma real_sp y c : real_or_v86 (set_current_SP y c) = real_or_v86 c.
Proof. destruct (sp_gr y c) as [g ->]. reflexivity. Qed.

Lemma goto_run sel eip (s : mach P) :
  real_or_v86 (mcpu s) = true ->
  forall B (k : M exn (mach P) B), (load_CS_cache sel 0 no_descr ;; modc (SET_ip eip) ;; k) s = k (put_cpu (goto sel eip (mcpu s)) s).
Proof. intros E B k. rewrite (bind_ret _ _ _ _ _ (load_CS_real sel 0 no_descr s E)). reflexivity. Qed.

Lemma CALLF_run lo hi s eip cs :
  let c := mcpu s in
  let n := Z.of_nat (osz c) in
  let y := sp s - 2 * n in
  stack_ready lo hi s -> real_or_v86 c = true -> lo <= y -> sp s <= hi ->
  0 <= ip c < 2 ^ 32 -> 0 <= selector (GET_SR CS_REG c) < 2 ^ 16 ->
  exists s1 v, CALLF eip cs s = Ret tt s1 /\ mcpu s1 = set_current_SP y (goto (u16 cs) eip c)
  /\ window lo hi s1 /\ holds (osz c) s1 y [low c (ip c); v] /\ u16 v = selector (GET_SR CS_REG c) /\ wrote y (sp s) s s1.
Proof.
  intros c n y; subst c n y; intros HR Hm Hlo Hhi Hip Hsel. pose proof (osz_range (mcpu s)) as Hn.
  destruct (space_pushed lo hi 2 s HR ltac:(lia) Hlo Hhi (or_introl Hm)) as (s0 & E0 & C0 & F0 & HP).
  destruct (push_return lo hi s0 _ _ s0 HP) as (s1 & v & E1 & HP1 & Hv); rewrite ?C0; try assumption.
  rewrite C0 in *. pose proof (pu_cpu _ _ _ _ _ _ HP1) as C1. rewrite C0 in C1.
  destruct (leave_frame lo hi s0 _ _ s1 (goto (u16 cs) eip (mcpu s0)) HP1) as (W2 & I2 & F2).
  { repeat split. }
  { rewrite C0, goto_sp, <- C1. exact (w_reg _ _ _ (pu_window _ _ _ _ _ _ HP1)). }
  rewrite C0 in *. rewrite goto_sp, <- C1 in *. exists (put_cpu (goto (u16 cs) eip (mcpu s1)) s1), v.
  split; [|split; [reflexivity|split; [exact W2|split; [exact I2|split; [exact Hv|]]]]].
  - unfold CALLF. rewrite getc_bind. cbn [the_cpu HasCpu_mach]. rewrite Hm, (bind_ret _ _ _ _ _ E0). unfold call_to. rewrite E1.
    rewrite (bind_ret _ _ _ _ _ (load_CS_real _ _ _ s1 ltac:(rewrite C1, real_sp; exact Hm))). reflexivity.
  - exact (wrote_from s0 s _ _ _ lo hi (sr_window _ _ _ HR) C0 F0 Hlo Hhi F2).
Qed.

(** Step back over [k] items. *)
Lemma change_SP_run k y c :
  0 <= y < sp_top c -> 0 <= y + k * Z.of_nat (osz c) < sp_top c ->
  change_SP k (set_current_SP y c) = set_current_SP (y + k * Z.of_nat (osz c)) c.
Proof.
  intros Hy Hk. rewrite change_SP_bytes, op_bytes_osz, osz_sp, sp_change; rewrite ?sp_top_sp, ?sp_get by exact Hy; [|exact Hk].
  apply sp_set_set.
Qed.

Lemma RETF_run lo hi c y s v w :
  let n := Z.of_nat (osz c) in
  window lo hi s -> mcpu s = set_current_SP y c -> real_or_v86 c = true -> lo <= y -> y + 2 * n <= hi -> y + 2 * n < sp_top c ->
  ar_r (GET_SR SS_REG c) <> 0 -> holds (osz c) s y [v; w] ->
  exists s', RETF 0 s = Ret tt s' /\ mcpu s' = set_current_SP (y + 2 * n) (goto (u16 w) v c) /\ lframed nothing s s'.
Proof.
  intros n; subst n; intros HW C Hm Hlo Hhi Ht Hr (Hv & Hw & _). destruct (w_bounds _ _ _ HW) as (B0 & _). pose proof (osz_range c) as Hn.
  assert (HM : moved lo hi c s y s) by (apply moved_refl; [exact HW | exact C | lia]).
  destruct (moved_exists lo hi 2 c s y s HM) as (s3 & E3 & M3); try lia; try assumption; [left; exact Hm|].
  destruct (moved_tpop lo hi 0 0 c s y s3 HW M3) as (s4 & E4 & M4); try lia.
  destruct (moved_tpop lo hi 1 0 c s y s4 HW M4) as (s5 & E5 & M5); try lia.
  rewrite Z.mul_0_l, !Z.add_0_r, Hv in E4. rewrite Z.mul_1_l, Z.add_0_r, Hw in E5.
  pose proof (mv_cpu _ _ _ _ _ _ M5) as C5. assert (Hm5 : real_or_v86 (mcpu s5) = true) by (rewrite C5, real_sp; exact Hm).
  unfold RETF. rewrite (bind_ret _ _ _ _ _ E3), (bind_ret _ _ _ _ _ E4), (bind_ret _ _ _ _ _ E5), !getc_bind.
  cbn [the_cpu HasCpu_mach]. rewrite Hm5.
  assert (Eg : (load_CS_cache (u16 w) 0 no_descr ;; modc (SET_ip v) ;; ret 2) s5 = Ret 2 (put_cpu (goto (u16 w) v (mcpu s5)) s5))
    by apply (goto_run _ _ _ Hm5).
  rewrite (bind_ret _ _ _ _ _ Eg). rewrite modc_bind. unfold modc, modify. cbn [the_cpu HasCpu_mach put_cpu mcpu].
  assert (Ec : byte_change_SP 0 (change_SP 2 (goto (u16 w) v (mcpu s5))) = set_current_SP (y + 2 * Z.of_nat (osz c)) (goto (u16 w) v c)).
  { rewrite C5, <- goto_sp, change_SP_run; change (osz (goto (u16 w) v c)) with (osz c); change (sp_top (goto (u16 w) v c)) with (sp_top c); try lia.
    rewrite sp_change; rewrite ?sp_top_sp, ?sp_get; change (sp_top (goto (u16 w) v c)) with (sp_top c); try lia.
    rewrite sp_set_set. f_equal. lia. }
  eexists. split; [reflexivity|]. cbn. split; [exact Ec|].
  apply (lframed_then _ _ s5); [apply M5|]. apply lframed_same; cbn; auto; [|apply M5].
  rewrite Ec, C5. destruct (sp_gr (y + 2 * Z.of_nat (osz c)) (goto (u16 w) v c)) as [g' ->], (sp_gr y c) as [g ->]. reflexivity.
Qed.

(** Far calls and returns in real and virtual 8086 mode: a far call pushes CS and
    EIP and goes to the target segment, and a far return afterwards restores CS with its
    hidden base and rights, EIP, the stack pointer and every other register, for both
    operand and stack sizes; only the two items below the stack pointer are written. *)
Theorem far_call_return lo hi s eip cs :
  let c := mcpu s in
  let y := sp s - 2 * Z.of_nat (osz c) in
  stack_ready lo hi s -> real_or_v86 c = true -> real_cs c -> lo <= y -> sp s <= hi ->
  0 <= ip c < 2 ^ (8 * Z.of_nat (osz c)) ->
  exists s1 s2, CALLF eip cs s = Ret tt s1 /\ ip (mcpu s1) = eip /\ selector (GET_SR CS_REG (mcpu s1)) = u16 cs
  /\ base (GET_SR CS_REG (mcpu s1)) = u16 cs * 2 ^ 4 /\ sp s1 = y
  /\ RETF 0 s1 = Ret tt s2 /\ mcpu s2 = c /\ wrote y (sp s) s s2.
Proof.
  intros c y; subst c y; intros HR Hm Hcs Hlo Hhi Hip. pose proof (pow8_osz (mcpu s)). pose proof (osz_range (mcpu s)) as Hn.
  pose proof (sp_range _ (w_reg _ _ _ (sr_window _ _ _ HR))) as Hsp.
  destruct (CALLF_run lo hi s eip cs HR Hm Hlo Hhi) as (s1 & v & E1 & C1 & W1 & I1 & Hv & F1); [lia | apply Hcs|].
  destruct (w_bounds _ _ _ (sr_window _ _ _ HR)) as (B0 & B1 & _).
  set (c' := goto (u16 cs) eip (mcpu s)) in *.
  destruct (RETF_run lo hi c' (sp s - 2 * Z.of_nat (osz (mcpu s))) s1 (low (mcpu s) (ip (mcpu s))) v W1 C1) as (s2 & E2 & C2 & F2);
    change (osz c') with (osz (mcpu s)); change (sp_top c') with (sp_top (mcpu s)); try lia; try assumption; [apply HR|].
  exists s1, s2. split; [exact E1|]. destruct (sp_gr (sp s - 2 * Z.of_nat (osz (mcpu s))) c') as [g Eg].
  split; [rewrite C1, Eg; reflexivity|]. split; [rewrite C1, Eg; reflexivity|].
  split; [rewrite C1, Eg; change (base (GET_SR CS_REG (SET_gr g c'))) with (u16 cs .<< 4); pose proof (u16_range cs);
          rewrite u32_small; rewrite Z.shiftl_mul_pow2; lia|].
  split; [rewrite C1; apply sp_get; change (sp_top c') with (sp_top (mcpu s)); lia|].
  split; [exact E2|]. split; [|exact (lframed_after _ _ _ _ F1 F2)].
  change (osz c') with (osz (mcpu s)) in C2. unfold low in C2. rewrite Z.mod_small in C2 by exact Hip.
  rewrite C2, Hv. unfold c'. rewrite goto_back by exact Hcs. replace (_ - _ + _) with (sp s) by lia. apply sp_set_get.
Qed.

(** ** Interrupts *)

(** The entry of a vector: offset, then segment. *)
Definition vector_ip (s : mach P) (v : Z) : Z := lvalue s (v * 4) 2.
Definition vector_cs (s : mach P) (v : Z) : Z := lvalue s (v * 4 + 2) 2.

Lemma vector_read v off s s0 :
  pg s = false -> lframed nothing s s0 -> 0 <= v < 2 ^ 16 -> 0 <= off <= 2 -> lrange s (v * 4) 4 ->
  onmem (phy_read_word (u32 (v * 4 + off))) s0 = Ret (lvalue s (v * 4 + off) 2) s0.
Proof.
  intros Hpg HF Hv Ho HR. rewrite u32_small by lia.
  assert (HR2 : lrange s (v * 4 + off) 2) by (apply (lrange_sub s (v * 4) 4); [exact HR | lia | lia]).
  assert (Hpg0 : pg s0 = false) by (rewrite (lf_pg _ _ _ HF); exact Hpg).
  rewrite <- (lvalue_framed _ _ _ _ _ HF HR2) by (unfold nothing; auto). rewrite (lvalue_flat s0 2 Hpg0).
  unfold onmem. rewrite read_word_ram.
  - destruct s0. reflexivity.
  - exact (lrange_flat s0 _ 2 Hpg0 ltac:(lia) (lrange_framed _ _ _ _ _ HF HR2)).
Qed.

(** The handler's registers. *)
Definition handler (v : Z) (s : mach P) (c : cpu) : cpu :=
  modify_xs intrupt_done (masked (goto (vector_cs s v) (vector_ip s v) c)).

Lemma handler_sp v s y c : set_current_SP y (handler v s c) = handler v s (set_current_SP y c).
Proof.
  unfold handler, masked. transitivity (modify_xs intrupt_done (modify_fl (SET_TF 0) (modify_fl (SET_IF 0)
    (set_current_SP y (goto (vector_cs s v) (vector_ip s v) c))))); [|rewrite goto_sp; reflexivity].
  unfold set_current_SP. change (GET_SS_AR_X (modify_xs _ _)) with (GET_SS_AR_X (goto (vector_cs s v) (vector_ip s v) c)).
  destruct (_ =? _); reflexivity.
Qed.

Lemma int_real_run lo hi s v p h e :
  let c := mcpu s in
  let n := Z.of_nat (osz c) in
  let y := sp s - 3 * n in
  stack_ready lo hi s -> GET_PE c = 0 -> pg s = false -> 0 <= v < 0xffff -> lrange s (v * 4) 4 -> lo <= y -> sp s <= hi ->
  flags_ok (fl c) -> doing_fault (xs c) = false -> 0 <= ip c < 2 ^ 32 -> 0 <= selector (GET_SR CS_REG c) < 2 ^ 16 ->
  exists s1 w, do_intrupt v p h e s = Ret tt s1 /\ mcpu s1 = set_current_SP y (handler v s c)
  /\ window lo hi s1 /\ holds (osz c) s1 y [low c (ip c); w; low c (c_getEFLAGS c)] /\ u16 w = selector (GET_SR CS_REG c)
  /\ wrote y (sp s) s s1.
Proof.
  intros c n y; subst c n y; intros HR Hpe Hpg Hv Hivt Hlo Hhi HF Hdf Hip Hsel. pose proof (osz_range (mcpu s)) as Hn.
  assert (Hm : real_or_v86 (mcpu s) = true) by (unfold real_or_v86; rewrite Hpe; reflexivity).
  destruct (space_pushed lo hi 3 s HR ltac:(lia) Hlo Hhi (or_introl Hm)) as (s0 & E0 & C0 & F0 & HP).
  destruct (push_step lo hi s0 _ _ s0 (c_getEFLAGS (mcpu s0)) HP) as (s1 & E1 & HP1); [rewrite C0; lia | rewrite C0; apply eflags_range, HF|].
  destruct (push_return lo hi s0 _ _ s1 HP1) as (s2 & w & E2 & HP2 & Hw); rewrite ?C0; try assumption; [lia|].
  rewrite C0 in *. replace (sp s - _ - _) with (sp s - 3 * Z.of_nat (osz (mcpu s))) in HP2 by lia.
  pose proof (pu_cpu _ _ _ _ _ _ HP2) as C2. rewrite C0 in C2.
  destruct (leave_frame lo hi s0 _ _ s2 (handler v s (mcpu s0)) HP2) as (W3 & I3 & F3).
  { repeat split. }
  { rewrite C0, handler_sp, <- C2. exact (w_reg _ _ _ (pu_window _ _ _ _ _ _ HP2)). }
  rewrite C0 in *. rewrite handler_sp, <- C2 in *. exists (put_cpu (handler v s (mcpu s2)) s2), w.
  split; [|split; [reflexivity|split; [exact W3|split; [exact I3|split; [exact Hw|]]]]].
  - unfold do_intrupt. replace (v =? 0xffff) with false by lia. rewrite getc_bind. cbn [the_cpu HasCpu_mach]. rewrite Hpe. cbn [Z.eqb].
    assert (Er : int_real v s = Ret tt (put_cpu (masked (goto (vector_cs s v) (vector_ip s v) (mcpu s2))) s2)).
    { unfold int_real. rewrite (bind_ret _ _ _ _ _ E0). rewrite (u32_small (v * 4)) by lia.
      pose proof (vector_read v 0 s s0 Hpg F0 ltac:(lia) ltac:(lia) Hivt) as R0. rewrite Z.add_0_r, (u32_small (v * 4)) in R0 by lia.
      rewrite (bind_ret _ _ _ _ _ R0), (bind_ret _ _ _ _ _ (vector_read v 2 s s0 Hpg F0 ltac:(lia) ltac:(lia) Hivt)), getc_bind.
      cbn [the_cpu HasCpu_mach]. unfold intrupt_flags. rewrite C0, Hdf. rewrite <- C0.
      assert (Ef : push_frame (c_getEFLAGS (mcpu s0)) false 0 s0 = Ret tt s2).
      { unfold push_frame. rewrite C0, (bind_ret _ _ _ _ _ E1). apply E2. }
      rewrite (bind_ret _ _ _ _ _ Ef), (goto_run _ _ s2) by (rewrite C2, real_sp; exact Hm). reflexivity. }
    rewrite (bind_ret _ _ _ _ _ Er). reflexivity.
  - exact (wrote_from s0 s _ _ _ lo hi (sr_window _ _ _ HR) C0 F0 Hlo Hhi F3).
Qed.

Lemma IRET_real_run lo hi c y s v w f :
  let n := Z.of_nat (osz c) in
  window lo hi s -> mcpu s = set_current_SP y c -> real_or_v86 c = true -> lo <= y -> y + 3 * n <= hi -> y + 3 * n < sp_top c ->
  ar_r (GET_SR SS_REG c) <> 0 -> holds (osz c) s y [v; w; f] ->
  exists s', IRET s = Ret tt s' /\ mcpu s' = set_current_FLAGS f (set_current_SP (y + 3 * n) (goto (u16 w) v c)) /\ lframed nothing s s'.
Proof.
  intros n; subst n; intros HW C Hm Hlo Hhi Ht Hr (Hv & Hw & Hf & _). destruct (w_bounds _ _ _ HW) as (B0 & _). pose proof (osz_range c) as Hn.
  assert (HM : moved lo hi c s y s) by (apply moved_refl; [exact HW | exact C | lia]).
  destruct (moved_exists lo hi 3 c s y s HM) as (s3 & E3 & M3); try lia; try assumption; [left; exact Hm|].
  destruct (moved_tpop lo hi 0 0 c s y s3 HW M3) as (s4 & E4 & M4); try lia.
  destruct (moved_tpop lo hi 1 0 c s y s4 HW M4) as (s5 & E5 & M5); try lia.
  destruct (moved_tpop lo hi 2 0 c s y s5 HW M5) as (s6 & E6 & M6); try lia.
  rewrite Z.mul_0_l, !Z.add_0_r, Hv in E4. rewrite Z.mul_1_l, Z.add_0_r, Hw in E5.
  replace (y + 2 * _ + 0) with (y + Z.of_nat (osz c) + Z.of_nat (osz c)) in E6 by lia. rewrite Hf in E6.
  pose proof (mv_cpu _ _ _ _ _ _ M6) as C6. assert (Hm6 : real_or_v86 (mcpu s6) = true) by (rewrite C6, real_sp; exact Hm).
  assert (Ef : iret_frame s = Ret (v, u16 w, f) s6).
  { unfold iret_frame. rewrite (bind_ret _ _ _ _ _ E3), (bind_ret _ _ _ _ _ E4), (bind_ret _ _ _ _ _ E5), (bind_ret _ _ _ _ _ E6). reflexivity. }
  unfold IRET. rewrite getc_bind. cbn [the_cpu HasCpu_mach]. rewrite C, real_sp, Hm, (bind_ret _ _ _ _ _ Ef), (goto_run _ _ _ Hm6).
  rewrite modc_bind. unfold modc, modify. cbn [the_cpu HasCpu_mach put_cpu mcpu].
  assert (Ec : change_SP 3 (goto (u16 w) v (mcpu s6)) = set_current_SP (y + 3 * Z.of_nat (osz c)) (goto (u16 w) v c)).
  { rewrite C6, <- goto_sp, change_SP_run; change (osz (goto (u16 w) v c)) with (osz c); change (sp_top (goto (u16 w) v c)) with (sp_top c); try lia.
    reflexivity. }
  eexists. split; [reflexivity|]. cbn. rewrite Ec. split; [reflexivity|].
  apply (lframed_then _ _ s6); [apply M6|]. apply lframed_same; cbn; auto; [|apply M6].
  assert (Ecr : forall x c0, cr (set_current_FLAGS x c0) = cr c0).
  { intros x c0. unfold set_current_FLAGS, c_setEFLAGS, setFLAGS. repeat match goal with |- context [if ?b then _ else _] => destruct b end; reflexivity. }
  rewrite Ecr, C6. destruct (sp_gr (y + 3 * Z.of_nat (osz c)) (goto (u16 w) v c)) as [g' ->], (sp_gr y c) as [g ->]. reflexivity.
Qed.

(** C8 - Interrupts and their return in real mode: an interrupt goes to the handler of its
    vector in the table at address 0 with IF and TF clear and no fault in progress, and
    IRET there brings back CS:EIP, the flags, the stack pointer and every other register,
    for both operand and stack sizes; memory changes only in the three items below the
    stack pointer. *)
Theorem interrupt_return lo hi s v p h e :
  let c := mcpu s in
  let y := sp s - 3 * Z.of_nat (osz c) in
  stack_ready lo hi s -> GET_PE c = 0 -> pg s = false -> CPL c = 0 -> real_cs c ->
  flags_ok (fl c) -> doing_fault (xs c) = false -> 0 <= v < 0xffff -> lrange s (v * 4) 4 -> lo <= y -> sp s <= hi ->
  0 <= ip c < 2 ^ (8 * Z.of_nat (osz c)) ->
  exists s1 s2, do_intrupt v p h e s = Ret tt s1
  /\ ip (mcpu s1) = vector_ip s v /\ selector (GET_SR CS_REG (mcpu s1)) = vector_cs s v
  /\ IF (fl (mcpu s1)) = 0 /\ TF (fl (mcpu s1)) = 0 /\ sp s1 = y
  /\ IRET s1 = Ret tt s2 /\ mcpu s2 = modify_xs intrupt_done c /\ wrote y (sp s) s s2.
Proof.
  intros c y; subst c y; intros HR Hpe Hpg Hcpl Hcs HF Hdf Hv Hivt Hlo Hhi Hip. pose proof (pow8_osz (mcpu s)). pose proof (osz_range (mcpu s)) as Hn.
  pose proof (sp_range _ (w_reg _ _ _ (sr_window _ _ _ HR))) as Hsp.
  destruct (int_real_run lo hi s v p h e HR Hpe Hpg Hv Hivt Hlo Hhi HF Hdf) as (s1 & w & E1 & C1 & W1 & I1 & Hw & F1); [lia | apply Hcs|].
  destruct (w_bounds _ _ _ (sr_window _ _ _ HR)) as (B0 & B1 & _). set (y := sp s - 3 * Z.of_nat (osz (mcpu s))) in *.
  set (c' := handler v s (mcpu s)) in *.
  destruct (IRET_real_run lo hi c' y s1 (low (mcpu s) (ip (mcpu s))) w (low (mcpu s) (c_getEFLAGS (mcpu s))) W1 C1) as (s2 & E2 & C2 & F2);
    change (osz c') with (osz (mcpu s)); change (sp_top c') with (sp_top (mcpu s)); try (unfold y; lia); try assumption;
    [unfold real_or_v86; change (GET_PE c') with (GET_PE (mcpu s)); rewrite Hpe; reflexivity | apply HR|].
  exists s1, s2. split; [exact E1|]. destruct (sp_gr y c') as [g Eg]. do 4 (split; [rewrite C1, Eg; reflexivity|]).
  split; [rewrite C1; apply sp_get; change (sp_top c') with (sp_top (mcpu s)); unfold y; lia|].
  split; [exact E2|]. split; [|exact (lframed_after _ _ _ _ F1 F2)].
  change (osz c') with (osz (mcpu s)) in C2. rewrite C2, Hw. unfold low at 2. rewrite Z.mod_small by exact Hip.
  replace (y + 3 * _) with (sp s) by (unfold y; lia).
  assert (Eg2 : goto (selector (GET_SR CS_REG (mcpu s))) (ip (mcpu s)) c' = modify_xs intrupt_done (masked (mcpu s))).
  { unfold c', handler. rewrite goto_masked, goto_back by exact Hcs. reflexivity. }
  rewrite Eg2, masked_sp, sp_set_get, current_FLAGS_done, current_FLAGS_back by assumption. reflexivity.
Qed.

End Frames.
(** ** Witnesses: a real mode machine with its stack at 0x8000 *)

#[local] Existing Instance demo_memory.
#[local] Existing Instance demo_laws.

Definition boot_cpu : cpu := SET_ip 0x1234 (SET_GR A_ESP 0x8000 (modify_cr (SET_CR_STAT 0) cpu0)).
Definition boot : mach (Mem.sas unit) := mkMach boot_cpu demo_sas tlb0 0 0 debug0.

Lemma boot_range a n : 0 <= a -> a + Z.of_nat n <= 0xf0000 -> lrange boot a n.
Proof.
  intros Ha Hn i Hi. unfold lready. change (pg boot) with false. cbv iota. split; [lia|]. apply demo_ram; lia.
Qed.

Lemma boot_ready : stack_ready 0x7f00 0x8000 boot.
Proof.
  split; [|vm_compute; discriminate..]. split.
  - intros Hp. discriminate Hp.
  - intros i Hi. reg_cases i; vm_compute; split; congruence.
  - left. reflexivity.
  - split; [lia|]. split; [vm_compute; discriminate | lia].
  - change (base (GET_SR SS_REG (mcpu boot))) with 0. lia.
  - split; [apply boot_range; vm_compute; discriminate|]. intros i Hi Hp. discriminate Hp.
Qed.

Lemma boot_cs : real_cs boot_cpu.
Proof. split; [vm_compute; split; congruence | reflexivity]. Qed.

Lemma far_call_return_witness :
  exists s1 s2, CALLF 0x10 0x2345 boot = Ret tt s1 /\ base (GET_SR CS_REG (mcpu s1)) = 0x23450
  /\ RETF 0 s1 = Ret tt s2 /\ mcpu s2 = boot_cpu.
Proof.
  destruct (far_call_return 0x7f00 0x8000 boot 0x10 0x2345 boot_ready eq_refl boot_cs) as (s1 & s2 & E1 & _ & _ & B1 & _ & E2 & C2 & _);
    [vm_compute; discriminate | vm_compute; discriminate | vm_compute; split; congruence|].
  exists s1, s2. split; [exact E1|]. split; [exact B1|]. split; [exact E2 | exact C2].
Defined.

Lemma interrupt_return_witness :
  exists s1 s2, do_intrupt 0x21 true false 0 boot = Ret tt s1 /\ IF (fl (mcpu s1)) = 0
  /\ IRET s1 = Ret tt s2 /\ mcpu s2 = boot_cpu.
Proof.
  destruct (interrupt_return 0x7f00 0x8000 boot 0x21 true false 0 boot_ready eq_refl eq_refl eq_refl boot_cs)
    as (s1 & s2 & E1 & _ & _ & I1 & _ & _ & E2 & C2 & _).
  - split; [repeat (constructor; [left; reflexivity|]); constructor | vm_compute; split; congruence].
  - reflexivity.
  - lia.
  - apply boot_range; lia.
  - vm_compute; discriminate.
  - vm_compute; discriminate.
  - vm_compute; split; congruence.
  - exists s1, s2. split; [exact E1|]. split; [exact I1|]. split; [exact E2 | exact C2].
Defined.

End Real.
