(* ===== verification/Task.v ===== *)
(** * Task state segments

    A task that is switched out and later resumed finds its registers again: the
    fields [save_task] writes to a 386 task state segment are those [load_task] reads. *)

From S2P Require Import Prelude Cpu Debug Arith Shift Xcptn MulDiv Flow Mem Tlb Page Basic Seg Virt Addr Stack Xfer Intr Real.

Module Task.
Import Debug Xcptn Tlb Page Basic Seg Virt Addr Stack Xfer Intr Real.

(** ** Rows of fields *)

Section Fields.
Context {P : Type} `{PhyMemLaws P}.

(** Fields of [n] bytes, [step] apart. *)
Fixpoint fields (n : nat) (step : Z) (s : mach P) (a : Z) (l : list Z) : Prop :=
  match l with
  | [] => True
  | x :: l => lvalue s a n = x /\ fields n step s (a + step) l
  end.

(** A row that lies in RAM, within a page's length and below the end of the space. *)
Definition row (s : mach P) (a step : Z) (len : nat) : Prop :=
  0 <= a /\ a + Z.of_nat len * step <= 2 ^ 32 /\ Z.of_nat len * step <= 2 ^ 12 /\ lrange s a (Z.to_nat (Z.of_nat len * step)).

Lemma row_next s a step len : 0 <= step -> row s a step (S len) -> row s (a + step) step len.
Proof.
  intros Hs (Ha & Hb & Hc & HR). split; [lia|]. split; [lia|]. split; [lia|].
  intros i Hi. replace (a + step + i) with (a + (step + i)) by lia. apply HR. lia.
Qed.

Lemma row_framed D s s' a step len : lframed D s s' -> row s a step len -> row s' a step len.
Proof. intros HF (Ha & Hb & Hc & HR). do 3 (split; [assumption|]). exact (lrange_framed _ _ _ _ _ HF HR). Qed.

Lemma row_field s a step len n : row s a step (S len) -> 0 <= step -> Z.of_nat n <= step -> lrange s a n.
Proof. intros (_ & _ & _ & HR) Hs Hn i Hi. apply HR. lia. Qed.

Lemma fields_nothing n step s s' l : 0 <= step -> Z.of_nat n <= step -> lframed nothing s s' ->
  forall a, row s a step (length l) -> fields n step s a l -> fields n step s' a l.
Proof.
  intros Hs Hn HF. induction l as [|x l IH]; intros a HR Hl; [exact I|]. destruct Hl as [Hx Hl]. split.
  - rewrite (lvalue_framed _ _ _ _ _ HF (row_field _ _ _ _ _ HR Hs Hn)); [exact Hx | intros ? ? []].
  - apply IH; [exact (row_next _ _ _ _ Hs HR) | exact Hl].
Qed.

(** A write to one side of a row. *)
Lemma fields_beside n step s s' b k l : 0 <= step -> Z.of_nat n <= step -> lframed (lbytes s b k) s s' -> lrange s b k ->
  forall a, row s a step (length l) ->
  (b + Z.of_nat k <= a /\ a + Z.of_nat (length l) * step - b <= 2 ^ 12
   \/ a + Z.of_nat (length l) * step <= b /\ b + Z.of_nat k - a <= 2 ^ 12) ->
  fields n step s a l -> fields n step s' a l.
Proof.
  intros Hs Hn HF HB. induction l as [|x l IH]; intros a HR Hd Hl; [exact I|]. destruct Hl as [Hx Hl]. cbn [length] in *. split.
  - rewrite (lvalue_beside s s' b k a n HF HB (row_field _ _ _ _ _ HR Hs Hn)); [exact Hx | nia].
  - apply IH; [exact (row_next _ _ _ _ Hs HR) | nia | exact Hl].
Qed.

Lemma save_all_run n write step : (0 < n)%nat -> Z.of_nat n <= step -> lwrite n write ->
  forall l a s, lwf s -> row s a step (length l) -> Forall (fun x => 0 <= x < 2 ^ (8 * Z.of_nat n)) l ->
  exists s', save_all write step a l s = Ret tt s' /\ mcpu s' = mcpu s /\ fields n step s' a l
  /\ lframed (lbytes s a (Z.to_nat (Z.of_nat (length l) * step))) s s'.
Proof.
  intros Hn Hs Hw. induction l as [|x l IH]; intros a s Hwf HR HX.
  { exists s. split; [reflexivity|]. split; [reflexivity|]. split; [exact I|]. apply (lframed_weaken nothing); [apply lframed_refl, Hwf | intros ? []]. }
  inversion_clear HX as [|? ? Hx Hl]. cbn [save_all length] in *. pose proof (row_field _ _ _ _ n HR ltac:(lia) Hs) as HR0.
  destruct (Hw s a x Hwf HR0 Hx) as (s1 & E1 & C1 & V1 & F1). rewrite (bind_ret _ _ _ _ _ E1).
  assert (HN : row s (a + step) step (length l)) by (apply row_next; [lia | exact HR]).
  assert (Ea : l = [] \/ u32 (a + step) = a + step).
  { destruct l; [auto|]. right. apply u32_small. destruct HN as (Q1 & Q2 & _). cbn [length] in Q2. nia. }
  assert (Es : save_all write step (u32 (a + step)) l s1 = save_all write step (a + step) l s1).
  { destruct Ea as [-> | ->]; reflexivity. }
  rewrite Es. destruct (IH (a + step) s1 (lf_wf _ _ _ F1) (row_framed _ _ _ _ _ _ F1 HN) Hl) as (s2 & E2 & C2 & V2 & F2).
  exists s2. split; [exact E2|]. split; [congruence|].
  assert (HRl : lrange s (a + step) (Z.to_nat (Z.of_nat (length l) * step))) by apply HN.
  split; [split; [|exact V2]|].
  - rewrite (lvalue_beside s1 s2 _ _ a n F2 (lrange_framed _ _ _ _ _ F1 HRl) (lrange_framed _ _ _ _ _ F1 HR0)); [exact V1|].
    left. destruct HR as (_ & _ & HR & _). lia.
  - apply (lframed_trans _ _ _ _ _ _ F1 F2). intros b [(i & Hi & ->) | Hb].
    + exists i. split; [nia | reflexivity].
    + apply (lbytes_framed _ _ _ _ _ _ F1 HRl) in Hb. destruct Hb as (i & Hi & ->). exists (step + i). split; [nia | f_equal; lia].
Qed.

(** The registers after a row has been loaded. *)
Fixpoint loaded (sets : list (Z -> cpu -> cpu)) (vals : list Z) (c : cpu) : cpu :=
  match sets, vals with
  | set :: sets, v :: vals => loaded sets vals (set v c)
  | _, _ => c
  end.

Lemma load_all_run n read step : (0 < n)%nat -> Z.of_nat n <= step -> lread n read ->
  forall sets vals a s, lwf s -> length vals = length sets -> row s a step (length vals) -> fields n step s a vals ->
  Forall (fun set => forall v c, cr (set v c) = cr c) sets ->
  exists s', load_all read step a sets s = Ret tt s' /\ mcpu s' = loaded sets vals (mcpu s) /\ lframed nothing s s'.
Proof.
  intros Hn Hs Hr. induction sets as [|set sets IH]; intros vals a s Hwf Hlen HR HV HC.
  { destruct vals; [|discriminate]. exists s. auto using lframed_refl. }
  destruct vals as [|x vals]; [discriminate|]. destruct HV as [Hx HV]. inversion_clear HC as [|? ? Hc HC']. cbn [load_all length loaded] in *.
  pose proof (row_field _ _ _ _ n HR ltac:(lia) Hs) as HR0.
  destruct (Hr s a Hwf HR0) as (s1 & E1 & C1 & F1). rewrite (bind_ret _ _ _ _ _ E1), Hx, modc_bind. cbn [the_cpu HasCpu_mach].
  set (s2 := put_cpu (set x (mcpu s1)) s1).
  assert (F2 : lframed nothing s s2) by (apply (lframed_then _ _ s1); [exact F1 | apply lframed_cpu; [apply Hc | apply F1]]).
  assert (HN : row s (a + step) step (length vals)) by (apply row_next; [lia | exact HR]).
  assert (Ea : load_all read step (u32 (a + step)) sets s2 = load_all read step (a + step) sets s2).
  { destruct sets, vals; try discriminate; [reflexivity|]. rewrite u32_small; [reflexivity|].
    destruct HN as (Q1 & Q2 & _). cbn [length] in Q2. nia. }
  rewrite Ea. destruct (IH vals (a + step) s2 (lf_wf _ _ _ F2)) as (s3 & E3 & C3 & F3); [lia | exact (row_framed _ _ _ _ _ _ F2 HN) | | exact HC'|].
  - apply (fields_nothing n step s s2); [lia | lia | exact F2 | exact HN | exact HV].
  - exists s3. split; [exact E3|]. split; [|exact (lframed_then _ _ _ _ F2 F3)]. rewrite C3. cbn. rewrite C1. reflexivity.
Qed.

End Fields.
(** ** Flags at the highest privilege *)

Definition new_eflags (v cpl : Z) (f : FLAGS) : FLAGS :=
  let f := SET_RF (nz (v .& BIT_MASK 16)) (new_flags v cpl f) in
  if cpl =? 0 then SET_VM (nz (v .& BIT_MASK 17)) f else f.

Lemma setEFLAGS_new v c : c_setEFLAGS v c = SET_fl (new_eflags v (CPL c) (fl c)) c.
Proof.
  unfold c_setEFLAGS, new_eflags. rewrite setFLAGS_new. generalize (new_flags v (CPL c) (fl c)) as f. intros f.
  change (CPL (modify_fl _ (SET_fl f c))) with (CPL c). destruct (CPL c =? 0); reflexivity.
Qed.

Lemma eflags_at_0 v c : flags_at_0 (c_setEFLAGS v) c = SET_fl (new_eflags v 0 (fl c)) c.
Proof.
  unfold flags_at_0. rewrite setEFLAGS_new. change (CPL (SET_CPL 0 c)) with 0. change (fl (SET_CPL 0 c)) with (fl c).
  generalize (new_eflags v 0 (fl c)) as f. intros f. destruct c. reflexivity.
Qed.

(** Every flag of a task comes back, whatever flags the processor had. *)
Lemma eflags_resumed c f : flags_ok (fl c) -> 0 <= IOPL f -> new_eflags (c_getEFLAGS c) 0 f = fl c.
Proof.
  intros HF HI. pose proof HF as [HB Hio]. unfold new_eflags, new_flags. cbn [Z.eqb]. rewrite !nz_flag by lia.
  rewrite (iopl_of_bits _ (IOPL (fl c)) Hio) by (apply (eflags_bit c 12 HF); lia) || (apply (eflags_bit c 13 HF); lia).
  rewrite !eflags_bit by (assumption || lia). cbn [flag_at]. destruct (Z.leb_spec 0 (IOPL f)); [|lia].
  repeat match goal with HB : Forall _ (_ :: _) |- _ => inversion_clear HB end.
  rewrite !flag_of_bit by assumption. destruct (fl c). reflexivity.
Qed.

(** ** A task switched out and resumed *)

(** The registers of a task are in range. *)
Record task_regs (c : cpu) : Prop := {
  tk_gr : reg32 c;
  tk_ip : 0 <= ip c < 2 ^ 32;
  tk_fl : flags_ok (fl c);
  tk_pdbr : 0 <= CR_PDBR (cr c) < 2 ^ 32;
  tk_sel : forall i, 0 <= selector (GET_SR i c) < 2 ^ 16
}.

(** The rows of a task state segment. *)
Definition dword_row (c : cpu) : list Z :=
  [CR_PDBR (cr c); ip c; c_getEFLAGS c] ++ map (fun i => GET_GR i c) [0; 1; 2; 3; 4; 5; 6; 7].
Definition word_row (c : cpu) : list Z := selectors [ES_REG; CS_REG; SS_REG; DS_REG; FS_REG; GS_REG] c.

Lemma dword_row_ok c : task_regs c -> Forall (fun x => 0 <= x < 2 ^ (8 * Z.of_nat 4)) (dword_row c).
Proof.
  intros [HG HI HF HP _]. change (8 * Z.of_nat 4) with 32. unfold dword_row. apply Forall_app. split.
  - repeat (constructor; [assumption || apply eflags_range, HF|]). constructor.
  - apply Forall_map. repeat (constructor; [apply HG; lia|]). constructor.
Qed.

Lemma word_row_ok c : task_regs c -> Forall (fun x => 0 <= x < 2 ^ (8 * Z.of_nat 2)) (word_row c).
Proof. intros [_ _ _ _ HS]. change (8 * Z.of_nat 2) with 16. repeat (constructor; [apply HS|]). constructor. Qed.

Section Switch.
Context {P : Type} `{PhyMemLaws P}.

(** The segment in memory. *)
Definition tss_ok (s : mach P) (base : Z) : Prop := 0 <= base /\ base + 0x68 <= 2 ^ 32 /\ lrange s base 0x68.

Lemma tss_row s base off len : tss_ok s base -> 0 <= off -> off + Z.of_nat len * 4 <= 0x68 -> row s (base + off) 4 len.
Proof.
  intros (H1 & H2 & HR) Ho Hl. split; [lia|]. split; [lia|]. split; [lia|].
  intros i Hi. replace (base + off + i) with (base + (off + i)) by lia. apply HR. lia.
Qed.

Lemma tss_framed D s s' base : lframed D s s' -> tss_ok s base -> tss_ok s' base.
Proof. intros HF (H1 & H2 & HR). split; [exact H1|]. split; [exact H2 | exact (lrange_framed _ _ _ _ _ HF HR)]. Qed.

(** What a saved task leaves in its segment. *)
Definition saved (c : cpu) (base : Z) (s : mach P) : Prop :=
  fields 4 4 s (base + 0x1c) (dword_row c) /\ fields 2 4 s (base + 0x48) (word_row c).

Lemma save_task_run sel (s : mach P) :
  let c := mcpu s in let base := sar_base (tr c) in
  lwf s -> sar_super (tr c) = XTND_BUSY_TSS -> 0x67 <= sar_limit (tr c) -> tss_ok s base -> task_regs c ->
  exists s1, save_task false sel (ip c) s = Ret tt s1 /\ mcpu s1 = c /\ saved c base s1 /\ lframed (lbytes s base 0x68) s s1.
Proof.
  intros c base; subst c base; intros Hwf Hsup Hlim HT HC. set (c := mcpu s) in *. set (base := sar_base (tr c)) in *.
  pose proof HT as (B0 & B1 & HR).
  destruct (save_all_run 4 spr_write_dword 4 ltac:(lia) ltac:(lia) spr_write_dword_l (dword_row c) (base + 0x1c) s Hwf) as (s1 & E1 & C1 & V1 & F1);
    [apply tss_row; [exact HT | lia | vm_compute; discriminate] | apply dword_row_ok, HC|].
  destruct (save_all_run 2 spr_write_word 4 ltac:(lia) ltac:(lia) spr_write_word_l (word_row c) (base + 0x48) s1 (lf_wf _ _ _ F1)) as (s2 & E2 & C2 & V2 & F2);
    [apply tss_row; [exact (tss_framed _ _ _ _ F1 HT) | lia | vm_compute; discriminate] | apply word_row_ok, HC|].
  exists s2. split; [|split; [rewrite C2; exact C1|split; [split; [|exact V2]|]]].
  - unfold save_task. rewrite getc_bind. cbn [the_cpu HasCpu_mach]. fold c. rewrite Hsup. cbn [Z.eqb Pos.eqb XTND_BUSY_TSS].
    replace (sar_limit (tr c) <? 0x67) with false by lia. unfold when, bind at 1, ret at 1. fold base.
    change CR3_OFFSET_IN_386_TSS with 0x1c. rewrite !u32_small by lia. rewrite (bind_ret _ _ _ _ _ E1). exact E2.
  - apply (fields_beside 4 4 s1 s2 (base + 0x48) 24); try lia; [exact F2 | | | | exact V1].
    + exact (proj2 (proj2 (proj2 (tss_row s1 base 0x48 6 (tss_framed _ _ _ _ F1 HT) ltac:(lia) ltac:(lia))))).
    + apply tss_row; [exact (tss_framed _ _ _ _ F1 HT) | lia | vm_compute; discriminate].
    + right. change (Z.of_nat (length (dword_row c))) with 11. lia.
  - apply (lframed_trans _ _ _ _ _ _ F1 F2). intros b [(i & Hi & ->) | Hb].
    + change (Z.of_nat (Z.to_nat (Z.of_nat (length (dword_row c)) * 4))) with 44 in Hi. exists (0x1c + i). split; [lia | f_equal; lia].
    + apply (lbytes_framed _ _ _ _ _ _ F1) in Hb.
      * destruct Hb as (i & Hi & ->). change (Z.of_nat (Z.to_nat (Z.of_nat (length (word_row c)) * 4))) with 24 in Hi.
        exists (0x48 + i). split; [lia | f_equal; lia].
      * exact (proj2 (proj2 (proj2 (tss_row s base 0x48 6 HT ltac:(lia) ltac:(lia))))).
Qed.

(** The registers [load_task] sets, in its order. *)
Definition dword_sets : list (Z -> cpu -> cpu) :=
  [SET_ip; fun flags => flags_at_0 (c_setEFLAGS flags)] ++ map SET_GR [0; 1; 2; 3; 4; 5; 6; 7].
Definition word_sets : list (Z -> cpu -> cpu) :=
  map SET_SELECTOR [ES_REG; CS_REG; SS_REG; DS_REG; FS_REG; GS_REG] ++ [fun sel => modify_ldtr (SET_sar_selector sel)].

Lemma dword_sets_cr : Forall (fun set => forall v c, cr (set v c) = cr c) dword_sets.
Proof.
  constructor; [reflexivity|]. constructor; [intros v c; rewrite eflags_at_0; reflexivity|]. repeat (constructor; [reflexivity|]). constructor.
Qed.

Lemma word_sets_cr : Forall (fun set => forall v c, cr (set v c) = cr c) word_sets.
Proof. repeat (constructor; [reflexivity|]). constructor. Qed.

Lemma load_task_run sel c (s : mach P) :
  let base := sar_base (tr (mcpu s)) in
  lwf s -> sar_super (tr (mcpu s)) = XTND_BUSY_TSS -> 0x67 <= sar_limit (tr (mcpu s)) -> tss_ok s base ->
  saved c base s -> CR_PDBR (cr (mcpu s)) = CR_PDBR (cr c) ->
  exists s', load_task sel s = Ret (lvalue s (base + 0x64) 1) s'
  /\ mcpu s' = loaded word_sets (word_row c ++ [lvalue s (base + 0x60) 2]) (loaded dword_sets (tl (dword_row c)) (mcpu s))
  /\ lframed nothing s s'.
Proof.
  intros base; subst base; intros Hwf Hsup Hlim HT [V1 V2] Hcr. set (base := sar_base (tr (mcpu s))) in *. pose proof HT as (B0 & B1 & HR).
  destruct V1 as [Vp V1]. replace (base + 0x1c + 4) with (base + 0x20) in V1 by lia.
  assert (Rp : row s (base + 0x1c) 4 1) by (apply tss_row; [exact HT | lia | lia]).
  destruct (spr_read_dword_l s (base + 0x1c) Hwf) as (s1 & E1 & C1 & F1); [apply Rp|]. rewrite Vp in E1.
  destruct (load_all_run 4 spr_read_dword 4 ltac:(lia) ltac:(lia) spr_read_dword_l dword_sets (tl (dword_row c)) (base + 0x20) s1) as (s2 & E2 & C2 & F2);
    [apply F1 | reflexivity | | | apply dword_sets_cr|].
  { apply tss_row; [exact (tss_framed _ _ _ _ F1 HT) | lia | vm_compute; discriminate]. }
  { apply (fields_nothing 4 4 s s1); [lia | lia | exact F1 | | exact V1]. apply tss_row; [exact HT | lia | vm_compute; discriminate]. }
  assert (F02 : lframed nothing s s2) by exact (lframed_then _ _ _ _ F1 F2).
  destruct (load_all_run 2 spr_read_word 4 ltac:(lia) ltac:(lia) spr_read_word_l word_sets (word_row c ++ [lvalue s (base + 0x60) 2]) (base + 0x48) s2)
    as (s3 & E3 & C3 & F3); [apply F02 | reflexivity | | | apply word_sets_cr|].
  { apply tss_row; [exact (tss_framed _ _ _ _ F02 HT) | lia | vm_compute; discriminate]. }
  { apply (fields_nothing 2 4 s s2); [lia | lia | exact F02 | |].
    - apply tss_row; [exact HT | lia | vm_compute; discriminate].
    - destruct V2 as (X1 & X2 & X3 & X4 & X5 & X6 & _). do 6 (split; [assumption|]). split; [|exact I]. f_equal. lia. }
  assert (F03 : lframed nothing s s3) by exact (lframed_then _ _ _ _ F02 F3).
  assert (RT : lrange s (base + 0x64) 1) by (intros i Hi; replace (base + 0x64 + i) with (base + (0x64 + i)) by lia; apply HR; lia).
  destruct (spr_read_byte_l s3 (base + 0x64) (lf_wf _ _ _ F03) (lrange_framed _ _ _ _ _ F03 RT)) as (s4 & E4 & C4 & F4).
  rewrite (lvalue_framed _ _ _ _ _ F03 RT) in E4 by (intros ? ? []).
  exists s4. split; [|split; [rewrite C4, C3, C2, C1; reflexivity | exact (lframed_then _ _ _ _ F03 F4)]].
  unfold load_task. rewrite getc_bind. cbn [the_cpu HasCpu_mach]. fold base. rewrite Hsup. cbn [Z.eqb Pos.eqb XTND_BUSY_TSS].
  replace (sar_limit (tr (mcpu s)) <? 0x67) with false by lia. unfold when at 1. unfold bind at 1, ret at 1.
  change CR3_OFFSET_IN_386_TSS with 0x1c. change IP_OFFSET_IN_386_TSS with 0x20. rewrite !u32_small by lia.
  rewrite (bind_ret _ _ _ _ _ E1), getc_bind. cbn [the_cpu HasCpu_mach]. rewrite C1, Hcr, Z.eqb_refl. cbn [negb]. unfold when, bind at 1, ret at 1.
  rewrite (bind_ret _ _ _ _ _ E2), (bind_ret _ _ _ _ _ E3). exact E4.
Qed.


End Switch.

(** ** Witness: a task state segment at 0x3000, resumed with the general registers cleared *)

#[local] Existing Instance demo_memory.
#[local] Existing Instance demo_laws.

Definition task_cpu : cpu := SET_GR A_EAX 0x12345678 (SET_tr (mkSAR 0x28 XTND_BUSY_TSS 0x3000 0x67) boot_cpu).
Definition task : mach (Mem.sas unit) := put_cpu task_cpu boot.
Definition other_cpu : cpu := SET_tr (mkSAR 0x28 XTND_BUSY_TSS 0x3000 0x67) boot_cpu.


End Task.
