(* ===== verification/System.v ===== *)
(** * System instructions

    The instructions on the system registers and the selectors: [lgdt.c], [lidt.c],
    [sgdt.c], [sidt.c], [lldt.c], [sldt.c], [ltr.c], [str.c], [lmsw.c], [smsw.c],
    [clts.c], [lar.c], [lsl.c], [verr.c], [verw.c], [arpl.c], [lxs.c], [lea.c],
    [xlat.c], [cli.c], [sti.c], and the entry of [c_xtrn.c] through which code outside
    the CPU runs one of its routines.  A destination operand is a result. *)

From S2P Require Import Prelude Cpu Debug Arith Shift Xcptn MulDiv Mem Tlb Page Basic Seg Virt Stack Xfer Wp.

Module System.
Import Xcptn Tlb Page Basic Seg Stack Xfer Wp.

Section Instructions.
Context {P : Type} `{PhyMem P}.

Abbreviation X := (M exn (mach P)).

(** ** Table registers: the operand is the limit and the base *)

Definition LGDT16 (op1 : Z * Z) (c : cpu) : cpu :=
  let c := SET_gdtr (SET_star_limit (u16 (fst op1)) (gdtr c)) c in
  SET_gdtr (SET_star_base (snd op1 .& 0xffffff) (gdtr c)) c.
Definition LGDT32 (op1 : Z * Z) (c : cpu) : cpu :=
  let c := SET_gdtr (SET_star_limit (u16 (fst op1)) (gdtr c)) c in
  SET_gdtr (SET_star_base (snd op1) (gdtr c)) c.
Definition LIDT16 (op1 : Z * Z) (c : cpu) : cpu :=
  let c := SET_idtr (SET_star_limit (u16 (fst op1)) (idtr c)) c in
  SET_idtr (SET_star_base (snd op1 .& 0xffffff) (idtr c)) c.
Definition LIDT32 (op1 : Z * Z) (c : cpu) : cpu :=
  let c := SET_idtr (SET_star_limit (u16 (fst op1)) (idtr c)) c in
  SET_idtr (SET_star_base (snd op1) (idtr c)) c.

Definition SGDT16 (c : cpu) : Z * Z := (star_limit (gdtr c), star_base (gdtr c)).
Definition SGDT32 (c : cpu) : Z * Z := (star_limit (gdtr c), star_base (gdtr c)).
Definition SIDT16 (c : cpu) : Z * Z := (star_limit (idtr c), star_base (idtr c)).
Definition SIDT32 (c : cpu) : Z * Z := (star_limit (idtr c), star_base (idtr c)).

(** ** The local table and the task register *)

Definition LLDT (op1 : Z) : X unit :=
  let selector := u16 op1 in
  if selector_is_null selector then
    modc (modify_ldtr (SET_sar_selector selector)) ;;
    modc (modify_ldtr (SET_sar_base 0)) ;;
    modc (modify_ldtr (SET_sar_limit 0))
  else
    r <- getc (selector_outside_GDT selector) ;;
    match r with
    | None => GP selector
    | Some descr_addr =>
        entry <- read_descriptor_linear descr_addr ;;
        when (negb (descriptor_super_type (d_AR entry) =? LDT_SEGMENT)) (GP selector) ;;
        when (GET_AR_P (d_AR entry) =? NOT_PRESENT) (NP selector) ;;
        modc (modify_ldtr (SET_sar_selector selector)) ;;
        modc (modify_ldtr (SET_sar_base (d_base entry))) ;;
        modc (modify_ldtr (SET_sar_limit (d_limit entry)))
    end.

Definition SLDT (c : cpu) : Z := sar_selector (ldtr c).
Definition STR (c : cpu) : Z := sar_selector (tr c).

Definition LTR (op1 : Z) : X unit :=
  let selector := u16 op1 in
  let! (descr_addr, super) := validate_TSS selector false ;;
  entry <- read_descriptor_linear descr_addr ;;
  let AR := u16 (d_AR entry .| BIT_MASK 1) in
  spr_write_byte (u32 (descr_addr + 5)) (u8 AR) ;;
  modc (modify_tr (SET_sar_selector selector)) ;;
  modc (modify_tr (SET_sar_base (d_base entry))) ;;
  modc (modify_tr (SET_sar_limit (d_limit entry))) ;;
  modc (modify_tr (SET_sar_super (super .| BIT_MASK 1))).

(** ** The machine status word *)

Definition LMSW (op1 : Z) (c : cpu) : cpu :=
  let no_clear := 0xfffffff1 in
  let no_set := 0xfffffff0 in
  let op1 := op1 .& not32 no_set in
  let temp := CR_STAT (cr c) .& no_clear in
  modify_cr (SET_CR_STAT (temp .| op1)) c.
Definition SMSW (c : cpu) : Z := CR_STAT (cr c) .& WORD_MASK.
Definition CLTS (c : cpu) : cpu := modify_cr (fun r => SET_CR_STAT (CR_STAT r .& not32 (BIT_MASK 3)) r) c.

(** ** Questions about a selector *)

(** The classes of the switches on the type of a descriptor. *)
Inductive reach := Never | Always | ByPrivilege.

Definition data_super (super : Z) : bool :=
  (super =? EXPANDUP_READONLY_DATA) || (super =? EXPANDUP_WRITEABLE_DATA)
  || (super =? EXPANDDOWN_READONLY_DATA) || (super =? EXPANDDOWN_WRITEABLE_DATA).
Definition gate_super (super : Z) : bool :=
  (super =? CALL_GATE) || (super =? TASK_GATE) || (super =? INTERRUPT_GATE) || (super =? TRAP_GATE)
  || (super =? XTND_CALL_GATE) || (super =? XTND_INTERRUPT_GATE) || (super =? XTND_TRAP_GATE).
Definition system_super (super : Z) : bool :=
  (super =? AVAILABLE_TSS) || (super =? LDT_SEGMENT) || (super =? BUSY_TSS)
  || (super =? XTND_AVAILABLE_TSS) || (super =? XTND_BUSY_TSS).

Definition lar_reach (super : Z) : reach :=
  if code_conforming super then Always
  else if gate_super super || system_super super || data_super super || code_nonconforming super then ByPrivilege
  else Never.
Definition lsl_reach (super : Z) : reach :=
  if code_conforming super then Always
  else if system_super super || data_super super || code_nonconforming super then ByPrivilege
  else Never.
Definition verr_reach (super : Z) : reach :=
  if super =? CONFORM_READABLE_CODE then Always
  else if data_super super || (super =? NONCONFORM_READABLE_CODE) then ByPrivilege
  else Never.
Definition verw_reach (super : Z) : reach :=
  if (super =? EXPANDUP_WRITEABLE_DATA) || (super =? EXPANDDOWN_WRITEABLE_DATA) then ByPrivilege else Never.

(** DPL >= CPL and DPL >= RPL, where that is asked. *)
Definition reachable (k : reach) (AR sel : Z) (c : cpu) : bool :=
  match k with
  | Never => false
  | Always => true
  | ByPrivilege => (CPL c <=? GET_AR_DPL AR) && (GET_SELECTOR_RPL sel <=? GET_AR_DPL AR)
  end.

(** LAR and LSL: the new value of the destination, if it changes. *)
Definition load_if (kind : Z -> reach) (result : CPU_DESCR -> Z) (op2 : Z) : X (option Z) :=
  r <- getc (selector_outside_GDT_LDT (u16 op2)) ;;
  match r with
  | None => modc (modify_fl (SET_ZF 0)) ;; ret None
  | Some descr_addr =>
      entry <- read_descriptor_linear descr_addr ;;
      loadable <- getc (reachable (kind (descriptor_super_type (d_AR entry))) (d_AR entry) op2) ;;
      if loadable then modc (modify_fl (SET_ZF 1)) ;; ret (Some (result entry))
      else modc (modify_fl (SET_ZF 0)) ;; ret None
  end.

Definition LAR : Z -> X (option Z) := load_if lar_reach (fun entry => u32 (d_AR entry .<< 8)).
Definition LSL : Z -> X (option Z) := load_if lsl_reach d_limit.

(** VERR and VERW. *)
Definition verify (kind : Z -> reach) (op1 : Z) : X unit :=
  r <- getc (selector_outside_GDT_LDT (u16 op1)) ;;
  match r with
  | None => modc (modify_fl (SET_ZF 0))
  | Some descr =>
      AR <- spr_read_byte (u32 (descr + 5)) ;;
      ok <- getc (reachable (kind (descriptor_super_type AR)) AR op1) ;;
      modc (modify_fl (SET_ZF (Z.b2z ok)))
  end.

Definition VERR : Z -> X unit := verify verr_reach.
Definition VERW : Z -> X unit := verify verw_reach.

Definition ARPL (op1 op2 : Z) : X Z :=
  let rpl := GET_SELECTOR_RPL op2 in
  if GET_SELECTOR_RPL op1 <? rpl then
    modc (modify_fl (SET_ZF 1)) ;; ret ((op1 .& not32 0x3) .| rpl)
  else modc (modify_fl (SET_ZF 0)) ;; ret op1.

(** ** Pointers, addresses, the interrupt flag *)

Definition load_pointer (seg : Z) (op2 : Z * Z) : X Z := MOV_SR seg (snd op2) ;; ret (fst op2).
Definition LDS : Z * Z -> X Z := load_pointer DS_REG.
Definition LES : Z * Z -> X Z := load_pointer ES_REG.
Definition LFS : Z * Z -> X Z := load_pointer FS_REG.
Definition LGS : Z * Z -> X Z := load_pointer GS_REG.
Definition LSS : Z * Z -> X Z := load_pointer SS_REG.

Definition LEA (op2 : Z) : Z := op2.
Definition XLAT (op1 : Z) (c : cpu) : cpu := SET_BR A_AL op1 c.
Definition CLI (c : cpu) : cpu := modify_fl (SET_IF 0) c.
Definition STI (c : cpu) : cpu := modify_fl (SET_IF 1) c.

(** ** The external interface *)

(** Run a routine of the CPU and give the exception it met, 0 for none. *)
Definition call_cpu_function (func : X unit) : X Z := fun s =>
  let s1 := put_cpu (modify_xs (SET_interface_active true) (mcpu s)) s in
  match func s1 with
  | Ret _ s2 => Ret 0 (put_cpu (modify_xs (fun x => SET_interface_active false (SET_interface_error 0 x)) (mcpu s2)) s2)
  | Raise InterfaceAbort s2 =>
      Ret (interface_error (xs (mcpu s2))) (put_cpu (modify_xs (SET_interface_active false) (mcpu s2)) s2)
  | Raise e s2 => Raise e s2
  | Undefined => Undefined
  end.

Definition Cpu_find_dcache_entry (seg : Z) (c : cpu) : option Z :=
  if selector (GET_SR CS_REG c) =? seg then Some (base (GET_SR CS_REG c)) else None.

End Instructions.

(** ** Theorems *)

Lemma super_u8 ar : descriptor_super_type (u8 ar) = descriptor_super_type ar.
Proof.
  unfold descriptor_super_type, GET_AR_SUPER. change 0x1f with (2 ^ 5 - 1).
  rewrite !land_mask by lia. unfold u8. rewrite mod_mod_le by lia. reflexivity.
Qed.

Lemma dpl_u8 ar : GET_AR_DPL (u8 ar) = GET_AR_DPL ar.
Proof.
  unfold GET_AR_DPL. f_equal. change 0x60 with ((2 ^ 8 - 1) .& 0x60). rewrite !Z.land_assoc, !land_mask by lia.
  unfold u8. rewrite Z.mod_mod by lia. reflexivity.
Qed.

(** What VERR asks of the access bits. *)
Lemma verr_bits ar sel c :
  reachable (verr_reach (descriptor_super_type ar)) ar sel c
  = readable ar && (conforming ar || (Z.max (CPL c) (GET_SELECTOR_RPL sel) <=? GET_AR_DPL ar)).
Proof.
  destruct (super_bits ar) as (B1 & B2 & B3). unfold verr_reach, data_super. rewrite B2.
  assert (Em : (CPL c <=? GET_AR_DPL ar) && (GET_SELECTOR_RPL sel <=? GET_AR_DPL ar)
               = (Z.max (CPL c) (GET_SELECTOR_RPL sel) <=? GET_AR_DPL ar)).
  { destruct (Z.leb_spec (CPL c) (GET_AR_DPL ar)), (Z.leb_spec (GET_SELECTOR_RPL sel) (GET_AR_DPL ar)),
      (Z.leb_spec (Z.max (CPL c) (GET_SELECTOR_RPL sel)) (GET_AR_DPL ar)); lia || reflexivity. }
  rewrite B3 in *. unfold readable, conforming in *.
  destruct (Z.testbit ar 4), (Z.testbit ar 3), (Z.testbit ar 2), (Z.testbit ar 1),
    (descriptor_super_type ar =? NONCONFORM_READABLE_CODE); cbn in *; try discriminate; rewrite ?Em; reflexivity.
Qed.

Lemma verr_run {P} `{PhyMemLaws P} sel (s : mach P) a :
  wf s -> GET_PG (mcpu s) = 1 -> selector_outside_GDT_LDT (u16 sel) (mcpu s) = Some a -> resident_range s a 8 ->
  let ar := d_AR (descriptor_at s a) in
  let ok := readable ar && (conforming ar || (Z.max (CPL (mcpu s)) (GET_SELECTOR_RPL sel) <=? GET_AR_DPL ar)) in
  exists s1, VERR sel s = Ret tt (put_cpu (modify_fl (SET_ZF (Z.b2z ok)) (mcpu s)) s1) /\ framed nothing s s1.
Proof.
  intros Hwf Hpg Hsel HR ar ok. unfold VERR, verify. rewrite getc_bind. cbn [the_cpu HasCpu_mach]. rewrite Hsel.
  pose proof (range_sub s a 8 1 5 HR ltac:(lia) ltac:(lia)) as R5.
  rewrite u32_small by apply (range_first _ _ _ R5 ltac:(lia)).
  destruct (spr_read_byte_ok s (a + 5) Hwf Hpg R5) as (s1 & E1 & F1). rewrite (bind_ret _ _ _ _ _ E1).
  rewrite getc_bind. cbn [the_cpu HasCpu_mach]. exists s1. split; [|exact F1].
  rewrite <- (access_byte s a HR). unfold modc, modify. cbn [the_cpu HasCpu_mach]. rewrite (f_cpu _ _ _ F1).
  fold ar. rewrite super_u8. unfold ok. rewrite <- verr_bits.
  unfold reachable. rewrite dpl_u8. reflexivity.
Qed.


#[local] Existing Instance demo_memory.
#[local] Existing Instance demo_laws.


End System.
