(* ===== verification/Regs.v ===== *)
(** * The CPU as other code sees it

    [c_reg.c]: the routines through which the BIOS, the devices, the debugger and the
    snapshot code read and write the registers, segment registers with their hidden
    parts included, and the copy of the registers a snapshot of the machine holds.
    Loads of a selector go through [call_cpu_function] and give the exception the load
    met; the rest cannot fail but for the moves to control registers. *)

From S2P Require Import Prelude Cpu Debug Arith Shift Xcptn MulDiv Mem Tlb Page Basic Seg Virt Stack Xfer Wp System.

Module Regs.
Import Xcptn Tlb Page Basic Seg Stack Xfer Wp System.

(** ** General registers *)

Definition c_getAL (c : cpu) : Z := GET_BR 0 c.
Definition c_getCL (c : cpu) : Z := GET_BR 1 c.
Definition c_getDL (c : cpu) : Z := GET_BR 2 c.
Definition c_getBL (c : cpu) : Z := GET_BR 3 c.
Definition c_getAH (c : cpu) : Z := GET_BR 4 c.
Definition c_getCH (c : cpu) : Z := GET_BR 5 c.
Definition c_getDH (c : cpu) : Z := GET_BR 6 c.
Definition c_getBH (c : cpu) : Z := GET_BR 7 c.
Definition c_setAL (val : Z) (c : cpu) : cpu := SET_BR 0 val c.
Definition c_setCL (val : Z) (c : cpu) : cpu := SET_BR 1 val c.
Definition c_setDL (val : Z) (c : cpu) : cpu := SET_BR 2 val c.
Definition c_setBL (val : Z) (c : cpu) : cpu := SET_BR 3 val c.
Definition c_setAH (val : Z) (c : cpu) : cpu := SET_BR 4 val c.
Definition c_setCH (val : Z) (c : cpu) : cpu := SET_BR 5 val c.
Definition c_setDH (val : Z) (c : cpu) : cpu := SET_BR 6 val c.
Definition c_setBH (val : Z) (c : cpu) : cpu := SET_BR 7 val c.

Definition c_getAX (c : cpu) : Z := GET_WR 0 c.
Definition c_getCX (c : cpu) : Z := GET_WR 1 c.
Definition c_getDX (c : cpu) : Z := GET_WR 2 c.
Definition c_getBX (c : cpu) : Z := GET_WR 3 c.
Definition c_getSP (c : cpu) : Z := GET_WR 4 c.
Definition c_getBP (c : cpu) : Z := GET_WR 5 c.
Definition c_getSI (c : cpu) : Z := GET_WR 6 c.
Definition c_getDI (c : cpu) : Z := GET_WR 7 c.
Definition c_getEIP (c : cpu) : Z := ip c.
Definition c_getIP (c : cpu) : Z := u16 (ip c).
Definition c_setAX (val : Z) (c : cpu) : cpu := SET_WR 0 val c.
Definition c_setCX (val : Z) (c : cpu) : cpu := SET_WR 1 val c.
Definition c_setDX (val : Z) (c : cpu) : cpu := SET_WR 2 val c.
Definition c_setBX (val : Z) (c : cpu) : cpu := SET_WR 3 val c.
Definition c_setSP (val : Z) (c : cpu) : cpu := SET_WR 4 val c.
Definition c_setBP (val : Z) (c : cpu) : cpu := SET_WR 5 val c.
Definition c_setSI (val : Z) (c : cpu) : cpu := SET_WR 6 val c.
Definition c_setDI (val : Z) (c : cpu) : cpu := SET_WR 7 val c.
Definition c_setEIP (val : Z) (c : cpu) : cpu := SET_ip val c.
Definition c_setIP (val : Z) (c : cpu) : cpu := SET_ip val c.

Definition c_getEAX (c : cpu) : Z := GET_GR 0 c.
Definition c_getECX (c : cpu) : Z := GET_GR 1 c.
Definition c_getEDX (c : cpu) : Z := GET_GR 2 c.
Definition c_getEBX (c : cpu) : Z := GET_GR 3 c.
Definition c_getESP (c : cpu) : Z := GET_GR 4 c.
Definition c_getEBP (c : cpu) : Z := GET_GR 5 c.
Definition c_getESI (c : cpu) : Z := GET_GR 6 c.
Definition c_getEDI (c : cpu) : Z := GET_GR 7 c.
Definition c_setEAX (val : Z) (c : cpu) : cpu := SET_GR 0 val c.
Definition c_setECX (val : Z) (c : cpu) : cpu := SET_GR 1 val c.
Definition c_setEDX (val : Z) (c : cpu) : cpu := SET_GR 2 val c.
Definition c_setEBX (val : Z) (c : cpu) : cpu := SET_GR 3 val c.
Definition c_setESP (val : Z) (c : cpu) : cpu := SET_GR 4 val c.
Definition c_setEBP (val : Z) (c : cpu) : cpu := SET_GR 5 val c.
Definition c_setESI (val : Z) (c : cpu) : cpu := SET_GR 6 val c.
Definition c_setEDI (val : Z) (c : cpu) : cpu := SET_GR 7 val c.

(** ** Segment registers: selectors *)

Definition c_getES (c : cpu) : Z := selector (GET_SR ES_REG c).
Definition c_getCS (c : cpu) : Z := selector (GET_SR CS_REG c).
Definition c_getSS (c : cpu) : Z := selector (GET_SR SS_REG c).
Definition c_getDS (c : cpu) : Z := selector (GET_SR DS_REG c).
Definition c_getFS (c : cpu) : Z := selector (GET_SR FS_REG c).
Definition c_getGS (c : cpu) : Z := selector (GET_SR GS_REG c).

Section Selectors.
Context {P : Type} `{PhyMem P}.

Abbreviation X := (M exn (mach P)).

Definition c_setES (val : Z) : X Z := call_cpu_function (load_data_seg ES_REG val).
Definition c_setCS (val : Z) : X Z := call_cpu_function (load_code_seg val).
Definition c_setSS (val : Z) : X Z := call_cpu_function (load_stack_seg val).
Definition c_setDS (val : Z) : X Z := call_cpu_function (load_data_seg DS_REG val).
Definition c_setFS (val : Z) : X Z := call_cpu_function (load_data_seg FS_REG val).
Definition c_setGS (val : Z) : X Z := call_cpu_function (load_data_seg GS_REG val).

End Selectors.

(** ** Segment registers: the hidden parts *)

Definition get_seg_ar (indx : Z) (c : cpu) : Z :=
  let s := GET_SR indx c in
  if (ar_w s =? 0) && (ar_r s =? 0) && negb (indx =? CS_REG) then 0
  else
    let ar :=
      if tst (ar_c s) || ((indx =? CS_REG) && negb (tst (ar_w s)))
      then u16 (BIT_MASK 4 .| BIT_MASK 3 .| (ar_c s .<< 2) .| (ar_r s .<< 1))
      else u16 (BIT_MASK 4 .| (ar_e s .<< 2) .| (ar_w s .<< 1)) in
    let ar := u16 (ar .| (ar_dpl s .<< 5) .| (ar_x s .<< 14)) in
    u16 (ar .| BIT_MASK 7 .| BIT_MASK 0).

Definition set_seg_ar (indx val : Z) (c : cpu) : cpu :=
  let upd (f : SEGMENT_REGISTER -> SEGMENT_REGISTER) (c : cpu) := SET_SR indx (f (GET_SR indx c)) c in
  if val =? 0 then upd (SEG_ar_w 0) (upd (SEG_ar_r 0) c)
  else
    let c := upd (SEG_ar_x (GET_AR_X val)) c in
    let c := upd (SEG_ar_dpl (GET_AR_DPL val)) c in
    if tst (val .& BIT_MASK 3) then
      upd (SEG_ar_c (GET_AR_C val)) (upd (SEG_ar_r (GET_AR_R val)) (upd (SEG_ar_e 0) (upd (SEG_ar_w 0) c)))
    else
      upd (SEG_ar_e (GET_AR_E val)) (upd (SEG_ar_w (GET_AR_W val)) (upd (SEG_ar_c 0) (upd (SEG_ar_r 1) c))).

Definition get_seg_limit (indx : Z) (c : cpu) : Z := limit (GET_SR indx c).
Definition set_seg_limit (indx val : Z) (c : cpu) : cpu := SET_SR indx (SEG_limit val (GET_SR indx c)) c.

Definition c_getES_SELECTOR (c : cpu) : Z := selector (GET_SR ES_REG c).
Definition c_getCS_SELECTOR (c : cpu) : Z := selector (GET_SR CS_REG c).
Definition c_getSS_SELECTOR (c : cpu) : Z := selector (GET_SR SS_REG c).
Definition c_getDS_SELECTOR (c : cpu) : Z := selector (GET_SR DS_REG c).
Definition c_getFS_SELECTOR (c : cpu) : Z := selector (GET_SR FS_REG c).
Definition c_getGS_SELECTOR (c : cpu) : Z := selector (GET_SR GS_REG c).
Definition c_getES_BASE (c : cpu) : Z := base (GET_SR ES_REG c).
Definition c_getCS_BASE (c : cpu) : Z := base (GET_SR CS_REG c).
Definition c_getSS_BASE (c : cpu) : Z := base (GET_SR SS_REG c).
Definition c_getDS_BASE (c : cpu) : Z := base (GET_SR DS_REG c).
Definition c_getFS_BASE (c : cpu) : Z := base (GET_SR FS_REG c).
Definition c_getGS_BASE (c : cpu) : Z := base (GET_SR GS_REG c).
Definition c_getES_LIMIT (c : cpu) : Z := get_seg_limit ES_REG c.
Definition c_getCS_LIMIT (c : cpu) : Z := get_seg_limit CS_REG c.
Definition c_getSS_LIMIT (c : cpu) : Z := get_seg_limit SS_REG c.
Definition c_getDS_LIMIT (c : cpu) : Z := get_seg_limit DS_REG c.
Definition c_getFS_LIMIT (c : cpu) : Z := get_seg_limit FS_REG c.
Definition c_getGS_LIMIT (c : cpu) : Z := get_seg_limit GS_REG c.
Definition c_getES_AR (c : cpu) : Z := get_seg_ar ES_REG c.
Definition c_getCS_AR (c : cpu) : Z := get_seg_ar CS_REG c.
Definition c_getSS_AR (c : cpu) : Z := get_seg_ar SS_REG c.
Definition c_getDS_AR (c : cpu) : Z := get_seg_ar DS_REG c.
Definition c_getFS_AR (c : cpu) : Z := get_seg_ar FS_REG c.
Definition c_getGS_AR (c : cpu) : Z := get_seg_ar GS_REG c.
Definition c_setES_SELECTOR (val : Z) (c : cpu) : cpu := SET_SELECTOR ES_REG val c.
Definition c_setCS_SELECTOR (val : Z) (c : cpu) : cpu := SET_SELECTOR CS_REG val c.
Definition c_setSS_SELECTOR (val : Z) (c : cpu) : cpu := SET_SELECTOR SS_REG val c.
Definition c_setDS_SELECTOR (val : Z) (c : cpu) : cpu := SET_SELECTOR DS_REG val c.
Definition c_setFS_SELECTOR (val : Z) (c : cpu) : cpu := SET_SELECTOR FS_REG val c.
Definition c_setGS_SELECTOR (val : Z) (c : cpu) : cpu := SET_SELECTOR GS_REG val c.

Definition c_setES_BASE_LIMIT_AR (b l ar : Z) (c : cpu) : cpu :=
  set_seg_ar ES_REG ar (set_seg_limit ES_REG l (SET_SR ES_REG (SEG_base b (GET_SR ES_REG c)) c)).
Definition c_setCS_BASE_LIMIT_AR (b l ar : Z) (c : cpu) : cpu :=
  set_seg_ar CS_REG ar (set_seg_limit CS_REG l (SET_SR CS_REG (SEG_base b (GET_SR CS_REG c)) c)).
Definition c_setSS_BASE_LIMIT_AR (b l ar : Z) (c : cpu) : cpu :=
  set_seg_ar SS_REG ar (set_seg_limit SS_REG l (SET_SR SS_REG (SEG_base b (GET_SR SS_REG c)) c)).
Definition c_setDS_BASE_LIMIT_AR (b l ar : Z) (c : cpu) : cpu :=
  set_seg_ar DS_REG ar (set_seg_limit DS_REG l (SET_SR DS_REG (SEG_base b (GET_SR DS_REG c)) c)).
Definition c_setFS_BASE_LIMIT_AR (b l ar : Z) (c : cpu) : cpu :=
  set_seg_ar FS_REG ar (set_seg_limit FS_REG l (SET_SR FS_REG (SEG_base b (GET_SR FS_REG c)) c)).
Definition c_setGS_BASE_LIMIT_AR (b l ar : Z) (c : cpu) : cpu :=
  set_seg_ar GS_REG ar (set_seg_limit GS_REG l (SET_SR GS_REG (SEG_base b (GET_SR GS_REG c)) c)).

(** ** Flags *)

Definition c_getAF (c : cpu) : Z := AF (fl c).
Definition c_getCF (c : cpu) : Z := CF (fl c).
Definition c_getDF (c : cpu) : Z := DF (fl c).
Definition c_getIF (c : cpu) : Z := IF (fl c).
Definition c_getOF (c : cpu) : Z := OF (fl c).
Definition c_getPF (c : cpu) : Z := PF (fl c).
Definition c_getSF (c : cpu) : Z := SF (fl c).
Definition c_getTF (c : cpu) : Z := TF (fl c).
Definition c_getZF (c : cpu) : Z := ZF (fl c).
Definition c_getIOPL (c : cpu) : Z := IOPL (fl c).
Definition c_getNT (c : cpu) : Z := NT (fl c).
Definition c_getRF (c : cpu) : Z := RF (fl c).
Definition c_getVM (c : cpu) : Z := VM (fl c).
Definition c_getSTATUS (c : cpu) : Z := u16 (getFLAGS c).
Definition c_setAF (val : Z) (c : cpu) : cpu := modify_fl (SET_AF (u32 val)) c.
Definition c_setCF (val : Z) (c : cpu) : cpu := modify_fl (SET_CF (u32 val)) c.
Definition c_setDF (val : Z) (c : cpu) : cpu := modify_fl (SET_DF (u32 val)) c.
Definition c_setIF (val : Z) (c : cpu) : cpu := modify_fl (SET_IF (u32 val)) c.
Definition c_setOF (val : Z) (c : cpu) : cpu := modify_fl (SET_OF (u32 val)) c.
Definition c_setPF (val : Z) (c : cpu) : cpu := modify_fl (SET_PF (u32 val)) c.
Definition c_setSF (val : Z) (c : cpu) : cpu := modify_fl (SET_SF (u32 val)) c.
Definition c_setTF (val : Z) (c : cpu) : cpu := modify_fl (SET_TF (u32 val)) c.
Definition c_setZF (val : Z) (c : cpu) : cpu := modify_fl (SET_ZF (u32 val)) c.
Definition c_setIOPL (val : Z) (c : cpu) : cpu := modify_fl (SET_IOPL (u32 val)) c.
Definition c_setNT (val : Z) (c : cpu) : cpu := modify_fl (SET_NT (u32 val)) c.
Definition c_setRF (val : Z) (c : cpu) : cpu := modify_fl (SET_RF (u32 val)) c.
Definition c_setVM (val : Z) (c : cpu) : cpu := modify_fl (SET_VM (u32 val)) c.

(** ** Control registers *)

Definition CR0_bit (n : Z) (c : cpu) : Z := nz (CR_STAT (cr c) .& BIT_MASK n).
Definition set_CR0_bit (n x : Z) (c : cpu) : cpu :=
  modify_cr (fun r => SET_CR_STAT ((CR_STAT r .& not32 (BIT_MASK n)) .| ((x .& 1) .<< n)) r) c.

Definition c_getPE (c : cpu) : Z := GET_PE c.
Definition c_getMP (c : cpu) : Z := CR0_bit 1 c.
Definition c_getEM (c : cpu) : Z := CR0_bit 2 c.
Definition c_getTS (c : cpu) : Z := CR0_bit 3 c.
Definition c_getPG (c : cpu) : Z := GET_PG c.
Definition c_getMSW (c : cpu) : Z := CR_STAT (cr c) .& WORD_MASK.
Definition c_getCR0 (c : cpu) : Z := CR_STAT (cr c).
Definition c_getCR2 (c : cpu) : Z := CR_PFLA (cr c).
Definition c_getCR3 (c : cpu) : Z := CR_PDBR (cr c).
Definition c_setPE (val : Z) (c : cpu) : cpu := set_CR0_bit 0 val c.
Definition c_setMP (val : Z) (c : cpu) : cpu := set_CR0_bit 1 val c.
Definition c_setEM (val : Z) (c : cpu) : cpu := set_CR0_bit 2 val c.
Definition c_setTS (val : Z) (c : cpu) : cpu := set_CR0_bit 3 val c.
Definition c_setET (val : Z) (c : cpu) : cpu := c.
Definition c_setPG (val : Z) (c : cpu) : cpu := set_CR0_bit 31 val c.

Section Control.
Context {P : Type} `{PhyMem P}.

Abbreviation X := (M exn (mach P)).

Definition c_setMSW (val : Z) : X unit :=
  keep_et <- getc (CR0_bit 4) ;;
  modc (modify_cr (fun r => SET_CR_STAT ((CR_STAT r .& not32 WORD_MASK) .| (val .& WORD_MASK)) r)) ;;
  modc (set_CR0_bit 4 keep_et) ;;
  cr0 <- getc (fun c => CR_STAT (cr c)) ;;
  MOV_CR 0 ((cr0 .& 0xFFFF0000) .| val).
Definition c_setCR0 (val : Z) : X unit := MOV_CR 0 val.
Definition c_setCR2 (val : Z) : X unit := MOV_CR 2 val.
Definition c_setCR3 (val : Z) : X unit := MOV_CR 3 val.

End Control.

(** ** Descriptor registers and the privilege level *)

Definition c_getGDT_BASE (c : cpu) : Z := star_base (gdtr c).
Definition c_getGDT_LIMIT (c : cpu) : Z := star_limit (gdtr c).
Definition c_getIDT_BASE (c : cpu) : Z := star_base (idtr c).
Definition c_getIDT_LIMIT (c : cpu) : Z := star_limit (idtr c).
Definition c_getLDT_SELECTOR (c : cpu) : Z := sar_selector (ldtr c).
Definition c_getLDT_BASE (c : cpu) : Z := sar_base (ldtr c).
Definition c_getLDT_LIMIT (c : cpu) : Z := sar_limit (ldtr c).
Definition c_getTR_SELECTOR (c : cpu) : Z := sar_selector (tr c).
Definition c_getTR_BASE (c : cpu) : Z := sar_base (tr c).
Definition c_getTR_LIMIT (c : cpu) : Z := sar_limit (tr c).
Definition c_getTR_AR (c : cpu) : Z := u16 (sar_super (tr c)).
Definition c_setGDT_BASE_LIMIT (b l : Z) (c : cpu) : cpu := SET_gdtr (SET_star_limit l (SET_star_base b (gdtr c))) c.
Definition c_setIDT_BASE_LIMIT (b l : Z) (c : cpu) : cpu := SET_idtr (SET_star_limit l (SET_star_base b (idtr c))) c.
Definition c_setLDT_SELECTOR (val : Z) (c : cpu) : cpu := modify_ldtr (SET_sar_selector val) c.
Definition c_setLDT_BASE_LIMIT (b l : Z) (c : cpu) : cpu := modify_ldtr (fun r => SET_sar_limit l (SET_sar_base b r)) c.
Definition c_setTR_SELECTOR (val : Z) (c : cpu) : cpu := modify_tr (SET_sar_selector val) c.
Definition c_setTR_BASE_LIMIT (b l : Z) (c : cpu) : cpu :=
  modify_tr (fun r => SET_sar_super BUSY_TSS (SET_sar_limit l (SET_sar_base b r))) c.
Definition c_setTR_BASE_LIMIT_AR (b l ar : Z) (c : cpu) : cpu :=
  if (GET_AR_SUPER ar =? BUSY_TSS) || (GET_AR_SUPER ar =? XTND_BUSY_TSS)
  then modify_tr (fun r => SET_sar_super (GET_AR_SUPER ar) (SET_sar_limit l (SET_sar_base b r))) c
  else modify_tr (fun r => SET_sar_super BUSY_TSS (SET_sar_limit l (SET_sar_base b r))) c.
Definition c_getCPL (c : cpu) : Z := CPL c.
Definition c_setCPL (val : Z) (c : cpu) : cpu := SET_CPL (u32 val) c.

(** ** Snapshots *)

Record segment_state := mkSegState { ss_base : Z; ss_limit : Z; ss_selector : Z; ss_access_rights : Z }.

Record register_state := mkRegState {
  st_eax : Z;
  st_ecx : Z;
  st_edx : Z;
  st_ebx : Z;
  st_esp : Z;
  st_ebp : Z;
  st_esi : Z;
  st_edi : Z;
  st_eip : Z;
  st_eflags : Z;
  st_cr0 : Z;
  st_cr2 : Z;
  st_cr3 : Z;
  st_cpl : Z;
  st_gdt_base : Z;
  st_gdt_limit : Z;
  st_idt_base : Z;
  st_idt_limit : Z;
  st_ldt_selector : Z;
  st_ldt_base : Z;
  st_ldt_limit : Z;
  st_tr_selector : Z;
  st_tr_base : Z;
  st_tr_limit : Z;
  st_tr_access_rights : Z;
  st_segments : list segment_state
}.

Definition snapshot_capture_registers (c : cpu) : register_state :=
  mkRegState (c_getEAX c) (c_getECX c) (c_getEDX c) (c_getEBX c) (c_getESP c) (c_getEBP c) (c_getESI c) (c_getEDI c)
    (c_getEIP c) (c_getEFLAGS c) (c_getCR0 c) (c_getCR2 c) (c_getCR3 c) (c_getCPL c)
    (c_getGDT_BASE c) (c_getGDT_LIMIT c) (c_getIDT_BASE c) (c_getIDT_LIMIT c)
    (c_getLDT_SELECTOR c) (c_getLDT_BASE c) (c_getLDT_LIMIT c)
    (c_getTR_SELECTOR c) (c_getTR_BASE c) (c_getTR_LIMIT c) (c_getTR_AR c)
    [ mkSegState (c_getES_BASE c) (c_getES_LIMIT c) (c_getES_SELECTOR c) (c_getES_AR c);
      mkSegState (c_getCS_BASE c) (c_getCS_LIMIT c) (c_getCS_SELECTOR c) (c_getCS_AR c);
      mkSegState (c_getSS_BASE c) (c_getSS_LIMIT c) (c_getSS_SELECTOR c) (c_getSS_AR c);
      mkSegState (c_getDS_BASE c) (c_getDS_LIMIT c) (c_getDS_SELECTOR c) (c_getDS_AR c);
      mkSegState (c_getFS_BASE c) (c_getFS_LIMIT c) (c_getFS_SELECTOR c) (c_getFS_AR c);
      mkSegState (c_getGS_BASE c) (c_getGS_LIMIT c) (c_getGS_SELECTOR c) (c_getGS_AR c) ].

(** RESTORE_SNAPSHOT_SEGMENT: slot [slot] into a segment register. *)
Definition restore_segment (set_selector : Z -> cpu -> cpu) (set_rest : Z -> Z -> Z -> cpu -> cpu)
    (slot : nat) (st : register_state) (c : cpu) : cpu :=
  match st_segments st !! slot with
  | Some g => set_rest (ss_base g) (ss_limit g) (ss_access_rights g) (set_selector (ss_selector g) c)
  | None => c
  end.

(** What restoring does after the control registers. *)
Definition restore_rest (st : register_state) (c : cpu) : cpu :=
  let c := c_setECX (st_ecx st) (c_setEAX (st_eax st) c) in
  let c := c_setEBX (st_ebx st) (c_setEDX (st_edx st) c) in
  let c := c_setEBP (st_ebp st) (c_setESP (st_esp st) c) in
  let c := c_setEDI (st_edi st) (c_setESI (st_esi st) c) in
  let c := c_setEFLAGS (st_eflags st) (c_setEIP (st_eip st) c) in
  let c := c_setGDT_BASE_LIMIT (st_gdt_base st) (st_gdt_limit st) c in
  let c := c_setIDT_BASE_LIMIT (st_idt_base st) (st_idt_limit st) c in
  let c := c_setLDT_SELECTOR (st_ldt_selector st) c in
  let c := c_setLDT_BASE_LIMIT (st_ldt_base st) (st_ldt_limit st) c in
  let c := c_setTR_SELECTOR (st_tr_selector st) c in
  let c := c_setTR_BASE_LIMIT_AR (st_tr_base st) (st_tr_limit st) (st_tr_access_rights st) c in
  let c := restore_segment c_setES_SELECTOR c_setES_BASE_LIMIT_AR 0 st c in
  let c := restore_segment c_setCS_SELECTOR c_setCS_BASE_LIMIT_AR 1 st c in
  let c := restore_segment c_setSS_SELECTOR c_setSS_BASE_LIMIT_AR 2 st c in
  let c := restore_segment c_setDS_SELECTOR c_setDS_BASE_LIMIT_AR 3 st c in
  let c := restore_segment c_setFS_SELECTOR c_setFS_BASE_LIMIT_AR 4 st c in
  let c := restore_segment c_setGS_SELECTOR c_setGS_BASE_LIMIT_AR 5 st c in
  c_setCPL (st_cpl st) c.

Definition snapshot_restore_registers {P} `{PhyMem P} (st : register_state) : M exn (mach P) unit :=
  modc (c_setCPL 0) ;;
  c_setCR0 (st_cr0 st) ;;
  c_setCR2 (st_cr2 st) ;;
  c_setCR3 (st_cr3 st) ;;
  modc (restore_rest st).


(** ** The register file *)

Lemma GET_SET_SR i j x c : 0 <= i < 6 -> 0 <= j < 6 -> GET_SR i (SET_SR j x c) = if i =? j then x else GET_SR i c.
Proof.
  intros Hi Hj. assert (i = 0 \/ i = 1 \/ i = 2 \/ i = 3 \/ i = 4 \/ i = 5) as Ci by lia.
  assert (j = 0 \/ j = 1 \/ j = 2 \/ j = 3 \/ j = 4 \/ j = 5) as Cj by lia.
  destruct Ci as [-> | [-> | [-> | [-> | [-> | ->]]]]], Cj as [-> | [-> | [-> | [-> | [-> | ->]]]]]; reflexivity.
Qed.

Lemma SET_SET_SR i x y c : 0 <= i < 6 -> SET_SR i x (SET_SR i y c) = SET_SR i x c.
Proof.
  intros Hi. assert (i = 0 \/ i = 1 \/ i = 2 \/ i = 3 \/ i = 4 \/ i = 5) as Ci by lia.
  destruct Ci as [-> | [-> | [-> | [-> | [-> | ->]]]]]; reflexivity.
Qed.

(** ** Access rights out and back in *)

(** A segment register as the loading routines leave it: fields in their range; a
    conforming segment is code, neither writable nor expand down, and so is a CS that
    is not writable; a data segment that is usable is readable. *)
Definition seg_ok (indx : Z) (g : SEGMENT_REGISTER) : Prop :=
  0 <= ar_dpl g < 4
  /\ Forall (fun x => x = 0 \/ x = 1) [ar_e g; ar_r g; ar_w g; ar_c g; ar_x g]
  /\ (ar_c g = 1 \/ (indx = CS_REG /\ ar_w g = 0) -> ar_e g = 0 /\ ar_w g = 0)
  /\ (ar_c g = 0 -> ar_w g = 1 -> ar_r g = 1).

Definition unusable (indx : Z) (g : SEGMENT_REGISTER) : Prop := indx <> CS_REG /\ ar_r g = 0 /\ ar_w g = 0.

(** The register [set_seg_ar] makes. *)
Definition with_ar (val : Z) (g : SEGMENT_REGISTER) : SEGMENT_REGISTER :=
  if val =? 0 then SEG_ar_w 0 (SEG_ar_r 0 g)
  else
    let g := SEG_ar_dpl (GET_AR_DPL val) (SEG_ar_x (GET_AR_X val) g) in
    if tst (val .& BIT_MASK 3)
    then SEG_ar_c (GET_AR_C val) (SEG_ar_r (GET_AR_R val) (SEG_ar_e 0 (SEG_ar_w 0 g)))
    else SEG_ar_e (GET_AR_E val) (SEG_ar_w (GET_AR_W val) (SEG_ar_c 0 (SEG_ar_r 1 g))).

Lemma set_seg_ar_run i val c : 0 <= i < 6 -> set_seg_ar i val c = SET_SR i (with_ar val (GET_SR i c)) c.
Proof.
  intros Hi. unfold set_seg_ar, with_ar.
  destruct (val =? 0); [|destruct (tst (val .& BIT_MASK 3))];
    repeat first [rewrite GET_SET_SR, Z.eqb_refl by exact Hi | rewrite SET_SET_SR by exact Hi]; reflexivity.
Qed.

Definition same_attributes (g g' : SEGMENT_REGISTER) : Prop :=
  [ar_dpl g'; ar_e g'; ar_r g'; ar_w g'; ar_c g'; ar_x g'] = [ar_dpl g; ar_e g; ar_r g; ar_w g; ar_c g; ar_x g].

Lemma ar_round_trip i c g' :
  0 <= i < 6 -> seg_ok i (GET_SR i c) ->
  let g := GET_SR i c in
  let r := with_ar (get_seg_ar i c) g' in
  (selector r = selector g' /\ base r = base g' /\ limit r = limit g')
  /\ (unusable i g /\ ar_r r = 0 /\ ar_w r = 0 \/ ~ unusable i g /\ same_attributes g r).
Proof.
  intros Hi Hok g r. unfold r, get_seg_ar. fold g in Hok. fold g. clear r. clearbody g.
  destruct Hok as (Hd & HF & Hcode & Hdata), g as [sel dpl e rd w cf x b l], g' as [sel' dpl' e' rd' w' cf' x' b' l'].
  cbn [ar_dpl ar_e ar_r ar_w ar_c ar_x] in *.
  repeat match goal with H : Forall _ (_ :: _) |- _ => inversion_clear H end.
  unfold same_attributes, unusable. cbn [ar_r ar_w].
  assert (Ei : i = CS_REG \/ (i =? CS_REG) = false) by (destruct (i =? CS_REG) eqn:E; [left; apply Z.eqb_eq, E | right; reflexivity]).
  assert (dpl = 0 \/ dpl = 1 \/ dpl = 2 \/ dpl = 3) as Cd by lia.
  destruct Ei as [-> | Ei]; [|rewrite Ei; apply Z.eqb_neq in Ei];
  repeat match goal with H : _ = 0 \/ _ = 1 |- _ => destruct H; subst end;
  destruct Cd as [-> | [-> | [-> | ->]]];
  try (exfalso; unfold CS_REG in *; lia);
  (split; [repeat split|]);
  first [ left; split; [split; [assumption | split; reflexivity] | split; reflexivity]
        | right; split; [intros [? [? ?]]; unfold CS_REG in *; congruence | reflexivity] ].
Qed.

(** ** Snapshots *)

(** Registers a snapshot can be taken of: flags and segment registers well formed, CR0
    and CR3 with the bits the processor implements and paging only in protected mode, a
    busy task, and the 32-bit fields in range. *)
Record regs_ok (c : cpu) : Prop := {
  ok_flags : flags_ok (fl c);
  ok_seg : forall i, 0 <= i < 6 -> seg_ok i (GET_SR i c);
  ok_cr0 : CR_STAT (cr c) .& CR0_VALID_BITS = CR_STAT (cr c);
  ok_paging : tst (CR_STAT (cr c) .& BIT_MASK 31) && negb (tst (CR_STAT (cr c) .& BIT_MASK 0)) = false;
  ok_cr3 : CR_PDBR (cr c) .& CR3_VALID_BITS = CR_PDBR (cr c);
  ok_tr : sar_super (tr c) = BUSY_TSS \/ sar_super (tr c) = XTND_BUSY_TSS;
  ok_cpl : 0 <= CPL c < 2 ^ 32
}.

(** The same registers; of a segment register that cannot be used only that it cannot. *)
Record same_regs (c c' : cpu) : Prop := {
  same_gr : gr c' = gr c;
  same_ip : ip c' = ip c;
  same_fl : fl c' = fl c;
  same_cpl : CPL c' = CPL c;
  same_tables : gdtr c' = gdtr c /\ idtr c' = idtr c;
  same_ldt : sar_selector (ldtr c') = sar_selector (ldtr c) /\ sar_base (ldtr c') = sar_base (ldtr c)
             /\ sar_limit (ldtr c') = sar_limit (ldtr c);
  same_tr : tr c' = tr c;
  same_cr : CR_STAT (cr c') = CR_STAT (cr c) /\ CR_PFLA (cr c') = CR_PFLA (cr c) /\ CR_PDBR (cr c') = CR_PDBR (cr c);
  same_seg : forall i, 0 <= i < 6 ->
    let g := GET_SR i c in let g' := GET_SR i c' in
    selector g' = selector g /\ base g' = base g /\ limit g' = limit g
    /\ (unusable i g /\ unusable i g' \/ ~ unusable i g /\ same_attributes g g')
}.

Lemma flag_b2z x : x = 0 \/ x = 1 -> Z.b2z (x =? 1) = x.
Proof. intros [-> | ->]; reflexivity. Qed.

Lemma flags_restored c t : flags_ok (fl c) -> CPL t = 0 -> 0 <= IOPL (fl t) -> fl (c_setEFLAGS (c_getEFLAGS c) t) = fl c.
Proof.
  intros Hok H0 HI. rewrite setEFLAGS_flags, H0, (proj2 (Z.leb_le 0 _) HI). cbn [Z.eqb].
  rewrite !eflags_bit by (exact Hok || lia). cbn [flag_at]. destruct Hok as [HF Hio].
  repeat match goal with H : Forall _ (_ :: _) |- _ => inversion_clear H end.
  assert (EI : (c_getEFLAGS c .>> 12) .& 3 = IOPL (fl c)).
  { change 3 with (2 ^ 2 - 1). rewrite land_mask by lia. apply Z.bits_inj'. intros n Hn.
    destruct (Z.ltb_spec n 2).
    - rewrite Z.mod_pow2_bits_low, Z.shiftr_spec, eflags_bit by (lia || (split; [repeat (constructor; [assumption|]); constructor | exact Hio])).
      assert (n = 0 \/ n = 1) as [-> | ->] by lia; reflexivity.
    - rewrite Z.mod_pow2_bits_high by lia. symmetry. apply (range_bits _ 2); lia. }
  rewrite EI. destruct (fl c) as [f0 f1 f2 f3 f4 f5 f6 f7 f8 io f9 f10 f11].
  cbn [CF PF AF ZF SF TF IF DF OF IOPL NT RF VM] in *. rewrite !flag_b2z by assumption. reflexivity.
Qed.

(** One segment register restored. *)
Lemma restore_run i slot set_sel set_rest c t :
  0 <= i < 6 ->
  (forall v t, set_sel v t = SET_SELECTOR i v t) ->
  (forall b l ar t, set_rest b l ar t = set_seg_ar i ar (set_seg_limit i l (SET_SR i (SEG_base b (GET_SR i t)) t))) ->
  st_segments (snapshot_capture_registers c) !! slot
    = Some (mkSegState (base (GET_SR i c)) (limit (GET_SR i c)) (selector (GET_SR i c)) (get_seg_ar i c)) ->
  restore_segment set_sel set_rest slot (snapshot_capture_registers c) t
  = SET_SR i (with_ar (get_seg_ar i c) (SEG_limit (limit (GET_SR i c)) (SEG_base (base (GET_SR i c)) (SEG_selector (selector (GET_SR i c)) (GET_SR i t))))) t.
Proof.
  intros Hi Hsel Hrest Hst. unfold restore_segment. rewrite Hst. cbn [ss_base ss_limit ss_selector ss_access_rights].
  rewrite Hrest, Hsel, set_seg_ar_run by exact Hi. unfold set_seg_limit, SET_SELECTOR.
  repeat first [rewrite GET_SET_SR, Z.eqb_refl by exact Hi | rewrite SET_SET_SR by exact Hi]. reflexivity.
Qed.

Lemma restored_seg i c g' :
  0 <= i < 6 -> seg_ok i (GET_SR i c) ->
  let g := GET_SR i c in
  let r := with_ar (get_seg_ar i c) (SEG_limit (limit g) (SEG_base (base g) (SEG_selector (selector g) g'))) in
  selector r = selector g /\ base r = base g /\ limit r = limit g
  /\ (unusable i g /\ unusable i r \/ ~ unusable i g /\ same_attributes g r).
Proof.
  intros Hi Hok g r. destruct (ar_round_trip i c (SEG_limit (limit g) (SEG_base (base g) (SEG_selector (selector g) g'))) Hi Hok)
    as [(E1 & E2 & E3) HA]. fold g r in E1, E2, E3, HA. rewrite E1, E2, E3. repeat (split; [reflexivity|]).
  destruct HA as [(HU & Hr & Hw) | HA]; [left | right; exact HA]. split; [exact HU|]. destruct HU as [Hn _]. split; [exact Hn | auto].
Qed.

Lemma setEFLAGS_only v c : c_setEFLAGS v c = SET_fl (fl (c_setEFLAGS v c)) c.
Proof.
  destruct c as [g0 i0 f0 p0 o0 a0 d0 s0 t0 u0 l0 r0 c0 x0 k0 b0].
  unfold c_setEFLAGS, setFLAGS, modify_fl. cbn [CPL fl SET_fl].
  repeat match goal with |- context [if ?b then _ else _] => destruct b end; reflexivity.
Qed.

Lemma gr_restored c t :
  c_setEDI (c_getEDI c) (c_setESI (c_getESI c) (c_setEBP (c_getEBP c) (c_setESP (c_getESP c)
    (c_setEBX (c_getEBX c) (c_setEDX (c_getEDX c) (c_setECX (c_getECX c) (c_setEAX (c_getEAX c) t))))))) = SET_gr (gr c) t.
Proof. destruct c as [g ?], t as [g' ?]; destruct g, g'; reflexivity. Qed.

Lemma tr_restored c t :
  sar_super (tr c) = BUSY_TSS \/ sar_super (tr c) = XTND_BUSY_TSS ->
  c_setTR_BASE_LIMIT_AR (c_getTR_BASE c) (c_getTR_LIMIT c) (c_getTR_AR c) (c_setTR_SELECTOR (c_getTR_SELECTOR c) t) = SET_tr (tr c) t.
Proof.
  intros Htr. unfold c_getTR_AR, c_getTR_BASE, c_getTR_LIMIT, c_getTR_SELECTOR.
  destruct (tr c) as [sel sup b l]. cbn [sar_super sar_base sar_limit sar_selector] in *.
  destruct Htr as [-> | ->]; reflexivity.
Qed.

Lemma rest_restored c t :
  regs_ok c -> CPL t = 0 -> 0 <= IOPL (fl t) -> cr t = SET_CR_RSVD (CR_RSVD (cr t)) (cr c) ->
  same_regs c (restore_rest (snapshot_capture_registers c) t).
Proof.
  intros Hok H0 HI Hcr. unfold restore_rest.
  rewrite (restore_run 0 0), (restore_run 1 1), (restore_run 2 2), (restore_run 3 3), (restore_run 4 4), (restore_run 5 5)
    by (lia || reflexivity).
  cbn [snapshot_capture_registers st_eax st_ecx st_edx st_ebx st_esp st_ebp st_esi st_edi st_eip st_eflags st_cpl
    st_gdt_base st_gdt_limit st_idt_base st_idt_limit st_ldt_selector st_ldt_base st_ldt_limit st_tr_selector st_tr_base
    st_tr_limit st_tr_access_rights].
  rewrite gr_restored, tr_restored, setEFLAGS_only, flags_restored by (apply Hok || exact H0 || exact HI).
  pose proof (fun i Hi g' => restored_seg i c g' Hi (ok_seg c Hok i Hi)) as HS. cbn zeta in HS.
  pose proof (ok_cpl c Hok) as Hcpl.
  assert (Es : forall i, 0 <= i < 6 -> i = 0 \/ i = 1 \/ i = 2 \/ i = 3 \/ i = 4 \/ i = 5) by lia.
  split.
  - reflexivity.
  - reflexivity.
  - reflexivity.
  - exact (u32_small _ Hcpl).
  - split; [destruct (gdtr c) eqn:E | destruct (idtr c) eqn:E]; unfold c_getGDT_BASE, c_getGDT_LIMIT, c_getIDT_BASE, c_getIDT_LIMIT;
      rewrite E; reflexivity.
  - repeat split.
  - reflexivity.
  - change (cr _) with (cr t) at 1 3 5. rewrite Hcr. repeat split.
  - intros i Hi. destruct (Es i Hi) as [-> | [-> | [-> | [-> | [-> | ->]]]]]; apply HS; lia.
Qed.

Lemma et_kept x y :
  nz (y .& BIT_MASK 4) = nz (x .& BIT_MASK 4) -> 0 <= x < 2 ^ 32 ->
  (x .& not32 (BIT_MASK 4)) .| (nz (y .& BIT_MASK 4) .<< 4) = x.
Proof.
  intros -> Hx. rewrite nz_flag by lia.
  replace (Z.b2z (Z.testbit x 4) .<< 4) with (if Z.testbit x 4 then 2 ^ 4 else 0) by (destruct (Z.testbit x 4); reflexivity).
  apply Z.bits_inj'. intros n Hn. rewrite Z.lor_spec, Z.land_spec. unfold not32, u32, BIT_MASK.
  assert (EB : Z.testbit (if Z.testbit x 4 then 2 ^ 4 else 0) n = Z.testbit x 4 && (4 =? n)).
  { destruct (Z.testbit x 4); [rewrite Z.pow2_bits_eqb by lia; reflexivity | apply Z.bits_0]. }
  rewrite EB. destruct (Z.ltb_spec n 32).
  - rewrite Z.mod_pow2_bits_low, Z.lnot_spec, Z.pow2_bits_eqb by lia.
    destruct (Z.eqb_spec 4 n) as [<- | Hn4]; [rewrite andb_false_r, andb_true_r | rewrite andb_true_r, andb_false_r, orb_false_r]; reflexivity.
  - assert (Ex : Z.testbit x n = false) by (apply (range_bits x 32); lia). rewrite Ex.
    destruct (Z.eqb_spec 4 n); [lia|]. rewrite andb_false_r. reflexivity.
Qed.

(** C23 - Snapshots of the processor: restoring, into any machine with the same
    coprocessor bit in CR0, the register state captured from well-formed registers
    succeeds, in any mode and at any privilege, and gives those registers back: general
    registers, instruction pointer, flags, privilege level, control registers,
    descriptor table and task registers, and every segment register with its hidden
    base, limit and rights (one that cannot be used stays unusable); the translation
    buffer is empty, and memory is not touched. *)
Theorem register_snapshot_round_trip {P} `{PhyMem P} c (s : mach P) :
  regs_ok c -> flags_ok (fl (mcpu s)) -> 0 <= CR_STAT (cr c) < 2 ^ 32 ->
  CR0_bit 4 (mcpu s) = CR0_bit 4 c ->
  exists s', snapshot_restore_registers (snapshot_capture_registers c) s = Ret tt s'
  /\ same_regs c (mcpu s') /\ mmem s' = mmem s /\ mtlb s' = flush_tlb (mtlb s).
Proof.
  intros Hok Hf Hcr0 Het. unfold CR0_bit in Het. destruct s as [t m tb tcr tdr db]. cbn [mcpu] in *.
  unfold snapshot_restore_registers, c_setCR0, c_setCR2, c_setCR3, MOV_CR.
  cbn [st_cr0 st_cr2 st_cr3 snapshot_capture_registers]. unfold c_getCR0, c_getCR2, c_getCR3.
  rewrite (ok_paging c Hok), (ok_cr0 c Hok), (ok_cr3 c Hok). cbn [when].
  eexists. split; [reflexivity|]. cbn [mcpu mmem mtlb].
  split; [|split; reflexivity].
  apply rest_restored; [exact Hok | reflexivity | apply Hf|].
  cbn. fold (BIT_MASK 4). rewrite et_kept by (exact Het || exact Hcr0). destruct (cr c), (cr t); reflexivity.
Qed.

#[local] Existing Instance demo_memory.

Lemma register_snapshot_round_trip_witness :
  exists s', snapshot_restore_registers (snapshot_capture_registers (SET_GR A_EBX 0x1234 (c_cpu_reset cpu0)))
               (put_cpu (c_cpu_reset cpu0) demo) = Ret tt s'
  /\ GET_GR A_EBX (mcpu s') = 0x1234.
Proof.
  destruct (register_snapshot_round_trip (SET_GR A_EBX 0x1234 (c_cpu_reset cpu0)) (put_cpu (c_cpu_reset cpu0) demo)) as (s' & E & Hs & _).
  - split; try (vm_compute; reflexivity || (split; congruence)).
    + split; [repeat (constructor; [left; vm_compute; reflexivity|]); constructor | vm_compute; split; congruence].
    + intros i Hi. assert (i = 0 \/ i = 1 \/ i = 2 \/ i = 3 \/ i = 4 \/ i = 5) as Ci by lia.
      destruct Ci as [-> | [-> | [-> | [-> | [-> | ->]]]]];
        (split; [vm_compute; split; congruence|]; split; [repeat (constructor; [vm_compute; auto|]); constructor|];
         split; [intros [Hx | [_ Hx]]; vm_compute in Hx; discriminate | intros _ _; vm_compute; reflexivity]).
    + left. vm_compute. reflexivity.
  - split; [repeat (constructor; [left; vm_compute; reflexivity|]); constructor | vm_compute; split; congruence].
  - vm_compute; split; congruence.
  - vm_compute. reflexivity.
  - exists s'. split; [exact E|]. unfold GET_GR. rewrite (same_gr _ _ Hs). vm_compute. reflexivity.
Defined.

(** ** Loads of selectors from outside *)

(** The exception status is not touched. *)
Definition same_xs (c c' : cpu) : Prop := xs c' = xs c.

#[export] Instance same_xs_ambient : Ambient same_xs.
Proof. split; unfold same_xs; try reflexivity; congruence. Qed.

(** Faults while the interface is active. *)
Lemma fault_aborts {S} `{HasCpu S} k (s : S) :
  interface_active (xs (the_cpu s)) = true ->
  exists s', raise_fault k s = Raise InterfaceAbort s' /\ interface_error (xs (the_cpu s')) = fault_vector k.
Proof.
  intros Ha. destruct k; cbn [raise_fault fault_vector];
    unfold GP, NP, SF_fault, TS, GP_INT, NP_INT, PF_fault, contributory_exception, contributory_idt_exception, set_fault, check_interface_active;
    unfold bind, modc, modify, getc, gets, throw; cbn beta iota; rewrite ?the_put, ?Ha; cbn; rewrite ?the_put, ?Ha;
    (eexists; split; [reflexivity|]; rewrite the_put; reflexivity).
Qed.

(** What the caller of an external load sees. *)
Definition contained {P} (o : outcome exn (mach P) Z) : Prop :=
  match o with
  | Ret n s => interface_active (xs (mcpu s)) = false
               /\ (n = 0 \/ n = GP_INT_NR \/ n = NP_INT_NR \/ n = SF_INT_NR \/ n = TS_INT_NR \/ n = PF_INT_NR)
  | Raise _ _ => False
  | Undefined => True
  end.

Section External.
Context {P : Type} `{PhyQuiet P}.

Lemma call_contained (func : M exn (mach P) unit) s : within same_xs func -> contained (call_cpu_function func s).
Proof.
  intros HW. unfold call_cpu_function. set (s1 := put_cpu _ s). specialize (HW (mcpu s1) s1 eq_refl).
  destruct (func s1) as [[] s2|e s2|]; [split; [reflexivity | left; reflexivity] | | exact I].
  destruct HW as (k & s3 & Hx & E). unfold same_xs in Hx.
  destruct (fault_aborts k s3) as (s4 & E4 & Hv); [cbn [the_cpu HasCpu_mach]; rewrite Hx; reflexivity|].
  rewrite E4 in E. injection E as <- <-. split; [reflexivity|]. cbn [the_cpu HasCpu_mach] in Hv. rewrite Hv.
  destruct k; cbn [fault_vector]; auto 7.
Qed.

Lemma xs_modsr i f : within same_xs (modsr (P := P) i f).
Proof. apply within_modc. reflexivity. Qed.
Hint Resolve xs_modsr : wp.

Lemma xs_load_code_seg sel : within same_xs (load_code_seg (P := P) sel).
Proof. unfold load_code_seg, load_CS_cache. within_tac. Qed.


End External.

#[local] Existing Instance demo_quiet.


End Regs.
