(* ===== verification/Ios.v ===== *)
(** * The I/O ports

    [base/support/ios.c], with [in.c] and [out.c] of the CPU: every port has an
    adapter for reading and one for writing, every adapter a routine for each width.
    The adapters' own routines belong to the devices and are the class [Adapters];
    what an adapter does not provide is made of narrower accesses by the generic
    routines here.  [inb] and its relatives, which the rest of the emulator calls,
    first give a protected mode monitor the chance to see the access
    ([c_IOVirtualised] of [ccpusas4.c]); running the guest instruction for that is the
    parameter [biosDoInst]. *)

From Stdlib Require Import ZArith Lia.
From stdpp Require Import base decidable list.
From S2P Require Import Prelude Cpu.
Local Open Scope Z_scope.
Local Open Scope cword_scope.

Module Ios.

(** ** The tables *)

Definition PC_IO_MEM_SIZE : Z := 0x10000.
Definition IO_MAX_NUMBER_ADAPTORS : Z := 37.
Definition EMPTY_ADAPTOR : Z := 0.
Definition IO_READ : Z := 1.
Definition IO_WRITE : Z := 2.
Definition IO_READ_WRITE : Z := 3.
Definition IO_EMPTY_PORT_BYTE_VALUE : Z := 0xff.

(** A pointer in one of the [Ios_xxx_function] tables: null, the routine of this file
    for that table (the empty port for a byte, the generic routine for the rest), or a
    routine of a device. *)
Inductive fptr := null | own | dev (id : Z).

(** The twelve tables. *)
Inductive kind := INB | INW | IND | INSB | INSW | INSD | OUTB | OUTW | OUTD | OUTSB | OUTSW | OUTSD.

#[export] Instance kind_eq_dec : EqDecision kind.
Proof. solve_decision. Defined.

Record ios := mkIos {
  Ios_in_adapter_table : Z -> Z;
  Ios_out_adapter_table : Z -> Z;
  Ios_function : kind -> Z -> fptr
}.

Definition update {A} (f : Z -> A) (i : Z) (x : A) : Z -> A := fun j => if j =? i then x else f j.

Definition SET_in_table (p a : Z) (r : ios) : ios :=
  mkIos (update (Ios_in_adapter_table r) p a) (Ios_out_adapter_table r) (Ios_function r).
Definition SET_out_table (p a : Z) (r : ios) : ios :=
  mkIos (Ios_in_adapter_table r) (update (Ios_out_adapter_table r) p a) (Ios_function r).
Definition SET_function (k : kind) (a : Z) (f : fptr) (r : ios) : ios :=
  mkIos (Ios_in_adapter_table r) (Ios_out_adapter_table r)
    (fun k' => if decide (k' = k) then update (Ios_function r k) a f else Ios_function r k').

(** States that contain the tables. *)
Class HasIos (S : Type) := {
  the_ios : S -> ios;
  put_ios : ios -> S -> S;
  the_put_ios : forall r s, the_ios (put_ios r s) = r
}.

(** What the devices registered. *)
Class Adapters (E S : Type) := {
  dev_inb : Z -> Z -> M E S Z;
  dev_inw : Z -> Z -> M E S Z;
  dev_ind : Z -> Z -> M E S Z;
  dev_outb : Z -> Z -> Z -> M E S unit;
  dev_outw : Z -> Z -> Z -> M E S unit;
  dev_outd : Z -> Z -> Z -> M E S unit
}.

Section Routing.
Context {E S : Type} `{HasIos S} `{Adapters E S}.
Abbreviation X := (M E S).

Definition get_ios {A} (f : ios -> A) : X A := gets (fun s => f (the_ios s)).
Definition mod_ios (f : ios -> ios) : X unit := modify (fun s => put_ios (f (the_ios s)) s).

(** [Ios_xxx_function[Ios_xx_adapter_table[io_address & (PC_IO_MEM_SIZE-1)]]]; the
    adapter tables are of (signed) [char]. *)
Definition adapter_of (k : kind) (r : ios) : Z -> Z :=
  match k with
  | INB | INW | IND | INSB | INSW | INSD => Ios_in_adapter_table r
  | _ => Ios_out_adapter_table r
  end.
Definition routine (k : kind) (io_address : Z) : X fptr :=
  i <- get_ios (fun r => sgn 8 (adapter_of k r (io_address .& (PC_IO_MEM_SIZE - 1)))) ;;
  if (0 <=? i) && (i <? IO_MAX_NUMBER_ADAPTORS) then get_ios (fun r => Ios_function r k i)
  else undefined.

(** Calls through a pointer: the result is stored in an object of the width. *)
Definition io_empty_inb (io_address : Z) : X Z := ret IO_EMPTY_PORT_BYTE_VALUE.
Definition io_empty_outb (io_address value : Z) : X unit := ret tt.

Definition call_inb (f : fptr) (io_address : Z) : X Z :=
  match f with
  | null => undefined
  | own => io_empty_inb io_address
  | dev id => v <- dev_inb id io_address ;; ret (u8 v)
  end.
Definition call_outb (f : fptr) (io_address value : Z) : X unit :=
  match f with
  | null => undefined
  | own => io_empty_outb io_address value
  | dev id => dev_outb id io_address value
  end.

Definition generic_inw (io_address : Z) : X Z :=
  f <- routine INB io_address ;;
  low <- call_inb f io_address ;;
  let io_address := u16 (io_address + 1) in
  f <- routine INB io_address ;;
  high <- call_inb f io_address ;;
  ret (low + 2 ^ 8 * high).
Definition generic_outw (io_address value : Z) : X unit :=
  f <- routine OUTB io_address ;;
  call_outb f io_address (u8 value) ;;
  let io_address := u16 (io_address + 1) in
  f <- routine OUTB io_address ;;
  call_outb f io_address (u8 (value .>> 8)).

Definition call_inw (f : fptr) (io_address : Z) : X Z :=
  match f with
  | null => undefined
  | own => generic_inw io_address
  | dev id => v <- dev_inw id io_address ;; ret (u16 v)
  end.
Definition call_outw (f : fptr) (io_address value : Z) : X unit :=
  match f with
  | null => undefined
  | own => generic_outw io_address value
  | dev id => dev_outw id io_address value
  end.

Definition generic_ind (io_address : Z) : X Z :=
  f <- routine INW io_address ;;
  low <- call_inw f io_address ;;
  let io_address := u16 (io_address + 2) in
  f <- routine INW io_address ;;
  high <- call_inw f io_address ;;
  ret (low + 2 ^ 16 * high).
Definition generic_outd (io_address value : Z) : X unit :=
  let low := u16 (value .& 0xffff) in
  let high := u16 ((value .& 0xffff0000) .>> 16) in
  f <- routine OUTW io_address ;;
  call_outw f io_address low ;;
  let io_address := u16 (io_address + 2) in
  f <- routine OUTW io_address ;;
  call_outw f io_address high.

Definition call_ind (f : fptr) (io_address : Z) : X Z :=
  match f with
  | null => undefined
  | own => generic_ind io_address
  | dev id => v <- dev_ind id io_address ;; ret (u32 v)
  end.
Definition call_outd (f : fptr) (io_address value : Z) : X unit :=
  match f with
  | null => undefined
  | own => generic_outd io_address value
  | dev id => dev_outd id io_address value
  end.

(** The string routines: the array read, or the array to write. *)
Fixpoint ins (count : nat) (func : X Z) : X (list Z) :=
  match count with
  | O => ret []
  | Datatypes.S count => v <- func ;; valarray <- ins count func ;; ret (v :: valarray)
  end.
Fixpoint outs (valarray : list Z) (func : Z -> X unit) : X unit :=
  match valarray with
  | [] => ret tt
  | v :: valarray => func v ;; outs valarray func
  end.

Definition generic_insb (io_address : Z) (count : nat) : X (list Z) :=
  func <- routine INB io_address ;; ins count (call_inb func io_address).
Definition generic_outsb (io_address : Z) (valarray : list Z) : X unit :=
  func <- routine OUTB io_address ;; outs valarray (call_outb func io_address).
Definition generic_insw (io_address : Z) (count : nat) : X (list Z) :=
  func <- routine INW io_address ;; ins count (call_inw func io_address).
Definition generic_outsw (io_address : Z) (valarray : list Z) : X unit :=
  func <- routine OUTW io_address ;; outs valarray (call_outw func io_address).
Definition generic_insd (io_address : Z) (count : nat) : X (list Z) :=
  func <- routine IND io_address ;; ins count (call_ind func io_address).
Definition generic_outsd (io_address : Z) (valarray : list Z) : X unit :=
  func <- routine OUTD io_address ;; outs valarray (call_outd func io_address).

(** ** Declaring adapters and connecting ports *)

Definition define (k : kind) (adapter : Z) (f : fptr) : X unit :=
  if adapter <? IO_MAX_NUMBER_ADAPTORS then mod_ios (SET_function k adapter f) else undefined.

Definition given (f : fptr) : bool := match f with null => false | _ => true end.
Definition define_given (k : kind) (adapter : Z) (f : fptr) : X unit :=
  when (given f) (define k adapter f).

Definition io_define_inb (adapter : Z) (func : fptr) : X unit :=
  define INB adapter func ;; define INW adapter own ;; define INSB adapter own ;;
  define INSW adapter own ;; define IND adapter own ;; define INSD adapter own.

Definition io_define_in_routines (adapter : Z) (inb_func inw_func insb_func insw_func : fptr) : X unit :=
  define INW adapter own ;; define INSB adapter own ;; define INSW adapter own ;;
  define IND adapter own ;; define INSD adapter own ;;
  define INB adapter inb_func ;; define_given INW adapter inw_func ;;
  define_given INSB adapter insb_func ;; define_given INSW adapter insw_func.

Definition io_define_outb (adapter : Z) (func : fptr) : X unit :=
  define OUTB adapter func ;; define OUTW adapter own ;; define OUTSB adapter own ;;
  define OUTSW adapter own ;; define OUTD adapter own ;; define OUTSD adapter own.

Definition io_define_out_routines (adapter : Z) (outb_func outw_func outsb_func outsw_func : fptr) : X unit :=
  define OUTW adapter own ;; define OUTSB adapter own ;; define OUTSW adapter own ;;
  define OUTD adapter own ;; define OUTSD adapter own ;;
  define OUTB adapter outb_func ;; define_given OUTW adapter outw_func ;;
  define_given OUTSB adapter outsb_func ;; define_given OUTSW adapter outsw_func.

Definition io_define_outd_routine (adapter : Z) (outd_func outsd_func : fptr) : X unit :=
  define OUTB adapter own ;; define OUTW adapter own ;; define OUTD adapter own ;;
  define OUTSB adapter own ;; define OUTSW adapter own ;; define OUTSD adapter own ;;
  define_given OUTD adapter outd_func ;; define_given OUTSD adapter outsd_func.

Definition io_define_ind_routine (adapter : Z) (ind_func insd_func : fptr) : X unit :=
  define INB adapter own ;; define INW adapter own ;; define IND adapter own ;;
  define INSB adapter own ;; define INSW adapter own ;; define INSD adapter own ;;
  define_given IND adapter ind_func ;; define_given INSD adapter insd_func.

Definition io_connect_port (io_address adapter mode : Z) : X unit :=
  when (negb (mode .& IO_READ =? 0)) (mod_ios (SET_in_table (io_address .& (PC_IO_MEM_SIZE - 1)) adapter)) ;;
  when (negb (mode .& IO_WRITE =? 0)) (mod_ios (SET_out_table (io_address .& (PC_IO_MEM_SIZE - 1)) adapter)).

Definition io_disconnect_port (io_address adapter : Z) : X unit :=
  mod_ios (SET_in_table io_address EMPTY_ADAPTOR) ;; mod_ios (SET_out_table io_address EMPTY_ADAPTOR).

Definition get_inb_ptr (io_address : Z) : X fptr := routine INB io_address.
Definition get_outb_ptr (io_address : Z) : X fptr := routine OUTB io_address.

(** The loop over the ports as one update of the tables. *)
Definition io_init : X unit :=
  io_define_inb EMPTY_ADAPTOR own ;; io_define_outb EMPTY_ADAPTOR own ;;
  mod_ios (fun r =>
    let clear t i := if (0 <=? i) && (i <? PC_IO_MEM_SIZE) then EMPTY_ADAPTOR else t i in
    mkIos (clear (Ios_in_adapter_table r)) (clear (Ios_out_adapter_table r)) (Ios_function r)).

(** ** The CPU's instructions *)

Definition IN8 (op2 : Z) : X Z :=
  let port := u16 op2 in f <- routine INB port ;; call_inb f port.
Definition IN16 (op2 : Z) : X Z :=
  let port := u16 op2 in f <- routine INW port ;; call_inw f port.
Definition IN32 (op2 : Z) : X Z :=
  low <- IN16 op2 ;; temp <- IN16 (u32 (op2 + 2)) ;; ret (u32 (low + (temp .<< 16))).
Definition OUT8 (op1 op2 : Z) : X unit :=
  let port := u16 op1 in f <- routine OUTB port ;; call_outb f port (u8 op2).
Definition OUT16 (op1 op2 : Z) : X unit :=
  let port := u16 op1 in f <- routine OUTW port ;; call_outw f port (u16 op2).
Definition OUT32 (op1 op2 : Z) : X unit :=
  OUT16 op1 (op2 .& 0xffff) ;; OUT16 (u32 (op1 + 2)) (op2 .>> 16).

(** ** The emulator's own accesses *)

Section Virtualised.
Context `{HasCpu S}.
(** Run the guest instruction at the offset of the segment with EAX, DS and EDX set,
    and give EAX. *)
Context (biosDoInst : Z -> Z -> Z -> Z -> Z -> X Z).
(** [code_sel] when [selectors_set]. *)
Context (selectors : S -> option Z).

Definition BIOS_VIRTUALISE_SEGMENT : Z := 0xf000.
Definition BIOS_INB_OFFSET : Z := 0x3020.
Definition BIOS_INW_OFFSET : Z := 0x3030.
Definition BIOS_IND_OFFSET : Z := 0x3040.
Definition BIOS_OUTB_OFFSET : Z := 0x3050.
Definition BIOS_OUTW_OFFSET : Z := 0x3060.
Definition BIOS_OUTD_OFFSET : Z := 0x3070.

(** The value when the access went to the guest. *)
Definition c_IOVirtualised (port value offset : Z) : X (option Z) :=
  vm <- getc (fun c => VM (fl c)) ;;
  cpl <- getc CPL ;;
  iopl <- getc (fun c => IOPL (fl c)) ;;
  if negb (vm =? 0) then r <- biosDoInst BIOS_VIRTUALISE_SEGMENT offset value 0 port ;; ret (Some r)
  else if iopl <? cpl then
    sel <- gets selectors ;;
    match sel with
    | None => ret None
    | Some code_sel => r <- biosDoInst code_sel offset value 0 port ;; ret (Some r)
    end
  else ret None.

(** The [IN] instruction is given an EAX that has not been set: [value32]. *)
Context (value32 : Z).

Definition inb (io_address : Z) : X Z :=
  v <- c_IOVirtualised io_address value32 BIOS_INB_OFFSET ;;
  match v with
  | Some v => ret (u8 v)
  | None => f <- routine INB io_address ;; call_inb f io_address
  end.
Definition outb (io_address value : Z) : X unit :=
  v <- c_IOVirtualised io_address value BIOS_OUTB_OFFSET ;;
  match v with
  | Some _ => ret tt
  | None => f <- routine OUTB io_address ;; call_outb f io_address value
  end.
Definition inw (io_address : Z) : X Z :=
  v <- c_IOVirtualised io_address value32 BIOS_INW_OFFSET ;;
  match v with
  | Some v => ret (u16 v)
  | None => f <- routine INW io_address ;; call_inw f io_address
  end.
Definition outw (io_address value : Z) : X unit :=
  v <- c_IOVirtualised io_address value BIOS_OUTW_OFFSET ;;
  match v with
  | Some _ => ret tt
  | None => f <- routine OUTW io_address ;; call_outw f io_address value
  end.
Definition ind (io_address : Z) : X Z :=
  v <- c_IOVirtualised io_address value32 BIOS_IND_OFFSET ;;
  match v with
  | Some v => ret v
  | None =>
      low <- inw io_address ;;
      high <- inw (u16 (io_address + 2)) ;;
      ret (low .| (high .<< 16))
  end.
Definition outd (io_address value : Z) : X unit :=
  v <- c_IOVirtualised io_address value BIOS_OUTD_OFFSET ;;
  match v with
  | Some _ => ret tt
  | None =>
      outw io_address (u16 (value .& 0xffff)) ;;
      outw (u16 (io_address + 2)) (u16 (value .>> 16))
  end.

End Virtualised.
End Routing.

(** ** Building the bus *)

(** The routines of an adapter are there. *)
Definition in_kinds : list kind := [INB; INW; IND; INSB; INSW; INSD].
Definition out_kinds : list kind := [OUTB; OUTW; OUTD; OUTSB; OUTSW; OUTSD].
Definition serves (ks : list kind) (r : ios) (a : Z) : Prop :=
  0 <= a < IO_MAX_NUMBER_ADAPTORS /\ Forall (fun k => Ios_function r k a <> null) ks.

Definition plugged (r : ios) (a_in a_out : Z) : Prop := serves in_kinds r a_in /\ serves out_kinds r a_out.
Definition wired (r : ios) : Prop :=
  plugged r EMPTY_ADAPTOR EMPTY_ADAPTOR /\
  forall p, 0 <= p < PC_IO_MEM_SIZE -> plugged r (Ios_in_adapter_table r p) (Ios_out_adapter_table r p).

(** The calls a device makes when it is initialised or removed. *)
Inductive wiring :=
| DefineIn (adapter : Z) (inb_func inw_func insb_func insw_func : fptr)
| DefineOut (adapter : Z) (outb_func outw_func outsb_func outsw_func : fptr)
| DefineInd (adapter : Z) (ind_func insd_func : fptr)
| DefineOutd (adapter : Z) (outd_func outsd_func : fptr)
| Connect (io_address adapter mode : Z)
| Disconnect (io_address adapter : Z).

Definition perform {E S} `{HasIos S} (w : wiring) : M E S unit :=
  match w with
  | DefineIn a b w sb sw => io_define_in_routines a b w sb sw
  | DefineOut a b w sb sw => io_define_out_routines a b w sb sw
  | DefineInd a d sd => io_define_ind_routine a d sd
  | DefineOutd a d sd => io_define_outd_routine a d sd
  | Connect p a m => io_connect_port p a m
  | Disconnect p a => io_disconnect_port p a
  end.

(** An adapter number in the tables, with a byte routine; ports connected to adapters
    declared before. *)
Definition allowed (w : wiring) (r : ios) : Prop :=
  match w with
  | DefineIn a b _ _ _ | DefineOut a b _ _ _ => 0 <= a < IO_MAX_NUMBER_ADAPTORS /\ b <> null
  | DefineInd a _ _ | DefineOutd a _ _ => 0 <= a < IO_MAX_NUMBER_ADAPTORS
  | Connect p a m =>
      (m .& IO_READ <> 0 -> serves in_kinds r a) /\ (m .& IO_WRITE <> 0 -> serves out_kinds r a)
  | Disconnect p _ => 0 <= p < PC_IO_MEM_SIZE
  end.

(** States of the bus after [io_init], wiring and the work of devices. *)
Inductive built {S} `{HasIos S} (E : Type) : S -> Prop :=
| built_init s s' : io_init (E := E) s = Ret tt s' -> built E s'
| built_wire s w s' : built E s -> allowed w (the_ios s) -> perform (E := E) w s = Ret tt s' -> built E s'
| built_work s s' : built E s -> the_ios s' = the_ios s -> built E s'.

(** Device routines that return, and rewire nothing. *)
Definition steady {S A E} `{HasIos S} (m : M E S A) : Prop :=
  forall s, exists a s', m s = Ret a s' /\ the_ios s' = the_ios s.
Class SteadyAdapters (E S : Type) `{HasIos S} `{Adapters E S} : Prop := {
  steady_inb id p : steady (dev_inb id p);
  steady_inw id p : steady (dev_inw id p);
  steady_outb id p v : steady (dev_outb id p v);
  steady_outw id p v : steady (dev_outw id p v)
}.

Section Bus.
Context {E S : Type} `{HasIos S} `{Adapters E S}.
Abbreviation X := (M E S).

(** *** The invariant *)

Definition keeps (m : X unit) : Prop :=
  forall s s', m s = Ret tt s' -> wired (the_ios s) -> wired (the_ios s').

Lemma keeps_bind m k : keeps m -> keeps k -> keeps (m ;; k).
Proof.
  intros Hm Hk s s'. unfold bind. destruct (m s) as [[] s1 | |] eqn:Es; try discriminate.
  intros Ek Hw. exact (Hk s1 s' Ek (Hm s s1 Es Hw)).
Qed.

Lemma serves_function ks r b k a f : f <> null -> serves ks r b -> serves ks (SET_function k a f r) b.
Proof.
  intros Hf [Hb Hk]. split; [exact Hb |]. eapply Forall_impl; [exact Hk |]. cbn. intros k' Hn.
  destruct (decide (k' = k)) as [-> |]; [| exact Hn]. unfold update. destruct (b =? a); assumption.
Qed.

Lemma keeps_define k a f : f <> null -> keeps (define k a f).
Proof.
  intros Hf s s'. unfold define. destruct (a <? IO_MAX_NUMBER_ADAPTORS); [| discriminate].
  intros [= <-] [[He He'] Hw]. rewrite the_put_ios.
  split; [split; apply serves_function; assumption |].
  intros p Hp. destruct (Hw p Hp). split; apply serves_function; assumption.
Qed.

Lemma keeps_given k a f : keeps (define_given k a f).
Proof.
  unfold define_given. destruct f; cbn; try (apply keeps_define; discriminate).
  intros s s' [= <-] Hw. exact Hw.
Qed.

Lemma keeps_table (b : bool) p a (into : bool) s s' :
  0 <= p < PC_IO_MEM_SIZE -> (b = true -> serves (if into then in_kinds else out_kinds) (the_ios s) a) ->
  when b (mod_ios (if into then SET_in_table p a else SET_out_table p a)) s = Ret (E := E) tt s' ->
  wired (the_ios s) -> wired (the_ios s') /\ Ios_function (the_ios s') = Ios_function (the_ios s).
Proof.
  intros Hp Ha Hm Hw. destruct b; injection Hm as <-; [| tauto].
  rewrite the_put_ios. specialize (Ha eq_refl). destruct Hw as [He Hw].
  destruct into; (split; [split; [exact He |] | reflexivity]);
    intros q Hq; destruct (Hw q Hq); cbn; unfold update; destruct (q =? p); split; assumption.
Qed.

Lemma keeps_tables rd wr p a s s' : 0 <= p < PC_IO_MEM_SIZE ->
  (rd = true -> serves in_kinds (the_ios s) a) -> (wr = true -> serves out_kinds (the_ios s) a) ->
  (when rd (mod_ios (SET_in_table p a)) ;; when wr (mod_ios (SET_out_table p a))) s = Ret (E := E) tt s' ->
  wired (the_ios s) -> wired (the_ios s').
Proof.
  intros Hp Hr Ho Hm Hw. unfold bind in Hm.
  destruct (when rd _ s) as [[] s1 | |] eqn:E1; try discriminate.
  destruct (keeps_table rd p a true s s1 Hp Hr E1 Hw) as [Hw1 Hf].
  refine (proj1 (keeps_table wr p a false s1 s' Hp _ Hm Hw1)).
  intros Hwr. destruct (Ho Hwr) as [Ha Hs]. split; [exact Ha |]. rewrite Hf. exact Hs.
Qed.

Lemma port_index p : 0 <= p .& (PC_IO_MEM_SIZE - 1) < PC_IO_MEM_SIZE.
Proof.
  change (PC_IO_MEM_SIZE - 1) with (Z.ones 16). rewrite Z.land_ones by lia.
  apply Z.mod_pos_bound. reflexivity.
Qed.

Lemma perform_keeps w s s' :
  allowed w (the_ios s) -> perform (E := E) w s = Ret tt s' -> wired (the_ios s) -> wired (the_ios s').
Proof.
  destruct w; cbn [allowed perform]; intros Ha.
  1-4: match goal with |- ?m ?t = Ret _ ?t' -> _ => enough (Hk : keeps m) by exact (Hk t t') end;
    repeat (apply keeps_bind); try apply keeps_given; apply keeps_define; first [apply Ha | discriminate].
  - apply keeps_tables; [apply port_index | |]; intros Hb; apply Ha;
      destruct (_ =? 0) eqn:Ez in Hb; first [discriminate | apply Z.eqb_neq; exact Ez].
  - intros Hm Hw. destruct (proj1 Hw) as [Hi Ho].
    exact (keeps_tables true true io_address EMPTY_ADAPTOR s s' Ha (fun _ => Hi) (fun _ => Ho) Hm Hw).
Qed.

Lemma init_wired s s' : io_init (E := E) s = Ret tt s' -> wired (the_ios s').
Proof.
  intros [= <-]. rewrite !the_put_ios. cbv zeta. split.
  - split; (split; [split; reflexivity || discriminate | repeat constructor; discriminate]).
  - intros p [Hp Hp']. cbn. apply Z.leb_le in Hp. apply Z.ltb_lt in Hp'. rewrite Hp, Hp'.
    split; (split; [split; reflexivity || discriminate | repeat constructor; discriminate]).
Qed.

Lemma built_wired s : built E s -> wired (the_ios s).
Proof.
  induction 1 as [s s' Hi | s w s' _ IH Ha Hp | s s' _ IH Hs].
  - exact (init_wired s s' Hi).
  - exact (perform_keeps w s s' Ha Hp IH).
  - rewrite Hs. exact IH.
Qed.

(** *** Accesses on a wired bus *)

Context `{!SteadyAdapters E S}.

(** On a wired bus the computation returns, with a result in [Q], and rewires
    nothing. *)
Definition works {A} (Q : A -> Prop) (m : X A) : Prop := forall s, wired (the_ios s) ->
  exists a s', m s = Ret a s' /\ the_ios s' = the_ios s /\ Q a.

Lemma works_bind {A B} (Q : A -> Prop) (R : B -> Prop) m k :
  works Q m -> (forall a, Q a -> works R (k a)) -> works R (bind m k).
Proof.
  intros Hm Hk s Hw. destruct (Hm s Hw) as (a & s1 & Es & Ei & Ha).
  rewrite <- Ei in Hw. destruct (Hk a Ha s1 Hw) as (b & s2 & Es' & Ei' & Hb).
  exists b, s2. unfold bind. rewrite Es. split; [exact Es' |]. split; [congruence | exact Hb].
Qed.

Lemma works_ret {A} (Q : A -> Prop) a : Q a -> works Q (ret a).
Proof. intros Ha s _. exists a, s. auto. Qed.

Lemma works_steady {A} (m : X A) : steady m -> works (fun _ => True) m.
Proof. intros Hm s _. destruct (Hm s) as (a & s' & Es & Ei). eauto. Qed.

Lemma sgn_adapter a : 0 <= a < IO_MAX_NUMBER_ADAPTORS -> sgn 8 a = a.
Proof.
  unfold IO_MAX_NUMBER_ADAPTORS. intros Ha. unfold sgn. cbv zeta.
  rewrite Z.mod_small, (proj2 (Z.ltb_lt _ _)) by lia. reflexivity.
Qed.

Lemma works_routine k p : works (fun f => f <> null) (routine k p).
Proof.
  intros s [_ Hw]. destruct (Hw _ (port_index p)) as [[Hi Hin] [Ho Hout]].
  eexists _, s. unfold routine, bind, get_ios, gets.
  assert (Hr : 0 <= adapter_of k (the_ios s) (p .& (PC_IO_MEM_SIZE - 1)) < IO_MAX_NUMBER_ADAPTORS)
    by (destruct k; assumption).
  rewrite sgn_adapter by exact Hr.
  rewrite (proj2 (Z.leb_le _ _) (proj1 Hr)), (proj2 (Z.ltb_lt _ _) (proj2 Hr)). cbn [andb].
  split; [reflexivity |]. split; [reflexivity |].
  rewrite Forall_forall in Hin, Hout.
  destruct k; cbn [adapter_of]; (apply Hin || apply Hout); rewrite list_elem_of_In; cbn; tauto.
Qed.

Abbreviation byte v := (0 <= v < 2 ^ 8).
Abbreviation word v := (0 <= v < 2 ^ 16).

Lemma works_inb f p : f <> null -> works (fun v => byte v) (call_inb f p).
Proof.
  intros Hf. destruct f; [congruence | apply works_ret; unfold IO_EMPTY_PORT_BYTE_VALUE; lia |].
  eapply works_bind; [apply works_steady, steady_inb |]. intros a _. apply works_ret, u8_range.
Qed.

Lemma works_outb f p v : f <> null -> works (fun _ => True) (call_outb f p v).
Proof.
  intros Hf. destruct f; [congruence | apply works_ret; exact I | apply works_steady, steady_outb].
Qed.

Lemma works_inw f p : f <> null -> works (fun v => word v) (call_inw f p).
Proof.
  intros Hf. destruct f; [congruence | |].
  - eapply works_bind; [apply works_routine | intros f Hn].
    eapply works_bind; [apply works_inb, Hn | intros low Hl].
    eapply works_bind; [apply works_routine | intros f' Hn'].
    eapply works_bind; [apply works_inb, Hn' | intros high Hh]. apply works_ret. cbv beta in *. lia.
  - eapply works_bind; [apply works_steady, steady_inw |]. intros a _. apply works_ret, u16_range.
Qed.

Lemma works_outw f p v : f <> null -> works (fun _ => True) (call_outw f p v).
Proof.
  intros Hf. destruct f; [congruence | | apply works_steady, steady_outw].
  eapply works_bind; [apply works_routine | intros f Hn].
  eapply works_bind; [apply works_outb, Hn | intros _ _].
  eapply works_bind; [apply works_routine | intros f' Hn']. apply works_outb, Hn'.
Qed.

Lemma works_IN16 p : works (fun v => word v) (IN16 p).
Proof. eapply works_bind; [apply works_routine | intros f Hf; apply works_inw, Hf]. Qed.
Lemma works_OUT16 p v : works (fun _ => True) (OUT16 p v).
Proof. eapply works_bind; [apply works_routine | intros f Hf; apply works_outw, Hf]. Qed.

Lemma works_IN8 p : works (fun v => byte v) (IN8 p).
Proof. eapply works_bind; [apply works_routine | intros f Hf; apply works_inb, Hf]. Qed.
Lemma works_OUT8 p v : works (fun _ => True) (OUT8 p v).
Proof. eapply works_bind; [apply works_routine | intros f Hf; apply works_outb, Hf]. Qed.

(** *** Wide accesses in bytes *)

(** The port's adapter has no routine of its own in the table. *)
Definition generic_at (k : kind) (r : ios) (port : Z) : Prop :=
  Ios_function r k (adapter_of k r (u16 port)) = own.

Lemma port_u32 x : u16 (u32 x) = u16 x.
Proof. unfold u16, u32. apply mod_mod_le. lia. Qed.
Lemma u16_u16_add x y : u16 (u16 x + y) = u16 (x + y).
Proof. unfold u16. apply Zplus_mod_idemp_l. Qed.
Lemma u16_idem x : u16 (u16 x) = u16 x.
Proof. unfold u16. apply Z.mod_mod. lia. Qed.

Lemma u8_u16 x : u8 (u16 x) = u8 x.
Proof. unfold u8, u16. apply mod_mod_le. lia. Qed.
Lemma u8_shift_u16 x : u8 (u16 x .>> 8) = u8 (x .>> 8).
Proof.
  unfold u8, u16. rewrite <- !Z.land_ones by lia. rewrite Z.shiftr_land, <- Z.land_assoc. reflexivity.
Qed.

Lemma routine_run k p s : wired (the_ios s) ->
  routine (E := E) k p s = Ret (Ios_function (the_ios s) k (adapter_of k (the_ios s) (u16 p))) s.
Proof.
  intros [_ Hw]. unfold routine, bind, get_ios, gets.
  change (PC_IO_MEM_SIZE - 1) with (Z.ones 16). rewrite Z.land_ones by lia. fold (u16 p).
  destruct (Hw (u16 p)) as [[Hi _] [Ho _]]; [apply u16_range |].
  assert (Ha : 0 <= adapter_of k (the_ios s) (u16 p) < IO_MAX_NUMBER_ADAPTORS) by (destruct k; assumption).
  rewrite sgn_adapter, (proj2 (Z.leb_le _ _) (proj1 Ha)), (proj2 (Z.ltb_lt _ _) (proj2 Ha)) by exact Ha.
  reflexivity.
Qed.

Lemma IN16_bytes p s : wired (the_ios s) -> generic_at INW (the_ios s) p ->
  IN16 p s = (low <- IN8 p ;; high <- IN8 (u32 (p + 1)) ;; ret (low + 2 ^ 8 * high)) s.
Proof.
  intros Hw Hg. unfold IN16. unfold bind at 1. rewrite routine_run, u16_idem, Hg by exact Hw.
  cbn [call_inw]. unfold generic_inw, IN8. cbv zeta.
  rewrite port_u32, u16_u16_add. unfold bind.
  destruct (routine INB (u16 p) s) as [f s1 | |]; try reflexivity.
  destruct (call_inb f (u16 p) s1) as [b s2 | |]; try reflexivity.
  destruct (routine INB _ s2) as [f' s3 | |]; reflexivity.
Qed.

Lemma OUT16_bytes p v s : wired (the_ios s) -> generic_at OUTW (the_ios s) p ->
  OUT16 p v s = (OUT8 p v ;; OUT8 (u32 (p + 1)) (v .>> 8)) s.
Proof.
  intros Hw Hg. unfold OUT16. unfold bind at 1. rewrite routine_run, u16_idem, Hg by exact Hw.
  cbn [call_outw]. unfold generic_outw, OUT8. cbv zeta.
  rewrite port_u32, u16_u16_add. rewrite u8_u16, u8_shift_u16. unfold bind.
  destruct (routine OUTB (u16 p) s) as [f s1 | |]; try reflexivity.
Qed.

Lemma generic_u32 k r p : generic_at k r (u32 p) <-> generic_at k r p.
Proof. unfold generic_at. rewrite port_u32. reflexivity. Qed.
Lemma u32_u32_add p i : u32 (u32 p + i) = u32 (p + i).
Proof. unfold u32. apply Zplus_mod_idemp_l. Qed.

Lemma OUT8_low p v w : u8 v = u8 w -> OUT8 p v = OUT8 p w.
Proof. intros E8. unfold OUT8. rewrite E8. reflexivity. Qed.

Lemma IN32_bytes p s : wired (the_ios s) ->
  generic_at INW (the_ios s) p -> generic_at INW (the_ios s) (p + 2) ->
  IN32 p s =
    (b0 <- IN8 p ;; b1 <- IN8 (u32 (p + 1)) ;; b2 <- IN8 (u32 (p + 2)) ;; b3 <- IN8 (u32 (p + 3)) ;;
     ret (b0 + 2 ^ 8 * b1 + 2 ^ 16 * b2 + 2 ^ 24 * b3)) s.
Proof.
  intros Hw Hg Hg'. unfold IN32. unfold bind at 1. rewrite IN16_bytes by assumption. unfold bind at 1 2 4 5.
  destruct (works_IN8 p s Hw) as (b0 & s1 & -> & E1 & B0).
  destruct (works_IN8 (u32 (p + 1)) s1) as (b1 & s2 & -> & E2 & B1); [congruence |]. cbn [ret].
  unfold bind at 1. rewrite IN16_bytes by (rewrite ?generic_u32; congruence).
  unfold bind. destruct (works_IN8 (u32 (p + 2)) s2) as (b2 & s3 & -> & E3 & B2); [congruence |].
  rewrite u32_u32_add, <- Z.add_assoc. change (2 + 1) with 3.
  destruct (works_IN8 (u32 (p + 3)) s3) as (b3 & s4 & -> & E4 & B3); [congruence |].
  unfold ret. f_equal. rewrite Z.shiftl_mul_pow2 by lia. cbv beta in *. rewrite !u32_small by (rewrite ?u32_small; lia). lia.
Qed.

Lemma OUT32_bytes p v s : wired (the_ios s) ->
  generic_at OUTW (the_ios s) p -> generic_at OUTW (the_ios s) (p + 2) ->
  OUT32 p v s =
    (OUT8 p v ;; OUT8 (u32 (p + 1)) (v .>> 8) ;; OUT8 (u32 (p + 2)) (v .>> 16) ;; OUT8 (u32 (p + 3)) (v .>> 24)) s.
Proof.
  intros Hw Hg Hg'. unfold OUT32. unfold bind at 1. rewrite OUT16_bytes by assumption. unfold bind at 1 2 3.
  change (v .& 0xffff) with (v .& Z.ones 16). rewrite Z.land_ones by lia. fold (u16 v).
  rewrite (OUT8_low p (u16 v) v (u8_u16 v)), (OUT8_low (u32 (p + 1)) (u16 v .>> 8) (v .>> 8) (u8_shift_u16 v)).
  destruct (works_OUT8 p v s Hw) as ([] & s1 & -> & E1 & _).
  destruct (works_OUT8 (u32 (p + 1)) (v .>> 8) s1) as ([] & s2 & -> & E2 & _); [congruence |].
  rewrite OUT16_bytes by (rewrite ?generic_u32; congruence).
  rewrite u32_u32_add, <- Z.add_assoc, Z.shiftr_shiftr by lia. reflexivity.
Qed.

End Bus.

(** ** Theorems *)


(** Wide port accesses are the byte accesses in ascending order: where the
    adapters of the ports have no word routines of their own, IN and OUT of a word are
    those of its two bytes, and of a double word of its four bytes, low byte at the
    first port, ports taken modulo 64K. *)
Theorem wide_access_bytes {E S : Type} `{HI : HasIos S} `{HA : Adapters E S} `{HS : !SteadyAdapters E S} (s : S) (p v : Z) :
  built E s ->
  generic_at INW (the_ios s) p -> generic_at INW (the_ios s) (p + 2) ->
  generic_at OUTW (the_ios s) p -> generic_at OUTW (the_ios s) (p + 2) ->
  IN16 (E := E) p s = (b0 <- IN8 p ;; b1 <- IN8 (u32 (p + 1)) ;; ret (b0 + 2 ^ 8 * b1)) s /\
  IN32 (E := E) p s =
    (b0 <- IN8 p ;; b1 <- IN8 (u32 (p + 1)) ;; b2 <- IN8 (u32 (p + 2)) ;; b3 <- IN8 (u32 (p + 3)) ;;
     ret (b0 + 2 ^ 8 * b1 + 2 ^ 16 * b2 + 2 ^ 24 * b3)) s /\
  OUT16 (E := E) p v s = (OUT8 p v ;; OUT8 (u32 (p + 1)) (v .>> 8)) s /\
  OUT32 (E := E) p v s =
    (OUT8 p v ;; OUT8 (u32 (p + 1)) (v .>> 8) ;; OUT8 (u32 (p + 2)) (v .>> 16) ;; OUT8 (u32 (p + 3)) (v .>> 24)) s.
Proof.
  intros Hw%built_wired Gi Gi' Go Go'.
  split; [exact (IN16_bytes p s Hw Gi) |]. split; [exact (IN32_bytes p s Hw Gi Gi') |].
  split; [exact (OUT16_bytes p v s Hw Go) | exact (OUT32_bytes p v s Hw Go Go')].
Qed.

(** ** A small board *)

(** The tables alone as the state, and devices that give their number. *)
#[local] Instance HasIos_ios : HasIos ios :=
  {| the_ios r := r; put_ios r _ := r; the_put_ios r _ := eq_refl |}.
#[local] Instance numbered : Adapters Empty_set ios :=
  {| dev_inb id _ := ret id; dev_inw id _ := ret id; dev_ind id _ := ret id;
     dev_outb _ _ _ := ret tt; dev_outw _ _ _ := ret tt; dev_outd _ _ _ := ret tt |}.
#[local] Instance numbered_steady : SteadyAdapters Empty_set ios.
Proof. split; intros; intros s; cbn; unfold ret; eauto. Qed.

Definition blank : ios := mkIos (fun _ => 99) (fun _ => 99) (fun _ _ => null).
Definition run (w : wiring) (r : ios) : ios := match perform (E := Empty_set) w r with Ret _ r' => r' | _ => r end.
Definition empty_bus : ios := match io_init (E := Empty_set) blank with Ret _ r => r | _ => blank end.
(** Port 0x60 to an adapter with a byte routine, port 0x70 to one with only a double
    word routine. *)
Definition board : ios :=
  run (Connect 0x70 6 IO_READ_WRITE)
    (run (DefineOutd 6 (dev 9) null) (run (DefineInd 6 (dev 9) null)
      (run (Connect 0x60 5 IO_READ) (run (DefineIn 5 (dev 7) null null null) empty_bus)))).

Lemma serves_here ks r a : (0 <=? a) && (a <? IO_MAX_NUMBER_ADAPTORS) = true ->
  forallb (fun k => given (Ios_function r k a)) ks = true -> serves ks r a.
Proof.
  intros Ha Hk. apply andb_prop in Ha as [Ha Ha']. split; [split; [apply Z.leb_le | apply Z.ltb_lt]; assumption |].
  apply Forall_forall. intros k Hin. apply list_elem_of_In in Hin.
  pose proof (proj1 (forallb_forall _ _) Hk k Hin) as Hg. cbv beta in *.
  destruct (Ios_function r k a); [discriminate Hg | discriminate ..].
Qed.

Lemma built_run w r r' : built Empty_set r -> allowed w r -> perform (E := Empty_set) w r = Ret tt r' ->
  built Empty_set (run w r).
Proof. intros Hr Ha Hp. unfold run. rewrite Hp. exact (built_wire _ r w r' Hr Ha Hp). Qed.

Lemma board_built : built Empty_set board.
Proof.
  unfold board.
  repeat match goal with |- built _ (run _ _) => eapply built_run; [| | reflexivity] end;
    [eapply built_init; reflexivity | ..];
    repeat match goal with |- _ /\ _ => split | |- allowed _ _ => cbn [allowed] end;
    try discriminate; try reflexivity; intros Hm; try (case Hm; reflexivity); apply serves_here; reflexivity.
Qed.


Lemma wide_access_bytes_witness :
  IN32 (E := Empty_set) 0x5f board = Ret (0xff + 2 ^ 8 * 7 + 2 ^ 16 * 0xff + 2 ^ 24 * 0xff) board.
Proof.
  rewrite (proj1 (proj2 (wide_access_bytes (E := Empty_set) board 0x5f 0 board_built eq_refl eq_refl eq_refl eq_refl))).
  reflexivity.
Defined.

(** The double word routine of an adapter is in the table and no double word access
    reaches it. *)
Lemma double_word_routine_ignored :
  Ios_function board IND 6 = dev 9 /\ IN32 (E := Empty_set) 0x70 board = Ret 0xffffffff board.
Proof. split; reflexivity. Qed.

End Ios.
