(* ===== verification/Oprnd.v ===== *)
(** * Operand decoding

    The macros of [c_oprnd.h], with the instruction stream of [c_main.c] and [c_mem.h]:
    the host pointer into the memory array that stands for EIP while an instruction is
    decoded ([GET_INST_BYTE], [ccpu_new_code_page], [SETUP_HOST_IP], [UPDATE_INTEL_IP]).

    The macros write the globals [ops], [m_seg], [m_off], [m_la], [m_pa] and [save_id];
    every instruction sets those it reads, so here they are values: a decoded operand is
    a register or a pair of a linear and a physical address.  Macros that differ in the
    operand size only are one definition over the size in bits, with the names of the
    source for its instances. *)

From S2P Require Import Prelude Cpu Debug Arith Shift Xcptn MulDiv Mem Tlb Page Basic Seg Virt Addr Stack Wp Ios.

Module Oprnd.
Import Debug Xcptn Tlb Page Basic Seg Virt Addr.

(** The memory array the host pointer walks over; [None] is outside the array. *)
Class CodeMem (P : Type) := {
  SasWrapMask : P -> Z;
  CCPU_M : P -> Z -> option Z
}.

(** The array of the physical memory routines. *)
#[export] Instance sas_code V : CodeMem (Mem.sas V) := {|
  SasWrapMask := Mem.SasWrapMask;
  CCPU_M := fun m i => if (0 <=? i) && (i <? Mem.Length_of_M_area m) then Some (Mem.M_area m i) else None
|}.

(** ** The state of [c_main.c]

    [core] is the machine of the other files.  [p] and [p_start] are indexes into
    [CCPU_M], [None] for the null pointer.  [TR_cache] are the test registers that only
    a snapshot writes.  [host] is the state of devices and host that the CPU does not
    see. *)

Record exec (P D : Type) := mkExec {
  core : mach P;
  p : option Z;
  p_start : option Z;
  pg_end : Z;
  quick_mode : bool;
  start_trap : Z;
  cpu_interrupt_map : Z;
  cpu_heartbeat : Z;
  in_C : Z;
  TR_cache : Z -> Z;
  bus : Ios.ios;
  host : D
}.
Arguments mkExec {P D} _ _ _ _ _ _ _ _ _ _ _ _.
Arguments core {P D} _.
Arguments p {P D} _.
Arguments p_start {P D} _.
Arguments pg_end {P D} _.
Arguments quick_mode {P D} _.
Arguments start_trap {P D} _.
Arguments cpu_interrupt_map {P D} _.
Arguments cpu_heartbeat {P D} _.
Arguments in_C {P D} _.
Arguments TR_cache {P D} _ _.
Arguments bus {P D} _.
Arguments host {P D} _.

Section Fields.
Context {P D : Type}.
Definition SET_core (x : mach P) (s : exec P D) : exec P D :=
  mkExec x (p s) (p_start s) (pg_end s) (quick_mode s) (start_trap s) (cpu_interrupt_map s) (cpu_heartbeat s) (in_C s) (TR_cache s) (bus s) (host s).
Definition SET_p (x : option Z) (s : exec P D) : exec P D :=
  mkExec (core s) x (p_start s) (pg_end s) (quick_mode s) (start_trap s) (cpu_interrupt_map s) (cpu_heartbeat s) (in_C s) (TR_cache s) (bus s) (host s).
Definition SET_p_start (x : option Z) (s : exec P D) : exec P D :=
  mkExec (core s) (p s) x (pg_end s) (quick_mode s) (start_trap s) (cpu_interrupt_map s) (cpu_heartbeat s) (in_C s) (TR_cache s) (bus s) (host s).
Definition SET_pg_end (x : Z) (s : exec P D) : exec P D :=
  mkExec (core s) (p s) (p_start s) x (quick_mode s) (start_trap s) (cpu_interrupt_map s) (cpu_heartbeat s) (in_C s) (TR_cache s) (bus s) (host s).
Definition SET_quick_mode (x : bool) (s : exec P D) : exec P D :=
  mkExec (core s) (p s) (p_start s) (pg_end s) x (start_trap s) (cpu_interrupt_map s) (cpu_heartbeat s) (in_C s) (TR_cache s) (bus s) (host s).
Definition SET_start_trap (x : Z) (s : exec P D) : exec P D :=
  mkExec (core s) (p s) (p_start s) (pg_end s) (quick_mode s) x (cpu_interrupt_map s) (cpu_heartbeat s) (in_C s) (TR_cache s) (bus s) (host s).
Definition SET_cpu_interrupt_map (x : Z) (s : exec P D) : exec P D :=
  mkExec (core s) (p s) (p_start s) (pg_end s) (quick_mode s) (start_trap s) x (cpu_heartbeat s) (in_C s) (TR_cache s) (bus s) (host s).
Definition SET_cpu_heartbeat (x : Z) (s : exec P D) : exec P D :=
  mkExec (core s) (p s) (p_start s) (pg_end s) (quick_mode s) (start_trap s) (cpu_interrupt_map s) x (in_C s) (TR_cache s) (bus s) (host s).
Definition SET_in_C (x : Z) (s : exec P D) : exec P D :=
  mkExec (core s) (p s) (p_start s) (pg_end s) (quick_mode s) (start_trap s) (cpu_interrupt_map s) (cpu_heartbeat s) x (TR_cache s) (bus s) (host s).
Definition SET_TR_cache (x : Z -> Z) (s : exec P D) : exec P D :=
  mkExec (core s) (p s) (p_start s) (pg_end s) (quick_mode s) (start_trap s) (cpu_interrupt_map s) (cpu_heartbeat s) (in_C s) x (bus s) (host s).
Definition SET_bus (x : Ios.ios) (s : exec P D) : exec P D :=
  mkExec (core s) (p s) (p_start s) (pg_end s) (quick_mode s) (start_trap s) (cpu_interrupt_map s) (cpu_heartbeat s) (in_C s) (TR_cache s) x (host s).
Definition SET_host (x : D) (s : exec P D) : exec P D :=
  mkExec (core s) (p s) (p_start s) (pg_end s) (quick_mode s) (start_trap s) (cpu_interrupt_map s) (cpu_heartbeat s) (in_C s) (TR_cache s) (bus s) x.
End Fields.

#[export] Instance HasCpu_exec P D : HasCpu (exec P D).
Proof.
  refine {| the_cpu := fun s => mcpu (core s);
            put_cpu := fun c s => SET_core (put_cpu c (core s)) s |};
    intros; try destruct s as [m ? ? ? ? ? ? ? ? ? ? ?]; try destruct m; reflexivity.
Defined.

#[export] Instance HasIos_exec P D : Ios.HasIos (exec P D).
Proof. refine {| Ios.the_ios := bus; Ios.put_ios := SET_bus |}. reflexivity. Defined.

(** ** The instruction stream *)

Section Stream.
Context {P D : Type} `{PhyMem P} `{CodeMem P}.

Abbreviation X := (M exn (exec P D)).

(** A routine of the machine. *)
Definition oncore {A} (m : M exn (mach P) A) : X A := fun s =>
  match m (core s) with
  | Ret a x => Ret a (SET_core x s)
  | Raise e x => Raise e (SET_core x s)
  | Undefined => Undefined
  end.

(** [CCPU_INSTRUCTION_DELTA]: the difference of two pointers into the array, or of two
    null pointers. *)
Definition CCPU_INSTRUCTION_DELTA (x start : option Z) : option Z :=
  match x, start with
  | Some x, Some start => Some (u32 (x - start))
  | None, None => Some 0
  | _, _ => None
  end.

Definition delta : X Z :=
  s <- get ;; defined (CCPU_INSTRUCTION_DELTA (p s) (p_start s)).

Definition UPDATE_INTEL_IP : X unit :=
  len <- delta ;;
  oldEIP <- getc ip ;;
  x <- getc (fun c => ar_x (GET_SR CS_REG c)) ;;
  let mask := if (oldEIP <? 0x10000) && (x =? USE16) then 0xFFFF else 0xFFFFFFFF in
  modc (SET_ip (u32 (oldEIP + len) .& mask)).

Definition UPDATE_INTEL_IP_USE_OP_SIZE : X unit :=
  sz <- getc operand_size ;;
  eip <- getc ip ;;
  len <- delta ;;
  modc (SET_ip (if sz =? USE16 then u32 (eip + (len .& WORD_MASK)) else u32 (eip + len))).

Definition CANCEL_HOST_IP : X unit :=
  modify (SET_quick_mode false) ;; modify (fun s => SET_p_start None (SET_p None s)).

(** Sets [p] and [pg_end]. *)
Definition SETUP_HOST_IP : X unit :=
  lin <- getc (fun c => u32 (base (GET_SR CS_REG c) + ip c)) ;;
  phy <- oncore (usr_chk_byte lin PG_R) ;;
  mask <- gets (fun s => SasWrapMask (mmem (core s))) ;;
  let ip_phy_addr := phy .& mask in
  modify (SET_p (Some ip_phy_addr)) ;;
  modify (SET_pg_end (u32 ((ip_phy_addr .& not32 0xfff) + 0x1000))).

(** [*p++] *)
Definition next_byte : X Z := fun s =>
  match p s with
  | None => Undefined
  | Some q =>
      match CCPU_M (mmem (core s)) q with
      | None => Undefined
      | Some b => Ret (u8 b) (SET_p (Some (q + 1)) s)
      end
  end.

Definition ccpu_new_code_page : X Z :=
  eip <- getc ip ;;
  len <- delta ;;
  modc (SET_ip (u32 (eip + len))) ;;
  SETUP_HOST_IP ;;
  modify (fun s => SET_p_start (p s) s) ;;
  next_byte.

(** The null pointer is below [pg_end]. *)
Definition inst_byte : X Z :=
  s <- get ;;
  if match p s with Some q => pg_end s <=? q | None => false end then ccpu_new_code_page else next_byte.

#[export] Instance Fetch_exec : Fetch (exec P D) := { GET_INST_BYTE := inst_byte }.

End Stream.

(** ** Fields of the opcode and of the mod/rm byte *)

Definition GET_REG (x : Z) : Z := (x .>> 3) .& 0x7.
Definition GET_XXX (x : Z) : Z := (x .>> 3) .& 0x7.
Definition GET_SEG (x : Z) : Z := (x .>> 3) .& 0x7.
Definition GET_EEE (x : Z) : Z := (x .>> 3) .& 0x7.
Definition GET_SEG3 (x : Z) : Z := (x .>> 3) .& 0x7.
Definition GET_SEG2 (x : Z) : Z := (x .>> 3) .& 0x7.
Definition GET_LOW3 (x : Z) : Z := x .& 0x7.

(** The repeat prefixes. *)
Definition REP_CLR : Z := 0.
Definition REP_NE : Z := 1.
Definition REP_E : Z := 2.

(** A decoded operand: [save_id], or [m_la] and [m_pa]. *)
Inductive operand := Reg (id : Z) | Mem (la pa : Z).

(** Registers by size. *)
Definition GET_R (sz i : Z) (c : cpu) : Z :=
  if sz =? 8 then GET_BR i c else if sz =? 16 then GET_WR i c else GET_GR i c.
Definition SET_R (sz i x : Z) (c : cpu) : cpu :=
  if sz =? 8 then SET_BR i x c else if sz =? 16 then SET_WR i x c else SET_GR i x c.

Section Operands.
Context {P D : Type} `{PhyMem P} `{CodeMem P}.

Abbreviation X := (M exn (exec P D)).

(** ** Immediates *)

(** [n] bytes of the stream, the low one first. *)
Fixpoint immed (n : nat) (shift : Z) : X Z :=
  match n with
  | O => ret 0
  | S n => b <- GET_INST_BYTE ;; r <- immed n (shift + 8) ;; ret ((b .<< shift) .| r)
  end.

Definition D_Ib : X Z := GET_INST_BYTE.
Definition D_Iw : X Z := immed 2 0.
Definition D_Id : X Z := immed 4 0.
Definition D_Ix : X Z := b <- GET_INST_BYTE ;; ret (if tst (b .& 0x80) then b .| 0xff00 else b).
Definition D_Iy : X Z := b <- GET_INST_BYTE ;; ret (if tst (b .& 0x80) then b .| 0xffffff00 else b).
Definition D_Jb : X Z := b <- GET_INST_BYTE ;; ret (if tst (b .& 0x80) then b .| 0xffffff00 else b).
Definition D_Jw : X Z := w <- immed 2 0 ;; ret (if tst (w .& 0x8000) then w .| 0xffff0000 else w).
Definition D_Jd : X Z := immed 4 0.
(** Offset and segment. *)
Definition D_Aw : X (Z * Z) := off <- immed 2 0 ;; seg <- immed 2 0 ;; ret (off, seg).
Definition D_Ad : X (Z * Z) := off <- immed 4 0 ;; seg <- immed 2 0 ;; ret (off, seg).

(** The immediates of an operand size. *)
Definition D_Iv (sz : Z) : X Z := if sz =? 16 then D_Iw else D_Id.
Definition D_Ixy (sz : Z) : X Z := if sz =? 16 then D_Ix else D_Iy.
Definition D_Jv (sz : Z) : X Z := if sz =? 16 then D_Jw else D_Jd.
Definition D_Av (sz : Z) : X (Z * Z) := if sz =? 16 then D_Aw else D_Ad.

(** ** Access to a segment and its pages *)

Definition RO (seg : Z) : X unit :=
  s <- getc (GET_SR seg) ;; when (negb (tst (ar_r s))) (GP 0).
Definition WO (seg : Z) : X unit :=
  s <- getc (GET_SR seg) ;; when (negb (tst (ar_w s))) (GP 0).
Definition RW (seg : Z) : X unit :=
  s <- getc (GET_SR seg) ;; when (negb (tst (ar_r s)) || negb (tst (ar_w s))) (GP 0).

Definition usr_chk (sz la page : Z) : X Z :=
  oncore (if sz =? 8 then usr_chk_byte la page
          else if sz =? 16 then usr_chk_word la page else usr_chk_dword la page).
Definition vir_read (sz la pa : Z) : X Z :=
  oncore (if sz =? 8 then vir_read_byte la pa
          else if sz =? 16 then vir_read_word la pa else vir_read_dword la pa).
Definition vir_write (sz la pa x : Z) : X unit :=
  oncore (if sz =? 8 then vir_write_byte la pa (u8 x)
          else if sz =? 16 then vir_write_word la pa (u16 x) else vir_write_dword la pa x).

(** [m_la]: the base of the segment and the offset. *)
Definition lin_of (seg off : Z) : X Z := getc (fun c => u32 (base (GET_SR seg c) + off)).

(** The steps every memory operand of one item takes after its offset is known. *)
Definition mem_operand (sz : Z) (TYPE : Z -> X unit) (PAGE seg off : Z) : X operand :=
  TYPE seg ;;
  limit_check seg off 1 (sz / 8) ;;
  la <- lin_of seg off ;;
  pa <- usr_chk sz la PAGE ;;
  ret (Mem la pa).

Definition fetch (sz : Z) (o : operand) : X Z :=
  match o with Reg id => getc (GET_R sz id) | Mem la pa => vir_read sz la pa end.
Definition put (sz : Z) (o : operand) (x : Z) : X unit :=
  match o with Reg id => modc (SET_R sz id x) | Mem la pa => vir_write sz la pa x end.

(** ** The operand of the mod and r/m fields *)

Definition D_E (sz modRM segment_override : Z) (TYPE : Z -> X unit) (PAGE : Z) : X operand :=
  if GET_MODE modRM =? 3 then ret (Reg (GET_R_M modRM))
  else
    let! (seg, off) := d_mem modRM segment_override ;;
    mem_operand sz TYPE PAGE seg off.

Definition D_Eb := D_E 8.
Definition D_Ew := D_E 16.
Definition D_Ed := D_E 32.
Definition F_Eb := fetch 8.
Definition F_Ew := fetch 16.
Definition F_Ed := fetch 32.
Definition P_Eb := put 8.
Definition P_Ew := put 16.
Definition P_Ed := put 32.

(** ** Registers named by the instruction *)

Definition F_G (sz modRM : Z) : X Z := getc (GET_R sz (GET_REG modRM)).
Definition P_G (sz modRM x : Z) : X unit := modc (SET_R sz (GET_REG modRM) x).
Definition F_H (sz opcode : Z) : X Z := getc (GET_R sz (GET_LOW3 opcode)).
Definition P_H (sz opcode x : Z) : X unit := modc (SET_R sz (GET_LOW3 opcode) x).
(** AL, AX or EAX; CL; DX. *)
Definition F_Fax (sz : Z) : X Z := getc (GET_R sz A_EAX).
Definition P_Fax (sz x : Z) : X unit := modc (SET_R sz A_EAX x).
Definition F_Fcl : X Z := getc (GET_BR A_CX).
Definition F_Fdx : X Z := getc (GET_WR A_DX).
Definition F_Rd (modRM : Z) : X Z := getc (GET_GR (GET_R_M modRM)).
Definition P_Rd (modRM x : Z) : X unit := modc (SET_GR (GET_R_M modRM) x).

(** The selector of a segment register; [CCPU_SR] has six. *)
Definition F_SR (i : Z) : X Z :=
  if i <=? GS_REG then getc (fun c => selector (GET_SR i c)) else undefined.
(** [CCPU_CR] has four registers. *)
Definition F_Cd (modRM : Z) : X Z :=
  match GET_EEE modRM with
  | 0 => getc (fun c => CR_STAT (cr c))
  | 1 => getc (fun c => CR_RSVD (cr c))
  | 2 => getc (fun c => CR_PFLA (cr c))
  | 3 => getc (fun c => CR_PDBR (cr c))
  | _ => undefined
  end.
Definition F_Dd (modRM : Z) : X Z := gets (fun s => DR (mdbg (core s)) (GET_EEE modRM)).
Definition F_Td (modRM : Z) : X Z :=
  match GET_EEE modRM with
  | 6 => gets (fun s => TR_TCR (core s))
  | 7 => gets (fun s => TR_TDR (core s))
  | i => gets (fun s => TR_cache s i)
  end.

(** ** Memory operands of more than one item *)

(** The offset of a memory operand. *)
Definition D_M (modRM segment_override : Z) : X Z :=
  if GET_MODE modRM =? 3 then Int6 ;; undefined
  else let! (_, off) := d_mem modRM segment_override ;; ret off.

(** Two operands of the same size. *)
Definition D_pair (sz modRM segment_override : Z) (TYPE : Z -> X unit) (PAGE : Z) : X (operand * operand) :=
  if GET_MODE modRM =? 3 then Int6 ;; undefined
  else
    let! (seg, off) := d_mem modRM segment_override ;;
    TYPE seg ;;
    limit_check seg off 2 (sz / 8) ;;
    la <- lin_of seg off ;;
    pa <- usr_chk sz la PAGE ;;
    off <- getc (address_add off (sz / 8)) ;;
    la2 <- lin_of seg off ;;
    pa2 <- usr_chk sz la2 PAGE ;;
    ret (Mem la pa, Mem la2 pa2).

Definition fetch2 (sz sz2 : Z) (o : operand * operand) : X (Z * Z) :=
  x <- fetch sz (fst o) ;; y <- fetch sz2 (snd o) ;; ret (x, y).

Definition D_Ma16 := D_pair 16.
Definition D_Ma32 := D_pair 32.
Definition D_Mp16 := D_pair 16.
Definition F_Ma16 := fetch2 16 16.
Definition F_Ma32 := fetch2 32 32.
Definition F_Mp16 := fetch2 16 16.

Definition D_Mp32 (modRM segment_override : Z) (TYPE : Z -> X unit) (PAGE : Z) : X (operand * operand) :=
  if GET_MODE modRM =? 3 then Int6 ;; undefined
  else
    let! (seg, off) := d_mem modRM segment_override ;;
    TYPE seg ;;
    limit_check seg off 1 4 ;;
    la <- lin_of seg off ;;
    off <- getc (address_add off 4) ;;
    limit_check seg off 1 2 ;;
    la2 <- lin_of seg off ;;
    pa <- usr_chk 32 la PAGE ;;
    pa2 <- usr_chk 16 la2 PAGE ;;
    ret (Mem la pa, Mem la2 pa2).
Definition F_Mp32 := fetch2 32 16.

(** Limit and base of a descriptor table; the callers have excluded registers. *)
Definition D_Ms (modRM segment_override : Z) (TYPE : Z -> X unit) (PAGE : Z) : X (operand * operand) :=
  let! (seg, off) := d_mem modRM segment_override ;;
  TYPE seg ;;
  limit_check seg off 3 2 ;;
  la <- lin_of seg off ;;
  pa <- usr_chk 16 la PAGE ;;
  off <- getc (address_add off 2) ;;
  la2 <- lin_of seg off ;;
  pa2 <- usr_chk 32 la2 PAGE ;;
  ret (Mem la pa, Mem la2 pa2).
Definition F_Ms := fetch2 16 32.
Definition P_Ms (o : operand * operand) (x : Z * Z) : X unit :=
  put 16 (fst o) (fst x) ;; put 32 (snd o) (snd x).

(** ** Offsets from elsewhere *)

Definition seg_or_DS (segment_override : Z) : Z :=
  if segment_override =? SEG_CLR then DS_REG else segment_override.

(** In the instruction. *)
Definition D_O (sz segment_override : Z) (TYPE : Z -> X unit) (PAGE : Z) : X operand :=
  asz <- getc address_size ;;
  off <- (if asz =? USE32 then immed 4 0 else immed 2 0) ;;
  mem_operand sz TYPE PAGE (seg_or_DS segment_override) off.
Definition D_Ob := D_O 8.
Definition D_Ow := D_O 16.
Definition D_Od := D_O 32.

(** The table of XLAT. *)
Definition D_Z (segment_override : Z) (TYPE : Z -> X unit) (PAGE : Z) : X operand :=
  off <- getc (fun c => if address_size c =? USE16 then u32 (GET_WR A_BX c + GET_BR A_AL c) .& WORD_MASK
                        else u32 (GET_GR A_EBX c + GET_BR A_AL c)) ;;
  mem_operand 8 TYPE PAGE (seg_or_DS segment_override) off.

(** The bit instructions with a register for the bit offset: in memory the offset also
    selects the word. *)
Definition BT_OPS (sz modRM segment_override : Z) (TYPE : Z -> X unit) (PAGE : Z) : X (operand * Z * Z) :=
  if GET_MODE modRM =? 3 then
    let o := Reg (GET_R_M modRM) in
    x <- fetch sz o ;;
    y <- F_G sz modRM ;;
    ret (o, x, y)
  else
    y <- F_G sz modRM ;;
    let! (seg, off) := d_mem modRM segment_override ;;
    o <- mem_operand sz TYPE PAGE seg (u32 (off + ((y .>> 3) .& not32 (sz / 8 - 1)))) ;;
    x <- fetch sz o ;;
    ret (o, x, y).
Definition BT_OPSw := BT_OPS 16.
Definition BT_OPSd := BT_OPS 32.

(** ** String operands *)

(** An index or count register at the address size. *)
Definition GET_A (i : Z) (c : cpu) : Z := if address_size c =? USE16 then GET_WR i c else GET_GR i c.
Definition SET_A (i x : Z) (c : cpu) : cpu := if address_size c =? USE16 then SET_WR i x c else SET_GR i x c.

Definition STRING_COUNT (repeat : Z) : X Z := if repeat =? REP_CLR then ret 1 else getc (GET_A A_ECX).

Definition D_X (sz segment_override : Z) (TYPE : Z -> X unit) (PAGE : Z) : X operand :=
  off <- getc (GET_A A_ESI) ;; mem_operand sz TYPE PAGE (seg_or_DS segment_override) off.
Definition D_Y (sz : Z) (TYPE : Z -> X unit) (PAGE : Z) : X operand :=
  off <- getc (GET_A A_EDI) ;; mem_operand sz TYPE PAGE ES_REG off.

(** Step the index register and, under a repeat prefix, store the count. *)
Definition commit (i sz repeat rep_count : Z) : X unit :=
  modc (fun c => SET_A i (u32 (if tst (DF (fl c)) then GET_A i c - sz / 8 else GET_A i c + sz / 8)) c) ;;
  when (negb (repeat =? REP_CLR)) (modc (SET_A A_ECX rep_count)).
Definition C_X := commit A_ESI.
Definition C_Y := commit A_EDI.

Definition D_Xb := D_X 8.
Definition D_Xw := D_X 16.
Definition D_Xd := D_X 32.
Definition D_Yb := D_Y 8.
Definition D_Yw := D_Y 16.
Definition D_Yd := D_Y 32.
Definition C_Xb := C_X 8.
Definition C_Xw := C_X 16.
Definition C_Xd := C_X 32.
Definition C_Yb := C_Y 8.
Definition C_Yw := C_Y 16.
Definition C_Yd := C_Y 32.

(** [while ( rep_count )]: the body gets the count it leaves and says whether to break. *)
Fixpoint while_count (rep_count : nat) (body : Z -> X bool) : X unit :=
  match rep_count with
  | O => ret tt
  | S rep_count =>
      stop <- body (Z.of_nat rep_count) ;;
      if stop then ret tt else while_count rep_count body
  end.

End Operands.

End Oprnd.
