(* ===== verification/Code.v ===== *)
(** * The instruction stream against EIP

    While an instruction is decoded the emulator walks a host pointer over the memory
    array instead of advancing EIP and translating every address ([Oprnd.v]).  Here that
    is related to what it stands for: the byte at offset E of the code segment, through
    the page tables, and then the one at E + 1. *)

From S2P Require Import Prelude Cpu Debug Arith Shift Xcptn MulDiv Mem Tlb Page Basic Seg Virt Addr Stack Wp Ios Oprnd.

Module Code.
Import Debug Xcptn Tlb Page Basic Seg Virt Addr Wp Oprnd.

(** RAM is in the array, below the wrap mask. *)
Class CodeLaws (P : Type) `{PhyMem P} `{CodeMem P} : Prop := {
  code_ram m a : is_ram m a 1 -> a .& SasWrapMask m = a /\ CCPU_M m a = Some (byte_at m a)
}.

Section Laws.
Context {P D : Type} `{PhyQuiet P} `{CodeMem P}.

Lemma access_usr_chk_byte lin acc : access (P := P) (usr_chk_byte lin acc).
Proof. unfold usr_chk_byte, paging. access_tac. Qed.

Lemma bind_returns {E St A B} (m : M E St A) (k : A -> M E St B) s b s' :
  bind m k s = Ret b s' -> exists a s1, m s = Ret a s1 /\ k a s1 = Ret b s'.
Proof. unfold bind. destruct (m s) as [a s1|e s1|]; [eauto | discriminate | discriminate]. Qed.

Lemma next_byte_returns (s : exec P D) b s' : next_byte s = Ret b s' -> the_cpu s' = the_cpu s /\ 0 <= b < 2 ^ 8.
Proof.
  unfold next_byte. destruct (p s); [|discriminate]. destruct (CCPU_M _ _); [|discriminate].
  intros [= <- <-]. split; [reflexivity | apply u8_range].
Qed.

Lemma setup_returns (s : exec P D) u s' : SETUP_HOST_IP s = Ret u s' -> the_cpu s' = the_cpu s.
Proof.
  unfold SETUP_HOST_IP. intros E. apply bind_returns in E as (lin & s1 & [= <- <-] & E).
  apply bind_returns in E as (phy & s2 & E2 & E). unfold oncore in E2.
  match type of E2 with context [usr_chk_byte ?l ?a ?x] =>
    pose proof (access_usr_chk_byte l a (fun _ c => c = mcpu x) (fun _ => True) (mcpu x)
                  (fun _ => eq_refl) (fun _ => I) x eq_refl) as HA; destruct (usr_chk_byte l a x) as [v m|e m|] end;
    [|discriminate | discriminate].
  injection E2 as <- <-. injection E as <- <-. exact HA.
Qed.

(** Taking a byte changes no register but EIP. *)
#[export] Instance Fetch_exec_laws : FetchLaws (exec P D).
Proof.
  split. intros s b s'. cbn [GET_INST_BYTE Fetch_exec]. unfold inst_byte, bind at 1, get at 1.
  destruct (match p s with Some q => pg_end s <=? q | None => false end); intros E.
  2:{ apply next_byte_returns in E as [-> Hb]. split; [|exact Hb]. exists (ip (the_cpu s)). destruct (the_cpu s); reflexivity. }
  apply bind_returns in E as (eip & s1 & [= <- <-] & E). apply bind_returns in E as (len & s1 & E1 & E).
  assert (s1 = s) as ->.
  { unfold delta, bind, get, defined in E1. destruct (CCPU_INSTRUCTION_DELTA _ _); [injection E1; auto | discriminate]. }
  apply bind_returns in E as ([] & s2 & [= <-] & E). apply bind_returns in E as (u & s3 & E3 & E).
  apply setup_returns in E3. apply bind_returns in E as ([] & s4 & [= <-] & E). apply next_byte_returns in E as [-> Hb].
  split; [|exact Hb]. eexists. transitivity (the_cpu s3); [reflexivity|]. rewrite E3. reflexivity.
Qed.

End Laws.

Section Stream.
Context {P D : Type} `{PhyMemLaws P} `{CodeMem P} `{!CodeLaws P}.

Abbreviation CS_base s := (base (GET_SR CS_REG (the_cpu s))).

(** The linear address of offset [E] of the code segment, and the byte there. *)
Definition code_lin (s : exec P D) (E : Z) : Z := u32 (CS_base s + E).
Definition code_at (s : exec P D) (E : Z) : Z := byte_at (mmem (core s)) (lmap (core s) (code_lin s E)).
(** The [n] bytes from offset [E] may be executed. *)
Definition executable (s : exec P D) (E : Z) (n : nat) : Prop :=
  forall i, 0 <= i < Z.of_nat n -> lusable (core s) PG_R (code_lin s (E + i)) 1.

(** The next byte of the stream is the one at offset [E]: EIP and the bytes passed since
    [p_start] make up [E], and a pointer on its page is the translated address. *)
Definition at_code (s : exec P D) (E : Z) : Prop :=
  exists q q0, p s = Some q /\ p_start s = Some q0 /\ E = u32 (ip (the_cpu s) + (q - q0))
  /\ (q < pg_end s -> q = lmap (core s) (code_lin s E) /\ pg_end s = q - q mod 2 ^ 12 + 2 ^ 12).

Lemma u32_add a b : u32 (u32 a + b) = u32 (a + b).
Proof. unfold u32. apply Zplus_mod_idemp_l. Qed.
Lemma u32_add_r a b : u32 (a + u32 b) = u32 (a + b).
Proof. unfold u32. apply Zplus_mod_idemp_r. Qed.

(** The translation of a byte. *)
Lemma usr_chk_byte_l (s : mach P) lin :
  lwf s -> lusable s PG_R lin 1 ->
  exists s', usr_chk_byte lin PG_R s = Ret (lmap s lin) s' /\ mcpu s' = mcpu s /\ lframed nothing s s'.
Proof.
  intros Hw [HR HA]. pose proof (lrange_first _ _ _ HR ltac:(lia)) as R0. pose proof (HA 0 ltac:(lia)) as A0.
  rewrite Z.add_0_r in A0. unfold usr_chk_byte. rewrite pg_run. destruct (pg s) eqn:Hp.
  - rewrite getc_bind. cbn [the_cpu HasCpu_mach].
    destruct (usr_lin2phy s PG_R lin Hw Hp (or_introl eq_refl) R0 A0) as (s1 & E1 & F1).
    exists s1. split; [exact E1|]. split; [apply F1 | exact (lframed_paged _ _ _ Hp F1)].
  - exists s. unfold lmap. rewrite Hp. auto using lframed_refl.
Qed.

Lemma lready_ram (s : mach P) lin : lready s lin -> is_ram (mmem s) (lmap s lin) 1.
Proof. unfold lready, lmap. destruct (pg s); intros HR; apply HR. Qed.

(** Within a page the translations follow each other. *)
Lemma lmap_next (s : mach P) lin :
  lready s lin -> lmap s lin mod 2 ^ 12 + 1 < 2 ^ 12 -> lmap s (u32 (lin + 1)) = lmap s lin + 1.
Proof.
  intros HR Hp. pose proof (lready_lin _ _ HR) as Hl. unfold lready, lmap in *. destruct (pg s).
  - rewrite vmap_offset in Hp by exact HR. rewrite <- (vmap_page s lin 1) by (assumption || lia). f_equal. apply u32_small.
    pose proof (Z_div_mod_eq_full lin (2 ^ 12)). pose proof (Z.mod_pos_bound lin (2 ^ 12) ltac:(lia)). lia.
  - rewrite u32_small; [reflexivity|].
    pose proof (Z_div_mod_eq_full lin (2 ^ 12)). pose proof (Z.mod_pos_bound lin (2 ^ 12) ltac:(lia)). lia.
Qed.

(** [p] after [SETUP_HOST_IP]. *)
Lemma setup_host_ip (s : exec P D) :
  lwf (core s) -> executable s (ip (the_cpu s)) 1 ->
  exists s', SETUP_HOST_IP s = Ret tt s' /\ the_cpu s' = the_cpu s /\ lframed nothing (core s) (core s')
  /\ p s' = Some (lmap (core s) (code_lin s (ip (the_cpu s)))) /\ p_start s' = p_start s
  /\ (forall q, p s' = Some q -> q < pg_end s' -> pg_end s' = q - q mod 2 ^ 12 + 2 ^ 12)
  /\ (exists q, p s' = Some q /\ is_ram (mmem (core s')) q 1).
Proof.
  intros Hw HX. pose proof (HX 0 ltac:(lia)) as HU. rewrite Z.add_0_r in HU.
  destruct (usr_chk_byte_l (core s) _ Hw HU) as (m & E1 & C1 & F1).
  pose proof (lready_ram _ _ (lrange_first _ _ _ (proj1 HU) ltac:(lia))) as Hr.
  pose proof (lready_ram _ _ (lf_ready _ _ _ F1 _ (lrange_first _ _ _ (proj1 HU) ltac:(lia)))) as Hr'.
  rewrite (lf_map _ _ _ F1) in Hr' by (apply (lready_lin (core s)), (lrange_first _ _ _ (proj1 HU)); lia).
  set (a := lmap (core s) (code_lin s (ip (the_cpu s)))) in *.
  destruct (code_ram _ _ Hr') as [Em _]. pose proof (ram_end _ _ _ Hr') as [Ha Hb].
  eexists. unfold SETUP_HOST_IP. rewrite getc_bind. unfold bind at 1, oncore.
  change (u32 (base (GET_SR CS_REG (the_cpu s)) + ip (the_cpu s))) with (code_lin s (ip (the_cpu s))).
  rewrite E1. cbn. rewrite Em. split; [reflexivity|]. cbn. split; [exact C1|]. split; [exact F1|].
  split; [reflexivity|]. split; [reflexivity|]. split; [|eauto].
  intros q [= <-]. replace (a .& not32 4095) with (a - a mod 2 ^ 12).
  2:{ change (not32 4095) with (Z.land (2 ^ 32 - 1) (Z.lnot (Z.ones 12))). rewrite Z.land_assoc, (land_mask a 32), (Z.mod_small a (2 ^ 32)) by lia.
      rewrite <- Z.ldiff_land, Z.ldiff_ones_r, Z.shiftl_mul_pow2, Z.shiftr_div_pow2 by lia.
      pose proof (Z_div_mod_eq_full a (2 ^ 12)). lia. }
  pose proof (Z_div_mod_eq_full a (2 ^ 12)). pose proof (Z.mod_pos_bound a (2 ^ 12) ltac:(lia)).
  destruct (Z.lt_ge_cases (a - a mod 2 ^ 12 + 4096) (2 ^ 32)) as [Hlt|Hge].
  - rewrite u32_small by lia. lia.
  - replace (a - a mod 2 ^ 12 + 4096) with (2 ^ 32) by lia. change (u32 (2 ^ 32)) with 0. lia.
Qed.

(** The byte under the pointer. *)
Lemma next_byte_at (s : exec P D) q :
  p s = Some q -> is_ram (mmem (core s)) q 1 -> next_byte s = Ret (byte_at (mmem (core s)) q) (SET_p (Some (q + 1)) s).
Proof.
  intros Ep Hr. unfold next_byte. destruct (code_ram _ _ Hr) as [_ EM]. rewrite Ep, EM.
  pose proof (ram_byte _ _ _ Hr 0 ltac:(lia)) as Hb. rewrite Z.add_0_r in Hb. rewrite u8_small by exact Hb. reflexivity.
Qed.

(** What taking bytes leaves: the registers but EIP, and memory. *)
Definition passed (s s' : exec P D) : Prop :=
  (exists x, the_cpu s' = SET_ip x (the_cpu s)) /\ lframed nothing (core s) (core s').

Lemma eq_ip (c c' : cpu) : c' = c -> exists x, c' = SET_ip x c.
Proof. intros ->. exists (ip c). destruct c; reflexivity. Qed.

Lemma passed_lin s s' E : passed s s' -> code_lin s' E = code_lin s E.
Proof. intros [[x Ec] _]. unfold code_lin. rewrite Ec. reflexivity. Qed.

Lemma passed_map s s' E : passed s s' -> lmap (core s') (code_lin s' E) = lmap (core s) (code_lin s E).
Proof. intros HP. rewrite (passed_lin _ _ _ HP). apply (lf_map _ _ _ (proj2 HP)). apply u32_range. Qed.

Lemma passed_trans s1 s2 s3 : passed s1 s2 -> passed s2 s3 -> passed s1 s3.
Proof.
  intros [[x E1] F1] [[y E2] F2]. split; [exists y; rewrite E2, E1; reflexivity|]. exact (lframed_then _ _ _ _ F1 F2).
Qed.

(** One byte further in the same page. *)
Lemma advance (s : exec P D) E q q0 :
  p s = Some q -> p_start s = Some q0 -> E = u32 (ip (the_cpu s) + (q - q0)) ->
  q = lmap (core s) (code_lin s E) -> lready (core s) (code_lin s E) ->
  (q < pg_end s -> pg_end s = q - q mod 2 ^ 12 + 2 ^ 12) ->
  at_code (SET_p (Some (q + 1)) s) (u32 (E + 1)).
Proof.
  intros Ep Es EE Eq HR Hend. exists (q + 1), q0. split; [reflexivity|]. split; [exact Es|]. cbn [pg_end SET_p core].
  split; [rewrite EE, u32_add; cbn; f_equal; lia|]. intros Hlt. specialize (Hend ltac:(lia)).
  pose proof (Z_div_mod_eq_full q (2 ^ 12)). pose proof (Z.mod_pos_bound q (2 ^ 12) ltac:(lia)).
  assert (Em : (q + 1) mod 2 ^ 12 = q mod 2 ^ 12 + 1) by (symmetry; apply Z.mod_unique with (q / 2 ^ 12); lia).
  split; [|lia]. unfold code_lin at 1. cbn [the_cpu HasCpu_exec core SET_p].
  replace (u32 (_ + u32 (E + 1))) with (u32 (code_lin s E + 1))
    by (unfold code_lin; rewrite u32_add, u32_add_r; f_equal; cbn; lia).
  rewrite Eq at 1. symmetry. apply lmap_next; [exact HR|]. rewrite <- Eq. lia.
Qed.

Lemma stream_byte (s : exec P D) E :
  lwf (core s) -> at_code s E -> executable s E 1 ->
  exists s', GET_INST_BYTE s = Ret (code_at s E) s' /\ at_code s' (u32 (E + 1)) /\ passed s s'.
Proof.
  intros Hw (q & q0 & Ep & Es & EE & HQ) HX. pose proof (HX 0 ltac:(lia)) as HU. rewrite Z.add_0_r in HU.
  pose proof (lrange_first _ _ _ (proj1 HU) ltac:(lia)) as HR.
  cbn [GET_INST_BYTE Fetch_exec]. unfold inst_byte, bind at 1, get at 1. rewrite Ep. destruct (Z.leb_spec (pg_end s) q) as [Hge|Hlt].
  - unfold ccpu_new_code_page. rewrite getc_bind.
    assert (Ed : delta s = Ret (u32 (q - q0)) s) by (unfold delta, bind, get; rewrite Ep, Es; reflexivity).
    rewrite (bind_ret _ _ _ _ _ Ed). rewrite u32_add_r, <- EE. unfold bind at 1, modc at 1, modify at 1.
    set (s1 := put_cpu (SET_ip E (the_cpu s)) s).
    assert (H01 : passed s s1).
    { split; [exists E; apply the_put|]. apply lframed_cpu; [reflexivity | exact Hw]. }
    assert (HX1 : executable s1 (ip (the_cpu s1)) 1).
    { intros i Hi. change (ip (the_cpu s1)) with E. rewrite (passed_lin _ _ _ H01).
      apply (lusable_framed _ _ _ _ _ _ (proj2 H01)); [reflexivity | apply HX, Hi]. }
    destruct (setup_host_ip s1 (lf_wf _ _ _ (proj2 H01)) HX1) as (s2 & E2 & C2 & F2 & P2 & _ & G2 & (q2 & Eq2 & R2)).
    rewrite (bind_ret _ _ _ _ _ E2). unfold bind at 1, modify at 1. set (s3 := SET_p_start (p s2) s2).
    assert (H13 : passed s1 s3).
    { split; [exact (eq_ip (the_cpu s1) (the_cpu s3) C2) | exact F2]. }
    pose proof (passed_trans _ _ _ H01 H13) as H03.
    assert (Ea : q2 = lmap (core s) (code_lin s E)).
    { rewrite Eq2 in P2. injection P2 as ->. rewrite <- (passed_map _ _ E H01). reflexivity. }
    assert (R3 : lready (core s3) (code_lin s3 E)) by (rewrite (passed_lin _ _ _ H03); apply (lf_ready _ _ _ (proj2 H03)), HR).
    exists (SET_p (Some (q2 + 1)) s3). rewrite (next_byte_at s3 q2 Eq2 R2). split; [|split].
    + f_equal. unfold code_at. rewrite Ea.
      apply (lf_mem _ _ _ (proj2 H03) _ HR). unfold nothing; auto.
    + apply (advance s3 E q2 q2); try assumption; [|rewrite (passed_map _ _ _ H03); exact Ea | exact (G2 q2 Eq2)].
      replace (q2 - q2) with 0 by lia. rewrite Z.add_0_r.
      change (the_cpu s3) with (the_cpu s2). rewrite C2. change (ip (the_cpu s1)) with E. rewrite EE. unfold u32. rewrite Zmod_mod. reflexivity.
    + exact H03.
  - destruct (HQ Hlt) as [Eq Hend]. exists (SET_p (Some (q + 1)) s).
    rewrite (next_byte_at s q Ep) by (rewrite Eq; apply lready_ram, HR). split; [|split].
    + unfold code_at. rewrite Eq. reflexivity.
    + apply (advance s E q q0); auto.
    + split; [exact (eq_ip (the_cpu s) _ eq_refl) | apply lframed_refl, Hw].
Qed.

Lemma code_lin_shift s E i : code_lin s (u32 (E + 1) + i) = code_lin s (E + (1 + i)).
Proof.
  unfold code_lin. replace (_ + (u32 (E + 1) + i)) with (u32 (E + 1) + (CS_base s + i)) by lia.
  rewrite u32_add. f_equal. lia.
Qed.

Lemma code_at_shift s s' E i : passed s s' -> 0 <= i -> executable s E (S (Z.to_nat (i + 1))) ->
  code_at s' (u32 (E + 1) + i) = code_at s (E + (1 + i)).
Proof.
  intros HP Hi HX. unfold code_at. rewrite code_lin_shift, (passed_map _ _ _ HP).
  pose proof (HX (1 + i) ltac:(lia)) as HU.
  apply (lf_mem _ _ _ (proj2 HP)); [apply (lrange_first _ _ _ (proj1 HU)); lia | unfold nothing; auto].
Qed.

Lemma executable_next s s' E n : passed s s' -> executable s E (S n) -> executable s' (u32 (E + 1)) n.
Proof.
  intros HP HX i Hi. rewrite code_lin_shift, (passed_lin _ _ _ HP).
  apply (lusable_framed _ _ _ _ _ _ (proj2 HP)); [|apply HX; lia]. destruct HP as [[x Ec] _].
  change (mcpu (core s')) with (the_cpu s'). rewrite Ec. reflexivity.
Qed.

(** The bytes of [n] offsets. *)
Definition code_bytes (s : exec P D) (E : Z) (n : nat) : list Z := map (fun i => code_at s (E + Z.of_nat i)) (seq 0 n).

Lemma stream_bytes n : forall s E,
  lwf (core s) -> at_code s E -> executable s E n ->
  exists s', fetched (code_bytes s E n) s s' /\ at_code s' (u32 (E + Z.of_nat n)) /\ passed s s'.
Proof.
  induction n as [|n IH]; intros s E Hw HC HX.
  { exists s. split; [reflexivity|]. split.
    - assert (Eu : u32 E = E) by (destruct HC as (q & q0 & _ & _ & -> & _); apply Zmod_mod).
      change (Z.of_nat 0) with 0. rewrite Z.add_0_r, Eu. exact HC.
    - split; [exact (eq_ip _ _ eq_refl) | apply lframed_refl, Hw]. }
  destruct (stream_byte s E Hw HC) as (s1 & E1 & C1 & P1); [intros i Hi; apply HX; lia|].
  destruct (IH s1 (u32 (E + 1)) (lf_wf _ _ _ (proj2 P1)) C1 (executable_next _ _ _ _ P1 HX)) as (s2 & F2 & C2 & P2).
  exists s2. split; [|split].
  - unfold code_bytes. cbn [seq map]. rewrite Z.add_0_r. exists s1. split; [exact E1|].
    replace (map _ (seq 1 n)) with (code_bytes s1 (u32 (E + 1)) n); [exact F2|].
    unfold code_bytes. rewrite <- seq_shift, map_map. apply map_ext_in. intros i Hi. apply in_seq in Hi.
    rewrite (code_at_shift s s1 E (Z.of_nat i) P1) by (first [lia | intros j Hj; apply HX; lia]). f_equal. lia.
  - rewrite u32_add in C2. replace (E + Z.of_nat (S n)) with (E + 1 + Z.of_nat n) by lia. exact C2.
  - exact (passed_trans _ _ _ P1 P2).
Qed.

Lemma update_intel_ip (s : exec P D) E :
  at_code s E -> E < (if ar_x (GET_SR CS_REG (the_cpu s)) =? USE16 then 2 ^ 16 else 2 ^ 32) ->
  exists s', UPDATE_INTEL_IP s = Ret tt s' /\ s' = put_cpu (SET_ip E (the_cpu s)) s.
Proof.
  intros (q & q0 & Ep & Es & EE & _) HE. eexists. split; [|reflexivity]. unfold UPDATE_INTEL_IP.
  assert (Ed : delta s = Ret (u32 (q - q0)) s) by (unfold delta, bind, get; rewrite Ep, Es; reflexivity).
  rewrite (bind_ret _ _ _ _ _ Ed), !getc_bind, u32_add_r, <- EE. unfold modc, modify. do 3 f_equal.
  pose proof (u32_range (ip (the_cpu s) + (q - q0))) as HR. rewrite <- EE in HR.
  destruct (_ =? USE16); destruct (_ <? 0x10000); cbn [andb];
    change 0xFFFF with (2 ^ 16 - 1); change 0xFFFFFFFF with (2 ^ 32 - 1);
    rewrite land_mask, Z.mod_small by lia; reflexivity.
Qed.


End Stream.

(** ** Witness: four bytes of code across the two mapped pages *)

#[local] Existing Instance demo_memory.
#[local] Existing Instance demo_laws.

#[export] Instance demo_code_laws : CodeLaws (Mem.sas unit).
Proof.
  split. intros m a [Hok (Ha & Hl & Hm & _)]. destruct Hok as (_ & _ & _ & Hmask). cbn [SasWrapMask CCPU_M sas_code byte_at demo_memory sas_memory].
  split.
  - destruct Hmask as [Em | Em]; rewrite Em in *; rewrite land_mask, Z.mod_small by lia; reflexivity.
  - replace (0 <=? a) with true by lia. replace (a <? Mem.Length_of_M_area m) with true by lia. reflexivity.
Qed.

(** A CPU that has just been switched on, around a machine. *)
Definition exec0 {P D} (m : mach P) (d : D) : exec P D :=
  mkExec m None None 0 false 0 0 0 0 (fun _ => 0) (Ios.mkIos (fun _ => 0) (fun _ => 0) (fun _ _ => Ios.own)) d.

Definition demo_exec : exec (Mem.sas unit) unit := exec0 (put_cpu (SET_ip 0xffe (mcpu demo)) demo) tt.


End Code.
