(* ===== verification/Decode.v ===== *)
(** * Instruction decoding

    The opcode switch of [ccpu] in [c_main.c] (lines 826 to 4133), with
    [check_io_permission_map].  The labels TYPExx of the source, at which instructions
    that differ only in the worker routine join, are the definitions of that name, over
    the worker; [by_size] is the test of the operand size they start with.

    The devices, the BIOS services behind BOP instructions, the numeric coprocessor and
    the host are the class [Host]; the instruction's way out of the switch is a value of
    [next].  The worker routines are those of the other files. *)

From S2P Require Import Prelude Cpu Debug Arith Shift Xcptn MulDiv Decimal Flow Mem Tlb Page Basic Seg Virt Addr.
From S2P Require Import Stack Xfer Intr Wp System Ios Oprnd.

Module Decode.
Import Debug Arith Shift Xcptn MulDiv Decimal Flow Tlb Page Basic Seg Virt Addr Stack Xfer Intr System Oprnd.

(** How the switch is left: [break], a [goto], or a long jump out of the CPU. *)
Inductive next :=
| Completed
| NEXT_INST
| RESUME_FETCH
| DO_INST
| DECODE (segment_override repeat : Z)
| RESUME_HALT
| LEFT.

(** What the CPU calls.  A call that may leave the CPU returns whether it did. *)
Class Host (P D : Type) := {
  NpxIntrNeeded : exec P D -> bool;
  TakeNpxExceptionInt : M exn (exec P D) unit;
  ZFRSRVD : Z -> Z -> M exn (exec P D) unit;
  EDL_fast_bop : Z -> M exn (exec P D) unit;
  bop : Z -> M exn (exec P D) bool;
  softpc_host_debug_begin : M exn (exec P D) bool;
  do_condition_checks : exec P D -> bool;
  check_I : M exn (exec P D) unit;
  force_yoda : M exn (exec P D) unit;
  note_486_instruction : M exn (exec P D) unit;
  dispatch_q_event : M exn (exec P D) unit;
  host_timer_event : M exn (exec P D) unit;
  ica_sigio_event : M exn (exec P D) unit;
  ica_intack : M exn (exec P D) Z;
  softpc_platform_has_pending_executor_event : exec P D -> bool;
  softpc_platform_consume_clock_tick : M exn (exec P D) bool;
  softpc_platform_timer_event : M exn (exec P D) unit;
  softpc_platform_consume_executor_wake : M exn (exec P D) bool;
  softpc_platform_executor_event : M exn (exec P D) bool;
  softpc_platform_pace_instruction : M exn (exec P D) unit;
  softpc_platform_consume_instruction_budget : M exn (exec P D) bool;
  softpc_platform_wait_for_executor_event : M exn (exec P D) bool;
  softpc_ccpu_lifecycle_take_entry : M exn (exec P D) (option (bool * Z));
  softpc_ccpu_lifecycle_request_exit : M exn (exec P D) unit;
  softpc_ccpu_lifecycle_checkpoint : bool -> Z -> M exn (exec P D) bool;
  InitNpx : M exn (exec P D) unit
}.

(** Bits of CR0. *)
Definition GET_MP (c : cpu) : Z := nz (CR_STAT (cr c) .& BIT_MASK 1).
Definition GET_EM (c : cpu) : Z := nz (CR_STAT (cr c) .& BIT_MASK 2).
Definition GET_TS (c : cpu) : Z := nz (CR_STAT (cr c) .& BIT_MASK 3).

Definition MAX_VALID_SEG : Z := 5.
Definition LOWEST_REG_MODRM : Z := 0xc0.
Definition MAP_BASE_ADDR : Z := 0x66.
Definition width_mask (width : Z) : Z := nth (Z.to_nat (width - 1)) [0x1; 0x3; 0; 0xf] 0.

Section Switch.
Context {P D : Type} `{PhyMem P} `{CodeMem P} `{Ios.Adapters exn (exec P D)} `{Host P D}.
Context (shiftrot_of_undef : bool).

Abbreviation X := (M exn (exec P D)).

(** ** Workers *)

(** A worker with a destination and a source operand. *)
Definition inst2 : Type := Z -> Z -> Z -> X Z.

(** Run a worker on the flags. *)
Definition on_flags {A} (f : FLAGS -> A * FLAGS) : X A :=
  let! (a, fl') := getc (fun c => f (fl c)) ;; modc (SET_fl fl') ;; ret a.
Definition set_flags (f : FLAGS -> FLAGS) : X unit := modc (modify_fl f).

Definition alu (f : Z -> Z -> Z -> FLAGS -> Z * FLAGS) : inst2 := fun a b sz => on_flags (f a b sz).
(** A bit scan. *)
Definition scan (f : FLAGS -> option (Z * FLAGS)) : X Z :=
  r <- getc (fun c => f (fl c)) ;; let! (a, fl') := defined r ;; modc (SET_fl fl') ;; ret a.
(** A multiplication. *)
Definition product (f : cpu -> Z * cpu) : X Z :=
  let! (a, c) := getc f ;; modc (fun _ => c) ;; ret a.

Definition by_size {A} (f : Z -> X A) : X A :=
  sz <- getc operand_size ;; if sz =? USE16 then f 16 else f 32.

(** Not in protected mode, or in virtual 8086 mode. *)
Definition not_protected (c : cpu) : bool := (GET_PE c =? 0) || (VM (fl c) =? 1).
Definition ring0_only : X unit := cpl <- getc CPL ;; when (negb (cpl =? 0)) (GP 0).
(** The I/O privilege tests. *)
Definition iopl_v86 : X unit :=
  bad <- getc (fun c => (VM (fl c) =? 1) && (IOPL (fl c) <? CPL c)) ;; when bad (GP 0).
Definition iopl_check : X unit := bad <- getc (fun c => IOPL (fl c) <? CPL c) ;; when bad (GP 0).

Definition retired : X unit :=
  oncore (ondbg (fun d => SET_active (softpc_host_debug_retired (active_debug d)) d)).

Definition leave_quick_mode : X unit := modify (SET_quick_mode false).
Definition absolute_toc : X unit := modc (SET_took_absolute_toc true).

(** ** The I/O permission map *)

Definition check_io_permission_map (port width : Z) : X unit :=
  r <- getc tr ;;
  when ((sar_selector r =? 0) || (sar_super r =? BUSY_TSS)) (GP 0) ;;
  when (sar_limit r <=? MAP_BASE_ADDR) (GP 0) ;;
  map_start_offset <- oncore (spr_read_word (u32 (sar_base r + MAP_BASE_ADDR))) ;;
  let map_word_offset := u16 (map_start_offset + port / 8) in
  when (sar_limit r <=? map_word_offset) (GP 0) ;;
  map_word <- oncore (spr_read_word (u32 (sar_base r + map_word_offset))) ;;
  let map_word := map_word .>> (port mod 8) in
  when (tst (map_word .& width_mask width)) (GP 0).

Definition io_check (port width : Z) : X unit :=
  ask <- getc (fun c => (IOPL (fl c) <? CPL c) || tst (VM (fl c))) ;;
  when ask (check_io_permission_map port width).

Definition IN (sz port : Z) : X Z :=
  if sz =? 8 then Ios.IN8 port else if sz =? 16 then Ios.IN16 port else Ios.IN32 port.
Definition OUT (sz port x : Z) : X unit :=
  if sz =? 8 then Ios.OUT8 port x else if sz =? 16 then Ios.OUT16 port x else Ios.OUT32 port x.

(** ** Two operands *)

Section Operands.
Context (ov : Z).   (** [segment_override] *)

(** Destination in the r/m operand, source in a register. *)
Definition E_G (sz modRM : Z) (inst : inst2) : X unit :=
  e <- D_E sz modRM ov RW PG_W ;;
  x <- fetch sz e ;; y <- F_G sz modRM ;;
  r <- inst x y sz ;; put sz e r.
Definition TYPE00 (inst : inst2) : X unit := modRM <- GET_INST_BYTE ;; E_G 8 modRM inst.
Definition TYPE01 (inst : inst2) : X unit := modRM <- GET_INST_BYTE ;; by_size (fun sz => E_G sz modRM inst).

Definition G_E (sz modRM : Z) (inst : inst2) : X unit :=
  e <- D_E sz modRM ov RO PG_R ;;
  x <- F_G sz modRM ;; y <- fetch sz e ;;
  r <- inst x y sz ;; P_G sz modRM r.
Definition TYPE02 (inst : inst2) : X unit := modRM <- GET_INST_BYTE ;; G_E 8 modRM inst.
Definition TYPE03 (inst : inst2) : X unit := modRM <- GET_INST_BYTE ;; by_size (fun sz => G_E sz modRM inst).

Definition TYPE04 (inst : inst2) : X unit :=
  y <- D_Ib ;; x <- F_Fax 8 ;; r <- inst x y 8 ;; P_Fax 8 r.
Definition TYPE05 (inst : inst2) : X unit :=
  by_size (fun sz => y <- D_Iv sz ;; x <- F_Fax sz ;; r <- inst x y sz ;; P_Fax sz r).

(** Comparisons write the flags only. *)
Definition cmp2 : Type := Z -> Z -> Z -> FLAGS -> FLAGS.

Definition TYPE38 (inst : cmp2) : X unit :=
  modRM <- GET_INST_BYTE ;;
  e <- D_Eb modRM ov RO PG_R ;;
  x <- F_Eb e ;; y <- F_G 8 modRM ;; set_flags (inst x y 8).
Definition TYPE39 (inst : cmp2) : X unit :=
  modRM <- GET_INST_BYTE ;;
  by_size (fun sz =>
    e <- D_E sz modRM ov RO PG_R ;;
    x <- fetch sz e ;; y <- F_G sz modRM ;; set_flags (inst x y sz)).
Definition CMP_G_E (sz modRM : Z) : X unit :=
  e <- D_E sz modRM ov RO PG_R ;;
  x <- F_G sz modRM ;; y <- fetch sz e ;; set_flags (CMP x y sz).
Definition op_3a : X unit := modRM <- GET_INST_BYTE ;; CMP_G_E 8 modRM.
Definition op_3b : X unit := modRM <- GET_INST_BYTE ;; by_size (fun sz => CMP_G_E sz modRM).
Definition TYPE3C (inst : cmp2) : X unit := y <- D_Ib ;; x <- F_Fax 8 ;; set_flags (inst x y 8).
Definition TYPE3D (inst : cmp2) : X unit :=
  by_size (fun sz => y <- D_Iv sz ;; x <- F_Fax sz ;; set_flags (inst x y sz)).

(** An immediate source; the mod/rm byte has been read. *)
Definition E_imm (sz modRM : Z) (imm : X Z) (inst : inst2) : X unit :=
  e <- D_E sz modRM ov RW PG_W ;;
  y <- imm ;; x <- fetch sz e ;;
  r <- inst x y sz ;; put sz e r.
Definition CMP_E_imm (sz modRM : Z) (imm : X Z) (inst : cmp2) : X unit :=
  e <- D_E sz modRM ov RO PG_R ;;
  y <- imm ;; x <- fetch sz e ;; set_flags (inst x y sz).

Definition TYPE80_0 (modRM : Z) (inst : inst2) : X unit := E_imm 8 modRM D_Ib inst.
Definition TYPE80_7 (modRM : Z) (inst : cmp2) : X unit := CMP_E_imm 8 modRM D_Ib inst.
Definition TYPE81_0 (modRM : Z) (inst : inst2) : X unit := by_size (fun sz => E_imm sz modRM (D_Iv sz) inst).
Definition TYPE81_7 (modRM : Z) (inst : cmp2) : X unit := by_size (fun sz => CMP_E_imm sz modRM (D_Iv sz) inst).
Definition TYPE83_0 (modRM : Z) (inst : inst2) : X unit := by_size (fun sz => E_imm sz modRM (D_Ixy sz) inst).
Definition TYPEC1 (modRM : Z) (inst : inst2) : X unit := by_size (fun sz => E_imm sz modRM D_Ib inst).

(** The group of the immediate instructions: the worker of the reg field, [None] for CMP. *)
Definition group1 (xxx : Z) : option inst2 :=
  match xxx with
  | 0 => Some (alu ADD) | 1 => Some (alu OR) | 2 => Some (alu ADC) | 3 => Some (alu SBB)
  | 4 => Some (alu AND) | 5 => Some (alu SUB) | 6 => Some (alu XOR) | _ => None
  end.
Definition op_80 : X unit :=
  modRM <- GET_INST_BYTE ;;
  match group1 (GET_XXX modRM) with Some inst => TYPE80_0 modRM inst | None => TYPE80_7 modRM CMP end.
Definition op_81 : X unit :=
  modRM <- GET_INST_BYTE ;;
  match group1 (GET_XXX modRM) with Some inst => TYPE81_0 modRM inst | None => TYPE81_7 modRM CMP end.
Definition op_83 : X unit :=
  modRM <- GET_INST_BYTE ;;
  match group1 (GET_XXX modRM) with
  | Some inst => TYPE83_0 modRM inst
  | None => by_size (fun sz => CMP_E_imm sz modRM (D_Ixy sz) CMP)
  end.

(** The group of the shifts and rotates. *)
Definition group2 (xxx : Z) : inst2 :=
  match xxx with
  | 0 => alu (ROL shiftrot_of_undef) | 1 => alu (ROR shiftrot_of_undef)
  | 2 => alu (RCL shiftrot_of_undef) | 3 => alu (RCR shiftrot_of_undef)
  | 4 => alu (SHL shiftrot_of_undef) | 5 => alu (SHR shiftrot_of_undef)
  | 6 => alu (SHL shiftrot_of_undef) | _ => alu SAR
  end.
Definition op_c0 : X unit := modRM <- GET_INST_BYTE ;; TYPE80_0 modRM (group2 (GET_XXX modRM)).
Definition op_c1 : X unit := modRM <- GET_INST_BYTE ;; TYPEC1 modRM (group2 (GET_XXX modRM)).
(** The count is fetched after the operand. *)
Definition E_count (sz modRM : Z) (count : X Z) : X unit :=
  e <- D_E sz modRM ov RW PG_W ;;
  x <- fetch sz e ;; y <- count ;;
  r <- group2 (GET_XXX modRM) x y sz ;; put sz e r.
Definition op_d0 : X unit := modRM <- GET_INST_BYTE ;; E_count 8 modRM (ret 1).
Definition op_d1 : X unit := modRM <- GET_INST_BYTE ;; by_size (fun sz => E_count sz modRM (ret 1)).
Definition op_d2 : X unit := modRM <- GET_INST_BYTE ;; E_count 8 modRM F_Fcl.
Definition op_d3 : X unit := modRM <- GET_INST_BYTE ;; by_size (fun sz => E_count sz modRM F_Fcl).

(** ** One operand *)

Definition inst1 : Type := Z -> Z -> FLAGS -> Z * FLAGS.

Definition E_unary (sz modRM : Z) (inst : inst1) : X unit :=
  e <- D_E sz modRM ov RW PG_W ;;
  x <- fetch sz e ;; r <- on_flags (inst x sz) ;; put sz e r.
Definition E_not (sz modRM : Z) : X unit :=
  e <- D_E sz modRM ov RW PG_W ;; x <- fetch sz e ;; put sz e (NOT x).
Definition TYPEF6_3 (modRM : Z) (inst : inst1) : X unit := E_unary 8 modRM inst.
Definition TYPEF7_3 (modRM : Z) (inst : inst1) : X unit := by_size (fun sz => E_unary sz modRM inst).

(** INC and DEC of a register. *)
Definition TYPE40 (opcode : Z) (inst : inst1) : X unit :=
  by_size (fun sz => x <- F_H sz opcode ;; r <- on_flags (inst x sz) ;; P_H sz opcode r).

(** Multiplication with the accumulator. *)
Definition ax_E (sz modRM : Z) (inst : Z -> Z -> cpu -> Z * cpu) : X unit :=
  e <- D_E sz modRM ov RO PG_R ;;
  x <- F_Fax sz ;; y <- fetch sz e ;; r <- product (inst x y) ;; P_Fax sz r.
Definition TYPEF6_4 (modRM : Z) (inst : Z -> Z -> cpu -> Z * cpu) : X unit := ax_E 8 modRM inst.
Definition TYPEF7_4 (modRM : Z) (inst inst2 : Z -> Z -> cpu -> Z * cpu) : X unit :=
  by_size (fun sz => ax_E sz modRM (if sz =? 16 then inst else inst2)).

(** An operand that is only read. *)
Definition E_read (sz modRM : Z) (inst : Z -> X unit) : X unit :=
  e <- D_E sz modRM ov RO PG_R ;; x <- fetch sz e ;; inst x.
Definition TYPEF6_6 (modRM : Z) (inst : Z -> X unit) : X unit := E_read 8 modRM inst.
Definition TYPEF7_6 (modRM : Z) (inst inst2 : Z -> X unit) : X unit :=
  by_size (fun sz => E_read sz modRM (if sz =? 16 then inst else inst2)).

Definition op_f6 : X unit :=
  modRM <- GET_INST_BYTE ;;
  match GET_XXX modRM with
  | 0 | 1 => TYPE80_7 modRM TEST
  | 2 => E_not 8 modRM
  | 3 => TYPEF6_3 modRM NEG
  | 4 => TYPEF6_4 modRM MUL8
  | 5 => TYPEF6_4 modRM IMUL8
  | 6 => TYPEF6_6 modRM DIV8
  | _ => TYPEF6_6 modRM IDIV8
  end.
Definition op_f7 : X unit :=
  modRM <- GET_INST_BYTE ;;
  match GET_XXX modRM with
  | 0 | 1 => TYPE81_7 modRM TEST
  | 2 => by_size (fun sz => E_not sz modRM)
  | 3 => TYPEF7_3 modRM NEG
  | 4 => TYPEF7_4 modRM MUL16 MUL32
  | 5 => TYPEF7_4 modRM IMUL16 IMUL32
  | 6 => TYPEF7_6 modRM DIV16 DIV32
  | _ => TYPEF7_6 modRM IDIV16 IDIV32
  end.

(** IMUL with two sources. *)
Definition IMULT_G_E (sz modRM : Z) (imm : option (X Z)) : X unit :=
  e <- D_E sz modRM ov RO PG_R ;;
  match imm with
  | Some imm =>
      z <- imm ;; y <- fetch sz e ;; r <- product (IMULT sz y z) ;; P_G sz modRM r
  | None =>
      x <- F_G sz modRM ;; y <- fetch sz e ;; r <- product (IMULT sz x y) ;; P_G sz modRM r
  end.
Definition op_69 : X unit :=
  modRM <- GET_INST_BYTE ;; by_size (fun sz => IMULT_G_E sz modRM (Some (D_Iv sz))).
Definition op_6b : X unit :=
  modRM <- GET_INST_BYTE ;; by_size (fun sz => IMULT_G_E sz modRM (Some (D_Ixy sz))).
Definition op_0faf : X unit :=
  modRM <- GET_INST_BYTE ;; by_size (fun sz => IMULT_G_E sz modRM None).

(** ** Moves *)

Definition MOV_E_G (sz modRM : Z) : X unit :=
  e <- D_E sz modRM ov WO PG_W ;; y <- F_G sz modRM ;; put sz e y.
Definition op_88 : X unit := modRM <- GET_INST_BYTE ;; MOV_E_G 8 modRM.
Definition op_89 : X unit := modRM <- GET_INST_BYTE ;; by_size (fun sz => MOV_E_G sz modRM).
Definition MOV_G_E (sz modRM : Z) : X unit :=
  e <- D_E sz modRM ov RO PG_R ;; y <- fetch sz e ;; P_G sz modRM y.
Definition op_8a : X unit := modRM <- GET_INST_BYTE ;; MOV_G_E 8 modRM.
Definition op_8b : X unit := modRM <- GET_INST_BYTE ;; by_size (fun sz => MOV_G_E sz modRM).

Definition op_8c : X unit :=
  modRM <- GET_INST_BYTE ;;
  when (MAX_VALID_SEG <? GET_SEG modRM) Int6 ;;
  sz <- getc operand_size ;;
  if (sz =? USE16) || (modRM <? LOWEST_REG_MODRM) then
    e <- D_Ew modRM ov WO PG_W ;; y <- F_SR (GET_SEG modRM) ;; P_Ew e y
  else y <- F_SR (GET_SEG modRM) ;; P_Rd modRM y.
Definition op_8d : X unit :=
  modRM <- GET_INST_BYTE ;;
  by_size (fun sz => off <- D_M modRM ov ;; P_G sz modRM (LEA off)).
Definition op_8e : X next :=
  modRM <- GET_INST_BYTE ;;
  let seg := GET_SEG modRM in
  when ((MAX_VALID_SEG <? seg) || (seg =? CS_REG)) Int6 ;;
  e <- D_Ew modRM ov RO PG_R ;;
  y <- F_Ew e ;;
  oncore (MOV_SR seg y) ;;
  if seg =? SS_REG then UPDATE_INTEL_IP ;; retired ;; ret NEXT_INST else ret Completed.

Definition XCHG_E_G (sz modRM : Z) : X unit :=
  e <- D_E sz modRM ov RW PG_W ;;
  x <- fetch sz e ;; y <- F_G sz modRM ;;
  let (x, y) := XCHG x y in put sz e x ;; P_G sz modRM y.
Definition op_86 : X unit := modRM <- GET_INST_BYTE ;; XCHG_E_G 8 modRM.
Definition op_87 : X unit := modRM <- GET_INST_BYTE ;; by_size (fun sz => XCHG_E_G sz modRM).
Definition op_91 (opcode : Z) : X unit :=
  by_size (fun sz =>
    x <- F_Fax sz ;; y <- F_H sz opcode ;;
    let (x, y) := XCHG x y in P_Fax sz x ;; P_H sz opcode y).

(** The offset in the instruction. *)
Definition op_a0 : X unit := o <- D_Ob ov RO PG_R ;; y <- fetch 8 o ;; P_Fax 8 y.
Definition op_a1 : X unit := by_size (fun sz => o <- D_O sz ov RO PG_R ;; y <- fetch sz o ;; P_Fax sz y).
Definition op_a2 : X unit := o <- D_Ob ov WO PG_W ;; y <- F_Fax 8 ;; put 8 o y.
Definition op_a3 : X unit := by_size (fun sz => o <- D_O sz ov WO PG_W ;; y <- F_Fax sz ;; put sz o y).

Definition op_b0 (opcode : Z) : X unit := y <- D_Ib ;; P_H 8 opcode y.
Definition op_b8 (opcode : Z) : X unit := by_size (fun sz => y <- D_Iv sz ;; P_H sz opcode y).

Definition op_c6 : X unit :=
  modRM <- GET_INST_BYTE ;;
  if GET_XXX modRM =? 0 then e <- D_Eb modRM ov WO PG_W ;; y <- D_Ib ;; P_Eb e y else Int6.
Definition op_c7 : X unit :=
  modRM <- GET_INST_BYTE ;;
  if GET_XXX modRM =? 0 then
    by_size (fun sz => e <- D_E sz modRM ov WO PG_W ;; y <- D_Iv sz ;; put sz e y)
  else Int6.

(** Widening moves from an operand of [from] bits. *)
Definition WIDEN (sz from modRM : Z) (f : Z -> Z) : X unit :=
  e <- D_E from modRM ov RO PG_R ;; y <- fetch from e ;; P_G sz modRM (f y).
Definition op_0fb6 : X unit := modRM <- GET_INST_BYTE ;; by_size (fun sz => WIDEN sz 8 modRM (fun y => y)).
Definition op_0fb7 : X unit := modRM <- GET_INST_BYTE ;; WIDEN 32 16 modRM (fun y => y).
Definition op_0fbe : X unit := modRM <- GET_INST_BYTE ;; by_size (fun sz => WIDEN sz 8 modRM (fun y => MOVSX y 8)).
Definition op_0fbf : X unit := modRM <- GET_INST_BYTE ;; WIDEN 32 16 modRM (fun y => MOVSX y 16).

(** ** Stack *)

Definition op_06 (opcode : Z) : X unit := s <- F_SR (GET_SEG2 opcode) ;; oncore (PUSH_SR s).
Definition op_07 (opcode : Z) : X next :=
  let seg := GET_SEG2 opcode in
  oncore (POP_SR seg) ;;
  if seg =? SS_REG then UPDATE_INTEL_IP ;; retired ;; ret NEXT_INST else ret Completed.
Definition op_50 (opcode : Z) : X unit := x <- by_size (fun sz => F_H sz opcode) ;; oncore (PUSH x).
Definition op_58 (opcode : Z) : X unit := by_size (fun sz => x <- oncore POP ;; P_H sz opcode x).
Definition op_61 : X unit := by_size (fun sz => oncore (if sz =? 16 then POPA else POPAD)).
Definition op_68 : X unit := x <- by_size D_Iv ;; oncore (PUSH x).
Definition op_6a : X unit := x <- by_size D_Ixy ;; oncore (PUSH x).
Definition op_8f : X unit :=
  modRM <- GET_INST_BYTE ;;
  if GET_XXX modRM =? 0 then
    by_size (fun sz =>
      modc (SET_pop_disp (sz / 8)) ;;
      e <- D_E sz modRM ov WO PG_W ;;
      x <- oncore POP ;;
      put sz e x) ;;
    modc (SET_pop_disp 0)
  else Int6.
Definition op_9c : X unit := iopl_v86 ;; oncore PUSHF.
Definition op_9d : X unit :=
  iopl_v86 ;; by_size (fun sz => oncore (if sz =? 16 then POPF else POPFD)) ;; leave_quick_mode.
Definition op_c8 : X unit :=
  x <- D_Iw ;; y <- D_Ib ;; by_size (fun sz => oncore (if sz =? 16 then ENTER16 x y else ENTER32 x y)).
Definition op_c9 : X unit := by_size (fun sz => oncore (if sz =? 16 then LEAVE16 else LEAVE32)).

(** ** Transfers *)

(** A worker that is given the address of the next instruction in EIP. *)
Definition transfer (w : X unit) : X unit := UPDATE_INTEL_IP_USE_OP_SIZE ;; w ;; CANCEL_HOST_IP.

Definition TYPE70 (inst : Z -> cpu -> cpu) : X unit := x <- D_Jb ;; transfer (modc (inst x)).
Definition TYPE0F80 (inst : Z -> cpu -> cpu) : X unit :=
  x <- by_size D_Jv ;; transfer (modc (inst x)) ;; modc (SET_took_relative_jump true).
Definition TYPEE0 (inst inst2 : Z -> cpu -> cpu) : X unit :=
  x <- D_Jb ;;
  transfer (modc (fun c => if address_size c =? USE16 then inst x c else inst2 x c)).
Definition TYPEE8 (inst : Z -> X unit) : X unit := absolute_toc ;; x <- by_size D_Jv ;; transfer (inst x).
Definition TYPE9A (inst : Z -> Z -> M exn (mach P) unit) : X unit :=
  absolute_toc ;;
  let! (off, seg) := by_size D_Av ;; transfer (oncore (inst off seg)).
Definition TYPEC2 (inst : Z -> M exn (mach P) unit) : X unit :=
  absolute_toc ;; x <- D_Iw ;; transfer (oncore (inst x)).
Definition TYPEC3 (inst : Z -> M exn (mach P) unit) : X unit := absolute_toc ;; transfer (oncore (inst 0)).
Definition TYPEFF_2 (modRM : Z) (inst : Z -> M exn (mach P) unit) : X unit :=
  absolute_toc ;;
  x <- by_size (fun sz => e <- D_E sz modRM ov RO PG_R ;; fetch sz e) ;;
  transfer (oncore (inst x)).
Definition far_pointer (modRM : Z) : X (Z * Z) :=
  by_size (fun sz => if sz =? 16 then o <- D_Mp16 modRM ov RO PG_R ;; F_Mp16 o
                     else o <- D_Mp32 modRM ov RO PG_R ;; F_Mp32 o).
Definition TYPEFF_3 (modRM : Z) (inst : Z -> Z -> M exn (mach P) unit) : X unit :=
  absolute_toc ;;
  let! (off, seg) := far_pointer modRM ;; transfer (oncore (inst off seg)).

(** The conditional jumps and the condition bytes. *)
Definition jxx (n : Z) : Z -> cpu -> cpu :=
  nth (Z.to_nat n) [JO; JNO; JB; JNB; JZ; JNZ; JBE; JNBE; JS; JNS; JP; JNP; JL; JNL; JLE; JNLE] (fun _ c => c).
Definition setxx (n : Z) : FLAGS -> Z :=
  nth (Z.to_nat n) [SETO; SETNO; SETB; SETNB; SETZ; SETNZ; SETBE; SETNBE; SETS; SETNS; SETP; SETNP;
                    SETL; SETNL; SETLE; SETNLE] (fun _ => 0).
Definition TYPE0F90 (inst : FLAGS -> Z) : X unit :=
  modRM <- GET_INST_BYTE ;;
  e <- D_Eb modRM ov WO PG_W ;;
  x <- getc (fun c => inst (fl c)) ;; P_Eb e x.

Definition op_fe : X unit :=
  modRM <- GET_INST_BYTE ;;
  match GET_XXX modRM with 0 => TYPEF6_3 modRM INC | 1 => TYPEF6_3 modRM DEC | _ => Int6 end.
Definition op_ff : X unit :=
  modRM <- GET_INST_BYTE ;;
  match GET_XXX modRM with
  | 0 => TYPEF7_3 modRM INC
  | 1 => TYPEF7_3 modRM DEC
  | 2 => TYPEFF_2 modRM CALLN
  | 3 => TYPEFF_3 modRM CALLF
  | 4 => TYPEFF_2 modRM JMPN
  | 5 => TYPEFF_3 modRM JMPF
  | 6 => TYPEF7_6 modRM (fun x => oncore (PUSH x)) (fun x => oncore (PUSH x))
  | _ => Int6
  end.

(** Software interrupts: a pending single step trap is forgotten. *)
Definition software_int (w : M exn (mach P) unit) : X unit :=
  UPDATE_INTEL_IP ;; modify (SET_start_trap 0) ;; oncore w ;; CANCEL_HOST_IP.
Definition op_cc : X unit := absolute_toc ;; software_int (INTx 3).
Definition op_cd : X unit := iopl_v86 ;; absolute_toc ;; x <- D_Ib ;; software_int (INTx x).
Definition op_ce : X unit :=
  o <- getc (fun c => OF (fl c)) ;; when (tst o) (absolute_toc ;; software_int INTO).
Definition op_cf : X next :=
  iopl_v86 ;; absolute_toc ;; UPDATE_INTEL_IP ;; oncore IRET ;; CANCEL_HOST_IP ;; retired ;; ret NEXT_INST.

(** ** Pointers, bounds, translation *)

Definition op_62 : X unit :=
  modRM <- GET_INST_BYTE ;;
  by_size (fun sz =>
    o <- D_pair sz modRM ov RO PG_R ;;
    x <- F_G sz modRM ;;
    let! (lo, hi) := fetch2 sz sz o ;; oncore (BOUND x lo hi sz)).
Definition op_63 : X unit :=
  np <- getc not_protected ;; when np Int6 ;;
  modRM <- GET_INST_BYTE ;;
  e <- D_Ew modRM ov RW PG_W ;;
  x <- F_Ew e ;; y <- F_G 16 modRM ;; r <- oncore (ARPL x y) ;; P_Ew e r.
Definition LxS (modRM : Z) (inst : Z * Z -> M exn (mach P) Z) : X unit :=
  by_size (fun sz =>
    o <- (if sz =? 16 then D_Mp16 modRM ov RO PG_R else D_Mp32 modRM ov RO PG_R) ;;
    ptr <- (if sz =? 16 then F_Mp16 o else F_Mp32 o) ;;
    r <- oncore (inst ptr) ;; P_G sz modRM r).
Definition op_d7 : X unit := o <- D_Z ov RO PG_R ;; x <- fetch 8 o ;; modc (XLAT x).

(** ** Strings *)

Section Strings.
Context (repeat : Z).

(** A loop over the count register. *)
Definition string_loop (body : Z -> X bool) : X unit :=
  n <- STRING_COUNT repeat ;; while_count (Z.to_nat n) body.
Definition goes_on (w : X unit) : X bool := w ;; ret false.

(** The end of a round of CMPS and SCAS. *)
Definition found (rep_count : Z) : X bool :=
  getc (fun c => tst rep_count
    && ((repeat =? REP_E) && (ZF (fl c) =? 0) || (repeat =? REP_NE) && (ZF (fl c) =? 1))).

Definition MOVS (sz : Z) : X unit := string_loop (fun rep_count => goes_on (
  x <- D_X sz ov RO PG_R ;; y <- D_Y sz WO PG_W ;;
  v <- fetch sz x ;;
  C_Y sz repeat rep_count ;; C_X sz repeat rep_count ;;
  put sz y v)).
Definition CMPS (sz : Z) : X unit := string_loop (fun rep_count =>
  x <- D_X sz ov RO PG_R ;; y <- D_Y sz RO PG_R ;;
  a <- fetch sz x ;; b <- fetch sz y ;;
  set_flags (CMP a b sz) ;;
  C_X sz repeat rep_count ;; C_Y sz repeat rep_count ;;
  found rep_count).
(** The count and the accumulator are read before the loop. *)
Definition STOS (sz : Z) : X unit :=
  n <- STRING_COUNT repeat ;;
  v <- F_Fax sz ;;
  while_count (Z.to_nat n) (fun rep_count => goes_on (
    y <- D_Y sz WO PG_W ;; C_Y sz repeat rep_count ;; put sz y v)).
Definition LODS (sz : Z) : X unit := string_loop (fun rep_count => goes_on (
  x <- D_X sz ov RO PG_R ;; v <- fetch sz x ;; P_Fax sz v ;; C_X sz repeat rep_count)).
Definition SCAS (sz : Z) : X unit :=
  n <- STRING_COUNT repeat ;;
  a <- F_Fax sz ;;
  while_count (Z.to_nat n) (fun rep_count =>
    y <- D_Y sz RO PG_R ;; b <- fetch sz y ;;
    set_flags (CMP a b sz) ;;
    C_Y sz repeat rep_count ;;
    found rep_count).
Definition INS (sz : Z) : X unit :=
  n <- STRING_COUNT repeat ;;
  port <- F_Fdx ;;
  io_check port (sz / 8) ;;
  while_count (Z.to_nat n) (fun rep_count => goes_on (
    y <- D_Y sz WO PG_W ;; v <- IN sz port ;; C_Y sz repeat rep_count ;; put sz y v)).
Definition OUTS (sz : Z) : X unit :=
  n <- STRING_COUNT repeat ;;
  port <- F_Fdx ;;
  io_check port (sz / 8) ;;
  while_count (Z.to_nat n) (fun rep_count => goes_on (
    x <- D_X sz ov RO PG_R ;; v <- fetch sz x ;; OUT sz port v ;; C_X sz repeat rep_count)).

Definition op_6c : X unit := INS 8 ;; leave_quick_mode.
Definition op_6d : X unit := by_size INS ;; leave_quick_mode.
Definition op_6e : X unit := OUTS 8 ;; leave_quick_mode.
Definition op_6f : X unit := by_size OUTS ;; leave_quick_mode.
Definition op_a4 : X unit := MOVS 8.
Definition op_a5 : X unit := by_size MOVS.
Definition op_a6 : X unit := CMPS 8.
Definition op_a7 : X unit := by_size CMPS.
Definition op_aa : X unit := STOS 8.
Definition op_ab : X unit := by_size STOS.
Definition op_ac : X unit := LODS 8.
Definition op_ad : X unit := by_size LODS.
Definition op_ae : X unit := SCAS 8.
Definition op_af : X unit := by_size SCAS.
End Strings.

(** ** Ports *)

Definition in_port (sz port : Z) : X unit := io_check port (sz / 8) ;; v <- IN sz port ;; P_Fax sz v.
Definition out_port (sz port : Z) : X unit := io_check port (sz / 8) ;; v <- F_Fax sz ;; OUT sz port v.

Definition op_e4 : X unit := port <- D_Ib ;; in_port 8 port ;; leave_quick_mode.
Definition op_e5 : X unit := port <- D_Ib ;; by_size (fun sz => in_port sz port) ;; leave_quick_mode.
Definition op_e6 : X unit := port <- D_Ib ;; out_port 8 port.
Definition op_e7 : X unit := port <- D_Ib ;; by_size (fun sz => out_port sz port) ;; leave_quick_mode.
Definition op_ec : X unit := port <- F_Fdx ;; in_port 8 port ;; leave_quick_mode.
Definition op_ed : X unit := port <- F_Fdx ;; by_size (fun sz => in_port sz port) ;; leave_quick_mode.
Definition op_ee : X unit := port <- F_Fdx ;; out_port 8 port ;; leave_quick_mode.
Definition op_ef : X unit := port <- F_Fdx ;; by_size (fun sz => out_port sz port) ;; leave_quick_mode.

(** ** BOP, the coprocessor, HLT, the interrupt flag *)

(** The bytes of a [c4 c4] to [c4 c7] instruction after the first. *)
Fixpoint bop_fields (n : nat) (immed : Z) : X Z :=
  match n with
  | O => ret immed
  | S n => b <- GET_INST_BYTE ;; bop_fields n ((immed .| b) .<< 8)
  end.

Definition c_cpu_unsimulate : X next := modify (SET_in_C 1) ;; ret LEFT.

Definition call_bop (nr : Z) : X next :=
  modify (SET_in_C 1) ;;
  left <- bop nr ;;
  if (left : bool) then ret LEFT else modify (SET_in_C 0) ;; CANCEL_HOST_IP ;; ret Completed.

Definition long_bop (modRM : Z) : X next :=
  nr <- D_Ib ;;
  fields <- bop_fields (Z.to_nat (modRM .& 3)) 0 ;;
  let immed := fields .| nr in
  UPDATE_INTEL_IP ;;
  if immed .& 0xff =? 0xfe then
    if immed =? 0xfe then c_cpu_unsimulate
    else EDL_fast_bop immed ;; CANCEL_HOST_IP ;; ret Completed
  else call_bop nr.

Definition TYPEC4 (les : bool) (inst : Z * Z -> M exn (mach P) Z) : X next :=
  modRM <- GET_INST_BYTE ;;
  if (modRM .& 0xfc =? 0xc4) && les then long_bop modRM else LxS modRM inst ;; ret Completed.

Definition op_d6 : X next :=
  nr <- D_Ib ;; UPDATE_INTEL_IP ;; if nr =? 0xfe then c_cpu_unsimulate else call_bop nr.

Definition op_d8 (opcode : Z) : X next :=
  off <- getc (fun c => tst (GET_EM c) || tst (GET_TS c)) ;;
  when off Int7 ;;
  needed <- gets NpxIntrNeeded ;;
  if (needed : bool) then TakeNpxExceptionInt ;; ret DO_INST
  else modRM <- GET_INST_BYTE ;; ZFRSRVD ((opcode - 0xd8) * 0x100 + modRM) ov ;; ret Completed.

Definition op_9b : X unit := w <- getc (fun c => tst (GET_MP c) && tst (GET_TS c)) ;; when w Int7.
Definition op_f4 : X next := ring0_only ;; UPDATE_INTEL_IP ;; ret RESUME_HALT.
Definition op_fa : X unit := iopl_check ;; modc CLI.
Definition op_fb : X next := iopl_check ;; modc STI ;; UPDATE_INTEL_IP ;; retired ;; ret NEXT_INST.

(** ** The two-byte opcodes *)

Definition done (w : X unit) : X next := w ;; ret Completed.

(** A selector or status word that is stored, and one that is loaded. *)
Definition TYPE0F00_0 (modRM : Z) (inst : cpu -> Z) : X unit :=
  e <- D_Ew modRM ov WO PG_W ;; x <- getc inst ;; P_Ew e x.
Definition TYPE0F00_2 (modRM : Z) (inst : Z -> X unit) : X unit :=
  e <- D_Ew modRM ov RO PG_R ;; x <- F_Ew e ;; inst x.
Definition op_0f00 : X unit :=
  np <- getc not_protected ;; when np Int6 ;;
  modRM <- GET_INST_BYTE ;;
  match GET_XXX modRM with
  | 0 => TYPE0F00_0 modRM SLDT
  | 1 => TYPE0F00_0 modRM STR
  | 2 => ring0_only ;; TYPE0F00_2 modRM (fun x => oncore (LLDT x))
  | 3 => ring0_only ;; TYPE0F00_2 modRM (fun x => oncore (LTR x))
  | 4 => TYPE0F00_2 modRM (fun x => oncore (VERR x))
  | 5 => TYPE0F00_2 modRM (fun x => oncore (VERW x))
  | _ => Int6
  end.

Definition TYPE0F01_0 (modRM : Z) (inst inst2 : cpu -> Z * Z) : X unit :=
  when (GET_MODE modRM =? 3) Int6 ;;
  o <- D_Ms modRM ov WO PG_W ;;
  x <- by_size (fun sz => getc (if sz =? 16 then inst else inst2)) ;;
  P_Ms o x.
Definition TYPE0F01_2 (modRM : Z) (inst inst2 : Z * Z -> cpu -> cpu) : X unit :=
  when (GET_MODE modRM =? 3) Int6 ;;
  ring0_only ;;
  o <- D_Ms modRM ov RO PG_R ;;
  x <- F_Ms o ;;
  by_size (fun sz => modc (if sz =? 16 then inst x else inst2 x)).
Definition op_0f01 : X unit :=
  modRM <- GET_INST_BYTE ;;
  match GET_XXX modRM with
  | 0 => TYPE0F01_0 modRM SGDT16 SGDT32
  | 1 => TYPE0F01_0 modRM SIDT16 SIDT32
  | 2 => TYPE0F01_2 modRM LGDT16 LGDT32
  | 3 => TYPE0F01_2 modRM LIDT16 LIDT32
  | 4 => TYPE0F00_0 modRM SMSW
  | 6 => ring0_only ;; TYPE0F00_2 modRM (fun x => modc (LMSW x))
  | _ => Int6
  end.
Definition TYPE0F02 (inst : Z -> M exn (mach P) (option Z)) : X unit :=
  np <- getc not_protected ;; when np Int6 ;;
  modRM <- GET_INST_BYTE ;;
  by_size (fun sz =>
    e <- D_Ew modRM ov RO PG_R ;;
    x <- F_G sz modRM ;; y <- F_Ew e ;;
    r <- oncore (inst y) ;; P_G sz modRM (default x r)).

(** Moves from and to the special registers. *)
Definition MOV_Rd (src : Z -> X Z) : X unit :=
  ring0_only ;; modRM <- GET_INST_BYTE ;; x <- src modRM ;; P_Rd modRM x.
Definition MOV_special (dst : Z -> Z -> X unit) : X unit :=
  ring0_only ;; modRM <- GET_INST_BYTE ;; x <- F_Rd modRM ;; dst (GET_EEE modRM) x.
Definition op_0f20 : X unit := MOV_Rd F_Cd.
Definition op_0f21 : X unit := MOV_Rd F_Dd.
Definition op_0f22 : X unit := MOV_special (fun i x => oncore (MOV_CR i x)).
Definition op_0f23 : X unit := MOV_special (fun i x => oncore (MOV_DR i x)) ;; leave_quick_mode.
Definition op_0f24 : X unit := MOV_Rd F_Td.
Definition op_0f26 : X unit := MOV_special (fun i x => oncore (MOV_TR i x)).

Definition op_0fa0 (opcode : Z) : X unit := s <- F_SR (GET_SEG3 opcode) ;; oncore (PUSH_SR s).
Definition op_0fa1 (opcode : Z) : X unit := oncore (POP_SR (GET_SEG3 opcode)).

(** Bit tests with the offset in a register. *)
Definition op_0fa3 : X unit :=
  modRM <- GET_INST_BYTE ;;
  by_size (fun sz => let! (_, x, y) := BT_OPS sz modRM ov RO PG_R ;; set_flags (BT x y sz)).
Definition TYPE0FAB (inst : inst2) : X unit :=
  modRM <- GET_INST_BYTE ;;
  by_size (fun sz => let! (e, x, y) := BT_OPS sz modRM ov RW PG_W ;; r <- inst x y sz ;; put sz e r).
Definition op_0fba : X unit :=
  modRM <- GET_INST_BYTE ;;
  match GET_XXX modRM with
  | 4 => by_size (fun sz => CMP_E_imm sz modRM D_Ib BT)
  | 5 => TYPEC1 modRM (alu BTS)
  | 6 => TYPEC1 modRM (alu BTR)
  | 7 => TYPEC1 modRM (alu BTC)
  | _ => Int6
  end.

(** Double shifts: the count is an immediate or CL. *)
Definition E_G_double (sz modRM : Z) (inst : Z -> Z -> Z -> Z -> FLAGS -> Z * FLAGS) (imm : bool) : X unit :=
  e <- D_E sz modRM ov RW PG_W ;;
  if imm then
    z <- D_Ib ;; x <- fetch sz e ;; y <- F_G sz modRM ;; r <- on_flags (inst x y z sz) ;; put sz e r
  else
    x <- fetch sz e ;; y <- F_G sz modRM ;; z <- F_Fcl ;; r <- on_flags (inst x y z sz) ;; put sz e r.
Definition TYPE0FA4 (inst : Z -> Z -> Z -> Z -> FLAGS -> Z * FLAGS) : X unit :=
  modRM <- GET_INST_BYTE ;; by_size (fun sz => E_G_double sz modRM inst true).
Definition TYPE0FA5 (inst : Z -> Z -> Z -> Z -> FLAGS -> Z * FLAGS) : X unit :=
  modRM <- GET_INST_BYTE ;; by_size (fun sz => E_G_double sz modRM inst false).

Definition op_0fbc : X unit :=
  modRM <- GET_INST_BYTE ;; by_size (fun sz => G_E sz modRM (fun x y _ => scan (BSF x y))).

(** The opcodes not listed raise exception 6. *)
Definition two_byte : X next :=
  opcode <- GET_INST_BYTE ;;
  when (0xd0 <=? opcode) Int6 ;;
  match opcode with
  | 0x00 => done op_0f00
  | 0x01 => done op_0f01
  | 0x02 => done (TYPE0F02 LAR)
  | 0x03 => done (TYPE0F02 LSL)
  | 0x06 => done (ring0_only ;; modc CLTS)
  | 0x07 | 0x10 | 0x11 | 0x12 | 0x13 => ret Completed
  | 0x20 => done op_0f20 | 0x21 => done op_0f21 | 0x22 => done op_0f22
  | 0x23 => done op_0f23 | 0x24 => done op_0f24 | 0x26 => done op_0f26
  | 0xa0 | 0xa8 => done (op_0fa0 opcode)
  | 0xa1 | 0xa9 => done (op_0fa1 opcode)
  | 0xa2 | 0xa6 | 0xa7 => done (note_486_instruction ;; Int6)
  | 0xaa => done note_486_instruction
  | 0xa3 => done op_0fa3
  | 0xa4 => done (TYPE0FA4 SHLD) | 0xa5 => done (TYPE0FA5 SHLD)
  | 0xac => done (TYPE0FA4 SHRD) | 0xad => done (TYPE0FA5 SHRD)
  | 0xab => done (TYPE0FAB (alu BTS))
  | 0xb3 => done (TYPE0FAB (alu BTR))
  | 0xbb => done (TYPE0FAB (alu BTC))
  | 0xaf => done op_0faf
  | 0xb2 => TYPEC4 false LSS | 0xb4 => TYPEC4 false LFS | 0xb5 => TYPEC4 false LGS
  | 0xb6 => done op_0fb6 | 0xb7 => done op_0fb7
  | 0xba => done op_0fba
  | 0xbc => done op_0fbc
  | 0xbd => done (TYPE03 (fun x y sz => scan (BSR x y sz)))
  | 0xbe => done op_0fbe | 0xbf => done op_0fbf
  | _ =>
      if (0x80 <=? opcode) && (opcode <=? 0x8f) then done (TYPE0F80 (jxx (opcode - 0x80)))
      else if (0x90 <=? opcode) && (opcode <=? 0x9f) then done (TYPE0F90 (setxx (opcode - 0x90)))
      else done Int6
  end.

End Operands.

(** ** The switch *)

(** The opcodes in eights: 00-3f, where the low three bits are the operand form. *)
Definition arith_form (ov low : Z) (inst : inst2) : X unit :=
  match low with
  | 0 => TYPE00 ov inst | 1 => TYPE01 ov inst | 2 => TYPE02 ov inst
  | 3 => TYPE03 ov inst | 4 => TYPE04 inst | _ => TYPE05 inst
  end.

Definition switch_00_3f (opcode ov repeat : Z) : X next :=
  match opcode with
  | 0x06 | 0x0e | 0x16 | 0x1e => done (op_06 opcode)
  | 0x07 | 0x17 | 0x1f => op_07 opcode
  | 0x0f => two_byte ov
  | 0x26 => ret (DECODE ES_REG repeat)
  | 0x2e => ret (DECODE CS_REG repeat)
  | 0x36 => ret (DECODE SS_REG repeat)
  | 0x3e => ret (DECODE DS_REG repeat)
  | 0x27 => done (modc DAA)
  | 0x2f => done (modc DAS)
  | 0x37 => done (modc AAA)
  | 0x3f => done (modc AAS)
  | 0x38 => done (TYPE38 ov CMP) | 0x39 => done (TYPE39 ov CMP)
  | 0x3a => done (op_3a ov) | 0x3b => done (op_3b ov)
  | 0x3c => done (TYPE3C CMP) | 0x3d => done (TYPE3D CMP)
  | _ =>
      match group1 (opcode .>> 3) with
      | Some inst => done (arith_form ov (opcode .& 7) inst)
      | None => ret Completed
      end
  end.

(** A size prefix selects the size that is not the default of the code segment. *)
Definition other_size (c : cpu) : Z := if ar_x (GET_SR CS_REG c) =? USE16 then USE32 else USE16.

Definition switch_40_7f (opcode ov repeat : Z) : X next :=
  match opcode with
  | 0x60 => done (oncore PUSHA)
  | 0x61 => done op_61
  | 0x62 => done (op_62 ov)
  | 0x63 => done (op_63 ov)
  | 0x64 => ret (DECODE FS_REG repeat)
  | 0x65 => ret (DECODE GS_REG repeat)
  | 0x66 => modc (fun c => SET_operand_size (other_size c) c) ;; ret (DECODE ov repeat)
  | 0x67 => modc (fun c => SET_address_size (other_size c) c) ;; ret (DECODE ov repeat)
  | 0x68 => done op_68 | 0x69 => done (op_69 ov)
  | 0x6a => done op_6a | 0x6b => done (op_6b ov)
  | 0x6c => done (op_6c repeat) | 0x6d => done (op_6d repeat)
  | 0x6e => done (op_6e ov repeat) | 0x6f => done (op_6f ov repeat)
  | _ =>
      if opcode <=? 0x47 then done (TYPE40 opcode INC)
      else if opcode <=? 0x4f then done (TYPE40 opcode DEC)
      else if opcode <=? 0x57 then done (op_50 opcode)
      else if opcode <=? 0x5f then done (op_58 opcode)
      else done (TYPE70 (jxx (opcode - 0x70)))
  end.

Definition switch_80_bf (opcode ov repeat : Z) : X next :=
  match opcode with
  | 0x80 | 0x82 => done (op_80 ov)
  | 0x81 => done (op_81 ov)
  | 0x83 => done (op_83 ov)
  | 0x84 => done (TYPE38 ov TEST) | 0x85 => done (TYPE39 ov TEST)
  | 0x86 => done (op_86 ov) | 0x87 => done (op_87 ov)
  | 0x88 => done (op_88 ov) | 0x89 => done (op_89 ov)
  | 0x8a => done (op_8a ov) | 0x8b => done (op_8b ov)
  | 0x8c => done (op_8c ov) | 0x8d => done (op_8d ov)
  | 0x8e => op_8e ov
  | 0x8f => done (op_8f ov)
  | 0x90 => ret Completed
  | 0x91 | 0x92 | 0x93 | 0x94 | 0x95 | 0x96 | 0x97 => done (op_91 opcode)
  | 0x98 => done (by_size (fun sz => modc (if sz =? 16 then CBW else CWDE)))
  | 0x99 => done (by_size (fun sz => modc (if sz =? 16 then CWD else CDQ)))
  | 0x9a => done (TYPE9A CALLF)
  | 0x9b => done op_9b
  | 0x9c => done op_9c | 0x9d => done op_9d
  | 0x9e => done (modc SAHF) | 0x9f => done (modc LAHF)
  | 0xa0 => done (op_a0 ov) | 0xa1 => done (op_a1 ov)
  | 0xa2 => done (op_a2 ov) | 0xa3 => done (op_a3 ov)
  | 0xa4 => done (op_a4 ov repeat) | 0xa5 => done (op_a5 ov repeat)
  | 0xa6 => done (op_a6 ov repeat) | 0xa7 => done (op_a7 ov repeat)
  | 0xa8 => done (TYPE3C TEST) | 0xa9 => done (TYPE3D TEST)
  | 0xaa => done (op_aa repeat) | 0xab => done (op_ab repeat)
  | 0xac => done (op_ac ov repeat) | 0xad => done (op_ad ov repeat)
  | 0xae => done (op_ae repeat) | 0xaf => done (op_af repeat)
  | _ => if opcode <=? 0xb7 then done (op_b0 opcode) else done (op_b8 opcode)
  end.

Definition switch_c0_ff (opcode ov repeat : Z) : X next :=
  match opcode with
  | 0xc0 => done (op_c0 ov) | 0xc1 => done (op_c1 ov)
  | 0xc2 => done (TYPEC2 RETN) | 0xc3 => done (TYPEC3 RETN)
  | 0xc4 => TYPEC4 ov true LES | 0xc5 => TYPEC4 ov false LDS
  | 0xc6 => done (op_c6 ov) | 0xc7 => done (op_c7 ov)
  | 0xc8 => done op_c8 | 0xc9 => done op_c9
  | 0xca => done (TYPEC2 RETF) | 0xcb => done (TYPEC3 RETF)
  | 0xcc => done op_cc | 0xcd => done op_cd | 0xce => done op_ce
  | 0xcf => op_cf
  | 0xd0 => done (op_d0 ov) | 0xd1 => done (op_d1 ov)
  | 0xd2 => done (op_d2 ov) | 0xd3 => done (op_d3 ov)
  | 0xd4 => done (x <- D_Ib ;; AAM x)
  | 0xd5 => done (x <- D_Ib ;; modc (AAD x))
  | 0xd6 => op_d6
  | 0xd7 => done (op_d7 ov)
  | 0xd8 | 0xd9 | 0xda | 0xdb | 0xdc | 0xdd | 0xde | 0xdf => op_d8 ov opcode
  | 0xe0 => done (TYPEE0 LOOPNE16 LOOPNE32) | 0xe1 => done (TYPEE0 LOOPE16 LOOPE32)
  | 0xe2 => done (TYPEE0 LOOP16 LOOP32) | 0xe3 => done (TYPEE0 JCXZ JECXZ)
  | 0xe4 => done op_e4 | 0xe5 => done op_e5 | 0xe6 => done op_e6 | 0xe7 => done op_e7
  | 0xe8 => done (TYPEE8 (fun x => oncore (CALLR x)))
  | 0xe9 => done (TYPEE8 (fun x => modc (update_relative_ip x)))
  | 0xea => done (TYPE9A JMPF)
  | 0xeb => done (absolute_toc ;; TYPE70 update_relative_ip)
  | 0xec => done op_ec | 0xed => done op_ed | 0xee => done op_ee | 0xef => done op_ef
  | 0xf0 | 0xf1 => ret (DECODE ov repeat)
  | 0xf2 => ret (DECODE ov REP_NE)
  | 0xf3 => ret (DECODE ov REP_E)
  | 0xf4 => op_f4
  | 0xf5 => done (set_flags CMC)
  | 0xf6 => done (op_f6 ov) | 0xf7 => done (op_f7 ov)
  | 0xf8 => done (set_flags CLC) | 0xf9 => done (set_flags STC)
  | 0xfa => done op_fa
  | 0xfb => op_fb
  | 0xfc => done (set_flags CLD) | 0xfd => done (set_flags STD)
  | 0xfe => done (op_fe ov)
  | _ => done (op_ff ov)
  end.

(** From the label DECODE: the next byte and its case. *)
Definition decode (ov repeat : Z) : X next :=
  opcode <- GET_INST_BYTE ;;
  if opcode <=? 0x3f then switch_00_3f opcode ov repeat
  else if opcode <=? 0x7f then switch_40_7f opcode ov repeat
  else if opcode <=? 0xbf then switch_80_bf opcode ov repeat
  else switch_c0_ff opcode ov repeat.

End Switch.
End Decode.
