(* ===== verification/Main.v ===== *)
(** * The main loop of the CPU

    [ccpu] of [c_main.c] around the opcode switch: the instruction boundary with its
    events, traps and interrupts, fetch preparation, the halt loop, and what happens
    after an exception; with [c_cpu_interrupt] and the other entry points of the file.

    The labels of the function are the phases [next].  One step runs from a label to the
    next: a prefix byte and a round of the halt loop are steps of their own, so a step
    always ends. *)

From S2P Require Import Prelude Cpu Debug Arith Shift Xcptn MulDiv Decimal Flow Mem Tlb Page Basic Seg Virt Addr.
From S2P Require Import Stack Xfer Intr Wp Ring System Ios Oprnd Decode.

Module Main.
Import Debug Xcptn Tlb Page Basic Seg Virt Addr Stack Xfer Intr Oprnd Decode.

(** The bits of [cpu_interrupt_map]. *)
Definition CPU_HW_INT_MASK : Z := 0x1.
Definition CPU_SIGIO_EXCEPTION_MASK : Z := 0x1000.
Definition CPU_SAD_EXCEPTION_MASK : Z := 0x2000.
Definition CPU_RESET_EXCEPTION_MASK : Z := 0x4000.
Definition CPU_SIGALRM_EXCEPTION_MASK : Z := 0x8000.

Definition DSR_BS_MASK : Z := BIT_MASK 14.
Definition DSR_B_MASK : Z := BIT_MASK 3 .| BIT_MASK 2 .| BIT_MASK 1 .| BIT_MASK 0.

Inductive CPU_INT_TYPE := CPU_HW_RESET | CPU_TIMER_TICK | CPU_HW_INT | CPU_SAD_INT | CPU_SIGIO_EVENT | CPU_NPX_INT.

Section Entries.
Context {P D : Type}.

(** ** Entry points for the devices *)

Definition raise_bit (mask : Z) (s : exec P D) : exec P D := SET_cpu_interrupt_map (cpu_interrupt_map s .| mask) s.
Definition clear_bit (mask : Z) (s : exec P D) : exec P D := SET_cpu_interrupt_map (cpu_interrupt_map s .& not32 mask) s.
Definition pending (mask : Z) (s : exec P D) : bool := tst (cpu_interrupt_map s .& mask).

Definition c_cpu_interrupt (type : CPU_INT_TYPE) (number : Z) (s : exec P D) : exec P D :=
  SET_quick_mode false
    (match type with
     | CPU_HW_RESET => raise_bit CPU_RESET_EXCEPTION_MASK s
     | CPU_TIMER_TICK => raise_bit CPU_SIGALRM_EXCEPTION_MASK s
     | CPU_SIGIO_EVENT => raise_bit CPU_SIGIO_EXCEPTION_MASK s
     | CPU_HW_INT => raise_bit CPU_HW_INT_MASK s
     | CPU_SAD_INT => raise_bit CPU_SAD_EXCEPTION_MASK s
     | CPU_NPX_INT => s
     end).
Definition c_cpu_clearHwInt : exec P D -> exec P D := clear_bit CPU_HW_INT_MASK.
Definition clear_any_thingies : exec P D -> exec P D := clear_bit CPU_SIGALRM_EXCEPTION_MASK.

Definition c_cpu_q_ev_set_count (countval : Z) : exec P D -> exec P D := SET_cpu_heartbeat countval.
Definition c_cpu_q_ev_get_count (s : exec P D) : Z := cpu_heartbeat s.
Definition c_cpu_calc_q_ev_inst_for_time (time : Z) : Z := time.

(** ** The execution state in a snapshot *)

Record execution_state := mkExecution {
  debug_registers : list Z;
  test_registers : list Z;
  x_interrupt_map : Z;
  x_start_trap : Z
}.

Definition GET_TR (i : Z) (s : exec P D) : Z :=
  if i =? 6 then TR_TCR (core s) else if i =? 7 then TR_TDR (core s) else TR_cache s i.
Definition SET_TR (i x : Z) (s : exec P D) : exec P D :=
  if i =? 6 then SET_core (SET_TCR x (core s)) s
  else if i =? 7 then SET_core (SET_TDR x (core s)) s
  else SET_TR_cache (set_at (TR_cache s) i x) s.
Definition on_DR (i x : Z) (s : exec P D) : exec P D :=
  SET_core (SET_mdbg (SET_DR i x (mdbg (core s))) (core s)) s.

Definition eight : list Z := [0; 1; 2; 3; 4; 5; 6; 7].

Definition softpc_ccpu_snapshot_capture_execution (s : exec P D) : execution_state :=
  mkExecution (map (DR (mdbg (core s))) eight) (map (fun i => GET_TR i s) eight) (cpu_interrupt_map s) (start_trap s).

Definition softpc_ccpu_snapshot_restore_execution (state : execution_state) (s : exec P D) : exec P D :=
  let s := fold_left (fun s i =>
             SET_TR i (nth (Z.to_nat i) (test_registers state) 0)
               (on_DR i (nth (Z.to_nat i) (debug_registers state) 0) s)) eight s in
  SET_quick_mode false (SET_start_trap (x_start_trap state) (SET_cpu_interrupt_map (x_interrupt_map state) s)).

End Entries.

Section Loop.
Context {P D : Type} `{PhyMem P} `{CodeMem P} `{Ios.Adapters exn (exec P D)} `{Host P D}.
Context (shiftrot_of_undef : bool).

Abbreviation X := (M exn (exec P D)).

(** ** Reset *)

(** What [c_cpu_reset] sets outside the registers of [cpu]. *)
Definition reset_rest : X unit :=
  oncore (ondbg (fun d => SET_DR DR_DSR 0 (SET_DR 3 0 (SET_DR 2 0 (SET_DR 1 0 (SET_DR 0 0 d)))))) ;;
  oncore (MOV_DR DR_DCR 0) ;;
  modify (SET_TR 6 0) ;; modify (SET_TR 7 0) ;;
  InitNpx.

Definition clear_status (c : cpu) : cpu :=
  SET_pop_disp 0 (modify_xs (fun x => SET_EXT INTERNAL (SET_doing_fault false (SET_doing_double_fault false
    (SET_doing_page_fault false (SET_doing_contributory false x))))) c).

Definition reset : X unit := modc c_cpu_reset ;; reset_rest ;; modc clear_status.
Definition c_cpu_init : X unit := reset.

(** ** Pieces of the loop *)

Definition QUICK_EVENT_TICK : X unit :=
  n <- gets cpu_heartbeat ;;
  when (negb (n =? 0))
    (modify (SET_cpu_heartbeat (n - 1)) ;;
     when (n - 1 =? 0) (dispatch_q_event ;; leave_quick_mode)).

(** Go on unless the call left the CPU. *)
Definition unless_left (m : X bool) (k : X next) : X next :=
  left <- m ;; if (left : bool) then ret LEFT else k.

(** Host events that have arrived. *)
Definition mailbox : X bool :=
  tick <- softpc_platform_consume_clock_tick ;;
  when tick softpc_platform_timer_event ;;
  wake <- softpc_platform_consume_executor_wake ;;
  if (wake : bool) then softpc_platform_executor_event else ret false.

(** An event bit that is taken. *)
Definition take_event (mask : Z) (handler : X unit) : X unit :=
  b <- gets (pending mask) ;; when b (modify (clear_bit mask) ;; handler).

Definition default_sizes (c : cpu) : cpu :=
  let x := ar_x (GET_SR CS_REG c) in SET_address_size x (SET_operand_size x c).
Definition save_EIP (c : cpu) : cpu := modify_xs (SET_CCPU_save_EIP (ip c)) c.
Definition DSR : X Z := gets (fun s => DR (mdbg (core s)) DR_DSR).

(** ** The end of an instruction *)

(** Traps and breakpoints, from "INTEL inter instruction processing". *)
Definition debug_traps : X unit :=
  trap <- gets start_trap ;;
  when (tst trap)
    (oncore (ondbg (fun d => SET_DR DR_DSR (DR d DR_DSR .| DSR_BS_MASK) d)) ;; Int1_t) ;;
  dsr <- DSR ;;
  when (tst (dsr .& (DSR_BT_MASK .| DSR_B_MASK))) Int1_t ;;
  n <- gets (fun s => nr_inst_break (mdbg (core s))) ;;
  rf <- getc (fun c => RF (fl c)) ;;
  when (tst n && (rf =? 0))
    (la <- getc (fun c => u32 (base (GET_SR CS_REG c) + ip c)) ;;
     oncore (ondbg (check_for_inst_exception la)) ;;
     dsr <- DSR ;;
     when (tst dsr) Int1_f).

Definition hardware_interrupt : X unit :=
  enabled <- getc (fun c => tst (IF (fl c))) ;;
  b <- gets (pending CPU_HW_INT_MASK) ;;
  when (enabled && b)
    (acknowledged <- ica_intack ;;
     modify c_cpu_clearHwInt ;;
     when (negb (acknowledged =? -1))
       (modc (modify_xs (SET_EXT EXTERNAL)) ;;
        oncore (do_intrupt (u16 acknowledged) false false 0) ;;
        modc save_EIP)).

(** The slow path between two instructions. *)
Definition boundary : X next :=
  leave_quick_mode ;;
  r <- gets (pending CPU_RESET_EXCEPTION_MASK) ;;
  if (r : bool) then
    modify (clear_bit CPU_RESET_EXCEPTION_MASK) ;; reset ;; ret NEXT_INST
  else
    take_event CPU_SIGALRM_EXCEPTION_MASK host_timer_event ;;
    take_event CPU_SIGIO_EXCEPTION_MASK ica_sigio_event ;;
    unless_left mailbox
      (take_event CPU_SAD_EXCEPTION_MASK force_yoda ;;
       modc default_sizes ;;
       debug_traps ;;
       hardware_interrupt ;;
       ret NEXT_INST).

Definition completed : X next :=
  modc default_sizes ;;
  moved <- gets (fun s => negb (bool_decide (p s = p_start s))) ;;
  when moved UPDATE_INTEL_IP ;;
  modc save_EIP ;;
  retired ;;
  s <- get ;;
  when (quick_mode s && softpc_platform_has_pending_executor_event s) leave_quick_mode ;;
  q <- gets quick_mode ;;
  dsr <- DSR ;;
  if q && (dsr =? 0) then ret DO_INST else boundary.

(** ** Before an instruction *)

Definition next_inst : X next :=
  unless_left mailbox
    (softpc_platform_pace_instruction ;;
     r <- gets (pending CPU_RESET_EXCEPTION_MASK) ;;
     spent <- (if (r : bool) then ret false else softpc_platform_consume_instruction_budget) ;;
     if (spent : bool) then
       softpc_ccpu_lifecycle_request_exit ;;
       unless_left softpc_platform_executor_event (ret RESUME_FETCH)
     else ret RESUME_FETCH).

Definition resume_fetch : X next :=
  unless_left (softpc_ccpu_lifecycle_checkpoint false 0)
    (modc save_EIP ;;
     modc default_sizes ;;
     modc (fun c => SET_took_absolute_toc false (SET_took_relative_jump false c)) ;;
     SETUP_HOST_IP ;;
     modc (modify_fl (SET_RF 0)) ;;
     tf <- getc (fun c => TF (fl c)) ;;
     modify (SET_start_trap tf) ;;
     fast <- gets (fun s => (cpu_interrupt_map s =? 0) && (start_trap s =? 0) && (nr_inst_break (mdbg (core s)) =? 0)) ;;
     when fast (modify (SET_quick_mode true)) ;;
     ret DO_INST).

Definition do_inst : X next :=
  stopped <- softpc_host_debug_begin ;;
  if (stopped : bool) then leave_quick_mode ;; ret NEXT_INST
  else
    checks <- gets do_condition_checks ;;
    when checks (check_I ;; modc save_EIP) ;;
    QUICK_EVENT_TICK ;;
    modify (fun s => SET_p_start (p s) s) ;;
    ret (DECODE SEG_CLR REP_CLR).

(** One round of the halt loop. *)
Definition resume_halt : X next :=
  trap <- gets start_trap ;;
  unless_left (softpc_ccpu_lifecycle_checkpoint true trap)
    (r <- gets (pending CPU_RESET_EXCEPTION_MASK) ;;
     enabled <- getc (fun c => tst (IF (fl c))) ;;
     b <- gets (pending CPU_HW_INT_MASK) ;;
     if r || (enabled && b) then leave_quick_mode ;; ret Completed
     else
       take_event CPU_SIGALRM_EXCEPTION_MASK host_timer_event ;;
       take_event CPU_SIGIO_EXCEPTION_MASK ica_sigio_event ;;
       unless_left mailbox
         (QUICK_EVENT_TICK ;;
          idle <- gets (fun s => (cpu_interrupt_map s =? 0) && (c_cpu_q_ev_get_count s =? 0)) ;;
          if (idle : bool) then unless_left softpc_platform_wait_for_executor_event (ret RESUME_HALT)
          else ret RESUME_HALT)).

(** ** Steps *)

Definition run_phase (ph : next) : X next :=
  match ph with
  | Completed => completed
  | NEXT_INST => next_inst
  | RESUME_FETCH => resume_fetch
  | DO_INST => do_inst
  | DECODE ov repeat => decode shiftrot_of_undef ov repeat
  | RESUME_HALT => resume_halt
  | LEFT => ret LEFT
  end.

(** The start of [ccpu], to which exceptions return. *)
Definition restart : X next :=
  leave_quick_mode ;;
  entry <- softpc_ccpu_lifecycle_take_entry ;;
  match entry with
  | Some (true, trap) => modify (fun s => SET_p None (SET_p_start None (SET_start_trap trap s))) ;; ret RESUME_HALT
  | Some (false, _) => ret RESUME_FETCH
  | None => ret NEXT_INST
  end.

(** Deliver an exception ([Intr.deliver] with the rest of a reset after a shutdown). *)
Fixpoint take_exception (fuel : nat) (e : exn) : X unit :=
  match e with
  | CpuContinue => reset_rest
  | InterfaceAbort => throw InterfaceAbort
  | Intrupt vector priv_check has_error_code error_code =>
      match fuel with
      | O => undefined
      | S fuel => fun s =>
          match oncore (do_intrupt vector priv_check has_error_code error_code) s with
          | Raise e s => take_exception fuel e s
          | o => o
          end
      end
  end.

(** Deliveries nest at most four deep. *)
Definition step (ph : next) : X next := fun s =>
  match run_phase ph s with
  | Raise e s => (take_exception 4 e ;; restart) s
  | o => o
  end.

Fixpoint run (n : nat) (ph : next) : X next :=
  match n with
  | O => ret ph
  | S n => ph <- step ph ;; run n ph
  end.

(** [c_cpu_simulate] up to its return: [ccpu] starts where [restart] says. *)
Definition ccpu : X next :=
  modc (fun c => SET_took_absolute_toc false (SET_took_relative_jump false c)) ;; restart.
Definition c_cpu_simulate (n : nat) : X next :=
  modify (SET_in_C 0) ;; ph <- ccpu ;; run n ph.

End Loop.

(** ** A machine for concrete runs *)

(** No device, and a host that lets the CPU run and answers an interrupt acknowledge
    with vector 8. *)
#[export] Instance demo_adapters : Ios.Adapters exn (exec (Mem.sas unit) unit) := {|
  Ios.dev_inb := fun _ _ => ret 0xff; Ios.dev_inw := fun _ _ => ret 0xffff; Ios.dev_ind := fun _ _ => ret 0xffffffff;
  Ios.dev_outb := fun _ _ _ => ret tt; Ios.dev_outw := fun _ _ _ => ret tt; Ios.dev_outd := fun _ _ _ => ret tt
|}.
#[export] Instance demo_host : Host (Mem.sas unit) unit := {|
  NpxIntrNeeded := fun _ => false; TakeNpxExceptionInt := ret tt; ZFRSRVD := fun _ _ => ret tt;
  EDL_fast_bop := fun _ => ret tt; bop := fun _ => ret false; softpc_host_debug_begin := ret false;
  do_condition_checks := fun _ => false; check_I := ret tt; force_yoda := ret tt; note_486_instruction := ret tt;
  dispatch_q_event := ret tt; host_timer_event := ret tt; ica_sigio_event := ret tt; ica_intack := ret 8;
  softpc_platform_has_pending_executor_event := fun _ => false; softpc_platform_consume_clock_tick := ret false;
  softpc_platform_timer_event := ret tt; softpc_platform_consume_executor_wake := ret false;
  softpc_platform_executor_event := ret false; softpc_platform_pace_instruction := ret tt;
  softpc_platform_consume_instruction_budget := ret false; softpc_platform_wait_for_executor_event := ret false;
  softpc_ccpu_lifecycle_take_entry := ret None; softpc_ccpu_lifecycle_request_exit := ret tt;
  softpc_ccpu_lifecycle_checkpoint := fun _ _ => ret false; InitNpx := ret tt
|}.

(** Bytes put into memory at an address. *)
Fixpoint load_bytes (l : list Z) (a : Z) (f : Z -> Z) : Z -> Z :=
  match l with [] => f | b :: l => load_bytes l (a + 1) (fun x => if x =? a then b else f x) end.

(** A CPU in real mode that is about to run the bytes at 0:0500. *)
Definition boot (code : list Z) : exec (Mem.sas unit) unit :=
  mkExec (mkMach (reset_sr CS_REG 0 0 (SET_ip 0x500 (c_cpu_reset cpu0)))
            (Mem.SET_M_area (load_bytes code 0x500 (fun _ => 0)) Mem.sas0) tlb0 0 0 debug0)
    None None 0 false 0 0 0 0 (fun _ => 0) (Ios.mkIos (fun _ => 0) (fun _ => 0) (fun _ _ => Ios.own)) tt.

End Main.
