(* ===== verification/Guard.v ===== *)
(** * What unprivileged code cannot change

    A contract for every instruction at once: whatever bytes code outside ring 0 runs,
    the descriptor table registers, CR0 (except its task switched bit) and the
    breakpoint addresses stay what they were, faults, interrupts, calls through gates
    and task switches included, unless the processor shuts down and is reset.

    [guards] says this of one computation; the section follows the emulator from the
    exception routines up to the opcode switch and the main loop.  Only LGDT, LIDT, LMSW
    and moves to CR0 and the debug registers change what is guarded, and these test the
    privilege level first ([shut]). *)

From S2P Require Import Prelude Cpu Debug Arith Shift Xcptn MulDiv Decimal Flow Mem Tlb Page Basic Seg Virt Addr.
From S2P Require Import Stack Xfer Intr Wp Ring System Ios Oprnd Code Decode Main.

Module Guard.
Import Debug Arith Shift Xcptn MulDiv Decimal Flow Tlb Page Basic Seg Virt Addr Stack Xfer Intr Wp System Oprnd Code Decode Main.

(** ** What is guarded *)

(** GDTR, IDTR and CR0 without TS. *)
Definition sys (c : cpu) : SYSTEM_TABLE_ADDRESS_REGISTER * SYSTEM_TABLE_ADDRESS_REGISTER * Z :=
  (gdtr c, idtr c, CR_STAT (cr c) .& not32 (BIT_MASK 3)).
(** DR0 to DR3. *)
Definition breaks (d : debug) : Z * Z * Z * Z := (DR d 0, DR d 1, DR d 2, DR d 3).

(** States that have both. *)
Class Guarded (S : Type) `{HasCpu S} := {
  dbg_of : S -> debug;
  dbg_put c s : dbg_of (put_cpu c s) = dbg_of s
}.
#[export] Instance Guarded_mach P : Guarded (mach P).
Proof. refine {| dbg_of := mdbg |}. reflexivity. Defined.
#[export] Instance Guarded_exec P D : Guarded (exec P D).
Proof. refine {| dbg_of := fun s => mdbg (core s) |}. reflexivity. Defined.

Definition guard {S} `{Guarded S} (s : S) := (sys (the_cpu s), breaks (dbg_of s)).

(** The registers of a shutdown, before the debug registers are cleared. *)
Definition shutdown {S} `{HasCpu S} (e : exn) (s : S) : Prop := e = CpuContinue /\ exists c, the_cpu s = c_cpu_reset c.

Definition guards {S A} `{Guarded S} (m : M exn S A) : Prop := forall s,
  match m s with
  | Ret _ s' => guard s' = guard s
  | Raise e s' => (guard s' = guard s /\ e <> CpuContinue) \/ shutdown e s'
  | Undefined => True
  end.

Create HintDb keep discriminated.
#[export] Hint Constants Opaque : keep.
#[export] Hint Variables Opaque : keep.

(** ** Structural rules *)

Section Rules.
Context {S : Type} `{Guarded S}.
Abbreviation X := (M exn S).

Lemma guards_ret {A} (a : A) : guards (ret a : X A).
Proof. intros s. reflexivity. Qed.
Lemma guards_bind {A B} (m : X A) (k : A -> X B) : guards m -> (forall a, guards (k a)) -> guards (bind m k).
Proof.
  intros Hm Hk s. specialize (Hm s). unfold bind. destruct (m s) as [a s1|e s1|]; [|exact Hm | exact I].
  specialize (Hk a s1). destruct (k a s1) as [b s2|e s2|]; [congruence | | exact I]. destruct Hk as [[Hk He] | Hk]; [left; split; congruence | right; exact Hk].
Qed.
Lemma guards_if {A} (b : bool) (m1 m2 : X A) : guards m1 -> guards m2 -> guards (if b then m1 else m2).
Proof. destruct b; auto. Qed.
Lemma guards_when (b : bool) (m : X unit) : guards m -> guards (when b m).
Proof. intros Hm. apply guards_if; [exact Hm | apply guards_ret]. Qed.
Lemma guards_gets {A} (f : S -> A) : guards (gets f).
Proof. intros s. reflexivity. Qed.
Lemma guards_get : guards (get : X S).
Proof. intros s. reflexivity. Qed.
Lemma guards_getc {A} (f : cpu -> A) : guards (getc f : X A).
Proof. intros s. reflexivity. Qed.
Lemma guards_undefined {A} : guards (undefined : X A).
Proof. intros s. exact I. Qed.
Lemma guards_throw {A} e : e <> CpuContinue -> guards (throw e : X A).
Proof. intros He s. left. split; [reflexivity | exact He]. Qed.
Lemma guards_defined {A} (o : option A) : guards (defined o : X A).
Proof. destruct o; [apply guards_ret | apply guards_undefined]. Qed.
Lemma guards_modc f : (forall c, sys (f c) = sys c) -> guards (modc f : X unit).
Proof. intros Hf s. unfold modc, modify, guard. rewrite the_put, dbg_put, Hf. reflexivity. Qed.
Lemma guards_modify f : (forall s, guard (f s) = guard s) -> guards (modify f : X unit).
Proof. intros Hf s. exact (Hf s). Qed.

End Rules.

Lemma guards_oncore {P D A} (m : M exn (mach P) A) : guards m -> guards (oncore m : M exn (exec P D) A).
Proof.
  intros Hm s. specialize (Hm (core s)). unfold oncore. destruct (m (core s)) as [a x|e x|]; [exact Hm | | exact I].
  destruct Hm as [Hm | Hm]; [left; exact Hm | right; exact Hm].
Qed.

Lemma guards_while_count {P D} rep_count (body : Z -> M exn (exec P D) bool) :
  (forall x, guards (body x)) -> guards (while_count rep_count body).
Proof.
  intros Hb. induction rep_count as [|n IH]; cbn [while_count]; [apply guards_ret|].
  apply guards_bind; [apply Hb | intros b; apply guards_if; [apply guards_ret | exact IH]].
Qed.

#[export] Hint Resolve guards_oncore guards_ret guards_get guards_gets guards_getc guards_undefined guards_defined : keep.
#[export] Hint Extern 1 (guards (throw _)) => apply guards_throw; discriminate : keep.

Ltac head t := match t with ?f _ => head f | _ => t end.

(** A change of the registers that keeps the guarded ones: a setter of another register
    is dropped by computation, a choice is followed on every branch, and any other
    function is unfolded. *)
Ltac sys_step :=
  match goal with
  | |- ?x = ?x => reflexivity
  | E : forall x c, sys (?f x c) = sys c |- sys (?f _ _) = _ => apply E
  | |- sys (match ?x with _ => _ end) = _ => destruct x
  | |- sys ((if ?b then _ else _) _) = _ => destruct b
  | |- sys (?f ?c) = _ => transitivity (sys c); [solve [generalize c; intros; exact eq_refl]|]
  | |- sys ?c = _ => let h := head c in unfold h
  | |- _ => progress cbn beta zeta
  end.

Lemma sys_setFLAGS x c : sys (setFLAGS x c) = sys c.
Proof. intros. repeat sys_step. Qed.
Lemma sys_setEFLAGS x c : sys (c_setEFLAGS x c) = sys c.
Proof. unfold c_setEFLAGS. cbv zeta. destruct (_ =? 0); exact (sys_setFLAGS x c). Qed.

Ltac sys_tac := intros;
  repeat (lazymatch goal with
          | |- sys (setFLAGS _ _) = _ => rewrite sys_setFLAGS
          | |- sys (c_setEFLAGS _ _) = _ => rewrite sys_setEFLAGS
          | |- _ => sys_step
          end).

(** Follow the structure of a computation; a definition without a lemma of its own is
    unfolded. *)
Ltac keep_step :=
  lazymatch goal with
  | |- guards (bind _ _) => apply guards_bind; [|intros ?]
  | |- guards (when _ _) => apply guards_when
  | |- guards (if _ then _ else _) => apply guards_if
  | |- guards ((if ?b then _ else _) _) => destruct b
  | |- guards (oncore _) => apply guards_oncore
  | |- guards (while_count _ _) => apply guards_while_count; intros ?
  | |- guards (let _ := _ in _) => cbv zeta
  | |- guards (modc _) => apply guards_modc; solve [auto 2 with keep nocore | sys_tac]
  | |- guards (modify _) => apply guards_modify; intros; reflexivity
  | |- guards (match ?x with _ => _ end) => destruct x
  | |- guards ?m => let h := head m in unfold h
  end.
Ltac keep := repeat first [ solve [auto 3 with keep nocore] | progress intros | keep_step ].

(** ** Exceptions *)

Section Faults.
Context {S : Type} `{Guarded S}.
Abbreviation X := (M exn S).

Lemma guards_shutdown : guards (check_for_shutdown : X unit).
Proof.
  unfold check_for_shutdown. intros s. unfold bind at 1, getc, gets. destruct (doing_double_fault _); [|reflexivity].
  right. split; [reflexivity|]. unfold bind, modc, modify, throw. rewrite !the_put. eauto.
Qed.
Hint Resolve guards_shutdown : keep.

Lemma guards_DF : guards (DF_fault : X unit).
Proof. keep. Qed.
Hint Resolve guards_DF : keep.
Lemma guards_PF code : guards (PF_fault code : X unit).
Proof. keep. Qed.
Lemma guards_GP sel : guards (GP sel : X unit).
Proof. keep. Qed.
Lemma guards_NP sel : guards (NP sel : X unit).
Proof. keep. Qed.
Lemma guards_SF sel : guards (SF_fault sel : X unit).
Proof. keep. Qed.
Lemma guards_TS sel : guards (TS sel : X unit).
Proof. keep. Qed.
Lemma guards_GP_INT v : guards (GP_INT v : X unit).
Proof. keep. Qed.
Lemma guards_NP_INT v : guards (NP_INT v : X unit).
Proof. keep. Qed.
Lemma guards_Int0 : guards (Int0 : X unit).
Proof. keep. Qed.
Lemma guards_Int5 : guards (Int5 : X unit).
Proof. keep. Qed.
Lemma guards_Int6 : guards (Int6 : X unit).
Proof. keep. Qed.
Lemma guards_Int7 : guards (Int7 : X unit).
Proof. keep. Qed.
Hint Resolve guards_GP guards_SF guards_Int0 guards_Int6 : keep.


Lemma guards_limit_check index offset nr_items op_sz : guards (limit_check index offset nr_items op_sz : X unit).
Proof. keep. Qed.

End Faults.

#[export] Hint Resolve guards_shutdown guards_DF guards_PF guards_GP guards_NP guards_SF guards_TS guards_GP_INT guards_NP_INT
  guards_Int0 guards_Int5 guards_Int6 guards_Int7 guards_limit_check : keep.

(** ** The machine *)

Section Core.
Context {P : Type} `{PhyQuiet P}.
Abbreviation X := (M exn (mach P)).

Lemma guards_onmem {A} (m : M exn P A) : (forall x e x', m x <> Raise e x') -> guards (onmem m).
Proof.
  intros Hm s. unfold onmem. destruct (m (mmem s)) as [a x|e x|] eqn:E; [reflexivity | destruct (Hm _ _ _ E) | exact I].
Qed.
Lemma guards_ontlb f : guards (ontlb f : X unit).
Proof. intros s. reflexivity. Qed.
Lemma guards_ondbg f : (forall d, breaks (f d) = breaks d) -> guards (ondbg f : X unit).
Proof. intros Hf s. unfold ondbg, modify, guard. cbn [dbg_of Guarded_mach mdbg SET_mdbg]. rewrite Hf. reflexivity. Qed.

Lemma breaks_marked trig la end_la attr l : forall d,
  breaks (fold_left (fun d ii => if (ii =? trig) || negb (would_trigger ii la end_la attr d) then d else set_B ii d) l d) = breaks d.
Proof. induction l as [|i l IH]; intros d; cbn [fold_left]; [reflexivity|]. rewrite IH. destruct (_ || _); reflexivity. Qed.
Lemma guards_data_break lin attr size : guards (data_break lin attr size : X unit).
Proof.
  apply guards_ondbg. intros d. destruct (tst _); [|reflexivity]. unfold check_for_data_exception.
  destruct (first_trigger _ _ _ _ _ _); [|reflexivity]. etransitivity; [apply breaks_marked | reflexivity].
Qed.
Lemma guards_notify address bytes write data reversed : guards (notify address bytes write data reversed : X unit).
Proof. apply guards_ondbg. reflexivity. Qed.
Hint Resolve guards_data_break guards_notify : keep.
Lemma breaks_inst n : forall i la d, breaks (inst_triggers n i la d) = breaks d.
Proof. induction n as [|n IH]; intros; cbn [inst_triggers]; [reflexivity|]. rewrite IH. destruct (_ =? _); reflexivity. Qed.
Lemma guards_check_inst la : guards (ondbg (check_for_inst_exception la) : X unit).
Proof. apply guards_ondbg. intros d. apply breaks_inst. Qed.
Hint Resolve guards_check_inst guards_ontlb : keep.
Hint Extern 1 (guards (onmem _)) => apply guards_onmem; first [apply quiet_read_byte | apply quiet_read_word | apply quiet_read_dword
  | apply quiet_write_byte | apply quiet_write_word | apply quiet_write_dword] : keep.

Lemma guards_lin2phy lin access : guards (lin2phy lin access : X Z).
Proof. keep. Qed.
Hint Resolve guards_lin2phy : keep.
Lemma guards_spr_chk_byte lin_addr access : guards (spr_chk_byte lin_addr access : X Z).
Proof. keep. Qed.
Lemma guards_usr_chk_byte lin_addr access : guards (usr_chk_byte lin_addr access : X Z).
Proof. keep. Qed.
Lemma guards_spr_read_byte lin_addr : guards (spr_read_byte lin_addr : X Z).
Proof. keep. Qed.
Lemma guards_spr_write_byte lin_addr data : guards (spr_write_byte lin_addr data : X unit).
Proof. keep. Qed.
Hint Resolve guards_spr_chk_byte guards_usr_chk_byte guards_spr_read_byte guards_spr_write_byte : keep.
Lemma guards_spr_chk_dword lin_addr access : guards (spr_chk_dword lin_addr access : X unit).
Proof. keep. Qed.
Lemma guards_spr_chk_word lin_addr access : guards (spr_chk_word lin_addr access : X unit).
Proof. keep. Qed.
Lemma guards_usr_chk_dword lin_addr access : guards (usr_chk_dword lin_addr access : X Z).
Proof. keep. Qed.
Lemma guards_usr_chk_word lin_addr access : guards (usr_chk_word lin_addr access : X Z).
Proof. keep. Qed.
Lemma guards_spr_read_word lin_addr : guards (spr_read_word lin_addr : X Z).
Proof. keep. Qed.
Lemma guards_spr_write_word lin_addr data : guards (spr_write_word lin_addr data : X unit).
Proof. keep. Qed.
Hint Resolve guards_spr_chk_dword guards_spr_chk_word guards_usr_chk_dword guards_usr_chk_word guards_spr_read_word
  guards_spr_write_word : keep.
Lemma guards_spr_read_dword lin_addr : guards (spr_read_dword lin_addr : X Z).
Proof. keep. Qed.
Lemma guards_spr_write_dword lin_addr data : guards (spr_write_dword lin_addr data : X unit).
Proof. keep. Qed.
Lemma guards_vir_read_byte lin_addr phy_addr : guards (vir_read_byte lin_addr phy_addr : X Z).
Proof. keep. Qed.
Lemma guards_vir_read_word lin_addr phy_addr : guards (vir_read_word lin_addr phy_addr : X Z).
Proof. keep. Qed.
Lemma guards_vir_read_dword lin_addr phy_addr : guards (vir_read_dword lin_addr phy_addr : X Z).
Proof. keep. Qed.
Lemma guards_vir_write_byte lin_addr phy_addr data : guards (vir_write_byte lin_addr phy_addr data : X unit).
Proof. keep. Qed.
Lemma guards_vir_write_word lin_addr phy_addr data : guards (vir_write_word lin_addr phy_addr data : X unit).
Proof. keep. Qed.
Lemma guards_vir_write_dword lin_addr phy_addr data : guards (vir_write_dword lin_addr phy_addr data : X unit).
Proof. keep. Qed.
Hint Resolve guards_spr_read_dword guards_spr_write_dword guards_vir_read_byte guards_vir_read_word
  guards_vir_read_dword guards_vir_write_byte guards_vir_write_word guards_vir_write_dword : keep.
Lemma guards_read_descriptor_linear addr : guards (read_descriptor_linear addr : X CPU_DESCR).
Proof. keep. Qed.
Lemma guards_modsr indx f : guards (modsr indx f : X unit).
Proof. keep. Qed.
Hint Resolve guards_read_descriptor_linear guards_modsr : keep.
Lemma guards_check_SS selector privilege : guards (check_SS selector privilege : X (Z * CPU_DESCR)).
Proof. keep. Qed.
Hint Resolve guards_check_SS : keep.
Lemma guards_descr_or fault selector : guards fault -> guards (descr_or fault selector : X Z).
Proof. intros Hf. keep. Qed.
Hint Resolve guards_descr_or : keep.
Lemma guards_get_stack_selector_from_TSS priv : guards (get_stack_selector_from_TSS priv : X (Z * Z)).
Proof. keep. Qed.
Lemma guards_validate_SS_on_stack_change priv selector : guards (validate_SS_on_stack_change priv selector : X (Z * CPU_DESCR)).
Proof. keep. Qed.
Lemma guards_validate_TSS selector is_switch : guards (validate_TSS selector is_switch : X (Z * Z)).
Proof. keep. Qed.
Lemma guards_load_CS_cache sel descr_addr entry : guards (load_CS_cache sel descr_addr entry : X unit).
Proof. keep. Qed.
Lemma guards_load_SS_cache sel descr_addr entry : guards (load_SS_cache sel descr_addr entry : X unit).
Proof. keep. Qed.
Lemma guards_load_data_checked indx sel descr_addr entry is_data : guards (load_data_checked indx sel descr_addr entry is_data : X unit).
Proof. keep. Qed.
Hint Resolve guards_get_stack_selector_from_TSS guards_validate_SS_on_stack_change guards_validate_TSS
  guards_load_CS_cache guards_load_SS_cache guards_load_data_checked : keep.
Lemma guards_load_code_seg new_cs : guards (load_code_seg new_cs : X unit).
Proof. keep. Qed.
Lemma guards_load_data_seg indx sel : guards (load_data_seg indx sel : X unit).
Proof. keep. Qed.
Lemma guards_load_stack_seg sel : guards (load_stack_seg sel : X unit).
Proof. keep. Qed.
Hint Resolve guards_load_code_seg guards_load_data_seg guards_load_stack_seg : keep.
Lemma guards_spop : guards (spop : X Z).
Proof. keep. Qed.
Lemma guards_spush data : guards (spush data : X unit).
Proof. keep. Qed.
Lemma guards_spush16 data : guards (spush16 data : X unit).
Proof. keep. Qed.
Lemma guards_tpop item_offset byte_offset : guards (tpop item_offset byte_offset : X Z).
Proof. keep. Qed.
Lemma guards_stack_access_fault : guards (stack_access_fault : X unit).
Proof. keep. Qed.
Hint Resolve guards_spop guards_spush guards_spush16 guards_tpop guards_stack_access_fault : keep.
Lemma guards_check_new_items n : forall base offset word, guards (check_new_items n base offset word : X unit).
Proof. induction n as [|? IH]; intros; cbn [check_new_items]; keep. Qed.
Hint Resolve guards_check_new_items : keep.
Lemma guards_check_items n : forall offset access, guards (check_items n offset access : X unit).
Proof. induction n as [|? IH]; intros; cbn [check_items]; keep. Qed.
Hint Resolve guards_check_items : keep.
Lemma guards_validate_new_stack_space nr_items stack_top entry stack_sel : guards (validate_new_stack_space nr_items stack_top entry stack_sel : X unit).
Proof. keep. Qed.
Lemma guards_validate_stack_exists use_bp nr_items : guards (validate_stack_exists use_bp nr_items : X unit).
Proof. keep. Qed.
Lemma guards_validate_stack_space use_bp nr_items : guards (validate_stack_space use_bp nr_items : X unit).
Proof. keep. Qed.
Hint Resolve guards_validate_new_stack_space guards_validate_stack_exists guards_validate_stack_space : keep.
Lemma guards_PUSH op1 : guards (PUSH op1 : X unit).
Proof. keep. Qed.
Lemma guards_PUSH_SR op1 : guards (PUSH_SR op1 : X unit).
Proof. keep. Qed.
Lemma guards_POP : guards (POP : X Z).
Proof. keep. Qed.
Lemma guards_MOV_SR op1 op2 : guards (MOV_SR op1 op2 : X unit).
Proof. keep. Qed.
Hint Resolve guards_PUSH guards_PUSH_SR guards_POP guards_MOV_SR : keep.
Lemma guards_POP_SR op1 : guards (POP_SR op1 : X unit).
Proof. keep. Qed.
Lemma guards_PUSHA : guards (PUSHA : X unit).
Proof. keep. Qed.
Lemma guards_POPA : guards (POPA : X unit).
Proof. keep. Qed.
Lemma guards_POPAD : guards (POPAD : X unit).
Proof. keep. Qed.
Lemma guards_PUSHF : guards (PUSHF : X unit).
Proof. keep. Qed.
Lemma guards_POPF : guards (POPF : X unit).
Proof. keep. Qed.
Lemma guards_POPFD : guards (POPFD : X unit).
Proof. keep. Qed.
Hint Resolve guards_POP_SR guards_PUSHA guards_POPA guards_POPAD guards_PUSHF guards_POPF guards_POPFD : keep.
Lemma guards_enter_params read size n : (forall a, guards (read a)) -> forall p_delta, guards (enter_params read size n p_delta : X unit).
Proof. intros Hr. induction n as [|n IH]; intros; cbn [enter_params]; keep. Qed.
Hint Resolve guards_enter_params : keep.
Lemma guards_ENTER get_BP read size op1 op2 : (forall a, guards (read a)) -> guards (ENTER get_BP read size op1 op2 : X unit).
Proof. intros Hr. keep. Qed.
Hint Resolve guards_ENTER : keep.
Lemma guards_ENTER16 op1 op2 : guards (ENTER16 op1 op2 : X unit).
Proof. unfold ENTER16. keep. Qed.
Lemma guards_ENTER32 op1 op2 : guards (ENTER32 op1 op2 : X unit).
Proof. unfold ENTER32. keep. Qed.
Lemma guards_LEAVE16 : guards (LEAVE16 : X unit).
Proof. keep. Qed.
Lemma guards_LEAVE32 : guards (LEAVE32 : X unit).
Proof. keep. Qed.
Lemma guards_CALLN offset : guards (CALLN offset : X unit).
Proof. keep. Qed.
Lemma guards_CALLR rel_offset : guards (CALLR rel_offset : X unit).
Proof. keep. Qed.
Lemma guards_RETN op1 : guards (RETN op1 : X unit).
Proof. keep. Qed.
Hint Resolve guards_LEAVE16 guards_LEAVE32 guards_CALLN guards_CALLR guards_RETN : keep.

(** Task switches: only the task switched bit of CR0 changes. *)
Lemma sys_TS c : sys (modify_cr (fun r => SET_CR_STAT (CR_STAT r .| BIT_MASK 3) r) c) = sys c.
Proof.
  unfold sys. f_equal. cbn [modify_cr SET_cr cr SET_CR_STAT CR_STAT].
  rewrite Z.land_lor_distr_l. change (BIT_MASK 3 .& not32 (BIT_MASK 3)) with 0. apply Z.lor_0_r.
Qed.
Lemma guards_save_all write step values : (forall a v, guards (write a v)) -> forall addr, guards (save_all write step addr values : X unit).
Proof. intros Hw. induction values as [|v values IH]; intros; cbn [save_all]; keep. Qed.
Lemma guards_load_all read step sets : (forall a, guards (read a)) -> Forall (fun f => forall v c, sys (f v c) = sys c) sets ->
  forall addr, guards (load_all read step addr sets : X unit).
Proof.
  intros Hr Hs. induction Hs as [|f sets Hf Hs IH]; intros; cbn [load_all]; [keep|].
  apply guards_bind; [auto|]. intros v. apply guards_bind; [apply guards_modc, Hf | auto].
Qed.
Hint Resolve guards_save_all : keep.
Lemma guards_load_LDT_in_task_switch tss_selector : guards (load_LDT_in_task_switch tss_selector : X unit).
Proof. keep. Qed.
Lemma guards_load_data_seg_new_task indx selector : guards (load_data_seg_new_task indx selector : X unit).
Proof. keep. Qed.
Lemma guards_save_task returning TSS_selector return_ip : guards (save_task returning TSS_selector return_ip : X unit).
Proof. keep. Qed.
Lemma guards_new_task_code : guards (new_task_code : X (Z * Z * CPU_DESCR)).
Proof. keep. Qed.
Hint Resolve guards_load_LDT_in_task_switch guards_load_data_seg_new_task guards_save_task guards_new_task_code : keep.
Lemma guards_MOV_CR3 x : guards (MOV_CR 3 x : X unit).
Proof. unfold MOV_CR. keep. Qed.
Hint Resolve guards_MOV_CR3 : keep.
Lemma sys_flags_at_0 set c : (forall c, sys (set c) = sys c) -> sys (flags_at_0 set c) = sys c.
Proof.
  intros Hs. unfold flags_at_0. transitivity (sys (set (SET_CPL 0 c))); [|rewrite Hs; reflexivity].
  generalize (set (SET_CPL 0 c)). reflexivity.
Qed.
Lemma sys_flags_286 x c : sys (modify_fl (SET_VM 0) (setFLAGS x c)) = sys c.
Proof. transitivity (sys (setFLAGS x c)); [generalize (setFLAGS x c); reflexivity | apply sys_setFLAGS]. Qed.
Lemma guards_load_task TSS_selector : guards (load_task TSS_selector : X Z).
Proof.
  unfold load_task. repeat first [ solve [auto 3 with keep nocore] | apply guards_load_all | progress intros | keep_step ];
    repeat (apply Forall_cons; split; [intros; first [exact eq_refl | apply sys_flags_at_0; intros; first [apply sys_setEFLAGS | apply sys_flags_286]]|]);
    apply Forall_nil_2.
Qed.
Hint Resolve guards_load_task : keep.
Lemma guards_switch_tasks returning nesting TSS_selector descr return_ip :
  guards (switch_tasks returning nesting TSS_selector descr return_ip : X unit).
Proof.
  unfold switch_tasks. repeat first [ solve [auto 3 with keep nocore] | apply guards_modc, sys_TS | apply guards_ondbg; reflexivity
                                    | progress intros | keep_step ].
Qed.
Hint Resolve guards_switch_tasks : keep.
Lemma guards_read_call_gate descr_addr super : guards (read_call_gate descr_addr super : X (Z * Z * Z)).
Proof. keep. Qed.
Lemma guards_validate_gate_dest caller_id new_cs : guards (validate_gate_dest caller_id new_cs : X (Z * Z)).
Proof. keep. Qed.
Lemma guards_validate_task_dest selector : guards (validate_task_dest selector : X (Z * Z)).
Proof. keep. Qed.
Lemma guards_gate_access new_cs AR : guards (gate_access new_cs AR : X unit).
Proof. keep. Qed.
Lemma guards_check_ip : guards (check_ip : X unit).
Proof. keep. Qed.
Lemma guards_call_to new_cs new_ip descr_addr entry : guards (call_to new_cs new_ip descr_addr entry : X unit).
Proof. keep. Qed.
Lemma guards_return_code new_cs privilege : guards (return_code new_cs privilege : X (Z * CPU_DESCR)).
Proof. keep. Qed.
Lemma guards_outward_check new_cs cpl items : guards (outward_check new_cs cpl items : X unit).
Proof. keep. Qed.
Hint Resolve guards_read_call_gate guards_validate_gate_dest guards_validate_task_dest guards_gate_access
  guards_check_ip guards_call_to guards_return_code guards_outward_check : keep.
Lemma guards_validate_far_dest new_cs new_ip caller_id : guards (validate_far_dest new_cs new_ip caller_id : X far_dest).
Proof. keep. Qed.
Hint Resolve guards_validate_far_dest : keep.
Lemma guards_pop_params n : guards (pop_params n : X (list Z)).
Proof. induction n as [|? IH]; intros; cbn [pop_params]; keep. Qed.
Hint Resolve guards_pop_params : keep.
Lemma guards_push_params l : guards (push_params l : X unit).
Proof. induction l as [|? ? IH]; intros; cbn [push_params]; keep. Qed.
Hint Resolve guards_push_params : keep.
Lemma guards_call_inner d : guards (call_inner d : X unit).
Proof. keep. Qed.
Hint Resolve guards_call_inner : keep.
Lemma guards_call_dest d : guards (call_dest d : X unit).
Proof. keep. Qed.
Lemma guards_jump_dest d : guards (jump_dest d : X unit).
Proof. keep. Qed.
Hint Resolve guards_call_dest guards_jump_dest : keep.
Lemma guards_CALLF op1_ip op1_cs : guards (CALLF op1_ip op1_cs : X unit).
Proof. keep. Qed.
Lemma guards_JMPF op1_ip op1_cs : guards (JMPF op1_ip op1_cs : X unit).
Proof. keep. Qed.
Lemma guards_JMPN offset : guards (JMPN offset : X unit).
Proof. keep. Qed.
Lemma guards_RETF op1 : guards (RETF op1 : X unit).
Proof. keep. Qed.
Hint Resolve guards_CALLF guards_JMPF guards_JMPN guards_RETF : keep.

(** Interrupts. *)
Lemma guards_validate_int_dest vector do_priv : guards (validate_int_dest vector do_priv : X int_dest).
Proof. keep. Qed.
Lemma guards_push_frame flags has_error_code error_code : guards (push_frame flags has_error_code error_code : X unit).
Proof. keep. Qed.
Lemma guards_enter_handler super new_cs new_ip descr_addr entry : guards (enter_handler super new_cs new_ip descr_addr entry : X unit).
Proof. keep. Qed.
Lemma guards_leave_v86 : guards (leave_v86 : X unit).
Proof. keep. Qed.
Hint Resolve guards_validate_int_dest guards_push_frame guards_enter_handler guards_leave_v86 : keep.
Lemma guards_int_real vector : guards (int_real vector : X unit).
Proof. keep. Qed.
Lemma guards_int_task d has_error_code error_code : guards (int_task d has_error_code error_code : X unit).
Proof. keep. Qed.
Lemma guards_int_same d has_error_code error_code : guards (int_same d has_error_code error_code : X unit).
Proof. keep. Qed.
Lemma guards_int_inner d has_error_code error_code : guards (int_inner d has_error_code error_code : X unit).
Proof. keep. Qed.
Hint Resolve guards_int_real guards_int_task guards_int_same guards_int_inner : keep.
Lemma guards_int_enter d has_error_code error_code : guards (int_enter d has_error_code error_code : X unit).
Proof. keep. Qed.
Hint Resolve guards_int_enter : keep.
Lemma guards_do_intrupt vector priv_check has_error_code error_code : guards (do_intrupt vector priv_check has_error_code error_code : X unit).
Proof. keep. Qed.
Hint Resolve guards_do_intrupt : keep.
Lemma guards_INTx op1 : guards (INTx op1 : X unit).
Proof. keep. Qed.
Lemma guards_INTO : guards (INTO : X unit).
Proof. keep. Qed.
Lemma guards_BOUND op1 op2_0 op2_1 op_sz : guards (BOUND op1 op2_0 op2_1 op_sz : X unit).
Proof. keep. Qed.
Lemma guards_iret_frame : guards (iret_frame : X (Z * Z * Z)).
Proof. keep. Qed.
Lemma guards_iret_v86 new_ip new_cs new_flags : guards (iret_v86 new_ip new_cs new_flags : X unit).
Proof. keep. Qed.
Lemma guards_iret_level new_ip new_cs new_flags cpl : guards (iret_level new_ip new_cs new_flags cpl : X unit).
Proof. keep. Qed.
Hint Resolve guards_INTx guards_INTO guards_BOUND guards_iret_frame guards_iret_v86 guards_iret_level : keep.
Lemma guards_IRET : guards (IRET : X unit).
Proof. keep. Qed.
Hint Resolve guards_IRET : keep.

(** System instructions. *)
Lemma guards_LLDT op1 : guards (LLDT op1 : X unit).
Proof. keep. Qed.
Lemma guards_LTR op1 : guards (LTR op1 : X unit).
Proof. keep. Qed.
Lemma guards_load_if kind result op2 : guards (load_if kind result op2 : X (option Z)).
Proof. keep. Qed.
Lemma guards_verify kind op1 : guards (verify kind op1 : X unit).
Proof. keep. Qed.
Lemma guards_ARPL op1 op2 : guards (ARPL op1 op2 : X Z).
Proof. keep. Qed.
Lemma guards_load_pointer seg op2 : guards (load_pointer seg op2 : X Z).
Proof. keep. Qed.
Hint Resolve guards_LLDT guards_LTR guards_load_if guards_verify guards_ARPL guards_load_pointer : keep.

End Core.

#[export] Hint Resolve guards_ontlb guards_data_break guards_notify guards_check_inst guards_lin2phy
  guards_spr_chk_byte guards_usr_chk_byte guards_spr_read_byte guards_spr_write_byte guards_spr_chk_dword
  guards_spr_chk_word guards_usr_chk_dword guards_usr_chk_word guards_spr_read_word guards_spr_write_word
  guards_spr_read_dword guards_spr_write_dword guards_vir_read_byte guards_vir_read_word guards_vir_read_dword
  guards_vir_write_byte guards_vir_write_word guards_vir_write_dword guards_read_descriptor_linear guards_modsr
  guards_check_SS guards_descr_or guards_get_stack_selector_from_TSS guards_validate_SS_on_stack_change
  guards_validate_TSS guards_load_CS_cache guards_load_SS_cache guards_load_data_checked guards_load_code_seg
  guards_load_data_seg guards_load_stack_seg guards_spop guards_spush guards_spush16 guards_tpop
  guards_stack_access_fault guards_check_new_items guards_check_items guards_validate_new_stack_space
  guards_validate_stack_exists guards_validate_stack_space guards_PUSH guards_PUSH_SR guards_POP guards_MOV_SR
  guards_POP_SR guards_PUSHA guards_POPA guards_POPAD guards_PUSHF guards_POPF guards_POPFD guards_enter_params
  guards_ENTER guards_ENTER16 guards_ENTER32 guards_LEAVE16 guards_LEAVE32 guards_CALLN guards_CALLR guards_RETN
  guards_save_all guards_load_LDT_in_task_switch guards_load_data_seg_new_task guards_save_task guards_new_task_code
  guards_MOV_CR3 guards_load_task guards_switch_tasks guards_read_call_gate guards_validate_gate_dest
  guards_validate_task_dest guards_gate_access guards_check_ip guards_call_to guards_return_code guards_outward_check
  guards_validate_far_dest guards_pop_params guards_push_params guards_call_inner guards_call_dest guards_jump_dest
  guards_CALLF guards_JMPF guards_JMPN guards_RETF guards_validate_int_dest guards_push_frame guards_enter_handler
  guards_leave_v86 guards_int_real guards_int_task guards_int_same guards_int_inner guards_int_enter guards_do_intrupt
  guards_INTx guards_INTO guards_BOUND guards_iret_frame guards_iret_v86 guards_iret_level guards_IRET guards_LLDT
  guards_LTR guards_load_if guards_verify guards_ARPL guards_load_pointer : keep.
#[export] Hint Extern 2 (guards (ondbg _)) => apply guards_ondbg; reflexivity : keep.

(** ** The instruction stream and operands *)

Section Exec.
Context {P D : Type} `{PhyQuiet P} `{CodeMem P}.
Abbreviation X := (M exn (exec P D)).

Lemma guards_next_byte : guards (next_byte : X Z).
Proof. intros s. unfold next_byte. destruct (p s); [|exact I]. destruct (CCPU_M _ _); [reflexivity | exact I]. Qed.
Hint Resolve guards_next_byte : keep.
Lemma guards_delta : guards (delta : X Z).
Proof. keep. Qed.
Lemma guards_SETUP_HOST_IP : guards (SETUP_HOST_IP : X unit).
Proof. keep. Qed.
Hint Resolve guards_delta guards_SETUP_HOST_IP : keep.
Lemma guards_UPDATE_INTEL_IP : guards (UPDATE_INTEL_IP : X unit).
Proof. keep. Qed.
Lemma guards_UPDATE_INTEL_IP_USE_OP_SIZE : guards (UPDATE_INTEL_IP_USE_OP_SIZE : X unit).
Proof. keep. Qed.
Lemma guards_CANCEL_HOST_IP : guards (CANCEL_HOST_IP : X unit).
Proof. keep. Qed.
Lemma guards_ccpu_new_code_page : guards (ccpu_new_code_page : X Z).
Proof. keep. Qed.
Hint Resolve guards_UPDATE_INTEL_IP guards_UPDATE_INTEL_IP_USE_OP_SIZE guards_CANCEL_HOST_IP
  guards_ccpu_new_code_page : keep.
Lemma guards_inst_byte : guards (GET_INST_BYTE : X Z).
Proof. change (guards (inst_byte : X Z)). keep. Qed.
Hint Resolve guards_inst_byte : keep.
Lemma guards_d_mem modRM segment_override : guards (d_mem modRM segment_override : X (Z * Z)).
Proof. unfold d_mem, displacement. keep. Qed.
Hint Resolve guards_d_mem : keep.
Lemma guards_immed n : forall shift, guards (immed n shift : X Z).
Proof. induction n as [|n IH]; intros; cbn [immed]; keep. Qed.
Hint Resolve guards_immed : keep.
Lemma guards_D_Ib : guards (D_Ib : X Z).
Proof. keep. Qed.
Lemma guards_D_Iw : guards (D_Iw : X Z).
Proof. keep. Qed.
Lemma guards_D_Id : guards (D_Id : X Z).
Proof. keep. Qed.
Lemma guards_D_Ix : guards (D_Ix : X Z).
Proof. keep. Qed.
Lemma guards_D_Iy : guards (D_Iy : X Z).
Proof. keep. Qed.
Lemma guards_D_Jb : guards (D_Jb : X Z).
Proof. keep. Qed.
Lemma guards_D_Jw : guards (D_Jw : X Z).
Proof. keep. Qed.
Lemma guards_D_Jd : guards (D_Jd : X Z).
Proof. keep. Qed.
Lemma guards_D_Aw : guards (D_Aw : X (Z * Z)).
Proof. keep. Qed.
Lemma guards_D_Ad : guards (D_Ad : X (Z * Z)).
Proof. keep. Qed.
Hint Resolve guards_D_Ib guards_D_Iw guards_D_Id guards_D_Ix guards_D_Iy guards_D_Jb guards_D_Jw guards_D_Jd guards_D_Aw
  guards_D_Ad : keep.
Lemma guards_D_Iv sz : guards (D_Iv sz : X Z).
Proof. keep. Qed.
Lemma guards_D_Ixy sz : guards (D_Ixy sz : X Z).
Proof. keep. Qed.
Lemma guards_D_Jv sz : guards (D_Jv sz : X Z).
Proof. keep. Qed.
Lemma guards_D_Av sz : guards (D_Av sz : X (Z * Z)).
Proof. keep. Qed.
Lemma guards_RO seg : guards (RO seg : X unit).
Proof. keep. Qed.
Lemma guards_WO seg : guards (WO seg : X unit).
Proof. keep. Qed.
Lemma guards_RW seg : guards (RW seg : X unit).
Proof. keep. Qed.
Lemma guards_usr_chk sz la page : guards (usr_chk sz la page : X Z).
Proof. keep. Qed.
Lemma guards_vir_read sz la pa : guards (vir_read sz la pa : X Z).
Proof. keep. Qed.
Lemma guards_vir_write sz la pa x : guards (vir_write sz la pa x : X unit).
Proof. keep. Qed.
Lemma guards_fetch sz o : guards (fetch sz o : X Z).
Proof. keep. Qed.
Lemma guards_put sz o x : guards (put sz o x : X unit).
Proof. keep. Qed.
Lemma guards_F_SR i : guards (F_SR i : X Z).
Proof. keep. Qed.
Lemma guards_F_Cd modRM : guards (F_Cd modRM : X Z).
Proof. keep. Qed.
Hint Resolve guards_D_Iv guards_D_Ixy guards_D_Jv guards_D_Av guards_RO guards_WO guards_RW guards_usr_chk guards_vir_read
  guards_vir_write guards_fetch guards_put guards_F_SR guards_F_Cd : keep.
Lemma guards_mem_operand sz (TYPE : Z -> X unit) PAGE seg off :
  (forall x, guards (TYPE x)) -> guards (mem_operand sz TYPE PAGE seg off : X operand).
Proof. intros. keep. Qed.
Hint Resolve guards_mem_operand : keep.
Lemma guards_D_E sz modRM segment_override (TYPE : Z -> X unit) PAGE :
  (forall x, guards (TYPE x)) -> guards (D_E sz modRM segment_override TYPE PAGE : X operand).
Proof. intros. keep. Qed.
Lemma guards_D_M modRM segment_override : guards (D_M modRM segment_override : X Z).
Proof. keep. Qed.
Lemma guards_D_pair sz modRM segment_override (TYPE : Z -> X unit) PAGE :
  (forall x, guards (TYPE x)) -> guards (D_pair sz modRM segment_override TYPE PAGE : X (operand * operand)).
Proof. intros. keep. Qed.
Lemma guards_fetch2 sz sz2 o : guards (fetch2 sz sz2 o : X (Z * Z)).
Proof. keep. Qed.
Lemma guards_D_Mp32 modRM segment_override (TYPE : Z -> X unit) PAGE :
  (forall x, guards (TYPE x)) -> guards (D_Mp32 modRM segment_override TYPE PAGE : X (operand * operand)).
Proof. intros. keep. Qed.
Lemma guards_D_Ms modRM segment_override (TYPE : Z -> X unit) PAGE :
  (forall x, guards (TYPE x)) -> guards (D_Ms modRM segment_override TYPE PAGE : X (operand * operand)).
Proof. intros. keep. Qed.
Lemma guards_P_Ms o x : guards (P_Ms o x : X unit).
Proof. keep. Qed.
Lemma guards_D_O sz segment_override (TYPE : Z -> X unit) PAGE :
  (forall x, guards (TYPE x)) -> guards (D_O sz segment_override TYPE PAGE : X operand).
Proof. intros. keep. Qed.
Lemma guards_D_Z segment_override (TYPE : Z -> X unit) PAGE :
  (forall x, guards (TYPE x)) -> guards (D_Z segment_override TYPE PAGE : X operand).
Proof. intros. keep. Qed.
Lemma guards_BT_OPS sz modRM segment_override (TYPE : Z -> X unit) PAGE :
  (forall x, guards (TYPE x)) -> guards (BT_OPS sz modRM segment_override TYPE PAGE : X (operand * Z * Z)).
Proof. intros. keep. Qed.
Lemma guards_STRING_COUNT repeat : guards (STRING_COUNT repeat : X Z).
Proof. keep. Qed.
Lemma guards_D_X sz segment_override (TYPE : Z -> X unit) PAGE :
  (forall x, guards (TYPE x)) -> guards (D_X sz segment_override TYPE PAGE : X operand).
Proof. intros. keep. Qed.
Lemma guards_D_Y sz (TYPE : Z -> X unit) PAGE : (forall x, guards (TYPE x)) -> guards (D_Y sz TYPE PAGE : X operand).
Proof. intros. keep. Qed.
Lemma guards_commit i sz repeat rep_count : guards (commit i sz repeat rep_count : X unit).
Proof. keep. Qed.
Hint Resolve guards_D_E guards_D_M guards_D_pair guards_fetch2 guards_D_Mp32 guards_D_Ms guards_P_Ms guards_D_O guards_D_Z
  guards_BT_OPS guards_STRING_COUNT guards_D_X guards_D_Y guards_commit : keep.

End Exec.

#[export] Hint Resolve guards_next_byte guards_delta guards_SETUP_HOST_IP guards_UPDATE_INTEL_IP
  guards_UPDATE_INTEL_IP_USE_OP_SIZE guards_CANCEL_HOST_IP guards_ccpu_new_code_page guards_inst_byte guards_d_mem
  guards_immed guards_D_Ib guards_D_Iw guards_D_Id guards_D_Ix guards_D_Iy guards_D_Jb guards_D_Jw guards_D_Jd guards_D_Aw
  guards_D_Ad guards_D_Iv guards_D_Ixy guards_D_Jv guards_D_Av guards_RO guards_WO guards_RW guards_usr_chk guards_vir_read
  guards_vir_write guards_fetch guards_put guards_F_SR guards_F_Cd guards_mem_operand guards_D_E guards_D_M guards_D_pair
  guards_fetch2 guards_D_Mp32 guards_D_Ms guards_P_Ms guards_D_O guards_D_Z guards_BT_OPS guards_STRING_COUNT guards_D_X
  guards_D_Y guards_commit : keep.

(** ** Workers on the registers *)

Ltac product_tac := intros;
  repeat (match goal with |- sys (snd (?f _ _ _)) = _ => unfold f end); cbv zeta;
  repeat match goal with |- context [let (_, _) := ?x in _] => destruct x end; cbn [snd];
  repeat match goal with |- context [if ?b then _ else _] => destruct b end; reflexivity.

Lemma sys_MUL8 x y c : sys (snd (MUL8 x y c)) = sys c.
Proof. product_tac. Qed.
Lemma sys_MUL16 x y c : sys (snd (MUL16 x y c)) = sys c.
Proof. product_tac. Qed.
Lemma sys_MUL32 x y c : sys (snd (MUL32 x y c)) = sys c.
Proof. product_tac. Qed.
Lemma sys_IMUL8 x y c : sys (snd (IMUL8 x y c)) = sys c.
Proof. product_tac. Qed.
Lemma sys_IMUL16 x y c : sys (snd (IMUL16 x y c)) = sys c.
Proof. product_tac. Qed.
Lemma sys_IMUL32 x y c : sys (snd (IMUL32 x y c)) = sys c.
Proof. product_tac. Qed.
Lemma sys_IMULT sz x y c : sys (snd (IMULT sz x y c)) = sys c.
Proof. unfold IMULT. destruct (_ =? _); [unfold IMUL16T | unfold IMUL32T; destruct (mul64 x y)]; product_tac. Qed.
Lemma sys_DAA c : sys (DAA c) = sys c.
Proof. unfold DAA. cbv zeta. repeat match goal with |- context [if ?b then _ else _] => destruct b end; reflexivity. Qed.
Lemma sys_DAS c : sys (DAS c) = sys c.
Proof. unfold DAS. cbv zeta. repeat match goal with |- context [if ?b then _ else _] => destruct b end; reflexivity. Qed.
Lemma sys_jxx n x c : sys (jxx n x c) = sys c.
Proof.
  unfold jxx. generalize (Z.to_nat n). intros k. do 16 (destruct k as [|k]; [solve [cbn [nth]; sys_tac]|]). destruct k; reflexivity.
Qed.
#[export] Hint Resolve sys_MUL8 sys_MUL16 sys_MUL32 sys_IMUL8 sys_IMUL16 sys_IMUL32 sys_IMULT sys_DAA sys_DAS
  sys_jxx : keep.
#[export] Hint Extern 2 (sys _ = sys _) => solve [sys_tac] : keep.

Section Divide.
Context {S : Type} `{Guarded S}.
Lemma guards_DIV8 x : guards (DIV8 x : M exn S unit).
Proof. keep. Qed.
Lemma guards_DIV16 x : guards (DIV16 x : M exn S unit).
Proof. keep. Qed.
Lemma guards_DIV32 x : guards (DIV32 x : M exn S unit).
Proof. keep. Qed.
Lemma guards_IDIV8 x : guards (IDIV8 x : M exn S unit).
Proof. keep. Qed.
Lemma guards_IDIV16 x : guards (IDIV16 x : M exn S unit).
Proof. keep. Qed.
Lemma guards_IDIV32 x : guards (IDIV32 x : M exn S unit).
Proof. keep. Qed.
Lemma guards_AAM x : guards (AAM x : M exn S unit).
Proof. keep. Qed.
End Divide.

#[export] Hint Resolve guards_DIV8 guards_DIV16 guards_DIV32 guards_IDIV8 guards_IDIV16 guards_IDIV32 guards_AAM : keep.

(** ** The opcode switch *)

(** What is asked of the devices, the coprocessor, the BIOS services and the host. *)
Class AdaptersKeep (P D : Type) `{Ios.Adapters exn (exec P D)} : Prop := {
  keep_inb id port : guards (Ios.dev_inb id port : M exn (exec P D) Z);
  keep_inw id port : guards (Ios.dev_inw id port : M exn (exec P D) Z);
  keep_outb id port x : guards (Ios.dev_outb id port x : M exn (exec P D) unit);
  keep_outw id port x : guards (Ios.dev_outw id port x : M exn (exec P D) unit)
}.
Class HostKeep (P D : Type) `{Host P D} : Prop := {
  keep_npx : guards (TakeNpxExceptionInt : M exn (exec P D) unit);
  keep_zfrsrvd op ov : guards (ZFRSRVD op ov : M exn (exec P D) unit);
  keep_fast_bop nr : guards (EDL_fast_bop nr : M exn (exec P D) unit);
  keep_bop nr : guards (bop nr : M exn (exec P D) bool);
  keep_debug_begin : guards (softpc_host_debug_begin : M exn (exec P D) bool);
  keep_check_I : guards (check_I : M exn (exec P D) unit);
  keep_yoda : guards (force_yoda : M exn (exec P D) unit);
  keep_note : guards (note_486_instruction : M exn (exec P D) unit);
  keep_q_event : guards (dispatch_q_event : M exn (exec P D) unit);
  keep_host_timer : guards (host_timer_event : M exn (exec P D) unit);
  keep_sigio : guards (ica_sigio_event : M exn (exec P D) unit);
  keep_intack : guards (ica_intack : M exn (exec P D) Z);
  keep_tick : guards (softpc_platform_consume_clock_tick : M exn (exec P D) bool);
  keep_timer : guards (softpc_platform_timer_event : M exn (exec P D) unit);
  keep_wake : guards (softpc_platform_consume_executor_wake : M exn (exec P D) bool);
  keep_executor : guards (softpc_platform_executor_event : M exn (exec P D) bool);
  keep_pace : guards (softpc_platform_pace_instruction : M exn (exec P D) unit);
  keep_budget : guards (softpc_platform_consume_instruction_budget : M exn (exec P D) bool);
  keep_wait : guards (softpc_platform_wait_for_executor_event : M exn (exec P D) bool);
  keep_take_entry : guards (softpc_ccpu_lifecycle_take_entry : M exn (exec P D) (option (bool * Z)));
  keep_request_exit : guards (softpc_ccpu_lifecycle_request_exit : M exn (exec P D) unit);
  keep_checkpoint h t : guards (softpc_ccpu_lifecycle_checkpoint h t : M exn (exec P D) bool);
  keep_InitNpx : guards (InitNpx : M exn (exec P D) unit)
}.
#[export] Hint Resolve keep_inb keep_inw keep_outb keep_outw keep_npx keep_zfrsrvd keep_fast_bop keep_bop keep_debug_begin
  keep_check_I keep_yoda keep_note keep_q_event keep_host_timer keep_sigio keep_intack keep_tick keep_timer keep_wake keep_executor
  keep_pace keep_budget keep_wait keep_take_entry keep_request_exit keep_checkpoint keep_InitNpx : keep.

Section Switch.
Context {P D : Type} `{PhyQuiet P} `{CodeMem P} `{AdaptersKeep P D} `{HostKeep P D}.
Context (shiftrot_of_undef : bool).
Abbreviation X := (M exn (exec P D)).

(** Workers. *)
Lemma guards_on_flags {A} (f : FLAGS -> A * FLAGS) : guards (on_flags f : X A).
Proof. keep. Qed.
Hint Resolve guards_on_flags : keep.
Lemma guards_set_flags f : guards (set_flags f : X unit).
Proof. keep. Qed.
Lemma guards_alu f a b sz : guards (alu f a b sz : X Z).
Proof. keep. Qed.
Hint Resolve guards_set_flags guards_alu : keep.
Lemma guards_scan f : guards (scan f : X Z).
Proof. keep. Qed.
Lemma guards_product f : (forall c, sys (snd (f c)) = sys c) -> guards (product f : X Z).
Proof.
  intros Hf s. unfold product, bind, getc, gets. specialize (Hf (the_cpu s)). destruct (f (the_cpu s)) as [a c].
  unfold modc, modify, ret, guard. rewrite the_put, dbg_put. cbn [snd] in Hf. rewrite Hf. reflexivity.
Qed.
Hint Resolve guards_scan guards_product : keep.
Lemma guards_group1 xxx {A} (k : (Z -> Z -> Z -> X Z) -> X A) (d : X A) :
  (forall inst : Z -> Z -> Z -> X Z, (forall x y z, guards (inst x y z)) -> guards (k inst)) -> guards d ->
  guards (match group1 xxx with Some inst => k inst | None => d end).
Proof.
  intros Hk Hd. unfold group1.
  assert (Ha : forall f, guards (k (alu f))) by (intros f; apply Hk; intros; apply guards_alu).
  repeat match goal with |- guards (match match ?x with _ => _ end with _ => _ end) => destruct x end; auto.
Qed.
Lemma guards_IN sz port : guards (IN sz port : X Z).
Proof. unfold IN, Ios.IN32, Ios.IN16, Ios.IN8. keep. Qed.
Lemma guards_OUT sz port x : guards (OUT sz port x : X unit).
Proof. unfold OUT, Ios.OUT32, Ios.OUT16, Ios.OUT8. keep. Qed.
Hint Resolve guards_IN guards_OUT : keep.
Lemma guards_retired : guards (retired : X unit).
Proof. keep. Qed.
Hint Resolve guards_retired : keep.
Lemma guards_check_io_permission_map port width : guards (check_io_permission_map port width : X unit).
Proof. keep. Qed.
Hint Resolve guards_check_io_permission_map : keep.
Lemma guards_E_G ov sz modRM (inst : Z -> Z -> Z -> X Z) :
  (forall x y z, guards (inst x y z)) -> guards (E_G ov sz modRM inst : X unit).
Proof. intros. keep. Qed.
Hint Resolve guards_E_G : keep.
Lemma guards_G_E ov sz modRM (inst : Z -> Z -> Z -> X Z) :
  (forall x y z, guards (inst x y z)) -> guards (G_E ov sz modRM inst : X unit).
Proof. intros. keep. Qed.
Hint Resolve guards_G_E : keep.
Lemma guards_E_imm ov sz modRM imm (inst : Z -> Z -> Z -> X Z) :
  guards imm -> (forall x y z, guards (inst x y z)) -> guards (E_imm ov sz modRM imm inst : X unit).
Proof. intros. keep. Qed.
Hint Resolve guards_E_imm : keep.
Lemma guards_op_80 ov : guards (op_80 ov : X unit).
Proof. unfold op_80. apply guards_bind; [keep|]. intros modRM. apply guards_group1; [intros inst Hi|]; keep. Qed.
Hint Resolve guards_op_80 : keep.
Lemma guards_op_81 ov : guards (op_81 ov : X unit).
Proof. unfold op_81. apply guards_bind; [keep|]. intros modRM. apply guards_group1; [intros inst Hi|]; keep. Qed.
Hint Resolve guards_op_81 : keep.
Lemma guards_op_83 ov : guards (op_83 ov : X unit).
Proof. unfold op_83. apply guards_bind; [keep|]. intros modRM. apply guards_group1; [intros inst Hi|]; keep. Qed.
Hint Resolve guards_op_83 : keep.
Lemma guards_group2 xxx x y z : guards (group2 shiftrot_of_undef xxx x y z : X Z).
Proof. unfold group2. repeat match goal with |- context [match ?x with _ => _ end] => destruct x end; apply guards_alu. Qed.
Hint Resolve guards_group2 : keep.
Lemma guards_TYPE40 opcode inst : guards (TYPE40 opcode inst : X unit).
Proof. keep. Qed.
Hint Resolve guards_TYPE40 : keep.
Lemma guards_ax_E ov sz modRM (inst : Z -> Z -> cpu -> Z * cpu) :
  (forall x y c, sys (snd (inst x y c)) = sys c) -> guards (ax_E ov sz modRM inst : X unit).
Proof. intros. keep. Qed.
Hint Resolve guards_ax_E : keep.
Lemma guards_TYPEF6_4 ov modRM (inst : Z -> Z -> cpu -> Z * cpu) :
  (forall x y c, sys (snd (inst x y c)) = sys c) -> guards (TYPEF6_4 ov modRM inst : X unit).
Proof. intros. keep. Qed.
Hint Resolve guards_TYPEF6_4 : keep.
Lemma guards_TYPEF7_4 ov modRM (inst : Z -> Z -> cpu -> Z * cpu) (inst2 : Z -> Z -> cpu -> Z * cpu) :
  (forall x y c, sys (snd (inst x y c)) = sys c) -> (forall x y c, sys (snd (inst2 x y c)) = sys c) -> guards (TYPEF7_4 ov modRM inst inst2 : X unit).
Proof. intros. keep. Qed.
Hint Resolve guards_TYPEF7_4 : keep.
Lemma guards_IMULT_G_E ov sz modRM imm :
  (forall m, imm = Some m -> guards m) -> guards (IMULT_G_E ov sz modRM imm : X unit).
Proof. intros Hi. unfold IMULT_G_E. destruct imm as [m|]; [pose proof (Hi m eq_refl)|]; keep. Qed.
Hint Resolve guards_IMULT_G_E : keep.
Lemma guards_op_69 ov : guards (op_69 ov : X unit).
Proof. unfold op_69. keep; apply guards_IMULT_G_E; intros m [= <-]; keep. Qed.
Hint Resolve guards_op_69 : keep.
Lemma guards_op_6b ov : guards (op_6b ov : X unit).
Proof. unfold op_6b. keep; apply guards_IMULT_G_E; intros m [= <-]; keep. Qed.
Hint Resolve guards_op_6b : keep.
Lemma guards_op_b0 opcode : guards (op_b0 opcode : X unit).
Proof. keep. Qed.
Hint Resolve guards_op_b0 : keep.
Lemma guards_op_b8 opcode : guards (op_b8 opcode : X unit).
Proof. keep. Qed.
Hint Resolve guards_op_b8 : keep.
Lemma guards_op_50 opcode : guards (op_50 opcode : X unit).
Proof. keep. Qed.
Hint Resolve guards_op_50 : keep.
Lemma guards_op_58 opcode : guards (op_58 opcode : X unit).
Proof. keep. Qed.
Hint Resolve guards_op_58 : keep.
Lemma guards_TYPE70 (inst : Z -> cpu -> cpu) : (forall x c, sys (inst x c) = sys c) -> guards (TYPE70 inst : X unit).
Proof. intros. keep. Qed.
Hint Resolve guards_TYPE70 : keep.
Lemma guards_op_ff ov : guards (op_ff ov : X unit).
Proof. keep. Qed.
Hint Resolve guards_op_ff : keep.
Lemma guards_bop_fields n : forall immed, guards (bop_fields n immed : X Z).
Proof. induction n as [|n IH]; intros; cbn [bop_fields]; keep. Qed.
Hint Resolve guards_bop_fields : keep.
Lemma guards_call_bop nr : guards (call_bop nr : X next).
Proof. keep. Qed.
Hint Resolve guards_call_bop : keep.

(** The rows of the switch without privileged opcodes. *)
Lemma guards_switch_40_7f opcode ov repeat : guards (switch_40_7f opcode ov repeat : X next).
Proof. keep. Qed.
Lemma guards_switch_80_bf opcode ov repeat : guards (switch_80_bf opcode ov repeat : X next).
Proof. keep. Qed.
Lemma guards_switch_c0_ff opcode ov repeat : guards (switch_c0_ff shiftrot_of_undef opcode ov repeat : X next).
Proof. keep. Qed.

(** ** Privileged instructions *)

(** The contract of what may run outside ring 0. *)
Definition outside {A} (m : X A) : Prop := forall s, CPL (the_cpu s) <> 0 ->
  match m s with
  | Ret _ s' => guard s' = guard s
  | Raise e s' => (guard s' = guard s /\ e <> CpuContinue) \/ shutdown e s'
  | Undefined => True
  end.

(** It does not change the privilege level. *)
Definition level {A} (m : X A) : Prop := forall s a s', m s = Ret a s' -> CPL (the_cpu s') = CPL (the_cpu s).

Lemma outside_keeps {A} (m : X A) : guards m -> outside m.
Proof. intros Hm s _. apply Hm. Qed.

Lemma outside_bind {A B} (m : X A) (k : A -> X B) : guards m -> level m -> (forall a, outside (k a)) -> outside (bind m k).
Proof.
  intros Hm Hl Hk s Hs. specialize (Hm s). unfold bind. destruct (m s) as [a s1|e s1|] eqn:E; [|exact Hm | exact I].
  specialize (Hk a s1 ltac:(rewrite (Hl _ _ _ E); exact Hs)).
  destruct (k a s1) as [b s2|e s2|]; [congruence | | exact I]. destruct Hk as [[Hk He] | Hk]; [left; split; congruence | right; exact Hk].
Qed.

Lemma level_inst_byte : level (GET_INST_BYTE : X Z).
Proof. intros s a s' E. apply fetch_cpu in E as [[x ->] _]. reflexivity. Qed.
Lemma level_getc {A} (f : cpu -> A) : level (getc f : X A).
Proof. intros s a s' [= _ <-]. reflexivity. Qed.
Lemma level_Int6 b : level (when b Int6 : X unit).
Proof. destruct b; intros s a s' E; [discriminate E | injection E as _ <-; reflexivity]. Qed.

(** The test of the privilege level faults, whatever follows. *)
Definition faults {A} (m : X A) : Prop := forall s a s', m s <> Ret a s'.
Lemma faults_bind {A B} (m : X A) (k : A -> X B) : (forall a, faults (k a)) -> faults (bind m k).
Proof. intros Hk s b s'. unfold bind. destruct (m s); [apply Hk | discriminate | discriminate]. Qed.
Lemma faults_GP sel : faults (GP sel).
Proof. unfold GP, contributory_exception. repeat (apply faults_bind; intros ?). discriminate. Qed.

Lemma outside_shut {A} (k : unit -> X A) : outside (bind ring0_only k).
Proof.
  intros s Hs. assert (E : ring0_only s = GP 0 s).
  { unfold ring0_only. rewrite getc_bind, (proj2 (Z.eqb_neq _ 0) Hs). reflexivity. }
  unfold bind. rewrite E. pose proof (guards_GP (S := exec P D) 0 s) as Hg. pose proof (faults_GP 0 s) as Hf.
  destruct (GP 0 s) as [a s1|e s1|]; [destruct (Hf a s1 eq_refl) | exact Hg | exact I].
Qed.

Lemma outside_then {A B} (m : X A) (k : A -> X B) : outside m -> (forall a, guards (k a)) -> outside (bind m k).
Proof.
  intros Hm Hk s Hs. specialize (Hm s Hs). unfold bind. destruct (m s) as [a s1|e s1|]; [|exact Hm | exact I].
  specialize (Hk a s1). destruct (k a s1) as [b s2|e s2|]; [congruence | | exact I]. destruct Hk as [[Hk He] | Hk]; [left; split; congruence | right; exact Hk].
Qed.
Lemma outside_done (m : X unit) : outside m -> outside (done m).
Proof. intros Hm. apply outside_then; [exact Hm | keep]. Qed.
Lemma outside_MOV_special (dst : Z -> Z -> X unit) : outside (MOV_special dst).
Proof. apply outside_shut. Qed.

Lemma outside_op_0f01 ov : outside (op_0f01 ov).
Proof.
  unfold op_0f01. apply outside_bind; [apply guards_inst_byte | apply level_inst_byte |]. intros modRM.
  assert (Hl : forall i1 i2, outside (TYPE0F01_2 ov modRM i1 i2)).
  { intros i1 i2. unfold TYPE0F01_2. apply outside_bind; [keep | apply level_Int6 | intros _; apply outside_shut]. }
  repeat match goal with |- outside (match ?x with _ => _ end) => destruct x end;
    first [apply Hl | apply outside_shut | apply outside_keeps; keep].
Qed.

Lemma outside_two_byte ov : outside (two_byte ov).
Proof.
  unfold two_byte. apply outside_bind; [apply guards_inst_byte | apply level_inst_byte |]. intros opcode.
  apply outside_bind; [keep | apply level_Int6 |]. intros _.
  repeat match goal with |- outside (match ?x with _ => _ end) => destruct x end;
    first [ apply outside_done, outside_op_0f01 | apply outside_done, outside_MOV_special
          | apply outside_done, outside_then; [apply outside_MOV_special | solve [keep]]
          | apply outside_done, outside_shut | apply outside_keeps; solve [keep] ].
Qed.

Lemma guards_arith opcode ov :
  guards (match group1 (opcode .>> 3) with
         | Some inst => done (arith_form ov (opcode .& 7) inst)
         | None => ret Completed
         end : X next).
Proof. apply (guards_group1 _ (fun inst => done (arith_form ov (opcode .& 7) inst))); [intros inst Hi|]; keep. Qed.

Lemma outside_switch_00_3f opcode ov repeat : outside (switch_00_3f opcode ov repeat).
Proof.
  unfold switch_00_3f.
  repeat match goal with
         | |- outside (match group1 _ with _ => _ end) => apply outside_keeps, guards_arith
         | |- outside (match ?x with _ => _ end) => destruct x
         end; first [apply outside_two_byte | apply outside_keeps; solve [keep]].
Qed.

Lemma outside_decode ov repeat : outside (decode shiftrot_of_undef ov repeat).
Proof.
  unfold decode. apply outside_bind; [apply guards_inst_byte | apply level_inst_byte |]. intros opcode.
  destruct (_ <=? _); [apply outside_switch_00_3f|]. apply outside_keeps.
  repeat apply guards_if; first [apply guards_switch_40_7f | apply guards_switch_80_bf | apply guards_switch_c0_ff].
Qed.

(** ** The main loop *)

(** The guarded registers after a reset. *)
Definition reset_sys : SYSTEM_TABLE_ADDRESS_REGISTER * SYSTEM_TABLE_ADDRESS_REGISTER * Z :=
  (mkSTAR 0 0, mkSTAR 0 0x3ff, 0x10).

(** From one state to another: nothing guarded changed, or the processor was reset. *)
Definition contract (s s' : exec P D) : Prop := guard s' = guard s \/ sys (the_cpu s') = reset_sys.

Lemma contract_trans s1 s2 s3 : contract s1 s2 -> contract s2 s3 -> contract s1 s3.
Proof.
  unfold contract, guard. intros [E1 | E1] [E2 | E2]; [left; congruence | auto | right | auto].
  apply (f_equal fst) in E2. cbn [fst] in E2. congruence.
Qed.

Lemma shutdown_sys e (s : exec P D) : shutdown e s -> sys (the_cpu s) = reset_sys.
Proof. intros (_ & c & ->). reflexivity. Qed.

(** What a computation may end in, from [s]; an exception that is a shutdown comes with
    the registers of one. *)
Definition ends_in {A} (s : exec P D) (o : outcome exn (exec P D) A) : Prop :=
  match o with
  | Ret _ s' => contract s s'
  | Raise e s' => contract s s' /\ (e = CpuContinue -> sys (the_cpu s') = reset_sys)
  | Undefined => True
  end.

Lemma ends_outside {A} (m : X A) s : CPL (the_cpu s) <> 0 -> outside m -> ends_in s (m s).
Proof.
  intros Hs Hm. specialize (Hm s Hs). unfold ends_in, contract. destruct (m s) as [a s'|e s'|]; [auto | | exact I].
  destruct Hm as [[E Hn] | Hm]; [split; [auto | congruence]|]. apply shutdown_sys in Hm. auto.
Qed.
Lemma ends_keeps {A} (m : X A) s : guards m -> ends_in s (m s).
Proof.
  intros Hm. specialize (Hm s). unfold ends_in, contract. destruct (m s) as [a s'|e s'|]; [auto | | exact I].
  destruct Hm as [[E Hn] | Hm]; [split; [auto | congruence]|]. apply shutdown_sys in Hm. auto.
Qed.
Lemma ends_trans {A} s s1 (o : outcome exn (exec P D) A) : contract s s1 -> ends_in s1 o -> ends_in s o.
Proof. intros C1. destruct o; cbn; [|intros [C2 C3]; split; [|exact C3] | auto]; intros; apply contract_trans with s1; assumption. Qed.
Lemma ends_bind {A B} (m : X A) (k : A -> X B) s0 s :
  ends_in s0 (m s) -> (forall a s1, ends_in s1 (k a s1)) -> ends_in s0 (bind m k s).
Proof.
  intros Hm Hk. unfold bind. destruct (m s) as [a s1|e s1|]; [|exact Hm | exact I]. exact (ends_trans s0 s1 _ Hm (Hk a s1)).
Qed.

(** A reset leaves the guarded registers at their reset values. *)
Lemma ends_reset_rest s0 s : sys (the_cpu s) = reset_sys -> ends_in s0 (reset_rest s).
Proof.
  intros Hs. unfold reset_rest. unfold bind at 1, oncore at 1, ondbg at 1, modify at 1.
  unfold bind at 1, oncore at 1. cbn [MOV_DR DR_DCR]. unfold ondbg at 1, modify at 1. unfold bind, modify.
  match goal with |- ends_in _ (InitNpx ?s') => set (s2 := s') end.
  assert (E2 : sys (the_cpu s2) = reset_sys) by exact Hs.
  apply (ends_trans s0 s2); [right; exact E2 | apply ends_keeps, keep_InitNpx].
Qed.

Lemma ends_reset s : ends_in s (reset s).
Proof.
  change (ends_in s (bind reset_rest (fun _ => modc clear_status) (put_cpu (c_cpu_reset (the_cpu s)) s))).
  apply ends_bind; [apply ends_reset_rest; rewrite the_put; reflexivity | intros; apply ends_keeps; keep].
Qed.

Lemma ends_take_exception n : forall e s0 s,
  contract s0 s -> (e = CpuContinue -> sys (the_cpu s) = reset_sys) -> ends_in s0 (take_exception n e s).
Proof.
  induction n as [|n IH]; intros e s0 s Hc He; (destruct e as [v priv h code| |]; cbn [take_exception];
    [| apply ends_reset_rest; auto | split; [exact Hc | discriminate]]); [exact I|].
  pose proof (ends_keeps (oncore (do_intrupt v priv h code)) s ltac:(keep)) as Hd.
  apply (ends_trans s0 s _ Hc). destruct (oncore _ s) as [a s1|e s1|]; [exact Hd | | exact I].
  apply IH; apply Hd.
Qed.

Lemma guards_restart : guards (restart : X next).
Proof. keep. Qed.

Lemma ends_boundary s : ends_in s (boundary s).
Proof.
  unfold boundary. apply ends_bind; [apply ends_keeps; keep|]. intros _ s1.
  apply ends_bind; [apply ends_keeps; keep|]. intros [] s2.
  - apply ends_bind; [apply ends_keeps; keep|]. intros _ s3.
    apply ends_bind; [apply ends_reset|]. intros; apply ends_keeps; keep.
  - apply ends_keeps; keep.
Qed.

Lemma ends_run_phase ph s : CPL (the_cpu s) <> 0 -> ends_in s (run_phase shiftrot_of_undef ph s).
Proof.
  intros Hs. destruct ph; cbn [run_phase]; try (apply ends_keeps; solve [keep]).
  - unfold completed. repeat (apply ends_bind; [apply ends_keeps; keep|]; intros). destruct (_ && _); [apply ends_keeps; keep | apply ends_boundary].
  - apply ends_outside; [exact Hs | apply outside_decode].
Qed.

(** C5 - Outside ring 0 the machine stays configured as the system left it.  From any state
    with a privilege level other than 0 and at any point of the main loop, one step, with
    every instruction there is, every fault it meets, its delivery through gates and
    tasks, hardware interrupts and traps, ends with the same GDTR, IDTR, CR0 (but for the
    task switched bit) and breakpoint addresses, or with those registers as a reset
    leaves them.  The devices and host routines an instruction calls are asked to keep
    them too. *)
Theorem unprivileged_contained ph s :
  CPL (the_cpu s) <> 0 ->
  match step shiftrot_of_undef ph s with
  | Ret _ s' | Raise _ s' => guard s' = guard s \/ sys (the_cpu s') = reset_sys
  | Undefined => True
  end.
Proof.
  intros Hs. assert (HE : ends_in s (step shiftrot_of_undef ph s)).
  { unfold step. pose proof (ends_run_phase ph s Hs) as Hr. destruct (run_phase _ ph s) as [a s1|e s1|]; [exact Hr | | exact I].
    apply ends_bind; [apply ends_take_exception; apply Hr | intros; apply ends_keeps, guards_restart]. }
  destruct (step _ ph s); [exact HE | exact (proj1 HE) | exact I].
Qed.

End Switch.

(** LGDT outside ring 0. *)
#[local] Existing Instance demo_memory.
#[local] Existing Instance demo_quiet.

#[export] Instance demo_adapters_keep : AdaptersKeep (Mem.sas unit) unit.
Proof. split; intros; apply guards_ret. Qed.
#[export] Instance demo_host_keep : HostKeep (Mem.sas unit) unit.
Proof. split; intros; apply guards_ret. Qed.

Definition user_lgdt : exec (Mem.sas unit) unit :=
  let s := boot [0x0f; 0x01; 0x16; 0x00; 0x06] in
  SET_p (Some 0x500) (SET_p_start (Some 0x500) (SET_pg_end 0x1000 (put_cpu (SET_CPL 3 (the_cpu s)) s))).

Lemma unprivileged_contained_witness :
  let o := step false (DECODE SEG_CLR REP_CLR) user_lgdt in
  match o with Ret NEXT_INST _ => true | _ => false end = true
  /\ match o with
     | Ret _ s' | Raise _ s' => guard s' = guard user_lgdt \/ sys (the_cpu s') = reset_sys
     | Undefined => True
     end.
Proof.
  split; [vm_compute; reflexivity|].
  apply (unprivileged_contained false (DECODE SEG_CLR REP_CLR) user_lgdt). vm_compute. discriminate.
Defined.

End Guard.
