(* ===== verification/Strings.v ===== *)
(** * String instructions against block operations

    A repeated string instruction of [Decode.v] is a loop over single items, each with its
    own segment, limit and page checks.  Here MOVS under a repeat prefix is related to what
    it is for: a copy of a block.  First the operand macros are given their specification
    on an item that may be accessed. *)

From S2P Require Import Prelude Cpu Debug Arith Shift Xcptn MulDiv Decimal Flow Mem Tlb Page Basic Seg Virt Addr.
From S2P Require Import Stack Xfer Intr Wp Ring System Ios Oprnd Code Decode Main.

Module Strings.
Import Debug Xcptn Tlb Page Basic Seg Virt Addr Wp Oprnd Code Decode Main.

(** ** Items of an operand size *)

Section Items.
Context {P D : Type} `{PhyMemLaws P} `{CodeMem P}.

(** The bytes of an item. *)
Definition item (sz : Z) : nat := Z.to_nat (sz / 8).

Lemma read_shape n (op : Z -> M exn P Z) f attr size (s0 s1 : mach P) lin v :
  (0 < n)%nat -> lread n f -> (forall m a, is_ram m a (Z.of_nat n) -> op a m = Ret (value_at m a n) m) ->
  lrange s0 lin n -> chk_result s0 lin (Z.of_nat n) v -> lframed nothing s0 s1 ->
  exists s2, (data_break lin attr size ;; x <- (if tst v then onmem (op v) else f lin) ;; softpc_host_debug_read lin n x) s1
    = Ret (lvalue s0 lin n) s2
  /\ mcpu s2 = mcpu s1 /\ lframed nothing s1 s2.
Proof.
  intros Hn Hf Hop HR Hv HF. destruct (data_break_run lin attr size s1 (lf_wf _ _ _ HF)) as (d & Eb & Fb).
  pose proof (lframed_then _ _ _ _ HF Fb) as Fab.
  destruct (chosen_read n op f s0 (SET_mdbg d s1) lin v) as (sc & Ec & Cc & Fc);
    try assumption; [exact (lf_pg _ _ _ Fab)|].
  rewrite (bind_ret _ _ _ _ _ Eb), (bind_ret _ _ _ _ _ Ec). eexists. split; [reflexivity|]. split; [exact Cc|].
  apply (lframed_then _ _ _ _ Fb). apply (lframed_then _ _ _ _ Fc). apply lframed_dbg, (lf_wf _ _ _ Fc).
Qed.

Lemma write_shape n (op : Z -> Z -> M exn P unit) f attr size bytes (s0 s1 : mach P) lin v x :
  (0 < n)%nat -> lwrite n f ->
  (forall m a v, is_ram m a (Z.of_nat n) -> 0 <= v < 2 ^ (8 * Z.of_nat n) ->
   exists m', op a v m = Ret tt m' /\ stored m m' a n v) ->
  lrange s0 lin n -> chk_result s0 lin (Z.of_nat n) v -> lframed nothing s0 s1 -> 0 <= x < 2 ^ (8 * Z.of_nat n) ->
  exists s2, (data_break lin attr size ;; (if tst v then onmem (op v x) else f lin x) ;; notify lin bytes true (le_bytes n x) false) s1
    = Ret tt s2
  /\ mcpu s2 = mcpu s1 /\ lvalue s2 lin n = x /\ lframed (lbytes s0 lin n) s1 s2.
Proof.
  intros Hn Hf Hop HR Hv HF Hx. destruct (data_break_run lin attr size s1 (lf_wf _ _ _ HF)) as (d & Eb & Fb).
  pose proof (lframed_then _ _ _ _ HF Fb) as Fab.
  destruct (chosen_write n op f s0 (SET_mdbg d s1) lin v x) as (sc & Ec & Cc & Vc & Fc);
    try assumption; [exact (lf_pg _ _ _ Fab)|].
  rewrite (bind_ret _ _ _ _ _ Eb), (bind_ret _ _ _ _ _ Ec). unfold notify. set (g := fun d => SET_active _ d).
  destruct (ondbg_run g sc (lf_wf _ _ _ Fc)) as (d' & Ed & Fd). exists (SET_mdbg d' sc).
  split; [exact Ed|]. split; [exact Cc|]. split.
  - rewrite <- Vc. apply (lvalue_framed _ _ _ _ _ Fd); [|unfold nothing; auto].
    apply (lrange_framed _ _ _ _ _ Fc), (lrange_framed _ _ _ _ _ Fab), HR.
  - apply (lframed_weaken _ _ _ _ (lframed_after _ _ _ _ (lframed_then _ _ _ _ Fb Fc) Fd)).
    intros b. apply (lbytes_framed _ _ _ _ _ _ Fab HR).
Qed.

(** The check of an item and the accesses after it. *)
Lemma item_chk sz (s : exec P D) la page :
  op_size sz -> page = PG_R \/ page = PG_W -> lwf (core s) -> lusable (core s) page la (item sz) ->
  exists v m, usr_chk sz la page s = Ret v (SET_core m s)
  /\ chk_result (core s) la (Z.of_nat (item sz)) v /\ mcpu m = mcpu (core s) /\ lframed nothing (core s) m.
Proof.
  intros Hsz Hp Hw HU. unfold usr_chk, oncore. destruct Hsz as [-> | [-> | ->]]; cbn [Z.eqb Pos.eqb].
  - change (item 8) with 1%nat in *. destruct HU as [HR HA].
    pose proof (lrange_first _ _ _ HR ltac:(lia)) as R0. pose proof (HA 0 ltac:(lia)) as A0. rewrite Z.add_0_r in A0.
    unfold usr_chk_byte. rewrite pg_run. destruct (pg (core s)) eqn:E.
    + rewrite getc_bind. destruct (usr_lin2phy (core s) page la Hw E Hp R0 A0) as (m & E1 & F1).
      cbn [the_cpu HasCpu_mach]. rewrite E1. exists (lmap (core s) la), m. split; [reflexivity|].
      split; [right; split; [reflexivity|]; intros _; pose proof (Z.mod_pos_bound la (2 ^ 12)); lia|].
      split; [apply F1 | exact (lframed_paged _ _ _ E F1)].
    + exists la, (core s). split; [reflexivity|]. unfold chk_result, lmap. rewrite E.
      split; [right; split; [reflexivity | congruence]|]. auto using lframed_refl.
  - destruct (usr_chk_word_l (core s) page la Hp Hw HU) as (v & m & -> & HV & HC & HF). eauto 10.
  - destruct (usr_chk_dword_l (core s) page la Hp Hw HU) as (v & m & -> & HV & HC & HF). eauto 10.
Qed.

Lemma item_read sz s0 (s : exec P D) la v :
  op_size sz -> lrange s0 la (item sz) -> chk_result s0 la (Z.of_nat (item sz)) v -> lframed nothing s0 (core s) ->
  exists m, fetch sz (Mem la v) s = Ret (lvalue s0 la (item sz)) (SET_core m s)
  /\ mcpu m = mcpu (core s) /\ lframed nothing (core s) m.
Proof.
  intros Hsz HR Hv HF. unfold fetch, vir_read, oncore. destruct Hsz as [-> | [-> | ->]]; cbn [Z.eqb Pos.eqb].
  - destruct (read_shape 1 phy_read_byte spr_read_byte D_R D_BYTE s0 (core s) la v) as (m & E & HC & HM);
      auto using spr_read_byte_l, read_byte_ram. unfold vir_read_byte. rewrite E. eauto.
  - destruct (read_shape 2 phy_read_word spr_read_word D_R D_WORD s0 (core s) la v) as (m & E & HC & HM);
      auto using spr_read_word_l, read_word_ram with lia. unfold vir_read_word. rewrite E. eauto.
  - destruct (read_shape 4 phy_read_dword spr_read_dword D_R D_DWORD s0 (core s) la v) as (m & E & HC & HM);
      auto using spr_read_dword_l, read_dword_ram with lia. unfold vir_read_dword. rewrite E. eauto.
Qed.

Lemma item_write sz s0 (s : exec P D) la v x :
  op_size sz -> lrange s0 la (item sz) -> chk_result s0 la (Z.of_nat (item sz)) v -> lframed nothing s0 (core s) ->
  0 <= x < 2 ^ sz ->
  exists m, put sz (Mem la v) x s = Ret tt (SET_core m s)
  /\ mcpu m = mcpu (core s) /\ lvalue m la (item sz) = x /\ lframed (lbytes s0 la (item sz)) (core s) m.
Proof.
  intros Hsz HR Hv HF Hx. unfold put, vir_write, oncore. destruct Hsz as [-> | [-> | ->]]; cbn [Z.eqb Pos.eqb].
  - rewrite u8_small by exact Hx.
    destruct (write_shape 1 phy_write_byte spr_write_byte D_W D_BYTE 1 s0 (core s) la v x) as (m & E & HC & HV & HM);
      auto using spr_write_byte_l, write_byte_ram. unfold vir_write_byte. rewrite E. eauto.
  - rewrite u16_small by exact Hx.
    destruct (write_shape 2 phy_write_word spr_write_word D_W D_WORD 2 s0 (core s) la v x) as (m & E & HC & HV & HM);
      auto using spr_write_word_l, write_word_ram with lia. unfold vir_write_word. rewrite E. eauto.
  - destruct (write_shape 4 phy_write_dword spr_write_dword D_W D_DWORD 4 s0 (core s) la v x) as (m & E & HC & HV & HM);
      auto using spr_write_dword_l, write_dword_ram with lia. unfold vir_write_dword. rewrite E. eauto.
Qed.

(** A memory operand that the segment lets through. *)
Definition fits (c : cpu) (seg off sz : Z) : Prop :=
  real_or_v86 c = true \/ bad_limit (GET_SR seg c) off 1 (sz / 8) = false.
Definition lin (c : cpu) (seg off : Z) : Z := u32 (base (GET_SR seg c) + off).

Lemma operand_run sz TYPE page seg off (s : exec P D) :
  op_size sz -> page = PG_R \/ page = PG_W -> lwf (core s) -> TYPE seg s = Ret tt s -> fits (the_cpu s) seg off sz ->
  lusable (core s) page (lin (the_cpu s) seg off) (item sz) ->
  exists v m, mem_operand sz TYPE page seg off s = Ret (Mem (lin (the_cpu s) seg off) v) (SET_core m s)
  /\ chk_result (core s) (lin (the_cpu s) seg off) (Z.of_nat (item sz)) v
  /\ mcpu m = mcpu (core s) /\ lframed nothing (core s) m.
Proof.
  intros Hsz Hp Hw HT HF HU. unfold mem_operand. rewrite (bind_ret _ _ _ _ _ HT).
  assert (EL : limit_check seg off 1 (sz / 8) s = Ret tt s).
  { unfold limit_check. rewrite !getc_bind. destruct HF as [-> | ->]; [reflexivity | destruct (real_or_v86 _); reflexivity]. }
  rewrite (bind_ret _ _ _ _ _ EL). unfold lin_of. rewrite getc_bind. fold (lin (the_cpu s) seg off).
  destruct (item_chk sz s (lin (the_cpu s) seg off) page Hsz Hp Hw HU) as (v & m & E & HV & HC & HM).
  rewrite (bind_ret _ _ _ _ _ E). exists v, m. auto.
Qed.

End Items.

(** ** Index and count registers *)

(** What the registers of the address size wrap at. *)
Definition wrap (c : cpu) : Z := if address_size c =? USE16 then 2 ^ 16 else 2 ^ 32.

Lemma GET_SET_A i j x c : 0 <= i < 8 -> 0 <= j < 8 -> 0 <= x < wrap c ->
  GET_A i (SET_A j x c) = if i =? j then x else GET_A i c.
Proof.
  intros Hi Hj. unfold wrap, GET_A, SET_A. destruct (address_size c =? USE16) eqn:E; intros Hx.
  - change (address_size (SET_WR j x c)) with (address_size c). rewrite E. destruct (Z.eqb_spec i j) as [-> | Hn].
    + rewrite (proj1 (GET_SET_WR j x c Hj)). apply u16_small, Hx.
    + unfold GET_WR, SET_WR. rewrite GET_SET_GR by assumption. rewrite (proj2 (Z.eqb_neq i j) Hn). reflexivity.
  - change (address_size (SET_GR j x c)) with (address_size c). rewrite E. apply GET_SET_GR; assumption.
Qed.

(** Only general registers other than those a string instruction uses keep their value. *)
Definition stringed (c c' : cpu) : Prop :=
  (exists g, c' = SET_gr g c) /\ (forall i, 0 <= i < 6 -> i <> A_ECX -> GET_GR i c' = GET_GR i c).

Lemma stringed_refl c : stringed c c.
Proof. split; [exists (gr c); destruct c; reflexivity | reflexivity]. Qed.
Lemma stringed_trans c1 c2 c3 : stringed c1 c2 -> stringed c2 c3 -> stringed c1 c3.
Proof.
  intros [[g1 ->] E1] [[g2 ->] E2]. split; [exists g2; reflexivity|]. intros i Hi Hn. rewrite E2, E1 by assumption. reflexivity.
Qed.
Lemma stringed_wrap c c' : stringed c c' -> wrap c' = wrap c.
Proof. intros [[g ->] _]. reflexivity. Qed.
Lemma stringed_set j x c : j = A_ECX \/ j = A_ESI \/ j = A_EDI -> stringed c (SET_A j x c).
Proof.
  intros Hj. assert (HG : forall y, stringed c (SET_GR j y c)).
  { intros y. split; [unfold SET_GR; eexists; reflexivity|]. intros i Hi Hn. rewrite GET_SET_GR by (unfold A_ECX, A_ESI, A_EDI in *; lia).
    rewrite (proj2 (Z.eqb_neq i j)) by (unfold A_ECX, A_ESI, A_EDI in *; lia). reflexivity. }
  unfold SET_A. destruct (_ =? _); apply HG.
Qed.

(** ** MOVS *)

Section Movs.
Context {P D : Type} `{PhyMemLaws P} `{CodeMem P}.
Context (sz ov : Z) (Hsz : op_size sz).

Abbreviation X := (M exn (exec P D)).
Abbreviation k := (sz / 8).

(** Item [i] of the source and of the destination. *)
Definition from (c : cpu) (i : Z) : Z := lin c (seg_or_DS ov) (GET_A A_ESI c + i * k).
Definition to (c : cpu) (i : Z) : Z := lin c ES_REG (GET_A A_EDI c + i * k).

(** What each of the [n] rounds needs: room in the index registers, segments, limits and
    pages that allow the access. *)
Record allowed (s : exec P D) (n : Z) : Prop := {
  al_DF : DF (fl (the_cpu s)) = 0;
  al_from : 0 <= GET_A A_ESI (the_cpu s) /\ GET_A A_ESI (the_cpu s) + n * k < wrap (the_cpu s);
  al_to : 0 <= GET_A A_EDI (the_cpu s) /\ GET_A A_EDI (the_cpu s) + n * k < wrap (the_cpu s);
  al_count : 0 <= n < wrap (the_cpu s);
  al_r : tst (ar_r (GET_SR (seg_or_DS ov) (the_cpu s))) = true;
  al_w : tst (ar_w (GET_SR ES_REG (the_cpu s))) = true;
  al_fits i : 0 <= i < n -> fits (the_cpu s) (seg_or_DS ov) (GET_A A_ESI (the_cpu s) + i * k) sz
                            /\ fits (the_cpu s) ES_REG (GET_A A_EDI (the_cpu s) + i * k) sz;
  al_pages i : 0 <= i < n -> lusable (core s) PG_R (from (the_cpu s) i) (item sz)
                             /\ lusable (core s) PG_W (to (the_cpu s) i) (item sz)
}.

(** No destination item shares a byte with a source item or with another one. *)
Record apart (s : exec P D) (n : Z) : Prop := {
  ap_from i j b : 0 <= i < n -> 0 <= j < n ->
    lbytes (core s) (from (the_cpu s) i) (item sz) b -> ~ lbytes (core s) (to (the_cpu s) j) (item sz) b;
  ap_to i j b : 0 <= i < n -> 0 <= j < n -> i <> j ->
    lbytes (core s) (to (the_cpu s) i) (item sz) b -> ~ lbytes (core s) (to (the_cpu s) j) (item sz) b
}.

Lemma k_pos : 1 <= k <= 4 /\ Z.of_nat (item sz) = k /\ 8 * k = sz.
Proof. destruct Hsz as [-> | [-> | ->]]; vm_compute; repeat split; congruence. Qed.

Lemma commit_run i repeat rep_count (s : exec P D) :
  DF (fl (the_cpu s)) = 0 -> repeat <> REP_CLR ->
  commit i sz repeat rep_count s
    = Ret tt (put_cpu (SET_A A_ECX rep_count (SET_A i (u32 (GET_A i (the_cpu s) + k)) (the_cpu s))) s).
Proof.
  intros Hd Hr. unfold commit. rewrite (proj2 (Z.eqb_neq _ _) Hr). cbn [negb when].
  unfold bind, modc, modify. rewrite the_put, put_put, Hd. reflexivity.
Qed.

(** The registers after a round. *)
Definition counted (i rep_count : Z) (c : cpu) : cpu := SET_A A_ECX rep_count (SET_A i (u32 (GET_A i c + k)) c).

Lemma counted_stringed i rep_count c : i = A_ESI \/ i = A_EDI -> stringed c (counted i rep_count c).
Proof. intros Hi. eapply stringed_trans; apply stringed_set; tauto. Qed.

Lemma counted_regs i j rep_count c :
  i = A_ESI /\ j = A_EDI \/ i = A_EDI /\ j = A_ESI ->
  0 <= GET_A i c -> GET_A i c + k < wrap c -> 0 <= rep_count < wrap c ->
  GET_A i (counted i rep_count c) = GET_A i c + k /\ GET_A j (counted i rep_count c) = GET_A j c
  /\ GET_A A_ECX (counted i rep_count c) = rep_count.
Proof.
  intros Hij Hlo Hhi Hc. destruct k_pos as (Hk & _). assert (Hw : wrap c <= 2 ^ 32) by (unfold wrap; destruct (_ =? _); lia).
  unfold counted. rewrite u32_small by lia. set (c1 := SET_A i _ c).
  assert (Ew : wrap c1 = wrap c) by (apply stringed_wrap, stringed_set; tauto).
  unfold A_ESI, A_EDI, A_ECX in *. rewrite !(GET_SET_A _ _ rep_count c1) by lia. subst c1.
  rewrite !GET_SET_A by lia. destruct Hij as [[-> ->] | [-> ->]]; auto.
Qed.

(** One round. *)
Definition round (repeat rep_count : Z) : X bool := goes_on (
  x <- D_X sz ov RO PG_R ;; y <- D_Y sz WO PG_W ;;
  v <- fetch sz x ;;
  C_Y sz repeat rep_count ;; C_X sz repeat rep_count ;;
  put sz y v).

Lemma round_run repeat rep_count s n :
  repeat <> REP_CLR -> lwf (core s) -> allowed s n -> 0 < n -> 0 <= rep_count < wrap (the_cpu s) ->
  exists s', round repeat rep_count s = Ret false s'
  /\ stringed (the_cpu s) (the_cpu s')
  /\ GET_A A_ESI (the_cpu s') = GET_A A_ESI (the_cpu s) + k /\ GET_A A_EDI (the_cpu s') = GET_A A_EDI (the_cpu s) + k
  /\ GET_A A_ECX (the_cpu s') = rep_count
  /\ lvalue (core s') (to (the_cpu s) 0) (item sz) = lvalue (core s) (from (the_cpu s) 0) (item sz)
  /\ lframed (lbytes (core s) (to (the_cpu s) 0) (item sz)) (core s) (core s').
Proof.
  intros Hr Hw HA Hn Hc. destruct (al_pages _ _ HA 0 ltac:(lia)) as [UX UY]. destruct (al_fits _ _ HA 0 ltac:(lia)) as [FX FY].
  unfold from, to in *. rewrite Z.mul_0_l, !Z.add_0_r in *. set (c := the_cpu s) in *.
  destruct (operand_run sz RO PG_R (seg_or_DS ov) (GET_A A_ESI c) s Hsz (or_introl eq_refl) Hw) as (v & m1 & E1 & V1 & C1 & F1);
    [unfold RO; rewrite getc_bind, (al_r _ _ HA); reflexivity | exact FX | exact UX |].
  set (s1 := SET_core m1 s). assert (Ec1 : the_cpu s1 = c) by exact C1.
  destruct (operand_run sz WO PG_W ES_REG (GET_A A_EDI c) s1 Hsz (or_intror eq_refl)) as (w & m2 & E2 & V2 & C2 & F2);
    rewrite ?Ec1; [exact (lf_wf _ _ _ F1) | unfold WO; rewrite getc_bind, Ec1; unfold c; rewrite (al_w _ _ HA); reflexivity | exact FY
    | apply (lusable_framed _ _ _ _ _ _ F1); [exact (f_equal CPL C1) | exact UY] |].
  rewrite Ec1 in E2, V2. pose proof (lframed_then _ _ _ _ F1 F2) as F02. set (s2 := SET_core m2 s1).
  destruct (item_read sz (core s) s2 (lin c (seg_or_DS ov) (GET_A A_ESI c)) v Hsz (proj1 UX) V1 F02) as (m3 & E3 & C3 & F3).
  set (s3 := SET_core m3 s2). assert (Ec3 : the_cpu s3 = c) by exact (eq_trans C3 (eq_trans C2 C1)).
  set (c4 := counted A_EDI rep_count c). set (c5 := counted A_ESI rep_count c4).
  pose proof (counted_stringed A_EDI rep_count c (or_intror eq_refl)) as S4. fold c4 in S4.
  pose proof (stringed_trans _ _ _ S4 (counted_stringed A_ESI rep_count c4 (or_introl eq_refl))) as S5. fold c5 in S5.
  assert (E4 : C_Y sz repeat rep_count s3 = Ret tt (put_cpu c4 s3)).
  { unfold C_Y. rewrite commit_run, Ec3 by (assumption || (rewrite Ec3; apply HA)). reflexivity. }
  assert (E5 : C_X sz repeat rep_count (put_cpu c4 s3) = Ret tt (put_cpu c5 s3)).
  { unfold C_X. rewrite commit_run, put_put, the_put by (try assumption; rewrite the_put; destruct S4 as [[g ->] _]; apply HA). reflexivity. }
  assert (F5 : lframed nothing m2 (core (put_cpu c5 s3))).
  { apply (lframed_then _ _ _ _ F3). apply (lframed_cpu c5 m3); [|exact (lf_wf _ _ _ F3)].
    change (mcpu m3) with (the_cpu s3). rewrite Ec3. destruct S5 as [[g ->] _]. reflexivity. }
  pose proof (lvalue_range _ _ _ (proj1 UX)) as Hx. destruct k_pos as (Hk & Ek & E8). rewrite Ek, E8 in Hx.
  assert (UY1 : lusable m1 PG_W (lin c ES_REG (GET_A A_EDI c)) (item sz))
    by (apply (lusable_framed _ _ _ _ _ _ F1); [exact (f_equal CPL C1) | exact UY]).
  destruct (item_write sz m1 (put_cpu c5 s3) (lin c ES_REG (GET_A A_EDI c)) w _ Hsz (proj1 UY1) V2
              (lframed_then _ _ _ _ F2 F5) Hx) as (m6 & E6 & C6 & V6 & F6).
  assert (EX : D_X sz ov RO PG_R s = Ret (Mem (lin c (seg_or_DS ov) (GET_A A_ESI c)) v) s1)
    by (unfold D_X; rewrite getc_bind; exact E1).
  assert (EY : D_Y sz WO PG_W s1 = Ret (Mem (lin c ES_REG (GET_A A_EDI c)) w) s2)
    by (unfold D_Y; rewrite getc_bind, Ec1; exact E2).
  exists (SET_core m6 (put_cpu c5 s3)). split.
  { unfold round, goes_on. unfold bind at 1.
    rewrite (bind_ret _ _ _ _ _ EX), (bind_ret _ _ _ _ _ EY), (bind_ret _ _ _ _ _ E3), (bind_ret _ _ _ _ _ E4),
      (bind_ret _ _ _ _ _ E5), E6. reflexivity. }
  assert (Ec6 : the_cpu (SET_core m6 (put_cpu c5 s3)) = c5) by exact C6. rewrite Ec6. split; [exact S5|].
  pose proof (al_from _ _ HA) as HX. pose proof (al_to _ _ HA) as HY. fold c in HX, HY, Hc.
  destruct (counted_regs A_EDI A_ESI rep_count c) as (G1 & G2 & G3); [auto | apply HY | nia | exact Hc |]. fold c4 in G1, G2, G3.
  rewrite <- (stringed_wrap _ _ S4) in HX, Hc. rewrite <- G2 in HX.
  destruct (counted_regs A_ESI A_EDI rep_count c4) as (G4 & G5 & G6); [auto | apply HX | nia | exact Hc |]. fold c5 in G4, G5, G6.
  split; [rewrite G4, G2; reflexivity|]. split; [rewrite G5, G1; reflexivity|]. split; [exact G6|]. split; [exact V6|].
  apply (lframed_weaken (lbytes m1 (lin c ES_REG (GET_A A_EDI c)) (item sz))).
  - exact (lframed_then _ _ _ _ F02 (lframed_then _ _ _ _ F5 F6)).
  - intros b. apply (lbytes_framed _ _ _ _ _ _ F1 (proj1 UY)).
Qed.

(** The items of the next state are those from the second on. *)
Lemma from_next c c' i : stringed c c' -> GET_A A_ESI c' = GET_A A_ESI c + k -> from c' i = from c (i + 1).
Proof. intros [[g ->] _] E. unfold from, lin. rewrite E. f_equal. cbn [GET_SR sr SET_gr]. change (GET_SR _ (SET_gr g c)) with (GET_SR (seg_or_DS ov) c). lia. Qed.
Lemma to_next c c' i : stringed c c' -> GET_A A_EDI c' = GET_A A_EDI c + k -> to c' i = to c (i + 1).
Proof. intros [[g ->] _] E. unfold to, lin. rewrite E. f_equal. change (GET_SR _ (SET_gr g c)) with (GET_SR ES_REG c). lia. Qed.

Definition passed (B : Z -> Prop) (s s' : exec P D) : Prop :=
  stringed (the_cpu s) (the_cpu s') /\ GET_A A_ESI (the_cpu s') = GET_A A_ESI (the_cpu s) + k
  /\ GET_A A_EDI (the_cpu s') = GET_A A_EDI (the_cpu s) + k /\ lframed B (core s) (core s').

Lemma allowed_next B s s' n : passed B s s' -> allowed s (n + 1) -> 0 <= n -> allowed s' n.
Proof.
  intros (HS & EX & EY & HF) HA Hn. destruct k_pos as (Hk & _). pose proof (stringed_wrap _ _ HS) as Ew.
  pose proof (fun i => from_next _ _ i HS EX) as NX. pose proof (fun i => to_next _ _ i HS EY) as NY.
  destruct HA as [A1 A2 A3 A4 A5 A6 A7 A8]. split; rewrite ?EX, ?EY, ?Ew.
  - destruct HS as [[g ->] _]. exact A1.
  - nia.
  - nia.
  - lia.
  - destruct HS as [[g ->] _]. exact A5.
  - destruct HS as [[g ->] _]. exact A6.
  - intros i Hi. destruct (A7 (i + 1) ltac:(lia)) as [Ax Ay].
    replace (GET_A A_ESI (the_cpu s) + k + i * k) with (GET_A A_ESI (the_cpu s) + (i + 1) * k) by lia.
    replace (GET_A A_EDI (the_cpu s) + k + i * k) with (GET_A A_EDI (the_cpu s) + (i + 1) * k) by lia.
    destruct HS as [[g ->] _]. split; assumption.
  - intros i Hi. rewrite NX, NY. destruct (A8 (i + 1) ltac:(lia)) as [Ax Ay].
    assert (Ec : CPL (mcpu (core s')) = CPL (mcpu (core s))) by (change (mcpu (core s')) with (the_cpu s'); destruct HS as [[g ->] _]; reflexivity).
    split; apply (lusable_framed _ _ _ _ _ _ HF Ec); assumption.
Qed.

Lemma apart_next B s s' n : passed B s s' -> allowed s (n + 1) -> apart s (n + 1) -> apart s' n.
Proof.
  intros (HS & EX & EY & HF) HA [A1 A2].
  pose proof (fun i => from_next _ _ i HS EX) as NX. pose proof (fun i => to_next _ _ i HS EY) as NY.
  assert (BX : forall i b, 0 <= i < n -> lbytes (core s') (from (the_cpu s') i) (item sz) b -> lbytes (core s) (from (the_cpu s) (i + 1)) (item sz) b).
  { intros i b Hi. rewrite NX. apply (lbytes_framed _ _ _ _ _ _ HF). apply (al_pages _ _ HA). lia. }
  assert (BY : forall i b, 0 <= i < n -> lbytes (core s') (to (the_cpu s') i) (item sz) b -> lbytes (core s) (to (the_cpu s) (i + 1)) (item sz) b).
  { intros i b Hi. rewrite NY. apply (lbytes_framed _ _ _ _ _ _ HF). apply (al_pages _ _ HA). lia. }
  split.
  - intros i j b Hi Hj Hx Hy. apply (A1 (i + 1) (j + 1) b); auto with lia.
  - intros i j b Hi Hj Hn Hx Hy. apply (A2 (i + 1) (j + 1) b); auto with lia.
Qed.

(** The bytes of the first [n] destination items. *)
Definition block (s : exec P D) (n b : Z) : Prop := exists i, 0 <= i < n /\ lbytes (core s) (to (the_cpu s) i) (item sz) b.

(** What [n] rounds leave. *)
Definition copied (n : Z) (s s' : exec P D) : Prop :=
  stringed (the_cpu s) (the_cpu s')
  /\ GET_A A_ESI (the_cpu s') = GET_A A_ESI (the_cpu s) + n * k
  /\ GET_A A_EDI (the_cpu s') = GET_A A_EDI (the_cpu s) + n * k
  /\ GET_A A_ECX (the_cpu s') = (if n =? 0 then GET_A A_ECX (the_cpu s) else 0)
  /\ (forall i, 0 <= i < n -> lvalue (core s') (to (the_cpu s) i) (item sz) = lvalue (core s) (from (the_cpu s) i) (item sz))
  /\ lframed (block s n) (core s) (core s').

(** A round and then [n] more. *)
Lemma copied_cons s s1 s' n :
  0 <= n -> allowed s (n + 1) -> apart s (n + 1) ->
  passed (lbytes (core s) (to (the_cpu s) 0) (item sz)) s s1 ->
  GET_A A_ECX (the_cpu s1) = n ->
  lvalue (core s1) (to (the_cpu s) 0) (item sz) = lvalue (core s) (from (the_cpu s) 0) (item sz) ->
  copied n s1 s' -> copied (n + 1) s s'.
Proof.
  intros Hn HA HP HPass EC EV (HS' & EX' & EY' & EC' & EV' & HF'). pose proof HPass as (HS & EX & EY & HF).
  pose proof (fun i => from_next _ _ i HS EX) as NX. pose proof (fun i => to_next _ _ i HS EY) as NY.
  assert (RY : forall i, 0 <= i < n + 1 -> lrange (core s) (to (the_cpu s) i) (item sz)) by (intros; apply (al_pages _ _ HA); lia).
  assert (HB : forall i b, 0 <= i < n -> lbytes (core s1) (to (the_cpu s1) i) (item sz) b -> lbytes (core s) (to (the_cpu s) (i + 1)) (item sz) b).
  { intros i b Hi. rewrite NY. apply (lbytes_framed _ _ _ _ _ _ HF), RY. lia. }
  split; [exact (stringed_trans _ _ _ HS HS')|]. split; [rewrite EX', EX; lia|]. split; [rewrite EY', EY; lia|].
  split; [rewrite EC', EC; destruct (Z.eqb_spec n 0) as [-> |]; [reflexivity | rewrite (proj2 (Z.eqb_neq (n + 1) 0)) by lia; reflexivity]|].
  split.
  - intros i Hi. destruct (Z.eq_dec i 0) as [-> | Hi0].
    + rewrite <- EV. apply (lvalue_framed _ _ _ _ _ HF'); [exact (lrange_framed _ _ _ _ _ HF (RY 0 ltac:(lia)))|].
      intros j Hj (i & Hi' & Hb). apply HB in Hb; [|exact Hi']. revert Hb. apply (ap_to _ _ HP 0 (i + 1)); [lia | lia | lia |].
      exists j. split; [exact Hj|]. apply (lf_map _ _ _ HF), (lready_lin (core s)), (RY 0 ltac:(lia)), Hj.
    + specialize (EV' (i - 1) ltac:(lia)). rewrite NX, NY in EV'. replace (i - 1 + 1) with i in EV' by lia. rewrite EV'.
      apply (lvalue_framed _ _ _ _ _ HF); [apply (al_pages _ _ HA); lia|]. intros j Hj.
      apply (ap_from _ _ HP i 0); [lia | lia | exists j; auto].
  - apply (lframed_trans _ _ _ _ _ _ HF HF'). intros b [Hb | (i & Hi & Hb)]; [exists 0; auto with lia|].
    exists (i + 1). split; [lia | apply HB; assumption].
Qed.

Lemma rounds_run repeat : repeat <> REP_CLR -> forall n s,
  lwf (core s) -> allowed s (Z.of_nat n) -> apart s (Z.of_nat n) ->
  exists s', while_count n (round repeat) s = Ret tt s' /\ copied (Z.of_nat n) s s'.
Proof.
  intros Hr n. induction n as [|n IH]; intros s Hw HA HP; cbn [while_count].
  - exists s. split; [reflexivity|]. split; [apply stringed_refl|]. rewrite !Z.add_0_r. do 3 (split; [reflexivity|]).
    split; [lia | exact (lframed_weaken _ _ _ _ (lframed_refl _ Hw) ltac:(intros b []))].
  - replace (Z.of_nat (S n)) with (Z.of_nat n + 1) in * by lia.
    destruct (round_run repeat (Z.of_nat n) s _ Hr Hw HA ltac:(lia)) as (s1 & E1 & S1 & X1 & Y1 & C1 & V1 & F1); [pose proof (al_count _ _ HA); lia|].
    assert (HPass : passed (lbytes (core s) (to (the_cpu s) 0) (item sz)) s s1) by (split; auto).
    destruct (IH s1 (lf_wf _ _ _ F1) (allowed_next _ _ _ _ HPass HA ltac:(lia)) (apart_next _ _ _ _ HPass HA HP)) as (s' & E' & C').
    exists s'. rewrite (bind_ret _ _ _ _ _ E1). split; [exact E' | apply (copied_cons s s1 s'); auto with lia].
Qed.


End Movs.

(** Three words from 0:0600 to 0:0700. *)
#[local] Existing Instance demo_memory.
#[local] Existing Instance demo_laws.

Definition copier : exec (Mem.sas unit) unit :=
  exec0 (mkMach (SET_GR A_ECX 3 (SET_GR A_ESI 0x600 (SET_GR A_EDI 0x700 (c_cpu_reset cpu0)))) demo_sas tlb0 0 0 debug0) tt.

Lemma copier_pg : pg (core copier) = false.
Proof. vm_compute. reflexivity. Qed.

Lemma copier_range a n : 0 <= a -> a + Z.of_nat n <= 0xf0000 -> lrange (core copier) a n.
Proof.
  intros Ha Hn i Hi. unfold lready. rewrite copier_pg. split; [lia|]. change (mmem (core copier)) with demo_sas. apply demo_ram; lia.
Qed.

Lemma copier_from i : 0 <= i < 3 -> from 16 SEG_CLR (the_cpu copier) i = 0x600 + i * 2.
Proof. intros Hi. assert (i = 0 \/ i = 1 \/ i = 2) as [-> | [-> | ->]] by lia; vm_compute; reflexivity. Qed.
Lemma copier_to i : 0 <= i < 3 -> to 16 (the_cpu copier) i = 0x700 + i * 2.
Proof. intros Hi. assert (i = 0 \/ i = 1 \/ i = 2) as [-> | [-> | ->]] by lia; vm_compute; reflexivity. Qed.

Lemma copier_allowed : allowed 16 SEG_CLR copier 3.
Proof.
  split; [vm_compute; repeat split; congruence..| |].
  - intros i Hi. split; left; vm_compute; reflexivity.
  - intros i Hi. rewrite copier_from, copier_to by exact Hi.
    split; (split; [apply copier_range; change (Z.of_nat (item 16)) with 2; lia | intros j Hj Hp; rewrite copier_pg in Hp; discriminate Hp]).
Qed.

Lemma copier_apart : apart 16 SEG_CLR copier 3.
Proof.
  split; intros i j b Hi Hj; rewrite ?copier_from, !copier_to by assumption; unfold lbytes, lmap;
    rewrite copier_pg; change (Z.of_nat (item 16)) with 2.
  - intros (x & Hx & ->) (y & Hy & E). lia.
  - intros Hn (x & Hx & ->) (y & Hy & E). lia.
Qed.


End Strings.
