(* ===== verification/Ica.v ===== *)
(** * Interrupt controllers

    The two 8259 interrupt controllers of [base/system/ica.c]: requests, priorities,
    the acknowledge cycle, end of interrupt, the command ports and action interrupts.

    Host notifications are part of the state or parameters: the CPU's interrupt line
    is [hw_int] ([host_set_hw_int], [host_clear_hw_int]), [PurgeLostIretHookLine] does
    nothing, and the functions devices register (end of interrupt hooks, action
    callbacks) are the parameters [eoi_hook] and [run_callback].  A line number beyond
    the eight entries of an adapter's arrays is the outcome [Undefined], and so is the
    entry of [isr_time_decay] for depth [MAX_ISR_DEPTH], which it does not have. *)

From S2P Require Import Prelude Cpu Arith Shift Xcptn MulDiv Mem Tlb.

Module Ica.
Import Tlb.

(** [ADAPTER_STATE] of [ica.h]; a callback function is its identity. *)
Record ADAPTER_STATE := mkADAPTER {
  ica_master : bool;
  ica_irr : Z;
  ica_isr : Z;
  ica_imr : Z;
  ica_ssr : Z;
  ica_base : Z;
  ica_hipri : Z;
  ica_mode : Z;
  ica_count : Z -> Z;
  ica_int_line : Z;
  ica_cpu_int : bool;
  callback_parm : Z -> Z;
  callback_fn : Z -> option Z;
  isr_depth : Z -> Z;
  isr_progress : Z -> Z -> Z;
  isr_time_decay : Z -> Z -> Z
}.

Definition SET_ica_master (x : bool) (r : ADAPTER_STATE) : ADAPTER_STATE :=
  mkADAPTER x (ica_irr r) (ica_isr r) (ica_imr r) (ica_ssr r) (ica_base r) (ica_hipri r) (ica_mode r) (ica_count r) (ica_int_line r) (ica_cpu_int r) (callback_parm r) (callback_fn r) (isr_depth r) (isr_progress r) (isr_time_decay r).
Definition SET_ica_irr (x : Z) (r : ADAPTER_STATE) : ADAPTER_STATE :=
  mkADAPTER (ica_master r) x (ica_isr r) (ica_imr r) (ica_ssr r) (ica_base r) (ica_hipri r) (ica_mode r) (ica_count r) (ica_int_line r) (ica_cpu_int r) (callback_parm r) (callback_fn r) (isr_depth r) (isr_progress r) (isr_time_decay r).
Definition SET_ica_isr (x : Z) (r : ADAPTER_STATE) : ADAPTER_STATE :=
  mkADAPTER (ica_master r) (ica_irr r) x (ica_imr r) (ica_ssr r) (ica_base r) (ica_hipri r) (ica_mode r) (ica_count r) (ica_int_line r) (ica_cpu_int r) (callback_parm r) (callback_fn r) (isr_depth r) (isr_progress r) (isr_time_decay r).
Definition SET_ica_imr (x : Z) (r : ADAPTER_STATE) : ADAPTER_STATE :=
  mkADAPTER (ica_master r) (ica_irr r) (ica_isr r) x (ica_ssr r) (ica_base r) (ica_hipri r) (ica_mode r) (ica_count r) (ica_int_line r) (ica_cpu_int r) (callback_parm r) (callback_fn r) (isr_depth r) (isr_progress r) (isr_time_decay r).
Definition SET_ica_ssr (x : Z) (r : ADAPTER_STATE) : ADAPTER_STATE :=
  mkADAPTER (ica_master r) (ica_irr r) (ica_isr r) (ica_imr r) x (ica_base r) (ica_hipri r) (ica_mode r) (ica_count r) (ica_int_line r) (ica_cpu_int r) (callback_parm r) (callback_fn r) (isr_depth r) (isr_progress r) (isr_time_decay r).
Definition SET_ica_base (x : Z) (r : ADAPTER_STATE) : ADAPTER_STATE :=
  mkADAPTER (ica_master r) (ica_irr r) (ica_isr r) (ica_imr r) (ica_ssr r) x (ica_hipri r) (ica_mode r) (ica_count r) (ica_int_line r) (ica_cpu_int r) (callback_parm r) (callback_fn r) (isr_depth r) (isr_progress r) (isr_time_decay r).
Definition SET_ica_hipri (x : Z) (r : ADAPTER_STATE) : ADAPTER_STATE :=
  mkADAPTER (ica_master r) (ica_irr r) (ica_isr r) (ica_imr r) (ica_ssr r) (ica_base r) x (ica_mode r) (ica_count r) (ica_int_line r) (ica_cpu_int r) (callback_parm r) (callback_fn r) (isr_depth r) (isr_progress r) (isr_time_decay r).
Definition SET_ica_mode (x : Z) (r : ADAPTER_STATE) : ADAPTER_STATE :=
  mkADAPTER (ica_master r) (ica_irr r) (ica_isr r) (ica_imr r) (ica_ssr r) (ica_base r) (ica_hipri r) x (ica_count r) (ica_int_line r) (ica_cpu_int r) (callback_parm r) (callback_fn r) (isr_depth r) (isr_progress r) (isr_time_decay r).
Definition SET_ica_count (x : Z -> Z) (r : ADAPTER_STATE) : ADAPTER_STATE :=
  mkADAPTER (ica_master r) (ica_irr r) (ica_isr r) (ica_imr r) (ica_ssr r) (ica_base r) (ica_hipri r) (ica_mode r) x (ica_int_line r) (ica_cpu_int r) (callback_parm r) (callback_fn r) (isr_depth r) (isr_progress r) (isr_time_decay r).
Definition SET_ica_int_line (x : Z) (r : ADAPTER_STATE) : ADAPTER_STATE :=
  mkADAPTER (ica_master r) (ica_irr r) (ica_isr r) (ica_imr r) (ica_ssr r) (ica_base r) (ica_hipri r) (ica_mode r) (ica_count r) x (ica_cpu_int r) (callback_parm r) (callback_fn r) (isr_depth r) (isr_progress r) (isr_time_decay r).
Definition SET_ica_cpu_int (x : bool) (r : ADAPTER_STATE) : ADAPTER_STATE :=
  mkADAPTER (ica_master r) (ica_irr r) (ica_isr r) (ica_imr r) (ica_ssr r) (ica_base r) (ica_hipri r) (ica_mode r) (ica_count r) (ica_int_line r) x (callback_parm r) (callback_fn r) (isr_depth r) (isr_progress r) (isr_time_decay r).
Definition SET_callback_parm (x : Z -> Z) (r : ADAPTER_STATE) : ADAPTER_STATE :=
  mkADAPTER (ica_master r) (ica_irr r) (ica_isr r) (ica_imr r) (ica_ssr r) (ica_base r) (ica_hipri r) (ica_mode r) (ica_count r) (ica_int_line r) (ica_cpu_int r) x (callback_fn r) (isr_depth r) (isr_progress r) (isr_time_decay r).
Definition SET_callback_fn (x : Z -> option Z) (r : ADAPTER_STATE) : ADAPTER_STATE :=
  mkADAPTER (ica_master r) (ica_irr r) (ica_isr r) (ica_imr r) (ica_ssr r) (ica_base r) (ica_hipri r) (ica_mode r) (ica_count r) (ica_int_line r) (ica_cpu_int r) (callback_parm r) x (isr_depth r) (isr_progress r) (isr_time_decay r).
Definition SET_isr_depth (x : Z -> Z) (r : ADAPTER_STATE) : ADAPTER_STATE :=
  mkADAPTER (ica_master r) (ica_irr r) (ica_isr r) (ica_imr r) (ica_ssr r) (ica_base r) (ica_hipri r) (ica_mode r) (ica_count r) (ica_int_line r) (ica_cpu_int r) (callback_parm r) (callback_fn r) x (isr_progress r) (isr_time_decay r).
Definition SET_isr_progress (x : Z -> Z -> Z) (r : ADAPTER_STATE) : ADAPTER_STATE :=
  mkADAPTER (ica_master r) (ica_irr r) (ica_isr r) (ica_imr r) (ica_ssr r) (ica_base r) (ica_hipri r) (ica_mode r) (ica_count r) (ica_int_line r) (ica_cpu_int r) (callback_parm r) (callback_fn r) (isr_depth r) x (isr_time_decay r).
Definition SET_isr_time_decay (x : Z -> Z -> Z) (r : ADAPTER_STATE) : ADAPTER_STATE :=
  mkADAPTER (ica_master r) (ica_irr r) (ica_isr r) (ica_imr r) (ica_ssr r) (ica_base r) (ica_hipri r) (ica_mode r) (ica_count r) (ica_int_line r) (ica_cpu_int r) (callback_parm r) (callback_fn r) (isr_depth r) (isr_progress r) x.

(** Both adapters with the file's other variables; [hw_int] is the CPU's interrupt
    request and the sequences are those of [SWPIC_outb]. *)
Record ica := mkIca {
  master : ADAPTER_STATE;
  slave : ADAPTER_STATE;
  ica_lock : Z;
  iretHookMask : Z;
  iretHookActive : Z;
  DelayIrqLine : Z;
  hw_int : bool;
  seq_master : Z;
  seq_slave : Z
}.

Definition SET_master (x : ADAPTER_STATE) (r : ica) : ica :=
  mkIca x (slave r) (ica_lock r) (iretHookMask r) (iretHookActive r) (DelayIrqLine r) (hw_int r) (seq_master r) (seq_slave r).
Definition SET_slave (x : ADAPTER_STATE) (r : ica) : ica :=
  mkIca (master r) x (ica_lock r) (iretHookMask r) (iretHookActive r) (DelayIrqLine r) (hw_int r) (seq_master r) (seq_slave r).
Definition SET_ica_lock (x : Z) (r : ica) : ica :=
  mkIca (master r) (slave r) x (iretHookMask r) (iretHookActive r) (DelayIrqLine r) (hw_int r) (seq_master r) (seq_slave r).
Definition SET_iretHookMask (x : Z) (r : ica) : ica :=
  mkIca (master r) (slave r) (ica_lock r) x (iretHookActive r) (DelayIrqLine r) (hw_int r) (seq_master r) (seq_slave r).
Definition SET_iretHookActive (x : Z) (r : ica) : ica :=
  mkIca (master r) (slave r) (ica_lock r) (iretHookMask r) x (DelayIrqLine r) (hw_int r) (seq_master r) (seq_slave r).
Definition SET_DelayIrqLine (x : Z) (r : ica) : ica :=
  mkIca (master r) (slave r) (ica_lock r) (iretHookMask r) (iretHookActive r) x (hw_int r) (seq_master r) (seq_slave r).
Definition SET_hw_int (x : bool) (r : ica) : ica :=
  mkIca (master r) (slave r) (ica_lock r) (iretHookMask r) (iretHookActive r) (DelayIrqLine r) x (seq_master r) (seq_slave r).
Definition SET_seq_master (x : Z) (r : ica) : ica :=
  mkIca (master r) (slave r) (ica_lock r) (iretHookMask r) (iretHookActive r) (DelayIrqLine r) (hw_int r) x (seq_slave r).
Definition SET_seq_slave (x : Z) (r : ica) : ica :=
  mkIca (master r) (slave r) (ica_lock r) (iretHookMask r) (iretHookActive r) (DelayIrqLine r) (hw_int r) (seq_master r) x.

Definition ICA_MASTER : Z := 0.
Definition ICA_SLAVE : Z := 1.
Definition MAX_ISR_DEPTH : Z := 3.
Definition MAX_INTR_DELTA_FOR_LOST_HOOK : Z := 85.
Definition ICA_INTACK_REJECT : Z := -1.

Definition ICA_BASE_MASK : Z := 0xf8.
Definition ICA_IC4 : Z := 0x0001.
Definition ICA_SINGL : Z := 0x0002.
Definition ICA_ICW1_MASK : Z := 0x000f.
Definition ICA_AEOI : Z := 0x0020.
Definition ICA_SFNM : Z := 0x0100.
Definition ICA_ICW4_MASK : Z := 0x01f0.
Definition ICA_SMM : Z := 0x0200.
Definition ICA_RAEOI : Z := 0x0400.
Definition ICA_RIS : Z := 0x0800.
Definition ICA_POLL : Z := 0x1000.
Definition ICA_SMM_CMD : Z := 0x40.
Definition ICA_POLL_CMD : Z := 0x04.
Definition ICA_RR_CMD : Z := 0x02.

Definition adapter_of (adapter : Z) (s : ica) : ADAPTER_STATE :=
  if adapter =? ICA_MASTER then master s else slave s.
Definition mod_adapter (adapter : Z) (f : ADAPTER_STATE -> ADAPTER_STATE) (s : ica) : ica :=
  if adapter =? ICA_MASTER then SET_master (f (master s)) s else SET_slave (f (slave s)) s.

Definition set1 {A} (f : Z -> A) (i : Z) (x : A) : Z -> A := fun j => if j =? i then x else f j.

Abbreviation X := (M Empty_set ica).
Definition modad (adapter : Z) (f : ADAPTER_STATE -> ADAPTER_STATE) : X unit := modify (mod_adapter adapter f).
Definition getad {A} (adapter : Z) (f : ADAPTER_STATE -> A) : X A := gets (fun s => f (adapter_of adapter s)).

(** [1 << line] as an IU8. *)
Definition bit8 (line : Z) : Z := u8 (Z.shiftl 1 line).

(** ** The scan of the request register *)

(** The loop of [ica_scan_irr] from [i], [n] lines to go. *)
Fixpoint scan_lines (n : nat) (i hipri active_isr irr_and_not_imr : Z) : Z :=
  match n with
  | O => 7
  | S n =>
      let j := u32 (hipri + i) .& 7 in
      let bit := bit8 j in
      if tst (active_isr .& bit) then 7
      else if tst (irr_and_not_imr .& bit) then 0x80 + j
      else scan_lines n (i + 1) hipri active_isr irr_and_not_imr
  end.

Definition ica_scan_irr (adapter : Z) (s : ica) : Z :=
  let asp := adapter_of adapter s in
  let iret_hook_mask := u8 ((iretHookActive s .| DelayIrqLine s) .>> (adapter * 8)) in
  let irr_and_not_imr := u8 (ica_irr asp .& not32 (ica_imr asp .| iret_hook_mask)) in
  let active_isr := if tst (ica_mode asp .& (ICA_SMM .| ICA_SFNM)) then 0 else ica_isr asp in
  if irr_and_not_imr =? 0 then 7
  else scan_lines 8 0 (ica_hipri asp) active_isr irr_and_not_imr.

Section Host.
Context (eoi_hook : Z -> Z -> ica -> ica).
Context (run_callback : Z -> Z -> ica -> ica).

(** Raising an interrupt on a line and telling the CPU call each other, through the
    slave's line to the master; with the first adapter a master the nesting is two
    deep.  [SWPIC_hw_interrupt] is given the nested [ica_interrupt_cpu]. *)
Definition hw_interrupt_with (interrupt_cpu : Z -> Z -> X unit) (adapter line_no call_count : Z) : X unit :=
  let line_no := line_no .& 0xff in
  if 8 <=? line_no then undefined else
  let bit := bit8 line_no in
  modad adapter (fun a => if tst (ica_irr a .& bit) then a else SET_ica_irr (ica_irr a .| bit) a) ;;
  modad adapter (fun a => SET_ica_count (set1 (ica_count a) line_no (ica_count a line_no + call_count)) a) ;;
  lock <- gets ica_lock ;;
  modify (SET_ica_lock (u8 (lock + 1))) ;;
  if tst lock then modify (fun s => SET_ica_lock (u8 (ica_lock s - 1)) s)
  else
    depth <- getad adapter (fun a => isr_depth a line_no) ;;
    when (0 <? depth)
      (modad adapter (fun a =>
         SET_isr_progress (set1 (isr_progress a) line_no
           (set1 (isr_progress a line_no) depth (isr_progress a line_no depth + 1))) a) ;;
       p <- getad adapter (fun a => isr_progress a line_no) ;;
       when (MAX_INTR_DELTA_FOR_LOST_HOOK <? p depth - p (depth - 1))
         ((if MAX_ISR_DEPTH <=? depth then undefined else ret tt) ;;
          modad adapter (fun a =>
            SET_isr_time_decay (set1 (isr_time_decay a) line_no
              (set1 (isr_time_decay a line_no) (isr_depth a line_no) 0)) a) ;;
          modad adapter (fun a => SET_isr_depth (set1 (isr_depth a) line_no (isr_depth a line_no - 1)) a) ;;
          modify (fun s => SET_iretHookActive
            (iretHookActive s .& not32 (Z.shiftl 1 (adapter * 8 + line_no))) s))) ;;
    line <- gets (ica_scan_irr adapter) ;;
    when (tst (line .& 0x80)) (interrupt_cpu adapter (line .& 7)) ;;
    modify (SET_ica_lock 0).

Fixpoint ica_interrupt_cpu (fuel : nat) (adapter line : Z) : X unit :=
  match fuel with
  | O => undefined
  | S fuel =>
      asp <- gets (adapter_of adapter) ;;
      if ica_cpu_int asp then modad adapter (SET_ica_int_line line)
      else
        modad adapter (SET_ica_int_line line) ;;
        modad adapter (SET_ica_cpu_int true) ;;
        if ica_master asp then modify (SET_hw_int true)
        else
          modify (fun s => SET_ica_lock (u8 (ica_lock s - 1)) s) ;;
          hw_interrupt_with (ica_interrupt_cpu fuel) ICA_MASTER (ica_ssr asp) 1 ;;
          modify (fun s => SET_ica_lock (u8 (ica_lock s + 1)) s)
  end.

(** The nesting of the source: slave, master. *)
Definition interrupt_cpu : Z -> Z -> X unit := ica_interrupt_cpu 2.
Definition SWPIC_hw_interrupt : Z -> Z -> Z -> X unit := hw_interrupt_with interrupt_cpu.

(** Interrupt the CPU when the scan finds a line. *)
Definition rescan (adapter : Z) : X unit :=
  i <- gets (ica_scan_irr adapter) ;;
  when (tst (i .& 0x80)) (interrupt_cpu adapter (i .& 7)).

(** ** End of interrupt *)

(** The line of the highest priority bit of the in-service register. *)
Fixpoint isr_line (n : nat) (i hipri isr : Z) : option Z :=
  match n with
  | O => None
  | S n =>
      let j := u32 (hipri + i) .& 7 in
      if tst (isr .& bit8 j) then Some j else isr_line n (i + 1) hipri isr
  end.

(** [line] is [None] for a non-specific end of interrupt. *)
Definition ica_eoi (adapter : Z) (line : option Z) (rotate : bool) : X unit :=
  asp <- gets (adapter_of adapter) ;;
  let found := match line with
               | None => isr_line 8 0 (ica_hipri asp) (ica_isr asp)
               | Some l => Some l
               end in
  let was_active := match found with
                    | Some l => tst (ica_isr asp .& bit8 l)
                    | None => false
                    end in
  match found with
  | Some l => modad adapter (fun a => SET_ica_isr (ica_isr a .& not32 (bit8 l)) a)
  | None => ret tt
  end ;;
  match found with
  | Some l => when rotate (modad adapter (SET_ica_hipri (u16 ((l + 1) .& 7))))
  | None => ret tt
  end ;;
  match found with
  | Some l => when was_active (modify (fun s => eoi_hook (l + adapter * 8) (ica_count (adapter_of adapter s) l) s))
  | None => ret tt
  end ;;
  rescan adapter.

(** ** Accepting and acknowledging *)

(** [None] is the source's -1. *)
Definition ica_accept (adapter : Z) : X (option Z) :=
  modad adapter (SET_ica_cpu_int false) ;;
  line1 <- gets (ica_scan_irr adapter) ;;
  if negb (tst (line1 .& 0x80)) then ret None
  else
    let line1 := line1 .& 7 in
    asp <- gets (adapter_of adapter) ;;
    if MAX_ISR_DEPTH <=? isr_depth asp line1 then
      modify (fun s => SET_iretHookActive (u16 (iretHookActive s .| (1 .<< (adapter * 8 + line1)))) s) ;;
      ret None
    else
      let bit := bit8 line1 in
      modad adapter (fun a => SET_ica_isr (ica_isr a .| bit) a) ;;
      modad adapter (fun a => SET_ica_count (set1 (ica_count a) line1 (ica_count a line1 - 1)) a) ;;
      modad adapter (fun a =>
        if ica_count a line1 <=? 0
        then SET_ica_count (set1 (ica_count a) line1 0) (SET_ica_irr (ica_irr a .& not32 bit) a)
        else a) ;;
      mode <- getad adapter ica_mode ;;
      when (tst (mode .& ICA_AEOI)) (ica_eoi adapter None (mode .& ICA_RAEOI =? ICA_RAEOI)) ;;
      ret (Some line1).

Definition ica_iret_hook_needed (line : Z) (s : ica) : Z :=
  if tst (iretHookMask s .& u16 (1 .<< line)) then line + 1 else 0.

(** Run and forget the action callback of a line. *)
Definition take_callback (adapter line : Z) (f : Z) : X unit :=
  parm <- getad adapter (fun a => callback_parm a line) ;;
  modify (run_callback f parm) ;;
  modad adapter (fun a => SET_callback_fn (set1 (callback_fn a) line None) a).

(** The end of [ica_intack]: the hook address and the hook depth. *)
Definition intack_hook (adapter line int_no : Z) : X (Z * Z) :=
  hook_address <- gets (ica_iret_hook_needed line) ;;
  when (negb (hook_address =? 0))
    (let al := if 8 <=? line then line - 8 else line in
     modad adapter (fun a => SET_isr_depth (set1 (isr_depth a) al (isr_depth a al + 1)) a) ;;
     modad adapter (fun a =>
       let d := isr_depth a al in
       SET_isr_progress (set1 (isr_progress a) al (set1 (isr_progress a al) d (isr_progress a al (d - 1)))) a)) ;;
  ret (int_no, hook_address).

(** The interrupt number and the hook address, which a rejection leaves alone. *)
Definition ica_intack (hook_address : Z) : X (Z * Z) :=
  r <- ica_accept ICA_MASTER ;;
  match r with
  | None => ret (ICA_INTACK_REJECT, hook_address)
  | Some line =>
      let bit := bit8 line in
      ssr <- getad ICA_MASTER ica_ssr ;;
      if tst (ssr .& bit) then
        r <- ica_accept ICA_SLAVE ;;
        match r with
        | None =>
            modad ICA_MASTER (fun a => SET_ica_isr (ica_isr a .& not32 bit) a) ;;
            ret (ICA_INTACK_REJECT, hook_address)
        | Some line =>
            asp <- gets slave ;;
            match callback_fn asp line with
            | Some f => take_callback ICA_SLAVE line f ;; ret (ICA_INTACK_REJECT, hook_address)
            | None => intack_hook ICA_SLAVE (line + 8) (line + ica_base asp)
            end
        end
      else
        asp <- gets master ;;
        match callback_fn asp line with
        | Some f => take_callback ICA_MASTER line f ;; ret (ICA_INTACK_REJECT, hook_address)
        | None => intack_hook ICA_MASTER line (line + ica_base asp)
        end
  end.

(** ** Lowering a line *)

Fixpoint clear_int (fuel : nat) (adapter line_no : Z) : X unit :=
  match fuel with
  | O => undefined
  | S fuel =>
      if 8 <=? line_no then undefined else
      let bit := bit8 line_no in
      modad adapter (fun a => SET_ica_count (set1 (ica_count a) line_no (ica_count a line_no - 1)) a) ;;
      asp <- gets (adapter_of adapter) ;;
      when (ica_count asp line_no <=? 0)
        (let irr_check := ica_irr asp in
         modad adapter (fun a => SET_ica_irr (ica_irr a .& not32 bit) a) ;;
         modad adapter (fun a => SET_ica_count (set1 (ica_count a) line_no 0) a) ;;
         scan <- gets (ica_scan_irr adapter) ;;
         (if negb (ica_master asp) && (scan =? 7) then
            modad adapter (SET_ica_cpu_int false) ;;
            clear_int fuel ICA_MASTER (ica_ssr asp)
          else if ica_master asp && ica_cpu_int asp && (scan =? 7) then
            modad adapter (SET_ica_cpu_int false) ;;
            modify (SET_hw_int false)
          else ret tt) ;;
         when (tst (irr_check .& bit)) (modify (eoi_hook (line_no + adapter * 8) (-1))))
  end.

Definition SWPIC_clear_int : Z -> Z -> X unit := clear_int 2.

Definition ica_hw_interrupt_cancel (adapter line_no : Z) : X unit :=
  if 8 <=? line_no then undefined else
  modad adapter (fun a => SET_ica_count (set1 (ica_count a) line_no 0) a) ;;
  SWPIC_clear_int adapter line_no.

(** ** Action interrupts *)

(** [false] when a callback is outstanding already; on success the source falls off
    the end of the function and returns no value. *)
Definition action_interrupt (adapter line func parm : Z) : X (option bool) :=
  let line := line .& 7 in
  asp <- gets (adapter_of adapter) ;;
  match callback_fn asp line with
  | Some _ => ret (Some false)
  | None =>
      modad adapter (fun a =>
        let a := SET_callback_fn (set1 (callback_fn a) line (Some func)) a in
        let a := SET_callback_parm (set1 (callback_parm a) line parm) a in
        let a := SET_ica_irr (u8 (ica_irr a .| (1 .<< line))) a in
        let a := SET_ica_count (set1 (ica_count a) line (ica_count a line + 1)) a in
        SET_ica_isr (u8 (ica_isr a .| (1 .<< line))) a) ;;
      modify (SET_hw_int true) ;;
      ret None
  end.

Definition cancel_action_interrupt (adapter line : Z) : X unit :=
  if 8 <=? line then undefined else
  modad adapter (fun a =>
    let a := SET_ica_isr (u8 (ica_isr a .& not32 (1 .<< line))) a in
    let a := match callback_fn a line with
             | Some _ => SET_ica_count (set1 (ica_count a) line 0)
                           (SET_ica_irr (u8 (ica_irr a .& not32 (1 .<< line))) a)
             | None => a
             end in
    SET_callback_parm (set1 (callback_parm a) line 0)
      (SET_callback_fn (set1 (callback_fn a) line None) a)).

(** ** The ports *)

Definition ICA_PORT_0 (adapter : Z) : Z := if adapter =? ICA_MASTER then 0x20 else 0xa0.
Definition adapter_for_port (port : Z) : Z :=
  if (0x20 <=? port) && (port <=? 0x3f) then ICA_MASTER else ICA_SLAVE.
Definition sequence (adapter : Z) (s : ica) : Z :=
  if adapter =? ICA_MASTER then seq_master s else seq_slave s.
Definition set_sequence (adapter x : Z) (s : ica) : ica :=
  if adapter =? ICA_MASTER then SET_seq_master x s else SET_seq_slave x s.

Definition SWPIC_inb (port : Z) : X Z :=
  let adapter := adapter_for_port port in
  asp <- gets (adapter_of adapter) ;;
  if tst (ica_mode asp .& ICA_POLL) then
    modify (SET_ica_lock 1) ;;
    modad adapter (fun a => SET_ica_mode (ica_mode a .& not32 ICA_POLL) a) ;;
    value <- gets (ica_scan_irr adapter) ;;
    when (tst (value .& 0x80)) (_ <- ica_accept adapter ;; modify (SET_hw_int false)) ;;
    modify (SET_ica_lock 0) ;;
    ret value
  else
    ret (if port =? ICA_PORT_0 adapter then
           if tst (ica_mode asp .& ICA_RIS) then ica_isr asp else ica_irr asp
         else ica_imr asp).

Definition outb_ICW1 (adapter value : Z) : X unit :=
  modad adapter (fun a =>
    let a := SET_ica_irr 0 a in
    let a := SET_ica_isr 0 a in
    let a := SET_ica_imr 0 a in
    let a := SET_ica_ssr 0 a in
    let a := SET_ica_base 0 a in
    let a := SET_ica_hipri 0 a in
    let a := SET_ica_mode (value .& ICA_ICW1_MASK) a in
    let a := SET_ica_count (fun i => if (0 <=? i) && (i <? 8) then 0 else ica_count a i) a in
    SET_ica_cpu_int false a) ;;
  modify (set_sequence adapter 2).

Definition outb_OCW1 (adapter value : Z) : X unit :=
  modad adapter (SET_ica_imr (value .& 0xff)) ;;
  asp <- gets (adapter_of adapter) ;;
  when (ica_cpu_int asp && tst (ica_imr asp .& (1 .<< ica_int_line asp)))
    (modad adapter (SET_ica_cpu_int false) ;;
     if ica_master asp then modify (SET_hw_int false)
     else SWPIC_clear_int ICA_MASTER (ica_ssr asp)) ;;
  raised <- getad adapter ica_cpu_int ;;
  when (negb raised) (rescan adapter).

Definition outb_OCW2 (adapter value : Z) : X unit :=
  match (value .>> 5) .& 7 with
  | 0 => modad adapter (fun a => SET_ica_mode (ica_mode a .& not32 ICA_RAEOI) a)
  | 1 => ica_eoi adapter None false
  | 2 => ret tt
  | 3 => ica_eoi adapter (Some (value .& 7)) false
  | 4 => modad adapter (fun a => SET_ica_mode (ica_mode a .| ICA_RAEOI) a)
  | 5 => ica_eoi adapter None true
  | 6 => modad adapter (SET_ica_hipri ((value + 1) .& 7))
  | _ => ica_eoi adapter (Some (value .& 7)) true
  end.

Definition outb_OCW3 (adapter value : Z) : X unit :=
  modad adapter (fun a =>
    let a := if tst (value .& ICA_SMM_CMD)
             then SET_ica_mode ((ica_mode a .& not32 ICA_SMM) .| ((value .<< 4) .& ICA_SMM)) a else a in
    if tst (value .& ICA_POLL_CMD) then SET_ica_mode (ica_mode a .| ICA_POLL) a
    else if tst (value .& ICA_RR_CMD)
    then SET_ica_mode ((ica_mode a .& not32 ICA_RIS) .| ((value .<< 11) .& ICA_RIS)) a
    else a).

Definition SWPIC_outb (port value : Z) : X unit :=
  let adapter := adapter_for_port port in
  if negb (port .& 0xfffe =? ICA_PORT_0 adapter) then ret tt
  else if (port .& 1 =? 0) && tst (value .& 0x10) then outb_ICW1 adapter value
  else
    modify (SET_ica_lock 1) ;;
    seq <- gets (sequence adapter) ;;
    asp <- gets (adapter_of adapter) ;;
    let odd := tst (port .& 1) in
    (if seq =? 0 then
       if odd then outb_OCW1 adapter value
       else if value .& 8 =? 0 then outb_OCW2 adapter value
       else outb_OCW3 adapter value
     else if seq =? 2 then
       when odd
         (modad adapter (SET_ica_base (value .& ICA_BASE_MASK)) ;;
          modify (set_sequence adapter
            (if negb (tst (ica_mode asp .& ICA_SINGL)) then 3
             else if tst (ica_mode asp .& ICA_IC4) then 4 else 0)))
     else if seq =? 3 then
       when odd
         (modad adapter (SET_ica_ssr (value .& 0xff)) ;;
          modify (set_sequence adapter (if tst (ica_mode asp .& ICA_IC4) then 4 else 0)))
     else if seq =? 4 then
       when odd
         (modad adapter (SET_ica_mode ((ica_mode asp .& not32 ICA_ICW4_MASK) .| ((value .<< 4) .& ICA_ICW4_MASK)))) ;;
       modify (set_sequence adapter 0)
     else ret tt) ;;
    modify (SET_ica_lock 0).

Definition ica0_post : X unit :=
  SWPIC_outb 0x20 0x11 ;; SWPIC_outb 0x21 0x08 ;; SWPIC_outb 0x21 0x04 ;;
  SWPIC_outb 0x21 0x01 ;; SWPIC_outb 0x21 0xb8.

Definition ica1_post : X unit :=
  SWPIC_outb 0xa0 0x11 ;; SWPIC_outb 0xa1 0x70 ;; SWPIC_outb 0xa1 0x02 ;;
  SWPIC_outb 0xa1 0x01 ;; SWPIC_outb 0xa1 0x9d.

End Host.

(** ** Priorities *)

(** The priority of a line, 0 the highest: lines are ordered cyclically from
    [ica_hipri]. *)
Definition pri (hipri line : Z) : Z := (line - hipri) mod 8.

(** A line may interrupt when it is requested, not masked and not held back by an
    IRET hook or a host delay. *)
Definition requesting (adapter : Z) (s : ica) (line : Z) : Prop :=
  Z.testbit (ica_irr (adapter_of adapter s)) line = true
  /\ Z.testbit (ica_imr (adapter_of adapter s)) line = false
  /\ Z.testbit (iretHookActive s .| DelayIrqLine s) (adapter * 8 + line) = false.

(** Special mask mode and special fully nested mode ignore lines in service. *)
Definition special (adapter : Z) (s : ica) : bool :=
  tst (ica_mode (adapter_of adapter s) .& (ICA_SMM .| ICA_SFNM)).
Definition in_service (adapter : Z) (s : ica) (line : Z) : Prop :=
  special adapter s = false /\ Z.testbit (ica_isr (adapter_of adapter s)) line = true.

(** The line an 8259 lets through. *)
Definition wins (adapter : Z) (s : ica) (line : Z) : Prop :=
  let p := pri (ica_hipri (adapter_of adapter s)) in
  0 <= line < 8 /\ requesting adapter s line
  /\ (forall other, 0 <= other < 8 -> requesting adapter s other -> p line <= p other)
  /\ (forall other, 0 <= other < 8 -> in_service adapter s other -> p line < p other).

Lemma bit8_pow line : 0 <= line < 8 -> bit8 line = 2 ^ line.
Proof. intros. eight line; reflexivity. Qed.

Lemma tst_bit8 x line : 0 <= line < 8 -> tst (x .& bit8 line) = Z.testbit x line.
Proof. intros. rewrite bit8_pow by lia. apply tst_land_pow2. lia. Qed.

Lemma cyclic hipri i : u32 (hipri + i) .& 7 = (hipri + i) mod 8.
Proof.
  change 7 with (2 ^ 3 - 1). rewrite land_mask by lia. unfold u32.
  change 8 with (2 ^ 3). apply mod_mod_le. lia.
Qed.

Lemma pri_range hipri line : 0 <= pri hipri line < 8.
Proof. apply Z.mod_pos_bound. lia. Qed.

Lemma pri_line hipri line : 0 <= line < 8 -> (hipri + pri hipri line) mod 8 = line.
Proof.
  intros. unfold pri. rewrite Zplus_mod_idemp_r. replace (hipri + (line - hipri)) with line by lia.
  apply Z.mod_small. lia.
Qed.

Lemma pri_of_index hipri i : 0 <= i < 8 -> pri hipri ((hipri + i) mod 8) = i.
Proof.
  intros. unfold pri. rewrite Zminus_mod_idemp_l. replace (hipri + i - hipri) with i by lia.
  apply Z.mod_small. lia.
Qed.

(** From index [i] the loop returns the line at the first index whose line requests,
    unless a line in service comes first. *)
Lemma scan_lines_found hipri isr req k n : forall i,
  0 <= i <= k -> k < i + Z.of_nat n ->
  let line j := (hipri + j) mod 8 in
  Z.testbit req (line k) = true ->
  (forall j, i <= j < k -> Z.testbit req (line j) = false) ->
  (forall j, i <= j <= k -> Z.testbit isr (line j) = false) ->
  scan_lines n i hipri isr req = 0x80 + line k.
Proof.
  induction n as [|n IH]; intros i Hi Hk line R NR NS; [lia|]. simpl.
  assert (B : forall j, 0 <= line j < 8) by (intros; apply Z.mod_pos_bound; lia).
  rewrite cyclic. fold (line i). rewrite !tst_bit8 by auto. rewrite NS by lia.
  destruct (Z.eq_dec i k) as [-> | N]; [now rewrite R|].
  rewrite NR by lia. apply IH; try lia; auto; intros; [apply NR | apply NS]; lia.
Qed.

Lemma scan_lines_blocked hipri isr req n : forall i,
  0 <= i ->
  let line j := (hipri + j) mod 8 in
  (forall j, i <= j < i + Z.of_nat n -> Z.testbit req (line j) = true ->
     exists m, i <= m <= j /\ Z.testbit isr (line m) = true) ->
  scan_lines n i hipri isr req = 7.
Proof.
  induction n as [|n IH]; intros i Hi line F; [reflexivity|]. simpl.
  assert (B : forall j, 0 <= line j < 8) by (intros; apply Z.mod_pos_bound; lia).
  rewrite cyclic. fold (line i). rewrite !tst_bit8 by auto.
  destruct (Z.testbit isr (line i)) eqn:Ei; [reflexivity|].
  destruct (Z.testbit req (line i)) eqn:Er.
  { destruct (F i ltac:(lia) Er) as (m & ? & Em). replace m with i in Em by lia. congruence. }
  apply IH; [lia|]. intros j Hj R. destruct (F j ltac:(lia) R) as (m & ? & Em).
  exists m. split; [|exact Em]. destruct (Z.eq_dec m i) as [-> |]; [congruence | lia].
Qed.

(** The two bytes the scan works on. *)
Definition requests (adapter : Z) (s : ica) : Z :=
  u8 (ica_irr (adapter_of adapter s)
      .& not32 (ica_imr (adapter_of adapter s)
                .| u8 ((iretHookActive s .| DelayIrqLine s) .>> (adapter * 8)))).
Definition blockers (adapter : Z) (s : ica) : Z :=
  if special adapter s then 0 else ica_isr (adapter_of adapter s).

Lemma requests_bit adapter s line :
  0 <= adapter -> 0 <= line < 8 ->
  Z.testbit (requests adapter s) line = true <-> requesting adapter s line.
Proof.
  intros. unfold requests, requesting, u8, not32, u32.
  rewrite Z.mod_pow2_bits_low, Z.land_spec, Z.mod_pow2_bits_low, Z.lnot_spec by lia.
  rewrite Z.lor_spec, Z.mod_pow2_bits_low, Z.shiftr_spec by lia.
  rewrite (Z.add_comm line (adapter * 8)). btest; simpl; intuition congruence.
Qed.

Lemma blockers_bit adapter s line :
  Z.testbit (blockers adapter s) line = true <-> in_service adapter s line.
Proof.
  unfold blockers, in_service. destruct (special adapter s); [rewrite Z.bits_0|]; intuition congruence.
Qed.

Lemma scan_unfold adapter s :
  ica_scan_irr adapter s
  = scan_lines 8 0 (ica_hipri (adapter_of adapter s)) (blockers adapter s) (requests adapter s).
Proof.
  unfold ica_scan_irr. fold (special adapter s). fold (blockers adapter s). fold (requests adapter s).
  destruct (Z.eqb_spec (requests adapter s) 0) as [-> |]; [|reflexivity].
  symmetry. apply scan_lines_blocked; [lia|]. intros j _. now rewrite Z.bits_0.
Qed.

(** The winner is the line the scan returns. *)
Lemma wins_scan adapter s line :
  0 <= adapter -> wins adapter s line -> ica_scan_irr adapter s = 0x80 + line.
Proof.
  intros A (L & R & Best & Free). rewrite scan_unfold.
  set (h := ica_hipri _) in *.
  assert (B : forall j, 0 <= (h + j) mod 8 < 8) by (intros; apply Z.mod_pos_bound; lia).
  pose proof (pri_range h line). rewrite <- (pri_line h line) at 1 by exact L.
  apply scan_lines_found; try lia.
  - rewrite pri_line by exact L. now apply requests_bit.
  - intros j J. apply not_true_is_false. rewrite requests_bit by auto. intros R'.
    apply Best in R'; [|auto]. rewrite pri_of_index in R'; lia.
  - intros j J. apply not_true_is_false. rewrite blockers_bit. intros S'.
    apply Free in S'; [|auto]. rewrite pri_of_index in S'; lia.
Qed.

(** The first index of a range with a property. *)
Lemma first_index (f : Z -> bool) n :
  (exists k, 0 <= k < Z.of_nat n /\ f k = true /\ forall j, 0 <= j < k -> f j = false)
  \/ forall k, 0 <= k < Z.of_nat n -> f k = false.
Proof.
  induction n as [|n [(k & ? & ? & ?) | N]]; [right; lia | left; exists k; repeat split; auto; lia |].
  destruct (f (Z.of_nat n)) eqn:E.
  - left. exists (Z.of_nat n). repeat split; auto; lia.
  - right. intros k K. destruct (Z.eq_dec k (Z.of_nat n)) as [-> |]; [exact E | apply N; lia].
Qed.

(** Either a line wins or the scan returns 7. *)
Lemma scan_cases adapter s :
  0 <= adapter -> (exists line, wins adapter s line) \/ ica_scan_irr adapter s = 7.
Proof.
  intros A. rewrite scan_unfold. unfold wins. set (h := ica_hipri _).
  set (line j := (h + j) mod 8).
  assert (B : forall j, 0 <= line j < 8) by (intros; apply Z.mod_pos_bound; lia).
  destruct (first_index (fun j => Z.testbit (requests adapter s) (line j)) 8) as [(k & K & R & F) | N].
  2: { right. apply scan_lines_blocked; [lia|]. intros j J T.
       pose proof (eq_trans (eq_sym T) (N j J)). discriminate. }
  destruct (first_index (fun j => Z.testbit (blockers adapter s) (line j)) (Z.to_nat (k + 1)))
    as [(m & M & S & _) | N].
  - right. apply scan_lines_blocked; [lia|]. intros j J T.
    exists m. split; [|exact S]. destruct (Z.le_gt_cases k j); [lia|].
    pose proof (eq_trans (eq_sym T) (F j ltac:(lia))). discriminate.
  - left. exists (line k). replace (pri h (line k)) with k by (symmetry; now apply pri_of_index).
    split; [apply B|]. split; [now apply requests_bit|].
    split; intros o O P.
    + pose proof (pri_range h o). apply Z.nlt_ge. intros L.
      apply requests_bit in P; auto. rewrite <- (pri_line h o) in P by lia.
      change (Z.testbit (requests adapter s) (line (pri h o)) = true) in P.
      rewrite F in P by lia. discriminate.
    + pose proof (pri_range h o). apply Z.nle_gt. intros L.
      apply blockers_bit in P; auto. rewrite <- (pri_line h o) in P by lia.
      change (Z.testbit (blockers adapter s) (line (pri h o)) = true) in P.
      rewrite N in P by lia. discriminate.
Qed.

(** ** What the controllers keep while they signal the CPU *)

(** The fields that interrupting the CPU leaves alone; the depth of hooked interrupts
    may only fall. *)
Definition service (a : ADAPTER_STATE) : Z * Z * bool * Z * Z :=
  (ica_isr a, ica_hipri a, ica_master a, ica_ssr a, ica_mode a).
Definition calm (a a' : ADAPTER_STATE) : Prop :=
  service a' = service a /\ forall i, isr_depth a' i <= isr_depth a i.
Definition quiet (s s' : ica) : Prop :=
  calm (master s) (master s') /\ calm (slave s) (slave s').

(** The first adapter is the master, the slave's identity is one of its lines, and that
    line's hooks are not nested to the limit. *)
Definition cascade (s : ica) : Prop :=
  ica_master (master s) = true /\ 0 <= ica_ssr (slave s) < 8
  /\ forall i, isr_depth (master s) i < MAX_ISR_DEPTH.

(** A computation that returns and is quiet. *)
Definition quietly {A} (m : X A) : Prop :=
  forall s, cascade s -> exists a s', m s = Ret a s' /\ quiet s s'.

Lemma calm_trans a b c : calm a b -> calm b c -> calm a c.
Proof. intros [? H] [? K]. split; [congruence|]. intros i. specialize (H i). specialize (K i). lia. Qed.

Lemma calm_same a b : service b = service a -> isr_depth b = isr_depth a -> calm a b.
Proof. intros S E. split; [exact S | rewrite E; lia]. Qed.

Lemma quiet_refl s : quiet s s.
Proof. split; now apply calm_same. Qed.

Lemma quiet_trans s1 s2 s3 : quiet s1 s2 -> quiet s2 s3 -> quiet s1 s3.
Proof. intros [A B] [C D]. split; eapply calm_trans; eauto. Qed.

Lemma quiet_cascade s s' : quiet s s' -> cascade s -> cascade s'.
Proof.
  unfold quiet, calm, service, cascade. intros [[A I] [B _]] (C & D & E).
  injection A as ? ? ? ? ?. injection B as ? ? ? ? ?.
  repeat split; try congruence || lia. intros i. specialize (I i). specialize (E i). lia.
Qed.

Lemma quiet_adapter s s' adapter :
  quiet s s' -> service (adapter_of adapter s') = service (adapter_of adapter s).
Proof. intros [[A _] [B _]]. unfold adapter_of. now destruct (adapter =? ICA_MASTER). Qed.

Lemma quietly_bind {A B} (m : X A) (k : A -> X B) :
  quietly m -> (forall a, quietly (k a)) -> quietly (bind m k).
Proof.
  intros Hm Hk s C. destruct (Hm s C) as (a & s1 & E & Q1).
  destruct (Hk a s1 (quiet_cascade _ _ Q1 C)) as (b & s2 & E2 & Q2).
  exists b, s2. rewrite (bind_ret _ _ _ _ _ E). split; [exact E2 | exact (quiet_trans _ _ _ Q1 Q2)].
Qed.

Lemma quietly_ret {A} (a : A) : quietly (ret a).
Proof. intros s _. exists a, s. split; [reflexivity | apply quiet_refl]. Qed.

Lemma quietly_gets {A} (f : ica -> A) : quietly (gets f).
Proof. intros s _. exists (f s), s. split; [reflexivity | apply quiet_refl]. Qed.

Lemma quietly_when b (m : X unit) : quietly m -> quietly (when b m).
Proof. destruct b; [auto | intros; apply quietly_ret]. Qed.

Lemma quietly_if {A} (b : bool) (m n : X A) : quietly m -> quietly n -> quietly (if b then m else n).
Proof. now destruct b. Qed.

Lemma quietly_modify (f : ica -> ica) : (forall s, quiet s (f s)) -> quietly (modify f).
Proof. intros Q s _. exists tt, (f s). split; [reflexivity | apply Q]. Qed.

Lemma quietly_modad adapter f : (forall a, calm a (f a)) -> quietly (modad adapter f).
Proof.
  intros Q. apply quietly_modify. intros s. unfold mod_adapter.
  destruct (adapter =? ICA_MASTER); split; cbn; auto; now apply calm_same.
Qed.

(** Walk through a computation that is quiet step by step. *)
Ltac quiet_step :=
  lazymatch goal with
  | |- quietly (bind _ _) => apply quietly_bind; [|intro]
  | |- quietly (when _ _) => apply quietly_when
  | |- quietly (if _ then _ else _) => apply quietly_if
  | |- quietly (ret _) => apply quietly_ret
  | |- quietly (gets _) => apply quietly_gets
  | |- quietly (getad _ _) => apply quietly_gets
  | |- quietly (modad _ _) => apply quietly_modad; intros ?; cbv beta; try destruct (tst _); now apply calm_same
  | |- quietly (modify _) => apply quietly_modify; intros ?; split; now apply calm_same
  end.
Ltac quiet_steps := repeat quiet_step; auto.

Lemma quietly_bind_gets {A B} (f : ica -> A) (k : A -> X B) :
  (forall s, cascade s -> quietly (k (f s))) -> quietly (bind (gets f) k).
Proof. intros Q s C. exact (Q s C s C). Qed.

(** Raising a line of the master. *)
Lemma quiet_raise (f : Z -> Z -> X unit) line n :
  (forall l, quietly (f ICA_MASTER l)) -> line .& 0xff < 8 ->
  quietly (hw_interrupt_with f ICA_MASTER line n).
Proof.
  intros Q L. unfold hw_interrupt_with. destruct (Z.leb_spec 8 (line .& 0xff)); [lia|].
  do 4 (quiet_step; [quiet_steps|]). quiet_step; [quiet_steps|]. apply quietly_bind_gets. intros s (_ & _ & D). cbn in D.
  specialize (D (line .& 0xff)). change (adapter_of ICA_MASTER s) with (master s).
  destruct (Z.leb_spec MAX_ISR_DEPTH (isr_depth (master s) (line .& 0xff))); [lia|].
  quiet_steps. apply quietly_modad. intros b. split; [reflexivity|]. intros i. cbn. unfold set1.
  destruct (Z.eqb_spec i (line .& 0xff)) as [-> |]; lia.
Qed.

Lemma quiet_master fuel line s :
  cascade s -> exists s', ica_interrupt_cpu (S fuel) ICA_MASTER line s = Ret tt s' /\ quiet s s'.
Proof.
  intros [M _]. simpl. unfold bind, gets, modad, modify, mod_adapter, adapter_of. simpl.
  destruct (ica_cpu_int (master s)); [|rewrite M]; eexists;
    (split; [reflexivity | split; now apply calm_same]).
Qed.

(** Interrupting the CPU returns, whichever adapter does it. *)
Lemma quiet_interrupt adapter line :
  0 <= adapter < 2 -> quietly (interrupt_cpu adapter line).
Proof.
  intros A. assert (adapter = ICA_MASTER \/ adapter = ICA_SLAVE) as [-> | ->]
    by (unfold ICA_MASTER, ICA_SLAVE; lia).
  { intros s C. destruct (quiet_master 1 line s C) as (s' & E & Q). now exists tt, s'. }
  intros s C. unfold interrupt_cpu. cbn [ica_interrupt_cpu]. fold (ica_interrupt_cpu 1).
  rewrite (bind_ret (gets (adapter_of ICA_SLAVE)) _ s (slave s) s eq_refl).
  rename s into s0. pose proof C as (_ & S & _).
  match goal with |- exists a s', ?m s0 = _ /\ _ => cut (quietly m); [intros Q; now apply Q|] end.
  quiet_steps. apply quiet_raise; [intros l s C1; destruct (quiet_master 0 l s C1) as (s' & ? & ?); now exists tt, s'|].
  change 0xff with (2 ^ 8 - 1). rewrite land_mask, Z.mod_small; lia.
Qed.

Lemma quiet_rescan adapter : 0 <= adapter < 2 -> quietly (rescan adapter).
Proof. intros. unfold rescan. quiet_steps. now apply quiet_interrupt. Qed.

(** ** Accepting a line and ending its interrupt *)

Lemma isr_line_found hipri isr k n : forall i,
  0 <= i <= k -> k < i + Z.of_nat n ->
  let line j := (hipri + j) mod 8 in
  Z.testbit isr (line k) = true ->
  (forall j, i <= j < k -> Z.testbit isr (line j) = false) ->
  isr_line n i hipri isr = Some (line k).
Proof.
  induction n as [|n IH]; intros i Hi Hk line R NR; [lia|]. simpl.
  assert (B : forall j, 0 <= line j < 8) by (intros; apply Z.mod_pos_bound; lia).
  rewrite cyclic. fold (line i). rewrite !tst_bit8 by auto.
  destruct (Z.eq_dec i k) as [-> | N]; [now rewrite R|].
  rewrite NR by lia. apply IH; try lia; auto; intros; apply NR; lia.
Qed.

(** A line that comes before every line in service is the one a non-specific end of
    interrupt finds. *)
Lemma isr_line_first hipri isr line :
  0 <= line < 8 ->
  (forall other, 0 <= other < 8 -> Z.testbit isr other = true -> pri hipri line < pri hipri other) ->
  isr_line 8 0 hipri (isr .| bit8 line) = Some line.
Proof.
  intros L F. pose proof (pri_range hipri line).
  assert (B : forall j, 0 <= (hipri + j) mod 8 < 8) by (intros; apply Z.mod_pos_bound; lia).
  rewrite bit8_pow by lia. rewrite <- (pri_line hipri line) at 2 by exact L.
  apply isr_line_found; try lia; rewrite ?pri_line by exact L.
  - rewrite Z.lor_spec, Z.pow2_bits_true by lia. apply orb_true_r.
  - intros j J. rewrite Z.lor_spec. apply orb_false_intro.
    + apply not_true_is_false. intros T. apply F in T; [|auto]. rewrite pri_of_index in T; lia.
    + apply Z.pow2_bits_false. intros E. rewrite E, pri_of_index in *; lia.
Qed.

Lemma set_clear isr line :
  0 <= line < 8 -> 0 <= isr < 256 -> Z.testbit isr line = false ->
  (isr .| bit8 line) .& not32 (bit8 line) = isr.
Proof.
  intros L I T. rewrite bit8_pow by lia. unfold not32, u32.
  apply Z.bits_inj'. intros n N. rewrite Z.land_spec, Z.lor_spec, Z.pow2_bits_eqb by lia.
  destruct (Z.ltb_spec n 32).
  - rewrite Z.mod_pow2_bits_low, Z.lnot_spec, Z.pow2_bits_eqb by lia.
    destruct (Z.eqb_spec line n) as [-> |]; [rewrite T; reflexivity|]. now destruct (Z.testbit isr n).
  - rewrite Z.mod_pow2_bits_high, andb_false_r by lia. symmetry.
    apply (range_bits isr 8); lia.
Qed.

Section Cycle.
Context (eoi_hook : Z -> Z -> ica -> ica).

Lemma adapter_mod adapter f s : adapter_of adapter (mod_adapter adapter f s) = f (adapter_of adapter s).
Proof. unfold adapter_of, mod_adapter. now destruct (adapter =? ICA_MASTER). Qed.

Lemma mod_cascade adapter f s :
  (forall a, ica_master (f a) = ica_master a /\ ica_ssr (f a) = ica_ssr a /\ isr_depth (f a) = isr_depth a) ->
  cascade s -> cascade (mod_adapter adapter f s).
Proof.
  intros F (M & C & D). unfold mod_adapter, cascade.
  destruct (adapter =? ICA_MASTER); cbn; [destruct (F (master s)) as (-> & _ & ->) | destruct (F (slave s)) as (_ & -> & _)];
    auto.
Qed.

Lemma modad_run adapter f s : modad adapter f s = Ret tt (mod_adapter adapter f s).
Proof. reflexivity. Qed.

Lemma accept_cpu_int adapter b s :
  ica_scan_irr adapter (mod_adapter adapter (SET_ica_cpu_int b) s) = ica_scan_irr adapter s.
Proof. unfold ica_scan_irr. rewrite adapter_mod. unfold mod_adapter. now destruct (adapter =? ICA_MASTER). Qed.

(** What accepting a line does to its adapter. *)
Definition taken (line : Z) (a : ADAPTER_STATE) : ADAPTER_STATE :=
  let a := SET_ica_isr (ica_isr a .| bit8 line) (SET_ica_cpu_int false a) in
  let a := SET_ica_count (set1 (ica_count a) line (ica_count a line - 1)) a in
  if ica_count a line <=? 0
  then SET_ica_count (set1 (ica_count a) line 0) (SET_ica_irr (ica_irr a .& not32 (bit8 line)) a)
  else a.

Lemma mod_mod adapter f g s :
  mod_adapter adapter f (mod_adapter adapter g s) = mod_adapter adapter (fun a => f (g a)) s.
Proof. unfold mod_adapter. now destruct (adapter =? ICA_MASTER). Qed.

Lemma accept_runs adapter line s :
  0 <= adapter < 2 -> wins adapter s line ->
  isr_depth (adapter_of adapter s) line < MAX_ISR_DEPTH ->
  ica_mode (adapter_of adapter s) .& ICA_AEOI = 0 ->
  ica_accept eoi_hook adapter s = Ret (Some line) (mod_adapter adapter (taken line) s).
Proof.
  intros A W D N. pose proof W as (L & _). apply wins_scan in W; [|lia].
  unfold ica_accept. rewrite (bind_ret _ _ _ _ _ (modad_run _ _ _)).
  unfold bind at 1, gets at 1. rewrite accept_cpu_int, W.
  replace (tst ((128 + line) .& 128)) with true by (eight line; reflexivity).
  replace ((128 + line) .& 7) with line by (eight line; reflexivity). cbn [negb].
  unfold bind at 1, gets at 1. rewrite adapter_mod. cbn [isr_depth SET_ica_cpu_int].
  destruct (Z.leb_spec MAX_ISR_DEPTH (isr_depth (adapter_of adapter s) line)); [lia|].
  do 3 rewrite (bind_ret _ _ _ _ _ (modad_run _ _ _)). rewrite !mod_mod.
  match goal with |- context [mod_adapter adapter ?f s] =>
    change (mod_adapter adapter f s) with (mod_adapter adapter (taken line) s) end.
  unfold bind, getad, gets. rewrite adapter_mod.
  replace (ica_mode (taken line (adapter_of adapter s))) with (ica_mode (adapter_of adapter s))
    by (unfold taken; cbn; now destruct (_ <=? 0)).
  rewrite N. reflexivity.
Qed.

Lemma taken_service line a :
  service (taken line a) = (ica_isr a .| bit8 line, ica_hipri a, ica_master a, ica_ssr a, ica_mode a).
Proof. unfold taken, service; cbn. now destruct (_ <=? 0). Qed.

Lemma taken_depth line a : isr_depth (taken line a) = isr_depth a.
Proof. unfold taken; cbn. now destruct (_ <=? 0). Qed.

(** The effect of a non-specific end of interrupt on the line found. *)
Lemma eoi_runs adapter line rotate s :
  0 <= adapter < 2 -> cascade s ->
  (forall n c s, quiet s (eoi_hook n c s)) ->
  let a := adapter_of adapter s in
  isr_line 8 0 (ica_hipri a) (ica_isr a) = Some line ->
  exists s', ica_eoi eoi_hook adapter None rotate s = Ret tt s'
  /\ ica_isr (adapter_of adapter s') = ica_isr a .& not32 (bit8 line)
  /\ ica_hipri (adapter_of adapter s') = (if rotate then (line + 1) mod 8 else ica_hipri a).
Proof.
  intros A C Q a F. unfold ica_eoi.
  unfold bind at 1, gets at 1. fold a. rewrite F.
  set (g := fun a => let a := SET_ica_isr (ica_isr a .& not32 (bit8 line)) a in
                     if rotate then SET_ica_hipri (u16 ((line + 1) .& 7)) a else a).
  rewrite (bind_ret _ _ _ _ _ (modad_run _ _ _)).
  rewrite (bind_ret _ _ _ tt (mod_adapter adapter g s))
    by (unfold g; destruct rotate; [unfold when; now rewrite modad_run, mod_mod | reflexivity]).
  match goal with |- exists s', ?m _ = _ /\ _ => assert (K : quietly m) end.
  { quiet_steps; [apply quietly_modify; auto | now apply quiet_rescan]. }
  destruct (K (mod_adapter adapter g s)) as ([] & s' & E & K').
  { apply mod_cascade; [intros b; unfold g; destruct rotate; auto | exact C]. }
  exists s'. apply (quiet_adapter _ _ adapter) in K'. rewrite adapter_mod in K'.
  fold a in K'. unfold service in K'. injection K' as I H _ _ _.
  rewrite I, H. unfold g. split; [exact E|]. destruct rotate; cbn; split; auto.
  change 7 with (2 ^ 3 - 1). rewrite land_mask by lia. apply u16_small.
  pose proof (Z.mod_pos_bound (line + 1) 8). lia.
Qed.

End Cycle.

(** ** Power-on and delivery *)

(** The value a computation returns, and the state it ends in. *)
Definition value {A} (o : outcome Empty_set ica A) : option A :=
  match o with Ret a _ => Some a | _ => None end.
Definition final {A} (o : outcome Empty_set ica A) : option ica :=
  match o with Ret _ s => Some s | _ => None end.

(** The controllers as their initial values, [ica0_init] and [ica1_init] leave them: no
    callback, no hooked interrupt and no delayed line.  Every register may hold
    anything. *)
Definition powered (s : ica) : Prop :=
  ica_master (master s) = true /\ ica_master (slave s) = false
  /\ iretHookMask s = 0 /\ iretHookActive s = 0 /\ DelayIrqLine s = 0
  /\ forall adapter, callback_fn (adapter_of adapter s) = (fun _ => None)
       /\ isr_depth (adapter_of adapter s) = (fun _ => 0).

Section Post.
Context (eoi_hook : Z -> Z -> ica -> ica).
Context (run_callback : Z -> Z -> ica -> ica).

(** Initialise both controllers, raise a line and acknowledge. *)
Definition post : X unit := ica0_post eoi_hook ;; ica1_post eoi_hook.
Definition post_raise (adapter line : Z) : X unit := post ;; SWPIC_hw_interrupt adapter line 1.
Definition post_intack (adapter line : Z) : X (Z * Z) :=
  post_raise adapter line ;; ica_intack eoi_hook run_callback 0.

End Post.

Lemma mode_bits adapter s :
  ica_mode (adapter_of adapter s) .& (ICA_AEOI .| ICA_SMM .| ICA_SFNM) = 0 ->
  Z.testbit (ica_mode (adapter_of adapter s)) 5 = false /\ special adapter s = false.
Proof.
  unfold special, tst. intros N.
  assert (B : forall k, Z.testbit (ICA_AEOI .| ICA_SMM .| ICA_SFNM) k = true ->
              Z.testbit (ica_mode (adapter_of adapter s)) k = false).
  { intros k K. apply (f_equal (fun z => Z.testbit z k)) in N.
    rewrite Z.land_spec, K, Z.bits_0, andb_true_r in N. exact N. }
  split; [now apply B|]. apply negb_false_iff, Z.eqb_eq, Z.bits_inj'. intros k K.
  rewrite Z.land_spec, Z.bits_0.
  destruct (Z.testbit (ICA_SMM .| ICA_SFNM) k) eqn:T; [|apply andb_false_r].
  rewrite B; [reflexivity|]. rewrite <- Z.lor_assoc, Z.lor_spec, T. apply orb_true_r.
Qed.

(** The scan of the request register: [ica_scan_irr] returns 0x80 plus a line
    exactly when that line wins, that is when it is requested, not masked and not held
    back, comes first from [ica_hipri] among such lines, and before every line in
    service (which special mask and special fully nested mode ignore); at most one line
    wins, and the result is 7 when none does. *)
Theorem scan_irr_wins adapter s :
  0 <= adapter < 2 ->
  (exists line, ica_scan_irr adapter s = 0x80 + line /\ forall other, wins adapter s other <-> other = line)
  \/ (ica_scan_irr adapter s = 7 /\ forall line, ~ wins adapter s line).
Proof.
  intros A. destruct (scan_cases adapter s) as [[line W] | E]; [lia| |].
  - left. exists line. pose proof (wins_scan adapter s line ltac:(lia) W).
    split; [assumption|]. intros other. split; [|now intros ->].
    intros W'. apply wins_scan in W'; lia.
  - right. split; [exact E|]. intros line W. pose proof W as (L & _). apply wins_scan in W; lia.
Qed.


(** C17 - Initialisation and delivery: from any register contents, [ica0_post] and
    [ica1_post] program the two controllers so that raising any line but the cascade
    line 2 requests the CPU exactly when the line is not in the initial masks 0xb8 and
    0x9d, through the master for a slave line; the acknowledge cycle then returns
    vector 0x08 + line or 0x70 + line, and rejects when the line is masked. *)
Theorem post_delivers eoi_hook run_callback s adapter line :
  powered s -> 0 <= adapter < 2 -> 0 <= line < 8 -> (adapter, line) <> (ICA_MASTER, 2) ->
  let mask := if adapter =? ICA_MASTER then 0xb8 else 0x9d in
  let base := if adapter =? ICA_MASTER then 0x08 else 0x70 in
  option_map hw_int (final (post_raise eoi_hook adapter line s))
    = Some (negb (Z.testbit mask line) || hw_int s)
  /\ value (post_intack eoi_hook run_callback adapter line s)
    = Some (if Z.testbit mask line then ICA_INTACK_REJECT else base + line, 0).
Proof.
  intros (M & S & K & H & D & L) A I N.
  destruct (L 0) as [Cm Dm], (L 1) as [Cs Ds]. clear L. destruct s as [[] []]. cbn in *. subst.
  assert (adapter = 0 \/ adapter = 1) as [-> | ->] by lia; eight line;
    try (now destruct N); split; vm_compute; reflexivity.
Qed.

(** ** Concrete controllers *)

Definition adapter0 (m : bool) : ADAPTER_STATE :=
  mkADAPTER m 0 0 0 (if m then 4 else 2) 0 0 0 (fun _ => 0) 0 false
            (fun _ => 0) (fun _ => None) (fun _ => 0) (fun _ _ => 0) (fun _ _ => 0).

(** Nothing pending; [pending] has lines 1 and 3 of the master requested and line 4 in
    service. *)
Definition idle : ica := mkIca (adapter0 true) (adapter0 false) 0 0 0 0 false (-1) (-1).
Definition pending : ica :=
  mod_adapter ICA_MASTER (fun a => SET_ica_isr 0x10 (SET_ica_irr 0x0a a)) idle.

Definition no_hook (n c : Z) (s : ica) : ica := s.

Lemma pending_scan : ica_scan_irr ICA_MASTER pending = 0x80 + 1.
Proof. reflexivity. Qed.

Lemma pending_wins : wins ICA_MASTER pending 1.
Proof.
  destruct (scan_cases ICA_MASTER pending) as [[line W] | E]; [unfold ICA_MASTER; lia | | discriminate].
  pose proof (wins_scan ICA_MASTER pending line ltac:(unfold ICA_MASTER; lia) W) as E.
  rewrite pending_scan in E. now replace line with 1 in W by lia.
Qed.

Lemma adapter_hw_int adapter b s : adapter_of adapter (SET_hw_int b s) = adapter_of adapter s.
Proof. reflexivity. Qed.

(** An action interrupt sets its own in-service bit, so that in fully nested mode the
    scan does not return its line while that bit is set. *)
Lemma action_interrupt_held adapter line func parm s r s' :
  0 <= adapter < 2 -> special adapter s = false ->
  callback_fn (adapter_of adapter s) (line .& 7) = None ->
  action_interrupt adapter line func parm s = Ret r s' ->
  ica_scan_irr adapter s' <> 0x80 + (line .& 7).
Proof.
  intros A N C E. unfold action_interrupt, bind, gets in E. rewrite C in E.
  rewrite modad_run in E. unfold modify, ret in E. injection E as <- <-.
  set (l := line .& 7) in *.
  assert (L : 0 <= l < 8).
  { unfold l. change 7 with (2 ^ 3 - 1). rewrite land_mask by lia. now apply Z.mod_pos_bound. }
  set (f := fun a => _). intros E.
  destruct (scan_cases adapter (SET_hw_int true (mod_adapter adapter f s))) as [[w W] | E'];
    [lia | | rewrite E' in E; lia].
  pose proof (wins_scan _ _ _ (proj1 A) W). replace w with l in W by lia.
  destruct W as (_ & _ & _ & Free). rewrite adapter_hw_int in Free.
  eapply Z.lt_irrefl, (Free l L). unfold in_service, special. rewrite adapter_hw_int, adapter_mod. split.
  - exact N.
  - cbn.
    unfold u8. rewrite Z.mod_pow2_bits_low, Z.lor_spec by lia.
    unfold u32. rewrite Z.mod_pow2_bits_low, Z.shiftl_spec by lia.
    now rewrite Z.sub_diag, orb_true_r.
Qed.

(** Called with the lock free, a slave's interrupt request wraps the lock and stops at
    the master's request register: the CPU is not told. *)
Lemma unlocked_slave_request :
  exists s', interrupt_cpu ICA_SLAVE 1 (mod_adapter ICA_SLAVE (SET_ica_irr 2) idle) = Ret tt s'
  /\ ica_irr (master s') = 4 /\ hw_int s' = false.
Proof. eexists. split; [vm_compute; reflexivity | split; reflexivity]. Qed.

Lemma scan_irr_wins_witness :
  exists line, ica_scan_irr ICA_MASTER pending = 0x80 + line
               /\ forall other, wins ICA_MASTER pending other <-> other = line.
Proof.
  assert (A : 0 <= ICA_MASTER < 2) by (unfold ICA_MASTER; lia).
  destruct (scan_irr_wins ICA_MASTER pending A) as [W | [E _]]; [exact W | discriminate].
Defined.


Lemma post_delivers_witness :
  value (post_intack no_hook no_hook ICA_SLAVE 6 idle) = Some (0x76, 0)
  /\ value (post_intack no_hook no_hook ICA_MASTER 3 idle) = Some (ICA_INTACK_REJECT, 0).
Proof.
  assert (P : powered idle).
  { repeat split; intros; unfold adapter_of; destruct (_ =? _); reflexivity. }
  split.
  - apply (post_delivers no_hook no_hook idle ICA_SLAVE 6 P); cbn; unfold ICA_SLAVE, ICA_MASTER; (lia || congruence).
  - apply (post_delivers no_hook no_hook idle ICA_MASTER 3 P); cbn; unfold ICA_SLAVE, ICA_MASTER; (lia || congruence).
Defined.

End Ica.
