(* ===== verification/Dma.v ===== *)
(** * The DMA controllers

    [base/system/at_dma.c] and [base/inc/dma.h]: two 8237 controllers of four channels and
    the page registers, their ports, the transfer a device asks for and the snapshot.
    A transfer moves bytes between system memory ([Mem]) and a buffer of the device in
    the memory of the host.  The sound card corrects the position of its channel when
    the guest looks at it; that call is the class [Sound]. *)

From Stdlib Require Import ZifyBool.
From stdpp Require Import relations.
From S2P Require Import Prelude Cpu Arith Shift Xcptn MulDiv Mem Ios.
From S2P Require Import Debug Tlb Page Basic Seg Virt Addr Stack Xfer Intr Wp.

Module Dma.
Import Xcptn.

(** ** The state *)

(** [DMA_CNTRL] of [dma.h].  A [DMA_WORD] is a list of two bytes, low byte first; an array
    over the channels is a list of four. *)
Record DMA_CNTRL := mkDMA_CNTRL {
  base_address : list (list Z);
  base_count : list (list Z);
  current_address : list (list Z);
  current_count : list (list Z);
  temporary_address : list (list Z);
  temporary_count : list (list Z);
  status : Z;
  command : Z;
  temporary : Z;
  mode : list Z;
  mask : Z;
  request : Z;
  first_last : Z
}.

Definition SET_base_address (x : list (list Z)) (r : DMA_CNTRL) : DMA_CNTRL :=
  mkDMA_CNTRL x (base_count r) (current_address r) (current_count r) (temporary_address r) (temporary_count r) (status r) (command r) (temporary r) (mode r) (mask r) (request r) (first_last r).
Definition SET_base_count (x : list (list Z)) (r : DMA_CNTRL) : DMA_CNTRL :=
  mkDMA_CNTRL (base_address r) x (current_address r) (current_count r) (temporary_address r) (temporary_count r) (status r) (command r) (temporary r) (mode r) (mask r) (request r) (first_last r).
Definition SET_current_address (x : list (list Z)) (r : DMA_CNTRL) : DMA_CNTRL :=
  mkDMA_CNTRL (base_address r) (base_count r) x (current_count r) (temporary_address r) (temporary_count r) (status r) (command r) (temporary r) (mode r) (mask r) (request r) (first_last r).
Definition SET_current_count (x : list (list Z)) (r : DMA_CNTRL) : DMA_CNTRL :=
  mkDMA_CNTRL (base_address r) (base_count r) (current_address r) x (temporary_address r) (temporary_count r) (status r) (command r) (temporary r) (mode r) (mask r) (request r) (first_last r).
Definition SET_temporary_address (x : list (list Z)) (r : DMA_CNTRL) : DMA_CNTRL :=
  mkDMA_CNTRL (base_address r) (base_count r) (current_address r) (current_count r) x (temporary_count r) (status r) (command r) (temporary r) (mode r) (mask r) (request r) (first_last r).
Definition SET_temporary_count (x : list (list Z)) (r : DMA_CNTRL) : DMA_CNTRL :=
  mkDMA_CNTRL (base_address r) (base_count r) (current_address r) (current_count r) (temporary_address r) x (status r) (command r) (temporary r) (mode r) (mask r) (request r) (first_last r).
Definition SET_status (x : Z) (r : DMA_CNTRL) : DMA_CNTRL :=
  mkDMA_CNTRL (base_address r) (base_count r) (current_address r) (current_count r) (temporary_address r) (temporary_count r) x (command r) (temporary r) (mode r) (mask r) (request r) (first_last r).
Definition SET_command (x : Z) (r : DMA_CNTRL) : DMA_CNTRL :=
  mkDMA_CNTRL (base_address r) (base_count r) (current_address r) (current_count r) (temporary_address r) (temporary_count r) (status r) x (temporary r) (mode r) (mask r) (request r) (first_last r).
Definition SET_temporary (x : Z) (r : DMA_CNTRL) : DMA_CNTRL :=
  mkDMA_CNTRL (base_address r) (base_count r) (current_address r) (current_count r) (temporary_address r) (temporary_count r) (status r) (command r) x (mode r) (mask r) (request r) (first_last r).
Definition SET_mode (x : list Z) (r : DMA_CNTRL) : DMA_CNTRL :=
  mkDMA_CNTRL (base_address r) (base_count r) (current_address r) (current_count r) (temporary_address r) (temporary_count r) (status r) (command r) (temporary r) x (mask r) (request r) (first_last r).
Definition SET_mask (x : Z) (r : DMA_CNTRL) : DMA_CNTRL :=
  mkDMA_CNTRL (base_address r) (base_count r) (current_address r) (current_count r) (temporary_address r) (temporary_count r) (status r) (command r) (temporary r) (mode r) x (request r) (first_last r).
Definition SET_request (x : Z) (r : DMA_CNTRL) : DMA_CNTRL :=
  mkDMA_CNTRL (base_address r) (base_count r) (current_address r) (current_count r) (temporary_address r) (temporary_count r) (status r) (command r) (temporary r) (mode r) (mask r) x (first_last r).
Definition SET_first_last (x : Z) (r : DMA_CNTRL) : DMA_CNTRL :=
  mkDMA_CNTRL (base_address r) (base_count r) (current_address r) (current_count r) (temporary_address r) (temporary_count r) (status r) (command r) (temporary r) (mode r) (mask r) (request r) x.

(** [DMA_ADAPT]: the controllers and the page registers. *)
Record DMA_ADAPT := mkDMA_ADAPT {
  controller : list DMA_CNTRL;
  page : list Z
}.

Definition SET_controller (x : list DMA_CNTRL) (r : DMA_ADAPT) : DMA_ADAPT :=
  mkDMA_ADAPT x (page r).
Definition SET_page (x : list Z) (r : DMA_ADAPT) : DMA_ADAPT :=
  mkDMA_ADAPT (controller r) x.

(** The adaptor with what its routines reach: system memory, the memory of the host in
    which devices have their buffers, the tables of ports and the state of other
    devices. *)
Record board (V D : Type) := mkBoard {
  adaptor : DMA_ADAPT;
  lim_active : Z;
  memory : Mem.sas V;
  host_mem : Z -> Z;
  bus : Ios.ios;
  others : D
}.
Arguments mkBoard {V} {D} _ _ _ _ _ _.
Arguments adaptor {V} {D} _.
Arguments lim_active {V} {D} _.
Arguments memory {V} {D} _.
Arguments host_mem {V} {D} _.
Arguments bus {V} {D} _.
Arguments others {V} {D} _.

Definition SET_adaptor {V} {D} (x : DMA_ADAPT) (r : board V D) : board V D :=
  mkBoard x (lim_active r) (memory r) (host_mem r) (bus r) (others r).
Definition SET_lim_active {V} {D} (x : Z) (r : board V D) : board V D :=
  mkBoard (adaptor r) x (memory r) (host_mem r) (bus r) (others r).
Definition SET_memory {V} {D} (x : Mem.sas V) (r : board V D) : board V D :=
  mkBoard (adaptor r) (lim_active r) x (host_mem r) (bus r) (others r).
Definition SET_host_mem {V} {D} (x : Z -> Z) (r : board V D) : board V D :=
  mkBoard (adaptor r) (lim_active r) (memory r) x (bus r) (others r).
Definition SET_bus {V} {D} (x : Ios.ios) (r : board V D) : board V D :=
  mkBoard (adaptor r) (lim_active r) (memory r) (host_mem r) x (others r).
Definition SET_others {V} {D} (x : D) (r : board V D) : board V D :=
  mkBoard (adaptor r) (lim_active r) (memory r) (host_mem r) (bus r) x.

(** Arrays. *)
Definition at_ {A} (d : A) (l : list A) (i : Z) : A := default d (l !! Z.to_nat i).
Definition set_at {A} (i : Z) (x : A) (l : list A) : list A := <[Z.to_nat i := x]> l.
Definition at2 (l : list (list Z)) (i j : Z) : Z := at_ 0 (at_ [] l i) j.
Definition set_at2 (i j x : Z) (l : list (list Z)) : list (list Z) := alter (set_at j x) (Z.to_nat i) l.

Definition zero_words : list (list Z) := [[0; 0]; [0; 0]; [0; 0]; [0; 0]].
Definition cntrl0 : DMA_CNTRL :=
  mkDMA_CNTRL zero_words zero_words zero_words zero_words zero_words zero_words 0 0 0 [0; 0; 0; 0] 0 0 0.
Definition adapt0 : DMA_ADAPT := mkDMA_ADAPT [cntrl0; cntrl0] (repeat 0 16).

(** ** Macros of [dma.h] *)

Definition DMA_CONTROLLER_CHANNELS : Z := 4.
Definition DMA_ADAPTOR_CONTROLLERS : Z := 2.
Definition DMA_CONTROLLER : Z := 0.
Definition DMA1_CONTROLLER : Z := 1.
Definition DMA_CASCADE_CHANNEL : Z := 4.
Definition DMA_SINGLE_MODE : Z := 1.
Definition DMA_CASCADE_MODE : Z := 3.
Definition DMA_WRITE_TRANSFER : Z := 1.
Definition DMA_READ_TRANSFER : Z := 2.
Definition DMA_PORT_START : Z := 0x00.
Definition DMA_PORT_END : Z := 0x1F.
Definition DMA1_PORT_START : Z := 0xC0.
Definition DMA1_PORT_END : Z := 0xDF.
Definition DMA_PAGE_PORT_START : Z := 0x80.
Definition DMA_PAGE_PORT_END : Z := 0x9F.
Definition DMA_ADAPTOR : Z := 1.
Definition DMA_PAGE_ADAPTOR : Z := 12.

Definition dma_logical_channel (controller channel : Z) : Z := controller * DMA_CONTROLLER_CHANNELS + channel.
Definition dma_physical_channel (channel : Z) : Z := channel mod DMA_CONTROLLER_CHANNELS.
Definition dma_physical_controller (channel : Z) : Z := channel / DMA_CONTROLLER_CHANNELS.
Definition dma_system_address (channel page offset : Z) : Z :=
  if channel <? 4 then ((page .& 0xff) .<< 16) .| ((offset .& 0xffff) .<< 0)
  else ((page .& 0xfe) .<< 16) .| ((offset .& 0xffff) .<< 1).
Definition dma_unit_size (channel : Z) : Z := if channel <? 4 then 1 else 2.

(** The bit fields of [DMA_COMMAND], [DMA_MODE] and [DMA_STATUS]. *)
Definition controller_disable (command : Z) : Z := (command .>> 2) .& 1.
Definition transfer_type (mode : Z) : Z := (mode .>> 2) .& 3.
Definition auto_init (mode : Z) : Z := (mode .>> 4) .& 1.
Definition address_dec (mode : Z) : Z := (mode .>> 5) .& 1.
Definition SET_mode_bits (x m : Z) : Z := (m .& 0x3f) .| (x .<< 6).
Definition terminal_count (status : Z) : Z := status .& 0xf.
Definition SET_terminal_count (x s : Z) : Z := (s .& 0xf0) .| (x .& 0xf).
Definition request_bits (status : Z) : Z := (status .>> 4) .& 0xf.
Definition SET_request_bits (x s : Z) : Z := (s .& 0x0f) .| ((x .& 0xf) .<< 4).

Definition cntrl (ci : Z) (a : DMA_ADAPT) : DMA_CNTRL := at_ cntrl0 (controller a) ci.
Definition on_cntrl (ci : Z) (f : DMA_CNTRL -> DMA_CNTRL) (a : DMA_ADAPT) : DMA_ADAPT :=
  SET_controller (alter f (Z.to_nat ci) (controller a)) a.

(** ** Reset and the controller ports *)

(** A master clear; both loops of [dma_post] apply it. *)
Definition master_clear (c : DMA_CNTRL) : DMA_CNTRL :=
  SET_first_last 0 (SET_mask 0xff (SET_temporary 0 (SET_request 0 (SET_status 0 (SET_command 0 c))))).

Definition post_mode (ci chan : Z) (c : DMA_CNTRL) : DMA_CNTRL :=
  SET_mode (set_at chan (SET_mode_bits (if dma_logical_channel ci chan =? DMA_CASCADE_CHANNEL
                                        then DMA_CASCADE_MODE else DMA_SINGLE_MODE) 0) (mode c)) c.

Definition dma_post (a : DMA_ADAPT) : DMA_ADAPT :=
  let a := on_cntrl 1 master_clear (on_cntrl 0 master_clear a) in
  fold_left (fun a ci => fold_left (fun a chan => on_cntrl ci (post_mode ci chan) a) [0; 1; 2; 3] a) [0; 1] a.

(** The controller behind a port, and the port without its redundant bits. *)
Definition port_controller (port : Z) : Z := if port <=? DMA_PORT_END then DMA_CONTROLLER else DMA1_CONTROLLER.
Definition port_register (port : Z) : Z :=
  if port <=? DMA_PORT_END then port .& Z.lnot 0x10 else port .& Z.lnot 0x01.

Definition flip (c : DMA_CNTRL) : DMA_CNTRL := SET_first_last (first_last c .^ 1) c.

(** The registers of the switch in [dma_inb] and [dma_outb]. *)
Inductive register :=
  | Address (chan : Z) | Count (chan : Z) | SharedA | WriteRequest | OneMaskBit | WriteMode
  | ClearFlipFlop | SharedB | ClearMask | AllMaskBits | Illegal.

Definition decode_port (port : Z) : register :=
  match port with
  | 0x00 | 0x02 | 0x04 | 0x06 => Address (port / 2)
  | 0xC0 | 0xC4 | 0xC8 | 0xCC => Address ((port - 0xC0) / 4)
  | 0x01 | 0x03 | 0x05 | 0x07 => Count ((port - 0x01) / 2)
  | 0xC2 | 0xC6 | 0xCA | 0xCE => Count ((port - 0xC2) / 4)
  | 0x08 | 0xD0 => SharedA
  | 0x09 | 0xD2 => WriteRequest
  | 0x0A | 0xD4 => OneMaskBit
  | 0x0B | 0xD6 => WriteMode
  | 0x0C | 0xD8 => ClearFlipFlop
  | 0x0D | 0xDA => SharedB
  | 0x0E | 0xDC => ClearMask
  | 0x0F | 0xDE => AllMaskBits
  | _ => Illegal
  end.

Definition cntrl_outb (r : register) (value : Z) (c : DMA_CNTRL) : DMA_CNTRL :=
  match r with
  | Address chan =>
      flip (SET_base_address (set_at2 chan (first_last c) value (base_address c))
             (SET_current_address (set_at2 chan (first_last c) value (current_address c)) c))
  | Count chan =>
      flip (SET_base_count (set_at2 chan (first_last c) value (base_count c))
             (SET_current_count (set_at2 chan (first_last c) value (current_count c)) c))
  | SharedA => SET_command value c
  | WriteRequest => c
  | OneMaskBit =>
      if negb (value .& 0x4 =? 0) then SET_mask (u8 (mask c .| (1 .<< (value .& 0x3)))) c
      else SET_mask (u8 (mask c .& Z.lnot (1 .<< (value .& 0x3)))) c
  | WriteMode => SET_mode (set_at (value .& 0x3) value (mode c)) c
  | ClearFlipFlop => SET_first_last 0 c
  | SharedB => master_clear c
  | ClearMask => SET_mask 0 c
  | AllMaskBits => SET_mask value c
  | Illegal => c
  end.

Definition dma_outb (port value : Z) (a : DMA_ADAPT) : DMA_ADAPT :=
  on_cntrl (port_controller port) (cntrl_outb (decode_port (port_register port)) value) a.

(** *** The page registers *)

Definition page_channel (port : Z) : option Z :=
  match port with
  | 0x87 => Some 0 | 0x83 => Some 1 | 0x81 => Some 2 | 0x82 => Some 3
  | 0x8b => Some 5 | 0x89 => Some 6 | 0x8a => Some 7 | 0x8f => Some 15
  | 0x84 => Some 8 | 0x85 => Some 9 | 0x86 => Some 10 | 0x88 => Some 11
  | 0x8c => Some 12 | 0x8d => Some 13 | 0x8e => Some 14
  | _ => None
  end.

(** [value] is what the variable for the result holds before. *)
Definition dma_page_inb (port value : Z) (a : DMA_ADAPT) : Z :=
  match page_channel (port .& Z.lnot 0x10) with
  | Some ch => at_ 0 (page a) ch
  | None => value
  end.
Definition dma_page_outb (port value : Z) (a : DMA_ADAPT) : DMA_ADAPT :=
  match page_channel (port .& Z.lnot 0x10) with
  | Some ch => SET_page (set_at ch value (page a)) a
  | None => a
  end.

(** The address and length a device asks for. *)
Definition word_at (l : list (list Z)) (chan : Z) : Z := u16 ((at2 l chan 1 .<< 8) .| at2 l chan 0).

Definition dma_enquire (channel : Z) (a : DMA_ADAPT) : Z * Z :=
  let dcp := cntrl (dma_physical_controller channel) a in
  let chan := dma_physical_channel channel in
  (dma_system_address channel (at_ 0 (page a) channel) (word_at (current_address dcp) chan),
   word_at (current_count dcp) chan).

(** ** Transfers *)

Class Sound (V D : Type) := {
  SbDmaChannel : board V D -> Z;
  SbGetDMAPosition : M exn (board V D) unit
}.

Section Board.
Context {V D : Type} `{Mem.Handlers V} (junk_value : Z) `{Sound V D}.
Abbreviation X := (M exn (board V D)).

Definition onsas {A} (m : M exn (Mem.sas V) A) : X A := fun s =>
  match m (memory s) with
  | Ret a p => Ret a (SET_memory p s)
  | Raise e p => Raise e (SET_memory p s)
  | Undefined => Undefined
  end.
Definition get_adaptor {A} (f : DMA_ADAPT -> A) : X A := gets (fun s => f (adaptor s)).
Definition mod_adaptor (f : DMA_ADAPT -> DMA_ADAPT) : X unit := modify (fun s => SET_adaptor (f (adaptor s)) s).
Definition mod_cntrl (ci : Z) (f : DMA_CNTRL -> DMA_CNTRL) : X unit := mod_adaptor (on_cntrl ci f).

Definition dma_inb (port value : Z) : X Z :=
  let ci := port_controller port in
  let reg := port_register port in
  let position chan :=
    s <- get ;;
    when ((reg <=? 0x07) && (first_last (cntrl ci (adaptor s)) =? 0) && (chan =? SbDmaChannel s)) SbGetDMAPosition in
  match decode_port reg with
  | Address chan =>
      position chan ;;
      v <- get_adaptor (fun a => at2 (current_address (cntrl ci a)) chan (first_last (cntrl ci a))) ;;
      mod_cntrl ci flip ;; ret v
  | Count chan =>
      position chan ;;
      v <- get_adaptor (fun a => at2 (current_count (cntrl ci a)) chan (first_last (cntrl ci a))) ;;
      mod_cntrl ci flip ;; ret v
  | SharedA =>
      v <- get_adaptor (fun a => status (cntrl ci a)) ;;
      mod_cntrl ci (fun c => SET_status (SET_terminal_count 0 (status c)) c) ;; ret v
  | SharedB => get_adaptor (fun a => temporary (cntrl ci a))
  | _ => ret value
  end.

(** The memory of the host: the bytes at an address, and bytes stored there. *)
Fixpoint peek_host (a : Z) (n : nat) (m : Z -> Z) : list Z :=
  match n with O => [] | S n => m a :: peek_host (a + 1) n m end.
Fixpoint poke_host (a : Z) (l : list Z) (m : Z -> Z) : Z -> Z :=
  match l with [] => m | b :: l => poke_host (a + 1) l (Ios.update m a b) end.

Definition sas_PWS (dest src len : Z) : X unit :=
  bs <- gets (fun s => peek_host src (Z.to_nat len) (host_mem s)) ;; onsas (Mem.c_sas_PWS dest bs).
Definition sas_PRS (src dest len : Z) : X unit :=
  bs <- onsas (Mem.c_sas_PRS junk_value src (Z.to_nat len)) ;;
  modify (fun s => SET_host_mem (poke_host dest bs (host_mem s)) s).

(** The loops take as many rounds as there are units, at most [l]. *)
Fixpoint bwd_dest_copy_to_M (fuel : nat) (s d l size : Z) : X unit :=
  if size <=? l then
    match fuel with
    | O => undefined
    | S fuel => sas_PWS d s size ;; bwd_dest_copy_to_M fuel (s + size) (u32 (d - size)) (l - size) size
    end
  else ret tt.
Fixpoint bwd_dest_copy_from_M (fuel : nat) (s d l size : Z) : X unit :=
  if size <=? l then
    match fuel with
    | O => undefined
    | S fuel => sas_PRS s d size ;; bwd_dest_copy_from_M fuel (u32 (s - size)) (d + size) (l - size) size
    end
  else ret tt.

Definition do_transfer (type decrement dma_addr hw_buffer length size : Z) : X unit :=
  let length := length * size in
  if type =? DMA_WRITE_TRANSFER then
    if decrement =? 0 then sas_PWS dma_addr hw_buffer length
    else bwd_dest_copy_to_M (Z.to_nat length) hw_buffer dma_addr length size
  else if type =? DMA_READ_TRANSFER then
    if decrement =? 0 then sas_PRS dma_addr hw_buffer length
    else bwd_dest_copy_from_M (Z.to_nat length) dma_addr hw_buffer length size
  else ret tt.

(** Store the working copies, the high bytes first. *)
Definition set_word (chan w : Z) (l : list (list Z)) : list (list Z) :=
  set_at2 chan 0 (u8 w) (set_at2 chan 1 (u8 (w .>> 8)) l).
Definition store_current (chan offset count : Z) (c : DMA_CNTRL) : DMA_CNTRL :=
  SET_current_count (set_word chan count (current_count c))
    (SET_current_address (set_word chan offset (current_address c)) c).

(** What terminal count does to the controller. *)
Definition reload (chan : Z) (from to : list (list Z)) : list (list Z) :=
  set_at2 chan 1 (at2 from chan 1) (set_at2 chan 0 (at2 from chan 0) to).
Definition at_terminal_count (chan : Z) (c : DMA_CNTRL) : DMA_CNTRL :=
  let c := SET_status (SET_terminal_count (terminal_count (status c) .| (1 .<< chan)) (status c)) c in
  let c := SET_status (SET_request_bits (request_bits (status c) .& Z.lnot (1 .<< chan)) (status c)) c in
  if negb (auto_init (at_ 0 (mode c) chan) =? 0) then
    let c := SET_current_count (reload chan (base_count c) (current_count c)) c in
    SET_current_address (reload chan (base_address c) (current_address c)) c
  else SET_mask (u8 (mask c .| (1 .<< chan))) c.

(** [TRUE] while more can be transferred.  The array of controllers has two entries. *)
Definition dma_request (channel hw_buffer length : Z) : X bool :=
  let ci := dma_physical_controller channel in
  let chan := dma_physical_channel channel in
  let size := dma_unit_size channel in
  if DMA_ADAPTOR_CONTROLLERS <=? ci then undefined else
  dcp <- get_adaptor (cntrl ci) ;;
  page <- get_adaptor (fun a => at_ 0 (page a) channel) ;;
  if (controller_disable (command dcp) =? 0) && (mask dcp .& (1 .<< chan) =? 0) then
    let offset := word_at (current_address dcp) chan in
    let count := word_at (current_count dcp) chan in
    let munch := if length <? count + 1 then length else count + 1 in
    let address := dma_system_address channel page offset in
    let type := transfer_type (at_ 0 (mode dcp) chan) in
    let dec := address_dec (at_ 0 (mode dcp) chan) in
    (if dec =? 0 then
       if 0x10000 <? offset + munch then
         let split_munch1 := 0x10000 - offset in
         let split_munch2 := munch - split_munch1 in
         do_transfer type dec address hw_buffer split_munch1 size ;;
         let address := dma_system_address channel page 0 in
         do_transfer type dec address (hw_buffer + split_munch1 * size) split_munch2 size
       else do_transfer type dec address hw_buffer munch size
     else
       if offset + 1 <? munch then
         let split_munch1 := offset + 1 in
         let split_munch2 := munch - split_munch1 in
         do_transfer type dec address hw_buffer split_munch1 size ;;
         let address := dma_system_address channel page 0xffff in
         do_transfer type dec address (hw_buffer + split_munch1 * size) split_munch2 size
       else do_transfer type dec address hw_buffer munch size) ;;
    let offset := if dec =? 0 then u16 (offset + munch) else u16 (offset - munch) in
    let count := u16 (count - munch) in
    mod_cntrl ci (store_current chan offset count) ;;
    if count =? 0xffff then mod_cntrl ci (at_terminal_count chan) ;; ret false else ret true
  else ret true.

(** ** Set up and the position of expanded memory *)

Definition get_lim_setup : X Z := gets lim_active.
Definition dma_lim_setup : X unit := modify (SET_lim_active 1).

#[local] Instance HasIos_board : Ios.HasIos (board V D) := {| Ios.the_ios := bus; Ios.put_ios := SET_bus; Ios.the_put_ios := fun _ _ => eq_refl |}.

(** [for (port = first; port <= last; port++)]. *)
Fixpoint connect_ports (n : nat) (port adapter : Z) : X unit :=
  match n with
  | O => ret tt
  | S n => Ios.io_connect_port port adapter Ios.IO_READ_WRITE ;; connect_ports n (port + 1) adapter
  end.
Definition connect_range (first last adapter : Z) : X unit := connect_ports (Z.to_nat (last - first + 1)) first adapter.

(** The routines are registered under the number of their adaptor. *)
Definition dma_init : X unit :=
  modify (SET_lim_active 0) ;;
  Ios.io_define_inb DMA_ADAPTOR (Ios.dev DMA_ADAPTOR) ;;
  Ios.io_define_outb DMA_ADAPTOR (Ios.dev DMA_ADAPTOR) ;;
  connect_range DMA_PORT_START DMA_PORT_END DMA_ADAPTOR ;;
  connect_range DMA1_PORT_START DMA1_PORT_END DMA_ADAPTOR ;;
  Ios.io_define_inb DMA_PAGE_ADAPTOR (Ios.dev DMA_PAGE_ADAPTOR) ;;
  Ios.io_define_outb DMA_PAGE_ADAPTOR (Ios.dev DMA_PAGE_ADAPTOR) ;;
  connect_range DMA_PAGE_PORT_START DMA_PAGE_PORT_END DMA_PAGE_ADAPTOR.

(** The devices on the bus as far as they are here; [unset] is what a variable for a
    result holds when a routine does not set it. *)
#[local] Instance Adapters_board (unset : Z) : Ios.Adapters exn (board V D) := {|
  Ios.dev_inb := fun id port =>
    if id =? DMA_ADAPTOR then dma_inb port unset
    else if id =? DMA_PAGE_ADAPTOR then get_adaptor (dma_page_inb port unset) else undefined;
  Ios.dev_outb := fun id port value =>
    if id =? DMA_ADAPTOR then mod_adaptor (dma_outb port value)
    else if id =? DMA_PAGE_ADAPTOR then mod_adaptor (dma_page_outb port value) else undefined;
  Ios.dev_inw := fun _ _ => undefined; Ios.dev_ind := fun _ _ => undefined;
  Ios.dev_outw := fun _ _ _ => undefined; Ios.dev_outd := fun _ _ _ => undefined
|}.

End Board.

(** ** The snapshot *)

(** [softpc_device_dma_state]: every array is over the controllers first. *)
Record softpc_device_dma_state := mkDmaState {
  st_base_address : list (list (list Z));
  st_base_count : list (list (list Z));
  st_current_address : list (list (list Z));
  st_current_count : list (list (list Z));
  st_temporary_address : list (list (list Z));
  st_temporary_count : list (list (list Z));
  st_status : list Z;
  st_command : list Z;
  st_temporary : list Z;
  st_mode : list (list Z);
  st_mask : list Z;
  st_request : list Z;
  st_first_last : list Z;
  st_page : list Z
}.

Definition softpc_device_snapshot_capture_dma (a : DMA_ADAPT) : softpc_device_dma_state :=
  let all {A} (f : DMA_CNTRL -> A) := map f (controller a) in
  mkDmaState (all base_address) (all base_count) (all current_address) (all current_count) (all temporary_address) (all temporary_count)
    (all status) (all command) (all temporary) (all mode) (all mask) (all request) (all first_last) (page a).

Definition restore_cntrl (st : softpc_device_dma_state) (ci : Z) : DMA_CNTRL :=
  mkDMA_CNTRL (at_ [] (st_base_address st) ci) (at_ [] (st_base_count st) ci)
    (at_ [] (st_current_address st) ci) (at_ [] (st_current_count st) ci)
    (at_ [] (st_temporary_address st) ci) (at_ [] (st_temporary_count st) ci)
    (at_ 0 (st_status st) ci) (at_ 0 (st_command st) ci) (at_ 0 (st_temporary st) ci) (at_ [] (st_mode st) ci)
    (at_ 0 (st_mask st) ci) (at_ 0 (st_request st) ci) (at_ 0 (st_first_last st) ci).

(** The loop over the controllers returns in the middle when a flip-flop is not valid. *)
Fixpoint restore_controllers (st : softpc_device_dma_state) (cs : list Z) (a : DMA_ADAPT) : bool * DMA_ADAPT :=
  match cs with
  | [] => (true, a)
  | ci :: cs =>
      if 1 <? at_ 0 (st_first_last st) ci then (false, a)
      else restore_controllers st cs (on_cntrl ci (fun _ => restore_cntrl st ci) a)
  end.

Definition softpc_device_snapshot_restore_dma (st : softpc_device_dma_state) (a : DMA_ADAPT) : bool * DMA_ADAPT :=
  let '(ok, a) := restore_controllers st [0; 1] a in
  if ok then (true, SET_page (st_page st) a) else (false, a).

(** ** Arrays *)

Lemma alter_twice {A} (f g : A -> A) i (l : list A) : alter f i (alter g i l) = alter (fun x => f (g x)) i l.
Proof. revert i. induction l as [|x l IH]; intros [|i]; cbn; f_equal; auto. Qed.
Lemma alter_ext_at {A} (f g : A -> A) i (l : list A) : (forall x, f x = g x) -> alter f i l = alter g i l.
Proof. intros HE. revert i. induction l as [|x l IH]; intros [|i]; cbn; f_equal; auto. Qed.

Lemma set_word_alter chan w l :
  set_word chan w l = alter (fun b => <[0%nat := u8 w]> (<[1%nat := u8 (w .>> 8)]> b)) (Z.to_nat chan) l.
Proof. unfold set_word, set_at2. rewrite alter_twice. reflexivity. Qed.

Lemma set_word_twice chan w w' l : set_word chan w (set_word chan w' l) = set_word chan w l.
Proof.
  rewrite !set_word_alter, alter_twice. apply alter_ext_at. intros b.
  rewrite (list_insert_insert_ne _ 1 0) by lia. rewrite list_insert_insert_eq, list_insert_insert_eq. reflexivity.
Qed.

Definition byte (x : Z) : Prop := 0 <= x < 2 ^ 8.
Definition words_ok (l : list (list Z)) : Prop := length l = 4%nat /\ Forall (fun w => length w = 2%nat /\ Forall byte w) l.

Lemma word_bytes lo hi : byte lo -> byte hi -> u16 ((hi .<< 8) .| lo) = lo + 2 ^ 8 * hi.
Proof.
  unfold byte. intros Hl Hh. rewrite u32_small by (rewrite Z.shiftl_mul_pow2 by lia; lia).
  rewrite join_lor by lia. apply u16_small. lia.
Qed.

Lemma words_at l chan : words_ok l -> 0 <= chan < 4 -> exists lo hi, l !! Z.to_nat chan = Some [lo; hi] /\ byte lo /\ byte hi.
Proof.
  intros [HL HF] Hc. destruct (lookup_lt_is_Some_2 l (Z.to_nat chan)) as [w Hw]; [lia|].
  destruct (Forall_lookup_1 _ _ _ _ HF Hw) as [H2 HB]. destruct w as [|lo [|hi [|]]]; try discriminate.
  exists lo, hi. rewrite Hw. inversion HB as [|? ? B1 B2]; inversion B2; auto.
Qed.

Lemma word_at_range l chan : words_ok l -> 0 <= chan < 4 -> 0 <= word_at l chan < 2 ^ 16.
Proof. intros. apply u16_range. Qed.

Lemma word_at_set l chan w : words_ok l -> 0 <= chan < 4 -> 0 <= w < 2 ^ 16 -> word_at (set_word chan w l) chan = w.
Proof.
  intros HW Hc Hw. destruct (words_at l chan HW Hc) as (lo & hi & E & _).
  rewrite set_word_alter. unfold word_at, at2, at_. rewrite list_lookup_alter_eq, E. cbn.
  change (Z.to_nat 0) with 0%nat. change (Z.to_nat 1) with 1%nat. cbn [lookup list_lookup default from_option id].
  rewrite word_bytes by apply u8_range. rewrite Z.shiftr_div_pow2 by lia.
  assert (HD : 0 <= w / 2 ^ 8 < 2 ^ 8) by (split; [apply Z.div_pos; lia | apply Z.div_lt_upper_bound; lia]).
  rewrite (u8_small (w / 2 ^ 8) HD). unfold u8. pose proof (Z.div_mod w (2 ^ 8) ltac:(lia)). lia.
Qed.

Lemma set_word_ok l chan w : words_ok l -> words_ok (set_word chan w l).
Proof.
  intros [HL HF]. rewrite set_word_alter. split; [rewrite length_alter; exact HL|].
  apply Forall_alter; [exact HF|]. intros b Hb [H2 HB]. rewrite !length_insert. split; [exact H2|].
  repeat apply Forall_insert; auto; apply u8_range.
Qed.

(** ** What the registers may hold *)

Record cntrl_ok (c : DMA_CNTRL) : Prop := {
  ok_base_address : words_ok (base_address c);
  ok_base_count : words_ok (base_count c);
  ok_current_address : words_ok (current_address c);
  ok_current_count : words_ok (current_count c);
  ok_temporary_address : words_ok (temporary_address c);
  ok_temporary_count : words_ok (temporary_count c);
  ok_status : byte (status c);
  ok_command : byte (command c);
  ok_temporary : byte (temporary c);
  ok_mode : length (mode c) = 4%nat /\ Forall byte (mode c);
  ok_mask : byte (mask c);
  ok_request : byte (request c);
  ok_first_last : first_last c = 0 \/ first_last c = 1
}.

Record adapt_ok (a : DMA_ADAPT) : Prop := {
  ok_controllers : length (controller a) = 2%nat /\ Forall cntrl_ok (controller a);
  ok_pages : length (page a) = 16%nat /\ Forall byte (page a)
}.

Lemma cntrl_at a ci : adapt_ok a -> 0 <= ci < 2 -> controller a !! Z.to_nat ci = Some (cntrl ci a) /\ cntrl_ok (cntrl ci a).
Proof.
  intros [[HL HF] _] Hc. destruct (lookup_lt_is_Some_2 (controller a) (Z.to_nat ci)) as [c Hl]; [lia|].
  unfold cntrl, at_. rewrite Hl. split; [reflexivity | exact (Forall_lookup_1 _ _ _ _ HF Hl)].
Qed.

Lemma cntrl_on a ci f : adapt_ok a -> 0 <= ci < 2 -> cntrl ci (on_cntrl ci f a) = f (cntrl ci a).
Proof.
  intros HA Hc. destruct (cntrl_at a ci HA Hc) as [E _]. unfold cntrl at 1, at_, on_cntrl. cbn [controller SET_controller].
  rewrite list_lookup_alter_eq, E. reflexivity.
Qed.

Lemma on_cntrl_ok a ci f : adapt_ok a -> 0 <= ci -> (forall c, cntrl_ok c -> cntrl_ok (f c)) -> adapt_ok (on_cntrl ci f a).
Proof.
  intros [[HL HF] HP] Hc Hf. split; [|exact HP]. cbn. split; [rewrite length_alter; exact HL|].
  apply Forall_alter; [exact HF | auto].
Qed.

Lemma on_cntrl_twice ci f g a : on_cntrl ci f (on_cntrl ci g a) = on_cntrl ci (fun c => f (g c)) a.
Proof. unfold on_cntrl. cbn. rewrite alter_twice. reflexivity. Qed.

Lemma store_current_ok chan offset count c : cntrl_ok c -> cntrl_ok (store_current chan offset count c).
Proof. intros []. split; cbn; try assumption; apply set_word_ok; assumption. Qed.

Lemma store_current_twice chan o c o' c' x : store_current chan o c (store_current chan o' c' x) = store_current chan o c x.
Proof. unfold store_current. cbn. rewrite !set_word_twice. reflexivity. Qed.

(** ** A transfer unit by unit *)

Section Units.
Context {V D : Type} `{Mem.Handlers V} (junk_value : Z).
Abbreviation X := (M exn (board V D)).

(** One unit between an address and the device's buffer. *)
Definition unit_transfer (type address hw size : Z) : X unit :=
  if type =? DMA_WRITE_TRANSFER then sas_PWS address hw size
  else if type =? DMA_READ_TRANSFER then sas_PRS junk_value address hw size
  else ret tt.

(** The address counter after a unit: it wraps within its 16 bits. *)
Definition next_offset (dec offset : Z) : Z := if dec =? 0 then u16 (offset + 1) else u16 (offset - 1).

Fixpoint units (n : nat) (type dec channel page offset hw : Z) : X unit :=
  match n with
  | O => ret tt
  | S n =>
      unit_transfer type (dma_system_address channel page offset) hw (dma_unit_size channel) ;;
      units n type dec channel page (next_offset dec offset) (hw + dma_unit_size channel)
  end.

(** A computation that has nothing to do with the adaptor and raises nothing. *)
Definition map_out {A} (f : board V D -> board V D) (o : outcome exn (board V D) A) : outcome exn (board V D) A :=
  match o with Ret x s => Ret x (f s) | Raise e s => Raise e (f s) | Undefined => Undefined end.
Record local {A} (m : X A) : Prop := {
  local_set a s : m (SET_adaptor a s) = map_out (SET_adaptor a) (m s);
  local_quiet s e s' : m s <> Raise e s'
}.

Lemma local_ret {A} (x : A) : local (ret x).
Proof. split; [reflexivity | discriminate]. Qed.
Lemma local_bind {A B} (m : X A) (k : A -> X B) : local m -> (forall x, local (k x)) -> local (bind m k).
Proof.
  intros Hm Hk. split.
  - intros a s. unfold bind. rewrite (local_set _ Hm). destruct (m s); cbn; [apply Hk | reflexivity..].
  - intros s e s'. unfold bind. destruct (m s) as [x s1|e1 s1|] eqn:E1; [apply Hk | | discriminate].
    destruct (local_quiet _ Hm _ _ _ E1).
Qed.
Lemma local_onsas {A} (m : M exn (Mem.sas V) A) : (forall s e s', m s <> Raise e s') -> local (onsas m).
Proof.
  intros Hq. split; [intros a s; unfold onsas; cbn; destruct (m (memory s)); reflexivity|].
  intros s e s'. unfold onsas. destruct (m (memory s)) eqn:E1; try discriminate. destruct (Hq _ _ _ E1).
Qed.
Lemma calm_PWS bs : forall a (s : Mem.sas V) e s', Mem.c_sas_PWS a bs s <> Raise e s'.
Proof. induction bs; intros a'; [discriminate|]. apply Wp.calm_bind; [apply Wp.calm_w8 | intros _; apply IHbs]. Qed.
Lemma calm_PRS n : forall a (s : Mem.sas V) e s', Mem.c_sas_PRS junk_value a n s <> Raise e s'.
Proof.
  induction n; intros a'; [discriminate|]. apply Wp.calm_bind; [apply Wp.calm_bind; [apply Wp.calm_phyR | discriminate]|].
  intros b. apply Wp.calm_bind; [apply IHn | discriminate].
Qed.
Lemma local_PWS a b n : local (sas_PWS a b n).
Proof. apply local_bind; [split; [reflexivity | discriminate] | intros; apply local_onsas, calm_PWS]. Qed.
Lemma local_PRS a b n : local (sas_PRS junk_value a b n).
Proof. apply local_bind; [apply local_onsas, calm_PRS | intros l; split; [reflexivity | discriminate]]. Qed.
Lemma local_unit t a hw n : local (unit_transfer t a hw n).
Proof. unfold unit_transfer. destruct (_ =? _); [apply local_PWS|]. destruct (_ =? _); [apply local_PRS | apply local_ret]. Qed.
Lemma local_units n : forall t dec ch pg off hw, local (units n t dec ch pg off hw).
Proof. induction n; intros; cbn [units]; [apply local_ret | apply local_bind; auto using local_unit]. Qed.

Lemma local_adaptor {A} (m : X A) s x s' : local m -> m s = Ret x s' -> adaptor s' = adaptor s.
Proof.
  intros HL E1. pose proof (local_set _ HL (adaptor s) s) as HS.
  assert (E2 : SET_adaptor (adaptor s) s = s) by (destruct s; reflexivity).
  rewrite E2, E1 in HS. injection HS as ->. reflexivity.
Qed.

(** An update of the adaptor moves past such a computation. *)
Lemma local_swap {A} (m : X unit) (f : DMA_ADAPT -> DMA_ADAPT) (k : X A) :
  local m -> (mod_adaptor f ;; m ;; k) ≡ (m ;; mod_adaptor f ;; k).
Proof.
  intros HL s. unfold bind, mod_adaptor, modify.
  rewrite (local_set _ HL). destruct (m s) as [x s'|e s'|] eqn:E1; cbn; [|destruct (local_quiet _ HL _ _ _ E1)|reflexivity].
  rewrite (local_adaptor _ _ _ _ HL E1). reflexivity.
Qed.

(** *** Blocks *)

Lemma peek_host_app m : forall n a k, peek_host a (n + k) m = peek_host a n m ++ peek_host (a + Z.of_nat n) k m.
Proof.
  induction n as [|n IH]; intros a k; cbn [peek_host Nat.add app]; [f_equal; lia|]. f_equal. rewrite IH. do 2 f_equal. lia.
Qed.
Lemma poke_host_app l1 : forall a l2 m, poke_host a (l1 ++ l2) m = poke_host (a + Z.of_nat (length l1)) l2 (poke_host a l1 m).
Proof.
  induction l1 as [|b l1 IH]; intros a l2 m; cbn [poke_host app length]; [f_equal; lia|]. rewrite IH. f_equal. lia.
Qed.
Lemma PWS_app l1 : forall a l2, 0 <= a < 2 ^ 32 ->
  Mem.c_sas_PWS a (l1 ++ l2) ≡ (Mem.c_sas_PWS a l1 ;; Mem.c_sas_PWS (u32 (a + Z.of_nat (length l1))) l2).
Proof.
  induction l1 as [|b l1 IH]; intros a l2 Ha; cbn [Mem.c_sas_PWS app length].
  - rewrite bind_ret_l, Z.add_0_r, u32_small by lia. reflexivity.
  - rewrite bind_bind. apply bind_proper; [reflexivity|]. intros _. rewrite IH by apply u32_range.
    apply bind_proper; [reflexivity|]. intros _. f_equiv. unfold u32. rewrite Zplus_mod_idemp_l. f_equal. lia.
Qed.
Lemma PRS_app n : forall a k, 0 <= a < 2 ^ 32 ->
  Mem.c_sas_PRS junk_value a (n + k) ≡
  (l1 <- Mem.c_sas_PRS junk_value a n ;; l2 <- Mem.c_sas_PRS junk_value (u32 (a + Z.of_nat n)) k ;; ret (l1 ++ l2)).
Proof.
  induction n as [|n IH]; intros a k Ha; cbn [Mem.c_sas_PRS Nat.add].
  - rewrite bind_ret_l, Z.add_0_r, u32_small by lia. cbn [app]. intros s. unfold bind. destruct (Mem.c_sas_PRS _ _ _ s); reflexivity.
  - rewrite bind_bind. apply bind_proper; [reflexivity|]. intros b. rewrite bind_bind, IH by apply u32_range. rewrite bind_bind.
    apply bind_proper; [reflexivity|]. intros l1. rewrite bind_ret_l, bind_bind.
    replace (u32 (u32 (a + 1) + Z.of_nat n)) with (u32 (a + Z.of_nat (S n))) by (unfold u32; rewrite Zplus_mod_idemp_l; f_equal; lia).
    apply bind_proper; [reflexivity|]. intros l2. rewrite bind_ret_l. reflexivity.
Qed.

Lemma onsas_bind {A B} (m : M exn (Mem.sas V) A) (k : A -> M exn (Mem.sas V) B) :
  onsas (bind m k) ≡@{X B} (x <- onsas m ;; onsas (k x)).
Proof. intros s. unfold onsas, bind. destruct (m (memory s)); reflexivity. Qed.
#[local] Instance onsas_proper {A} : Proper (equiv ==> equiv) (@onsas V D A).
Proof. intros m m' HM s. unfold onsas. rewrite HM. reflexivity. Qed.

Lemma PWS_split a b n k : 0 <= a < 2 ^ 32 -> 0 <= n -> 0 <= k ->
  sas_PWS a b (n + k) ≡@{X unit} (sas_PWS a b n ;; sas_PWS (u32 (a + n)) (b + n) k).
Proof.
  intros Ha Hn Hk s. unfold sas_PWS at 1. unfold bind at 1, gets at 1. rewrite Z2Nat.inj_add, peek_host_app by lia.
  assert (EL : Z.of_nat (length (peek_host b (Z.to_nat n) (host_mem s))) = n).
  { clear -Hn. replace n with (Z.of_nat (Z.to_nat n)) at 2 by lia. generalize (Z.to_nat n) as j. intros j. revert b.
    induction j as [|j IH]; intros b; cbn [peek_host length]; [reflexivity|]. rewrite !Nat2Z.inj_succ, IH. reflexivity. }
  rewrite (onsas_proper _ _ (PWS_app _ a _ Ha) s), onsas_bind, EL, Z2Nat.id by lia.
  unfold sas_PWS, bind, gets, onsas. destruct (Mem.c_sas_PWS _ _ (memory s)); reflexivity.
Qed.
Lemma PRS_split a b n k : 0 <= a < 2 ^ 32 -> 0 <= n -> 0 <= k ->
  sas_PRS junk_value a b (n + k) ≡@{X unit} (sas_PRS junk_value a b n ;; sas_PRS junk_value (u32 (a + n)) (b + n) k).
Proof.
  intros Ha Hn Hk s. unfold sas_PRS at 1. rewrite Z2Nat.inj_add by lia. unfold bind at 1.
  rewrite (onsas_proper _ _ (PRS_app _ a _ Ha) s). rewrite Z2Nat.id by lia.
  unfold sas_PRS, bind, onsas, modify, ret.
  destruct (Mem.c_sas_PRS junk_value a (Z.to_nat n) (memory s)) as [l1 m1|e m1|] eqn:E1; [|reflexivity..]. cbn [memory SET_memory SET_host_mem].
  destruct (Mem.c_sas_PRS junk_value (u32 (a + n)) (Z.to_nat k) m1) as [l2 m2|e m2|] eqn:E2; [| |reflexivity].
  - cbn. rewrite poke_host_app. replace (Z.of_nat (length l1)) with n; [reflexivity|].
    rewrite <- (Z2Nat.id n) by lia. f_equal. clear -E1.
    revert a l1 E1. generalize (memory s) as m. generalize (Z.to_nat n) as j.
    induction j as [|j IH]; intros m a l1 E1; cbn [Mem.c_sas_PRS] in E1; [injection E1 as <- _; reflexivity|].
    unfold bind at 1 in E1. destruct (Mem.phy_r8 junk_value a m) as [b m0| |]; try discriminate. unfold bind in E1.
    destruct (Mem.c_sas_PRS junk_value (u32 (a + 1)) j m0) as [l m3| |] eqn:E3; try discriminate.
    injection E1 as <- <-. cbn. f_equal. eapply IH, E3.
  - destruct (calm_PRS _ _ _ _ _ E2).
Qed.

(** *** Addresses of the units *)

Section Channel.
Context (channel page : Z) (Hch : 0 <= channel < 8).
Abbreviation size := (dma_unit_size channel).

Definition top : Z := if channel <? 4 then page .& 0xff else page .& 0xfe.

Lemma size_pos : 1 <= size <= 2.
Proof. unfold dma_unit_size. destruct (_ <? _); lia. Qed.

Lemma top_range : 0 <= top < 2 ^ 8.
Proof.
  unfold top. destruct (_ <? _).
  - change 0xff with (2 ^ 8 - 1). rewrite land_mask by lia. apply Z.mod_pos_bound. lia.
  - replace (page .& 0xfe) with ((page .& 0xff) .& 0xfe) by (rewrite <- Z.land_assoc; reflexivity).
    apply land_range; [lia | | lia]. change 0xff with (2 ^ 8 - 1). rewrite land_mask by lia. apply Z.mod_pos_bound. lia.
Qed.

Lemma even_land : page .& 0xfe = 2 * ((page .& 0xfe) / 2).
Proof.
  pose proof (Z.div_mod (page .& 0xfe) 2 ltac:(lia)) as E. rewrite E at 1.
  replace ((page .& 0xfe) mod 2) with 0; [lia|]. change 2 with (2 ^ 1) at 1. rewrite <- Z.land_ones by lia.
  rewrite <- Z.land_assoc. change (0xfe .& Z.ones 1) with 0. rewrite Z.land_0_r. reflexivity.
Qed.
Lemma even_page : 0 <= page < 2 ^ 8 -> page .& 0xfe = 2 * (page / 2).
Proof.
  intros Hp. rewrite even_land. f_equal. rewrite <- !(Z.shiftr_div_pow2 _ 1) by lia. rewrite Z.shiftr_land.
  change (Z.shiftr 0xfe 1) with (2 ^ 7 - 1). rewrite land_mask by lia. apply Z.mod_small. rewrite Z.shiftr_div_pow2 by lia.
  split; [apply Z.div_pos; lia | apply Z.div_lt_upper_bound; lia].
Qed.

Lemma system_address offset : 0 <= offset < 2 ^ 16 -> dma_system_address channel page offset = top * 2 ^ 16 + offset * size.
Proof.
  intros Ho. pose proof top_range as Ht. unfold dma_system_address, dma_unit_size, top in *.
  change 0xffff with (2 ^ 16 - 1). rewrite land_mask, (Z.mod_small offset) by lia.
  destruct (channel <? 4).
  - rewrite Z.shiftl_0_r, (u32_small offset) by lia. rewrite u32_small by (rewrite Z.shiftl_mul_pow2 by lia; lia).
    rewrite join_lor by lia. lia.
  - pose proof even_land as E1.
    set (h := (page .& 0xfe) / 2) in *. rewrite E1 in *. rewrite !Z.shiftl_mul_pow2 by lia. rewrite !u32_small by lia.
    replace (2 * h * 2 ^ 16) with (Z.shiftl h 17) by (rewrite Z.shiftl_mul_pow2 by lia; lia).
    rewrite join_lor, Z.shiftl_mul_pow2 by lia. lia.
Qed.

Lemma address_range offset : 0 <= offset < 2 ^ 16 -> 0 <= dma_system_address channel page offset < 2 ^ 25.
Proof. intros Ho. rewrite system_address by lia. pose proof top_range. pose proof size_pos. nia. Qed.

Lemma address_up offset : 0 <= offset -> offset + 1 < 2 ^ 16 ->
  u32 (dma_system_address channel page offset + size) = dma_system_address channel page (offset + 1).
Proof.
  intros H1 H2. pose proof (address_range (offset + 1) ltac:(lia)). rewrite !system_address in * by lia.
  rewrite u32_small; lia.
Qed.
Lemma address_down offset : 1 <= offset < 2 ^ 16 ->
  u32 (dma_system_address channel page offset - size) = dma_system_address channel page (offset - 1).
Proof.
  intros H1. pose proof (address_range (offset - 1) ltac:(lia)). rewrite !system_address in * by lia.
  rewrite u32_small; lia.
Qed.

(** *** The block routines *)

Lemma block_up type n : forall offset hw, 0 <= offset -> offset + Z.of_nat n <= 2 ^ 16 -> (n > 0)%nat ->
  do_transfer junk_value type 0 (dma_system_address channel page offset) hw (Z.of_nat n) size
  ≡@{X unit} units n type 0 channel page offset hw.
Proof.
  pose proof size_pos as Hs. induction n as [|[|n] IH]; intros offset hw Ho Hn Hp; [lia | |].
  - cbn [units]. rewrite bind_ret_r. unfold do_transfer, unit_transfer. change (0 =? 0) with true. cbv iota.
    rewrite Z.mul_1_l. reflexivity.
  - remember (S n) as k eqn:Ek. cbn [units]. unfold next_offset at 1. change (0 =? 0) with true. cbv iota.
    rewrite u16_small by lia. setoid_rewrite <- (IH (offset + 1) (hw + size)); [|lia..]. unfold do_transfer, unit_transfer. change (0 =? 0) with true. cbv iota.
    replace (Z.of_nat (S k) * size) with (size + Z.of_nat k * size) by lia.
    pose proof (address_range offset ltac:(lia)).
    destruct (type =? DMA_WRITE_TRANSFER); [rewrite PWS_split, address_up by nia; reflexivity|].
    destruct (type =? DMA_READ_TRANSFER); [rewrite PRS_split, address_up by nia; reflexivity|].
    rewrite bind_ret_l. reflexivity.
Qed.

(** The decrementing loops; [block_down] below is [do_transfer] with enough fuel. *)
Definition down (type : Z) (fuel : nat) (address hw l : Z) : X unit :=
  if type =? DMA_WRITE_TRANSFER then bwd_dest_copy_to_M fuel hw address l size
  else if type =? DMA_READ_TRANSFER then bwd_dest_copy_from_M junk_value fuel address hw l size
  else ret tt.

Lemma down_none type fuel address hw : down type fuel address hw 0 = ret tt.
Proof.
  pose proof size_pos. unfold down. destruct fuel; cbn [bwd_dest_copy_to_M bwd_dest_copy_from_M];
    rewrite (proj2 (Z.leb_gt size 0)) by lia; destruct (type =? DMA_WRITE_TRANSFER), (type =? DMA_READ_TRANSFER); reflexivity.
Qed.
Lemma down_next type fuel address hw n :
  down type (S fuel) address hw (Z.of_nat (S n) * size)
  ≡ (unit_transfer type address hw size ;; down type fuel (u32 (address - size)) (hw + size) (Z.of_nat n * size)).
Proof.
  pose proof size_pos. unfold down, unit_transfer. cbn [bwd_dest_copy_to_M bwd_dest_copy_from_M].
  rewrite (proj2 (Z.leb_le size _)) by lia. replace (Z.of_nat (S n) * size - size) with (Z.of_nat n * size) by lia.
  destruct (type =? _); [reflexivity|]. destruct (type =? _); reflexivity.
Qed.

Lemma block_down type dec n : dec <> 0 -> forall fuel offset hw, offset < 2 ^ 16 -> Z.of_nat n <= offset + 1 ->
  (Z.of_nat n * size <= Z.of_nat fuel) ->
  down type fuel (dma_system_address channel page offset) hw (Z.of_nat n * size) ≡ units n type dec channel page offset hw.
Proof.
  intros Hd. pose proof size_pos as Hs. induction n as [|n IH]; intros fuel offset hw Ho Hn Hf.
  - change (Z.of_nat 0 * size) with 0. rewrite down_none. reflexivity.
  - destruct fuel as [|fuel]; [lia|]. rewrite down_next. cbn [units]. unfold next_offset at 1. rewrite (proj2 (Z.eqb_neq dec 0) Hd).
    apply bind_proper; [reflexivity|]. intros _. destruct n as [|n].
    + change (Z.of_nat 0 * size) with 0. rewrite down_none. reflexivity.
    + rewrite u16_small, address_down by lia. apply IH; lia.
Qed.

Lemma block type dec n offset hw : 0 <= offset < 2 ^ 16 ->
  (if dec =? 0 then offset + Z.of_nat n <= 2 ^ 16 else Z.of_nat n <= offset + 1) ->
  do_transfer junk_value type dec (dma_system_address channel page offset) hw (Z.of_nat n) size
  ≡ units n type dec channel page offset hw.
Proof.
  intros Ho Hn. pose proof size_pos. destruct (Z.eqb_spec dec 0) as [-> | Hd].
  - destruct n as [|n]; [|apply block_up; lia]. unfold do_transfer. change (0 =? 0) with true. cbv iota. intros s.
    change (Z.of_nat 0 * size) with 0. unfold sas_PWS, sas_PRS. destruct (type =? _); [|destruct (type =? _)]; destruct s; reflexivity.
  - unfold do_transfer. rewrite (proj2 (Z.eqb_neq dec 0) Hd). apply (block_down type dec n Hd); lia.
Qed.

(** *** The whole request *)

Definition moved (dec offset n : Z) : Z := if dec =? 0 then u16 (offset + n) else u16 (offset - n).

Lemma moved_moved dec offset n k : moved dec (moved dec offset n) k = moved dec offset (n + k).
Proof.
  unfold moved, u16. destruct (dec =? 0).
  - rewrite Zplus_mod_idemp_l. f_equal. lia.
  - rewrite Zminus_mod_idemp_l. f_equal. lia.
Qed.
Lemma next_moved dec offset : next_offset dec offset = moved dec offset 1.
Proof. reflexivity. Qed.

Lemma units_app type dec n : forall k offset hw, 0 <= offset < 2 ^ 16 ->
  units (n + k) type dec channel page offset hw
  ≡ (units n type dec channel page offset hw ;; units k type dec channel page (moved dec offset (Z.of_nat n)) (hw + Z.of_nat n * size)).
Proof.
  induction n as [|n IH]; intros k offset hw Ho.
  - cbn [units Nat.add]. rewrite bind_ret_l. change (Z.of_nat 0 * size) with 0. rewrite Z.add_0_r.
    unfold moved. rewrite Z.sub_0_r, Z.add_0_r, u16_small by lia. destruct (dec =? 0); reflexivity.
  - cbn [units Nat.add]. rewrite bind_bind. apply bind_proper; [reflexivity|]. intros _.
    rewrite IH by (unfold next_offset; destruct (_ =? _); apply u16_range). rewrite next_moved, moved_moved.
    replace (1 + Z.of_nat n) with (Z.of_nat (S n)) by lia.
    replace (hw + size + Z.of_nat n * size) with (hw + Z.of_nat (S n) * size) by lia. reflexivity.
Qed.

(** The two calls of a split transfer, or the one of another. *)
Lemma request_units type dec offset hw munch : 0 <= offset < 2 ^ 16 -> 0 <= munch <= 2 ^ 16 ->
  (if dec =? 0 then
     if 0x10000 <? offset + munch then
       do_transfer junk_value type dec (dma_system_address channel page offset) hw (0x10000 - offset) size ;;
       do_transfer junk_value type dec (dma_system_address channel page 0) (hw + (0x10000 - offset) * size) (munch - (0x10000 - offset)) size
     else do_transfer junk_value type dec (dma_system_address channel page offset) hw munch size
   else
     if offset + 1 <? munch then
       do_transfer junk_value type dec (dma_system_address channel page offset) hw (offset + 1) size ;;
       do_transfer junk_value type dec (dma_system_address channel page 0xffff) (hw + (offset + 1) * size) (munch - (offset + 1)) size
     else do_transfer junk_value type dec (dma_system_address channel page offset) hw munch size)
  ≡ units (Z.to_nat munch) type dec channel page offset hw.
Proof.
  intros Ho Hm.
  assert (HB : forall o h n, 0 <= o < 2 ^ 16 -> 0 <= n -> (if dec =? 0 then o + n <= 2 ^ 16 else n <= o + 1) ->
    do_transfer junk_value type dec (dma_system_address channel page o) h n size ≡ units (Z.to_nat n) type dec channel page o h).
  { intros o h n Ho' Hn' Hb. replace n with (Z.of_nat (Z.to_nat n)) at 1 by lia. apply block; [exact Ho' | rewrite Z2Nat.id by lia; exact Hb]. }
  assert (HS : forall n o', 0 <= n -> n <= munch -> moved dec offset n = o' -> 
    units (Z.to_nat munch) type dec channel page offset hw
    ≡ (units (Z.to_nat n) type dec channel page offset hw ;; units (Z.to_nat (munch - n)) type dec channel page o' (hw + n * size))).
  { intros n o' Hn Hle <-. replace (Z.to_nat munch) with (Z.to_nat n + Z.to_nat (munch - n))%nat by lia.
    rewrite units_app by lia. rewrite Z2Nat.id by lia. reflexivity. }
  destruct (dec =? 0) eqn:Ed.
  - destruct (Z.ltb_spec 0x10000 (offset + munch)); [|apply HB; lia].
    rewrite (HS (0x10000 - offset) 0) by (try lia; unfold moved; rewrite Ed; replace (offset + _) with (2 ^ 16) by lia; reflexivity).
    apply bind_proper; [apply HB; lia | intros _; apply HB; lia].
  - destruct (Z.ltb_spec (offset + 1) munch); [|apply HB; lia].
    rewrite (HS (offset + 1) 0xffff) by (try lia; unfold moved; rewrite Ed; replace (offset - _) with (-1) by lia; reflexivity).
    apply bind_proper; [apply HB; lia | intros _; apply HB; lia].
Qed.

End Channel.

(** *** The reference: a controller that moves one unit at a time

    After every unit the address moves up or down by one, within its 16 bits, and the
    count down; when the count passes zero the channel is at terminal count. *)
Fixpoint cycles (n : nat) (channel hw : Z) : X bool :=
  match n with
  | O => ret true
  | S n =>
      let ci := dma_physical_controller channel in
      let chan := dma_physical_channel channel in
      dcp <- get_adaptor (cntrl ci) ;;
      page <- get_adaptor (fun a => at_ 0 (page a) channel) ;;
      let offset := word_at (current_address dcp) chan in
      let count := word_at (current_count dcp) chan in
      let m := at_ 0 (mode dcp) chan in
      unit_transfer (transfer_type m) (dma_system_address channel page offset) hw (dma_unit_size channel) ;;
      mod_cntrl ci (store_current chan (next_offset (address_dec m) offset) (u16 (count - 1))) ;;
      if count =? 0 then mod_cntrl ci (at_terminal_count chan) ;; ret false
      else cycles n channel (hw + dma_unit_size channel)
  end.

(** What follows the transfer of [munch] units. *)
Definition finish (ci chan offset count : Z) : X bool :=
  mod_cntrl ci (store_current chan offset count) ;;
  if count =? 0xffff then mod_cntrl ci (at_terminal_count chan) ;; ret false else ret true.

Lemma finish_after ci chan o c offset count : (mod_cntrl ci (store_current chan o c) ;; finish ci chan offset count) ≡ finish ci chan offset count.
Proof.
  intros s. unfold finish, bind, mod_cntrl, mod_adaptor, modify. cbn [adaptor SET_adaptor]. rewrite on_cntrl_twice.
  replace (on_cntrl ci (fun x => store_current chan offset count (store_current chan o c x)) (adaptor s))
    with (on_cntrl ci (store_current chan offset count) (adaptor s)); [reflexivity|].
  unfold on_cntrl. f_equal. apply alter_ext_at. intros x. symmetry. apply store_current_twice.
Qed.

Section Request.
Context (channel : Z) (Hch : 0 <= channel < 8).
Abbreviation ci := (dma_physical_controller channel).
Abbreviation chan := (dma_physical_channel channel).

Lemma channel_split : 0 <= ci < 2 /\ 0 <= chan < 4.
Proof.
  unfold dma_physical_controller, dma_physical_channel, DMA_CONTROLLER_CHANNELS.
  split; [|apply Z.mod_pos_bound; lia]. split; [apply Z.div_pos; lia | apply Z.div_lt_upper_bound; lia].
Qed.

Lemma cycles_units n : forall hw s dcp pg offset count m,
  (0 < n)%nat -> adapt_ok (adaptor s) -> cntrl ci (adaptor s) = dcp -> at_ 0 (page (adaptor s)) channel = pg ->
  word_at (current_address dcp) chan = offset -> word_at (current_count dcp) chan = count -> at_ 0 (mode dcp) chan = m ->
  let munch := Z.min (Z.of_nat n) (count + 1) in
  cycles n channel hw s =
  (units (Z.to_nat munch) (transfer_type m) (address_dec m) channel pg offset hw ;;
   finish ci chan (moved (address_dec m) offset munch) (u16 (count - munch))) s.
Proof.
  destruct channel_split as [Hci Hchan]. induction n as [|n IH]; intros hw s dcp pg offset count m Hn HA Ed Ep Eo Ec Em munch; [lia|].
  destruct (cntrl_at _ _ HA Hci) as [_ HC]. rewrite Ed in HC.
  assert (Ho : 0 <= offset < 2 ^ 16) by (rewrite <- Eo; apply u16_range).
  assert (Hc : 0 <= count < 2 ^ 16) by (rewrite <- Ec; apply u16_range).
  cbn [cycles]. unfold bind at 1, get_adaptor at 1, gets at 1. unfold bind at 1, get_adaptor at 1, gets at 1.
  rewrite Ed, Ep, Eo, Ec, Em. replace (Z.to_nat munch) with (S (Z.to_nat (munch - 1))) by lia. cbn [units].
  rewrite bind_assoc. set (u := unit_transfer _ _ _ _). destruct (u s) as [[] s1|e s1|] eqn:Eu;
    [rewrite !(bind_ret _ _ _ _ _ Eu) | rewrite !(bind_raise _ _ _ _ _ Eu); reflexivity | unfold bind; rewrite Eu; reflexivity].
  assert (Ea : adaptor s1 = adaptor s) by exact (local_adaptor _ _ _ _ (local_unit _ _ _ _ : local u) Eu).
  rewrite next_moved. destruct (Z.eqb_spec count 0) as [E0 | E0]; [|destruct n as [|n]].
  - replace (munch - 1) with 0 by lia. change (Z.to_nat 0) with O. cbn [units]. rewrite bind_ret_l. replace munch with 1 by lia.
    unfold finish. rewrite E0. reflexivity.
  - replace (munch - 1) with 0 by lia. change (Z.to_nat 0) with O. cbn [units cycles]. rewrite bind_ret_l. replace munch with 1 by lia.
    unfold finish. rewrite (proj2 (Z.eqb_neq _ _)); [reflexivity|]. rewrite u16_small; lia.
  - unfold bind at 1, mod_cntrl at 1, mod_adaptor at 1, modify at 1.
    assert (HA2 : adapt_ok (on_cntrl ci (store_current chan (moved (address_dec m) offset 1) (u16 (count - 1))) (adaptor s1)))
      by (rewrite Ea; apply on_cntrl_ok; [exact HA | lia | intros; apply store_current_ok; assumption]).
    rewrite (IH (hw + dma_unit_size channel) _ (store_current chan (moved (address_dec m) offset 1) (u16 (count - 1)) dcp)
      pg (moved (address_dec m) offset 1) (count - 1) m); [| lia | exact HA2 | | | | |];
      try (cbn [adaptor SET_adaptor]; rewrite ?Ea; first [exact Ep | rewrite cntrl_on, Ed by assumption; reflexivity | exact Em]).
    + rewrite moved_moved. replace (Z.min (Z.of_nat (S n)) (count - 1 + 1)) with (munch - 1) by lia.
      replace (1 + (munch - 1)) with munch by lia. replace (count - 1 - (munch - 1)) with (count - munch) by lia.
      pose proof (local_swap (units (Z.to_nat (munch - 1)) (transfer_type m) (address_dec m) channel pg (moved (address_dec m) offset 1) (hw + dma_unit_size channel))
        (on_cntrl ci (store_current chan (moved (address_dec m) offset 1) (u16 (count - 1))))
        (finish ci chan (moved (address_dec m) offset munch) (u16 (count - munch))) (local_units _ _ _ _ _ _ _) s1) as HS.
      unfold bind at 1, mod_adaptor at 1, modify at 1 in HS. cbn [adaptor SET_adaptor] in HS |- *. rewrite HS.
      set (us := units _ _ _ _ _ _ _). unfold bind at 1 3. destruct (us s1); [apply finish_after | reflexivity..].
    + cbn. apply word_at_set; [apply HC | lia | unfold moved; destruct (_ =? _); apply u16_range].
    + cbn. rewrite u16_small by lia. apply word_at_set; [apply HC | lia | lia].
Qed.

(** C28 - A DMA request is a unit by unit transfer.  Whatever the memory and the mode
    of the channel, a request for [length] units, of bytes or words, does in one or two
    block moves what a controller does that moves one unit at a time and counts: the
    memory address wraps within its 64K units in both directions, the same bytes reach
    the same addresses in the same order, the registers end with the same values, the
    transfer stops at terminal count with the status bit, the mask or the reloaded
    registers of the mode, and the result says whether the device may go on. *)
Theorem request_unit_by_unit hw length s :
  adapt_ok (adaptor s) -> 0 < length < 2 ^ 16 ->
  let dcp := cntrl ci (adaptor s) in
  controller_disable (command dcp) = 0 -> mask dcp .& (1 .<< chan) = 0 ->
  dma_request junk_value channel hw length s = cycles (Z.to_nat length) channel hw s.
Proof.
  intros HA Hl dcp Hd Hm. destruct channel_split as [Hci Hchan].
  set (offset := word_at (current_address dcp) chan). set (count := word_at (current_count dcp) chan).
  assert (Ho : 0 <= offset < 2 ^ 16) by apply u16_range. assert (Hc : 0 <= count < 2 ^ 16) by apply u16_range.
  rewrite (cycles_units (Z.to_nat length) hw s dcp _ offset count _ ltac:(lia) HA eq_refl eq_refl eq_refl eq_refl eq_refl).
  rewrite Z2Nat.id by lia. unfold dma_request. rewrite (proj2 (Z.leb_gt _ _)) by (unfold DMA_ADAPTOR_CONTROLLERS; lia).
  unfold bind at 1, get_adaptor at 1, gets at 1. unfold bind at 1, get_adaptor at 1, gets at 1. fold dcp.
  rewrite Hd, Hm. cbn [Z.eqb andb]. cbv zeta. fold offset count. set (munch := if length <? count + 1 then length else count + 1).
  replace (Z.min length (count + 1)) with munch by (unfold munch; destruct (Z.ltb_spec length (count + 1)); lia).
  assert (Hmu : 0 <= munch <= 2 ^ 16) by (unfold munch; destruct (Z.ltb_spec length (count + 1)); lia).
  apply bind_proper; [apply request_units; assumption|]. intros _. reflexivity.
Qed.

End Request.

(** ** The type of the registers is an invariant *)

Definition keeps_ok {A} (m : X A) : Prop :=
  forall s x s', adapt_ok (adaptor s) -> m s = Ret x s' -> adapt_ok (adaptor s').

Lemma keeps_ok_bind {A B} (m : X A) (k : A -> X B) : keeps_ok m -> (forall x, keeps_ok (k x)) -> keeps_ok (bind m k).
Proof.
  intros Hm Hk s x s' HA. unfold bind. destruct (m s) as [y s1|e s1|] eqn:E1; try discriminate.
  apply Hk. exact (Hm _ _ _ HA E1).
Qed.
Lemma keeps_ok_local {A} (m : X A) : local m -> keeps_ok m.
Proof. intros HL s x s' HA E1. rewrite (local_adaptor _ _ _ _ HL E1). exact HA. Qed.
Lemma keeps_ok_gets {A} (f : board V D -> A) : keeps_ok (gets f).
Proof. intros s x s' HA [= _ <-]. exact HA. Qed.
Lemma keeps_ok_cntrl ci f : 0 <= ci -> (forall c, cntrl_ok c -> cntrl_ok (f c)) -> keeps_ok (mod_cntrl ci f).
Proof. intros Hc Hf s x s' HA [= _ <-]. apply on_cntrl_ok; assumption. Qed.

Lemma local_undefined {A} : local (undefined : X A).
Proof. split; [reflexivity | discriminate]. Qed.
Lemma local_to_M fuel : forall a b l n, local (bwd_dest_copy_to_M fuel a b l n).
Proof.
  induction fuel as [|fuel IH]; intros a b l n; cbn; destruct (_ <=? _); auto using local_undefined, local_ret.
  apply local_bind; [apply local_PWS | auto].
Qed.
Lemma local_from_M fuel : forall a b l n, local (bwd_dest_copy_from_M junk_value fuel a b l n).
Proof.
  induction fuel as [|fuel IH]; intros a b l n; cbn; destruct (_ <=? _); auto using local_undefined, local_ret.
  apply local_bind; [apply local_PRS | auto].
Qed.
Lemma local_do_transfer t dec a hw n z : local (do_transfer junk_value t dec a hw n z).
Proof.
  unfold do_transfer. destruct (t =? _); [|destruct (t =? _); [|apply local_ret]];
    destruct (dec =? 0); auto using local_PWS, local_PRS, local_to_M, local_from_M.
Qed.

Lemma set_at2_ok l i j x : words_ok l -> byte x -> words_ok (set_at2 i j x l).
Proof.
  intros [HL HF] Hx. unfold set_at2. split; [rewrite length_alter; exact HL|]. apply Forall_alter; [exact HF|].
  intros b Hb [H2 HB]. unfold set_at. rewrite length_insert. split; [exact H2 | apply Forall_insert; assumption].
Qed.
Lemma at2_byte l i j : words_ok l -> byte (at2 l i j).
Proof.
  intros [_ HF]. unfold at2, at_. destruct (l !! Z.to_nat i) as [w|] eqn:E1; cbn; [|vm_compute; split; congruence].
  destruct (Forall_lookup_1 _ _ _ _ HF E1) as [_ HB]. destruct (w !! Z.to_nat j) as [b|] eqn:E2; cbn; [|vm_compute; split; congruence].
  exact (Forall_lookup_1 _ _ _ _ HB E2).
Qed.
Lemma byte_u8 z : byte (u8 z).
Proof. apply u8_range. Qed.
Lemma byte_0 : byte 0.
Proof. vm_compute. split; congruence. Qed.
Hint Resolve set_at2_ok at2_byte byte_u8 byte_0 : core.

Lemma cntrl_outb_ok r v c : byte v -> cntrl_ok c -> cntrl_ok (cntrl_outb r v c).
Proof.
  intros Hv HC. assert (HF : forall x, cntrl_ok x -> cntrl_ok (flip x)).
  { intros x []. split; cbn; try assumption. destruct ok_first_last0 as [-> | ->]; auto. }
  destruct r; cbn [cntrl_outb]; try apply HF; try exact HC; destruct HC; try (destruct (negb _));
    (split; cbn; auto; try (vm_compute; split; congruence)).
  destruct ok_mode0 as [HL HB]. unfold set_at. rewrite length_insert. split; [exact HL | apply Forall_insert; assumption].
Qed.

Lemma status_byte x y z : byte z -> byte (SET_terminal_count x z) /\ byte (SET_request_bits y z).
Proof.
  unfold byte, SET_terminal_count, SET_request_bits. intros Hz.
  assert (HL : forall a k, 0 <= k -> 0 <= a .& (2 ^ k - 1) < 2 ^ k) by (intros; rewrite land_mask by lia; apply Z.mod_pos_bound; lia).
  pose proof (HL x 4 ltac:(lia)) as Hx. pose proof (HL y 4 ltac:(lia)) as Hy. change (2 ^ 4 - 1) with 0xf in *.
  split; (apply lor_range; [lia | apply land_range; lia | ]); [lia|]. rewrite Z.shiftl_mul_pow2, u32_small by lia. lia.
Qed.

Lemma reload_ok chan from to : words_ok from -> words_ok to -> words_ok (reload chan from to).
Proof. intros. unfold reload. auto. Qed.

Lemma at_terminal_count_ok chan c : cntrl_ok c -> cntrl_ok (at_terminal_count chan c).
Proof.
  intros []. unfold at_terminal_count. cbv zeta.
  assert (HS : byte (SET_request_bits (request_bits (SET_terminal_count (terminal_count (status c) .| (1 .<< chan)) (status c)) .& Z.lnot (1 .<< chan))
                      (SET_terminal_count (terminal_count (status c) .| (1 .<< chan)) (status c)))).
  { apply (status_byte 0), (status_byte _ 0). assumption. }
  destruct (negb _); split; cbn; auto using reload_ok.
Qed.

Lemma request_ok channel hw length : 0 <= channel -> keeps_ok (dma_request junk_value channel hw length).
Proof.
  intros Hc. assert (0 <= dma_physical_controller channel) by (apply Z.div_pos; unfold DMA_CONTROLLER_CHANNELS; lia).
  unfold dma_request. destruct (_ <=? _); [apply keeps_ok_local, local_undefined|].
  apply keeps_ok_bind; [apply keeps_ok_gets|]. intros dcp. apply keeps_ok_bind; [apply keeps_ok_gets|]. intros pg.
  destruct (_ && _); [|apply keeps_ok_local, local_ret]. cbv zeta.
  apply keeps_ok_bind.
  - apply keeps_ok_local. destruct (_ =? _); destruct (_ <? _); auto using local_bind, local_do_transfer.
  - intros _. apply keeps_ok_bind; [apply keeps_ok_cntrl; auto using store_current_ok|]. intros _.
    destruct (_ =? _); [|apply keeps_ok_local, local_ret].
    apply keeps_ok_bind; [apply keeps_ok_cntrl; auto using at_terminal_count_ok | intros; apply keeps_ok_local, local_ret].
Qed.

End Units.

(** What the sound card's correction of the position is asked for. *)
Class SoundOk (V D : Type) `{Sound V D} := {
  position_ok : keeps_ok (SbGetDMAPosition : M exn (board V D) unit)
}.

(** A snapshot with arrays of the declared sizes and element types; the flip-flops are
    [uint32_t]. *)
Record state_ok (st : softpc_device_dma_state) : Prop := {
  so_words l : In l [st_base_address st; st_base_count st; st_current_address st; st_current_count st; st_temporary_address st; st_temporary_count st] ->
    length l = 2%nat /\ Forall words_ok l;
  so_bytes l : In l [st_status st; st_command st; st_temporary st; st_mask st; st_request st] -> length l = 2%nat /\ Forall byte l;
  so_mode : length (st_mode st) = 2%nat /\ Forall (fun l => length l = 4%nat /\ Forall byte l) (st_mode st);
  so_flip : length (st_first_last st) = 2%nat /\ Forall (fun x => 0 <= x < 2 ^ 32) (st_first_last st);
  so_page : length (st_page st) = 16%nat /\ Forall byte (st_page st)
}.

Section Machine.
Context {V D : Type} `{Mem.Handlers V} (junk_value : Z) `{SoundOk V D}.

(** What happens to the adaptor: a reset, a port access of the guest, a request of a
    device, a snapshot read back, and anything that does not concern it. *)
Inductive dma_step : board V D -> board V D -> Prop :=
  | by_post s : dma_step s (SET_adaptor (dma_post (adaptor s)) s)
  | by_inb port value r s s' : dma_inb port value s = Ret r s' -> dma_step s s'
  | by_outb port value s : byte value -> dma_step s (SET_adaptor (dma_outb port value (adaptor s)) s)
  | by_page_outb port value s : byte value -> dma_step s (SET_adaptor (dma_page_outb port value (adaptor s)) s)
  | by_request channel hw length r s s' : 0 <= channel -> dma_request junk_value channel hw length s = Ret r s' -> dma_step s s'
  | by_restore st s : state_ok st -> dma_step s (SET_adaptor (snd (softpc_device_snapshot_restore_dma st (adaptor s))) s)
  | by_others s s' : adaptor s' = adaptor s -> dma_step s s'.

Lemma adapt0_ok : adapt_ok adapt0.
Proof.
  assert (HB : byte 0) by (vm_compute; split; congruence).
  assert (HW : words_ok zero_words) by (split; [reflexivity | repeat constructor; apply HB]).
  assert (HC : cntrl_ok cntrl0) by (split; cbn; auto; split; [reflexivity | repeat constructor; apply HB]).
  split; (split; [reflexivity|]); repeat constructor; first [exact HC | apply HB].
Qed.

Lemma post_ok a : adapt_ok a -> adapt_ok (dma_post a).
Proof.
  intros HA. assert (HC : forall c, cntrl_ok c -> cntrl_ok (master_clear c)).
  { intros c []. split; cbn; auto; vm_compute; split; congruence. }
  assert (HM : forall ci chan c, cntrl_ok c -> cntrl_ok (post_mode ci chan c)).
  { intros ci chan c []. split; cbn; auto. destruct ok_mode0 as [HL HB]. unfold set_at. rewrite length_insert.
    split; [exact HL|]. apply Forall_insert; [exact HB|]. destruct (_ =? _); vm_compute; split; congruence. }
  unfold dma_post. cbv zeta. cbn [fold_left]. repeat (apply on_cntrl_ok; [|lia|auto]). exact HA.
Qed.

Lemma outb_ok port v a : byte v -> adapt_ok a -> adapt_ok (dma_outb port v a).
Proof.
  intros Hv HA. apply on_cntrl_ok; [exact HA | unfold port_controller; destruct (_ <=? _); vm_compute; congruence|].
  intros c. apply cntrl_outb_ok, Hv.
Qed.

Lemma page_outb_ok port v a : byte v -> adapt_ok a -> adapt_ok (dma_page_outb port v a).
Proof.
  intros Hv [HC [HL HB]]. unfold dma_page_outb. destruct (page_channel _) as [ch|]; [|split; auto].
  split; [exact HC|]. cbn. unfold set_at. rewrite length_insert. auto using Forall_insert.
Qed.

Lemma keeps_ok_if {A} (b : bool) (m m' : M exn (board V D) A) : keeps_ok m -> keeps_ok m' -> keeps_ok (if b then m else m').
Proof. destruct b; auto. Qed.

Lemma inb_ok port v : keeps_ok (dma_inb port v : M exn (board V D) Z).
Proof.
  assert (HR : forall A (x : A), keeps_ok (ret x : M exn (board V D) A)) by (intros; apply keeps_ok_local, local_ret).
  assert (HF : forall ci f, 0 <= ci -> (forall c, cntrl_ok c -> cntrl_ok (f c)) -> keeps_ok (mod_cntrl ci f : M exn (board V D) unit))
    by (intros; apply keeps_ok_cntrl; assumption).
  assert (Hci : 0 <= port_controller port) by (unfold port_controller; destruct (_ <=? _); vm_compute; congruence).
  assert (HFl : forall c, cntrl_ok c -> cntrl_ok (flip c)).
  { intros x []. split; cbn; try assumption. destruct ok_first_last0 as [-> | ->]; auto. }
  unfold dma_inb. cbv zeta. destruct (decode_port _); try apply HR; try apply keeps_ok_gets.
  1, 2: apply keeps_ok_bind; [apply keeps_ok_bind; [apply (keeps_ok_gets (fun s => s)) | intros s; apply keeps_ok_if; [apply position_ok | apply HR]]|];
    intros _; apply keeps_ok_bind; [apply keeps_ok_gets|]; intros x; apply keeps_ok_bind; auto.
  apply keeps_ok_bind; [apply keeps_ok_gets|]. intros x. apply keeps_ok_bind; [|auto]. apply HF; [exact Hci|].
  intros c []. split; cbn; auto. apply (status_byte 0 0). assumption.
Qed.

Lemma at_in {A} (d : A) (P : A -> Prop) l i : length l = 2%nat -> Forall P l -> 0 <= i < 2 -> P (at_ d l i).
Proof.
  intros HL HF Hi. destruct (lookup_lt_is_Some_2 l (Z.to_nat i)) as [x Hx]; [lia|]. unfold at_. rewrite Hx.
  exact (Forall_lookup_1 _ _ _ _ HF Hx).
Qed.

Lemma restore_cntrl_ok st ci : state_ok st -> 0 <= ci < 2 -> at_ 0 (st_first_last st) ci <= 1 -> cntrl_ok (restore_cntrl st ci).
Proof.
  intros [HW HB [HM1 HM2] [HF1 HF2] _] Hc Hle.
  split; cbn; try (edestruct HW as [? ?]; [|apply at_in; [eassumption..|exact Hc]]; cbn; tauto);
    try (edestruct HB as [? ?]; [|apply at_in; [eassumption..|exact Hc]]; cbn; tauto).
  pose proof (at_in 0 _ _ _ HF1 HF2 Hc) as Hr. cbv beta in Hr. lia.
Qed.

Lemma restore_ok st a : state_ok st -> adapt_ok a -> adapt_ok (snd (softpc_device_snapshot_restore_dma st a)).
Proof.
  intros HS HA. assert (HR : forall cs a, Forall (fun ci => 0 <= ci < 2) cs -> adapt_ok a -> adapt_ok (snd (restore_controllers st cs a))).
  { induction cs as [|ci cs IH]; intros a' HC HA'; cbn [restore_controllers]; [exact HA'|].
    apply Forall_cons in HC as [Hci HC]. destruct (Z.ltb_spec 1 (at_ 0 (st_first_last st) ci)); [exact HA'|]. apply IH; [exact HC|].
    apply on_cntrl_ok; [exact HA' | lia | intros _ _; apply restore_cntrl_ok; assumption]. }
  unfold softpc_device_snapshot_restore_dma. specialize (HR [0; 1] a ltac:(repeat constructor; lia) HA).
  destruct (restore_controllers st [0; 1] a) as [[] a']; cbn in *; [|exact HR].
  destruct HR as [HC _]. split; [exact HC | apply HS].
Qed.

(** C29 - The registers of the DMA controllers keep their types.  From the adaptor as the
    program starts with it, whatever the guest writes to the ports, the devices request
    and snapshots restore, in any order, every address, count, status, mode, mask and
    page register is a byte, the arrays keep their sizes, and the flip-flop that indexes
    the halves of a word is 0 or 1. *)
Theorem registers_typed s0 s :
  adaptor s0 = adapt0 -> rtc dma_step s0 s -> adapt_ok (adaptor s).
Proof.
  intros E0 HS. assert (HA : adapt_ok (adaptor s0)) by (rewrite E0; exact adapt0_ok).
  clear E0. induction HS as [s | s1 s2 s3 Hst _ IH]; [exact HA|]. apply IH. clear IH.
  destruct Hst as [s1|port v r s1 s2 E1|port v s1 Hv|port v s1 Hv|ch hw len r s1 s2 Hc E1|st s1 Hst|s1 s2 E1].
  - apply post_ok, HA.
  - exact (inb_ok _ _ _ _ _ HA E1).
  - apply outb_ok; assumption.
  - apply page_outb_ok; assumption.
  - exact (request_ok junk_value _ _ _ Hc _ _ _ HA E1).
  - apply restore_ok; assumption.
  - rewrite E1. exact HA.
Qed.

End Machine.

(** ** Programming a channel through the ports *)

Definition address_port (ch : Z) : Z := if ch <? 4 then 2 * ch else 0xC0 + 4 * (ch - 4).
Definition count_port (ch : Z) : Z := if ch <? 4 then 2 * ch + 1 else 0xC2 + 4 * (ch - 4).
Definition flip_flop_port (ch : Z) : Z := if ch <? 4 then 0x0C else 0xD8.
Definition page_port (ch : Z) : Z := at_ 0 [0x87; 0x83; 0x81; 0x82; 0x8f; 0x8b; 0x89; 0x8a] ch.

(** An adaptor as far as its arrays are concerned. *)
Lemma words_shape l : words_ok l -> exists a0 a1 b0 b1 c0 c1 d0 d1, l = [[a0; a1]; [b0; b1]; [c0; c1]; [d0; d1]].
Proof.
  intros [HL HF]. destruct l as [|a [|b [|c [|d [|]]]]]; try discriminate. clear HL.
  assert (HP : forall w, length w = 2%nat /\ Forall byte w -> exists x y, w = [x; y]).
  { intros [|x [|y [|]]] [HL _]; try discriminate. eauto. }
  apply Forall_cons in HF as [[a0 [a1 ->]]%HP HF]. apply Forall_cons in HF as [[b0 [b1 ->]]%HP HF].
  apply Forall_cons in HF as [[c0 [c1 ->]]%HP HF]. apply Forall_cons in HF as [[d0 [d1 ->]]%HP _]. eauto 10.
Qed.

Section Ports.
Context {V D : Type} `{Mem.Handlers V} `{Sound V D} (unset : Z).
Abbreviation X := (M exn (board V D)).
#[local] Existing Instance HasIos_board.
#[local] Instance board_adapters : Ios.Adapters exn (board V D) := Adapters_board unset.

Lemma connect_run n : forall p adapter (s : board V D), 0 <= p -> p + Z.of_nat n <= 2 ^ 16 ->
  exists b, connect_ports n p adapter s = Ret tt (SET_bus b s)
  /\ Ios.Ios_function b = Ios.Ios_function (bus s)
  /\ forall x, Ios.Ios_in_adapter_table b x = (if (p <=? x) && (x <? p + Z.of_nat n) then adapter else Ios.Ios_in_adapter_table (bus s) x)
            /\ Ios.Ios_out_adapter_table b x = (if (p <=? x) && (x <? p + Z.of_nat n) then adapter else Ios.Ios_out_adapter_table (bus s) x).
Proof.
  induction n as [|n IH]; intros p adapter s Hp Hn.
  - exists (bus s). split; [destruct s; reflexivity|]. split; [reflexivity|]. intros x.
    replace ((p <=? x) && (x <? p + Z.of_nat 0)) with false by lia. auto.
  - cbn [connect_ports]. set (b1 := Ios.SET_out_table p adapter (Ios.SET_in_table p adapter (bus s))).
    assert (E1 : (Ios.io_connect_port p adapter Ios.IO_READ_WRITE : X unit) s = Ret tt (SET_bus b1 s)).
    { unfold Ios.io_connect_port, Ios.PC_IO_MEM_SIZE. change (0x10000 - 1) with (2 ^ 16 - 1).
      rewrite land_mask, Z.mod_small by lia. reflexivity. }
    rewrite (bind_ret _ _ _ _ _ E1). destruct (IH (p + 1) adapter (SET_bus b1 s) ltac:(lia) ltac:(lia)) as (b & E2 & E3 & E4).
    exists b. split; [exact E2|]. split; [exact E3|]. intros x. destruct (E4 x) as [-> ->]. cbn. unfold Ios.update.
    destruct (Z.eqb_spec x p) as [-> | Hx].
    + replace ((p + 1 <=? p) && _) with false by lia. replace ((p <=? p) && _) with true by lia. auto.
    + replace ((p <=? x) && (x <? p + Z.of_nat (S n))) with ((p + 1 <=? x) && (x <? p + 1 + Z.of_nat n)) by lia. auto.
Qed.

(** Which adaptor answers on a port, and with which routine. *)
Definition attached (b : Ios.ios) : Prop :=
  (forall p, 0 <= p <= 0x1f \/ 0xc0 <= p <= 0xdf -> Ios.Ios_in_adapter_table b p = DMA_ADAPTOR /\ Ios.Ios_out_adapter_table b p = DMA_ADAPTOR)
  /\ (forall p, 0x80 <= p <= 0x9f -> Ios.Ios_in_adapter_table b p = DMA_PAGE_ADAPTOR /\ Ios.Ios_out_adapter_table b p = DMA_PAGE_ADAPTOR)
  /\ Forall (fun a => Ios.Ios_function b Ios.INB a = Ios.dev a /\ Ios.Ios_function b Ios.OUTB a = Ios.dev a) [DMA_ADAPTOR; DMA_PAGE_ADAPTOR].

Lemma init_attached (s : board V D) : exists s', dma_init s = Ret tt s' /\ attached (bus s') /\ adaptor s' = adaptor s.
Proof.
  unfold dma_init.
  assert (HD : forall a (s0 : board V D), a < Ios.IO_MAX_NUMBER_ADAPTORS -> exists b, (Ios.io_define_inb a (Ios.dev a) : X unit) s0 = Ret tt (SET_bus b s0)
    /\ Ios.Ios_in_adapter_table b = Ios.Ios_in_adapter_table (bus s0) /\ Ios.Ios_out_adapter_table b = Ios.Ios_out_adapter_table (bus s0)
    /\ forall x, Ios.Ios_function b Ios.INB x = (if x =? a then Ios.dev a else Ios.Ios_function (bus s0) Ios.INB x)
              /\ Ios.Ios_function b Ios.OUTB x = Ios.Ios_function (bus s0) Ios.OUTB x).
  { intros a s0 Ha. unfold Ios.io_define_inb, Ios.define. rewrite (proj2 (Z.ltb_lt _ _) Ha). eexists. split; [reflexivity|]. auto. }
  assert (HO : forall a (s0 : board V D), a < Ios.IO_MAX_NUMBER_ADAPTORS -> exists b, (Ios.io_define_outb a (Ios.dev a) : X unit) s0 = Ret tt (SET_bus b s0)
    /\ Ios.Ios_in_adapter_table b = Ios.Ios_in_adapter_table (bus s0) /\ Ios.Ios_out_adapter_table b = Ios.Ios_out_adapter_table (bus s0)
    /\ forall x, Ios.Ios_function b Ios.OUTB x = (if x =? a then Ios.dev a else Ios.Ios_function (bus s0) Ios.OUTB x)
              /\ Ios.Ios_function b Ios.INB x = Ios.Ios_function (bus s0) Ios.INB x).
  { intros a s0 Ha. unfold Ios.io_define_outb, Ios.define. rewrite (proj2 (Z.ltb_lt _ _) Ha). eexists. split; [reflexivity|]. auto. }
  set (s0 := SET_lim_active 0 s). change (modify (SET_lim_active 0) s) with (Ret (E := exn) tt s0).
  rewrite (bind_ret _ _ s tt s0 eq_refl).
  destruct (HD DMA_ADAPTOR s0 ltac:(reflexivity)) as (b1 & R1 & I1 & O1 & F1). rewrite (bind_ret _ _ _ _ _ R1).
  destruct (HO DMA_ADAPTOR (SET_bus b1 s0) ltac:(reflexivity)) as (b2 & R2 & I2 & O2 & F2). rewrite (bind_ret _ _ _ _ _ R2).
  destruct (connect_run 32 0 DMA_ADAPTOR (SET_bus b2 (SET_bus b1 s0)) ltac:(lia) ltac:(lia)) as (b3 & R3 & F3 & T3). rewrite (bind_ret _ _ _ _ _ R3).
  match type of R3 with _ = Ret _ ?s3 => destruct (connect_run 32 0xc0 DMA_ADAPTOR s3 ltac:(lia) ltac:(lia)) as (b4 & R4 & F4 & T4) end.
  rewrite (bind_ret _ _ _ _ _ R4).
  match type of R4 with _ = Ret _ ?s4 => destruct (HD DMA_PAGE_ADAPTOR s4 ltac:(reflexivity)) as (b5 & R5 & I5 & O5 & F5) end.
  rewrite (bind_ret _ _ _ _ _ R5).
  match type of R5 with _ = Ret _ ?s5 => destruct (HO DMA_PAGE_ADAPTOR s5 ltac:(reflexivity)) as (b6 & R6 & I6 & O6 & F6) end.
  rewrite (bind_ret _ _ _ _ _ R6).
  match type of R6 with _ = Ret _ ?s6 => destruct (connect_run 32 0x80 DMA_PAGE_ADAPTOR s6 ltac:(lia) ltac:(lia)) as (b7 & R7 & F7 & T7) end.
  eexists. split; [exact R7|]. split; [|reflexivity]. cbn [bus SET_bus] in *. split; [|split].
  - intros p Hp. destruct (T7 p) as [-> ->]. replace ((0x80 <=? p) && (p <? 0x80 + Z.of_nat 32)) with false by lia.
    rewrite I6, O6, I5, O5. destruct (T4 p) as [-> ->]. destruct (T3 p) as [-> ->].
    destruct (_ && _) eqn:Ea; [auto|]. replace ((0 <=? p) && (p <? 0 + Z.of_nat 32)) with true by lia. auto.
  - intros p Hp. destruct (T7 p) as [-> ->]. replace ((0x80 <=? p) && (p <? 0x80 + Z.of_nat 32)) with true by lia. auto.
  - rewrite F7. repeat (apply Forall_cons; split); [| |constructor].
    + rewrite (proj1 (F6 _)), (proj2 (F6 _)), (proj1 (F5 _)), (proj2 (F5 _)), F4, F3, (proj1 (F2 _)), (proj2 (F2 _)), (proj1 (F1 _)). auto.
    + rewrite (proj1 (F6 _)), (proj2 (F6 _)), (proj1 (F5 _)). auto.
Qed.

(** An OUT instruction on the adaptor's ports is the call of its routine. *)
Lemma bus_routine_run k p adapter (s : board V D) : 0 <= p < 2 ^ 16 -> adapter = DMA_ADAPTOR \/ adapter = DMA_PAGE_ADAPTOR ->
  Ios.adapter_of k (bus s) p = adapter -> (Ios.routine k p : X Ios.fptr) s = Ret (Ios.Ios_function (bus s) k adapter) s.
Proof.
  intros Hp Ha E1. unfold Ios.routine, Ios.PC_IO_MEM_SIZE. change (0x10000 - 1) with (2 ^ 16 - 1).
  rewrite land_mask, Z.mod_small by lia. unfold bind, Ios.get_ios, gets. cbn [Ios.the_ios HasIos_board].
  rewrite E1. destruct Ha as [-> | ->]; reflexivity.
Qed.

Lemma out_dma p v (s : board V D) : attached (bus s) -> 0 <= p <= 0x1f \/ 0xc0 <= p <= 0xdf -> byte v ->
  Ios.OUT8 p v s = Ret tt (SET_adaptor (dma_outb p v (adaptor s)) s).
Proof.
  intros (HP & _ & HF) Hp Hv. apply Forall_cons in HF as [[_ HF] _]. unfold byte in Hv.
  unfold Ios.OUT8. rewrite u16_small, u8_small by lia. cbv zeta.
  rewrite (bind_ret _ _ _ _ _ (bus_routine_run Ios.OUTB p DMA_ADAPTOR s ltac:(lia) (or_introl eq_refl) (proj2 (HP p Hp)))), HF. reflexivity.
Qed.
Lemma out_page p v (s : board V D) : attached (bus s) -> 0x80 <= p <= 0x9f -> byte v ->
  Ios.OUT8 p v s = Ret tt (SET_adaptor (dma_page_outb p v (adaptor s)) s).
Proof.
  intros (_ & HP & HF) Hp Hv. apply Forall_cons in HF as [_ HF]. apply Forall_cons in HF as [[_ HF] _]. unfold byte in Hv.
  unfold Ios.OUT8. rewrite u16_small, u8_small by lia. cbv zeta.
  rewrite (bind_ret _ _ _ _ _ (bus_routine_run Ios.OUTB p DMA_PAGE_ADAPTOR s ltac:(lia) (or_intror eq_refl) (proj2 (HP p Hp)))), HF. reflexivity.
Qed.

(** The instructions that program a channel. *)
Definition program (ch lo hi clo chi pg : Z) : X unit :=
  Ios.OUT8 (flip_flop_port ch) 0 ;;
  Ios.OUT8 (address_port ch) lo ;; Ios.OUT8 (address_port ch) hi ;;
  Ios.OUT8 (count_port ch) clo ;; Ios.OUT8 (count_port ch) chi ;;
  Ios.OUT8 (page_port ch) pg.

(** What they leave in the adaptor. *)
Definition programmed (ch lo hi clo chi pg : Z) (a : DMA_ADAPT) : DMA_ADAPT :=
  dma_page_outb (page_port ch) pg
    (dma_outb (count_port ch) chi (dma_outb (count_port ch) clo
      (dma_outb (address_port ch) hi (dma_outb (address_port ch) lo (dma_outb (flip_flop_port ch) 0 a))))).

Lemma channel_cases ch : 0 <= ch < 8 -> ch <> DMA_CASCADE_CHANNEL ->
  ch = 0 \/ ch = 1 \/ ch = 2 \/ ch = 3 \/ ch = 5 \/ ch = 6 \/ ch = 7.
Proof. unfold DMA_CASCADE_CHANNEL. lia. Qed.

Lemma program_run ch lo hi clo chi pg (s : board V D) :
  0 <= ch < 8 -> ch <> DMA_CASCADE_CHANNEL -> byte lo -> byte hi -> byte clo -> byte chi -> byte pg -> attached (bus s) ->
  program ch lo hi clo chi pg s = Ret tt (SET_adaptor (programmed ch lo hi clo chi pg (adaptor s)) s).
Proof.
  intros Hch Hc Hlo Hhi Hclo Hchi Hpg HB. unfold program.
  assert (HP : forall p, In p [flip_flop_port ch; address_port ch; count_port ch] -> 0 <= p <= 0x1f \/ 0xc0 <= p <= 0xdf).
  { unfold flip_flop_port, address_port, count_port, DMA_CASCADE_CHANNEL in *. intros p Hin. cbn in Hin. destruct (ch <? 4) eqn:E1; lia. }
  assert (HG : 0x80 <= page_port ch <= 0x9f)
    by (destruct (channel_cases ch Hch Hc) as [-> | [-> | [-> | [-> | [-> | [-> | ->]]]]]]; vm_compute; split; congruence).
  do 5 (erewrite bind_ret; [|apply out_dma; [exact HB | apply HP; cbn; tauto | auto using byte_0]]).
  rewrite out_page by assumption. reflexivity.
Qed.

(** Both halves of a word written through the flip-flop. *)
Definition set_halves (chan lo hi : Z) (l : list (list Z)) : list (list Z) := set_at2 chan 1 hi (set_at2 chan 0 lo l).

Lemma halves_at l chan lo hi : words_ok l -> 0 <= chan < 4 -> byte lo -> byte hi ->
  word_at (set_halves chan lo hi l) chan = lo + 2 ^ 8 * hi.
Proof.
  intros HW Hc Hlo Hhi. destruct (words_at l chan HW Hc) as (x & y & E1 & _).
  unfold word_at, at2, at_, set_halves, set_at2. rewrite !list_lookup_alter_eq, E1. cbn. apply word_bytes; assumption.
Qed.
Lemma halves_other l chan chan' lo hi : 0 <= chan -> 0 <= chan' -> chan <> chan' ->
  word_at (set_halves chan lo hi l) chan' = word_at l chan'.
Proof.
  intros Hc Hc' Hn. unfold word_at, at2, at_, set_halves, set_at2. rewrite !list_lookup_alter_ne by lia. reflexivity.
Qed.

Definition programmed_cntrl (chan lo hi clo chi : Z) (c : DMA_CNTRL) : DMA_CNTRL :=
  mkDMA_CNTRL (set_halves chan lo hi (base_address c)) (set_halves chan clo chi (base_count c))
    (set_halves chan lo hi (current_address c)) (set_halves chan clo chi (current_count c))
    (temporary_address c) (temporary_count c) (status c) (command c) (temporary c) (mode c) (mask c) (request c) 0.

Lemma programmed_eq ch lo hi clo chi pg a : 0 <= ch < 8 -> ch <> DMA_CASCADE_CHANNEL ->
  programmed ch lo hi clo chi pg a =
  SET_page (set_at ch pg (page a))
    (on_cntrl (dma_physical_controller ch) (programmed_cntrl (dma_physical_channel ch) lo hi clo chi) a).
Proof.
  intros Hch Hc. destruct a as [cs ps].
  destruct (channel_cases ch Hch Hc) as [-> | [-> | [-> | [-> | [-> | [-> | ->]]]]]];
    destruct cs as [|? [|? cs]]; reflexivity.
Qed.

(** A guest programs a DMA channel through the bus.  Once the adaptor has put its
    ports on the bus, clearing the flip-flop and writing two bytes to the address port,
    two to the count port and one to the page port of a channel, by OUT instructions,
    makes the adaptor report exactly that address, in bytes or words as the channel has
    them, and that count to the device of the channel, and leaves what it reports for
    every other channel unchanged. *)
Theorem channel_programming ch lo hi clo chi pg (s : board V D) :
  adapt_ok (adaptor s) -> 0 <= ch < 8 -> ch <> DMA_CASCADE_CHANNEL ->
  byte lo -> byte hi -> byte clo -> byte chi -> byte pg ->
  exists s' s'', dma_init s = Ret tt s' /\ program ch lo hi clo chi pg s' = Ret tt s''
  /\ dma_enquire ch (adaptor s'') =
       (if ch <? 4 then pg * 2 ^ 16 + (lo + 2 ^ 8 * hi) else (pg / 2) * 2 ^ 17 + 2 * (lo + 2 ^ 8 * hi), clo + 2 ^ 8 * chi)
  /\ forall ch', 0 <= ch' < 8 -> ch' <> ch -> dma_enquire ch' (adaptor s'') = dma_enquire ch' (adaptor s).
Proof.
  intros HA Hch Hc Hlo Hhi Hclo Hchi Hpg. destruct (init_attached s) as (s' & E1 & HB & EA). exists s'.
  eexists. split; [exact E1|]. split; [apply program_run; assumption|]. cbn [adaptor SET_adaptor]. rewrite EA, programmed_eq by assumption.
  destruct (channel_split ch Hch) as [Hci Hchan]. destruct (cntrl_at _ _ HA Hci) as [_ HC]. destruct HA as [HCs [HPl HPb]].
  set (ci := dma_physical_controller ch) in *. set (chan := dma_physical_channel ch) in *. split.
  - unfold dma_enquire. fold ci chan. set (a' := SET_page _ _).
    assert (E2 : cntrl ci a' = programmed_cntrl chan lo hi clo chi (cntrl ci (adaptor s))).
    { apply (cntrl_on (adaptor s) ci); [split; auto | exact Hci]. }
    rewrite E2. cbn [current_address current_count programmed_cntrl].
    rewrite !halves_at by (try assumption; apply HC). f_equal.
    replace (at_ 0 (page a') ch) with pg by (unfold at_, a', set_at; cbn; rewrite list_lookup_insert_eq by lia; reflexivity).
    unfold byte in *. rewrite system_address by lia. unfold top, dma_unit_size. destruct (ch <? 4).
    + change 0xff with (2 ^ 8 - 1). rewrite land_mask, Z.mod_small by lia. lia.
    + rewrite even_page by lia. lia.
  - intros ch' Hch' Hne. destruct (channel_split ch' Hch') as [Hci' Hchan']. unfold dma_enquire.
    replace (at_ 0 (page (SET_page _ _)) ch') with (at_ 0 (page (adaptor s)) ch')
      by (unfold at_, set_at; cbn; rewrite list_lookup_insert_ne by lia; reflexivity).
    destruct (Z.eq_dec (dma_physical_controller ch') ci) as [Ec | Ec].
    + rewrite Ec. match goal with |- context [cntrl ci (SET_page ?p ?b)] => change (cntrl ci (SET_page p b)) with (cntrl ci b) end.
      rewrite cntrl_on by (try assumption; split; auto). cbn [current_address current_count programmed_cntrl].
      assert (chan <> dma_physical_channel ch').
      { unfold ci, chan, dma_physical_controller, dma_physical_channel, DMA_CONTROLLER_CHANNELS in *.
        pose proof (Z.div_mod ch 4 ltac:(lia)). pose proof (Z.div_mod ch' 4 ltac:(lia)). lia. }
      rewrite !halves_other by lia. reflexivity.
    + match goal with |- context [cntrl ?c (SET_page ?p ?b)] => replace (cntrl c (SET_page p b)) with (cntrl c (adaptor s)) end; [reflexivity|].
      unfold cntrl, at_, on_cntrl. cbn. rewrite list_lookup_alter_ne by lia. reflexivity.
Qed.

End Ports.

(** ** Snapshots and boundary cases *)

(** A snapshot brings the adaptor back, whatever its state by then. *)
Lemma dma_snapshot_round_trip a b : adapt_ok a -> adapt_ok b ->
  softpc_device_snapshot_restore_dma (softpc_device_snapshot_capture_dma a) b = (true, a).
Proof.
  intros [[HLa HFa] _] [[HLb _] _]. destruct a as [ca pa], b as [cb pb]. cbn [controller page] in *.
  destruct ca as [|c0 [|c1 [|]]]; try discriminate. destruct cb as [|d0 [|d1 [|]]]; try discriminate.
  apply Forall_cons in HFa as [H0 HFa]. apply Forall_cons in HFa as [H1 _].
  destruct (ok_first_last _ H0) as [E0 | E0], (ok_first_last _ H1) as [E1 | E1]; destruct c0, c1; cbn in E0, E1; subst; reflexivity.
Qed.

(** A snapshot with an invalid flip-flop in its second controller is refused after the
    first one has been replaced. *)
Lemma restore_refused_late a b : adapt_ok a -> adapt_ok b ->
  let st := softpc_device_snapshot_capture_dma (on_cntrl 1 (SET_first_last 2) a) in
  softpc_device_snapshot_restore_dma st b = (false, on_cntrl 0 (fun _ => cntrl 0 a) b).
Proof.
  intros [[HLa HFa] _] [[HLb _] _]. destruct a as [ca pa], b as [cb pb]. cbn [controller page] in *.
  destruct ca as [|c0 [|c1 [|]]]; try discriminate. destruct cb as [|d0 [|d1 [|]]]; try discriminate.
  apply Forall_cons in HFa as [H0 _]. destruct (ok_first_last _ H0) as [E0 | E0]; destruct c0; cbn in E0; subst; reflexivity.
Qed.

(** A request for no units reports terminal count when the count is for 64K units. *)
Lemma empty_request_at_terminal_count {V D} `{Mem.Handlers V} junk_value channel hw (s : board V D) :
  0 <= channel < 8 -> adapt_ok (adaptor s) ->
  let ci := dma_physical_controller channel in
  let chan := dma_physical_channel channel in
  let dcp := cntrl ci (adaptor s) in
  controller_disable (command dcp) = 0 -> mask dcp .& (1 .<< chan) = 0 ->
  word_at (current_count dcp) chan = 0xffff ->
  exists s', dma_request junk_value channel hw 0 s = Ret false s' /\ memory s' = memory s /\ host_mem s' = host_mem s.
Proof.
  intros Hch HA ci chan dcp Hd Hm Hc. destruct (channel_split channel Hch) as [Hci Hchan].
  unfold dma_request. rewrite (proj2 (Z.leb_gt _ _)) by (unfold DMA_ADAPTOR_CONTROLLERS; lia).
  unfold bind at 1, get_adaptor at 1, gets at 1. unfold bind at 1, get_adaptor at 1, gets at 1. fold ci chan dcp.
  rewrite Hd, Hm, Hc. cbn [Z.eqb andb]. cbv zeta. change (0 <? 0xffff + 1) with true. cbv iota.
  set (pg := at_ 0 (page (adaptor s)) channel). set (offset := word_at (current_address dcp) chan).
  pose proof (request_units junk_value channel pg (transfer_type (at_ 0 (mode dcp) chan)) (address_dec (at_ 0 (mode dcp) chan))
    offset hw 0 ltac:(apply u16_range) ltac:(lia) s) as HU.
  rewrite (bind_ret _ _ _ _ _ HU). eexists. split; [reflexivity|]. split; reflexivity.
Qed.

(** ** Examples *)

#[local] Existing Instance Mem.quiet.
#[local] Instance demo_sound : Sound unit unit := {| SbDmaChannel := fun _ => 1; SbGetDMAPosition := ret tt |}.
#[local] Instance demo_sound_ok : SoundOk unit unit.
Proof. split. apply keeps_ok_local, local_ret. Qed.

(** Channel 2 unmasked to write memory from the device: four bytes, from the last but one
    of the 64K of page 0. *)
Definition wrapping : board unit unit :=
  mkBoard (dma_outb 0x0a 0x02 (dma_outb 0x0b 0x46 (programmed 2 0xfe 0xff 3 0 0 (dma_post adapt0)))) 0 Mem.sas0 (fun a => a)
    (Ios.mkIos (fun _ => 0) (fun _ => 0) (fun _ _ => Ios.null)) tt.

Lemma wrapping_ok : adapt_ok (adaptor wrapping).
Proof.
  unfold wrapping, programmed. cbn [adaptor]. do 2 (apply outb_ok; [vm_compute; split; congruence|]).
  apply page_outb_ok; [vm_compute; split; congruence|]. do 5 (apply outb_ok; [vm_compute; split; congruence|]).
  apply post_ok, adapt0_ok.
Qed.

Lemma request_unit_by_unit_witness :
  dma_request 0 2 0x40 5 wrapping = cycles 0 5 2 0x40 wrapping
  /\ match dma_request 0 2 0x40 5 wrapping with
     | Ret r s => r = false /\ map (Mem.M_area (memory s)) [0; 1; 2] = [0x42; 0x43; 0] /\ dma_enquire 2 (adaptor s) = (2, 0xffff)
     | _ => False
     end.
Proof.
  split; [|vm_compute; auto].
  apply (request_unit_by_unit 0 2 ltac:(lia) 0x40 5 wrapping); [exact wrapping_ok | lia | vm_compute; reflexivity..].
Defined.

Lemma registers_typed_witness :
  adapt_ok (adaptor (SET_adaptor (dma_outb 0x0f 0x0b (dma_post adapt0)) (SET_adaptor adapt0 wrapping))).
Proof.
  apply (registers_typed 0 (SET_adaptor adapt0 wrapping)); [reflexivity|].
  eapply rtc_l; [apply by_post|]. eapply rtc_l; [apply (by_outb 0 0x0f 0x0b); vm_compute; split; congruence|]. apply rtc_refl.
Defined.

Lemma channel_programming_witness :
  exists s' s'' : board unit unit, dma_init wrapping = Ret tt s' /\ program 0 5 0x34 0x12 0xff 0 0x09 s' = Ret tt s''
  /\ dma_enquire 5 (adaptor s'') = (0x82468, 0xff)
  /\ forall ch', 0 <= ch' < 8 -> ch' <> 5 -> dma_enquire ch' (adaptor s'') = dma_enquire ch' (adaptor wrapping).
Proof.
  apply (channel_programming 0 5 0x34 0x12 0xff 0 0x09 wrapping); [exact wrapping_ok | lia | discriminate | vm_compute; split; congruence..].
Defined.

End Dma.
