(* ===== verification/Qev.v ===== *)
(** * Quick events and tick events

    [base/system/quick_ev.c]: the queue of events the CPU dispatches after a number of
    instructions and the queue of those dispatched after a number of timer ticks, with
    their hash tables of handles, free lists and counters, the conversion between time
    and instructions with its recalibration, the requests of interrupt actions and the
    snapshot.

    An event is a record at an address; a linked list is the list of its elements.  The
    functions events call are the class [Callbacks], over the state of everything else;
    memory comes from [pool], and [host_malloc] fails when it is empty.  [unsigned long]
    has 32 bits, as on the Windows hosts of the build. *)

From Stdlib Require Import ZifyBool.
From S2P Require Import Prelude Cpu Arith Shift Xcptn MulDiv.

Module Qev.

Definition HASH_SIZE : Z := 16.
Definition HASH_MASK : Z := 0xf.

Inductive EVENTTYPE := EVENT_TIME | EVENT_INSTRUCTIONS | EVENT_TICK.

(** [struct Q_EVENT]: its address, the function as its identity, and the fields other than
    the links. *)
Record t_q_event := mkEvent {
  addr : Z;
  func : Z;
  time_from_last : Z;
  original_time : Z;
  handle : Z;
  param : Z;
  event_type : EVENTTYPE
}.

Definition SET_addr (x : Z) (r : t_q_event) : t_q_event :=
  mkEvent x (func r) (time_from_last r) (original_time r) (handle r) (param r) (event_type r).
Definition SET_func (x : Z) (r : t_q_event) : t_q_event :=
  mkEvent (addr r) x (time_from_last r) (original_time r) (handle r) (param r) (event_type r).
Definition SET_time_from_last (x : Z) (r : t_q_event) : t_q_event :=
  mkEvent (addr r) (func r) x (original_time r) (handle r) (param r) (event_type r).
Definition SET_original_time (x : Z) (r : t_q_event) : t_q_event :=
  mkEvent (addr r) (func r) (time_from_last r) x (handle r) (param r) (event_type r).
Definition SET_handle (x : Z) (r : t_q_event) : t_q_event :=
  mkEvent (addr r) (func r) (time_from_last r) (original_time r) x (param r) (event_type r).
Definition SET_param (x : Z) (r : t_q_event) : t_q_event :=
  mkEvent (addr r) (func r) (time_from_last r) (original_time r) (handle r) x (event_type r).
Definition SET_event_type (x : EVENTTYPE) (r : t_q_event) : t_q_event :=
  mkEvent (addr r) (func r) (time_from_last r) (original_time r) (handle r) (param r) x.

(** The variables of one of the two queues: the events in time order (from the head,
    along [next]; [previous] is the same list backwards and the tail its last element),
    the chains of the hash table along [next_free], the free list, also along
    [next_free], and the next handle.  Chains and free list are lists of addresses. *)
Record queue := mkQueue {
  events : list t_q_event;
  table : list (list Z);
  free : list Z;
  free_handle : Z
}.

Definition SET_events (x : list t_q_event) (r : queue) : queue :=
  mkQueue x (table r) (free r) (free_handle r).
Definition SET_table (x : list (list Z)) (r : queue) : queue :=
  mkQueue (events r) x (free r) (free_handle r).
Definition SET_free (x : list Z) (r : queue) : queue :=
  mkQueue (events r) (table r) x (free_handle r).
Definition SET_free_handle (x : Z) (r : queue) : queue :=
  mkQueue (events r) (table r) (free r) x.

(** [Q_INT_ACT_REQ] with its address in place of its link. *)
Record Q_INT_ACT_REQ := mkReq {
  req_addr : Z;
  ident : Z;
  req_func : Z;
  adapter : Z;
  line : Z;
  req_param : Z
}.

Definition SET_req_addr (x : Z) (r : Q_INT_ACT_REQ) : Q_INT_ACT_REQ :=
  mkReq x (ident r) (req_func r) (adapter r) (line r) (req_param r).
Definition SET_ident (x : Z) (r : Q_INT_ACT_REQ) : Q_INT_ACT_REQ :=
  mkReq (req_addr r) x (req_func r) (adapter r) (line r) (req_param r).
Definition SET_req_func (x : Z) (r : Q_INT_ACT_REQ) : Q_INT_ACT_REQ :=
  mkReq (req_addr r) (ident r) x (adapter r) (line r) (req_param r).
Definition SET_adapter (x : Z) (r : Q_INT_ACT_REQ) : Q_INT_ACT_REQ :=
  mkReq (req_addr r) (ident r) (req_func r) x (line r) (req_param r).
Definition SET_line (x : Z) (r : Q_INT_ACT_REQ) : Q_INT_ACT_REQ :=
  mkReq (req_addr r) (ident r) (req_func r) (adapter r) x (req_param r).
Definition SET_req_param (x : Z) (r : Q_INT_ACT_REQ) : Q_INT_ACT_REQ :=
  mkReq (req_addr r) (ident r) (req_func r) (adapter r) (line r) x.

(** The variables of the recalibration; a time stamp is a number of microseconds. *)
Record calibration := mkCal {
  q_ratio_history : list (Z * Z);
  q_ratio_head : Z;
  q_ratio_initialised : bool;
  previous_tstamp : Z;
  ideal_q_rate : Z;
  real_q_rate : Z;
  DisableQuickTickRecal : bool;
  jumpRestart : Z;
  usecPerIJC : Z;
  firstfew : Z;
  ijc_tstamp : Z;
  ijc_recount : Z;
  ijc_calib : Z
}.

Definition SET_q_ratio_history (x : list (Z * Z)) (r : calibration) : calibration :=
  mkCal x (q_ratio_head r) (q_ratio_initialised r) (previous_tstamp r) (ideal_q_rate r) (real_q_rate r) (DisableQuickTickRecal r) (jumpRestart r) (usecPerIJC r) (firstfew r) (ijc_tstamp r) (ijc_recount r) (ijc_calib r).
Definition SET_q_ratio_head (x : Z) (r : calibration) : calibration :=
  mkCal (q_ratio_history r) x (q_ratio_initialised r) (previous_tstamp r) (ideal_q_rate r) (real_q_rate r) (DisableQuickTickRecal r) (jumpRestart r) (usecPerIJC r) (firstfew r) (ijc_tstamp r) (ijc_recount r) (ijc_calib r).
Definition SET_q_ratio_initialised (x : bool) (r : calibration) : calibration :=
  mkCal (q_ratio_history r) (q_ratio_head r) x (previous_tstamp r) (ideal_q_rate r) (real_q_rate r) (DisableQuickTickRecal r) (jumpRestart r) (usecPerIJC r) (firstfew r) (ijc_tstamp r) (ijc_recount r) (ijc_calib r).
Definition SET_previous_tstamp (x : Z) (r : calibration) : calibration :=
  mkCal (q_ratio_history r) (q_ratio_head r) (q_ratio_initialised r) x (ideal_q_rate r) (real_q_rate r) (DisableQuickTickRecal r) (jumpRestart r) (usecPerIJC r) (firstfew r) (ijc_tstamp r) (ijc_recount r) (ijc_calib r).
Definition SET_ideal_q_rate (x : Z) (r : calibration) : calibration :=
  mkCal (q_ratio_history r) (q_ratio_head r) (q_ratio_initialised r) (previous_tstamp r) x (real_q_rate r) (DisableQuickTickRecal r) (jumpRestart r) (usecPerIJC r) (firstfew r) (ijc_tstamp r) (ijc_recount r) (ijc_calib r).
Definition SET_real_q_rate (x : Z) (r : calibration) : calibration :=
  mkCal (q_ratio_history r) (q_ratio_head r) (q_ratio_initialised r) (previous_tstamp r) (ideal_q_rate r) x (DisableQuickTickRecal r) (jumpRestart r) (usecPerIJC r) (firstfew r) (ijc_tstamp r) (ijc_recount r) (ijc_calib r).
Definition SET_DisableQuickTickRecal (x : bool) (r : calibration) : calibration :=
  mkCal (q_ratio_history r) (q_ratio_head r) (q_ratio_initialised r) (previous_tstamp r) (ideal_q_rate r) (real_q_rate r) x (jumpRestart r) (usecPerIJC r) (firstfew r) (ijc_tstamp r) (ijc_recount r) (ijc_calib r).
Definition SET_jumpRestart (x : Z) (r : calibration) : calibration :=
  mkCal (q_ratio_history r) (q_ratio_head r) (q_ratio_initialised r) (previous_tstamp r) (ideal_q_rate r) (real_q_rate r) (DisableQuickTickRecal r) x (usecPerIJC r) (firstfew r) (ijc_tstamp r) (ijc_recount r) (ijc_calib r).
Definition SET_usecPerIJC (x : Z) (r : calibration) : calibration :=
  mkCal (q_ratio_history r) (q_ratio_head r) (q_ratio_initialised r) (previous_tstamp r) (ideal_q_rate r) (real_q_rate r) (DisableQuickTickRecal r) (jumpRestart r) x (firstfew r) (ijc_tstamp r) (ijc_recount r) (ijc_calib r).
Definition SET_firstfew (x : Z) (r : calibration) : calibration :=
  mkCal (q_ratio_history r) (q_ratio_head r) (q_ratio_initialised r) (previous_tstamp r) (ideal_q_rate r) (real_q_rate r) (DisableQuickTickRecal r) (jumpRestart r) (usecPerIJC r) x (ijc_tstamp r) (ijc_recount r) (ijc_calib r).
Definition SET_ijc_tstamp (x : Z) (r : calibration) : calibration :=
  mkCal (q_ratio_history r) (q_ratio_head r) (q_ratio_initialised r) (previous_tstamp r) (ideal_q_rate r) (real_q_rate r) (DisableQuickTickRecal r) (jumpRestart r) (usecPerIJC r) (firstfew r) x (ijc_recount r) (ijc_calib r).
Definition SET_ijc_recount (x : Z) (r : calibration) : calibration :=
  mkCal (q_ratio_history r) (q_ratio_head r) (q_ratio_initialised r) (previous_tstamp r) (ideal_q_rate r) (real_q_rate r) (DisableQuickTickRecal r) (jumpRestart r) (usecPerIJC r) (firstfew r) (ijc_tstamp r) x (ijc_calib r).
Definition SET_ijc_calib (x : Z) (r : calibration) : calibration :=
  mkCal (q_ratio_history r) (q_ratio_head r) (q_ratio_initialised r) (previous_tstamp r) (ideal_q_rate r) (real_q_rate r) (DisableQuickTickRecal r) (jumpRestart r) (usecPerIJC r) (firstfew r) (ijc_tstamp r) (ijc_recount r) x.

(** [Q_EVENT_SNAPSHOT_ENTRY] and [Q_EVENT_SNAPSHOT_STATE] of [quick_ev.h]. *)
Record Q_EVENT_SNAPSHOT_ENTRY := mkEntry {
  e_time_from_last : Z;
  e_original_time : Z;
  e_handle : Z;
  e_param : Z;
  e_event_type : Z;
  callback_id : Z;
  hash_next_index : Z
}.

Definition SET_e_time_from_last (x : Z) (r : Q_EVENT_SNAPSHOT_ENTRY) : Q_EVENT_SNAPSHOT_ENTRY :=
  mkEntry x (e_original_time r) (e_handle r) (e_param r) (e_event_type r) (callback_id r) (hash_next_index r).
Definition SET_e_original_time (x : Z) (r : Q_EVENT_SNAPSHOT_ENTRY) : Q_EVENT_SNAPSHOT_ENTRY :=
  mkEntry (e_time_from_last r) x (e_handle r) (e_param r) (e_event_type r) (callback_id r) (hash_next_index r).
Definition SET_e_handle (x : Z) (r : Q_EVENT_SNAPSHOT_ENTRY) : Q_EVENT_SNAPSHOT_ENTRY :=
  mkEntry (e_time_from_last r) (e_original_time r) x (e_param r) (e_event_type r) (callback_id r) (hash_next_index r).
Definition SET_e_param (x : Z) (r : Q_EVENT_SNAPSHOT_ENTRY) : Q_EVENT_SNAPSHOT_ENTRY :=
  mkEntry (e_time_from_last r) (e_original_time r) (e_handle r) x (e_event_type r) (callback_id r) (hash_next_index r).
Definition SET_e_event_type (x : Z) (r : Q_EVENT_SNAPSHOT_ENTRY) : Q_EVENT_SNAPSHOT_ENTRY :=
  mkEntry (e_time_from_last r) (e_original_time r) (e_handle r) (e_param r) x (callback_id r) (hash_next_index r).
Definition SET_callback_id (x : Z) (r : Q_EVENT_SNAPSHOT_ENTRY) : Q_EVENT_SNAPSHOT_ENTRY :=
  mkEntry (e_time_from_last r) (e_original_time r) (e_handle r) (e_param r) (e_event_type r) x (hash_next_index r).
Definition SET_hash_next_index (x : Z) (r : Q_EVENT_SNAPSHOT_ENTRY) : Q_EVENT_SNAPSHOT_ENTRY :=
  mkEntry (e_time_from_last r) (e_original_time r) (e_handle r) (e_param r) (e_event_type r) (callback_id r) x.

Record Q_EVENT_SNAPSHOT_STATE := mkState {
  next_quick_handle : Z;
  next_tick_handle : Z;
  quick_count : Z;
  tick_count : Z;
  quick_entries : Z;
  tick_entries : Z;
  quick_hash_head : list Z;
  tick_hash_head : list Z
}.

(** Everything: both queues, the counter of the CPU and that of ticks, the memory
    [host_malloc] can hand out, the calibration, the requests of
    [add_q_ev_int_action] and the rest of the machine. *)
Record sched (D : Type) := mkSched {
  quick : queue;
  tick : queue;
  cpu_heartbeat : Z;
  tic_event_count : Z;
  pool : list Z;
  cal : calibration;
  int_act_qhead : Q_INT_ACT_REQ;
  int_act_queue : list Q_INT_ACT_REQ;
  int_act_qident : Z;
  world : D
}.
Arguments mkSched {D} _ _ _ _ _ _ _ _ _ _.
Arguments quick {D} _.
Arguments tick {D} _.
Arguments cpu_heartbeat {D} _.
Arguments tic_event_count {D} _.
Arguments pool {D} _.
Arguments cal {D} _.
Arguments int_act_qhead {D} _.
Arguments int_act_queue {D} _.
Arguments int_act_qident {D} _.
Arguments world {D} _.

Definition SET_quick {D} (x : queue) (r : sched D) : sched D :=
  mkSched x (tick r) (cpu_heartbeat r) (tic_event_count r) (pool r) (cal r) (int_act_qhead r) (int_act_queue r) (int_act_qident r) (world r).
Definition SET_tick {D} (x : queue) (r : sched D) : sched D :=
  mkSched (quick r) x (cpu_heartbeat r) (tic_event_count r) (pool r) (cal r) (int_act_qhead r) (int_act_queue r) (int_act_qident r) (world r).
Definition SET_cpu_heartbeat {D} (x : Z) (r : sched D) : sched D :=
  mkSched (quick r) (tick r) x (tic_event_count r) (pool r) (cal r) (int_act_qhead r) (int_act_queue r) (int_act_qident r) (world r).
Definition SET_tic_event_count {D} (x : Z) (r : sched D) : sched D :=
  mkSched (quick r) (tick r) (cpu_heartbeat r) x (pool r) (cal r) (int_act_qhead r) (int_act_queue r) (int_act_qident r) (world r).
Definition SET_pool {D} (x : list Z) (r : sched D) : sched D :=
  mkSched (quick r) (tick r) (cpu_heartbeat r) (tic_event_count r) x (cal r) (int_act_qhead r) (int_act_queue r) (int_act_qident r) (world r).
Definition SET_cal {D} (x : calibration) (r : sched D) : sched D :=
  mkSched (quick r) (tick r) (cpu_heartbeat r) (tic_event_count r) (pool r) x (int_act_qhead r) (int_act_queue r) (int_act_qident r) (world r).
Definition SET_int_act_qhead {D} (x : Q_INT_ACT_REQ) (r : sched D) : sched D :=
  mkSched (quick r) (tick r) (cpu_heartbeat r) (tic_event_count r) (pool r) (cal r) x (int_act_queue r) (int_act_qident r) (world r).
Definition SET_int_act_queue {D} (x : list Q_INT_ACT_REQ) (r : sched D) : sched D :=
  mkSched (quick r) (tick r) (cpu_heartbeat r) (tic_event_count r) (pool r) (cal r) (int_act_qhead r) x (int_act_qident r) (world r).
Definition SET_int_act_qident {D} (x : Z) (r : sched D) : sched D :=
  mkSched (quick r) (tick r) (cpu_heartbeat r) (tic_event_count r) (pool r) (cal r) (int_act_qhead r) (int_act_queue r) x (world r).
Definition SET_world {D} (x : D) (r : sched D) : sched D :=
  mkSched (quick r) (tick r) (cpu_heartbeat r) (tic_event_count r) (pool r) (cal r) (int_act_qhead r) (int_act_queue r) (int_act_qident r) x.

Inductive which := Quick | Tick.

Definition the_q {D} (w : which) (s : sched D) : queue := match w with Quick => quick s | Tick => tick s end.
Definition put_q {D} (w : which) (q : queue) (s : sched D) : sched D :=
  match w with Quick => SET_quick q s | Tick => SET_tick q s end.

Class Callbacks (E D : Type) := {
  call : Z -> Z -> M E (sched D) unit;
  action_interrupt : Z -> Z -> Z -> Z -> M E (sched D) unit
}.

(** What the recalibration asks the host. *)
Class Clock (E D : Type) := {
  host_q_write_timestamp : M E (sched D) Z;
  host_q_timestamp_diff : Z -> Z -> Z;
  host_get_jump_restart : M E (sched D) Z;
  host_get_q_calib_val : M E (sched D) Z;
  soft_reset : sched D -> bool
}.

(** ** Time and instructions *)

Definition UNSET : Z := 0xffffffff.

Definition Q_RATIO_HISTORY_SIZE : Z := 8.
Definition Q_RATIO_WRAP_MASK : Z := 7.
Definition Q_RATIO_DEFAULT : Z := 1.
Definition FIRSTFEW : Z := 33.
Definition IJCPERIOD : Z := 91.

Definition add_new_q_ratio (jumps_ms time_ms : Z) (c : calibration) : calibration :=
  SET_q_ratio_head ((q_ratio_head c + 1) .& Q_RATIO_WRAP_MASK)
    (SET_q_ratio_history (<[Z.to_nat (q_ratio_head c) := (jumps_ms, time_ms)]> (q_ratio_history c)) c).

(** The sums without their extreme values, over the whole buffer; the loop starts at the
    oldest entry. *)
Definition weighted (l : list Z) : Z :=
  let sum := fold_left (fun a x => u32 (a + x)) l 0 in
  let least := fold_left (fun a x => if x <? a then x else a) l 0xffffffff in
  let most := fold_left (fun a x => if a <? x then x else a) l 0 in
  u32 (u32 (sum - least) - most) / (Q_RATIO_HISTORY_SIZE - 2).
Definition q_weighted_ratio (c : calibration) : Z * Z :=
  let h := Z.to_nat (q_ratio_head c) in
  let l := drop h (q_ratio_history c) ++ take h (q_ratio_history c) in
  (weighted (map fst l), weighted (map snd l)).

Section Scheduler.
Context {E D : Type} `{Callbacks E D} `{Clock E D}.
Abbreviation X := (M E (sched D)).

Definition get_q {A} (w : which) (f : queue -> A) : X A := gets (fun s => f (the_q w s)).
Definition mod_q (w : which) (f : queue -> queue) : X unit := modify (fun s => put_q w (f (the_q w s)) s).
Definition get_cal {A} (f : calibration -> A) : X A := gets (fun s => f (cal s)).
Definition mod_cal (f : calibration -> calibration) : X unit := modify (fun s => SET_cal (f (cal s)) s).

(** A division of C. *)
Definition cdiv (a b : Z) : X Z := if b =? 0 then undefined else ret (a / b).

Definition calc_q_inst_for_time (time : Z) : X Z :=
  c <- get_cal (fun c => c) ;;
  if usecPerIJC c =? UNSET then ret (time / 10)
  else
    jumps <- cdiv (u32 (time * jumpRestart c)) (usecPerIJC c) ;;
    cdiv (u32 (jumps * real_q_rate c)) (ideal_q_rate c).

Definition calc_q_time_for_inst (inst : Z) : X Z :=
  c <- get_cal (fun c => c) ;;
  if usecPerIJC c =? UNSET then ret (u32 (inst * 10))
  else
    jumps <- cdiv (u32 (inst * ideal_q_rate c)) (real_q_rate c) ;;
    time <- cdiv (u32 (jumps * usecPerIJC c)) (jumpRestart c) ;;
    ret (if (time =? 0) && negb (inst =? 0) then inst else time).

(** [host_q_ev_set_count] and [tic_ev_set_count], and their counterparts. *)
Definition set_count (w : which) (x : Z) : X unit :=
  modify (match w with Quick => SET_cpu_heartbeat x | Tick => SET_tic_event_count x end).
Definition get_count (w : which) : X Z :=
  gets (match w with Quick => cpu_heartbeat | Tick => tic_event_count end).

Definition host_malloc : X (option Z) := fun s =>
  match pool s with
  | [] => Ret None s
  | a :: p => Ret (Some a) (SET_pool p s)
  end.
Definition host_free (a : Z) : X unit := modify (fun s => SET_pool (a :: pool s) s).

(** ** Initialisation *)

Fixpoint free_all (l : list Z) : X unit :=
  match l with [] => ret tt | a :: l => host_free a ;; free_all l end.

Definition q_event_init_structs (w : which) : X unit :=
  l <- get_q w (fun q => map addr (events q)) ;; free_all l ;;
  l <- get_q w free ;; free_all l ;;
  mod_q w (fun _ => mkQueue [] (repeat [] 16) [] 1).

Definition init_q_ratio : X unit :=
  mod_cal (SET_DisableQuickTickRecal true) ;;
  mod_cal (fun c => SET_real_q_rate 1 (SET_ideal_q_rate 1
    (SET_q_ratio_history (repeat (Q_RATIO_DEFAULT, Q_RATIO_DEFAULT) 8) c))) ;;
  t <- host_q_write_timestamp ;;
  mod_cal (fun c => SET_q_ratio_initialised true (SET_previous_tstamp t c)).

Definition q_event_init : X unit := set_count Quick 0 ;; q_event_init_structs Quick ;; init_q_ratio.
Definition tic_event_init : X unit := set_count Tick 0 ;; q_event_init_structs Tick.

(** ** Adding an event *)

Definition chain (q : queue) (h : Z) : list Z := default [] (table q !! Z.to_nat (h .& HASH_MASK)).
Definition SET_chain (h : Z) (l : list Z) (q : queue) : queue :=
  SET_table (<[Z.to_nat (h .& HASH_MASK) := l]> (table q)) q.

Definition set_head_time (t : Z) (q : queue) : queue :=
  match events q with
  | [] => q
  | e :: l => SET_events (SET_time_from_last t e :: l) q
  end.

(** The search for the event that follows the new one: those before it, those from it on,
    and the running time when the loop stops. *)
Fixpoint find_place (time run_time : Z) (l : list t_q_event) : list t_q_event * list t_q_event * Z :=
  match l with
  | [] => ([], [], run_time)
  | e :: l' =>
      let r := u32 (run_time + time_from_last e) in
      if time <? r then ([], l, r)
      else let '(before, after, r') := find_place time r l' in (e :: before, after, r')
  end.

Definition SET_times (t : Z) (e : t_q_event) : t_q_event := SET_original_time t (SET_time_from_last t e).

Definition insert_event (time : Z) (n : t_q_event) (l : list t_q_event) : list t_q_event :=
  match find_place time 0 l with
  | (before, [], run_time) =>
      match l with
      | [] => [SET_times time n]
      | _ => before ++ [SET_times (u32 (time - run_time)) n]
      end
  | ([], ptr :: rest, _) =>
      SET_times time n :: SET_time_from_last (u32 (time_from_last ptr - time)) ptr :: rest
  | (before, ptr :: rest, run_time) =>
      let t := u32 (time - u32 (run_time - time_from_last ptr)) in
      before ++ SET_times t n :: SET_time_from_last (u32 (time_from_last ptr - t)) ptr :: rest
  end.

(** A structure from the free list or from the host. *)
Definition take_structure (w : which) : X (option Z) :=
  l <- get_q w free ;;
  match l with
  | [] => host_malloc
  | a :: l => mod_q w (SET_free l) ;; ret (Some a)
  end.

Definition take_handle (w : which) : X Z :=
  h <- get_q w free_handle ;;
  if (h =? 0) || (h =? 0xffff) then mod_q w (SET_free_handle 2) ;; ret 1
  else mod_q w (SET_free_handle (h + 1)) ;; ret h.

Definition add_event (w : which) (fn time par time_to_next_trigger : Z) (type : EVENTTYPE) : X Z :=
  mod_q w (set_head_time time_to_next_trigger) ;;
  if time =? 0 then call fn par ;; ret 0 else
  nptr <- take_structure w ;;
  match nptr with
  | None => ret 0xffff
  | Some nptr =>
      h <- take_handle w ;;
      mod_q w (fun q => SET_chain h (chain q h ++ [nptr]) q) ;;
      mod_q w (fun q => SET_events (insert_event time (mkEvent nptr fn 0 0 h par type) (events q)) q) ;;
      ret h
  end.

Definition add_tic_event (fn time par : Z) : X Z :=
  cur_count_val <- get_count Tick ;;
  h <- add_event Tick fn time par cur_count_val EVENT_TICK ;;
  l <- get_q Tick events ;;
  match l with [] => ret tt | e :: _ => set_count Tick (time_from_last e) end ;;
  ret h.

Definition gen_add_q_event (fn event_value par : Z) (type : EVENTTYPE) : X Z :=
  jumps <- get_count Quick ;;
  time_remaining_to_next_trigger <- calc_q_time_for_inst jumps ;;
  let event_time := event_value in
  h <- add_event Quick fn event_time par time_remaining_to_next_trigger type ;;
  l <- get_q Quick events ;;
  match l with
  | [] => ret tt
  | e :: _ =>
      jumps_till_trigger <-
        (if original_time e <? time_from_last e then ret 1
         else j <- calc_q_inst_for_time (time_from_last e) ;; ret (if j =? 0 then 1 else j)) ;;
      set_count Quick jumps_till_trigger
  end ;;
  ret h.

Definition add_q_event_i (fn instrs par : Z) : X Z := gen_add_q_event fn instrs par EVENT_INSTRUCTIONS.
Definition add_q_event_t (fn time par : Z) : X Z := gen_add_q_event fn time par EVENT_TIME.

(** ** Dispatching *)

(** The first address of a chain whose event has the handle, and the chain without it;
    [None] where the loop runs off the chain.  [l] has the events the chain is about. *)
Fixpoint unlink (h : Z) (l : list t_q_event) (ch : list Z) : X (option (Z * list Z)) :=
  match ch with
  | [] => ret None
  | a :: ch =>
      match find (fun e => addr e =? a) l with
      | None => undefined
      | Some e =>
          if handle e =? h then ret (Some (a, ch))
          else r <- unlink h l ch ;; ret (match r with Some (b, ch) => Some (b, a :: ch) | None => None end)
      end
  end.

Definition dispatch_count (set : Z -> X unit) (e : t_q_event) : X unit :=
  jumps <- calc_q_inst_for_time (time_from_last e) ;;
  let jumps := if jumps =? 0 then 1 else jumps in
  match event_type e with
  | EVENT_TIME | EVENT_INSTRUCTIONS => set jumps
  | EVENT_TICK => set (time_from_last e)
  end.

(** One round for every event that is due; [fuel] bounds the rounds of one call. *)
Fixpoint dispatch_event (fuel : nat) (w : which) (set : Z -> X unit) : X unit :=
  match fuel with
  | O => undefined
  | S fuel =>
      l <- get_q w events ;;
      match l with
      | [] => ret tt
      | ptr :: rest =>
          mod_q w (SET_events rest) ;;
          match rest with [] => ret tt | e :: _ => dispatch_count set e end ;;
          ch <- get_q w (fun q => chain q (handle ptr)) ;;
          r <- unlink (handle ptr) l ch ;;
          match r with None => ret tt | Some (_, ch) => mod_q w (SET_chain (handle ptr) ch) end ;;
          mod_q w (fun q => SET_free (addr ptr :: free q) q) ;;
          call (func ptr) (param ptr) ;;
          l <- get_q w events ;;
          match l with
          | [] => ret tt
          | e :: _ => if negb (time_from_last e =? 0) then ret tt else dispatch_event fuel w set
          end
      end
  end.

(** How many events one call may have to dispatch. *)
Context (fuel : nat).

Definition dispatch_q_event : X unit := dispatch_event fuel Quick (set_count Quick).
Definition user_dispatch_q_event (user_set_count : Z -> X unit) : X unit := dispatch_event fuel Quick user_set_count.

Definition dispatch_tic_event : X unit :=
  count <- get_count Tick ;;
  when (0 <? count)
    (let count := count - 1 in
     set_count Tick count ;;
     when (count =? 0) (dispatch_event fuel Tick (set_count Tick))).

(** ** Deleting *)

(** The events around the one at an address. *)
Fixpoint split_at_addr (a : Z) (l : list t_q_event) : option (list t_q_event * t_q_event * list t_q_event) :=
  match l with
  | [] => None
  | e :: l =>
      if addr e =? a then Some ([], e, l)
      else match split_at_addr a l with Some (b, p, r) => Some (e :: b, p, r) | None => None end
  end.

Definition add_time (t : Z) (l : list t_q_event) : list t_q_event :=
  match l with [] => [] | e :: l => SET_time_from_last (u32 (time_from_last e + t)) e :: l end.

Definition unit_scaler (val : Z) : X Z := ret val.

Definition scalers (type : EVENTTYPE) : (Z -> X Z) * (Z -> X Z) :=
  match type with
  | EVENT_TIME | EVENT_INSTRUCTIONS => (calc_q_inst_for_time, calc_q_time_for_inst)
  | EVENT_TICK => (unit_scaler, unit_scaler)
  end.

(** [time_counted_down] is an [int]; it is compared as an [unsigned long]. *)
Definition delete_event (w : which) (h : Z) : X unit :=
  if h =? 0 then ret tt else
  q <- get_q w (fun q => q) ;;
  r <- unlink h (events q) (chain q h) ;;
  match r with
  | None => ret tt
  | Some (ptr, ch) =>
      mod_q w (SET_chain h ch) ;;
      match split_at_addr ptr (events q) with
      | None => undefined
      | Some (before, p, rest) =>
          mod_q w (fun q => SET_free (ptr :: free q) (SET_events (before ++ add_time (time_from_last p) rest) q)) ;;
          match before with
          | _ :: _ => ret tt
          | [] =>
              let '(scale_func, unscale_func) := scalers (event_type p) in
              cur_counter <- get_count w ;;
              time_to_next_trigger <- scale_func cur_counter ;;
              let time_counted_down := u32 (time_from_last p - time_to_next_trigger) in
              match add_time (time_from_last p) rest with
              | [] => set_count w 0
              | n :: rest =>
                  if time_from_last n <=? time_counted_down then dispatch_q_event
                  else
                    let t := u32 (time_from_last n - time_counted_down) in
                    mod_q w (SET_events (SET_time_from_last t n :: rest)) ;;
                    x <- unscale_func t ;; set_count w x
              end
          end
      end
  end.

Definition delete_q_event (h : Z) : X unit := delete_event Quick h.
Definition delete_tic_event (h : Z) : X unit := delete_event Tick h.

(** ** Recalibration *)

(** A stamp for the next period. *)
Definition stamp_period : X unit := t <- host_q_write_timestamp ;; mod_cal (SET_previous_tstamp t).

Definition first_ticks : X unit :=
  c <- get_cal (fun c => c) ;;
  (if firstfew c =? FIRSTFEW then
     stamp_period ;; j <- host_get_jump_restart ;; mod_cal (SET_jumpRestart j)
   else when (firstfew c =? 1)
     (now <- host_q_write_timestamp ;;
      let tdiff := host_q_timestamp_diff (previous_tstamp c) now in
      realrate <- host_get_q_calib_val ;;
      u <- cdiv (tdiff * jumpRestart c) realrate ;;
      mod_cal (SET_usecPerIJC (u32 u)) ;;
      t <- host_q_write_timestamp ;;
      mod_cal (fun c => SET_ijc_calib 1 (SET_ijc_recount IJCPERIOD (SET_ijc_tstamp t (SET_previous_tstamp t c)))))) ;;
  mod_cal (fun c => SET_firstfew (firstfew c - 1) c).

Definition periodic_update : X unit :=
  mod_cal (fun c => SET_ijc_recount (u32 (ijc_recount c - 1)) c) ;;
  c <- get_cal (fun c => c) ;;
  when (ijc_recount c =? 0)
    (now <- host_q_write_timestamp ;;
     when (50000 <? ijc_calib c)
       (u <- cdiv (host_q_timestamp_diff (ijc_tstamp c) now * jumpRestart c) (ijc_calib c) ;;
        mod_cal (SET_usecPerIJC (u32 u))) ;;
     mod_cal (fun c => SET_ijc_calib 1 (SET_ijc_recount IJCPERIOD (SET_ijc_tstamp now c)))).

Definition quick_tick_recalibrate : X unit :=
  s <- get ;;
  let c := cal s in
  if DisableQuickTickRecal c then
    mod_cal (fun c => SET_real_q_rate Q_RATIO_DEFAULT (SET_ideal_q_rate Q_RATIO_DEFAULT c))
  else if negb (soft_reset s) then ret tt
  else if negb (q_ratio_initialised c) then init_q_ratio
  else if negb (firstfew c =? 0) then first_ticks
  else
    periodic_update ;;
    c <- get_cal (fun c => c) ;;
    now <- host_q_write_timestamp ;;
    let tdiff := host_q_timestamp_diff (previous_tstamp c) now in
    if tdiff <? 5000 then ret tt
    else if 5 * 54945 <? tdiff then stamp_period
    else
      i <- cdiv (tdiff * jumpRestart c) (usecPerIJC c) ;;
      let idealrate := u32 i in
      if idealrate =? 0 then ret tt else
      realrate <- host_get_q_calib_val ;;
      if realrate =? 0 then ret tt else
      mod_cal (fun c => SET_real_q_rate realrate (SET_ideal_q_rate idealrate
        (SET_ijc_calib (u32 (ijc_calib c + realrate)) c))) ;;
      stamp_period.

(** ** Interrupt actions after a delay *)

(** The next identifier; beyond the largest [IS32] the increment is undefined. *)
Definition next_ident : X Z :=
  i <- gets int_act_qident ;;
  if i + 1 =? 2 ^ 31 then undefined else
  let i := if 0 <? i + 1 then i + 1 else 1 in
  modify (SET_int_act_qident i) ;; ret i.

(** The function has no return statement where it succeeds: [None] is a call without a
    value. *)
Definition add_new_int_action (fn adapter line parm : Z) : X (option Z) :=
  h <- gets int_act_qhead ;;
  if ident h =? 0 then
    i <- next_ident ;;
    modify (SET_int_act_qhead (mkReq (req_addr h) i fn adapter line parm)) ;; ret None
  else
    a <- host_malloc ;;
    match a with
    | None => ret (Some (-1))
    | Some a =>
        i <- next_ident ;;
        modify (fun s => SET_int_act_queue (int_act_queue s ++ [mkReq a i fn adapter line parm]) s) ;; ret None
    end.

Fixpoint split_at_ident (i : Z) (l : list Q_INT_ACT_REQ) : option (Q_INT_ACT_REQ * list Q_INT_ACT_REQ) :=
  match l with
  | [] => None
  | r :: l =>
      if ident r =? i then Some (r, l)
      else match split_at_ident i l with Some (x, l) => Some (x, r :: l) | None => None end
  end.

Definition select_int_action (identifier : Z) : X unit :=
  h <- gets int_act_qhead ;;
  if ident h =? s32 identifier then
    action_interrupt (adapter h) (line h) (req_func h) (req_param h) ;;
    modify (fun s => SET_int_act_qhead (SET_ident 0 (int_act_qhead s)) s)
  else
    l <- gets int_act_queue ;;
    match split_at_ident (s32 identifier) l with
    | None => ret tt
    | Some (r, _) =>
        action_interrupt (adapter r) (line r) (req_func r) (req_param r) ;;
        modify (fun s => SET_int_act_queue (filter (fun x => req_addr x <> req_addr r) (int_act_queue s)) s) ;;
        host_free (req_addr r)
    end.

(** [select_fn] is the identity of [select_int_action] as a callback. *)
Definition add_q_ev_int_action (select_fn time fn adapter line parm : Z) : X Z :=
  action_id <- add_new_int_action fn adapter line parm ;;
  match action_id with
  | None => undefined
  | Some action_id => if action_id =? -1 then ret (-1) else add_q_event_t select_fn time action_id
  end.

(** ** The snapshot *)

Definition type_code (t : EVENTTYPE) : Z :=
  match t with EVENT_TIME => 0 | EVENT_INSTRUCTIONS => 1 | EVENT_TICK => 2 end.
Definition code_type (c : Z) : EVENTTYPE :=
  if c =? 0 then EVENT_TIME else if c =? 1 then EVENT_INSTRUCTIONS else EVENT_TICK.

(** The entries; [None] where a callback has no identifier. *)
Fixpoint capture_entries (encode : Z -> option Z) (l : list t_q_event) : option (list Q_EVENT_SNAPSHOT_ENTRY) :=
  match l with
  | [] => Some []
  | e :: l =>
      id ← encode (func e);
      es ← capture_entries encode l;
      Some (mkEntry (time_from_last e) (original_time e) (handle e) (param e) (type_code (event_type e)) id 0 :: es)
  end.

(** The position of an address; the loop does not stop at the end of the list. *)
Fixpoint position (a : Z) (l : list t_q_event) (j : Z) : X Z :=
  match l with
  | [] => undefined
  | e :: l => if addr e =? a then ret j else position a l (j + 1)
  end.

Definition next_index (es : list Q_EVENT_SNAPSHOT_ENTRY) (i : Z) : Z :=
  default 0 (hash_next_index <$> es !! Z.to_nat i).

(** From an entry to the last one of its chain; [rounds] is the number of entries. *)
Fixpoint chain_end (rounds : nat) (es : list Q_EVENT_SNAPSHOT_ENTRY) (previous : Z) : X Z :=
  if next_index es previous =? 0 then ret previous
  else match rounds with O => undefined | S n => chain_end n es (next_index es previous - 1) end.

Fixpoint capture_chain (l : list t_q_event) (ch : list Z) (head : Z) (es : list Q_EVENT_SNAPSHOT_ENTRY)
    : X (Z * list Q_EVENT_SNAPSHOT_ENTRY) :=
  match ch with
  | [] => ret (head, es)
  | a :: ch =>
      j <- position a l 0 ;;
      if head =? 0 then capture_chain l ch (j + 1) es
      else
        previous <- chain_end (length es) es (head - 1) ;;
        capture_chain l ch head (alter (SET_hash_next_index (j + 1)) (Z.to_nat previous) es)
  end.

Fixpoint capture_table (l : list t_q_event) (t : list (list Z)) (es : list Q_EVENT_SNAPSHOT_ENTRY)
    : X (list Z * list Q_EVENT_SNAPSHOT_ENTRY) :=
  match t with
  | [] => ret ([], es)
  | ch :: t =>
      let! (h, es) := capture_chain l ch 0 es ;;
      let! (hs, es) := capture_table l t es ;;
      ret (h :: hs, es)
  end.

(** The number of entries, their heads and the entries; [None] is [FALSE]. *)
Definition snapshot_capture_list (w : which) (capacity : Z) (encode : Z -> option Z)
    : X (option (list Z * list Q_EVENT_SNAPSHOT_ENTRY)) :=
  q <- get_q w (fun q => q) ;;
  if capacity <? Z.of_nat (length (events q)) then ret None else
  match capture_entries encode (events q) with
  | None => ret None
  | Some es => r <- capture_table (events q) (table q) es ;; ret (Some r)
  end.

Definition q_event_snapshot_capture (quick_capacity tick_capacity : Z) (encode : Z -> option Z)
    : X (option (Q_EVENT_SNAPSHOT_STATE * list Q_EVENT_SNAPSHOT_ENTRY * list Q_EVENT_SNAPSHOT_ENTRY)) :=
  qr <- snapshot_capture_list Quick quick_capacity encode ;;
  match qr with
  | None => ret None
  | Some (qh, qes) =>
      tr <- snapshot_capture_list Tick tick_capacity encode ;;
      match tr with
      | None => ret None
      | Some (th, tes) =>
          s <- get ;;
          ret (Some (mkState (free_handle (quick s)) (free_handle (tick s)) (cpu_heartbeat s) (tic_event_count s)
                       (Z.of_nat (length qes)) (Z.of_nat (length tes)) qh th, qes, tes))
      end
  end.

Definition q_event_snapshot_measure (s : sched D) : Q_EVENT_SNAPSHOT_STATE :=
  mkState (free_handle (quick s)) (free_handle (tick s)) (cpu_heartbeat s) (tic_event_count s)
    (Z.of_nat (length (events (quick s)))) (Z.of_nat (length (events (tick s)))) (repeat 0 16) (repeat 0 16).

(** The nodes of a restored list; those made before a failure are freed. *)
Fixpoint restore_nodes (decode : Z -> option Z) (es : list Q_EVENT_SNAPSHOT_ENTRY) (made : list t_q_event)
    : X (option (list t_q_event)) :=
  match es with
  | [] => ret (Some made)
  | e :: es =>
      let failed := free_all (map addr made) ;; ret None in
      if (2 <? e_event_type e) || (e_handle e =? 0) then failed else
      match decode (callback_id e) with
      | None => failed
      | Some fn =>
          a <- host_malloc ;;
          match a with
          | None => failed
          | Some a =>
              restore_nodes decode es
                (made ++ [mkEvent a fn (e_time_from_last e) (e_original_time e) (e_handle e) (e_param e) (code_type (e_event_type e))])
          end
      end
  end.

(** The chain that starts at a link; [None] where a check fails.  [rounds] starts at the
    number of entries, which [seen_count] may not pass. *)
Fixpoint restore_chain (rounds : nat) (i : Z) (nodes : list t_q_event) (es : list Q_EVENT_SNAPSHOT_ENTRY) (link : Z) : option (list Z) :=
  if link =? 0 then Some [] else
  match rounds with
  | O => None
  | S rounds =>
      n ← nodes !! Z.to_nat (link - 1);
      if negb (handle n .& HASH_MASK =? i) || (Z.of_nat (length es) <? next_index es (link - 1)) then None
      else ch ← restore_chain rounds i nodes es (next_index es (link - 1)); Some (addr n :: ch)
  end.

Fixpoint restore_table (i : Z) (nodes : list t_q_event) (es : list Q_EVENT_SNAPSHOT_ENTRY) (heads : list Z) : option (list (list Z)) :=
  match heads with
  | [] => Some []
  | link :: heads =>
      if Z.of_nat (length es) <? link then None else
      ch ← restore_chain (length es) i nodes es link;
      t ← restore_table (i + 1) nodes es heads;
      Some (ch :: t)
  end.

(** The array of node pointers is taken from the host and given back. *)
Definition snapshot_restore_list (es : list Q_EVENT_SNAPSHOT_ENTRY) (heads : list Z) (decode : Z -> option Z)
    : X (option (list t_q_event * list (list Z))) :=
  match es with
  | [] => ret (Some ([], repeat [] 16))
  | _ =>
      a <- host_malloc ;;
      match a with
      | None => ret None
      | Some a =>
          r <- restore_nodes decode es [] ;;
          match r with
          | None => host_free a ;; ret None
          | Some nodes =>
              match restore_table 0 nodes es heads with
              | None => free_all (map addr nodes) ;; host_free a ;; ret None
              | Some t => host_free a ;; ret (Some (nodes, t))
              end
          end
      end
  end.

Definition q_event_snapshot_restore (st : Q_EVENT_SNAPSHOT_STATE) (qes tes : list Q_EVENT_SNAPSHOT_ENTRY)
    (quick_capacity tick_capacity : Z) (decode : Z -> option Z) : X bool :=
  if (quick_capacity <? quick_entries st) || (tick_capacity <? tick_entries st) then ret false else
  qr <- snapshot_restore_list (take (Z.to_nat (quick_entries st)) qes) (quick_hash_head st) decode ;;
  match qr with
  | None => ret false
  | Some (ql, qt) =>
      tr <- snapshot_restore_list (take (Z.to_nat (tick_entries st)) tes) (tick_hash_head st) decode ;;
      match tr with
      | None => free_all (map addr ql) ;; ret false
      | Some (tl, tt_) =>
          q_event_init_structs Quick ;; q_event_init_structs Tick ;;
          mod_q Quick (fun _ => mkQueue ql qt [] (next_quick_handle st)) ;;
          mod_q Tick (fun _ => mkQueue tl tt_ [] (next_tick_handle st)) ;;
          set_count Quick (quick_count st) ;; set_count Tick (tick_count st) ;;
          ret true
      end
  end.

End Scheduler.

(** ** The abstract queue

    What the tick queue is for: jobs with the number of ticks until each is due, soonest
    first, jobs due at the same tick in the order they were asked for. *)

Record job := mkJob { j_fn : Z; j_par : Z; j_handle : Z }.
Abbreviation agenda := (list (Z * job)).

Fixpoint schedule (t : Z) (j : job) (a : agenda) : agenda :=
  match a with
  | [] => [(t, j)]
  | (u, k) :: a' => if t <? u then (t, j) :: a else (u, k) :: schedule t j a'
  end.
Definition cancel (h : Z) (a : agenda) : agenda := filter (fun x => j_handle (snd x) <> h) a.
Definition due_now (a : agenda) : list job := map snd (filter (fun x => fst x <= 1) a).
Definition later (a : agenda) : agenda := map (fun x => (fst x - 1, snd x)) (filter (fun x => 1 < fst x) a).

Definition the_job (e : t_q_event) : job := mkJob (func e) (param e) (handle e).

(** The times of events from a running time on. *)
Fixpoint dues (r : Z) (l : list t_q_event) : agenda :=
  match l with
  | [] => []
  | e :: l => (r + time_from_last e, the_job e) :: dues (r + time_from_last e) l
  end.

(** The head is due when the counter says; its own field is what the counter started from. *)
Definition agenda_of (count : Z) (l : list t_q_event) : agenda :=
  match l with
  | [] => []
  | e :: l => (count, the_job e) :: dues count l
  end.

Fixpoint total (l : list t_q_event) : Z := match l with [] => 0 | e :: l => time_from_last e + total l end.

Lemma dues_app r l1 l2 : dues r (l1 ++ l2) = dues r l1 ++ dues (r + total l1) l2.
Proof.
  revert r. induction l1 as [|e l1 IH]; intros r; cbn [dues app total]; [rewrite Z.add_0_r; reflexivity|].
  rewrite IH, Z.add_assoc. reflexivity.
Qed.

Lemma agenda_dues l count : (match l with [] => True | e :: _ => time_from_last e = count end) -> agenda_of count l = dues 0 l.
Proof. destruct l as [|e l]; [reflexivity|]. intros <-. reflexivity. Qed.

Lemma dues_shift r d l : dues (r + d) l = map (fun x => (fst x + d, snd x)) (dues r l).
Proof.
  revert r. induction l as [|e l IH]; intros r; cbn; [reflexivity|]. f_equal; [f_equal; lia|].
  rewrite <- IH. f_equal. lia.
Qed.

Lemma schedule_app t j a b :
  Forall (fun x => fst x <= t) a -> (match b with [] => True | x :: _ => t < fst x end) -> schedule t j (a ++ b) = a ++ (t, j) :: b.
Proof.
  intros Ha Hb. induction a as [|[u k] a IH]; cbn [app schedule].
  - destruct b as [|[u k] b]; [reflexivity|]. cbn. cbn in Hb. rewrite (proj2 (Z.ltb_lt t u) Hb). reflexivity.
  - apply Forall_cons in Ha as [Hu Ha]. cbn in Hu. rewrite (proj2 (Z.ltb_ge t u) Hu), IH by exact Ha. reflexivity.
Qed.

(** Times that fit: no time is negative and none of the sums leaves 32 bits. *)
Definition fits (l : list t_q_event) : Prop := Forall (fun e => 0 <= time_from_last e) l /\ total l < 2 ^ 32.

Lemma total_app l1 l2 : total (l1 ++ l2) = total l1 + total l2.
Proof. induction l1 as [|e l1 IH]; cbn; lia. Qed.
Lemma total_nonneg l : Forall (fun e => 0 <= time_from_last e) l -> 0 <= total l.
Proof. induction 1; cbn; lia. Qed.

(** ** Placing an event *)

Lemma find_place_spec t l : forall r before after r',
  Forall (fun e => 0 <= time_from_last e) l -> 0 <= r <= t -> r + total l < 2 ^ 32 ->
  find_place t r l = (before, after, r') ->
  l = before ++ after /\ Forall (fun x => fst x <= t) (dues r before) /\ r + total before <= t
  /\ match after with [] => r' = r + total before | p :: _ => r' = r + total before + time_from_last p /\ t < r' end.
Proof.
  induction l as [|e l IH]; intros r before after r' Hp Hr Ht; cbn [find_place].
  - intros [= <- <- <-]. cbn [app dues total]. split; [reflexivity|]. split; [constructor|]. lia.
  - apply Forall_cons in Hp as [He Hp]. cbv beta in He. change (total (e :: l)) with (time_from_last e + total l) in Ht. pose proof (total_nonneg l Hp).
    rewrite u32_small by lia. destruct (Z.ltb_spec t (r + time_from_last e)) as [Hlt | Hge].
    + intros [= <- <- <-]. cbn [app dues total]. split; [reflexivity|]. split; [constructor|]. lia.
    + destruct (find_place t (r + time_from_last e) l) as [[b a] r1] eqn:E1. intros [= <- <- <-].
      destruct (IH (r + time_from_last e) b a r1 Hp ltac:(lia) ltac:(lia) E1) as (-> & HF & HT & HA). cbn [app dues].
      change (total (e :: b)) with (time_from_last e + total b).
      split; [reflexivity|]. split; [constructor; [exact Hge | exact HF]|]. split; [lia|]. destruct a as [|p a]; lia.
Qed.

Definition key (e : t_q_event) : Z * Z := (addr e, handle e).

(** What the three cases of [insert_event] have in common. *)
Definition take_time (d : Z) (l : list t_q_event) : list t_q_event :=
  match l with [] => [] | p :: l => SET_time_from_last (time_from_last p - d) p :: l end.

Lemma insert_shape t n l : fits l -> 0 < t < 2 ^ 32 ->
  exists before after, l = before ++ after
  /\ insert_event t n l = before ++ SET_times (t - total before) n :: take_time (t - total before) after
  /\ Forall (fun x => fst x <= t) (dues 0 before) /\ 0 <= total before <= t
  /\ match after with [] => True | p :: _ => t < total before + time_from_last p end.
Proof.
  intros [Hp Ht] H0. unfold insert_event. destruct (find_place t 0 l) as [[before after] r'] eqn:E1.
  destruct (find_place_spec t l 0 before after r' Hp ltac:(lia) ltac:(lia) E1) as (-> & HF & HT & HA).
  exists before, after. split; [reflexivity|]. apply Forall_app in Hp as [Hb Ha]. pose proof (total_nonneg _ Hb) as Hn.
  split; [|split; [exact HF|]; split; [lia | destruct after; [exact I | lia]]]. rewrite Z.add_0_l in HA.
  rewrite total_app in Ht. destruct after as [|p rest].
  - subst r'. rewrite u32_small by lia. destruct before; [cbn; rewrite Z.sub_0_r; reflexivity | reflexivity].
  - destruct HA as [-> HA]. apply Forall_cons in Ha as [Hq Hr]. cbv beta in Hq. pose proof (total_nonneg _ Hr).
    change (total (p :: rest)) with (time_from_last p + total rest) in Ht. destruct before as [|e before].
    + change (total []) with 0 in *. rewrite Z.sub_0_r, u32_small by lia. reflexivity.
    + replace (total (e :: before) + time_from_last p - time_from_last p) with (total (e :: before)) by lia.
      rewrite (u32_small (total (e :: before))), (u32_small (t - _)), u32_small by lia. reflexivity.
Qed.

Lemma dues_take r d l : dues (r + d) (take_time d l) = dues r l.
Proof. destruct l as [|p l]; [reflexivity|]. cbn. replace (r + d + (time_from_last p - d)) with (r + time_from_last p) by lia. reflexivity. Qed.

Lemma key_time x e : key (SET_time_from_last x e) = key e.
Proof. reflexivity. Qed.
Lemma keys_take d l : map key (take_time d l) = map key l.
Proof. destruct l; reflexivity. Qed.

(** The events after an insertion are due when they were before, the new one when it was
    asked for, behind those due at the same time; the times still fit. *)
Lemma insert_schedules t n l :
  fits l -> 0 < t < 2 ^ 32 ->
  dues 0 (insert_event t n l) = schedule t (the_job n) (dues 0 l)
  /\ map key (insert_event t n l) ≡ₚ key n :: map key l
  /\ fits (insert_event t n l).
Proof.
  intros HF H0. destruct (insert_shape t n l HF H0) as (before & after & -> & -> & HB & HT & HA). destruct HF as [Hp Hs].
  apply Forall_app in Hp as [Hb Ha]. rewrite total_app in Hs. split; [|split; [|split]].
  - rewrite !dues_app. cbn [dues time_from_last SET_times SET_time_from_last SET_original_time].
    rewrite Z.add_0_l, dues_take. replace (total before + (t - total before)) with t by lia.
    rewrite schedule_app; [reflexivity | exact HB |]. destruct after; [exact I | exact HA].
  - rewrite !map_app. cbn [map]. rewrite keys_take. rewrite Permutation_middle. reflexivity.
  - apply Forall_app. split; [exact Hb|]. constructor; [cbn; lia|]. destruct after as [|p rest]; [constructor|].
    apply Forall_cons in Ha as [Hq Hr]. cbv beta in Hq. constructor; [cbn; lia | exact Hr].
  - rewrite total_app. destruct after as [|p rest]; cbn in Hs |- *; lia.
Qed.

(** ** Handles, chains and memory *)

Definition bucket (h : Z) : nat := Z.to_nat (h .& HASH_MASK).

Lemma bucket_lt h : (bucket h < 16)%nat.
Proof.
  unfold bucket, HASH_MASK. change 0xf with (2 ^ 4 - 1). rewrite land_mask by lia.
  pose proof (Z.mod_pos_bound h (2 ^ 4) ltac:(lia)). lia.
Qed.

(** [ks] are the addresses and handles of the events. *)
Record linked (ks : list (Z * Z)) (q : queue) (mem : list Z) : Prop := {
  lk_addr : NoDup (map fst ks ++ free q ++ mem);
  lk_handle : NoDup (map snd ks);
  lk_range k : k ∈ ks -> 0 < snd k < free_handle q;
  lk_next : 0 < free_handle q <= 0xffff;
  lk_table : length (table q) = 16%nat;
  lk_chain i ch : table q !! i = Some ch ->
    NoDup ch /\ forall a, a ∈ ch <-> exists h, (a, h) ∈ ks /\ bucket h = i
}.

Lemma linked_perm ks ks' q mem : ks ≡ₚ ks' -> linked ks q mem -> linked ks' q mem.
Proof.
  intros HP []. split; auto.
  - rewrite <- HP. assumption.
  - rewrite <- HP. assumption.
  - intros k Hk. apply lk_range0. rewrite HP. exact Hk.
  - intros i ch Hi. destruct (lk_chain0 i ch Hi) as [HN HC]. split; [exact HN|]. intros a. rewrite HC. setoid_rewrite HP. reflexivity.
Qed.

(** The links do not depend on the events themselves. *)
Lemma linked_events ks q l mem : linked ks q mem -> linked ks (SET_events l q) mem.
Proof. intros []. split; auto. Qed.

Section Unlink.
Context {E D : Type}.
Abbreviation X := (M E (sched D)).

Lemma find_addr l e : NoDup (map addr l) -> e ∈ l -> find (fun x => addr x =? addr e) l = Some e.
Proof.
  induction l as [|x l IH]; intros HN He; [inversion He|]. cbn in *. apply NoDup_cons in HN as [Hx HN].
  apply elem_of_cons in He as [-> | He]; [rewrite Z.eqb_refl; reflexivity|].
  destruct (Z.eqb_spec (addr x) (addr e)) as [Ea |]; [|apply IH; assumption].
  exfalso. apply Hx. rewrite Ea. apply list_elem_of_fmap. eauto.
Qed.

Lemma handle_inj l e e' : NoDup (map handle l) -> e ∈ l -> e' ∈ l -> handle e = handle e' -> e = e'.
Proof.
  induction l as [|x l IH]; intros HN He He' Eh; [inversion He|]. cbn in HN. apply NoDup_cons in HN as [Hx HN].
  apply elem_of_cons in He as [-> | He]; apply elem_of_cons in He' as [-> | He']; auto.
  - exfalso. apply Hx. rewrite Eh. apply list_elem_of_fmap. eauto.
  - exfalso. apply Hx. rewrite <- Eh. apply list_elem_of_fmap. eauto.
Qed.

Lemma unlink_found e l ch s : NoDup (map addr l) -> NoDup (map handle l) -> NoDup ch ->
  (forall a, a ∈ ch -> exists x, x ∈ l /\ addr x = a) -> e ∈ l -> addr e ∈ ch ->
  exists ch', (unlink (handle e) l ch : X _) s = Ret (Some (addr e, ch')) s /\ ch ≡ₚ addr e :: ch'.
Proof.
  intros HA HH. induction ch as [|a ch IH]; intros HN HI He Ha; [inversion Ha|]. cbn [unlink].
  apply NoDup_cons in HN as [Hn HN]. destruct (HI a) as (x & Hx & Ex); [constructor|]. rewrite <- Ex, find_addr by assumption.
  destruct (Z.eqb_spec (handle x) (handle e)) as [Eh | Eh].
  - rewrite (handle_inj l x e HH Hx He Eh) in *. eauto.
  - apply elem_of_cons in Ha as [Ha | Ha].
    + exfalso. apply Eh. f_equal. assert (Ee : addr x = addr e) by congruence.
      pose proof (find_addr l x HA Hx) as F1. rewrite Ee, (find_addr l e HA He) in F1. congruence.
    + destruct IH as (ch' & E1 & HP); [assumption | intros; apply HI; constructor; assumption | assumption..|].
      exists (addr x :: ch'). rewrite (bind_ret _ _ _ _ _ E1). split; [reflexivity|]. rewrite HP. apply perm_swap.
Qed.

Lemma unlink_none h l ch s : NoDup (map addr l) -> (forall a, a ∈ ch -> exists x, x ∈ l /\ addr x = a) ->
  (forall e, e ∈ l -> handle e <> h) -> (unlink h l ch : X _) s = Ret None s.
Proof.
  intros HA. induction ch as [|a ch IH]; intros HI Hh; [reflexivity|]. cbn [unlink].
  destruct (HI a) as (x & Hx & Ex); [constructor|]. rewrite <- Ex, find_addr by assumption.
  rewrite (proj2 (Z.eqb_neq _ _) (Hh x Hx)). rewrite (bind_ret _ _ _ _ _ (IH ltac:(intros; apply HI; constructor; assumption) Hh)). reflexivity.
Qed.

Lemma chain_at q h : length (table q) = 16%nat -> table q !! bucket h = Some (chain q h).
Proof.
  intros HL. pose proof (bucket_lt h). destruct (lookup_lt_is_Some_2 (table q) (bucket h)) as [ch Hc]; [lia|].
  unfold chain. fold (bucket h). rewrite Hc. reflexivity.
Qed.

Lemma chain_members ks q mem h : linked ks q mem -> NoDup (chain q h) /\ forall a, a ∈ chain q h <-> exists h', (a, h') ∈ ks /\ bucket h' = bucket h.
Proof. intros HL. apply (lk_chain _ _ _ HL). apply chain_at, HL. Qed.

(** Unlinking an event by its handle, and one that is not there. *)
Lemma unlink_event l q mem e s : linked (map key l) q mem -> e ∈ l ->
  exists ch', (unlink (handle e) l (chain q (handle e)) : X _) s = Ret (Some (addr e, ch')) s /\ chain q (handle e) ≡ₚ addr e :: ch'.
Proof.
  intros HL He. destruct (chain_members _ _ _ (handle e) HL) as [HN HC]. destruct HL.
  rewrite map_map in *. change (fun x => fst (key x)) with addr in *. change (fun x => snd (key x)) with handle in *.
  apply NoDup_app in lk_addr0 as (HA & _ & _). apply unlink_found; auto.
  - intros a Ha. apply HC in Ha as (h' & Hin & _). apply list_elem_of_fmap in Hin as (x & [= -> ->] & Hx). eauto.
  - apply HC. exists (handle e). split; [|reflexivity]. apply list_elem_of_fmap. exists e. auto.
Qed.
Lemma unlink_absent l q mem h s : linked (map key l) q mem -> (forall e, e ∈ l -> handle e <> h) ->
  (unlink h l (chain q h) : X _) s = Ret None s.
Proof.
  intros HL Hh. destruct (chain_members _ _ _ h HL) as [HN HC]. destruct HL.
  rewrite map_map in *. change (fun x => fst (key x)) with addr in *.
  apply NoDup_app in lk_addr0 as (HA & _ & _). apply unlink_none; auto.
  intros a Ha. apply HC in Ha as (h' & Hin & _). apply list_elem_of_fmap in Hin as (x & [= -> ->] & Hx). eauto.
Qed.

End Unlink.

(** An event leaves: its chain, and its structure goes to the free list. *)
Lemma linked_remove a h ks q mem ch : linked ((a, h) :: ks) q mem -> chain q h ≡ₚ a :: ch ->
  linked ks (SET_free (a :: free q) (SET_chain h ch q)) mem.
Proof.
  intros HL HP. destruct (chain_members _ _ _ h HL) as [HN HC]. destruct HL. cbn in *. split; cbn.
  - rewrite <- (Permutation_middle (map fst ks) (free q ++ mem) a). exact lk_addr0.
  - apply NoDup_cons in lk_handle0. apply lk_handle0.
  - intros k Hk. apply lk_range0. constructor. exact Hk.
  - exact lk_next0.
  - rewrite length_insert. exact lk_table0.
  - intros i c Hi. fold (bucket h) in Hi. rewrite HP in HN. apply NoDup_cons in HN as [Hna HNc].
    assert (Hnk : forall h', (a, h') ∉ ks).
    { intros h' Hin. apply NoDup_cons in lk_addr0 as [Ha _]. apply Ha. apply elem_of_app. left. apply list_elem_of_fmap. exists (a, h'). auto. }
    apply list_lookup_insert_Some in Hi as [(<- & <- & _) | (Hne & Hi)].
    + split; [exact HNc|]. intros b. split.
      * intros Hb. assert (Hb' : b ∈ chain q h) by (rewrite HP; constructor; exact Hb).
        apply HC in Hb' as (h' & Hin & Eb). exists h'. split; [|exact Eb]. apply elem_of_cons in Hin as [[= -> ->] | Hin]; [contradiction | exact Hin].
      * intros (h' & Hin & Eb). assert (Hb : b ∈ chain q h) by (apply HC; exists h'; split; [constructor; exact Hin | exact Eb]).
        rewrite HP in Hb. apply elem_of_cons in Hb as [-> | Hb]; [destruct (Hnk _ Hin) | exact Hb].
    + destruct (lk_chain0 i c Hi) as [HN' HC']. split; [exact HN'|]. intros b. rewrite HC'. split.
      * intros (h' & Hin & Eb). exists h'. split; [|exact Eb]. apply elem_of_cons in Hin as [[= -> ->] | Hin]; [congruence | exact Hin].
      * intros (h' & Hin & Eb). exists h'. split; [constructor; exact Hin | exact Eb].
Qed.

(** An event comes, with a structure that is not in use and the next handle. *)
Lemma linked_insert a ks q mem fr : linked ks q mem -> free_handle q < 0xffff ->
  forall mem', free q ++ mem ≡ₚ a :: fr ++ mem' ->
  linked ((a, free_handle q) :: ks)
    (SET_chain (free_handle q) (chain q (free_handle q) ++ [a]) (SET_free_handle (free_handle q + 1) (SET_free fr q))) mem'.
Proof.
  intros HL Hf mem' HP. destruct (chain_members _ _ _ (free_handle q) HL) as [HN HC]. destruct HL. set (h := free_handle q) in *.
  assert (Ha : a ∉ map fst ks).
  { rewrite HP in lk_addr0. intros Hin. apply NoDup_app in lk_addr0 as (_ & Hd & _). apply (Hd a Hin). constructor. }
  assert (Hac : forall i ch, table q !! i = Some ch -> a ∉ ch).
  { intros i ch Hi Hin. apply (lk_chain0 i ch Hi) in Hin as (h' & Hin & _). apply Ha. apply list_elem_of_fmap. exists (a, h'). auto. }
  split; cbn.
  - rewrite HP, <- (Permutation_middle (map fst ks) (fr ++ mem') a) in lk_addr0. exact lk_addr0.
  - apply NoDup_cons. split; [|exact lk_handle0]. intros Hin. apply list_elem_of_fmap in Hin as (k & Ek & Hk).
    apply lk_range0 in Hk. fold h in Hk. lia.
  - intros k Hk. apply elem_of_cons in Hk as [-> | Hk]; cbn; [fold h in lk_next0; lia|]. apply lk_range0 in Hk. fold h in Hk. lia.
  - fold h in lk_next0. lia.
  - rewrite length_insert. exact lk_table0.
  - intros i c Hi. fold (bucket h) in Hi. apply list_lookup_insert_Some in Hi as [(<- & <- & _) | (Hne & Hi)].
    + split.
      * apply NoDup_app. split; [exact HN|]. split; [|apply NoDup_singleton]. intros x Hx Hx'. apply list_elem_of_singleton in Hx' as ->.
        exact (Hac _ _ (chain_at q h lk_table0) Hx).
      * intros b. rewrite elem_of_app, HC, list_elem_of_singleton. split.
        -- intros [(h' & Hin & Eb) | ->]; [exists h'; split; [constructor; exact Hin | exact Eb] | exists h; split; [constructor | reflexivity]].
        -- intros (h' & Hin & Eb). apply elem_of_cons in Hin as [[= -> ->] | Hin]; [right; reflexivity | left; eauto].
    + destruct (lk_chain0 i c Hi) as [HN' HC']. split; [exact HN'|]. intros b. rewrite HC'. split.
      * intros (h' & Hin & Eb). exists h'. split; [constructor; exact Hin | exact Eb].
      * intros (h' & Hin & Eb). exists h'. split; [|exact Eb]. apply elem_of_cons in Hin as [[= -> ->] | Hin]; [congruence | exact Hin].
Qed.

(** ** Times under the operations *)

Lemma dues_ge r l : Forall (fun e => 0 <= time_from_last e) l -> Forall (fun x => r <= fst x) (dues r l).
Proof.
  revert r. induction l as [|e l IH]; intros r Hp; [constructor|]. apply Forall_cons in Hp as [He Hp]. cbv beta in He.
  constructor; [cbn; lia|]. eapply Forall_impl; [apply IH, Hp|]. cbn. intros; lia.
Qed.

Lemma insert_types ty t n l : fits l -> 0 < t < 2 ^ 32 -> event_type n = ty ->
  Forall (fun e => event_type e = ty) l -> Forall (fun e => event_type e = ty) (insert_event t n l).
Proof.
  intros HF H0 Hn HT. destruct (insert_shape t n l HF H0) as (before & after & -> & -> & _). apply Forall_app in HT as [Hb Ha].
  apply Forall_app. split; [exact Hb|]. constructor; [exact Hn|]. destruct after; [constructor|].
  apply Forall_cons in Ha as [Hp Ha]. constructor; assumption.
Qed.

Lemma insert_head t n l : fits l -> 0 < t < 2 ^ 32 -> (match l with [] => True | e :: _ => 0 < time_from_last e end) ->
  exists e l', insert_event t n l = e :: l' /\ 0 < time_from_last e.
Proof.
  intros HF H0 Hh. destruct (insert_shape t n l HF H0) as (before & after & -> & -> & _). destruct before as [|e before].
  - eexists _, _. split; [reflexivity|]. cbn. lia.
  - eexists _, _. split; [reflexivity | exact Hh].
Qed.

Lemma set_head_shape t q : events (set_head_time t q) = match events q with [] => [] | e :: l => SET_time_from_last t e :: l end.
Proof. unfold set_head_time. destruct (events q) eqn:E1; [exact E1 | reflexivity]. Qed.

(** The events with no time of their own. *)
Fixpoint due_prefix (l : list t_q_event) : list t_q_event * list t_q_event :=
  match l with
  | [] => ([], [])
  | e :: l' => if time_from_last e =? 0 then let '(a, b) := due_prefix l' in (e :: a, b) else ([], l)
  end.

Lemma due_prefix_spec l : forall a b, due_prefix l = (a, b) ->
  l = a ++ b /\ Forall (fun e => time_from_last e = 0) a /\ match b with [] => True | e :: _ => time_from_last e <> 0 end.
Proof.
  induction l as [|e l IH]; cbn [due_prefix]; intros a b.
  - intros [= <- <-]. repeat split. constructor.
  - destruct (Z.eqb_spec (time_from_last e) 0) as [E0 | E0].
    + destruct (due_prefix l) as [a' b'] eqn:E1. intros [= <- <-]. destruct (IH _ _ eq_refl) as (-> & HA & HB).
      repeat split; [constructor; assumption | exact HB].
    + intros [= <- <-]. repeat split; [constructor | exact E0].
Qed.

Lemma dues_zero r a b : Forall (fun e => time_from_last e = 0) a -> dues r (a ++ b) = map (fun e => (r, the_job e)) a ++ dues r b.
Proof.
  induction 1 as [|e a He HA IH]; [reflexivity|]. cbn. rewrite He, Z.add_0_r, IH. reflexivity.
Qed.

Lemma filter_all {A} (P : A -> Prop) `{forall x, Decision (P x)} l : Forall P l -> filter P l = l.
Proof. induction 1 as [|x l Hx HL IH]; [reflexivity|]. rewrite filter_cons_True by exact Hx. rewrite IH. reflexivity. Qed.
Lemma filter_none {A} (P : A -> Prop) `{forall x, Decision (P x)} l : Forall (fun x => ~ P x) l -> filter P l = [].
Proof. induction 1 as [|x l Hx HL IH]; [reflexivity|]. rewrite filter_cons_False by exact Hx. exact IH. Qed.

(** What is due at a tick, and what is left of the times. *)
Lemma tick_agenda e l a b : Forall (fun e => 0 <= time_from_last e) l -> due_prefix l = (a, b) ->
  due_now (agenda_of 1 (e :: l)) = map the_job (e :: a)
  /\ later (agenda_of 1 (e :: l)) = agenda_of (match b with [] => 0 | x :: _ => time_from_last x end) b.
Proof.
  intros Hp E1. destruct (due_prefix_spec _ _ _ E1) as (-> & HA & HB). apply Forall_app in Hp as [_ Hp].
  assert (HN : Forall (fun x => 1 < fst x) (dues 1 b)).
  { destruct b as [|x b]; [constructor|]. apply Forall_cons in Hp as [Hx Hp]. cbv beta in Hx. constructor; [cbn; lia|].
    eapply Forall_impl; [apply dues_ge, Hp|]. cbn. intros; lia. }
  assert (EA : agenda_of 1 (e :: a ++ b) = map (fun e => (1, the_job e)) (e :: a) ++ dues 1 b)
    by (cbn [agenda_of]; rewrite dues_zero by exact HA; reflexivity).
  assert (HM : Forall (fun x : Z * job => fst x = 1) (map (fun e => (1, the_job e)) (e :: a)))
    by (apply Forall_fmap, Forall_true; reflexivity).
  unfold due_now, later. rewrite EA, !filter_app.
  rewrite (filter_all (fun x => fst x <= 1)) by (eapply Forall_impl; [exact HM|]; cbn; intros; lia).
  rewrite (filter_none (fun x => fst x <= 1)) by (eapply Forall_impl; [exact HN|]; cbn; intros; lia).
  rewrite (filter_none (fun x => 1 < fst x)) by (eapply Forall_impl; [exact HM|]; cbn; intros; lia).
  rewrite (filter_all (fun x => 1 < fst x)) by exact HN. rewrite app_nil_r, map_map. split; [reflexivity|]. cbn [app].
  rewrite agenda_dues by (destruct b; reflexivity). rewrite (dues_shift 0 1 b : dues 1 b = _), map_map.
  rewrite <- (map_id (dues 0 b)) at 2. apply map_ext. intros [u k]. cbn. f_equal. lia.
Qed.

Lemma wait_agenda c e l : Forall (fun e => 0 <= time_from_last e) l -> 1 < c ->
  due_now (agenda_of c (e :: l)) = [] /\ later (agenda_of c (e :: l)) = agenda_of (c - 1) (e :: l).
Proof.
  intros Hp Hc. assert (HA : Forall (fun x => 1 < fst x) (agenda_of c (e :: l))).
  { constructor; [exact Hc|]. eapply Forall_impl; [apply dues_ge, Hp|]. cbn. intros; lia. }
  unfold due_now, later. rewrite (filter_none (fun x => fst x <= 1)) by (eapply Forall_impl; [exact HA|]; cbn; intros; lia).
  rewrite (filter_all (fun x => 1 < fst x)) by exact HA. split; [reflexivity|]. cbn [agenda_of map]. f_equal.
  replace c with (c - 1 + 1) at 1 by lia. rewrite dues_shift, map_map. rewrite <- (map_id (dues (c - 1) l)) at 2.
  apply map_ext. intros [u k]. cbn. f_equal. lia.
Qed.

(** *** Leaving the queue *)

Lemma split_at_here before e rest : NoDup (map addr (before ++ e :: rest)) -> split_at_addr (addr e) (before ++ e :: rest) = Some (before, e, rest).
Proof.
  induction before as [|x before IH]; cbn; intros HN; [rewrite Z.eqb_refl; reflexivity|]. apply NoDup_cons in HN as [Hx HN].
  destruct (Z.eqb_spec (addr x) (addr e)) as [Ea | Ea]; [|rewrite IH by exact HN; reflexivity].
  exfalso. apply Hx. rewrite Ea, map_app. apply elem_of_app. right. constructor.
Qed.

Lemma jobs_dues r l : map snd (dues r l) = map the_job l.
Proof. revert r. induction l as [|e l IH]; intros r; cbn; [reflexivity|]. rewrite IH. reflexivity. Qed.

Lemma cancel_other h a : Forall (fun j => j_handle j <> h) (map snd a) -> cancel h a = a.
Proof. intros HF. apply filter_all, Forall_forall. intros x Hx. apply (proj1 (Forall_forall _ _) HF (snd x)), list_elem_of_fmap. eauto. Qed.

Lemma cancel_one h a u j b : j_handle j = h -> Forall (fun j => j_handle j <> h) (map snd a) -> Forall (fun j => j_handle j <> h) (map snd b) ->
  cancel h (a ++ (u, j) :: b) = a ++ b.
Proof.
  intros Hj Ha Hb. unfold cancel. rewrite filter_app, filter_cons_False by (cbn; auto). fold (cancel h a) (cancel h b).
  rewrite !cancel_other by assumption. reflexivity.
Qed.

Lemma others_handles before e rest : NoDup (map handle (before ++ e :: rest)) ->
  Forall (fun j => j_handle j <> handle e) (map the_job before) /\ Forall (fun j => j_handle j <> handle e) (map the_job rest).
Proof.
  rewrite map_app. cbn. intros HN. apply NoDup_app in HN as (_ & Hd & HN). apply NoDup_cons in HN as [Hr _].
  split; apply Forall_forall; intros j (x & -> & Hx)%list_elem_of_fmap; cbn; intros Eh.
  - apply (Hd (handle x)); [apply list_elem_of_fmap; eauto | rewrite Eh; constructor].
  - apply Hr. rewrite <- Eh. apply list_elem_of_fmap. eauto.
Qed.

(** The next event takes the time of one that leaves. *)
Lemma dues_add r t l : 0 <= t -> Forall (fun e => 0 <= time_from_last e) l -> t + total l < 2 ^ 32 -> dues r (add_time t l) = dues (r + t) l.
Proof.
  intros Ht Hp Hs. destruct l as [|e l]; [reflexivity|]. apply Forall_cons in Hp as [He Hp]. cbv beta in He. pose proof (total_nonneg _ Hp).
  cbn in Hs |- *. rewrite u32_small by lia. replace (r + (time_from_last e + t)) with (r + t + time_from_last e) by lia. reflexivity.
Qed.
Lemma keys_add t l : map key (add_time t l) = map key l.
Proof. destruct l; reflexivity. Qed.
Lemma fits_add t l : 0 <= t -> Forall (fun e => 0 <= time_from_last e) l -> t + total l < 2 ^ 32 ->
  Forall (fun e => 0 <= time_from_last e) (add_time t l) /\ total (add_time t l) <= t + total l.
Proof.
  intros Ht Hp Hs. destruct l as [|e l]; [cbn in *; split; [constructor | lia]|]. apply Forall_cons in Hp as [He Hp]. cbv beta in He.
  pose proof (total_nonneg _ Hp). cbn in Hs |- *. rewrite u32_small by lia. split; [constructor; [cbn; lia | exact Hp] | lia].
Qed.

(** ** The tick queue *)

(** The state of the abstract queue: what is pending, the next handle, and the rest of
    the machine as the callbacks left it. *)
Record spec (D : Type) := mkSpec { pending : agenda; next_handle : Z; seen : D }.
Arguments mkSpec {D} _ _ _.
Arguments pending {D} _.
Arguments next_handle {D} _.
Arguments seen {D} _.

Inductive op := Add (fn time par : Z) | Cancel (h : Z) | OneTick.

Section TickQueue.
Context {E D : Type} `{Callbacks E D} (fuel : nat).
Abbreviation X := (M E (sched D)).

(** The callbacks do their work elsewhere: they leave the queues alone. *)
Context (note : Z -> Z -> D -> D).
Context (Hcall : forall fn par s, call fn par s = Ret tt (SET_world (note fn par (world s)) s)).

Definition run_job (d : D) (j : job) : D := note (j_fn j) (j_par j) d.

Definition spec_op (o : op) (a : spec D) : Z * spec D :=
  match o with
  | Add fn time par =>
      if time =? 0 then (0, mkSpec (pending a) (next_handle a) (note fn par (seen a)))
      else (next_handle a, mkSpec (schedule time (mkJob fn par (next_handle a)) (pending a)) (next_handle a + 1) (seen a))
  | Cancel h => (0, mkSpec (cancel h (pending a)) (next_handle a) (seen a))
  | OneTick => (0, mkSpec (later (pending a)) (next_handle a) (fold_left run_job (due_now (pending a)) (seen a)))
  end.

Definition run_op (o : op) : X Z :=
  match o with
  | Add fn time par => add_tic_event fn time par
  | Cancel h => delete_tic_event fuel h ;; ret 0
  | OneTick => dispatch_tic_event fuel ;; ret 0
  end.

(** The rates divide. *)
Definition usable (c : calibration) : Prop := usecPerIJC c <> 0 /\ ideal_q_rate c <> 0.

Record represents (a : spec D) (s : sched D) : Prop := {
  rp_linked : linked (map key (events (tick s))) (tick s) (pool s);
  rp_pending : agenda_of (tic_event_count s) (events (tick s)) = pending a;
  rp_count : match events (tick s) with [] => True | e :: _ => 0 < tic_event_count s <= time_from_last e end;
  rp_fits : fits (events (tick s));
  rp_type : Forall (fun e => event_type e = EVENT_TICK) (events (tick s));
  rp_next : free_handle (tick s) = next_handle a;
  rp_seen : world s = seen a;
  rp_cal : usable (cal s)
}.

(** The structures an event can still get. *)
Definition room (s : sched D) : nat := length (free (tick s) ++ pool s).

Lemma take_structure_run s : (0 < room s)%nat ->
  exists a fr mem, (take_structure Tick : X _) s = Ret (Some a) (SET_pool mem (put_q Tick (SET_free fr (tick s)) s))
  /\ free (tick s) ++ pool s = a :: fr ++ mem.
Proof.
  unfold room, take_structure, bind, get_q, gets, host_malloc, mod_q, modify. cbn [the_q]. destruct (free (tick s)) as [|a fr] eqn:Ef.
  - destruct (pool s) as [|a mem] eqn:Em; cbn; [lia|]. intros _. exists a, [], mem. split; [|reflexivity].
    f_equal. destruct s as [q [] ? ? ? ? ? ? ? ?]; cbn in *. subst. reflexivity.
  - intros _. exists a, fr, (pool s). split; [|reflexivity]. destruct s; reflexivity.
Qed.

Lemma head_fits c l : fits l -> (match l with [] => True | e :: _ => 0 < c <= time_from_last e end) ->
  fits (match l with [] => [] | e :: l => SET_time_from_last c e :: l end).
Proof.
  intros [Hp Hs] Hc. destruct l as [|e l]; [split; assumption|]. apply Forall_cons in Hp as [He Hp].
  split; [constructor; [cbn; lia | exact Hp] | cbn in *; lia].
Qed.

(** The counter follows the head. *)
Definition recounted (s : sched D) : sched D :=
  match events (tick s) with [] => s | e :: _ => SET_tic_event_count (time_from_last e) s end.

Lemma recount_run h s :
  (l <- get_q Tick events ;; match l with [] => ret tt | e :: _ => set_count Tick (time_from_last e) end ;; ret h : X Z) s = Ret h (recounted s).
Proof. unfold recounted, bind, get_q, gets. cbn [the_q]. destruct (events (tick s)); reflexivity. Qed.

(** The queue once the head has the time the counter has. *)
Definition rehead (s : sched D) : sched D := put_q Tick (set_head_time (tic_event_count s) (tick s)) s.

Lemma rehead_represents a s : represents a s ->
  represents a (rehead s) /\ dues 0 (events (tick (rehead s))) = pending a
  /\ (match events (tick (rehead s)) with [] => True | e :: _ => time_from_last e = tic_event_count s end)
  /\ map key (events (tick (rehead s))) = map key (events (tick s)).
Proof.
  intros [HL HP HC HF HT HN HW HK]. pose proof (set_head_shape (tic_event_count s) (tick s)) as Es.
  assert (Et : tick (rehead s) = set_head_time (tic_event_count s) (tick s)) by reflexivity.
  assert (Eq : set_head_time (tic_event_count s) (tick s) = SET_events (events (set_head_time (tic_event_count s) (tick s))) (tick s))
    by (unfold set_head_time; destruct (events (tick s)) eqn:E1; [destruct (tick s); reflexivity | reflexivity]).
  set (c := tic_event_count s) in *. rewrite !Et. rewrite Es in *. split; [|destruct (events (tick s)); auto].
  split; try assumption; rewrite ?Et, ?Es; try assumption.
  - rewrite Eq. apply linked_events. destruct (events (tick s)); assumption.
  - change (tic_event_count (rehead s)) with c. destruct (events (tick s)); exact HP.
  - change (tic_event_count (rehead s)) with c. destruct (events (tick s)); [exact I | cbn; lia].
  - apply head_fits; assumption.
  - destruct (events (tick s)); [constructor|]. apply Forall_cons in HT as [Hq HT]. constructor; assumption.
  - rewrite Eq. exact HN.
Qed.

Lemma add_now a s fn par : represents a s ->
  add_tic_event fn 0 par s = Ret 0 (SET_world (note fn par (world s)) (rehead s))
  /\ represents (mkSpec (pending a) (next_handle a) (note fn par (seen a))) (SET_world (note fn par (world s)) (rehead s)).
Proof.
  intros HR. destruct (rehead_represents a s HR) as ([HL HP HC HF HT HN HW HK] & _ & Hh & _). split.
  - unfold add_tic_event, add_event. unfold bind at 1, get_count at 1, gets at 1. rewrite bind_assoc.
    unfold bind at 1, mod_q at 1, modify at 1. cbn [the_q]. fold (rehead s). change (0 =? 0) with true. cbv iota.
    rewrite bind_assoc, (bind_ret _ _ _ _ _ (Hcall fn par (rehead s))), bind_ret_l, recount_run. f_equal.
    unfold recounted. change (tick (SET_world _ _)) with (tick (rehead s)). destruct (events (tick (rehead s))); [reflexivity|].
    rewrite Hh. reflexivity.
  - split; try assumption. cbn. rewrite <- (rp_seen _ _ HR). reflexivity.
Qed.

Lemma add_later a s fn time par : represents a s -> 0 < time < 2 ^ 32 -> next_handle a < 0xffff -> (0 < room s)%nat ->
  exists s', add_tic_event fn time par s = Ret (next_handle a) s'
  /\ represents (mkSpec (schedule time (mkJob fn par (next_handle a)) (pending a)) (next_handle a + 1) (seen a)) s'
  /\ (room s <= S (room s'))%nat /\ (length (events (tick s')) <= S (length (events (tick s))))%nat.
Proof.
  intros HR Ht Hh Hr. destruct (rehead_represents a s HR) as (HR1 & Hd & He & Ek). set (s1 := rehead s) in *.
  destruct HR1 as [HL HP HC HF HT HN HW HK]. destruct (take_structure_run s1) as (p & fr & mem & E1 & Em).
  { unfold room, s1, rehead in *. cbn. replace (free (set_head_time _ _)) with (free (tick s)); [exact Hr|].
    unfold set_head_time. destruct (events (tick s)); reflexivity. }
  set (h := free_handle (tick s1)) in *. set (l := events (tick s1)) in *. pose proof (lk_next _ _ _ HL) as Hn. fold h in Hn.
  set (n := mkEvent p fn 0 0 h par EVENT_TICK).
  destruct (insert_schedules time n l HF Ht) as (HI & HK' & HF'). pose proof (insert_types EVENT_TICK time n l HF Ht eq_refl HT) as HT'.
  destruct (insert_head time n l HF Ht) as (e & l' & El & Hpos); [destruct l; [exact I | lia]|].
  set (q2 := SET_events (insert_event time n l)
    (SET_chain h (chain (tick s1) h ++ [p]) (SET_free_handle (h + 1) (SET_free fr (tick s1))))).
  exists (SET_tic_event_count (time_from_last e) (SET_tick q2 (SET_pool mem s1))).
  split; [|split; [|split]].
  - unfold add_tic_event, add_event. unfold bind at 1, get_count at 1, gets at 1. rewrite bind_assoc.
    unfold bind at 1, mod_q at 1, modify at 1. cbn [the_q]. fold (rehead s). fold s1.
    rewrite (proj2 (Z.eqb_neq time 0)) by lia. rewrite bind_assoc, (bind_ret _ _ _ _ _ E1). rewrite bind_assoc.
    unfold take_handle. rewrite bind_assoc. unfold bind at 1, get_q at 1, gets at 1. cbn [the_q put_q tick SET_pool SET_tick free_handle SET_free].
    fold h. replace ((h =? 0) || (h =? 0xffff)) with false by lia. rewrite bind_assoc. unfold bind at 1, mod_q at 1, modify at 1.
    rewrite bind_ret_l, bind_assoc. unfold bind at 1, mod_q at 1, modify at 1. rewrite bind_assoc. unfold bind at 1, mod_q at 1, modify at 1.
    rewrite bind_ret_l, recount_run. rewrite <- HN. f_equal. unfold recounted. cbn [tick put_q the_q SET_tick SET_pool events SET_events SET_chain SET_table SET_free_handle SET_free].
    fold l n. rewrite El. unfold q2. rewrite El. reflexivity.
  - split; cbn [tick SET_tic_event_count SET_tick SET_pool pool tic_event_count world cal pending next_handle seen q2 events SET_events free_handle]; try assumption.
    + apply linked_events. eapply linked_perm; [symmetry; exact HK'|]. subst h. apply linked_insert with (mem := pool s1); [exact HL | lia | rewrite Em; reflexivity].
    + rewrite agenda_dues by (rewrite El; reflexivity). rewrite HI, Hd. unfold the_job. cbn. rewrite <- HN. reflexivity.
    + rewrite El. lia.
    + cbn. rewrite <- HN. reflexivity.
  - assert (Er : room s = length (free (tick s1) ++ pool s1)).
    { unfold room. replace (free (tick s)) with (free (tick s1)) by (unfold s1, rehead; cbn; unfold set_head_time; destruct (events (tick s)); reflexivity).
      reflexivity. }
    rewrite Er, Em. unfold room. cbn. lia.
  - cbn. apply Permutation_length in HK'. cbn in HK'. rewrite !length_map in HK'. rewrite HK'. apply (f_equal length) in Ek. rewrite !length_map in Ek. fold l in Ek. lia.
Qed.

(** *** A tick *)

Definition head_time (l : list t_q_event) : Z := match l with [] => 0 | x :: _ => time_from_last x end.

Lemma dispatch_count_tick x s : event_type x = EVENT_TICK -> usable (cal s) ->
  (dispatch_count (set_count Tick) x : X unit) s = Ret tt (SET_tic_event_count (time_from_last x) s).
Proof.
  intros Ht [Hu Hi]. unfold dispatch_count, calc_q_inst_for_time. rewrite bind_assoc. unfold bind at 1, get_cal at 1, gets at 1.
  destruct (usecPerIJC (cal s) =? UNSET); [rewrite bind_ret_l, Ht; reflexivity|].
  unfold cdiv. rewrite (proj2 (Z.eqb_neq _ _) Hu), (proj2 (Z.eqb_neq _ _) Hi), bind_assoc, !bind_ret_l, Ht. reflexivity.
Qed.

(** What one round leaves behind. *)
Record dispatched (fired : list job) (rest : list t_q_event) (s s' : sched D) : Prop := {
  dp_events : events (tick s') = rest;
  dp_linked : linked (map key rest) (tick s') (pool s');
  dp_count : tic_event_count s' = head_time rest;
  dp_handle : free_handle (tick s') = free_handle (tick s);
  dp_cal : cal s' = cal s;
  dp_world : world s' = fold_left run_job fired (world s);
  dp_room : (room s <= room s')%nat
}.

Lemma dispatched_trans f1 r1 f2 r2 s1 s2 s3 : dispatched f1 r1 s1 s2 -> dispatched f2 r2 s2 s3 -> dispatched (f1 ++ f2) r2 s1 s3.
Proof.
  intros [] []. split; try assumption; try congruence; [|lia].
  rewrite fold_left_app. congruence.
Qed.

Lemma dispatch_round n e l s :
  events (tick s) = e :: l -> linked (map key (e :: l)) (tick s) (pool s) ->
  Forall (fun e => event_type e = EVENT_TICK) l -> usable (cal s) -> tic_event_count s = 0 ->
  exists s', dispatch_event (S n) Tick (set_count Tick) s =
    (match l with [] => ret tt | x :: _ => if negb (time_from_last x =? 0) then ret tt else dispatch_event n Tick (set_count Tick) end) s'
  /\ dispatched [the_job e] l s s'.
Proof.
  intros El HL HT HK H0. set (s1 := SET_tic_event_count (head_time l) (put_q Tick (SET_events l (tick s)) s)).
  destruct (unlink_event (E := E) (e :: l) (tick s) (pool s) e s1 HL) as (ch & E2 & HP); [constructor|].
  set (q := SET_free (addr e :: free (tick s)) (SET_chain (handle e) ch (SET_events l (tick s)))).
  set (s2 := SET_world (note (func e) (param e) (world s)) (SET_tick q s1)). exists s2. split.
  - cbn [dispatch_event]. unfold bind at 1, get_q at 1, gets at 1. cbn [the_q]. rewrite El.
    unfold bind at 1, mod_q at 1, modify at 1. cbn [the_q].
    assert (E1 : match l with [] => ret tt | x :: _ => dispatch_count (set_count Tick) x end (put_q Tick (SET_events l (tick s)) s) = Ret (E := E) tt s1).
    { unfold s1. destruct l as [|x l]; [unfold ret; f_equal; cbn; rewrite <- H0; destruct s; reflexivity|].
      apply Forall_cons in HT as [Hx _]. apply dispatch_count_tick; assumption. }
    rewrite (bind_ret _ _ _ _ _ E1). unfold bind at 1, get_q at 1, gets at 1. cbn [the_q].
    change (chain (tick s1) (handle e)) with (chain (tick s) (handle e)). rewrite (bind_ret _ _ _ _ _ E2).
    unfold bind at 1, mod_q at 1, modify at 1. unfold bind at 1, mod_q at 1, modify at 1.
    rewrite (bind_ret _ _ _ _ _ (Hcall (func e) (param e) _)). unfold bind at 1, get_q at 1, gets at 1. reflexivity.
  - cbn [map] in HL. split; try reflexivity.
    + change (tick s2) with (SET_events l (SET_free (addr e :: free (tick s)) (SET_chain (handle e) ch (tick s)))). apply linked_events.
      exact (linked_remove (addr e) (handle e) (map key l) (tick s) (pool s) ch HL HP).
    + unfold room. cbn. lia.
Qed.

Lemma dispatch_run n : forall e l a b s,
  events (tick s) = e :: l -> linked (map key (e :: l)) (tick s) (pool s) ->
  Forall (fun e => event_type e = EVENT_TICK) l -> usable (cal s) -> tic_event_count s = 0 ->
  due_prefix l = (a, b) -> (length l < n)%nat ->
  exists s', dispatch_event n Tick (set_count Tick) s = Ret tt s' /\ dispatched (map the_job (e :: a)) b s s'.
Proof.
  induction n as [|n IH]; intros e l a b s El HL HT HK H0 Ep Hn; [lia|].
  destruct (dispatch_round n e l s El HL HT HK H0) as (s1 & E1 & HD). rewrite E1. destruct l as [|x l].
  - injection Ep as <- <-. exists s1. auto.
  - cbn [due_prefix] in Ep. destruct (Z.eqb_spec (time_from_last x) 0) as [Ex | Ex]; cbn [negb].
    + destruct (due_prefix l) as [a' b'] eqn:Ep'. injection Ep as <- <-. apply Forall_cons in HT as [_ HT]. destruct HD.
      destruct (IH x l a' b' s1) as (s2 & E2 & HD2); auto.
      * rewrite dp_cal0. exact HK.
      * rewrite dp_count0. exact Ex.
      * cbn in Hn. lia.
      * exists s2. split; [exact E2|]. change (map the_job (e :: x :: a')) with ([the_job e] ++ map the_job (x :: a')).
        eapply dispatched_trans; [|exact HD2]. split; eassumption.
    + injection Ep as <- <-. exists s1. auto.
Qed.

Lemma tick_run a s : represents a s -> (length (events (tick s)) < fuel)%nat ->
  exists s', run_op OneTick s = Ret 0 s' /\ represents (snd (spec_op OneTick a)) s'
  /\ (room s <= room s')%nat /\ (length (events (tick s')) <= length (events (tick s)))%nat.
Proof.
  intros [HL HP HC HF HT HN HW HK] Hfu. cbn [run_op spec_op snd]. unfold dispatch_tic_event. rewrite bind_assoc.
  unfold bind at 1, get_count at 1, gets at 1. set (c := tic_event_count s) in *. destruct HF as [Hp Hs].
  destruct (events (tick s)) as [|e l] eqn:El.
  - exists (if 0 <? c then SET_tic_event_count (c - 1) s else s). rewrite <- HP. split.
    + destruct (0 <? c); [|reflexivity]. cbn [when]. rewrite bind_assoc. unfold bind at 1, set_count at 1, modify at 1.
      destruct (c - 1 =? 0); [|reflexivity]. destruct fuel as [|fl]; [cbn in Hfu; lia|]. cbn [when dispatch_event].
      rewrite bind_assoc. unfold bind at 1, get_q at 1, gets at 1. cbn [the_q tick SET_tic_event_count]. rewrite El. reflexivity.
    + destruct (0 <? c); (split; [split; cbn [tick SET_tic_event_count pool world cal pending next_handle seen]; rewrite ?El; auto; try (split; assumption)|]; unfold room; cbn; rewrite ?El; auto).
  - rewrite (proj2 (Z.ltb_lt 0 c)) by lia. cbn [when]. rewrite bind_assoc. unfold bind at 1, set_count at 1, modify at 1.
    set (s1 := SET_tic_event_count (c - 1) s). rewrite <- HP. pose proof (proj1 (Forall_cons _ _ _) Hp) as [He Hl]. cbv beta in He.
    destruct (Z.eqb_spec (c - 1) 0) as [E1 | E1]; cbn [when].
    + replace c with 1 by lia. destruct (due_prefix l) as [x b] eqn:Ep. destruct (tick_agenda e l x b Hl Ep) as [-> EL].
      destruct (dispatch_run fuel e l x b s1) as (s2 & E2 & HD); auto; [apply Forall_cons in HT; apply HT | cbn in Hfu; lia|].
      exists s2. rewrite (bind_ret _ _ _ _ _ E2). split; [reflexivity|]. destruct (due_prefix_spec _ _ _ Ep) as (Eab & HZ & Hb).
      destruct HD. subst l. apply Forall_app in Hl as [Hx Hb']. apply Forall_cons in HT as [_ HT]. apply Forall_app in HT as [_ HT].
      split; [split|].
      * rewrite dp_events0. exact dp_linked0.
      * cbn [pending]. rewrite dp_events0, dp_count0, EL. reflexivity.
      * rewrite dp_events0, dp_count0. destruct b as [|y b]; [exact I|]. apply Forall_cons in Hb' as [Hy _]. cbv beta in Hy. cbn. lia.
      * rewrite dp_events0. split; [exact Hb'|]. cbn in Hs. rewrite total_app in Hs. pose proof (total_nonneg _ Hx). lia.
      * rewrite dp_events0. exact HT.
      * rewrite dp_handle0. exact HN.
      * cbn [seen]. rewrite dp_world0. cbn [s1 world SET_tic_event_count]. rewrite HW. reflexivity.
      * rewrite dp_cal0. exact HK.
      * split; [exact dp_room0|]. rewrite dp_events0. cbn. rewrite length_app. lia.
    + exists s1. destruct (wait_agenda c e l Hl ltac:(lia)) as [-> EW]. split; [reflexivity|]. rewrite EW.
      split; [|split; [reflexivity | change (tick s1) with (tick s); rewrite El; lia]]. split; cbn [s1 tick SET_tic_event_count tic_event_count pending]; rewrite ?El; auto.
      * lia.
      * split; assumption.
Qed.

(** *** A cancellation *)

Lemma jobs_agenda c l : map snd (agenda_of c l) = map the_job l.
Proof. destruct l; [reflexivity|]. cbn. rewrite jobs_dues. reflexivity. Qed.

Lemma cancel_absent c h l : (forall e, e ∈ l -> handle e <> h) -> cancel h (agenda_of c l) = agenda_of c l.
Proof.
  intros Hh. apply cancel_other. rewrite jobs_agenda. apply Forall_forall. intros j (e & -> & He)%list_elem_of_fmap. apply Hh, He.
Qed.

Lemma keys_handles l : map snd (map key l) = map handle l.
Proof. rewrite map_map. reflexivity. Qed.
Lemma keys_addrs l : map fst (map key l) = map addr l.
Proof. rewrite map_map. reflexivity. Qed.

(** The queue after an event that is not the head has left it. *)
Lemma cancel_inner c before e rest x : fits (x :: before ++ e :: rest) ->
  NoDup (map handle (x :: before ++ e :: rest)) ->
  let l := x :: before ++ add_time (time_from_last e) rest in
  agenda_of c l = cancel (handle e) (agenda_of c (x :: before ++ e :: rest)) /\ fits l.
Proof.
  intros [Hp Hs] HN. cbv zeta. apply Forall_cons in Hp as [Hx Hp]. apply Forall_app in Hp as [Hb Hp]. apply Forall_cons in Hp as [He Hr].
  cbv beta in Hx, He. cbn [total] in Hs. rewrite total_app in Hs. cbn [total] in Hs. pose proof (total_nonneg _ Hb). pose proof (total_nonneg _ Hr).
  destruct (others_handles (x :: before) e rest HN) as [O1 O2]. split.
  - cbn [agenda_of]. rewrite !dues_app. cbn [dues]. rewrite dues_add by (assumption || lia). symmetry.
    apply (cancel_one (handle e) ((c, the_job x) :: dues c before)); [reflexivity | |].
    + cbn. rewrite jobs_dues. exact O1.
    + rewrite jobs_dues. exact O2.
  - destruct (fits_add (time_from_last e) rest ltac:(lia) Hr ltac:(lia)) as [F1 F2].
    split; [constructor; [exact Hx | apply Forall_app; split; assumption]|]. cbn [total]. rewrite total_app. lia.
Qed.

(** The queue after its head has left it. *)
Lemma cancel_head c e l : NoDup (map handle (e :: l)) ->
  cancel (handle e) (agenda_of c (e :: l)) = dues c l.
Proof.
  intros HN. destruct (others_handles [] e l HN) as [_ O2]. cbn [agenda_of]. rewrite <- (app_nil_l (_ :: _)).
  rewrite cancel_one; [reflexivity | reflexivity | constructor | rewrite jobs_dues; exact O2].
Qed.

(** What becomes of the counter and of the new head when the head [p] leaves. *)
Definition retime (p : t_q_event) (rest : list t_q_event) : X unit :=
  let '(scale_func, unscale_func) := scalers (event_type p) in
  cur_counter <- get_count Tick ;;
  time_to_next_trigger <- scale_func cur_counter ;;
  let time_counted_down := u32 (time_from_last p - time_to_next_trigger) in
  match add_time (time_from_last p) rest with
  | [] => set_count Tick 0
  | n :: rest =>
      if time_from_last n <=? time_counted_down then dispatch_q_event fuel
      else
        let t := u32 (time_from_last n - time_counted_down) in
        mod_q Tick (SET_events (SET_time_from_last t n :: rest)) ;;
        x <- unscale_func t ;; set_count Tick x
  end.

(** The queue once an event has left its chain and the list. *)
Definition unlinked (e : t_q_event) (ch : list Z) (l : list t_q_event) (s : sched D) : sched D :=
  put_q Tick (SET_free (addr e :: free (tick s)) (SET_events l (SET_chain (handle e) ch (tick s)))) s.

Lemma unlinked_room e ch l s : room (unlinked e ch l s) = S (room s).
Proof. reflexivity. Qed.

Lemma delete_found before e rest s :
  linked (map key (events (tick s))) (tick s) (pool s) -> events (tick s) = before ++ e :: rest ->
  exists ch, let s1 := unlinked e ch (before ++ add_time (time_from_last e) rest) s in
    delete_tic_event fuel (handle e) s = (match before with _ :: _ => ret tt | [] => retime e rest end) s1
    /\ linked (map key (before ++ rest)) (tick s1) (pool s1).
Proof.
  intros HL El. assert (He : e ∈ events (tick s)) by (rewrite El; apply elem_of_app; right; constructor).
  destruct (unlink_event (E := E) (events (tick s)) (tick s) (pool s) e s HL He) as (ch & E1 & HPc). exists ch. cbv zeta. split.
  - unfold delete_tic_event, delete_event.
    pose proof (lk_range _ _ _ HL (key e) ltac:(apply list_elem_of_fmap; eauto)) as Hk. cbn in Hk.
    rewrite (proj2 (Z.eqb_neq _ _)) by lia. unfold bind at 1, get_q at 1, gets at 1. cbn [the_q]. rewrite (bind_ret _ _ _ _ _ E1).
    pose proof (lk_addr _ _ _ HL) as HNa. rewrite keys_addrs in HNa. apply NoDup_app in HNa as (HNa & _ & _).
    rewrite El in *. rewrite (split_at_here before e rest HNa). unfold bind at 1, mod_q at 1, modify at 1.
    unfold bind at 1, mod_q at 1, modify at 1. destruct before; reflexivity.
  - assert (HP : map key (events (tick s)) ≡ₚ key e :: map key (before ++ rest)) by (rewrite El, !map_app; symmetry; apply Permutation_middle).
    apply (linked_perm _ _ _ _ HP) in HL.
    exact (linked_events _ _ (before ++ add_time (time_from_last e) rest) _ (linked_remove _ _ _ _ _ _ HL HPc)).
Qed.

Lemma rest_types (P : t_q_event -> Prop) before e rest : Forall P (before ++ e :: rest) -> (forall t x, P x -> P (SET_time_from_last t x)) ->
  P e /\ Forall P (before ++ add_time (time_from_last e) rest).
Proof.
  intros HF HS. apply Forall_app in HF as [Hb HF]. apply Forall_cons in HF as [He HF]. split; [exact He|]. apply Forall_app. split; [exact Hb|].
  destruct rest; [constructor|]. apply Forall_cons in HF as [Hy HF]. constructor; auto.
Qed.

(** The head leaves: the next event takes over the counter. *)
Lemma cancel_head_run a s e rest : represents a s -> events (tick s) = e :: rest ->
  exists s', delete_tic_event fuel (handle e) s = Ret tt s' /\ represents (snd (spec_op (Cancel (handle e)) a)) s'
  /\ (room s <= room s')%nat /\ (length (events (tick s')) <= length (events (tick s)))%nat.
Proof.
  intros [HL HP HC HF HT HN HW HK] El. destruct (delete_found [] e rest s HL El) as (ch & -> & HLk). cbn [app] in *.
  rewrite El in *. destruct (rest_types (fun e => event_type e = EVENT_TICK) [] e rest HT ltac:(auto)) as [Het HTr]. cbn [app] in HTr.
  set (c := tic_event_count s) in *. destruct HF as [Hp Hs]. apply Forall_cons in Hp as [_ Hp]. cbn [total] in Hs. pose proof (total_nonneg _ Hp).
  pose proof (lk_handle _ _ _ HL) as HNh. rewrite keys_handles in HNh.
  cbn [spec_op snd]. rewrite <- HP, cancel_head by exact HNh. unfold retime. rewrite Het. cbn [scalers].
  unfold bind at 1, get_count at 1, gets at 1. unfold unit_scaler at 1. rewrite bind_ret_l.
  change (tic_event_count (unlinked _ _ _ _)) with c. rewrite (u32_small (time_from_last e - c)) by lia.
  set (l := add_time (time_from_last e) rest) in *. destruct rest as [|y r]; cbn [add_time] in l; subst l.
  - eexists. split; [reflexivity|]. split; [|split; [unfold room; cbn; lia | cbn; lia]].
    split; try assumption; try exact I; try reflexivity. split; [constructor | reflexivity].
  - apply Forall_cons in Hp as [Hy Hp]. cbv beta in Hy. cbn [total] in Hs. pose proof (total_nonneg _ Hp).
    cbn [time_from_last SET_time_from_last]. rewrite (u32_small (time_from_last y + time_from_last e)) by lia.
    rewrite (proj2 (Z.leb_gt _ _)) by lia. replace (time_from_last y + time_from_last e - (time_from_last e - c)) with (c + time_from_last y) by lia.
    rewrite (u32_small (c + time_from_last y)) by lia.
    eexists. split; [reflexivity|]. split; [|split; [unfold room; cbn; lia | cbn; lia]].
    split; cbn [tick SET_tic_event_count put_q SET_tick the_q events SET_free SET_events pool world cal pending next_handle seen free_handle tic_event_count time_from_last SET_time_from_last]; auto.
    + exact (linked_events _ _ (SET_time_from_last (c + time_from_last y) (SET_time_from_last (time_from_last y + time_from_last e) y) :: r) _ HLk).
    + cbn. lia.
    + split; [constructor; [cbn; lia | exact Hp] | cbn; lia].
    + apply Forall_cons in HTr as [Hyt HTr]. constructor; assumption.
Qed.

(** An event further on leaves: the one behind it waits for both. *)
Lemma cancel_inner_run a s x before e rest : represents a s -> events (tick s) = x :: before ++ e :: rest ->
  exists s', delete_tic_event fuel (handle e) s = Ret tt s' /\ represents (snd (spec_op (Cancel (handle e)) a)) s'
  /\ (room s <= room s')%nat /\ (length (events (tick s')) <= length (events (tick s)))%nat.
Proof.
  intros [HL HP HC HF HT HN HW HK] El. destruct (delete_found (x :: before) e rest s HL El) as (ch & -> & HLk).
  rewrite El in *. destruct (rest_types (fun e => event_type e = EVENT_TICK) (x :: before) e rest HT ltac:(auto)) as [_ HTr].
  pose proof (lk_handle _ _ _ HL) as HNh. rewrite keys_handles in HNh.
  destruct (cancel_inner (tic_event_count s) before e rest x HF HNh) as [EA HF']. cbn [spec_op snd]. rewrite <- HP, <- EA.
  eexists. split; [reflexivity|]. split; [|rewrite unlinked_room; split; [lia | cbn; rewrite !length_app; destruct rest; cbn; lia]].
  split; try assumption; try reflexivity. cbn [unlinked tick put_q SET_tick events SET_free SET_events].
  rewrite map_app, keys_add, <- map_app. exact HLk.
Qed.

Lemma cancel_run a s h : represents a s ->
  exists s', run_op (Cancel h) s = Ret 0 s' /\ represents (snd (spec_op (Cancel h) a)) s'
  /\ (room s <= room s')%nat /\ (length (events (tick s')) <= length (events (tick s)))%nat.
Proof.
  intros HR. pose proof HR as [HL HP _ _ _ _ _ _]. cbn [run_op]. destruct (decide (h ∈ map handle (events (tick s)))) as [Hin | Hno].
  - apply list_elem_of_fmap in Hin as (e & -> & He). apply list_elem_of_split in He as (before & rest & El).
    assert (HS : exists s', delete_tic_event fuel (handle e) s = Ret tt s' /\ represents (snd (spec_op (Cancel (handle e)) a)) s'
      /\ (room s <= room s')%nat /\ (length (events (tick s')) <= length (events (tick s)))%nat)
      by (destruct before; [eapply cancel_head_run | eapply cancel_inner_run]; eassumption).
    destruct HS as (s' & E1 & HS). exists s'. rewrite (bind_ret _ _ _ _ _ E1). auto.
  - assert (Hh : forall e, e ∈ events (tick s) -> handle e <> h) by (intros e He Eh; apply Hno; rewrite <- Eh; apply list_elem_of_fmap; eauto).
    exists s. split; [|split; [|split; reflexivity]].
    + unfold delete_tic_event, delete_event. destruct (h =? 0); [reflexivity|]. rewrite bind_assoc. unfold bind at 1, get_q at 1, gets at 1. cbn [the_q].
      rewrite bind_assoc, (bind_ret _ _ _ _ _ (unlink_absent _ (tick s) (pool s) h s HL Hh)). reflexivity.
    + cbn [spec_op snd]. rewrite <- HP, cancel_absent, HP by exact Hh. destruct a. exact HR.
Qed.

(** *** Sequences of operations *)

Fixpoint spec_ops (os : list op) (a : spec D) : list Z * spec D :=
  match os with
  | [] => ([], a)
  | o :: os => let '(h, a) := spec_op o a in let '(hs, a) := spec_ops os a in (h :: hs, a)
  end.

Fixpoint run_ops (os : list op) : X (list Z) :=
  match os with
  | [] => ret []
  | o :: os => h <- run_op o ;; hs <- run_ops os ;; ret (h :: hs)
  end.

Definition is_add (o : op) : bool := match o with Add _ _ _ => true | _ => false end.
Definition adds (os : list op) : nat := length (List.filter is_add os).
Definition valid (o : op) : Prop := match o with Add _ t _ => 0 <= t < 2 ^ 32 | _ => True end.

Lemma ops_run os : forall a s,
  represents a s -> Forall valid os ->
  next_handle a + Z.of_nat (adds os) <= 0xffff -> (adds os <= room s)%nat -> (length (events (tick s)) + adds os < fuel)%nat ->
  exists s', run_ops os s = Ret (fst (spec_ops os a)) s' /\ represents (snd (spec_ops os a)) s'
  /\ (length (events (tick s')) <= length (events (tick s)) + adds os)%nat.
Proof.
  induction os as [|o os IH]; intros a s HR HV Hh Hr Hf; [exists s; split; [reflexivity|]; split; [exact HR | lia]|]. apply Forall_cons in HV as [Ho HV].
  assert (HS : exists s1, run_op o s = Ret (fst (spec_op o a)) s1 /\ represents (snd (spec_op o a)) s1
    /\ next_handle (snd (spec_op o a)) + Z.of_nat (adds os) <= 0xffff /\ (adds os <= room s1)%nat /\ (length (events (tick s1)) + adds os <= length (events (tick s)) + adds (o :: os))%nat).
  { destruct o as [fn time par | h |].
    - change (adds (Add fn time par :: os)) with (S (adds os)) in *. cbn [run_op spec_op valid] in *. destruct (Z.eqb_spec time 0) as [-> | H0].
      + destruct (add_now a s fn par HR) as [E1 R1]. eexists. split; [exact E1|]. split; [exact R1|]. cbn [snd next_handle].
        destruct (rehead_represents a s HR) as (_ & _ & _ & Ek). apply (f_equal length) in Ek. rewrite !length_map in Ek.
        change (tick (SET_world _ (rehead s))) with (tick (rehead s)). rewrite Ek. split; [lia|]. split; [|lia].
        replace (room (SET_world _ (rehead s))) with (room s); [lia|]. unfold room, rehead, set_head_time. cbn. destruct (events (tick s)); reflexivity.
      + destruct (add_later a s fn time par HR) as (s1 & E1 & R1 & Hr1 & Hl1); [lia..|]. exists s1.
        cbn [fst snd next_handle]. split; [exact E1|]. split; [exact R1|]. lia.
    - change (adds (Cancel h :: os)) with (adds os) in *. destruct (cancel_run a s h HR) as (s1 & E1 & R1 & Hr1 & Hl1).
      exists s1. split; [exact E1|]. split; [exact R1|]. cbn. lia.
    - change (adds (OneTick :: os)) with (adds os) in *. destruct (tick_run a s HR) as (s1 & E1 & R1 & Hr1 & Hl1); [lia|].
      exists s1. split; [exact E1|]. split; [exact R1|]. cbn. lia. }
  destruct HS as (s1 & E1 & R1 & A1 & A2 & A3). destruct (IH _ s1 R1 HV A1 A2 ltac:(lia)) as (s2 & E2 & R2 & A4). exists s2.
  cbn [run_ops spec_ops]. rewrite (bind_ret _ _ _ _ _ E1). destruct (spec_op o a) as [h a1]. cbn [fst snd] in *.
  rewrite (bind_ret _ _ _ _ _ E2). destruct (spec_ops os a1) as [hs a2]. split; [reflexivity|]. split; [exact R2 | lia].
Qed.


(** *** An event runs at its tick *)

Definition is_tick (o : op) : bool := match o with OneTick => true | _ => false end.
Definition ticks (os : list op) : Z := Z.of_nat (length (List.filter is_tick os)).
Definition spares (h : Z) (o : op) : Prop := match o with Cancel h' => h' <> h | _ => True end.

Lemma schedule_keeps t k x a : x ∈ a -> x ∈ schedule t k a.
Proof.
  induction a as [|[u j] a IH]; intros Hx; [inversion Hx|]. cbn. destruct (t <? u); [constructor; exact Hx|].
  apply elem_of_cons in Hx as [-> | Hx]; constructor; auto.
Qed.
Lemma schedule_has t k a : (t, k) ∈ schedule t k a.
Proof. induction a as [|[u j] a IH]; cbn; [constructor|]. destruct (t <? u); constructor; exact IH. Qed.

Lemma spec_op_keeps o a u j : (u, j) ∈ pending a -> spares (j_handle j) o -> (if is_tick o then 1 else 0) < u ->
  (u - (if is_tick o then 1 else 0), j) ∈ pending (snd (spec_op o a)).
Proof.
  intros Hin Hs Hu. destruct o as [fn t par | h |]; cbn [is_tick spec_op snd pending] in *; rewrite ?Z.sub_0_r.
  - destruct (t =? 0); [exact Hin | apply schedule_keeps, Hin].
  - apply list_elem_of_filter. split; [cbn in *; congruence | exact Hin].
  - apply list_elem_of_fmap. exists (u, j). split; [reflexivity|]. apply list_elem_of_filter. split; [exact Hu | exact Hin].
Qed.

(** A job waits until its time has gone. *)
Lemma spec_ops_keep os : forall a u j, (u, j) ∈ pending a -> Forall (spares (j_handle j)) os -> ticks os < u ->
  (u - ticks os, j) ∈ pending (snd (spec_ops os a)).
Proof.
  induction os as [|o os IH]; intros a u j Hin Hs Ht; cbn [spec_ops snd]; [rewrite Z.sub_0_r; exact Hin|].
  apply Forall_cons in Hs as [Ho Hs]. assert (Et : ticks (o :: os) = (if is_tick o then 1 else 0) + ticks os)
    by (unfold ticks; cbn [List.filter]; destruct (is_tick o); cbn [length]; lia).
  assert (0 <= ticks os) by (unfold ticks; lia).
  pose proof (spec_op_keeps o a u j Hin Ho ltac:(lia)) as H1. destruct (spec_op o a) as [h a1]. cbn [snd] in H1.
  specialize (IH a1 _ j H1 Hs ltac:(lia)). destruct (spec_ops os a1) as [hs a2]. cbn [snd] in *.
  replace (u - ticks (o :: os)) with (u - (if is_tick o then 1 else 0) - ticks os) by lia. exact IH.
Qed.

Lemma represents_handles a s : represents a s -> map handle (events (tick s)) = map (fun x => j_handle (snd x)) (pending a).
Proof.
  intros HR. rewrite <- (rp_pending _ _ HR), <- (map_map snd j_handle), jobs_agenda, map_map. reflexivity.
Qed.

(** What a tick does to the job that is due. *)
Lemma tick_fires a j : (1, j) ∈ pending a -> NoDup (map (fun x => j_handle (snd x)) (pending a)) ->
  j ∈ due_now (pending a) /\ j_handle j ∉ map (fun x => j_handle (snd x)) (pending (snd (spec_op OneTick a))).
Proof.
  intros Hin HN. cbn [spec_op snd pending]. split.
  - apply list_elem_of_fmap. exists (1, j). split; [reflexivity|]. apply list_elem_of_filter. split; [cbn; lia | exact Hin].
  - unfold later. rewrite map_map. intros (x & Ex & Hx)%list_elem_of_fmap. apply list_elem_of_filter in Hx as [Hx Hx'].
    apply list_elem_of_lookup in Hin as [i Hi]. apply list_elem_of_lookup in Hx' as [k Hk]. cbn in Ex.
    assert (i = k) as <-.
    { apply (NoDup_lookup _ i k (j_handle j) HN); rewrite list_lookup_fmap; [rewrite Hi | rewrite Hk; cbn; rewrite Ex]; reflexivity. }
    rewrite Hi in Hk. injection Hk as <-. cbn in Hx. lia.
Qed.

End TickQueue.

(** ** A queue at work

    The callbacks of this machine write down their name and parameter. *)

#[local] Instance log_calls : Callbacks unit (list (Z * Z)) := {|
  call fn par s := Ret tt (SET_world (world s ++ [(fn, par)]) s);
  action_interrupt _ _ fn par s := Ret tt (SET_world (world s ++ [(fn, par)]) s)
|}.
Definition log_note (fn par : Z) (d : list (Z * Z)) : list (Z * Z) := d ++ [(fn, par)].

Lemma log_calls_note fn par (s : sched (list (Z * Z))) : call fn par s = Ret (E := unit) tt (SET_world (log_note fn par (world s)) s).
Proof. reflexivity. Qed.

Definition fresh_queue : queue := mkQueue [] (repeat [] 16) [] 1.
Definition fresh : sched (list (Z * Z)) :=
  mkSched fresh_queue fresh_queue 0 0 [100; 200; 300; 400]
    (mkCal (repeat (1, 1) 8) 0 true 0 1 1 true 0 UNSET FIRSTFEW 0 IJCPERIOD 1)
    (mkReq 0 0 0 0 0 0) [] 0 [].

Lemma fresh_linked : linked [] fresh_queue [100; 200; 300; 400].
Proof.
  split; cbn; try lia.
  - apply (bool_decide_unpack (NoDup [100; 200; 300; 400])). reflexivity.
  - constructor.
  - intros k Hk. inversion Hk.
  - intros i ch Hi. change (replicate 16 (@nil Z) !! i = Some ch) in Hi. apply lookup_replicate in Hi as [-> _]. split; [constructor|]. intros a. split; [inversion 1|].
    intros (h & Hin & _). inversion Hin.
Qed.

Lemma fresh_represents : represents (mkSpec [] 1 []) fresh.
Proof.
  split; cbn; try reflexivity; try exact I.
  - exact fresh_linked.
  - split; [constructor | reflexivity].
  - constructor.
  - split; discriminate.
Qed.

(** Two events at the same tick, one before them, one withdrawn. *)
Definition session : list op := [Add 7 3 70; Add 8 1 80; Add 9 3 90; Add 5 2 50; Cancel 4; OneTick; OneTick; OneTick].



(** ** The quick queue *)

Definition counter {E D A} (o : outcome E (sched D) A) : option Z :=
  match o with Ret _ s => Some (cpu_heartbeat s) | _ => None end.

(** Two quick events, 1000 and 3000 microseconds away; before the rates are known a jump
    takes ten microseconds, and the counter starts at 100.  When the first is deleted at
    once, the second is 300 jumps away; the conversions of [delete_event] are the wrong
    way round, and the counter says 20100. *)
Lemma delete_scales_wrongly :
  counter ((add_q_event_t 1 1000 10 ;; add_q_event_t 2 3000 20) fresh) = Some 100
  /\ counter ((add_q_event_t 2 3000 20) fresh) = Some 300
  /\ counter ((add_q_event_t 1 1000 10 ;; add_q_event_t 2 3000 20 ;; delete_q_event 5 1) fresh) = Some 20100.
Proof. vm_compute. auto. Qed.

(** A request that is recorded has no value to go on with. *)
Lemma int_action_undefined {E D} `{Callbacks E D} select_fn time fn ad ln parm (s : sched D) :
  ident (int_act_qhead s) = 0 -> 0 <= int_act_qident s < 2 ^ 31 ->
  add_q_ev_int_action select_fn time fn ad ln parm s = Undefined (E := E).
Proof.
  intros H0 Hq. unfold add_q_ev_int_action, add_new_int_action, next_ident, bind, gets. rewrite H0.
  change (0 =? 0) with true. cbv iota. destruct (Z.eqb_spec (int_act_qident s + 1) (2 ^ 31)) as [Hb | Hb].
  - rewrite Hb. reflexivity.
  - rewrite (proj2 (Z.eqb_neq _ _) Hb). reflexivity.
Qed.

End Qev.
