(* ===== verification/Timer.v ===== *)
(** * The 8253 timer

    [base/system/timer.c]: the three counters with their state functions, modes and
    latches, how a count follows the host's clock, the interrupts of counter 0 with
    their backlog, the lock against ticks during an access, set up and the snapshot.

    A state function is a constructor; the functions counters hold to be called when a
    count is complete and when the gate opens are of two types, as no function is put in
    a field of the wrong one.  The interrupt controller, the quick events, the idle
    detector and the host are the class [Env].  [unsigned long] has 32 bits; a signed
    sum that overflows wraps, a call through a null pointer, a counter beyond the
    third and a division by zero are undefined. *)

From Stdlib Require Import ZifyBool.
From S2P Require Import Prelude Cpu Arith Shift Xcptn MulDiv Mem Tlb Ios.

Module Timer.

Definition LATCH : Z := 0.
Definition RL_LSB : Z := 1.
Definition RL_MSB : Z := 2.
Definition RL_LMSB : Z := 3.

Definition INT_ON_TERMINALCOUNT : Z := 0.
Definition PROG_ONESHOT : Z := 1.
Definition RATE_GEN : Z := 2.
Definition SQUAREWAVE_GEN : Z := 3.
Definition SW_TRIG_STROBE : Z := 4.
Definition HW_TRIG_STROBE : Z := 5.

Definition BINARY : Z := 0.
Definition BCD : Z := 1.
Definition INDEFINITE : Z := 0xffffffff.
Definition STARTLO : Z := 0.
Definition STARTHI : Z := 1.
Definition NOREPEAT : Z := 0.
Definition REPEAT : Z := -1.
Definition UNLOCKED : Z := 0.
Definition LOCKED : Z := -1.
Definition UNREAD : Z := 0.
Definition READMSB : Z := 1.
Definition READSTATUS : Z := 2.
Definition GATE_SIGNAL_LOW : Z := 0.
Definition GATE_SIGNAL_HIGH : Z := 1.
Definition GATE_SIGNAL_RISE : Z := 2.
Definition TIMER_CLOCK_NUMER : Z := 1000.
Definition TIMER_CLOCK_DENOM : Z := 1193.
Definition SYSTEM_TICK_INTV : Z := 54925.
Definition HOST_IDEAL_ALARM : Z := SYSTEM_TICK_INTV.
Definition HOST_TIMER_TOOLONG_DELAY : Z := 15000.
Definition MAX_BACK_SECS : Z := 15.
Definition TIMER_BIT_MASK : Z := 0x3e3.
Definition TIMER_ADAPTOR : Z := 3.
Definition TIMER_PORT_START : Z := 0x40.
Definition TIMER_PORT_END : Z := 0x5F.

Inductive signal := WRITE_SIGNAL | GATE_SIGNAL.
Inductive trigCond := LEVEL | EDGE.
Inductive countload := AVAILABLE | USED.

Inductive state_function :=
  st_uninit | st_awaitingGate | st_waitingFor1stWrite | st_waitingFor2ndWrite
| st_Counting0 | st_Counting1 | st_Counting_2_3 | st_Counting_4_5.

(** What can be in [actionOnWtComplete] and in [actionOnGateEnabled]. *)
Inductive wait_action :=
  w_CounterBufferLoaded | w_timererror | w_resumeAwaitGate | w_resumeCounting0
| w_resumeCounting_1_5 | w_resumeCounting_2_3_4.
Inductive gate_action :=
  g_CounterBufferLoaded | g_resumeCounting0onGate | g_resumeCounting_1_5
| g_resumeCounting_2_3_4_onGate | g_startCounting.

(** [getIdealTime] and [getHostSysTime]. *)
Inductive clock := IdealTime | HostSysTime.

(** The functions given to the quick events. *)
Inductive timer_event := timer_no_longer_too_soon_event | timer_multiple_ints_event.

#[export] Instance state_function_eq : EqDecision state_function.
Proof. solve_decision. Defined.
#[export] Instance wait_action_eq : EqDecision wait_action.
Proof. solve_decision. Defined.
#[export] Instance gate_action_eq : EqDecision gate_action.
Proof. solve_decision. Defined.

(** [struct host_timeval]. *)
Record timeval := mkTime {
  tv_sec : Z;
  tv_usec : Z
}.

Record WAVEFORM := mkWave {
  clocksAtLoLogicLevel : Z;
  clocksAtHiLogicLevel : Z;
  period : Z;
  startLogicLevel : Z;
  repeatWaveForm : Z
}.

(** A function pointer is [None] until it is set. *)
Record COUNTER_UNIT := mkUnit {
  m : Z;
  bcd : Z;
  rl : Z;
  state : option state_function;
  statePriorWt : option state_function;
  stateOnGate : option state_function;
  actionOnWtComplete : option wait_action;
  actionOnGateEnabled : option gate_action;
  getTime : option clock;
  outblsb : Z;
  outbmsb : Z;
  initialCount : Z;
  readState : Z;
  countlatched : Z;
  latchvaluelsb : Z;
  latchvaluemsb : Z;
  latchstatus : Z;
  Count : Z;
  newCount : countload;
  tickadjust : Z;
  activationTime : timeval;
  tc : Z;
  freezeCounter : Z;
  lastTicks : Z;
  microtick : Z;
  timeFrig : Z;
  saveCount : Z;
  guessesPerHostTick : Z;
  guessesSoFar : Z;
  delay : Z;
  trigger : trigCond;
  gate : Z;
  clk : Z;
  out : WAVEFORM
}.

Definition SET_m (x : Z) (r : COUNTER_UNIT) : COUNTER_UNIT :=
  mkUnit x (bcd r) (rl r) (state r) (statePriorWt r) (stateOnGate r) (actionOnWtComplete r) (actionOnGateEnabled r) (getTime r) (outblsb r) (outbmsb r) (initialCount r) (readState r) (countlatched r) (latchvaluelsb r) (latchvaluemsb r) (latchstatus r) (Count r) (newCount r) (tickadjust r) (activationTime r) (tc r) (freezeCounter r) (lastTicks r) (microtick r) (timeFrig r) (saveCount r) (guessesPerHostTick r) (guessesSoFar r) (delay r) (trigger r) (gate r) (clk r) (out r).
Definition SET_bcd (x : Z) (r : COUNTER_UNIT) : COUNTER_UNIT :=
  mkUnit (m r) x (rl r) (state r) (statePriorWt r) (stateOnGate r) (actionOnWtComplete r) (actionOnGateEnabled r) (getTime r) (outblsb r) (outbmsb r) (initialCount r) (readState r) (countlatched r) (latchvaluelsb r) (latchvaluemsb r) (latchstatus r) (Count r) (newCount r) (tickadjust r) (activationTime r) (tc r) (freezeCounter r) (lastTicks r) (microtick r) (timeFrig r) (saveCount r) (guessesPerHostTick r) (guessesSoFar r) (delay r) (trigger r) (gate r) (clk r) (out r).
Definition SET_rl (x : Z) (r : COUNTER_UNIT) : COUNTER_UNIT :=
  mkUnit (m r) (bcd r) x (state r) (statePriorWt r) (stateOnGate r) (actionOnWtComplete r) (actionOnGateEnabled r) (getTime r) (outblsb r) (outbmsb r) (initialCount r) (readState r) (countlatched r) (latchvaluelsb r) (latchvaluemsb r) (latchstatus r) (Count r) (newCount r) (tickadjust r) (activationTime r) (tc r) (freezeCounter r) (lastTicks r) (microtick r) (timeFrig r) (saveCount r) (guessesPerHostTick r) (guessesSoFar r) (delay r) (trigger r) (gate r) (clk r) (out r).
Definition SET_state (x : option state_function) (r : COUNTER_UNIT) : COUNTER_UNIT :=
  mkUnit (m r) (bcd r) (rl r) x (statePriorWt r) (stateOnGate r) (actionOnWtComplete r) (actionOnGateEnabled r) (getTime r) (outblsb r) (outbmsb r) (initialCount r) (readState r) (countlatched r) (latchvaluelsb r) (latchvaluemsb r) (latchstatus r) (Count r) (newCount r) (tickadjust r) (activationTime r) (tc r) (freezeCounter r) (lastTicks r) (microtick r) (timeFrig r) (saveCount r) (guessesPerHostTick r) (guessesSoFar r) (delay r) (trigger r) (gate r) (clk r) (out r).
Definition SET_statePriorWt (x : option state_function) (r : COUNTER_UNIT) : COUNTER_UNIT :=
  mkUnit (m r) (bcd r) (rl r) (state r) x (stateOnGate r) (actionOnWtComplete r) (actionOnGateEnabled r) (getTime r) (outblsb r) (outbmsb r) (initialCount r) (readState r) (countlatched r) (latchvaluelsb r) (latchvaluemsb r) (latchstatus r) (Count r) (newCount r) (tickadjust r) (activationTime r) (tc r) (freezeCounter r) (lastTicks r) (microtick r) (timeFrig r) (saveCount r) (guessesPerHostTick r) (guessesSoFar r) (delay r) (trigger r) (gate r) (clk r) (out r).
Definition SET_stateOnGate (x : option state_function) (r : COUNTER_UNIT) : COUNTER_UNIT :=
  mkUnit (m r) (bcd r) (rl r) (state r) (statePriorWt r) x (actionOnWtComplete r) (actionOnGateEnabled r) (getTime r) (outblsb r) (outbmsb r) (initialCount r) (readState r) (countlatched r) (latchvaluelsb r) (latchvaluemsb r) (latchstatus r) (Count r) (newCount r) (tickadjust r) (activationTime r) (tc r) (freezeCounter r) (lastTicks r) (microtick r) (timeFrig r) (saveCount r) (guessesPerHostTick r) (guessesSoFar r) (delay r) (trigger r) (gate r) (clk r) (out r).
Definition SET_actionOnWtComplete (x : option wait_action) (r : COUNTER_UNIT) : COUNTER_UNIT :=
  mkUnit (m r) (bcd r) (rl r) (state r) (statePriorWt r) (stateOnGate r) x (actionOnGateEnabled r) (getTime r) (outblsb r) (outbmsb r) (initialCount r) (readState r) (countlatched r) (latchvaluelsb r) (latchvaluemsb r) (latchstatus r) (Count r) (newCount r) (tickadjust r) (activationTime r) (tc r) (freezeCounter r) (lastTicks r) (microtick r) (timeFrig r) (saveCount r) (guessesPerHostTick r) (guessesSoFar r) (delay r) (trigger r) (gate r) (clk r) (out r).
Definition SET_actionOnGateEnabled (x : option gate_action) (r : COUNTER_UNIT) : COUNTER_UNIT :=
  mkUnit (m r) (bcd r) (rl r) (state r) (statePriorWt r) (stateOnGate r) (actionOnWtComplete r) x (getTime r) (outblsb r) (outbmsb r) (initialCount r) (readState r) (countlatched r) (latchvaluelsb r) (latchvaluemsb r) (latchstatus r) (Count r) (newCount r) (tickadjust r) (activationTime r) (tc r) (freezeCounter r) (lastTicks r) (microtick r) (timeFrig r) (saveCount r) (guessesPerHostTick r) (guessesSoFar r) (delay r) (trigger r) (gate r) (clk r) (out r).
Definition SET_getTime (x : option clock) (r : COUNTER_UNIT) : COUNTER_UNIT :=
  mkUnit (m r) (bcd r) (rl r) (state r) (statePriorWt r) (stateOnGate r) (actionOnWtComplete r) (actionOnGateEnabled r) x (outblsb r) (outbmsb r) (initialCount r) (readState r) (countlatched r) (latchvaluelsb r) (latchvaluemsb r) (latchstatus r) (Count r) (newCount r) (tickadjust r) (activationTime r) (tc r) (freezeCounter r) (lastTicks r) (microtick r) (timeFrig r) (saveCount r) (guessesPerHostTick r) (guessesSoFar r) (delay r) (trigger r) (gate r) (clk r) (out r).
Definition SET_outblsb (x : Z) (r : COUNTER_UNIT) : COUNTER_UNIT :=
  mkUnit (m r) (bcd r) (rl r) (state r) (statePriorWt r) (stateOnGate r) (actionOnWtComplete r) (actionOnGateEnabled r) (getTime r) x (outbmsb r) (initialCount r) (readState r) (countlatched r) (latchvaluelsb r) (latchvaluemsb r) (latchstatus r) (Count r) (newCount r) (tickadjust r) (activationTime r) (tc r) (freezeCounter r) (lastTicks r) (microtick r) (timeFrig r) (saveCount r) (guessesPerHostTick r) (guessesSoFar r) (delay r) (trigger r) (gate r) (clk r) (out r).
Definition SET_outbmsb (x : Z) (r : COUNTER_UNIT) : COUNTER_UNIT :=
  mkUnit (m r) (bcd r) (rl r) (state r) (statePriorWt r) (stateOnGate r) (actionOnWtComplete r) (actionOnGateEnabled r) (getTime r) (outblsb r) x (initialCount r) (readState r) (countlatched r) (latchvaluelsb r) (latchvaluemsb r) (latchstatus r) (Count r) (newCount r) (tickadjust r) (activationTime r) (tc r) (freezeCounter r) (lastTicks r) (microtick r) (timeFrig r) (saveCount r) (guessesPerHostTick r) (guessesSoFar r) (delay r) (trigger r) (gate r) (clk r) (out r).
Definition SET_initialCount (x : Z) (r : COUNTER_UNIT) : COUNTER_UNIT :=
  mkUnit (m r) (bcd r) (rl r) (state r) (statePriorWt r) (stateOnGate r) (actionOnWtComplete r) (actionOnGateEnabled r) (getTime r) (outblsb r) (outbmsb r) x (readState r) (countlatched r) (latchvaluelsb r) (latchvaluemsb r) (latchstatus r) (Count r) (newCount r) (tickadjust r) (activationTime r) (tc r) (freezeCounter r) (lastTicks r) (microtick r) (timeFrig r) (saveCount r) (guessesPerHostTick r) (guessesSoFar r) (delay r) (trigger r) (gate r) (clk r) (out r).
Definition SET_readState (x : Z) (r : COUNTER_UNIT) : COUNTER_UNIT :=
  mkUnit (m r) (bcd r) (rl r) (state r) (statePriorWt r) (stateOnGate r) (actionOnWtComplete r) (actionOnGateEnabled r) (getTime r) (outblsb r) (outbmsb r) (initialCount r) x (countlatched r) (latchvaluelsb r) (latchvaluemsb r) (latchstatus r) (Count r) (newCount r) (tickadjust r) (activationTime r) (tc r) (freezeCounter r) (lastTicks r) (microtick r) (timeFrig r) (saveCount r) (guessesPerHostTick r) (guessesSoFar r) (delay r) (trigger r) (gate r) (clk r) (out r).
Definition SET_countlatched (x : Z) (r : COUNTER_UNIT) : COUNTER_UNIT :=
  mkUnit (m r) (bcd r) (rl r) (state r) (statePriorWt r) (stateOnGate r) (actionOnWtComplete r) (actionOnGateEnabled r) (getTime r) (outblsb r) (outbmsb r) (initialCount r) (readState r) x (latchvaluelsb r) (latchvaluemsb r) (latchstatus r) (Count r) (newCount r) (tickadjust r) (activationTime r) (tc r) (freezeCounter r) (lastTicks r) (microtick r) (timeFrig r) (saveCount r) (guessesPerHostTick r) (guessesSoFar r) (delay r) (trigger r) (gate r) (clk r) (out r).
Definition SET_latchvaluelsb (x : Z) (r : COUNTER_UNIT) : COUNTER_UNIT :=
  mkUnit (m r) (bcd r) (rl r) (state r) (statePriorWt r) (stateOnGate r) (actionOnWtComplete r) (actionOnGateEnabled r) (getTime r) (outblsb r) (outbmsb r) (initialCount r) (readState r) (countlatched r) x (latchvaluemsb r) (latchstatus r) (Count r) (newCount r) (tickadjust r) (activationTime r) (tc r) (freezeCounter r) (lastTicks r) (microtick r) (timeFrig r) (saveCount r) (guessesPerHostTick r) (guessesSoFar r) (delay r) (trigger r) (gate r) (clk r) (out r).
Definition SET_latchvaluemsb (x : Z) (r : COUNTER_UNIT) : COUNTER_UNIT :=
  mkUnit (m r) (bcd r) (rl r) (state r) (statePriorWt r) (stateOnGate r) (actionOnWtComplete r) (actionOnGateEnabled r) (getTime r) (outblsb r) (outbmsb r) (initialCount r) (readState r) (countlatched r) (latchvaluelsb r) x (latchstatus r) (Count r) (newCount r) (tickadjust r) (activationTime r) (tc r) (freezeCounter r) (lastTicks r) (microtick r) (timeFrig r) (saveCount r) (guessesPerHostTick r) (guessesSoFar r) (delay r) (trigger r) (gate r) (clk r) (out r).
Definition SET_latchstatus (x : Z) (r : COUNTER_UNIT) : COUNTER_UNIT :=
  mkUnit (m r) (bcd r) (rl r) (state r) (statePriorWt r) (stateOnGate r) (actionOnWtComplete r) (actionOnGateEnabled r) (getTime r) (outblsb r) (outbmsb r) (initialCount r) (readState r) (countlatched r) (latchvaluelsb r) (latchvaluemsb r) x (Count r) (newCount r) (tickadjust r) (activationTime r) (tc r) (freezeCounter r) (lastTicks r) (microtick r) (timeFrig r) (saveCount r) (guessesPerHostTick r) (guessesSoFar r) (delay r) (trigger r) (gate r) (clk r) (out r).
Definition SET_Count (x : Z) (r : COUNTER_UNIT) : COUNTER_UNIT :=
  mkUnit (m r) (bcd r) (rl r) (state r) (statePriorWt r) (stateOnGate r) (actionOnWtComplete r) (actionOnGateEnabled r) (getTime r) (outblsb r) (outbmsb r) (initialCount r) (readState r) (countlatched r) (latchvaluelsb r) (latchvaluemsb r) (latchstatus r) x (newCount r) (tickadjust r) (activationTime r) (tc r) (freezeCounter r) (lastTicks r) (microtick r) (timeFrig r) (saveCount r) (guessesPerHostTick r) (guessesSoFar r) (delay r) (trigger r) (gate r) (clk r) (out r).
Definition SET_newCount (x : countload) (r : COUNTER_UNIT) : COUNTER_UNIT :=
  mkUnit (m r) (bcd r) (rl r) (state r) (statePriorWt r) (stateOnGate r) (actionOnWtComplete r) (actionOnGateEnabled r) (getTime r) (outblsb r) (outbmsb r) (initialCount r) (readState r) (countlatched r) (latchvaluelsb r) (latchvaluemsb r) (latchstatus r) (Count r) x (tickadjust r) (activationTime r) (tc r) (freezeCounter r) (lastTicks r) (microtick r) (timeFrig r) (saveCount r) (guessesPerHostTick r) (guessesSoFar r) (delay r) (trigger r) (gate r) (clk r) (out r).
Definition SET_tickadjust (x : Z) (r : COUNTER_UNIT) : COUNTER_UNIT :=
  mkUnit (m r) (bcd r) (rl r) (state r) (statePriorWt r) (stateOnGate r) (actionOnWtComplete r) (actionOnGateEnabled r) (getTime r) (outblsb r) (outbmsb r) (initialCount r) (readState r) (countlatched r) (latchvaluelsb r) (latchvaluemsb r) (latchstatus r) (Count r) (newCount r) x (activationTime r) (tc r) (freezeCounter r) (lastTicks r) (microtick r) (timeFrig r) (saveCount r) (guessesPerHostTick r) (guessesSoFar r) (delay r) (trigger r) (gate r) (clk r) (out r).
Definition SET_activationTime (x : timeval) (r : COUNTER_UNIT) : COUNTER_UNIT :=
  mkUnit (m r) (bcd r) (rl r) (state r) (statePriorWt r) (stateOnGate r) (actionOnWtComplete r) (actionOnGateEnabled r) (getTime r) (outblsb r) (outbmsb r) (initialCount r) (readState r) (countlatched r) (latchvaluelsb r) (latchvaluemsb r) (latchstatus r) (Count r) (newCount r) (tickadjust r) x (tc r) (freezeCounter r) (lastTicks r) (microtick r) (timeFrig r) (saveCount r) (guessesPerHostTick r) (guessesSoFar r) (delay r) (trigger r) (gate r) (clk r) (out r).
Definition SET_tc (x : Z) (r : COUNTER_UNIT) : COUNTER_UNIT :=
  mkUnit (m r) (bcd r) (rl r) (state r) (statePriorWt r) (stateOnGate r) (actionOnWtComplete r) (actionOnGateEnabled r) (getTime r) (outblsb r) (outbmsb r) (initialCount r) (readState r) (countlatched r) (latchvaluelsb r) (latchvaluemsb r) (latchstatus r) (Count r) (newCount r) (tickadjust r) (activationTime r) x (freezeCounter r) (lastTicks r) (microtick r) (timeFrig r) (saveCount r) (guessesPerHostTick r) (guessesSoFar r) (delay r) (trigger r) (gate r) (clk r) (out r).
Definition SET_freezeCounter (x : Z) (r : COUNTER_UNIT) : COUNTER_UNIT :=
  mkUnit (m r) (bcd r) (rl r) (state r) (statePriorWt r) (stateOnGate r) (actionOnWtComplete r) (actionOnGateEnabled r) (getTime r) (outblsb r) (outbmsb r) (initialCount r) (readState r) (countlatched r) (latchvaluelsb r) (latchvaluemsb r) (latchstatus r) (Count r) (newCount r) (tickadjust r) (activationTime r) (tc r) x (lastTicks r) (microtick r) (timeFrig r) (saveCount r) (guessesPerHostTick r) (guessesSoFar r) (delay r) (trigger r) (gate r) (clk r) (out r).
Definition SET_lastTicks (x : Z) (r : COUNTER_UNIT) : COUNTER_UNIT :=
  mkUnit (m r) (bcd r) (rl r) (state r) (statePriorWt r) (stateOnGate r) (actionOnWtComplete r) (actionOnGateEnabled r) (getTime r) (outblsb r) (outbmsb r) (initialCount r) (readState r) (countlatched r) (latchvaluelsb r) (latchvaluemsb r) (latchstatus r) (Count r) (newCount r) (tickadjust r) (activationTime r) (tc r) (freezeCounter r) x (microtick r) (timeFrig r) (saveCount r) (guessesPerHostTick r) (guessesSoFar r) (delay r) (trigger r) (gate r) (clk r) (out r).
Definition SET_microtick (x : Z) (r : COUNTER_UNIT) : COUNTER_UNIT :=
  mkUnit (m r) (bcd r) (rl r) (state r) (statePriorWt r) (stateOnGate r) (actionOnWtComplete r) (actionOnGateEnabled r) (getTime r) (outblsb r) (outbmsb r) (initialCount r) (readState r) (countlatched r) (latchvaluelsb r) (latchvaluemsb r) (latchstatus r) (Count r) (newCount r) (tickadjust r) (activationTime r) (tc r) (freezeCounter r) (lastTicks r) x (timeFrig r) (saveCount r) (guessesPerHostTick r) (guessesSoFar r) (delay r) (trigger r) (gate r) (clk r) (out r).
Definition SET_timeFrig (x : Z) (r : COUNTER_UNIT) : COUNTER_UNIT :=
  mkUnit (m r) (bcd r) (rl r) (state r) (statePriorWt r) (stateOnGate r) (actionOnWtComplete r) (actionOnGateEnabled r) (getTime r) (outblsb r) (outbmsb r) (initialCount r) (readState r) (countlatched r) (latchvaluelsb r) (latchvaluemsb r) (latchstatus r) (Count r) (newCount r) (tickadjust r) (activationTime r) (tc r) (freezeCounter r) (lastTicks r) (microtick r) x (saveCount r) (guessesPerHostTick r) (guessesSoFar r) (delay r) (trigger r) (gate r) (clk r) (out r).
Definition SET_saveCount (x : Z) (r : COUNTER_UNIT) : COUNTER_UNIT :=
  mkUnit (m r) (bcd r) (rl r) (state r) (statePriorWt r) (stateOnGate r) (actionOnWtComplete r) (actionOnGateEnabled r) (getTime r) (outblsb r) (outbmsb r) (initialCount r) (readState r) (countlatched r) (latchvaluelsb r) (latchvaluemsb r) (latchstatus r) (Count r) (newCount r) (tickadjust r) (activationTime r) (tc r) (freezeCounter r) (lastTicks r) (microtick r) (timeFrig r) x (guessesPerHostTick r) (guessesSoFar r) (delay r) (trigger r) (gate r) (clk r) (out r).
Definition SET_guessesPerHostTick (x : Z) (r : COUNTER_UNIT) : COUNTER_UNIT :=
  mkUnit (m r) (bcd r) (rl r) (state r) (statePriorWt r) (stateOnGate r) (actionOnWtComplete r) (actionOnGateEnabled r) (getTime r) (outblsb r) (outbmsb r) (initialCount r) (readState r) (countlatched r) (latchvaluelsb r) (latchvaluemsb r) (latchstatus r) (Count r) (newCount r) (tickadjust r) (activationTime r) (tc r) (freezeCounter r) (lastTicks r) (microtick r) (timeFrig r) (saveCount r) x (guessesSoFar r) (delay r) (trigger r) (gate r) (clk r) (out r).
Definition SET_guessesSoFar (x : Z) (r : COUNTER_UNIT) : COUNTER_UNIT :=
  mkUnit (m r) (bcd r) (rl r) (state r) (statePriorWt r) (stateOnGate r) (actionOnWtComplete r) (actionOnGateEnabled r) (getTime r) (outblsb r) (outbmsb r) (initialCount r) (readState r) (countlatched r) (latchvaluelsb r) (latchvaluemsb r) (latchstatus r) (Count r) (newCount r) (tickadjust r) (activationTime r) (tc r) (freezeCounter r) (lastTicks r) (microtick r) (timeFrig r) (saveCount r) (guessesPerHostTick r) x (delay r) (trigger r) (gate r) (clk r) (out r).
Definition SET_delay (x : Z) (r : COUNTER_UNIT) : COUNTER_UNIT :=
  mkUnit (m r) (bcd r) (rl r) (state r) (statePriorWt r) (stateOnGate r) (actionOnWtComplete r) (actionOnGateEnabled r) (getTime r) (outblsb r) (outbmsb r) (initialCount r) (readState r) (countlatched r) (latchvaluelsb r) (latchvaluemsb r) (latchstatus r) (Count r) (newCount r) (tickadjust r) (activationTime r) (tc r) (freezeCounter r) (lastTicks r) (microtick r) (timeFrig r) (saveCount r) (guessesPerHostTick r) (guessesSoFar r) x (trigger r) (gate r) (clk r) (out r).
Definition SET_trigger (x : trigCond) (r : COUNTER_UNIT) : COUNTER_UNIT :=
  mkUnit (m r) (bcd r) (rl r) (state r) (statePriorWt r) (stateOnGate r) (actionOnWtComplete r) (actionOnGateEnabled r) (getTime r) (outblsb r) (outbmsb r) (initialCount r) (readState r) (countlatched r) (latchvaluelsb r) (latchvaluemsb r) (latchstatus r) (Count r) (newCount r) (tickadjust r) (activationTime r) (tc r) (freezeCounter r) (lastTicks r) (microtick r) (timeFrig r) (saveCount r) (guessesPerHostTick r) (guessesSoFar r) (delay r) x (gate r) (clk r) (out r).
Definition SET_gate (x : Z) (r : COUNTER_UNIT) : COUNTER_UNIT :=
  mkUnit (m r) (bcd r) (rl r) (state r) (statePriorWt r) (stateOnGate r) (actionOnWtComplete r) (actionOnGateEnabled r) (getTime r) (outblsb r) (outbmsb r) (initialCount r) (readState r) (countlatched r) (latchvaluelsb r) (latchvaluemsb r) (latchstatus r) (Count r) (newCount r) (tickadjust r) (activationTime r) (tc r) (freezeCounter r) (lastTicks r) (microtick r) (timeFrig r) (saveCount r) (guessesPerHostTick r) (guessesSoFar r) (delay r) (trigger r) x (clk r) (out r).
Definition SET_clk (x : Z) (r : COUNTER_UNIT) : COUNTER_UNIT :=
  mkUnit (m r) (bcd r) (rl r) (state r) (statePriorWt r) (stateOnGate r) (actionOnWtComplete r) (actionOnGateEnabled r) (getTime r) (outblsb r) (outbmsb r) (initialCount r) (readState r) (countlatched r) (latchvaluelsb r) (latchvaluemsb r) (latchstatus r) (Count r) (newCount r) (tickadjust r) (activationTime r) (tc r) (freezeCounter r) (lastTicks r) (microtick r) (timeFrig r) (saveCount r) (guessesPerHostTick r) (guessesSoFar r) (delay r) (trigger r) (gate r) x (out r).
Definition SET_out (x : WAVEFORM) (r : COUNTER_UNIT) : COUNTER_UNIT :=
  mkUnit (m r) (bcd r) (rl r) (state r) (statePriorWt r) (stateOnGate r) (actionOnWtComplete r) (actionOnGateEnabled r) (getTime r) (outblsb r) (outbmsb r) (initialCount r) (readState r) (countlatched r) (latchvaluelsb r) (latchvaluemsb r) (latchstatus r) (Count r) (newCount r) (tickadjust r) (activationTime r) (tc r) (freezeCounter r) (lastTicks r) (microtick r) (timeFrig r) (saveCount r) (guessesPerHostTick r) (guessesSoFar r) (delay r) (trigger r) (gate r) (clk r) x.

(** The variables of the module, [pcu] as an index; the bus the ports are connected to
    and the rest of the machine. *)
Record pit (W : Type) := mkPit {
  timers : list COUNTER_UNIT;
  pcu : Z;
  idealtime : timeval;
  idealInterval : Z;
  ticksPerIdealInterval : Z;
  ticks_blocked : Z;
  timer_int_enabled : bool;
  max_backlog : Z;
  active_int_event : bool;
  more_timer_mult : Z;
  timer_multiple_delay : Z;
  timelock : Z;
  needtick : Z;
  hack_active : bool;
  too_soon_after_previous : bool;
  ticks_lost_this_time : bool;
  real_mode_ticks_in_a_row : Z;
  instrs_per_tick : Z;
  adj_instrs_per_tick : Z;
  n_rm_instrs_before_full_speed : Z;
  adj_n_real_mode_ticks_before_full_speed : Z;
  bus : Ios.ios;
  world : W
}.
Arguments mkPit {W} _ _ _ _ _ _ _ _ _ _ _ _ _ _ _ _ _ _ _ _ _ _ _.
Arguments timers {W} _.
Arguments pcu {W} _.
Arguments idealtime {W} _.
Arguments idealInterval {W} _.
Arguments ticksPerIdealInterval {W} _.
Arguments ticks_blocked {W} _.
Arguments timer_int_enabled {W} _.
Arguments max_backlog {W} _.
Arguments active_int_event {W} _.
Arguments more_timer_mult {W} _.
Arguments timer_multiple_delay {W} _.
Arguments timelock {W} _.
Arguments needtick {W} _.
Arguments hack_active {W} _.
Arguments too_soon_after_previous {W} _.
Arguments ticks_lost_this_time {W} _.
Arguments real_mode_ticks_in_a_row {W} _.
Arguments instrs_per_tick {W} _.
Arguments adj_instrs_per_tick {W} _.
Arguments n_rm_instrs_before_full_speed {W} _.
Arguments adj_n_real_mode_ticks_before_full_speed {W} _.
Arguments bus {W} _.
Arguments world {W} _.

Definition SET_timers {W} (x : list COUNTER_UNIT) (r : pit W) : pit W :=
  mkPit x (pcu r) (idealtime r) (idealInterval r) (ticksPerIdealInterval r) (ticks_blocked r) (timer_int_enabled r) (max_backlog r) (active_int_event r) (more_timer_mult r) (timer_multiple_delay r) (timelock r) (needtick r) (hack_active r) (too_soon_after_previous r) (ticks_lost_this_time r) (real_mode_ticks_in_a_row r) (instrs_per_tick r) (adj_instrs_per_tick r) (n_rm_instrs_before_full_speed r) (adj_n_real_mode_ticks_before_full_speed r) (bus r) (world r).
Definition SET_pcu {W} (x : Z) (r : pit W) : pit W :=
  mkPit (timers r) x (idealtime r) (idealInterval r) (ticksPerIdealInterval r) (ticks_blocked r) (timer_int_enabled r) (max_backlog r) (active_int_event r) (more_timer_mult r) (timer_multiple_delay r) (timelock r) (needtick r) (hack_active r) (too_soon_after_previous r) (ticks_lost_this_time r) (real_mode_ticks_in_a_row r) (instrs_per_tick r) (adj_instrs_per_tick r) (n_rm_instrs_before_full_speed r) (adj_n_real_mode_ticks_before_full_speed r) (bus r) (world r).
Definition SET_idealtime {W} (x : timeval) (r : pit W) : pit W :=
  mkPit (timers r) (pcu r) x (idealInterval r) (ticksPerIdealInterval r) (ticks_blocked r) (timer_int_enabled r) (max_backlog r) (active_int_event r) (more_timer_mult r) (timer_multiple_delay r) (timelock r) (needtick r) (hack_active r) (too_soon_after_previous r) (ticks_lost_this_time r) (real_mode_ticks_in_a_row r) (instrs_per_tick r) (adj_instrs_per_tick r) (n_rm_instrs_before_full_speed r) (adj_n_real_mode_ticks_before_full_speed r) (bus r) (world r).
Definition SET_idealInterval {W} (x : Z) (r : pit W) : pit W :=
  mkPit (timers r) (pcu r) (idealtime r) x (ticksPerIdealInterval r) (ticks_blocked r) (timer_int_enabled r) (max_backlog r) (active_int_event r) (more_timer_mult r) (timer_multiple_delay r) (timelock r) (needtick r) (hack_active r) (too_soon_after_previous r) (ticks_lost_this_time r) (real_mode_ticks_in_a_row r) (instrs_per_tick r) (adj_instrs_per_tick r) (n_rm_instrs_before_full_speed r) (adj_n_real_mode_ticks_before_full_speed r) (bus r) (world r).
Definition SET_ticksPerIdealInterval {W} (x : Z) (r : pit W) : pit W :=
  mkPit (timers r) (pcu r) (idealtime r) (idealInterval r) x (ticks_blocked r) (timer_int_enabled r) (max_backlog r) (active_int_event r) (more_timer_mult r) (timer_multiple_delay r) (timelock r) (needtick r) (hack_active r) (too_soon_after_previous r) (ticks_lost_this_time r) (real_mode_ticks_in_a_row r) (instrs_per_tick r) (adj_instrs_per_tick r) (n_rm_instrs_before_full_speed r) (adj_n_real_mode_ticks_before_full_speed r) (bus r) (world r).
Definition SET_ticks_blocked {W} (x : Z) (r : pit W) : pit W :=
  mkPit (timers r) (pcu r) (idealtime r) (idealInterval r) (ticksPerIdealInterval r) x (timer_int_enabled r) (max_backlog r) (active_int_event r) (more_timer_mult r) (timer_multiple_delay r) (timelock r) (needtick r) (hack_active r) (too_soon_after_previous r) (ticks_lost_this_time r) (real_mode_ticks_in_a_row r) (instrs_per_tick r) (adj_instrs_per_tick r) (n_rm_instrs_before_full_speed r) (adj_n_real_mode_ticks_before_full_speed r) (bus r) (world r).
Definition SET_timer_int_enabled {W} (x : bool) (r : pit W) : pit W :=
  mkPit (timers r) (pcu r) (idealtime r) (idealInterval r) (ticksPerIdealInterval r) (ticks_blocked r) x (max_backlog r) (active_int_event r) (more_timer_mult r) (timer_multiple_delay r) (timelock r) (needtick r) (hack_active r) (too_soon_after_previous r) (ticks_lost_this_time r) (real_mode_ticks_in_a_row r) (instrs_per_tick r) (adj_instrs_per_tick r) (n_rm_instrs_before_full_speed r) (adj_n_real_mode_ticks_before_full_speed r) (bus r) (world r).
Definition SET_max_backlog {W} (x : Z) (r : pit W) : pit W :=
  mkPit (timers r) (pcu r) (idealtime r) (idealInterval r) (ticksPerIdealInterval r) (ticks_blocked r) (timer_int_enabled r) x (active_int_event r) (more_timer_mult r) (timer_multiple_delay r) (timelock r) (needtick r) (hack_active r) (too_soon_after_previous r) (ticks_lost_this_time r) (real_mode_ticks_in_a_row r) (instrs_per_tick r) (adj_instrs_per_tick r) (n_rm_instrs_before_full_speed r) (adj_n_real_mode_ticks_before_full_speed r) (bus r) (world r).
Definition SET_active_int_event {W} (x : bool) (r : pit W) : pit W :=
  mkPit (timers r) (pcu r) (idealtime r) (idealInterval r) (ticksPerIdealInterval r) (ticks_blocked r) (timer_int_enabled r) (max_backlog r) x (more_timer_mult r) (timer_multiple_delay r) (timelock r) (needtick r) (hack_active r) (too_soon_after_previous r) (ticks_lost_this_time r) (real_mode_ticks_in_a_row r) (instrs_per_tick r) (adj_instrs_per_tick r) (n_rm_instrs_before_full_speed r) (adj_n_real_mode_ticks_before_full_speed r) (bus r) (world r).
Definition SET_more_timer_mult {W} (x : Z) (r : pit W) : pit W :=
  mkPit (timers r) (pcu r) (idealtime r) (idealInterval r) (ticksPerIdealInterval r) (ticks_blocked r) (timer_int_enabled r) (max_backlog r) (active_int_event r) x (timer_multiple_delay r) (timelock r) (needtick r) (hack_active r) (too_soon_after_previous r) (ticks_lost_this_time r) (real_mode_ticks_in_a_row r) (instrs_per_tick r) (adj_instrs_per_tick r) (n_rm_instrs_before_full_speed r) (adj_n_real_mode_ticks_before_full_speed r) (bus r) (world r).
Definition SET_timer_multiple_delay {W} (x : Z) (r : pit W) : pit W :=
  mkPit (timers r) (pcu r) (idealtime r) (idealInterval r) (ticksPerIdealInterval r) (ticks_blocked r) (timer_int_enabled r) (max_backlog r) (active_int_event r) (more_timer_mult r) x (timelock r) (needtick r) (hack_active r) (too_soon_after_previous r) (ticks_lost_this_time r) (real_mode_ticks_in_a_row r) (instrs_per_tick r) (adj_instrs_per_tick r) (n_rm_instrs_before_full_speed r) (adj_n_real_mode_ticks_before_full_speed r) (bus r) (world r).
Definition SET_timelock {W} (x : Z) (r : pit W) : pit W :=
  mkPit (timers r) (pcu r) (idealtime r) (idealInterval r) (ticksPerIdealInterval r) (ticks_blocked r) (timer_int_enabled r) (max_backlog r) (active_int_event r) (more_timer_mult r) (timer_multiple_delay r) x (needtick r) (hack_active r) (too_soon_after_previous r) (ticks_lost_this_time r) (real_mode_ticks_in_a_row r) (instrs_per_tick r) (adj_instrs_per_tick r) (n_rm_instrs_before_full_speed r) (adj_n_real_mode_ticks_before_full_speed r) (bus r) (world r).
Definition SET_needtick {W} (x : Z) (r : pit W) : pit W :=
  mkPit (timers r) (pcu r) (idealtime r) (idealInterval r) (ticksPerIdealInterval r) (ticks_blocked r) (timer_int_enabled r) (max_backlog r) (active_int_event r) (more_timer_mult r) (timer_multiple_delay r) (timelock r) x (hack_active r) (too_soon_after_previous r) (ticks_lost_this_time r) (real_mode_ticks_in_a_row r) (instrs_per_tick r) (adj_instrs_per_tick r) (n_rm_instrs_before_full_speed r) (adj_n_real_mode_ticks_before_full_speed r) (bus r) (world r).
Definition SET_hack_active {W} (x : bool) (r : pit W) : pit W :=
  mkPit (timers r) (pcu r) (idealtime r) (idealInterval r) (ticksPerIdealInterval r) (ticks_blocked r) (timer_int_enabled r) (max_backlog r) (active_int_event r) (more_timer_mult r) (timer_multiple_delay r) (timelock r) (needtick r) x (too_soon_after_previous r) (ticks_lost_this_time r) (real_mode_ticks_in_a_row r) (instrs_per_tick r) (adj_instrs_per_tick r) (n_rm_instrs_before_full_speed r) (adj_n_real_mode_ticks_before_full_speed r) (bus r) (world r).
Definition SET_too_soon_after_previous {W} (x : bool) (r : pit W) : pit W :=
  mkPit (timers r) (pcu r) (idealtime r) (idealInterval r) (ticksPerIdealInterval r) (ticks_blocked r) (timer_int_enabled r) (max_backlog r) (active_int_event r) (more_timer_mult r) (timer_multiple_delay r) (timelock r) (needtick r) (hack_active r) x (ticks_lost_this_time r) (real_mode_ticks_in_a_row r) (instrs_per_tick r) (adj_instrs_per_tick r) (n_rm_instrs_before_full_speed r) (adj_n_real_mode_ticks_before_full_speed r) (bus r) (world r).
Definition SET_ticks_lost_this_time {W} (x : bool) (r : pit W) : pit W :=
  mkPit (timers r) (pcu r) (idealtime r) (idealInterval r) (ticksPerIdealInterval r) (ticks_blocked r) (timer_int_enabled r) (max_backlog r) (active_int_event r) (more_timer_mult r) (timer_multiple_delay r) (timelock r) (needtick r) (hack_active r) (too_soon_after_previous r) x (real_mode_ticks_in_a_row r) (instrs_per_tick r) (adj_instrs_per_tick r) (n_rm_instrs_before_full_speed r) (adj_n_real_mode_ticks_before_full_speed r) (bus r) (world r).
Definition SET_real_mode_ticks_in_a_row {W} (x : Z) (r : pit W) : pit W :=
  mkPit (timers r) (pcu r) (idealtime r) (idealInterval r) (ticksPerIdealInterval r) (ticks_blocked r) (timer_int_enabled r) (max_backlog r) (active_int_event r) (more_timer_mult r) (timer_multiple_delay r) (timelock r) (needtick r) (hack_active r) (too_soon_after_previous r) (ticks_lost_this_time r) x (instrs_per_tick r) (adj_instrs_per_tick r) (n_rm_instrs_before_full_speed r) (adj_n_real_mode_ticks_before_full_speed r) (bus r) (world r).
Definition SET_instrs_per_tick {W} (x : Z) (r : pit W) : pit W :=
  mkPit (timers r) (pcu r) (idealtime r) (idealInterval r) (ticksPerIdealInterval r) (ticks_blocked r) (timer_int_enabled r) (max_backlog r) (active_int_event r) (more_timer_mult r) (timer_multiple_delay r) (timelock r) (needtick r) (hack_active r) (too_soon_after_previous r) (ticks_lost_this_time r) (real_mode_ticks_in_a_row r) x (adj_instrs_per_tick r) (n_rm_instrs_before_full_speed r) (adj_n_real_mode_ticks_before_full_speed r) (bus r) (world r).
Definition SET_adj_instrs_per_tick {W} (x : Z) (r : pit W) : pit W :=
  mkPit (timers r) (pcu r) (idealtime r) (idealInterval r) (ticksPerIdealInterval r) (ticks_blocked r) (timer_int_enabled r) (max_backlog r) (active_int_event r) (more_timer_mult r) (timer_multiple_delay r) (timelock r) (needtick r) (hack_active r) (too_soon_after_previous r) (ticks_lost_this_time r) (real_mode_ticks_in_a_row r) (instrs_per_tick r) x (n_rm_instrs_before_full_speed r) (adj_n_real_mode_ticks_before_full_speed r) (bus r) (world r).
Definition SET_n_rm_instrs_before_full_speed {W} (x : Z) (r : pit W) : pit W :=
  mkPit (timers r) (pcu r) (idealtime r) (idealInterval r) (ticksPerIdealInterval r) (ticks_blocked r) (timer_int_enabled r) (max_backlog r) (active_int_event r) (more_timer_mult r) (timer_multiple_delay r) (timelock r) (needtick r) (hack_active r) (too_soon_after_previous r) (ticks_lost_this_time r) (real_mode_ticks_in_a_row r) (instrs_per_tick r) (adj_instrs_per_tick r) x (adj_n_real_mode_ticks_before_full_speed r) (bus r) (world r).
Definition SET_adj_n_real_mode_ticks_before_full_speed {W} (x : Z) (r : pit W) : pit W :=
  mkPit (timers r) (pcu r) (idealtime r) (idealInterval r) (ticksPerIdealInterval r) (ticks_blocked r) (timer_int_enabled r) (max_backlog r) (active_int_event r) (more_timer_mult r) (timer_multiple_delay r) (timelock r) (needtick r) (hack_active r) (too_soon_after_previous r) (ticks_lost_this_time r) (real_mode_ticks_in_a_row r) (instrs_per_tick r) (adj_instrs_per_tick r) (n_rm_instrs_before_full_speed r) x (bus r) (world r).
Definition SET_bus {W} (x : Ios.ios) (r : pit W) : pit W :=
  mkPit (timers r) (pcu r) (idealtime r) (idealInterval r) (ticksPerIdealInterval r) (ticks_blocked r) (timer_int_enabled r) (max_backlog r) (active_int_event r) (more_timer_mult r) (timer_multiple_delay r) (timelock r) (needtick r) (hack_active r) (too_soon_after_previous r) (ticks_lost_this_time r) (real_mode_ticks_in_a_row r) (instrs_per_tick r) (adj_instrs_per_tick r) (n_rm_instrs_before_full_speed r) (adj_n_real_mode_ticks_before_full_speed r) x (world r).
Definition SET_world {W} (x : W) (r : pit W) : pit W :=
  mkPit (timers r) (pcu r) (idealtime r) (idealInterval r) (ticksPerIdealInterval r) (ticks_blocked r) (timer_int_enabled r) (max_backlog r) (active_int_event r) (more_timer_mult r) (timer_multiple_delay r) (timelock r) (needtick r) (hack_active r) (too_soon_after_previous r) (ticks_lost_this_time r) (real_mode_ticks_in_a_row r) (instrs_per_tick r) (adj_instrs_per_tick r) (n_rm_instrs_before_full_speed r) (adj_n_real_mode_ticks_before_full_speed r) (bus r) x.

(** The snapshot of a counter; the five fields of its waveform as one.  Every field is as
    wide as the variable it is for. *)
Record softpc_device_pit_counter_state := mkSaved {
  s_mode : Z;
  s_bcd : Z;
  s_read_load : Z;
  s_state : Z;
  s_state_prior_wait : Z;
  s_state_on_gate : Z;
  s_action_on_wait_complete : Z;
  s_action_on_gate_enabled : Z;
  s_output_lsb : Z;
  s_output_msb : Z;
  s_latch_value_lsb : Z;
  s_latch_value_msb : Z;
  s_latch_status : Z;
  s_initial_count : Z;
  s_read_state : Z;
  s_count_latched : Z;
  s_count : Z;
  s_new_count : Z;
  s_tick_adjust : Z;
  s_activation_age_microseconds : Z;
  s_terminal_count : Z;
  s_freeze_counter : Z;
  s_last_ticks : Z;
  s_microtick : Z;
  s_time_frig : Z;
  s_saved_count : Z;
  s_guesses_per_host_tick : Z;
  s_guesses_so_far : Z;
  s_delay : Z;
  s_trigger : Z;
  s_gate : Z;
  s_clock : Z;
  s_waveform : WAVEFORM
}.

Record softpc_device_pit_state := mkSnapshot {
  s_counter : list softpc_device_pit_counter_state;
  s_current_counter : Z;
  s_ticks_blocked : Z;
  s_timer_interrupt_enabled : bool;
  s_time_lock : Z;
  s_need_tick : Z;
  s_hack_active : bool;
  s_too_soon_after_previous : bool;
  s_ticks_lost_this_time : bool;
  s_real_mode_ticks_in_a_row : Z;
  s_instructions_per_tick : Z;
  s_adjusted_instructions_per_tick : Z;
  s_real_mode_instruction_limit : Z;
  s_adjusted_real_mode_tick_limit : Z;
  s_maximum_backlog : Z;
  s_more_timer_multiple : Z;
  s_timer_multiple_delay : Z;
  s_active_interrupt_event : bool
}.

Class Env (E W : Type) := {
  ica_hw_interrupt : M E (pit W) unit;
  ica_hw_interrupt_cancel : M E (pit W) unit;
  ica_iret_hook_control : M E (pit W) unit;
  add_q_event_i : timer_event -> Z -> Z -> M E (pit W) unit;
  add_q_event_t : timer_event -> Z -> Z -> M E (pit W) unit;
  IDLE_tick : M E (pit W) unit;
  host_timer2_waveform : Z -> Z -> Z -> Z -> Z -> M E (pit W) unit;
  host_gettimeofday : M E (pit W) timeval;
  host_timer_init : M E (pit W) unit;
  host_speed : Z -> Z
}.

(** ** Numbers *)

Fixpoint to_bcd (n : nat) (i m bcd : Z) : Z :=
  match n with
  | O => bcd
  | S n => to_bcd n (i + 1) (m / 10) (u16 (bcd .| ((m mod 10) .<< (i .<< 2))))
  end.
Definition bin_to_bcd (val : Z) : Z := to_bcd 4 0 (val mod 10000) 0.

Fixpoint from_bcd (n : nat) (val bin mul : Z) : Z :=
  match n with
  | O => bin
  | S n => from_bcd n (val .>> 4) (u16 (bin + (val .& 0xf) * mul)) (u16 (mul * 10))
  end.
Definition bcd_to_bin (val : Z) : Z := from_bcd 4 val 0 1.

(** The clocks between two times, as 32 bits give them. *)
Definition clocks_between (first now : timeval) : Z :=
  let secs := u32 (tv_sec now - tv_sec first) in
  if secs =? 0 then u32 (u32 (tv_usec now - tv_usec first) * TIMER_CLOCK_DENOM) / TIMER_CLOCK_NUMER
  else if secs =? 1 then u32 (u32 (1000000 + tv_usec now - tv_usec first) * TIMER_CLOCK_DENOM) / TIMER_CLOCK_NUMER
  else
    u32 (u32 (Z.quot (s32 ((tv_usec now - tv_usec first) * TIMER_CLOCK_DENOM)) TIMER_CLOCK_NUMER)
         + u32 (secs * (1000000 * TIMER_CLOCK_DENOM / TIMER_CLOCK_NUMER))).

(** The time so many clocks before another. *)
Definition clocks_before (nclocks : Z) (now : timeval) : timeval :=
  let usecs := u32 (nclocks * TIMER_CLOCK_NUMER) / TIMER_CLOCK_DENOM in
  if u32 (tv_usec now) <? usecs then mkTime (s32 (tv_sec now - 1)) (s32 (s32 (tv_usec now + 1000000) - usecs))
  else mkTime (tv_sec now) (s32 (tv_usec now - usecs)).

Section Counters.
Context {E W : Type} `{Env E W}.
Abbreviation X := (M E (pit W)).

Definition cur {A} (f : COUNTER_UNIT -> A) : X A := fun s =>
  match timers s !! Z.to_nat (pcu s) with Some u => Ret (f u) s | None => Undefined end.
Definition upd (f : COUNTER_UNIT -> COUNTER_UNIT) : X unit := fun s =>
  match timers s !! Z.to_nat (pcu s) with
  | Some u => Ret tt (SET_timers (<[Z.to_nat (pcu s) := f u]> (timers s)) s)
  | None => Undefined
  end.
Definition at_timer (i : Z) : X bool := gets (fun s => pcu s =? i).
Definition select (i : Z) : X unit := modify (SET_pcu i).
Definition cdiv (a b : Z) : X Z := if b =? 0 then undefined else ret (a / b).

(** ** Time *)

Definition getIdealTime : X timeval := gets idealtime.
Definition getHostSysTime : X timeval :=
  t <- host_gettimeofday ;;
  i <- gets idealtime ;;
  ret (if (tv_sec t <? tv_sec i) || (tv_usec t <? tv_usec i) && (tv_sec t =? tv_sec i) then i else t).

Definition get_time : X timeval :=
  g <- cur getTime ;;
  match g with
  | None => undefined
  | Some IdealTime => getIdealTime
  | Some HostSysTime => getHostSysTime
  end.

Definition updateIdealTime : X unit :=
  modify (fun s =>
    let usec := s32 (tv_usec (idealtime s) + idealInterval s) in
    SET_idealtime (if 1000000 <? usec then mkTime (s32 (tv_sec (idealtime s) + 1)) (usec - 1000000)
                   else mkTime (tv_sec (idealtime s)) usec) s).

Definition timestamp : X unit :=
  upd (SET_lastTicks 0) ;; t <- get_time ;; upd (SET_activationTime t).

Definition timer_conv (count : Z) : X Z :=
  b <- cur bcd ;;
  ret (if count =? 0 then (if b =? BCD then 10000 else 0x10000) else count).

Definition clocksSinceCounterActivated : X (Z * timeval) :=
  first <- cur activationTime ;;
  now <- get_time ;;
  ret (clocks_between first now, now).

(** ** Output *)

Definition outputWaveForm (dly lowclocks hiclocks lohi repeat : Z) : X unit :=
  upd (fun u => SET_out (mkWave (s32 lowclocks) (s32 hiclocks)
                  (if repeat =? REPEAT then s32 (u32 (lowclocks + hiclocks)) else period (out u)) lohi repeat) u) ;;
  two <- at_timer 2 ;;
  when two (host_timer2_waveform dly lowclocks hiclocks lohi repeat) ;;
  upd (SET_delay 0).

Definition outputLow : X unit := outputWaveForm 0 INDEFINITE 0 STARTLO NOREPEAT.
Definition outputHigh : X unit := outputWaveForm 0 0 INDEFINITE STARTHI NOREPEAT.

Definition setOutputAfterMode : X unit :=
  mode <- cur m ;;
  if mode =? INT_ON_TERMINALCOUNT then outputLow
  else if (PROG_ONESHOT <=? mode) && (mode <=? HW_TRIG_STROBE) then outputHigh
  else ret tt.

(** ** Interrupts of counter 0 *)

Definition timer_generate_int (n : Z) : X unit :=
  s <- get ;;
  if hack_active s then
    if negb (too_soon_after_previous s) then
      ica_hw_interrupt ;;
      modify (fun s => SET_ticks_lost_this_time false (SET_too_soon_after_previous true s)) ;;
      add_q_event_i timer_no_longer_too_soon_event HOST_TIMER_TOOLONG_DELAY 0
    else modify (SET_ticks_lost_this_time true)
  else ica_hw_interrupt.

Definition timer_no_longer_too_soon (dummy : Z) : X unit :=
  modify (SET_too_soon_after_previous false) ;;
  lost <- gets ticks_lost_this_time ;;
  when lost (timer_generate_int 1).

(** The interrupts of [MAX_BACK_SECS] seconds. *)
Definition backlog (modulo : Z) : X Z := cdiv (1193180 * MAX_BACK_SECS) modulo.

Definition timer_multiple_ints (num_ints : Z) : X unit :=
  timer_generate_int 1 ;;
  more <- gets more_timer_mult ;;
  modify (SET_more_timer_mult 0) ;;
  most <- gets max_backlog ;;
  let num_ints := s32 (s32 (num_ints - 1) + more) in
  let num_ints := if most <? u32 num_ints then s32 most else num_ints in
  if num_ints =? 0 then
    modify (SET_active_int_event false) ;;
    t <- gets timers ;;
    match t with
    | [] => undefined
    | u :: _ => b <- backlog (initialCount u) ;; modify (SET_max_backlog b)
    end
  else
    d <- gets timer_multiple_delay ;;
    add_q_event_t timer_multiple_ints_event d num_ints.

Definition issueIREQ0 (n : Z) : X unit :=
  s <- get ;;
  if ticks_blocked s =? 0 then
    when (timer_int_enabled s)
      (if active_int_event s then
         d <- cdiv SYSTEM_TICK_INTV (u32 (n + 1)) ;;
         let int_delay := u16 d in
         when (int_delay <? timer_multiple_delay s) (modify (SET_timer_multiple_delay int_delay)) ;;
         modify (fun s => SET_more_timer_mult (u32 (more_timer_mult s + n)) s)
       else
         modify (SET_timer_multiple_delay (SYSTEM_TICK_INTV .>> 1)) ;;
         if n =? 1 then timer_generate_int 1
         else
           timer_generate_int 1 ;;
           d <- cdiv SYSTEM_TICK_INTV n ;;
           let d := if d =? 0 then 1 else d in
           modify (fun s => SET_active_int_event true (SET_timer_multiple_delay d s)) ;;
           add_q_event_t timer_multiple_ints_event d (s32 (n - 1)))
  else when (0 <? ticks_blocked s) (modify (fun s => SET_ticks_blocked (ticks_blocked s - 1) s)).

(** ** Counting *)

Definition guess : X Z :=
  mt <- cur microtick ;;
  when (mt =? 0)
    (upd (fun u => SET_saveCount (Count u) u) ;;
     t <- gets ticksPerIdealInterval ;;
     g <- cur guessesPerHostTick ;;
     f <- cdiv (u32 (t * 7) .>> 3) (u32 g) ;;
     upd (SET_timeFrig (s32 f))) ;;
  so_far <- cur guessesSoFar ;;
  upd (SET_guessesSoFar (s32 (so_far + 1))) ;;
  g <- cur guessesPerHostTick ;;
  when (g <? so_far) (upd (fun u => SET_timeFrig (s32 ((timeFrig u .>> 1) + 1)) u)) ;;
  upd (fun u => SET_microtick (s32 (microtick u + timeFrig u)) u) ;;
  cur (fun u => u32 (microtick u + lastTicks u)).

Definition throwaway : X unit :=
  upd (fun u => SET_guessesSoFar 2 (SET_guessesPerHostTick (s32 (guessesPerHostTick u + guessesSoFar u) .>> 1) u)) ;;
  upd (fun u => if microtick u =? 0 then u else SET_microtick 0 (SET_Count (saveCount u) u)).

Definition setLastWrap (nclocks : Z) (now : timeval) : X unit :=
  upd (fun u => SET_lastTicks nclocks (SET_activationTime (clocks_before nclocks now) u)).

(** How often a counter with this modulus has wrapped after so many clocks, the clocks
    since, and the modulus they are of; [None] is a division by zero. *)
Definition wraps (mode ticks modulo : Z) : option (Z * Z * Z) :=
  if ticks <? modulo then Some (0, ticks, modulo)
  else
    let t := ticks - modulo in
    let modulo := if mode =? INT_ON_TERMINALCOUNT then 0x10000 else modulo in
    if modulo <=? t then
      if modulo =? 0 then None else Some (1 + t / modulo, t mod modulo, modulo)
    else Some (1, t, modulo).

Definition updateCount (ticks : Z) (now : timeval) : X Z :=
  modulo <- cur initialCount ;;
  two <- at_timer 2 ;;
  last <- cur lastTicks ;;
  let ticks := if two && (u32 (ticks - last) =? 0) then 2 else ticks in
  let estimated := s32 (ticks - last) <=? 0 in
  ticks <- (if estimated then guess else throwaway ;; upd (SET_lastTicks ticks) ;; ret ticks) ;;
  mode <- cur m ;;
  match wraps mode ticks modulo with
  | None => undefined
  | Some (wrap, ticks, modulo) =>
      upd (SET_Count (u16 (modulo - ticks))) ;;
      let wrap := if estimated then 0 else wrap in
      when (negb (wrap =? 0)) (c <- cur Count ;; setLastWrap (u32 (modulo - c)) now) ;;
      ret wrap
  end.

Definition updateCounter : X unit :=
  mode <- cur m ;;
  if (mode =? INT_ON_TERMINALCOUNT) || (mode =? RATE_GEN) || (mode =? SQUAREWAVE_GEN) then
    g <- cur gate ;;
    if g =? GATE_SIGNAL_LOW then ret tt else
    let! (nticks, now) := clocksSinceCounterActivated ;;
    wrap <- updateCount nticks now ;;
    when (negb (wrap =? 0)) (upd (fun u => SET_tickadjust (Count u) u)) ;;
    when ((mode =? INT_ON_TERMINALCOUNT) && negb (wrap =? 0)) (upd (SET_tc 1)) ;;
    zero <- at_timer 0 ;;
    when (zero && negb (wrap =? 0)) (issueIREQ0 (if mode =? INT_ON_TERMINALCOUNT then 1 else wrap))
  else if (PROG_ONESHOT <=? mode) && (mode <=? HW_TRIG_STROBE) then
    t <- cur tc ;;
    if negb (t =? 0) then ret tt else
    let! (nticks, now) := clocksSinceCounterActivated ;;
    wrap <- updateCount nticks now ;;
    when (negb (wrap =? 0)) (upd (fun u => SET_tc 1 (SET_Count 0 u)))
  else ret tt.

Definition loadCounter : X unit :=
  u <- cur (fun u => u) ;;
  let modulo := (outbmsb u .<< 8) .| outblsb u in
  let modulo :=
    if bcd u =? BCD then (if negb (modulo =? 0) then bcd_to_bin modulo else 10000)
    else if modulo =? 0 then 0x10000 else modulo in
  upd (fun u => SET_newCount USED (SET_tc 0 (SET_Count (u16 modulo) (SET_initialCount modulo u)))) ;;
  zero <- at_timer 0 ;;
  when zero
    (ica_hw_interrupt_cancel ;;
     maxback <- backlog modulo ;;
     modify (fun s => if max_backlog s <? maxback then SET_max_backlog maxback s else s)).

(** The count for the latch. *)
Definition readCounter : X unit :=
  updateCounter ;;
  upd (fun u =>
    let countread := if bcd u =? BCD then bin_to_bcd (Count u) else Count u in
    SET_latchvaluelsb (countread .& 0xff) (SET_latchvaluemsb (u8 (countread .>> 8)) u)).

(** The high and low half of a square wave. *)
Definition halves (count adjustedCount : Z) : Z * Z :=
  if count .& 1 =? 0 then (adjustedCount .>> 1, adjustedCount .>> 1)
  else ((adjustedCount - 1) .>> 1, (adjustedCount + 1) .>> 1).

Definition adjust : X unit := upd (fun u => SET_Count (u16 (Count u - tickadjust u)) u).

Definition runCount : X unit :=
  c <- cur Count ;;
  adjustedCount <- timer_conv c ;;
  upd (fun u => SET_state (stateOnGate u) u) ;;
  mode <- cur m ;;
  if mode =? INT_ON_TERMINALCOUNT then
    d <- cur delay ;; outputWaveForm d adjustedCount INDEFINITE STARTLO NOREPEAT
  else if mode =? PROG_ONESHOT then
    loadCounter ;; d <- cur delay ;; outputWaveForm d adjustedCount INDEFINITE STARTLO NOREPEAT ;; adjust
  else if mode =? RATE_GEN then
    loadCounter ;; d <- cur delay ;; outputWaveForm d 1 (u32 (adjustedCount - 1)) STARTHI REPEAT ;; adjust
  else if mode =? SQUAREWAVE_GEN then
    loadCounter ;;
    c <- cur Count ;;
    let '(lowticks, hiticks) := halves c adjustedCount in
    d <- cur delay ;; outputWaveForm d lowticks hiticks STARTHI REPEAT ;; adjust
  else if mode =? SW_TRIG_STROBE then
    d <- cur delay ;; outputWaveForm d 1 adjustedCount STARTHI NOREPEAT
  else if mode =? HW_TRIG_STROBE then
    loadCounter ;; d <- cur delay ;; outputWaveForm d 1 adjustedCount STARTHI NOREPEAT
  else ret tt.

Definition startCounting : X unit := timestamp ;; runCount.

(** ** What a complete count and an open gate lead to *)

Definition CounterBufferLoaded : X unit :=
  upd (SET_actionOnWtComplete (Some w_timererror)) ;;
  loadCounter ;;
  g <- cur gate ;;
  mode <- cur m ;;
  zero <- at_timer 0 ;;
  if negb (g =? GATE_SIGNAL_LOW) then
    when zero (modify (SET_timer_int_enabled true)) ;;
    timestamp ;;
    c <- cur Count ;;
    adjustedCount <- timer_conv c ;;
    d <- cur delay ;;
    if mode =? INT_ON_TERMINALCOUNT then
      outputWaveForm d adjustedCount INDEFINITE STARTLO NOREPEAT ;; adjust ;; upd (SET_state (Some st_Counting0))
    else if mode =? PROG_ONESHOT then
      outputWaveForm d adjustedCount INDEFINITE STARTLO NOREPEAT ;; adjust ;; upd (SET_state (Some st_Counting1))
    else if mode =? RATE_GEN then
      outputWaveForm d 1 (u32 (adjustedCount - 1)) STARTHI REPEAT ;; adjust ;; upd (SET_state (Some st_Counting_2_3))
    else if mode =? SQUAREWAVE_GEN then
      (let '(lowticks, hiticks) := halves c adjustedCount in
       outputWaveForm d lowticks hiticks STARTHI REPEAT) ;; adjust ;; upd (SET_state (Some st_Counting_2_3))
    else
      outputWaveForm d 1 adjustedCount STARTHI NOREPEAT ;; adjust ;; upd (SET_state (Some st_Counting_4_5))
  else
    when zero (modify (SET_timer_int_enabled false)) ;;
    upd (fun u => SET_actionOnGateEnabled (Some g_startCounting) (SET_state (Some st_awaitingGate) u)) ;;
    upd (SET_stateOnGate (Some
      (if mode =? INT_ON_TERMINALCOUNT then st_Counting0
       else if mode =? PROG_ONESHOT then st_Counting1
       else if (mode =? RATE_GEN) || (mode =? SQUAREWAVE_GEN) then st_Counting_2_3
       else st_Counting_4_5))).

Definition unfreeze : X unit :=
  f <- cur freezeCounter ;;
  when (negb (f =? 0)) (upd (SET_freezeCounter 0) ;; timestamp).

Definition resumeCounting0onGate : X unit :=
  unfreeze ;;
  n <- cur newCount ;;
  match n with AVAILABLE => loadCounter | USED => ret tt end ;;
  t <- cur tc ;;
  if t =? 0 then timestamp ;; upd (SET_stateOnGate (Some st_Counting0)) ;; runCount
  else upd (SET_state (Some st_Counting0)).

Definition resumeCounting0 : X unit :=
  unfreeze ;;
  n <- cur newCount ;;
  match n with AVAILABLE => loadCounter | USED => ret tt end ;;
  t <- cur tc ;;
  if t =? 0 then upd (SET_stateOnGate (Some st_Counting0)) ;; runCount
  else upd (SET_state (Some st_Counting0)) ;; match n with AVAILABLE => adjust | USED => ret tt end.

Definition counting_2_3_4 (mode : Z) : state_function :=
  if (mode =? RATE_GEN) || (mode =? SQUAREWAVE_GEN) then st_Counting_2_3 else st_Counting_4_5.

Definition resumeCounting_2_3_4_onGate : X unit :=
  n <- cur newCount ;;
  match n with AVAILABLE => loadCounter | USED => ret tt end ;;
  upd (fun u => SET_stateOnGate (Some (counting_2_3_4 (m u))) u) ;;
  timestamp ;; runCount.

Definition resumeCounting_2_3_4 : X unit :=
  n <- cur newCount ;;
  match n with AVAILABLE => upd (fun u => SET_delay (Count u) u) ;; loadCounter | USED => ret tt end ;;
  upd (fun u => SET_stateOnGate (Some (counting_2_3_4 (m u))) u) ;;
  runCount.

Definition resumeCounting_1_5 : X unit :=
  upd (fun u =>
    let counting := SET_state (Some (if m u =? HW_TRIG_STROBE then st_Counting_4_5 else st_Counting1)) u in
    if gate u =? GATE_SIGNAL_RISE then counting
    else if negb (tc u =? 0) then SET_state (Some st_awaitingGate) u else counting).

Definition run_gate_action : X unit :=
  a <- cur actionOnGateEnabled ;;
  match a with
  | None => undefined
  | Some g_CounterBufferLoaded => CounterBufferLoaded
  | Some g_resumeCounting0onGate => resumeCounting0onGate
  | Some g_resumeCounting_1_5 => resumeCounting_1_5
  | Some g_resumeCounting_2_3_4_onGate => resumeCounting_2_3_4_onGate
  | Some g_startCounting => startCounting
  end.

(** [awaitingGate] for a gate signal. *)
Definition gate_arrives (value : Z) : X unit :=
  upd (SET_gate value) ;;
  if value =? GATE_SIGNAL_LOW then ret tt else
  zero <- at_timer 0 ;;
  when zero (modify (SET_timer_int_enabled true)) ;;
  run_gate_action.

Definition resumeAwaitGate : X unit :=
  upd (fun u => SET_state (Some st_awaitingGate) (SET_actionOnWtComplete (Some w_timererror) u)) ;;
  g <- cur gate ;; gate_arrives g.

Definition timererror : X unit := ret tt.

Definition run_wait_action : X unit :=
  a <- cur actionOnWtComplete ;;
  match a with
  | None => undefined
  | Some w_CounterBufferLoaded => CounterBufferLoaded
  | Some w_timererror => timererror
  | Some w_resumeAwaitGate => resumeAwaitGate
  | Some w_resumeCounting0 => resumeCounting0
  | Some w_resumeCounting_1_5 => resumeCounting_1_5
  | Some w_resumeCounting_2_3_4 => resumeCounting_2_3_4
  end.

(** ** State functions *)

Definition WtComplete : X unit :=
  u <- cur (fun u => u) ;;
  if (gate u =? GATE_SIGNAL_LOW) && match trigger u with LEVEL => true | EDGE => false end then
    upd (SET_state (Some st_awaitingGate)) ;; gate_arrives (gate u)
  else run_wait_action.

Definition uninit (sg : signal) (value : Z) : X unit :=
  match sg with GATE_SIGNAL => upd (SET_gate value) | WRITE_SIGNAL => ret tt end.

Definition waitingFor1stWrite (sg : signal) (value : Z) : X unit :=
  match sg with
  | GATE_SIGNAL => upd (SET_gate value)
  | WRITE_SIGNAL =>
      r <- cur rl ;;
      if r =? RL_LSB then upd (fun u => SET_newCount AVAILABLE (SET_outbmsb 0 (SET_outblsb value u))) ;; WtComplete
      else if r =? RL_LMSB then upd (fun u => SET_state (Some st_waitingFor2ndWrite) (SET_outblsb value u))
      else if r =? RL_MSB then upd (fun u => SET_newCount AVAILABLE (SET_outblsb 0 (SET_outbmsb value u))) ;; WtComplete
      else ret tt
  end.

Definition waitingFor2ndWrite (sg : signal) (value : Z) : X unit :=
  match sg with
  | GATE_SIGNAL => upd (SET_gate value)
  | WRITE_SIGNAL => upd (fun u => SET_outbmsb value (SET_newCount AVAILABLE u)) ;; WtComplete
  end.

Definition awaitingGate (sg : signal) (value : Z) : X unit :=
  match sg with
  | GATE_SIGNAL => gate_arrives value
  | WRITE_SIGNAL =>
      upd (fun u => SET_statePriorWt (state u) (SET_actionOnWtComplete (Some w_resumeAwaitGate) u)) ;;
      waitingFor1stWrite sg value
  end.

(** The output of a counter that stops. *)
Definition hold_output : X unit := t <- cur tc ;; if negb (t =? 0) then outputHigh else outputLow.

Definition Counting0 (sg : signal) (value : Z) : X unit :=
  upd (fun u => SET_actionOnWtComplete (Some w_resumeCounting0) (SET_actionOnGateEnabled (Some g_resumeCounting0onGate) u)) ;;
  match sg with
  | GATE_SIGNAL =>
      if value =? GATE_SIGNAL_HIGH then ret tt else
      updateCounter ;; upd (SET_gate value) ;; hold_output ;; upd (SET_state (Some st_awaitingGate))
  | WRITE_SIGNAL =>
      upd (SET_freezeCounter 1) ;; updateCounter ;; hold_output ;;
      upd (fun u => SET_statePriorWt (state u) u) ;; waitingFor1stWrite sg value
  end.

Definition Counting1 (sg : signal) (value : Z) : X unit :=
  upd (fun u => SET_actionOnWtComplete (Some w_resumeCounting_1_5) (SET_actionOnGateEnabled (Some g_startCounting) u)) ;;
  match sg with
  | GATE_SIGNAL =>
      if value =? GATE_SIGNAL_LOW then ret tt else
      upd (fun u => SET_stateOnGate (Some st_Counting1) (SET_gate GATE_SIGNAL_HIGH u)) ;;
      timestamp ;; runCount
  | WRITE_SIGNAL => upd (fun u => SET_statePriorWt (state u) u) ;; waitingFor1stWrite sg value
  end.

Definition stop_or_write (sg : signal) (value : Z) : X unit :=
  match sg with
  | GATE_SIGNAL =>
      if value =? GATE_SIGNAL_HIGH then ret tt else
      updateCounter ;; upd (SET_gate value) ;; outputHigh ;; upd (SET_state (Some st_awaitingGate))
  | WRITE_SIGNAL => upd (fun u => SET_statePriorWt (state u) u) ;; waitingFor1stWrite sg value
  end.

Definition Counting_2_3 (sg : signal) (value : Z) : X unit :=
  upd (fun u => SET_actionOnWtComplete (Some w_resumeCounting_2_3_4) (SET_actionOnGateEnabled (Some g_resumeCounting_2_3_4_onGate) u)) ;;
  stop_or_write sg value.

Definition Counting_4_5 (sg : signal) (value : Z) : X unit :=
  upd (fun u =>
    if m u =? HW_TRIG_STROBE
    then SET_actionOnWtComplete (Some w_resumeCounting_1_5) (SET_actionOnGateEnabled (Some g_resumeCounting_1_5) u)
    else SET_actionOnWtComplete (Some w_resumeCounting_2_3_4) (SET_actionOnGateEnabled (Some g_resumeCounting_2_3_4_onGate) u)) ;;
  stop_or_write sg value.

Definition run_state (sg : signal) (value : Z) : X unit :=
  st <- cur state ;;
  match st with
  | None => undefined
  | Some st_uninit => uninit sg value
  | Some st_awaitingGate => awaitingGate sg value
  | Some st_waitingFor1stWrite => waitingFor1stWrite sg value
  | Some st_waitingFor2ndWrite => waitingFor2ndWrite sg value
  | Some st_Counting0 => Counting0 sg value
  | Some st_Counting1 => Counting1 sg value
  | Some st_Counting_2_3 => Counting_2_3 sg value
  | Some st_Counting_4_5 => Counting_4_5 sg value
  end.

Definition emu_8253 (port : Z) (sg : signal) (value : Z) : X unit :=
  select (port .& 3) ;; run_state sg value.

(** ** The control word *)

Definition READ_BACK : Z := 3.

Definition setTriggerCond : X unit :=
  upd (fun u =>
    if (m u =? RATE_GEN) || (m u =? SQUAREWAVE_GEN) || (m u =? SW_TRIG_STROBE) || (m u =? INT_ON_TERMINALCOUNT) then SET_trigger LEVEL u
    else if (m u =? PROG_ONESHOT) || (m u =? HW_TRIG_STROBE) then SET_trigger EDGE u else u).

Definition latchStatusValue : X unit :=
  upd (fun u => SET_readState READSTATUS (SET_latchstatus
    (u8 ((startLogicLevel (out u) .<< 7) .| (match newCount u with AVAILABLE => 1 .<< 6 | USED => 0 end)
         .| (rl u .<< 4) .| (m u .<< 1) .| bcd u)) u)).

Definition latch_count (i : Z) : X unit := select i ;; readCounter ;; upd (SET_countlatched 1).
Definition latch_status (i : Z) : X unit := select i ;; latchStatusValue.

Definition tst (x : Z) : bool := negb (x =? 0).

Definition controlWordReg (cwd : Z) : X unit :=
  let channel := (cwd .& 0xc0) .>> 6 in
  if channel =? READ_BACK then
    let select_bits := (cwd .& 0xe) .>> 1 in
    when (negb (tst (cwd .& 0x20)))
      (when (tst (select_bits .& 1)) (latch_count 0) ;;
       when (tst (select_bits .& 2)) (latch_count 1) ;;
       when (tst (select_bits .& 4)) (latch_count 2)) ;;
    when (negb (tst (cwd .& 0x10)))
      (when (tst (select_bits .& 1)) (latch_status 0) ;;
       when (tst (select_bits .& 2)) (latch_status 1) ;;
       when (tst (select_bits .& 4)) (latch_status 2))
  else
    select channel ;;
    let r := (cwd .& 0x30) .>> 4 in
    if r =? LATCH then readCounter ;; upd (SET_countlatched 1)
    else
      when (channel =? 0) (modify (SET_timer_int_enabled false)) ;;
      let mode := (cwd .& 0xe) .>> 1 in
      let mode := if 5 <? mode then mode - 4 else mode in
      upd (fun u => SET_m mode (SET_saveCount 0 (SET_microtick 0 (SET_tickadjust 0 (SET_tc 0 (SET_countlatched 0 u)))))) ;;
      setTriggerCond ;; setOutputAfterMode ;;
      upd (fun u => SET_state (Some st_waitingFor1stWrite) (SET_statePriorWt (state u)
        (SET_actionOnGateEnabled (Some g_CounterBufferLoaded) (SET_actionOnWtComplete (Some w_CounterBufferLoaded)
        (SET_rl r (SET_bcd (cwd .& 1) u)))))).

(** ** Ticks and the ports *)

Definition SWTMR_time_tick : X unit :=
  IDLE_tick ;;
  lock <- gets timelock ;;
  if lock =? LOCKED then modify (SET_needtick (-1)) else
  updateIdealTime ;;
  select 0 ;; updateCounter ;;
  select 2 ;; updateCounter.

Definition checktimelock : X unit :=
  modify (SET_timelock UNLOCKED) ;;
  need <- gets needtick ;;
  when (negb (need =? 0)) (modify (SET_needtick 0) ;; SWTMR_time_tick).

Definition SWTMR_gate (port value : Z) : X unit :=
  modify (SET_timelock LOCKED) ;; emu_8253 port GATE_SIGNAL value ;; checktimelock.

(** What the selected counter has for a read; [value] is what the variable for the result
    holds before. *)
Definition read_byte (value : Z) : X Z :=
  latched <- cur countlatched ;;
  when (latched =? 0) readCounter ;;
  u <- cur (fun u => u) ;;
  if readState u =? UNREAD then
    if rl u =? RL_LSB then upd (SET_countlatched 0) ;; ret (latchvaluelsb u)
    else if rl u =? RL_LMSB then upd (SET_readState READMSB) ;; ret (latchvaluelsb u)
    else if rl u =? RL_MSB then upd (SET_countlatched 0) ;; ret (latchvaluemsb u)
    else ret value
  else if readState u =? READMSB then
    upd (fun u => SET_readState UNREAD (SET_countlatched 0 u)) ;; ret (latchvaluemsb u)
  else if readState u =? READSTATUS then upd (SET_readState UNREAD) ;; ret (latchstatus u)
  else ret value.

Definition SWTMR_inb (port value : Z) : X Z :=
  modify (SET_timelock LOCKED) ;;
  select (port .& 3) ;;
  v <- read_byte value ;;
  checktimelock ;;
  ret v.

Definition SWTMR_outb (port value : Z) : X unit :=
  modify (SET_timelock LOCKED) ;;
  let port := port .& TIMER_BIT_MASK in
  (if port =? 0x43 then controlWordReg value else emu_8253 port WRITE_SIGNAL value) ;;
  checktimelock.

Definition get_DOS_ticks : X Z :=
  t <- gets timers ;; match t with [] => undefined | u :: _ => ret (Count u) end.

Definition axe_ticks (ticks : Z) : X unit := modify (SET_ticks_blocked ticks).

(** ** Set up *)

Definition SWTMR_init_funcptrs : X unit :=
  modify (SET_too_soon_after_previous false) ;;
  adj <- gets adj_n_real_mode_ticks_before_full_speed ;;
  when (adj =? 0)
    (modify (fun s => SET_adj_instrs_per_tick (host_speed (instrs_per_tick s)) s) ;;
     s <- get ;;
     n <- cdiv (n_rm_instrs_before_full_speed s) (adj_instrs_per_tick s) ;;
     modify (SET_adj_n_real_mode_ticks_before_full_speed n)).

Definition IdealTimeInit : X unit :=
  modify (SET_idealInterval HOST_IDEAL_ALARM) ;;
  t <- getHostSysTime ;;
  modify (fun s => SET_ticksPerIdealInterval (u32 (idealInterval s * TIMER_CLOCK_DENOM) / TIMER_CLOCK_NUMER) (SET_idealtime t s)).

Definition counter_init : X unit :=
  t <- gets ticksPerIdealInterval ;;
  upd (fun u => SET_timeFrig (t / 2) (SET_guessesPerHostTick 2 (SET_guessesSoFar 2
    (SET_initialCount 0x10000 (SET_state (Some st_uninit) u))))).

(** [on i m]: [m] with the counter a pointer points to; [pcu] is not changed. *)
Definition on (i : Z) (x : X unit) : X unit := p <- gets pcu ;; select i ;; x ;; select p.

Definition Timer_init : X unit :=
  on 0 counter_init ;; on 1 counter_init ;; on 2 counter_init ;;
  on 0 (upd (SET_getTime (Some IdealTime))) ;;
  on 1 (upd (SET_getTime (Some HostSysTime))) ;;
  on 2 (upd (SET_getTime (Some HostSysTime))).

#[local] Instance HasIos_pit : Ios.HasIos (pit W) := {| Ios.the_ios := bus; Ios.put_ios := SET_bus; Ios.the_put_ios := fun _ _ => eq_refl |}.

Fixpoint connect_timer (n : nat) (i : Z) : X unit :=
  match n with
  | O => ret tt
  | S n =>
      Ios.io_connect_port i TIMER_ADAPTOR (if i .& 3 =? 3 then Ios.IO_WRITE else Ios.IO_READ_WRITE) ;;
      connect_timer n (i + 1)
  end.

Definition timer_init : X unit :=
  Ios.io_define_inb TIMER_ADAPTOR (Ios.dev TIMER_ADAPTOR) ;;
  Ios.io_define_outb TIMER_ADAPTOR (Ios.dev TIMER_ADAPTOR) ;;
  connect_timer (Z.to_nat (TIMER_PORT_END - TIMER_PORT_START)) TIMER_PORT_START ;;
  IdealTimeInit ;;
  Timer_init ;;
  modify (fun s => SET_needtick 0 (SET_timelock UNLOCKED s)) ;;
  host_timer_init ;;
  modify (fun s => SET_more_timer_mult 0 (SET_active_int_event false s)) ;;
  ica_iret_hook_control.

Definition timer_post : X unit :=
  SWTMR_gate 0x40 GATE_SIGNAL_RISE ;;
  SWTMR_gate 0x41 GATE_SIGNAL_RISE ;;
  SWTMR_gate 0x42 GATE_SIGNAL_LOW ;;
  SWTMR_outb 0x43 0x36 ;; SWTMR_outb 0x40 0 ;; SWTMR_outb 0x40 0 ;;
  SWTMR_outb 0x43 0x54 ;; SWTMR_outb 0x41 17 ;;
  SWTMR_outb 0x43 0xb6 ;; SWTMR_outb 0x42 0x68 ;; SWTMR_outb 0x42 0x04.

(** ** The snapshot *)

Definition snapshot_timer_state_id (st : option state_function) : Z :=
  match st with
  | None => 0
  | Some st_uninit => 1 | Some st_awaitingGate => 2 | Some st_waitingFor1stWrite => 3 | Some st_waitingFor2ndWrite => 4
  | Some st_Counting0 => 5 | Some st_Counting1 => 6 | Some st_Counting_2_3 => 7 | Some st_Counting_4_5 => 8
  end.
(** [snapshot_timer_action_id] of the two kinds of action. *)
Definition wait_action_id (a : option wait_action) : Z :=
  match a with
  | None => 0
  | Some w_CounterBufferLoaded => 1 | Some w_timererror => 2 | Some w_resumeAwaitGate => 3
  | Some w_resumeCounting0 => 4 | Some w_resumeCounting_1_5 => 6 | Some w_resumeCounting_2_3_4 => 7
  end.
Definition gate_action_id (a : option gate_action) : Z :=
  match a with
  | None => 0
  | Some g_CounterBufferLoaded => 1 | Some g_resumeCounting0onGate => 5 | Some g_resumeCounting_1_5 => 6
  | Some g_resumeCounting_2_3_4_onGate => 8 | Some g_startCounting => 9
  end.

Definition snapshot_timer_state_function (id : Z) : option state_function :=
  match id with
  | 1 => Some st_uninit | 2 => Some st_awaitingGate | 3 => Some st_waitingFor1stWrite | 4 => Some st_waitingFor2ndWrite
  | 5 => Some st_Counting0 | 6 => Some st_Counting1 | 7 => Some st_Counting_2_3 | 8 => Some st_Counting_4_5
  | _ => None
  end.

(** [None] is [FALSE]. *)
Definition snapshot_restore_timer_wait_action (id : Z) : option (option wait_action) :=
  match id with
  | 0 => Some None
  | 1 => Some (Some w_CounterBufferLoaded) | 2 => Some (Some w_timererror) | 3 => Some (Some w_resumeAwaitGate)
  | 4 => Some (Some w_resumeCounting0) | 6 => Some (Some w_resumeCounting_1_5) | 7 => Some (Some w_resumeCounting_2_3_4)
  | _ => None
  end.
Definition snapshot_restore_timer_gate_action (id : Z) : option (option gate_action) :=
  match id with
  | 0 => Some None
  | 1 => Some (Some g_CounterBufferLoaded) | 5 => Some (Some g_resumeCounting0onGate) | 6 => Some (Some g_resumeCounting_1_5)
  | 8 => Some (Some g_resumeCounting_2_3_4_onGate) | 9 => Some (Some g_startCounting)
  | _ => None
  end.

Definition snapshot_timer_elapsed_microseconds (now t : timeval) : Z :=
  (tv_sec now - tv_sec t) * 1000000 + tv_usec now - tv_usec t.

(** The time [age] microseconds ago. *)
Definition rebased (age : Z) (now : timeval) : timeval :=
  let age := if age <? 0 then 0 else age in
  let sec := s32 (tv_sec now - s32 (Z.quot age 1000000)) in
  let usec := s32 (tv_usec now - s32 (Z.rem age 1000000)) in
  if usec <? 0 then mkTime (s32 (sec - 1)) (s32 (usec + 1000000)) else mkTime sec usec.

Definition snapshot_timer_rebase (age : Z) : X unit :=
  now <- get_time ;; upd (SET_activationTime (rebased age now)).

Definition countload_code (c : countload) : Z := match c with AVAILABLE => 0 | USED => 1 end.
Definition trig_code (t : trigCond) : Z := match t with LEVEL => 0 | EDGE => 1 end.

Definition saved_unit (u : COUNTER_UNIT) (now : timeval) : softpc_device_pit_counter_state :=
  mkSaved (m u) (bcd u) (rl u) (snapshot_timer_state_id (state u)) (snapshot_timer_state_id (statePriorWt u))
    (snapshot_timer_state_id (stateOnGate u)) (wait_action_id (actionOnWtComplete u)) (gate_action_id (actionOnGateEnabled u))
    (outblsb u) (outbmsb u) (latchvaluelsb u) (latchvaluemsb u) (latchstatus u) (initialCount u) (readState u) (countlatched u)
    (Count u) (countload_code (newCount u)) (tickadjust u) (snapshot_timer_elapsed_microseconds now (activationTime u))
    (tc u) (freezeCounter u) (lastTicks u) (microtick u) (timeFrig u) (saveCount u) (guessesPerHostTick u) (guessesSoFar u)
    (delay u) (trig_code (trigger u)) (gate u) (clk u) (out u).

(** Every function has an identifier; only a counter without a clock or a state is refused. *)
Definition snapshot_capture_timer_counter (i : Z) : X (option softpc_device_pit_counter_state) :=
  p <- gets pcu ;;
  select i ;;
  u <- cur (fun u => u) ;;
  r <- match getTime u, state u with
       | Some _, Some _ => now <- get_time ;; ret (Some (saved_unit u now))
       | _, _ => ret None
       end ;;
  select p ;;
  ret r.

Definition refused_counter (v : softpc_device_pit_counter_state) : bool :=
  (s_mode v <? INT_ON_TERMINALCOUNT) || (HW_TRIG_STROBE <? s_mode v) ||
  negb (s_bcd v =? BINARY) && negb (s_bcd v =? BCD) ||
  (s_read_load v <? LATCH) || (RL_LMSB <? s_read_load v) ||
  negb (s_new_count v =? 0) && negb (s_new_count v =? 1) ||
  negb (s_trigger v =? 0) && negb (s_trigger v =? 1).

(** The fields that are restored before the actions are looked at. *)
Definition restored_unit (v : softpc_device_pit_counter_state) (i : Z) (st prior onGate : option state_function) (u : COUNTER_UNIT) : COUNTER_UNIT :=
  mkUnit (s_mode v) (s_bcd v) (s_read_load v) st prior onGate (actionOnWtComplete u) (actionOnGateEnabled u)
    (Some (if i =? 0 then IdealTime else HostSysTime))
    (s_output_lsb v) (s_output_msb v) (s_initial_count v) (s_read_state v) (s_count_latched v)
    (s_latch_value_lsb v) (s_latch_value_msb v) (s_latch_status v) (s_count v)
    (if s_new_count v =? 0 then AVAILABLE else USED) (s_tick_adjust v) (activationTime u) (s_terminal_count v) (s_freeze_counter v)
    (s_last_ticks v) (s_microtick v) (s_time_frig v) (s_saved_count v) (s_guesses_per_host_tick v) (s_guesses_so_far v)
    (s_delay v) (if s_trigger v =? 0 then LEVEL else EDGE) (s_gate v) (s_clock v) (s_waveform v).

Definition snapshot_restore_timer_counter (v : softpc_device_pit_counter_state) (i : Z) : X bool :=
  if refused_counter v then ret false else
  match snapshot_timer_state_function (s_state v) with
  | None => ret false
  | Some st =>
      let prior := if s_state_prior_wait v =? 0 then None else snapshot_timer_state_function (s_state_prior_wait v) in
      let onGate := if s_state_on_gate v =? 0 then None else snapshot_timer_state_function (s_state_on_gate v) in
      if (negb (s_state_prior_wait v =? 0) && match prior with None => true | Some _ => false end)
         || (negb (s_state_on_gate v =? 0) && match onGate with None => true | Some _ => false end) then ret false
      else
        p <- gets pcu ;;
        select i ;;
        upd (restored_unit v i (Some st) prior onGate) ;;
        r <- match snapshot_restore_timer_wait_action (s_action_on_wait_complete v) with
             | None => ret false
             | Some w =>
                 upd (SET_actionOnWtComplete w) ;;
                 match snapshot_restore_timer_gate_action (s_action_on_gate_enabled v) with
                 | None => ret false
                 | Some g =>
                     upd (SET_actionOnGateEnabled g) ;;
                     snapshot_timer_rebase (s_activation_age_microseconds v) ;; ret true
                 end
             end ;;
        select p ;;
        ret r
  end.

Fixpoint capture_counters (n : nat) (i : Z) : X (option (list softpc_device_pit_counter_state)) :=
  match n with
  | O => ret (Some [])
  | S n =>
      c <- snapshot_capture_timer_counter i ;;
      match c with
      | None => ret None
      | Some c => r <- capture_counters n (i + 1) ;; ret (match r with None => None | Some l => Some (c :: l) end)
      end
  end.

Definition softpc_device_snapshot_capture_pit : X (option softpc_device_pit_state) :=
  p <- gets pcu ;;
  if (p <? 0) || (3 <=? p) then ret None else
  r <- capture_counters 3 0 ;;
  match r with
  | None => ret None
  | Some l =>
      s <- get ;;
      ret (Some (mkSnapshot l (pcu s) (ticks_blocked s) (timer_int_enabled s) (timelock s) (needtick s) (hack_active s)
        (too_soon_after_previous s) (ticks_lost_this_time s) (real_mode_ticks_in_a_row s) (instrs_per_tick s) (adj_instrs_per_tick s)
        (n_rm_instrs_before_full_speed s) (adj_n_real_mode_ticks_before_full_speed s) (max_backlog s) (more_timer_mult s)
        (timer_multiple_delay s) (active_int_event s)))
  end.

(** The loop stops at the first counter that is refused. *)
Fixpoint restore_counters (l : list softpc_device_pit_counter_state) (i : Z) : X bool :=
  match l with
  | [] => ret true
  | c :: l => r <- snapshot_restore_timer_counter c i ;; if r then restore_counters l (i + 1) else ret false
  end.

Definition restored_globals (st : softpc_device_pit_state) (s : pit W) : pit W :=
  mkPit (timers s) (s_current_counter st) (idealtime s) (idealInterval s) (ticksPerIdealInterval s) (s_ticks_blocked st)
    (s_timer_interrupt_enabled st) (s_maximum_backlog st) (s_active_interrupt_event st) (s_more_timer_multiple st)
    (s_timer_multiple_delay st) (s_time_lock st) (s_need_tick st) (s_hack_active st) (s_too_soon_after_previous st)
    (s_ticks_lost_this_time st) (s_real_mode_ticks_in_a_row st) (s_instructions_per_tick st) (s_adjusted_instructions_per_tick st)
    (s_real_mode_instruction_limit st) (s_adjusted_real_mode_tick_limit st) (bus s) (world s).

Definition softpc_device_snapshot_restore_pit (st : softpc_device_pit_state) : X bool :=
  if (s_current_counter st <? 0) || (3 <=? s_current_counter st) then ret false else
  r <- restore_counters (s_counter st) 0 ;;
  if negb r then ret false else
  modify (restored_globals st) ;;
  t <- gets timers ;;
  match t !! 2%nat with
  | None => undefined
  | Some u =>
      host_timer2_waveform (delay u) (u32 (clocksAtLoLogicLevel (out u))) (u32 (clocksAtHiLogicLevel (out u)))
        (startLogicLevel (out u)) (repeatWaveForm (out u)) ;;
      ret true
  end.

(** [SOFTPC_DEVICE_QUEUE_TIMER_CLEAR_TOO_SOON] and [SOFTPC_DEVICE_QUEUE_TIMER_MULTIPLE_INTERRUPTS]. *)
Definition softpc_device_snapshot_encode_timer_callback (e : timer_event) : Z :=
  match e with timer_no_longer_too_soon_event => 1 | timer_multiple_ints_event => 2 end.
Definition softpc_device_snapshot_decode_timer_callback (id : Z) : option timer_event :=
  if id =? 1 then Some timer_no_longer_too_soon_event else if id =? 2 then Some timer_multiple_ints_event else None.

(** ** Reasoning about the current counter

    [wp x Q i u]: with counter [i] selected and holding [u], [x] returns, having changed
    only that counter among the three, and leaves the counter and its result in [Q]. *)

(** What is outside the module does not come back into it. *)
Class QuietEnv : Prop := {
  quiet_interrupt s : exists w, ica_hw_interrupt s = Ret tt (SET_world w s);
  quiet_cancel s : exists w, ica_hw_interrupt_cancel s = Ret tt (SET_world w s);
  quiet_hook s : exists w, ica_iret_hook_control s = Ret tt (SET_world w s);
  quiet_event_i e t n s : exists w, add_q_event_i e t n s = Ret tt (SET_world w s);
  quiet_event_t e t n s : exists w, add_q_event_t e t n s = Ret tt (SET_world w s);
  quiet_idle s : exists w, IDLE_tick s = Ret tt (SET_world w s);
  quiet_waveform d l h b r s : exists w, host_timer2_waveform d l h b r s = Ret tt (SET_world w s);
  quiet_clock s : exists t w, host_gettimeofday s = Ret t (SET_world w s);
  quiet_init s : exists w, host_timer_init s = Ret tt (SET_world w s)
}.
Context `{QuietEnv}.

Definition wp {A} (x : X A) (Q : A -> COUNTER_UNIT -> Prop) (i : Z) (u : COUNTER_UNIT) : Prop :=
  forall s, pcu s = i -> timers s !! Z.to_nat i = Some u ->
  exists a s' u', x s = Ret a s' /\ timers s' = <[Z.to_nat i := u']> (timers s) /\ pcu s' = i /\ Q a u'.

Lemma wpc_ret {A} (a : A) (Q : A -> COUNTER_UNIT -> Prop) i u : Q a u -> wp (ret a) Q i u.
Proof. intros HQ s Hp Hu. exists a, s, u. rewrite list_insert_id by exact Hu. auto. Qed.

Lemma wpc_bind {A B} (x : X A) (k : A -> X B) Q i u :
  wp x (fun a u' => wp (k a) Q i u') i u -> wp (bind x k) Q i u.
Proof.
  intros HX s Hp Hu. destruct (HX s Hp Hu) as (a & s1 & u1 & E1 & T1 & P1 & HK). assert (Hi : (Z.to_nat i < length (timers s))%nat) by (eapply lookup_lt_Some; exact Hu).
  destruct (HK s1 P1) as (b & s2 & u2 & E2 & T2 & P2 & HQ); [rewrite T1, list_lookup_insert_eq by exact Hi; reflexivity|].
  exists b, s2, u2. rewrite (bind_ret _ _ _ _ _ E1). split; [exact E2|]. split; [rewrite T2, T1, list_insert_insert_eq; reflexivity | auto].
Qed.

Lemma wpc_mono {A} (x : X A) (Q Q' : A -> COUNTER_UNIT -> Prop) i u :
  wp x Q i u -> (forall a u', Q a u' -> Q' a u') -> wp x Q' i u.
Proof. intros HX HQ s Hp Hu. destruct (HX s Hp Hu) as (a & s1 & u1 & E1 & T1 & P1 & H1). exists a, s1, u1. auto. Qed.

Lemma wpc_cur {A} (f : COUNTER_UNIT -> A) Q i u : Q (f u) u -> wp (cur f) Q i u.
Proof. intros HQ s Hp Hu. exists (f u), s, u. unfold cur. rewrite Hp, Hu, list_insert_id by exact Hu. auto. Qed.

Lemma wpc_upd f (Q : unit -> COUNTER_UNIT -> Prop) i u : Q tt (f u) -> wp (upd f) Q i u.
Proof. intros HQ s Hp Hu. unfold upd. rewrite Hp, Hu. eexists _, _, (f u). split; [reflexivity|]. auto. Qed.

Lemma wpc_gets {A} (f : pit W -> A) (Q : A -> COUNTER_UNIT -> Prop) i u : (forall s, pcu s = i -> Q (f s) u) -> wp (gets f) Q i u.
Proof. intros HQ s Hp Hu. exists (f s), s, u. rewrite list_insert_id by exact Hu. auto. Qed.

Lemma wpc_get (Q : pit W -> COUNTER_UNIT -> Prop) i u : (forall s, Q s u) -> wp get Q i u.
Proof. intros HQ s Hp Hu. exists s, s, u. rewrite list_insert_id by exact Hu. auto. Qed.

Lemma wpc_modify f (Q : unit -> COUNTER_UNIT -> Prop) i u :
  (forall s, timers (f s) = timers s /\ pcu (f s) = pcu s) -> Q tt u -> wp (modify f) Q i u.
Proof. intros Hf HQ s Hp Hu. exists tt, (f s), u. destruct (Hf s) as [-> ->]. rewrite list_insert_id by exact Hu. auto. Qed.

Lemma wpc_at j (Q : bool -> COUNTER_UNIT -> Prop) i u : Q (i =? j) u -> wp (at_timer j) Q i u.
Proof. intros HQ. apply wpc_gets. intros s ->. exact HQ. Qed.

Lemma wpc_cdiv a b (Q : Z -> COUNTER_UNIT -> Prop) i u : b <> 0 -> Q (a / b) u -> wp (cdiv a b) Q i u.
Proof. intros Hb HQ. unfold cdiv. rewrite (proj2 (Z.eqb_neq _ _) Hb). apply wpc_ret, HQ. Qed.

Lemma wpc_when (b : bool) (x : X unit) (Q : unit -> COUNTER_UNIT -> Prop) i u :
  (b = true -> wp x Q i u) -> (b = false -> Q tt u) -> wp (when b x) Q i u.
Proof. destruct b; intros H1 H2; [apply H1 | apply wpc_ret, H2]; reflexivity. Qed.

Lemma wpc_if {A} (b : bool) (x y : X A) Q i u :
  (b = true -> wp x Q i u) -> (b = false -> wp y Q i u) -> wp (if b then x else y) Q i u.
Proof. destruct b; auto. Qed.

Lemma wpc_quiet (x : X unit) (Q : unit -> COUNTER_UNIT -> Prop) i u :
  (forall s, exists w, x s = Ret tt (SET_world w s)) -> Q tt u -> wp x Q i u.
Proof. intros Hx HQ s Hp Hu. destruct (Hx s) as (w & E1). exists tt, (SET_world w s), u. cbn. rewrite list_insert_id by exact Hu. auto. Qed.

Lemma wpc_host (Q : timeval -> COUNTER_UNIT -> Prop) i u : (forall t, Q t u) -> wp host_gettimeofday Q i u.
Proof. intros HQ s Hp Hu. destruct (quiet_clock s) as (t & w & E1). exists t, (SET_world w s), u. cbn. rewrite list_insert_id by exact Hu. auto. Qed.
(** One rule of [wp]; a test is left as an equation. *)
Ltac wps1 :=
  lazymatch goal with
  | |- wp (bind _ _) _ _ _ => apply wpc_bind
  | |- wp (ret _) _ _ _ => apply wpc_ret
  | |- wp (cur _) _ _ _ => apply wpc_cur
  | |- wp (upd _) _ _ _ => apply wpc_upd
  | |- wp (at_timer _) _ _ _ => apply wpc_at
  | |- wp (gets _) _ _ _ => apply wpc_gets; intros ? _
  | |- wp get _ _ _ => apply wpc_get; intros ?
  | |- wp (modify _) _ _ _ => apply wpc_modify; [intros ?; split; reflexivity |]
  | |- wp (when _ _) _ _ _ => apply wpc_when; intros ?
  | |- wp (if _ then _ else _) _ _ _ => apply wpc_if; intros ?
  | |- wp ica_hw_interrupt _ _ _ => apply wpc_quiet; [apply quiet_interrupt |]
  | |- wp ica_hw_interrupt_cancel _ _ _ => apply wpc_quiet; [apply quiet_cancel |]
  | |- wp (add_q_event_i _ _ _) _ _ _ => apply wpc_quiet; [apply quiet_event_i |]
  | |- wp (add_q_event_t _ _ _) _ _ _ => apply wpc_quiet; [apply quiet_event_t |]
  | |- wp IDLE_tick _ _ _ => apply wpc_quiet; [apply quiet_idle |]
  | |- wp (host_timer2_waveform _ _ _ _ _) _ _ _ => apply wpc_quiet; [apply quiet_waveform |]
  | |- wp host_gettimeofday _ _ _ => apply wpc_host; intros ?
  end.
Ltac wps := repeat wps1.

(** ** What counting keeps *)

(** The fields that counting does not change: how the counter is programmed, and its
    latches. *)
Definition program (u : COUNTER_UNIT) :=
  (m u, bcd u, rl u, state u, statePriorWt u, stateOnGate u, actionOnWtComplete u, actionOnGateEnabled u, (getTime u, trigger u, gate u, outblsb u, outbmsb u, newCount u)).
Definition latches (u : COUNTER_UNIT) := (readState u, countlatched u, latchvaluelsb u, latchvaluemsb u, latchstatus u).

(** The ranges of the fields counting works with; [k] bounds the guesses so far. *)
Record counted (k : Z) (u : COUNTER_UNIT) : Prop := {
  ct_initial : 1 <= initialCount u <= 0x10000;
  ct_last : 0 <= lastTicks u <= 0x10000;
  ct_per : 2 <= guessesPerHostTick u <= 2 + k;
  ct_so_far : 2 <= guessesSoFar u <= 2 + k;
  ct_count : 0 <= Count u < 0x10000;
  ct_save : 0 <= saveCount u < 0x10000
}.

Lemma counted_mono k k' u : k <= k' -> counted k u -> counted k' u.
Proof. intros Hk []. split; lia. Qed.

Ltac ranges := match goal with H : counted _ _ |- counted _ _ => destruct H; split; cbn in *; lia end.

Lemma wpc_get_time (Q : timeval -> COUNTER_UNIT -> Prop) i u : getTime u <> None -> (forall t, Q t u) -> wp get_time Q i u.
Proof.
  intros Hg HQ. unfold get_time, getIdealTime, getHostSysTime. wps. destruct (getTime u) as [[]|]; [wps; apply HQ.. | contradiction].
Qed.

Lemma wpc_timestamp k i u : counted k u -> getTime u <> None ->
  wp timestamp (fun _ u' => counted k u' /\ program u' = program u /\ latches u' = latches u /\ Count u' = Count u /\ tc u' = tc u) i u.
Proof. intros HC Hg. unfold timestamp. wps. apply wpc_get_time; [exact Hg|]. intros t. wps. split; [ranges | auto]. Qed.

(** An output changes nothing else. *)
Lemma wpc_output (Q : unit -> COUNTER_UNIT -> Prop) d l h b r i u :
  (forall w, Q tt (SET_delay 0 (SET_out w u))) -> wp (outputWaveForm d l h b r) Q i u.
Proof. intros HQ. unfold outputWaveForm. wps; apply HQ. Qed.

Lemma s32_small z : - 2 ^ 31 <= z < 2 ^ 31 -> s32 z = z.
Proof.
  intros Hz. pose proof (sgn_range 32 z ltac:(lia)) as HR. pose proof (sgn_mod 32 z ltac:(lia)) as HM. fold (s32 z) in HR, HM.
  pose proof (Z.div_mod (s32 z) (2 ^ 32) ltac:(lia)). pose proof (Z.div_mod z (2 ^ 32) ltac:(lia)).
  change (2 ^ (32 - 1)) with 2147483648 in HR. change (2 ^ 31) with 2147483648 in Hz. change (2 ^ 32) with 4294967296 in *. lia.
Qed.

Lemma wpc_guess k i u : counted k u -> k < 2 ^ 30 ->
  wp guess (fun t u' => 0 <= t < 2 ^ 32 /\ counted (k + 1) u' /\ program u' = program u /\ latches u' = latches u
    /\ initialCount u' = initialCount u /\ tc u' = tc u /\ lastTicks u' = lastTicks u) i u.
Proof.
  intros HC Hk. destruct HC. unfold guess. wps.
  1: apply wpc_cdiv; [cbn; rewrite u32_small by lia; lia|]; wps.
  all: split; [apply u32_range|]; split; [|repeat split]; split; cbn; rewrite ?s32_small by lia; lia.
Qed.

Lemma wpc_throwaway k i u : counted k u -> k < 2 ^ 29 ->
  wp throwaway (fun _ u' => counted k u' /\ program u' = program u /\ latches u' = latches u
    /\ initialCount u' = initialCount u /\ tc u' = tc u /\ lastTicks u' = lastTicks u) i u.
Proof.
  intros HC Hk. destruct HC. unfold throwaway. wps. cbn [microtick SET_guessesSoFar SET_guessesPerHostTick].
  destruct (microtick u =? 0); (split; [|repeat split]); split; cbn; rewrite ?s32_small, ?Z.shiftr_div_pow2 by lia; change (2 ^ 1) with 2; Z.to_euclidean_division_equations; lia.
Qed.

Lemma clocks_between_range a b : 0 <= clocks_between a b < 2 ^ 32.
Proof.
  unfold clocks_between, TIMER_CLOCK_NUMER. destruct (_ =? 0); [|destruct (_ =? 1); [|apply u32_range]].
  all: match goal with |- context [u32 ?x / 1000] => pose proof (u32_range x); pose proof (Z.div_pos (u32 x) 1000); pose proof (Z.div_le_upper_bound (u32 x) 1000 (u32 x)) end; lia.
Qed.

(** Wrapping: the count of wraps and the clocks since the last one. *)
Lemma wraps_spec mode ticks modulo : 1 <= modulo <= 0x10000 -> 0 <= ticks ->
  exists w t n, wraps mode ticks modulo = Some (w, t, n) /\ 0 <= t < n /\ 1 <= n <= 0x10000 /\ 0 <= w <= ticks
  /\ (w = 0 <-> ticks < modulo) /\ (w = 0 -> t = ticks).
Proof.
  intros Hm Ht. unfold wraps. destruct (Z.ltb_spec ticks modulo) as [Hl | Hl].
  - eexists _, _, _. split; [reflexivity|]. lia.
  - set (n := if mode =? INT_ON_TERMINALCOUNT then 65536 else modulo). assert (Hn : 1 <= n <= 0x10000) by (unfold n; destruct (_ =? _); lia).
    destruct (Z.leb_spec n (ticks - modulo)) as [Hg | Hg].
    + rewrite (proj2 (Z.eqb_neq n 0)) by lia. eexists _, _, _. split; [reflexivity|].
      pose proof (Z.mod_pos_bound (ticks - modulo) n ltac:(lia)). pose proof (Z.div_pos (ticks - modulo) n ltac:(lia) ltac:(lia)).
      pose proof (Z.div_le_upper_bound (ticks - modulo) n (ticks - modulo) ltac:(lia) ltac:(nia)). lia.
    + eexists _, _, _. split; [reflexivity|]. lia.
Qed.

Lemma s32_pos x : - 2 ^ 31 <= x < 2 ^ 32 -> 0 < s32 x -> 0 < x < 2 ^ 31.
Proof.
  intros Hx Hp. destruct (Z_lt_le_dec x (2 ^ 31)) as [Hl | Hg]; [rewrite s32_small in Hp by lia; lia|]. exfalso. unfold s32 in Hp.
  rewrite sgn_cases in Hp by lia. change (32 - 1) with 31 in Hp. destruct (Z.testbit x 31) eqn:Eb; [lia|].
  apply (f_equal Z.b2z) in Eb. rewrite Z.testbit_spec' in Eb by lia. cbn [Z.b2z] in Eb.
  assert (Hd : x / 2 ^ 31 = 1) by (symmetry; apply (Z.div_unique _ _ 1 (x - 2 ^ 31)); lia). rewrite Hd in Eb. discriminate.
Qed.

Lemma wpc_updateCount k i u ticks now : counted k u -> k < 2 ^ 29 -> 0 <= ticks < 2 ^ 32 ->
  wp (updateCount ticks now) (fun w u' => 0 <= w < 2 ^ 32 - 1 /\ counted (k + 1) u' /\ program u' = program u /\ latches u' = latches u
    /\ initialCount u' = initialCount u /\ tc u' = tc u) i u.
Proof.
  intros HC Hk Ht. unfold updateCount, setLastWrap. wps; cbv zeta in *; set (t1 := if _ && _ then 2 else ticks) in *.
  all: assert (Hr1 : 0 <= t1 < 2 ^ 32) by (unfold t1; destruct (_ && _); lia).
  - eapply wpc_mono; [apply (wpc_guess k); [exact HC | lia]|]. intros t u1 (Hr & C1 & P1 & L1 & I1 & T1 & _). wps.
    destruct (wraps_spec (m u1) t (initialCount u) (ct_initial _ _ HC) ltac:(lia)) as (w & t' & n & -> & Ht' & Hn & _ & _ & _). wps.
    + rewrite H1 in H2. discriminate.
    + rewrite H1. split; [lia|]. split; [|auto]. destruct C1. split; cbn; try lia. apply u16_range.
  - assert (Hr2 : 0 < t1 - lastTicks u < 2 ^ 31) by (destruct HC; apply s32_pos; lia).
    eapply wpc_mono; [apply (wpc_throwaway k); [exact HC | lia]|]. intros [] u1 (C1 & P1 & L1 & I1 & T1 & _). wps. cbn [m SET_lastTicks].
    destruct (wraps_spec (m u1) t1 (initialCount u) (ct_initial _ _ HC) ltac:(lia)) as (w & t' & n & -> & Ht' & Hn & Hw & Hz & Hz'). destruct HC.
    assert (Hc : 0 <= u32 (n - u16 (n - t')) <= 0x10000).
    { destruct (Z.eq_dec (n - t') 0x10000) as [Ee | Ee]; [rewrite Ee; change (u16 0x10000) with 0; rewrite u32_small; lia|].
      rewrite u16_small, u32_small by lia. lia. }
    rewrite H1. wps; (split; [lia|]; split; [|auto]); destruct C1; split; cbn; try lia; apply u16_range.
Qed.

Lemma wpc_generate (Q : unit -> COUNTER_UNIT -> Prop) n i u : Q tt u -> wp (timer_generate_int n) Q i u.
Proof. intros HQ. unfold timer_generate_int. wps; exact HQ. Qed.

Lemma wpc_issue (Q : unit -> COUNTER_UNIT -> Prop) n i u : 1 <= n < 2 ^ 32 - 1 -> Q tt u -> wp (issueIREQ0 n) Q i u.
Proof.
  intros Hn HQ. unfold issueIREQ0. wps; try exact HQ.
  - apply wpc_cdiv; [rewrite u32_small; lia|]. wps; exact HQ.
  - apply wpc_generate, HQ.
  - apply wpc_generate. apply wpc_bind, wpc_cdiv; [lia|]. wps. exact HQ.
Qed.

(** Bringing a counter up to date keeps its program and its latches. *)
Lemma wpc_updateCounter k i u : counted k u -> k < 2 ^ 29 -> getTime u <> None ->
  wp updateCounter (fun _ u' => counted (k + 1) u' /\ program u' = program u /\ latches u' = latches u) i u.
Proof.
  intros HC Hk Hg. assert (HC1 := counted_mono k (k + 1) u ltac:(lia) HC).
  assert (HX : forall Q, (forall t now, 0 <= t < 2 ^ 32 -> Q (t, now) u) -> wp clocksSinceCounterActivated Q i u).
  { intros Q HQ. unfold clocksSinceCounterActivated. wps. apply wpc_get_time; [exact Hg|]. intros t. wps. apply HQ, clocks_between_range. }
  unfold updateCounter. wps; auto.
  all: apply HX; intros t now Ht; wps; eapply wpc_mono; [apply (wpc_updateCount k); assumption|]; intros w u1 (Hw & C1 & P1 & L1 & I1 & T1); wps.
  all: try apply wpc_issue; try (destruct (m u =? _); lia); (split; [ranges | auto]).
Qed.

(** ** Loading a count *)

Lemma digit_bounds x : 0 <= x .& 0xf <= 15.
Proof. change 0xf with (2 ^ 4 - 1). rewrite land_mask by lia. pose proof (Z.mod_pos_bound x (2 ^ 4) ltac:(lia)). lia. Qed.

Lemma bcd_to_bin_value v : 0 <= v ->
  bcd_to_bin v = v .& 0xf + ((v .>> 4) .& 0xf) * 10 + ((v .>> 4 .>> 4) .& 0xf) * 100 + ((v .>> 4 .>> 4 .>> 4) .& 0xf) * 1000.
Proof.
  intros Hv. unfold bcd_to_bin. cbn [from_bcd]. change (u16 (1 * 10)) with 10. change (u16 (10 * 10)) with 100. change (u16 (100 * 10)) with 1000.
  pose proof (digit_bounds v). pose proof (digit_bounds (v .>> 4)). pose proof (digit_bounds (v .>> 4 .>> 4)). pose proof (digit_bounds (v .>> 4 .>> 4 .>> 4)).
  set (d0 := v .& 15) in *. set (d1 := v .>> 4 .& 15) in *. set (d2 := v .>> 4 .>> 4 .& 15) in *. set (d3 := v .>> 4 .>> 4 .>> 4 .& 15) in *.
  rewrite (u16_small (0 + d0 * 1)), (u16_small (_ + d1 * 10)), (u16_small (_ + d2 * 100)), (u16_small (_ + d3 * 1000)) by lia. lia.
Qed.

Lemma bcd_to_bin_range v : 0 < v < 0x10000 -> 1 <= bcd_to_bin v <= 0x10000.
Proof.
  intros Hv. rewrite bcd_to_bin_value by lia. rewrite !Z.shiftr_shiftr by lia. rewrite !Z.shiftr_div_pow2 by lia.
  change 0xf with (2 ^ 4 - 1). rewrite !land_mask by lia. change (2 ^ 4) with 16. change (2 ^ (4 + 4)) with 256. change (2 ^ (4 + 4 + 4)) with 4096.
  Z.to_euclidean_division_equations. lia.
Qed.

(** The modulus a count stands for. *)
Definition modulus (b lsb msb : Z) : Z :=
  let v := (msb .<< 8) .| lsb in
  if b =? BCD then (if negb (v =? 0) then bcd_to_bin v else 10000) else if v =? 0 then 0x10000 else v.

Lemma word_value lsb msb : 0 <= lsb < 256 -> 0 <= msb < 256 -> (msb .<< 8) .| lsb = lsb + 256 * msb.
Proof. intros. rewrite u32_small by (rewrite Z.shiftl_mul_pow2 by lia; lia). rewrite join_lor by lia. lia. Qed.

Lemma modulus_range b lsb msb : 0 <= lsb < 256 -> 0 <= msb < 256 -> 1 <= modulus b lsb msb <= 0x10000.
Proof.
  intros Hl Hm. unfold modulus. rewrite word_value by assumption. set (v := lsb + 256 * msb). assert (0 <= v < 0x10000) by lia.
  destruct (b =? BCD); destruct (Z.eqb_spec v 0); cbn [negb]; try lia. apply bcd_to_bin_range. lia.
Qed.

(** The bytes of the buffer. *)
Definition bytes (u : COUNTER_UNIT) : Prop := 0 <= outblsb u < 256 /\ 0 <= outbmsb u < 256.

(** A loaded counter. *)
Definition loaded (u : COUNTER_UNIT) : COUNTER_UNIT :=
  let n := modulus (bcd u) (outblsb u) (outbmsb u) in SET_newCount USED (SET_tc 0 (SET_Count (u16 n) (SET_initialCount n u))).

Lemma wpc_load (Q : unit -> COUNTER_UNIT -> Prop) i u : bytes u -> Q tt (loaded u) -> wp loadCounter Q i u.
Proof.
  intros [Hl Hm] HQ. pose proof (modulus_range (bcd u) (outblsb u) (outbmsb u) Hl Hm) as HR. unfold loadCounter. apply wpc_bind, wpc_cur. cbv zeta.
  fold (modulus (bcd u) (outblsb u) (outbmsb u)). wps; [|exact HQ]. unfold backlog. apply wpc_cdiv; [lia|].
  apply wpc_modify; [|exact HQ]. intros s. destruct (_ <? _); split; reflexivity.
Qed.

Lemma loaded_counted k u : bytes u -> counted k u -> counted k (loaded u).
Proof.
  intros [Hl Hm] []. pose proof (modulus_range (bcd u) (outblsb u) (outbmsb u) Hl Hm). split; cbn; try lia. apply u16_range.
Qed.

(** ** How the state functions are wired

    A one-shot that is counting may have no state to go to when its gate opens; its gate
    is then known to have risen. *)

Definition is_counting (st : state_function) : bool :=
  match st with st_Counting0 | st_Counting1 | st_Counting_2_3 | st_Counting_4_5 => true | _ => false end.

Definition armed (u : COUNTER_UNIT) : Prop := stateOnGate u <> None \/ (gate u = GATE_SIGNAL_RISE /\ m u = PROG_ONESHOT).

Record base (g : clock) (k : Z) (u : COUNTER_UNIT) : Prop := {
  b_counted : counted k u;
  b_bytes : bytes u;
  b_mode : 0 <= m u <= 5;
  b_bcd : bcd u = BINARY \/ bcd u = BCD;
  b_rl : 0 <= rl u <= 3;
  b_clock : getTime u = Some g;
  b_gate : gate u = GATE_SIGNAL_LOW \/ gate u = GATE_SIGNAL_RISE \/ (gate u = GATE_SIGNAL_HIGH /\ stateOnGate u <> None);
  b_on_gate st : stateOnGate u = Some st -> is_counting st = true
}.

(** What the functions a counter holds must satisfy while it waits for its gate, and
    while it waits for the rest of a count. *)
Definition awaits (u : COUNTER_UNIT) : Prop :=
  match actionOnGateEnabled u with
  | None => False
  | Some g_startCounting => stateOnGate u <> None
  | Some g_resumeCounting_1_5 => m u = HW_TRIG_STROBE
  | Some _ => True
  end.
Definition pends (u : COUNTER_UNIT) : Prop :=
  match actionOnGateEnabled u with
  | None => False
  | Some g_startCounting => armed u
  | Some g_resumeCounting_1_5 => m u = HW_TRIG_STROBE
  | Some _ => True
  end /\
  match actionOnWtComplete u with
  | None | Some w_timererror => False
  | Some w_resumeCounting_1_5 => m u = HW_TRIG_STROBE \/ armed u
  | Some w_resumeAwaitGate => awaits u
  | Some _ => True
  end.

Definition wiring (u : COUNTER_UNIT) : Prop :=
  match state u with
  | None => False
  | Some st_awaitingGate => awaits u
  | Some st_waitingFor1stWrite => actionOnGateEnabled u = Some g_CounterBufferLoaded /\ actionOnWtComplete u = Some w_CounterBufferLoaded
  | Some st_waitingFor2ndWrite => pends u
  | Some st_Counting1 => armed u
  | Some _ => True
  end.
Definition good (g : clock) (k : Z) (u : COUNTER_UNIT) : Prop := base g k u /\ wiring u.

Lemma base_mono g k k' u : k <= k' -> base g k u -> base g k' u.
Proof. intros Hk []. split; try assumption. eapply counted_mono; eassumption. Qed.
Lemma good_mono g k k' u : k <= k' -> good g k u -> good g k' u.
Proof. intros Hk [HB HW]. split; [eapply base_mono; eassumption | exact HW]. Qed.

(** What depends on the program only. *)
Lemma base_program g k k' u u' : base g k u -> counted k' u' -> program u' = program u -> base g k' u'.
Proof.
  intros [] HC HP. unfold program in HP. injection HP as ? ? ? ? ? ? ? ? ? ? ? ? ? ?. unfold bytes in *.
  split; unfold bytes; try assumption; congruence || (repeat match goal with E : ?f u' = ?f u |- _ => rewrite E end; assumption).
Qed.
Lemma wiring_program u u' : program u' = program u -> wiring u -> wiring u'.
Proof.
  intros HP. unfold program in HP. injection HP as ? ? ? ? ? ? ? ? ? ? ? ? ? ?. unfold wiring, pends, awaits, armed.
  repeat match goal with E : ?f u' = ?f u |- _ => rewrite E; clear E end. auto.
Qed.

Lemma gate_some (x : Z) (o : option state_function) (st : state_function) :
  x = GATE_SIGNAL_LOW \/ x = GATE_SIGNAL_RISE \/ (x = GATE_SIGNAL_HIGH /\ o <> None) ->
  x = GATE_SIGNAL_LOW \/ x = GATE_SIGNAL_RISE \/ (x = GATE_SIGNAL_HIGH /\ Some st <> None).
Proof. intros [Hx | [Hx | [Hx _]]]; auto. Qed.

Ltac base_tac :=
  match goal with HB : base ?g ?k ?u |- base ?g ?k _ =>
    pose proof (loaded_counted k u (b_bytes _ _ _ HB) (b_counted _ _ _ HB)) as [];
    destruct HB as [[] [] ? ? ? ? ? ?]; split; try (split; cbn in *; try assumption; try apply u16_range; lia);
    cbn in *; try assumption; try lia;
    try (eapply gate_some; eassumption);
    try (intros ? [= <-]; reflexivity)
  end.

Ltac wpx1 :=
  first [ wps1
        | lazymatch goal with
          | |- wp (outputWaveForm _ _ _ _ _) _ _ _ => apply wpc_output; intros ?
          | |- wp loadCounter _ _ _ => apply wpc_load; [solve [assumption | unfold bytes in *; cbn in *; assumption] |]
          | |- wp (timer_conv _) _ _ _ => unfold timer_conv
          | |- wp adjust _ _ _ => unfold adjust
          end ].
Ltac wpx := repeat wpx1.

Lemma wpc_runCount g k i u st : base g k u -> stateOnGate u = Some st -> wp runCount (fun _ => good g k) i u.
Proof.
  intros HB Hst. pose proof (b_bytes _ _ _ HB) as Hby. pose proof (b_on_gate _ _ _ HB st Hst) as Hc.
  assert (HW : forall u', state u' = Some st -> stateOnGate u' = Some st -> wiring u').
  { intros u' E1 E2. unfold wiring. rewrite E1. destruct st; try discriminate; try exact I. left. congruence. }
  unfold runCount. wpx.
  all: try (destruct (halves _ _); wpx).
  all: split; [base_tac | apply HW; exact Hst].
Qed.

Lemma wpc_stamp (Q : unit -> COUNTER_UNIT -> Prop) g i u : getTime u = Some g ->
  (forall t, Q tt (SET_activationTime t (SET_lastTicks 0 u))) -> wp timestamp Q i u.
Proof. intros Hg HQ. unfold timestamp. wps. apply wpc_get_time; [cbn; congruence|]. intros t. wps. apply HQ. Qed.

Ltac wpa := repeat first [ wpx1
  | lazymatch goal with |- wp timestamp _ _ _ => eapply wpc_stamp; [cbn; eassumption | intros ?] end ].

(** *** The actions *)

Lemma wpc_CounterBufferLoaded g k i u : base g k u -> wp CounterBufferLoaded (fun _ => good g k) i u.
Proof.
  intros HB. pose proof (b_bytes _ _ _ HB) as Hby. pose proof (b_clock _ _ _ HB) as Hg. pose proof (b_gate _ _ _ HB) as Hga.
  unfold CounterBufferLoaded. wpa.
  all: try (destruct (halves _ _); wpa).
  all: split; [try base_tac | try exact I]; cbn in *.
  all: try (repeat destruct (_ =? _); intros st [= <-]; reflexivity).
  all: try (unfold GATE_SIGNAL_LOW, GATE_SIGNAL_HIGH, GATE_SIGNAL_RISE in *; lia).
  all: try discriminate.
  all: destruct Hga as [Hga | [Hga | [_ Hga]]]; [rewrite Hga in *; discriminate | right; cbn; split; [exact Hga | lia] | left; exact Hga].
Qed.

Lemma armed_loaded u : armed u -> armed (loaded u).
Proof. exact (fun H => H). Qed.

Lemma wpc_resumeCounting0onGate g k i u : base g k u -> wp resumeCounting0onGate (fun _ => good g k) i u.
Proof.
  intros HB. pose proof (b_bytes _ _ _ HB) as Hby. pose proof (b_clock _ _ _ HB) as Hg. unfold resumeCounting0onGate, unfreeze. wpa.
  all: cbn [newCount SET_activationTime SET_lastTicks SET_freezeCounter]; destruct (newCount u); wpa.
  all: try (eapply wpc_runCount; [|reflexivity]).
  all: try (split; [|exact I]).
  all: base_tac.
Qed.

Lemma wpc_resumeCounting0 g k i u : base g k u -> wp resumeCounting0 (fun _ => good g k) i u.
Proof.
  intros HB. pose proof (b_bytes _ _ _ HB) as Hby. pose proof (b_clock _ _ _ HB) as Hg. unfold resumeCounting0, unfreeze. wpa.
  all: cbn [newCount SET_activationTime SET_lastTicks SET_freezeCounter]; destruct (newCount u); wpa.
  all: try (eapply wpc_runCount; [|reflexivity]).
  all: try (split; [|exact I]).
  all: base_tac.
Qed.

Lemma counting_2_3_4_counts mode : is_counting (counting_2_3_4 mode) = true.
Proof. unfold counting_2_3_4. destruct (_ || _); reflexivity. Qed.

Lemma wpc_resumeCounting_2_3_4_onGate g k i u : base g k u -> wp resumeCounting_2_3_4_onGate (fun _ => good g k) i u.
Proof.
  intros HB. pose proof (b_bytes _ _ _ HB) as Hby. pose proof (b_clock _ _ _ HB) as Hg. unfold resumeCounting_2_3_4_onGate. wpa.
  destruct (newCount u); wpa; (eapply wpc_runCount; [|reflexivity]); base_tac; intros ? [= <-]; apply counting_2_3_4_counts.
Qed.

Lemma wpc_resumeCounting_2_3_4 g k i u : base g k u -> wp resumeCounting_2_3_4 (fun _ => good g k) i u.
Proof.
  intros HB. pose proof (b_bytes _ _ _ HB) as Hby. unfold resumeCounting_2_3_4. wpa.
  destruct (newCount u); wpa; (eapply wpc_runCount; [|reflexivity]); base_tac; intros ? [= <-]; apply counting_2_3_4_counts.
Qed.

Lemma wpc_startCounting g k i u : base g k u -> stateOnGate u <> None -> wp startCounting (fun _ => good g k) i u.
Proof.
  intros HB Hs. pose proof (b_clock _ _ _ HB) as Hg. unfold startCounting. wpa.
  destruct (stateOnGate u) as [st|] eqn:Est; [|contradiction]. apply wpc_runCount with st; [base_tac; congruence | exact Est].
Qed.

(** A one-shot, or a strobe its gate triggers. *)
Lemma wpc_resumeCounting_1_5 g k i u : base g k u -> m u = HW_TRIG_STROBE \/ armed u ->
  match actionOnGateEnabled u with None => False | Some g_startCounting => armed u | Some g_resumeCounting_1_5 => m u = HW_TRIG_STROBE | _ => True end ->
  wp resumeCounting_1_5 (fun _ => good g k) i u.
Proof.
  intros HB Ha HG. unfold resumeCounting_1_5. wps. cbv zeta.
  assert (HC : good g k (SET_state (Some (if m u =? HW_TRIG_STROBE then st_Counting_4_5 else st_Counting1)) u)).
  { split; [base_tac|]. unfold wiring. cbn [state SET_state]. destruct (Z.eqb_spec (m u) HW_TRIG_STROBE); [exact I|].
    destruct Ha as [Ha | Ha]; [contradiction | exact Ha]. }
  destruct (Z.eqb_spec (gate u) GATE_SIGNAL_RISE) as [Eg | Eg]; [exact HC|]. destruct (negb _); [|exact HC].
  split; [base_tac|]. unfold wiring, awaits. cbn [state SET_state actionOnGateEnabled stateOnGate m].
  destruct (actionOnGateEnabled u) as [[]|]; auto. destruct HG as [HG | [HG _]]; [exact HG | contradiction].
Qed.

(** *** The gate and complete counts *)

Lemma wpc_run_gate_action g k i u : base g k u -> awaits u -> wp run_gate_action (fun _ => good g k) i u.
Proof.
  intros HB HA. unfold run_gate_action. wps. unfold awaits in HA. destruct (actionOnGateEnabled u) as [[]|] eqn:Ea; [| | | | |contradiction].
  - apply wpc_CounterBufferLoaded, HB.
  - apply wpc_resumeCounting0onGate, HB.
  - apply wpc_resumeCounting_1_5; [exact HB | left; exact HA | rewrite Ea; exact HA].
  - apply wpc_resumeCounting_2_3_4_onGate, HB.
  - apply wpc_startCounting; assumption.
Qed.

Lemma wpc_gate_arrives g k i u v : base g k (SET_gate v u) -> state u = Some st_awaitingGate -> awaits u -> wp (gate_arrives v) (fun _ => good g k) i u.
Proof.
  intros HB Hs HA. unfold gate_arrives. wps.
  - split; [exact HB|]. unfold wiring. cbn [state SET_gate]. rewrite Hs. exact HA.
  - apply wpc_run_gate_action; assumption.
  - apply wpc_run_gate_action; assumption.
Qed.

(** A signal from outside: the gate falls or rises. *)
Lemma base_gate g k u v : base g k u -> v = GATE_SIGNAL_LOW \/ v = GATE_SIGNAL_RISE -> base g k (SET_gate v u).
Proof. intros HB Hv. base_tac; tauto. Qed.

Lemma wpc_WtComplete g k i u : base g k u -> pends u -> wp WtComplete (fun _ => good g k) i u.
Proof.
  intros HB [HG HW]. unfold WtComplete. wps.
  - assert (Eg : gate u = GATE_SIGNAL_LOW) by lia. apply wpc_gate_arrives; [base_tac | reflexivity|].
    unfold awaits. cbn [actionOnGateEnabled SET_state stateOnGate m]. destruct (actionOnGateEnabled u) as [[]|]; auto.
    destruct HG as [HG | [HG _]]; [exact HG | rewrite Eg in HG; discriminate].
  - unfold run_wait_action. wps. destruct (actionOnWtComplete u) as [[]|]; try contradiction.
    + apply wpc_CounterBufferLoaded, HB.
    + unfold resumeAwaitGate. wps. apply wpc_gate_arrives; [base_tac | reflexivity | exact HW].
    + apply wpc_resumeCounting0, HB.
    + apply wpc_resumeCounting_1_5; assumption.
    + apply wpc_resumeCounting_2_3_4, HB.
Qed.

Lemma wpc_waitingFor1stWrite g k i u v : base g k u -> pends u -> wiring u -> 0 <= v < 256 ->
  wp (waitingFor1stWrite WRITE_SIGNAL v) (fun _ => good g k) i u.
Proof.
  intros HB HP HW Hv. unfold waitingFor1stWrite. wps.
  - apply wpc_WtComplete; [base_tac | exact HP].
  - split; [base_tac | exact HP].
  - apply wpc_WtComplete; [base_tac | exact HP].
  - split; assumption.
Qed.

(** *** Signals *)

Lemma updated g k i u : base g k u -> k < 2 ^ 29 ->
  wp updateCounter (fun _ u' => base g (k + 1) u' /\ program u' = program u) i u.
Proof.
  intros HB Hk. eapply wpc_mono; [apply (wpc_updateCounter k); [apply HB | exact Hk | rewrite (b_clock _ _ _ HB); discriminate]|].
  intros ? u' (HC & HP & _). split; [eapply base_program; eassumption | exact HP].
Qed.

(** Writing to a counter that counts. *)
Lemma wpc_write_counting g k i u v : base g k u -> pends u -> is_counting (default st_uninit (state u)) = true -> (state u = Some st_Counting1 -> armed u) -> 0 <= v < 256 ->
  wp (upd (fun u => SET_statePriorWt (state u) u) ;; waitingFor1stWrite WRITE_SIGNAL v) (fun _ => good g k) i u.
Proof.
  intros HB HP HS HA Hv. apply wpc_bind, wpc_upd. apply wpc_waitingFor1stWrite; [base_tac | exact HP | | exact Hv].
  unfold wiring. cbn [state SET_statePriorWt]. destruct (state u) as [[]|]; try discriminate; try exact I. apply HA. reflexivity.
Qed.

(** Stopping one. *)
Lemma wpc_hold (Q : unit -> COUNTER_UNIT -> Prop) i u : (forall w, Q tt (SET_delay 0 (SET_out w u))) -> wp hold_output Q i u.
Proof. intros HQ. unfold hold_output, outputHigh, outputLow. wps; apply wpc_output, HQ. Qed.

Lemma program_stop u u' : program u' = program u ->
  state u' = state u /\ actionOnGateEnabled u' = actionOnGateEnabled u /\ actionOnWtComplete u' = actionOnWtComplete u /\ stateOnGate u' = stateOnGate u /\ m u' = m u /\ gate u' = gate u.
Proof. unfold program. intros HP. injection HP. auto 10. Qed.

Lemma pends_program u u' : program u' = program u -> pends u -> pends u'.
Proof.
  intros (_ & E1 & E2 & E3 & E4 & E5)%program_stop. unfold pends, awaits, armed. rewrite E1, E2, E3, E4, E5. auto.
Qed.

Lemma wpc_stop_or_write g k i u sg v : base g k u -> k < 2 ^ 29 -> pends u -> awaits u -> is_counting (default st_uninit (state u)) = true -> state u <> Some st_Counting1 ->
  match sg with WRITE_SIGNAL => 0 <= v < 256 | GATE_SIGNAL => v = GATE_SIGNAL_LOW \/ v = GATE_SIGNAL_RISE end ->
  wp (stop_or_write sg v) (fun _ => good g (k + 1)) i u.
Proof.
  intros HB Hk HP HA HS H1 Hv. unfold stop_or_write. destruct sg.
  - eapply wpc_mono; [apply wpc_write_counting; [eassumption..|tauto | exact Hv]|]. intros ? u'. apply good_mono. lia.
  - wps; [destruct Hv as [-> | ->]; discriminate|]. eapply wpc_mono; [apply updated; eassumption|]. intros ? u1 [HB1 HP1]. unfold outputHigh. wpx.
    pose proof (base_gate _ _ _ v HB1 Hv) as HB2. destruct (program_stop _ _ HP1) as (_ & E1 & _ & E3 & E4 & _).
    split; [base_tac|]. unfold wiring, awaits. cbn. rewrite E1, E3, E4. exact HA.
Qed.

Definition calm (u : COUNTER_UNIT) (v : Z) : Prop := v = GATE_SIGNAL_LOW -> state u = Some st_waitingFor2ndWrite -> m u <> PROG_ONESHOT.

(** A signal leaves a well wired counter well wired. *)
Lemma wpc_run_state g k i u sg v : good g k u -> 0 <= k < 2 ^ 29 ->
  match sg with WRITE_SIGNAL => 0 <= v < 256 | GATE_SIGNAL => (v = GATE_SIGNAL_LOW \/ v = GATE_SIGNAL_RISE) /\ calm u v end ->
  wp (run_state sg v) (fun _ => good g (k + 1)) i u.
Proof.
  intros [HB HW] Hk Hv. unfold run_state. wps. pose proof HW as HW'. unfold wiring in HW'. destruct (state u) as [st|] eqn:Est; [|contradiction].
  destruct st.
  - unfold uninit. destruct sg; wps.
    + apply good_mono with k; [lia|]. split; assumption.
    + apply good_mono with k; [lia|]. split; [apply base_gate; tauto|]. unfold wiring. cbn. rewrite Est. exact I.
  - unfold awaitingGate. destruct sg; (eapply wpc_mono; [|intros ? u'; apply (good_mono g k); lia]).
    + wps. apply wpc_waitingFor1stWrite; [base_tac | | | exact Hv].
      * split; [|exact HW']. cbn. unfold awaits in HW'. destruct (actionOnGateEnabled u) as [[]|]; auto. left. exact HW'.
      * unfold wiring. cbn. rewrite Est. exact HW'.
    + apply wpc_gate_arrives; [apply base_gate; tauto | assumption | assumption].
  - unfold waitingFor1stWrite at 1. destruct HW' as [Ea Ew]. destruct sg; (eapply wpc_mono; [|intros ? u'; apply (good_mono g k); lia]).
    + fold (waitingFor1stWrite WRITE_SIGNAL v). apply wpc_waitingFor1stWrite; [assumption | | assumption | exact Hv]. unfold pends. rewrite Ea, Ew. auto.
    + wps. split; [apply base_gate; tauto|]. unfold wiring. cbn. rewrite Est. auto.
  - unfold waitingFor2ndWrite. destruct sg; (eapply wpc_mono; [|intros ? u'; apply (good_mono g k); lia]).
    + wps. apply wpc_WtComplete; [base_tac | exact HW'].
    + wps. split; [apply base_gate; tauto|]. unfold wiring. cbn [state SET_gate]. rewrite Est. destruct Hv as [Hv Hc].
      assert (HR : armed u -> armed (SET_gate v u)).
      { intros [Ha | [Eg Em]]; [left; exact Ha|]. destruct Hv as [-> | ->]; [destruct (Hc eq_refl Est Em) | right; split; [reflexivity | exact Em]]. }
      destruct HW' as [H1 H2]. split; cbn.
      * destruct (actionOnGateEnabled u) as [[]|]; auto.
      * destruct (actionOnWtComplete u) as [[]|]; auto. destruct H2; auto.
  - unfold Counting0. wps. destruct sg.
    + wps. eapply wpc_mono; [apply (updated g k); [base_tac | lia]|]. intros ? u1 [HB1 HP1]. wps. apply wpc_hold. intros w.
      assert (HB2 : base g (k + 1) (SET_delay 0 (SET_out w u1))) by base_tac.
      destruct (program_stop _ _ HP1) as (E0 & E1 & E2 & _). cbn in E0, E1, E2.
      apply wpc_write_counting; [exact HB2 | | | | exact Hv]; unfold pends; cbn; rewrite ?E0, ?E1, ?E2, ?Est; auto. discriminate.
    + wps; [destruct Hv as [[-> | ->] _]; discriminate|]. eapply wpc_mono; [apply (updated g k); [base_tac | lia]|]. intros ? u1 [HB1 HP1]. wps. apply wpc_hold. intros w. wps.
      pose proof (base_gate _ _ _ v HB1 (proj1 Hv)) as HB2. destruct (program_stop _ _ HP1) as (_ & E1 & _). cbn in E1.
      split; [base_tac|]. unfold wiring, awaits. cbn. rewrite E1. exact I.
  - unfold Counting1. wps. destruct sg; (eapply wpc_mono; [|intros ? u'; apply (good_mono g k); lia]).
    + apply wpc_write_counting; [base_tac | | | | exact Hv]; unfold pends; cbn; rewrite ?Est; auto.
    + wps; [split; [base_tac | unfold wiring; cbn; rewrite Est; exact HW']|].
      pose proof (b_clock _ _ _ HB) as Hg. eapply wpc_stamp; [exact Hg|]. intros t. apply wpc_runCount with st_Counting1; [|reflexivity].
      base_tac. right. right. split; [reflexivity | discriminate].
  - unfold Counting_2_3. wps. apply wpc_stop_or_write; [base_tac | lia | | | | | destruct sg; tauto]; unfold pends, awaits; cbn; rewrite ?Est; auto.
  - unfold Counting_4_5. wps. destruct (Z.eqb_spec (m u) HW_TRIG_STROBE) as [E5 | E5].
    all: apply wpc_stop_or_write; [base_tac | lia | | | | | destruct sg; tauto]; unfold pends, awaits; cbn; rewrite ?Est; auto.
Qed.

(** ** Reading and programming *)

(** What a program reads from a counter, and its latches holding that. *)
Definition count_read (u : COUNTER_UNIT) : Z := if bcd u =? BCD then bin_to_bcd (Count u) else Count u.
Definition holds_count (u : COUNTER_UNIT) : Prop := latchvaluelsb u = count_read u .& 0xff /\ latchvaluemsb u = u8 (count_read u .>> 8).

Lemma wpc_readCounter g k i u : good g k u -> k < 2 ^ 29 ->
  wp readCounter (fun _ u' => good g (k + 1) u' /\ program u' = program u /\ holds_count u'
    /\ readState u' = readState u /\ countlatched u' = countlatched u /\ latchstatus u' = latchstatus u) i u.
Proof.
  intros [HB HW] Hk. unfold readCounter. wps.
  eapply wpc_mono; [apply (wpc_updateCounter k); [apply HB | exact Hk | rewrite (b_clock _ _ _ HB); discriminate]|].
  intros ? u1 (HC & HP & HL). wps. pose proof (base_program _ _ _ _ _ HB HC HP) as HB1. unfold latches in HL. injection HL as ? ? ? ? ?.
  split; [split; [base_tac | exact (wiring_program u u1 HP HW)]|]. split; [exact HP|]. split; [split; reflexivity | auto].
Qed.

(** The commands of the control word but the read back. *)
Definition word_mode (cwd : Z) : Z := let mode := (cwd .& 0xe) .>> 1 in if 5 <? mode then mode - 4 else mode.
Definition new_mode (cwd : Z) : X unit :=
  upd (fun u => SET_m (word_mode cwd) (SET_saveCount 0 (SET_microtick 0 (SET_tickadjust 0 (SET_tc 0 (SET_countlatched 0 u)))))) ;;
  setTriggerCond ;; setOutputAfterMode ;;
  upd (fun u => SET_state (Some st_waitingFor1stWrite) (SET_statePriorWt (state u)
    (SET_actionOnGateEnabled (Some g_CounterBufferLoaded) (SET_actionOnWtComplete (Some w_CounterBufferLoaded)
    (SET_rl ((cwd .& 0x30) .>> 4) (SET_bcd (cwd .& 1) u)))))).

Lemma word_field_range x lo n : 0 <= lo -> 0 <= n -> 0 <= (x .& ((2 ^ n - 1) * 2 ^ lo)) .>> lo < 2 ^ n.
Proof.
  intros Hl Hn. rewrite <- Z.shiftl_mul_pow2, Z.shiftr_land, Z.shiftr_shiftl_l, Z.sub_diag, Z.shiftl_0_r by lia.
  rewrite land_mask by lia. apply Z.mod_pos_bound. lia.
Qed.

Lemma word_mode_range cwd : 0 <= word_mode cwd <= 5.
Proof.
  unfold word_mode. pose proof (word_field_range cwd 1 3 ltac:(lia) ltac:(lia)) as HR. change ((2 ^ 3 - 1) * 2 ^ 1) with 0xe in HR. change (2 ^ 3) with 8 in HR.
  destruct (Z.ltb_spec 5 ((cwd .& 0xe) .>> 1)); lia.
Qed.

Lemma wpc_trigger (Q : unit -> COUNTER_UNIT -> Prop) i u : (forall t, Q tt (SET_trigger t u)) -> wp setTriggerCond Q i u.
Proof.
  intros HQ. unfold setTriggerCond. wps. repeat match goal with |- context [if ?b then _ else _] => destruct b end; auto.
  replace u with (SET_trigger (trigger u) u) by (destruct u; reflexivity). apply HQ.
Qed.

Lemma wpc_after_mode (Q : unit -> COUNTER_UNIT -> Prop) i u : Q tt u -> (forall w, Q tt (SET_delay 0 (SET_out w u))) -> wp setOutputAfterMode Q i u.
Proof. intros H1 H2. unfold setOutputAfterMode, outputLow, outputHigh. wpx; auto. Qed.

Lemma wpc_new_mode g k i u cwd : base g k u -> wp (new_mode cwd) (fun _ => good g k) i u.
Proof.
  intros HB. pose proof (word_mode_range cwd) as Hm. pose proof (word_field_range cwd 4 2 ltac:(lia) ltac:(lia)) as Hr.
  pose proof (word_field_range cwd 0 1 ltac:(lia) ltac:(lia)) as Hb. rewrite Z.shiftr_0_r in Hb.
  change ((2 ^ 2 - 1) * 2 ^ 4) with 0x30 in Hr. change ((2 ^ 1 - 1) * 2 ^ 0) with 1 in Hb. change (2 ^ 2) with 4 in Hr. change (2 ^ 1) with 2 in Hb.
  unfold new_mode. apply wpc_bind, wpc_upd, wpc_bind, wpc_trigger. intros t. apply wpc_bind, wpc_after_mode; [|intros w].
  all: wps; split; [base_tac; unfold BINARY, BCD; lia | split; reflexivity].
Qed.

(** ** The three counters *)

Definition clock_of (i : Z) : clock := if i =? 0 then IdealTime else HostSysTime.

Record inv (k : Z) (s : pit W) : Prop := {
  inv_length : length (timers s) = 3%nat;
  inv_good i u : timers s !! i = Some u -> good (clock_of (Z.of_nat i)) k u
}.

Lemma inv_mono k k' s : k <= k' -> inv k s -> inv k' s.
Proof. intros Hk [HL HG]. split; [exact HL|]. intros i u Hu. eapply good_mono; [exact Hk | apply HG, Hu]. Qed.
Lemma inv_same k s s' : timers s' = timers s -> inv k s -> inv k s'.
Proof. intros Ht [HL HG]. split; rewrite Ht; assumption. Qed.

Lemma inv_at k s i : inv k s -> 0 <= i < 3 -> exists u, timers s !! Z.to_nat i = Some u /\ good (clock_of i) k u.
Proof.
  intros [HL HG] Hi. destruct (lookup_lt_is_Some_2 (timers s) (Z.to_nat i)) as [u Hu]; [lia|]. exists u. split; [exact Hu|].
  replace i with (Z.of_nat (Z.to_nat i)) at 1 by lia. apply HG, Hu.
Qed.

(** What reading a counter depends on. *)
Definition view (u : COUNTER_UNIT) := (bcd u, rl u, readState u, (countlatched u, latchvaluelsb u, latchvaluemsb u, latchstatus u)).
Definition view_at (c : Z) (s : pit W) := view <$> timers s !! Z.to_nat c.

Lemma view_kept u u' : program u' = program u -> latches u' = latches u -> view u' = view u.
Proof. unfold program, latches, view. intros HP HL. injection HP. injection HL. intros. congruence. Qed.

(** [x] returns, takes states that satisfy [inv] to such states, and changes what can be
    read from the counters in [T] only. *)
Definition safe {A} (T : Z -> Prop) (k k' : Z) (x : X A) : Prop := forall s, inv k s ->
  exists a s', x s = Ret a s' /\ inv k' s' /\ forall c, 0 <= c < 3 -> ~ T c -> view_at c s' = view_at c s.

Lemma safe_ret {A} T k (a : A) : safe T k k (ret a).
Proof. intros s Hs. exists a, s. auto. Qed.
Lemma safe_bind {A B} T k1 k2 k3 (x : X A) (f : A -> X B) : safe T k1 k2 x -> (forall a, safe T k2 k3 (f a)) -> safe T k1 k3 (bind x f).
Proof.
  intros HX HF s Hs. destruct (HX s Hs) as (a & s1 & E1 & H1 & V1). destruct (HF a s1 H1) as (b & s2 & E2 & H2 & V2). exists b, s2.
  rewrite (bind_ret _ _ _ _ _ E1). split; [exact E2|]. split; [exact H2|]. intros c Hc HT. rewrite V2, V1 by assumption. reflexivity.
Qed.
Lemma safe_modify T k f : (forall s, timers (f s) = timers s) -> safe T k k (modify f).
Proof. intros Hf s Hs. exists tt, (f s). split; [reflexivity|]. split; [apply (inv_same k s); auto|]. intros. unfold view_at. rewrite Hf. reflexivity. Qed.
Lemma safe_gets {A} T k (f : pit W -> A) : safe T k k (gets f).
Proof. intros s Hs. exists (f s), s. auto. Qed.
Lemma safe_when T k k' (b : bool) x : k <= k' -> safe T k k' x -> safe T k k' (when b x).
Proof. intros Hk HX. destruct b; [exact HX|]. intros s Hs. exists tt, s. split; [reflexivity|]. split; [eapply inv_mono; eassumption | auto]. Qed.
Lemma safe_mono {A} T k1 k2 k3 (x : X A) : k2 <= k3 -> safe T k1 k2 x -> safe T k1 k3 x.
Proof. intros Hk HX s Hs. destruct (HX s Hs) as (a & s1 & E1 & H1 & V1). exists a, s1. split; [exact E1|]. split; [eapply inv_mono; eassumption | exact V1]. Qed.
Lemma safe_quiet T k (x : X unit) : (forall s, exists w, x s = Ret tt (SET_world w s)) -> safe T k k x.
Proof. intros Hx s Hs. destruct (Hx s) as (w & E1). exists tt, (SET_world w s). split; [exact E1|]. split; [exact (inv_same k s (SET_world w s) eq_refl Hs) | auto]. Qed.

(** What is done to one counter. *)
Lemma inv_local {A} T k k' i (x : X A) (Q : A -> COUNTER_UNIT -> Prop) s : inv k s -> 0 <= i < 3 -> k <= k' ->
  (forall u, timers s !! Z.to_nat i = Some u -> good (clock_of i) k u ->
     wp x (fun a u' => good (clock_of i) k' u' /\ Q a u' /\ (T i \/ view u' = view u)) i u) ->
  exists a s' u', bind (select i) (fun _ => x) s = Ret a s' /\ inv k' s' /\ pcu s' = i /\ timers s' = <[Z.to_nat i := u']> (timers s) /\ Q a u'
  /\ forall c, 0 <= c < 3 -> ~ T c -> view_at c s' = view_at c s.
Proof.
  intros Hs Hi Hk HX. destruct (inv_at k s i Hs Hi) as (u & Hu & Hg).
  destruct (HX u Hu Hg (SET_pcu i s) eq_refl Hu) as (a & s' & u' & E1 & Ht & Hp & HG & HQ & HV). cbn in Ht. exists a, s', u'. split; [exact E1|].
  split; [|split; [exact Hp|]; split; [exact Ht|]; split; [exact HQ|]].
  - destruct Hs as [HL HGs]. split; rewrite Ht; [rewrite length_insert; exact HL|].
    intros j v Hj. apply list_lookup_insert_Some in Hj as [(<- & <- & _) | (_ & Hj)]; [rewrite Z2Nat.id by lia; exact HG|].
    eapply good_mono; [exact Hk | apply HGs, Hj].
  - intros c Hc HT. unfold view_at. rewrite Ht. destruct (Z.eq_dec c i) as [-> | Hne]; [|rewrite list_lookup_insert_ne by lia; reflexivity].
    rewrite list_lookup_insert_eq, Hu by (eapply lookup_lt_Some; exact Hu). cbn. destruct HV as [HV | ->]; [contradiction | reflexivity].
Qed.

Lemma safe_local {A} (T : Z -> Prop) k k' i (x : X A) : 0 <= i < 3 -> k <= k' ->
  (forall u, good (clock_of i) k u -> wp x (fun _ u' => good (clock_of i) k' u' /\ (T i \/ view u' = view u)) i u) ->
  safe T k k' (bind (select i) (fun _ => x)).
Proof.
  intros Hi Hk HX s Hs. destruct (inv_local T k k' i x (fun _ _ => True) s Hs Hi Hk) as (a & s' & u' & E1 & H1 & _ & _ & _ & V1); [|eauto].
  intros u _ Hu. eapply wpc_mono; [apply HX, Hu | tauto].
Qed.
Lemma safe_touch {A} (T : Z -> Prop) k k' i (x : X A) : 0 <= i < 3 -> k <= k' -> T i -> (forall u, good (clock_of i) k u -> wp x (fun _ => good (clock_of i) k') i u) ->
  safe T k k' (bind (select i) (fun _ => x)).
Proof. intros Hi Hk HT HX. apply safe_local; [assumption..|]. intros u Hu. eapply wpc_mono; [apply HX, Hu | auto]. Qed.

(** ** Accesses, ticks and events *)

Lemma safe_then {A B} T k1 k2 k3 i (x : X A) (f : A -> X B) :
  safe T k1 k2 (bind (select i) (fun _ => x)) -> (forall a, safe T k2 k3 (f a)) -> safe T k1 k3 (bind (select i) (fun _ => bind x f)).
Proof.
  intros HX HF s Hs. destruct (safe_bind _ _ _ _ _ _ HX HF s Hs) as (a & s' & E1 & H1). exists a, s'. split; [|exact H1]. rewrite <- E1, bind_assoc. reflexivity.
Qed.

Lemma safe_update T k i : 0 <= i < 3 -> k < 2 ^ 29 -> safe T k (k + 1) (bind (select i) (fun _ => updateCounter)).
Proof.
  intros Hi Hk. apply safe_local; [exact Hi | lia|]. intros u [HB HW].
  eapply wpc_mono; [apply (wpc_updateCounter k); [apply HB | exact Hk | rewrite (b_clock _ _ _ HB); discriminate]|]. intros ? u' (HC & HP & HL).
  split; [split; [eapply base_program; eassumption | eapply wiring_program; eassumption]|]. right. apply view_kept; assumption.
Qed.

Lemma safe_tick T k : k < 2 ^ 29 - 1 -> safe T k (k + 2) SWTMR_time_tick.
Proof.
  intros Hk. unfold SWTMR_time_tick. apply safe_bind with k; [apply safe_quiet, quiet_idle | intros _].
  apply safe_bind with k; [apply safe_gets | intros lock]. destruct (lock =? LOCKED).
  - apply (safe_mono T k k); [lia|]. apply safe_modify. reflexivity.
  - apply safe_bind with k; [apply safe_modify; reflexivity | intros _].
    apply safe_then with (k + 1); [apply safe_update; lia | intros _]. replace (k + 2) with (k + 1 + 1) by lia. apply safe_update; lia.
Qed.

Lemma safe_check T k : k < 2 ^ 29 - 1 -> safe T k (k + 2) checktimelock.
Proof.
  intros Hk. unfold checktimelock. apply safe_bind with k; [apply safe_modify; reflexivity | intros _].
  apply safe_bind with k; [apply safe_gets | intros need]. apply safe_when; [lia|].
  apply safe_bind with k; [apply safe_modify; reflexivity | intros _]. apply safe_tick, Hk.
Qed.

Lemma wpc_latch g k i u : good g k u -> k < 2 ^ 29 -> wp (readCounter ;; upd (SET_countlatched 1)) (fun _ => good g (k + 1)) i u.
Proof.
  intros HG Hk. wps. eapply wpc_mono; [apply (wpc_readCounter g k); assumption|]. intros ? u' ([HB HW] & _). wps.
  split; [base_tac | exact HW].
Qed.

Lemma safe_latch (T : Z -> Prop) k i : T i -> 0 <= i < 3 -> k < 2 ^ 29 -> safe T k (k + 1) (latch_count i).
Proof. intros HT Hi Hk. apply safe_touch; [exact Hi | lia | exact HT|]. intros u HG. apply wpc_latch; assumption. Qed.

Lemma safe_status (T : Z -> Prop) k i : T i -> 0 <= i < 3 -> safe T k k (latch_status i).
Proof.
  intros HT Hi. apply safe_touch; [exact Hi | lia | exact HT|]. intros u [HB HW]. unfold latchStatusValue. wps. split; [base_tac | exact HW].
Qed.

(** The counters a control word is for. *)
Definition word_for (cwd c : Z) : Prop := (cwd .& 0xc0) .>> 6 = READ_BACK \/ (cwd .& 0xc0) .>> 6 = c.

Lemma safe_control k cwd : k < 2 ^ 29 - 3 -> safe (word_for cwd) k (k + 3) (controlWordReg cwd).
Proof.
  intros Hk. pose proof (word_field_range cwd 6 2 ltac:(lia) ltac:(lia)) as Hc. change ((2 ^ 2 - 1) * 2 ^ 6) with 0xc0 in Hc. change (2 ^ 2) with 4 in Hc.
  unfold controlWordReg. cbv zeta. destruct (Z.eqb_spec ((cwd .& 0xc0) .>> 6) READ_BACK) as [Ec | Ec].
  - assert (HT : forall i, word_for cwd i) by (intros i; left; exact Ec). apply safe_bind with (k + 3); [|intros _].
    + apply safe_when; [lia|]. apply safe_bind with (k + 1); [apply safe_when; [lia | apply safe_latch; auto; lia] | intros _].
      apply safe_bind with (k + 1 + 1); [apply safe_when; [lia | apply safe_latch; auto; lia] | intros _].
      replace (k + 3) with (k + 1 + 1 + 1) by lia. apply safe_when; [lia | apply safe_latch; auto; lia].
    + apply safe_when; [lia|]. repeat (apply safe_bind with (k + 3); [apply safe_when; [lia | apply safe_status; auto; lia] | intros _]).
      apply safe_when; [lia | apply safe_status; auto; lia].
  - assert (HT : word_for cwd ((cwd .& 0xc0) .>> 6)) by (right; reflexivity).
    unfold READ_BACK in Ec. set (c := (cwd .& 0xc0) .>> 6) in *. apply (safe_mono _ k (k + 1)); [lia|].
    destruct ((cwd .& 0x30) .>> 4 =? LATCH); (apply safe_touch; [lia | lia | exact HT|]); intros u HG.
    + apply wpc_latch; [exact HG | lia].
    + eapply wpc_mono; [|intros ? u'; apply (good_mono _ k); lia].
      apply wpc_bind, wpc_when; intros _; [apply wpc_modify; [intros; split; reflexivity|]|]; apply (wpc_new_mode _ k), HG.
Qed.

(** The ports the bus has for the timer. *)
Definition timer_port (p : Z) : Prop := TIMER_PORT_START <= p < TIMER_PORT_END.

Lemma timer_port_lines p : timer_port p ->
  0 <= p .& 3 < 4 /\ (p .& TIMER_BIT_MASK = 0x43 \/ p .& TIMER_BIT_MASK <> 0x43 /\ 0 <= (p .& TIMER_BIT_MASK) .& 3 < 3).
Proof.
  intros Hp. assert (HE : exists n, (n < 31)%nat /\ p = TIMER_PORT_START + Z.of_nat n) by (exists (Z.to_nat (p - TIMER_PORT_START)); unfold timer_port, TIMER_PORT_START, TIMER_PORT_END in *; lia).
  destruct HE as (n & Hn & ->). do 31 (destruct n as [|n]; [vm_compute; intuition discriminate|]). lia.
Qed.

(** What a program and the speaker port do to the timer. *)
Inductive access := In (port : Z) | Out (port value : Z) | GateTo (port value : Z).

Definition run_access (a : access) : X Z :=
  match a with
  | In port => SWTMR_inb port 0xff
  | Out port value => SWTMR_outb port value ;; ret 0
  | GateTo port value => SWTMR_gate port value ;; ret 0
  end.

(** The gate of a one-shot does not fall between the two bytes of a count. *)
Definition allowed (a : access) (s : pit W) : Prop :=
  match a with
  | In port => timer_port port /\ port .& 3 <> 3
  | Out port value => timer_port port /\ 0 <= value < 256
  | GateTo port value =>
      timer_port port /\ port .& 3 <> 3 /\ (value = GATE_SIGNAL_LOW \/ value = GATE_SIGNAL_RISE)
      /\ forall u, timers s !! Z.to_nat (port .& 3) = Some u -> calm u value
  end.

Lemma wpc_read_byte g k i u v : good g k u -> k < 2 ^ 29 ->
  wp (read_byte v) (fun _ => good g (k + 1)) i u.
Proof.
  intros HG Hk.
  assert (HR : forall Q, (forall u1, good g (k + 1) u1 -> Q tt u1) -> wp (when (countlatched u =? 0) readCounter) Q i u).
  { intros Q HQ. wps; [eapply wpc_mono; [apply (wpc_readCounter g k); assumption|]; intros [] u1 (Hu1 & _); auto|].
    apply HQ, (good_mono g k); [lia | exact HG]. }
  unfold read_byte. apply wpc_bind, wpc_cur, wpc_bind, HR. intros u1 HG1. wps; try exact HG1.
  all: destruct HG1 as [HB1 HW1]; split; [base_tac | exact HW1].
Qed.

(** The counters an access is for. *)
Definition access_for (a : access) (c : Z) : Prop :=
  match a with
  | In port | GateTo port _ => port .& 3 = c
  | Out port value => if port .& TIMER_BIT_MASK =? 0x43 then word_for value c else (port .& TIMER_BIT_MASK) .& 3 = c
  end.

Definition keeps (T : Z -> Prop) (s s' : pit W) : Prop := forall c, 0 <= c < 3 -> ~ T c -> view_at c s' = view_at c s.

Lemma safe_emu k port sg v s : inv k s -> 0 <= k < 2 ^ 29 -> 0 <= port .& 3 < 3 ->
  match sg with
  | WRITE_SIGNAL => 0 <= v < 256
  | GATE_SIGNAL => (v = GATE_SIGNAL_LOW \/ v = GATE_SIGNAL_RISE) /\ forall u, timers s !! Z.to_nat (port .& 3) = Some u -> calm u v
  end -> exists s', emu_8253 port sg v s = Ret tt s' /\ inv (k + 1) s' /\ keeps (eq (port .& 3)) s s'.
Proof.
  intros Hs Hk Hp Hv. destruct (inv_local (eq (port .& 3)) k (k + 1) (port .& 3) (run_state sg v) (fun _ _ => True) s Hs Hp ltac:(lia)) as ([] & s' & u' & E1 & H1 & _ & _ & _ & V1); [|eauto].
  intros u Hu HG. eapply wpc_mono; [apply (wpc_run_state (clock_of (port .& 3)) k) | auto]; [exact HG | exact Hk|].
  destruct sg; [exact Hv | destruct Hv; auto].
Qed.

(** The lock is dropped after an access. *)
Lemma checked {A} (T : Z -> Prop) k k' (x : X A) s a s1 : x s = Ret a s1 -> inv k s1 -> keeps T s s1 -> k + 2 <= k' -> k < 2 ^ 29 - 1 ->
  exists s', bind x (fun a => checktimelock ;; ret a) s = Ret a s' /\ inv k' s' /\ keeps T s s'.
Proof.
  intros E1 H1 V1 Hk' Hk. destruct (safe_check T k Hk s1 H1) as ([] & s2 & E2 & H2 & V2). exists s2. rewrite (bind_ret _ _ _ _ _ E1), (bind_ret _ _ _ _ _ E2).
  split; [reflexivity|]. split; [eapply inv_mono; eassumption|]. intros c Hc HT. rewrite V2, V1 by assumption. reflexivity.
Qed.

Lemma checked_unit (x : X unit) (s s' : pit W) : bind x (fun a => checktimelock ;; ret a) s = Ret tt s' ->
  (x ;; checktimelock ;; ret 0) s = Ret 0 s'.
Proof.
  unfold bind. destruct (x s) as [[] s1 | |]; try discriminate. destruct (checktimelock s1) as [[] s2 | |]; try discriminate. intros [= <-]. reflexivity.
Qed.

Lemma access_safe k a s : inv k s -> 0 <= k < 2 ^ 29 - 5 -> allowed a s -> exists v s', run_access a s = Ret v s' /\ inv (k + 5) s' /\ keeps (access_for a) s s'.
Proof.
  intros Hs Hk Ha. set (s0 := SET_timelock LOCKED s). assert (Hs0 : inv k s0) by exact (inv_same k s s0 eq_refl Hs).
  destruct a as [port | port value | port value]; cbn [run_access allowed] in *.
  - destruct Ha as [Hp H3]. destruct (timer_port_lines port Hp) as [Hl _].
    destruct (safe_touch (eq (port .& 3)) k (k + 1) (port .& 3) (read_byte 0xff) ltac:(lia) ltac:(lia) eq_refl ltac:(intros; apply wpc_read_byte; [assumption | lia]) s0 Hs0) as (v & s1 & E1 & H1 & V1).
    destruct (checked _ (k + 1) (k + 5) _ s0 v s1 E1 H1 V1 ltac:(lia) ltac:(lia)) as (s2 & E2 & H2 & V2). exists v, s2. rewrite bind_assoc in E2. auto.
  - destruct Ha as [Hp Hv]. destruct (timer_port_lines port Hp) as [_ Hl].
    assert (HX : exists s1, (if port .& TIMER_BIT_MASK =? 0x43 then controlWordReg value else emu_8253 (port .& TIMER_BIT_MASK) WRITE_SIGNAL value) s0 = Ret tt s1
      /\ inv (k + 3) s1 /\ keeps (access_for (Out port value)) s0 s1).
    { unfold keeps, access_for. destruct Hl as [-> | [Hne Hl]].
      - destruct (safe_control k value ltac:(lia) s0 Hs0) as ([] & s1 & E1 & H1). eauto.
      - rewrite (proj2 (Z.eqb_neq _ _) Hne). destruct (safe_emu k _ WRITE_SIGNAL value s0 Hs0 ltac:(lia) Hl Hv) as (s1 & E1 & H1 & V1).
        exists s1. split; [exact E1|]. split; [eapply inv_mono; [|exact H1]; lia | exact V1]. }
    destruct HX as (s1 & E1 & H1 & V1). destruct (checked _ (k + 3) (k + 5) _ s0 tt s1 E1 H1 V1 ltac:(lia) ltac:(lia)) as (s2 & E2 & H2 & V2).
    exists 0, s2. split; [|auto]. unfold SWTMR_outb. rewrite bind_assoc. change (bind (modify _) ?f s) with (f tt s0). cbv beta zeta.
    rewrite bind_assoc. apply checked_unit, E2.
  - destruct Ha as (Hp & H3 & Hv & Hc). destruct (timer_port_lines port Hp) as [Hl _].
    destruct (safe_emu k port GATE_SIGNAL value s0 Hs0 ltac:(lia) ltac:(lia) (conj Hv Hc)) as (s1 & E1 & H1 & V1).
    destruct (checked _ (k + 1) (k + 5) _ s0 tt s1 E1 H1 V1 ltac:(lia) ltac:(lia)) as (s2 & E2 & H2 & V2).
    exists 0, s2. split; [|auto]. unfold SWTMR_gate. rewrite bind_assoc. change (bind (modify _) ?f s) with (f tt s0). cbv beta zeta.
    rewrite bind_assoc. apply checked_unit, E2.
Qed.

(** What happens to the timer: an access, an access during which a tick arrives and is
    put off, a tick, a quick event of its own, and the request to leave ticks out. *)
Inductive op := Access (a : access) | Interrupted (a : access) | Tick | Event (e : timer_event) (n : Z) | Axe (n : Z).

Definition run_op (o : op) : X Z :=
  match o with
  | Access a => run_access a
  | Interrupted a => modify (SET_timelock LOCKED) ;; SWTMR_time_tick ;; run_access a
  | Tick => SWTMR_time_tick ;; ret 0
  | Event timer_no_longer_too_soon_event n => timer_no_longer_too_soon n ;; ret 0
  | Event timer_multiple_ints_event n => timer_multiple_ints n ;; ret 0
  | Axe n => axe_ticks n ;; ret 0
  end.

Definition allowed_op (o : op) (s : pit W) : Prop :=
  match o with Access a | Interrupted a => allowed a s | _ => True end.

Lemma locked_tick s : exists s', (modify (SET_timelock LOCKED) ;; SWTMR_time_tick) s = Ret tt s' /\ timers s' = timers s.
Proof.
  destruct (quiet_idle (SET_timelock LOCKED s)) as (w & E1). exists (SET_needtick (-1) (SET_world w (SET_timelock LOCKED s))).
  split; [|reflexivity]. unfold SWTMR_time_tick. change (bind (modify _) ?f s) with (f tt (SET_timelock LOCKED s)). cbv beta.
  rewrite (bind_ret _ _ _ _ _ E1). reflexivity.
Qed.

Lemma allowed_same a s s' : timers s' = timers s -> allowed a s -> allowed a s'.
Proof. intros Ht. destruct a; cbn [allowed]; [auto..|]. rewrite Ht. auto. Qed.

Lemma generate_safe T k n : safe T k k (timer_generate_int n).
Proof.
  unfold timer_generate_int. apply safe_bind with k; [intros s Hs; exists s, s; auto | intros s].
  destruct (hack_active s); [|apply safe_quiet, quiet_interrupt]. destruct (negb _); [|apply safe_modify; reflexivity].
  apply safe_bind with k; [apply safe_quiet, quiet_interrupt | intros _]. apply safe_bind with k; [apply safe_modify; reflexivity | intros _].
  apply safe_quiet, quiet_event_i.
Qed.

Lemma multiple_safe T k n : safe T k k (timer_multiple_ints n).
Proof.
  unfold timer_multiple_ints. apply safe_bind with k; [apply generate_safe | intros _]. apply safe_bind with k; [apply safe_gets | intros more].
  apply safe_bind with k; [apply safe_modify; reflexivity | intros _]. apply safe_bind with k; [apply safe_gets | intros most]. cbv zeta.
  destruct (_ =? 0).
  - apply safe_bind with k; [apply safe_modify; reflexivity | intros _]. intros s Hs. destruct (inv_at k s 0 Hs ltac:(lia)) as (u & Hu & [HB _]).
    change (bind (gets timers) ?f s) with (f (timers s) s). cbv beta. destruct (timers s) as [|u0 l] eqn:Et; [discriminate|]. injection Hu as ->.
    unfold backlog, cdiv. destruct HB as [[] _ _ _ _ _ _ _]. rewrite (proj2 (Z.eqb_neq _ _)) by lia. rewrite bind_ret_l.
    eexists _, _. split; [reflexivity|]. split; [exact (inv_same k s (SET_max_backlog _ s) eq_refl Hs) | reflexivity].
  - apply safe_bind with k; [apply safe_gets | intros d]. apply safe_quiet, quiet_event_t.
Qed.

Definition op_for (o : op) (c : Z) : Prop := match o with Access a | Interrupted a => access_for a c | _ => False end.

Lemma op_safe k o s : inv k s -> 0 <= k < 2 ^ 29 - 5 -> allowed_op o s -> exists v s', run_op o s = Ret v s' /\ inv (k + 5) s' /\ keeps (op_for o) s s'.
Proof.
  intros Hs Hk Ha.
  assert (HU : forall x k', safe (fun _ => False) k k' x -> k' <= k + 5 ->
    exists v s', bind x (fun _ : unit => ret 0) s = Ret v s' /\ inv (k + 5) s' /\ keeps (fun _ => False) s s').
  { intros x k' HX Hk'. destruct (HX s Hs) as ([] & s1 & E1 & H1 & V1). exists 0, s1. rewrite (bind_ret _ _ _ _ _ E1).
    split; [reflexivity|]. split; [eapply inv_mono; eassumption | exact V1]. }
  destruct o as [a | a | | [] n | n]; cbn [run_op allowed_op op_for] in *.
  - apply access_safe; assumption.
  - destruct (locked_tick s) as (s1 & E1 & Ht). rewrite <- bind_assoc, (bind_ret _ _ _ _ _ E1).
    destruct (access_safe k a s1) as (v & s2 & E2 & H2 & V2); [eapply inv_same; eassumption | exact Hk | eapply allowed_same; eassumption|].
    exists v, s2. split; [exact E2|]. split; [exact H2|]. intros c Hc HT. rewrite V2 by assumption. unfold view_at. rewrite Ht. reflexivity.
  - apply (HU _ (k + 2)); [apply safe_tick; lia | lia].
  - apply (HU _ k); [|lia]. unfold timer_no_longer_too_soon. apply safe_bind with k; [apply safe_modify; reflexivity | intros _].
    apply safe_bind with k; [apply safe_gets | intros lost]. apply safe_when; [lia | apply generate_safe].
  - apply (HU _ k); [apply multiple_safe | lia].
  - apply (HU _ k); [apply safe_modify; reflexivity | lia].
Qed.

(** ** Set up *)

(** A counter before it is set up: static storage. *)
Definition blank : COUNTER_UNIT :=
  mkUnit 0 0 0 None None None None None None 0 0 0 0 0 0 0 0 0 AVAILABLE 0 (mkTime 0 0) 0 0 0 0 0 0 0 0 0 LEVEL 0 0 (mkWave 0 0 0 0 0).

(** What does not touch the counters. *)
Definition aside (x : X unit) : Prop := forall s, exists s', x s = Ret tt s' /\ timers s' = timers s.

Lemma aside_bind {A} (x : X A) (f : A -> X unit) : (forall s, exists a s', x s = Ret a s' /\ timers s' = timers s) -> (forall a, aside (f a)) -> aside (bind x f).
Proof.
  intros HX HF s. destruct (HX s) as (a & s1 & E1 & T1). destruct (HF a s1) as (s2 & E2 & T2). exists s2. rewrite (bind_ret _ _ _ _ _ E1). split; [exact E2 | congruence].
Qed.
Lemma aside_any x : aside x -> forall s, exists (a : unit) s', x s = Ret a s' /\ timers s' = timers s.
Proof. intros HX s. destruct (HX s) as (s' & E1 & T1). eauto. Qed.
Lemma aside_modify f : (forall s, timers (f s) = timers s) -> aside (modify f).
Proof. intros Hf s. exists (f s). auto. Qed.

Lemma aside_connect n : forall i, aside (connect_timer n i).
Proof.
  induction n as [|n IH]; intros i; cbn [connect_timer]; [intros s; exists s; auto|]. apply aside_bind; [apply aside_any | intros _; apply IH].
  unfold Ios.io_connect_port. apply aside_bind; [apply aside_any | intros _].
  all: intros s; unfold when; destruct (negb _); eexists; (split; [reflexivity|]); reflexivity.
Qed.

(** The counters after set up. *)
Definition fresh_unit (t : Z) (g : clock) : COUNTER_UNIT :=
  SET_getTime (Some g) (SET_timeFrig (t / 2) (SET_guessesPerHostTick 2 (SET_guessesSoFar 2 (SET_initialCount 0x10000 (SET_state (Some st_uninit) blank))))).

Lemma on_upd i f (s : pit W) u : timers s !! Z.to_nat i = Some u -> on i (upd f) s = Ret tt (SET_timers (<[Z.to_nat i := f u]> (timers s)) s).
Proof.
  intros Hu. unfold on, bind, gets, select, modify, upd. cbn [timers pcu SET_pcu]. rewrite Hu. destruct s. reflexivity.
Qed.
Lemma on_init i (s : pit W) u : timers s !! Z.to_nat i = Some u ->
  on i counter_init s = Ret tt (SET_timers (<[Z.to_nat i := SET_timeFrig (ticksPerIdealInterval s / 2) (SET_guessesPerHostTick 2 (SET_guessesSoFar 2 (SET_initialCount 0x10000 (SET_state (Some st_uninit) u))))]> (timers s)) s).
Proof. exact (on_upd i _ s u). Qed.

Lemma Timer_init_run (s : pit W) : timers s = [blank; blank; blank] ->
  exists s' t, Timer_init s = Ret tt s' /\ timers s' = [fresh_unit t IdealTime; fresh_unit t HostSysTime; fresh_unit t HostSysTime].
Proof.
  intros Ht. eexists _, (ticksPerIdealInterval s). split.
  - unfold Timer_init. do 3 (erewrite bind_ret; [|eapply on_init; cbn [timers SET_timers]; rewrite Ht; reflexivity]).
    do 2 (erewrite bind_ret; [|eapply on_upd; cbn [timers SET_timers]; rewrite Ht; reflexivity]). eapply on_upd. cbn [timers SET_timers]. rewrite Ht. reflexivity.
  - cbn [timers SET_timers ticksPerIdealInterval]. rewrite Ht. reflexivity.
Qed.

Lemma fresh_good t g : good g 0 (fresh_unit t g).
Proof. split; [|exact I]. split; try (split; cbn; lia); cbn; try lia; auto; try (unfold BINARY, BCD, GATE_SIGNAL_LOW, GATE_SIGNAL_RISE; lia). discriminate. Qed.

Lemma init_run (s : pit W) : timers s = [blank; blank; blank] -> exists s', timer_init s = Ret tt s' /\ inv 0 s'.
Proof.
  intros Ht. unfold timer_init.
  assert (HD : forall x : X unit, aside x -> forall s0 f, timers s0 = [blank; blank; blank] -> (forall s1, timers s1 = [blank; blank; blank] -> exists s', f tt s1 = Ret tt s' /\ inv 0 s') ->
    exists s', bind x f s0 = Ret tt s' /\ inv 0 s').
  { intros x Hx s0 f H1 H2. destruct (Hx s0) as (s1 & E1 & T1). rewrite (bind_ret _ _ _ _ _ E1). apply H2. congruence. }
  apply HD; [intros s0; eexists; split; [reflexivity|]; reflexivity | exact Ht | clear s Ht; intros s Ht].
  apply HD; [intros s0; eexists; split; [reflexivity|]; reflexivity | exact Ht | clear s Ht; intros s Ht].
  apply HD; [apply aside_connect | exact Ht | clear s Ht; intros s Ht].
  apply HD; [|exact Ht | clear s Ht; intros s Ht].
  { unfold IdealTimeInit. apply aside_bind; [apply aside_any, aside_modify; reflexivity | intros _]. apply aside_bind; [|intros t; apply aside_modify; reflexivity].
    intros s0. unfold getHostSysTime. destruct (quiet_clock s0) as (t & w & E1). rewrite (bind_ret _ _ _ _ _ E1). eexists _, _. split; [reflexivity|]. reflexivity. }
  destruct (Timer_init_run s Ht) as (s1 & t & E1 & T1). rewrite (bind_ret _ _ _ _ _ E1).
  assert (H1 : inv 0 s1).
  { split; rewrite T1; [reflexivity|]. intros i u Hu. do 3 (destruct i as [|i]; [injection Hu as <-; apply fresh_good|]). discriminate. }
  assert (HS : safe (fun _ => False) 0 0 (modify (fun s => SET_needtick 0 (SET_timelock UNLOCKED s)) ;; host_timer_init ;;
    modify (fun s => SET_more_timer_mult 0 (SET_active_int_event false s)) ;; ica_iret_hook_control)).
  { apply safe_bind with 0; [apply safe_modify; reflexivity | intros _]. apply safe_bind with 0; [apply safe_quiet, quiet_init | intros _].
    apply safe_bind with 0; [apply safe_modify; reflexivity | intros _]. apply safe_quiet, quiet_hook. }
  destruct (HS s1 H1) as ([] & s2 & E2 & H2 & _). eauto.
Qed.

(** ** Any use of the timer *)

Inductive steps (P : op -> Prop) (s0 : pit W) : nat -> pit W -> Prop :=
| steps_none : steps P s0 0 s0
| steps_next n s o v s' : steps P s0 n s -> P o -> allowed_op o s -> run_op o s = Ret v s' -> steps P s0 (S n) s'.

Lemma steps_inv (P : op -> Prop) c k s0 n s : inv k s0 -> steps P s0 n s -> 0 <= k -> k + 5 * Z.of_nat n < 2 ^ 29 ->
  inv (k + 5 * Z.of_nat n) s /\ (0 <= c < 3 -> (forall o, P o -> ~ op_for o c) -> view_at c s = view_at c s0).
Proof.
  intros Hs0 HR Hk. induction HR as [|n s o v s' HR IH HP Ha E1]; intros Hn; [replace (k + 5 * Z.of_nat 0) with k by lia; auto|].
  destruct IH as [IH IV]; [lia|]. destruct (op_safe (k + 5 * Z.of_nat n) o s IH ltac:(lia) Ha) as (v' & s1 & E2 & H1 & V1). rewrite E1 in E2. injection E2 as -> ->.
  replace (k + 5 * Z.of_nat (S n)) with (k + 5 * Z.of_nat n + 5) by lia. split; [exact H1|]. intros Hc HT. rewrite V1 by auto. auto.
Qed.


(** ** Latched counts *)

Lemma to_bcd_range n : forall i m b, (0 < n)%nat -> 0 <= to_bcd n i m b < 0x10000.
Proof.
  induction n as [|n IH]; intros i m0 b Hn; [lia|]. cbn [to_bcd]. destruct n as [|n]; [apply u16_range | apply IH; lia].
Qed.

Lemma count_read_bytes k g u : base g k u -> (count_read u .& 0xff) + 256 * u8 (count_read u .>> 8) = count_read u.
Proof.
  intros HB. assert (HR : 0 <= count_read u < 0x10000) by (unfold count_read; destruct (_ =? _); [apply to_bcd_range; lia | apply HB]).
  change 0xff with (2 ^ 8 - 1). rewrite land_mask, Z.shiftr_div_pow2 by lia. change (2 ^ 8) with 256.
  rewrite u8_small by (change (2 ^ 8) with 256; Z.to_euclidean_division_equations; lia). Z.to_euclidean_division_equations; lia.
Qed.

(** The next read of a counter whose latches hold a count. *)
Lemma latched_read k c s b l h st (first : bool) : inv k s -> 0 <= k < 2 ^ 29 - 3 -> 0 <= c < 3 ->
  view_at c s = Some (b, RL_LMSB, (if first then UNREAD else READMSB), (1, l, h, st)) ->
  exists s', run_op (Access (In (TIMER_PORT_START + c))) s = Ret (if first then l else h) s' /\ inv (k + 3) s'
  /\ (first = true -> view_at c s' = Some (b, RL_LMSB, READMSB, (1, l, h, st))).
Proof.
  intros Hs Hk Hc HV. set (s0 := SET_timelock LOCKED s). assert (Hs0 : inv k s0) by exact (inv_same k s s0 eq_refl Hs).
  assert (Ep : (TIMER_PORT_START + c) .& 3 = c) by (assert (Hd : c = 0 \/ c = 1 \/ c = 2) by lia; destruct Hd as [-> | [-> | ->]]; reflexivity).
  destruct (inv_local (eq c) k k c (read_byte 0xff)
    (fun v u' => v = (if first then l else h) /\ (first = true -> view u' = (b, RL_LMSB, READMSB, (1, l, h, st)))) s0 Hs0 Hc ltac:(lia)) as (v & s1 & u' & E1 & H1 & _ & Ht & [-> HQ] & _).
  { intros u Hu HG. unfold view_at in HV. change (timers s) with (timers s0) in HV. rewrite Hu in HV. cbn in HV. unfold view in HV. injection HV as Eb Er Es El Ell Elm Est.
    unfold read_byte. apply wpc_bind, wpc_cur. rewrite El. change (1 =? 0) with false. apply wpc_bind, wpc_ret, wpc_bind, wpc_cur. rewrite Es, Er. destruct HG as [HB HW].
    destruct first; cbn; wps; (split; [split; [base_tac | exact HW]|]); (split; [|auto]); split; try assumption; try discriminate.
    intros _. unfold view. cbn. congruence. }
  destruct (safe_check (fun _ => False) k ltac:(lia) s1 H1) as ([] & s2 & E2 & H2 & V2). exists s2. split; [|split; [eapply inv_mono; [|exact H2]; lia|]].
  - cbn [run_op run_access]. unfold SWTMR_inb. rewrite Ep. change (bind (modify _) ?f s) with (f tt s0). cbv beta.
    rewrite <- bind_assoc, (bind_ret _ _ _ _ _ E1), (bind_ret _ _ _ _ _ E2). reflexivity.
  - intros Hf. rewrite V2 by (auto; lia). unfold view_at. destruct (inv_at k s0 c Hs0 Hc) as (u & Hu & _).
    rewrite Ht, list_lookup_insert_eq by (eapply lookup_lt_Some; exact Hu). cbn. rewrite (HQ Hf). reflexivity.
Qed.

(** The latch command. *)
Lemma latch_run k c s u : inv k s -> 0 <= k < 2 ^ 29 - 4 -> 0 <= c < 3 -> timers s !! Z.to_nat c = Some u -> rl u = RL_LMSB -> readState u = UNREAD ->
  exists s' u1 s1, (select c ;; updateCounter) (SET_timelock LOCKED s) = Ret tt s' /\ timers s' !! Z.to_nat c = Some u1
  /\ run_op (Access (Out 0x43 (64 * c))) s = Ret 0 s1 /\ inv (k + 4) s1
  /\ (count_read u1 .& 0xff) + 256 * u8 (count_read u1 .>> 8) = count_read u1
  /\ view_at c s1 = Some (bcd u1, RL_LMSB, UNREAD, (1, count_read u1 .& 0xff, u8 (count_read u1 .>> 8), latchstatus u1)).
Proof.
  intros Hs Hk Hc Hu Hr Hrs. set (s0 := SET_timelock LOCKED s). assert (Hs0 : inv k s0) by exact (inv_same k s s0 eq_refl Hs).
  assert (Ew : (64 * c) .& 0xc0 .>> 6 = c /\ (64 * c) .& 0x30 .>> 4 = 0) by (assert (Hd : c = 0 \/ c = 1 \/ c = 2) by lia; destruct Hd as [-> | [-> | ->]]; split; reflexivity).
  destruct Ew as [Ec Er].
  destruct (inv_local (eq c) k (k + 1) c updateCounter (fun _ u' => program u' = program u /\ latches u' = latches u) s0 Hs0 Hc ltac:(lia))
    as ([] & s' & u1 & E1 & H1 & Hp & Ht & [HP HL] & _).
  { intros u0 Hu0 [HB HW]. change (timers s0) with (timers s) in Hu0. rewrite Hu in Hu0. injection Hu0 as <-.
    eapply wpc_mono; [apply (wpc_updateCounter k); [apply HB | lia | rewrite (b_clock _ _ _ HB); discriminate]|]. intros ? u' (HC & HP & HL).
    split; [split; [eapply base_program; eassumption | eapply wiring_program; eassumption]|]. auto. }
  assert (Hu1 : timers s' !! Z.to_nat c = Some u1) by (rewrite Ht; apply list_lookup_insert_eq; eapply lookup_lt_Some; exact Hu).
  set (u2 := SET_countlatched 1 (SET_latchvaluelsb (count_read u1 .& 0xff) (SET_latchvaluemsb (u8 (count_read u1 .>> 8)) u1))).
  set (s2 := SET_timers (<[Z.to_nat c := u2]> (timers s')) s').
  assert (E2 : controlWordReg (64 * c) s0 = Ret tt s2).
  { unfold controlWordReg. cbv zeta. rewrite Ec, Er. unfold READ_BACK, LATCH. rewrite (proj2 (Z.eqb_neq c 3)) by lia. change (0 =? 0) with true. cbv iota.
    unfold readCounter. change (select c ;; (updateCounter ;; ?f) ;; ?g) with (bind (select c) (fun _ => bind (bind updateCounter (fun _ => f)) (fun _ => g))).
    rewrite <- bind_assoc. unfold bind at 1. rewrite <- bind_assoc, (bind_ret _ _ _ _ _ E1). unfold bind, upd. rewrite Hp, Hu1. cbn [timers pcu SET_timers].
    rewrite Hp, list_lookup_insert_eq, list_insert_insert_eq by (eapply lookup_lt_Some; exact Hu1). reflexivity. }
  pose proof (proj2 (inv_good _ _ H1 _ _ Hu1)) as HW1. pose proof (proj1 (inv_good _ _ H1 _ _ Hu1)) as HB1.
  assert (H2 : inv (k + 1) s2).
  { split; cbn [timers SET_timers s2]; [rewrite length_insert; apply H1|]. intros i v Hv. apply list_lookup_insert_Some in Hv as [(<- & <- & _) | (_ & Hv)]; [|apply H1, Hv].
    split; [base_tac | exact HW1]. }
  destruct (safe_check (fun _ => False) (k + 1) ltac:(lia) s2 H2) as ([] & s4 & E4 & H4 & V4).
  exists s', u1, s4. split; [exact E1|]. split; [exact Hu1|]. split; [|split; [eapply inv_mono; [|exact H4]; lia|]; split; [exact (count_read_bytes _ _ u1 HB1)|]].
  - cbn [run_op run_access]. unfold SWTMR_outb. rewrite bind_assoc. change (bind (modify _) ?f s) with (f tt s0). cbv beta zeta.
    change (0x43 .& TIMER_BIT_MASK =? 0x43) with true. cbv iota. rewrite bind_assoc, (bind_ret _ _ _ _ _ E2), (bind_ret _ _ _ _ _ E4). reflexivity.
  - rewrite V4 by (auto; lia). unfold view_at. cbn [timers SET_timers s2]. rewrite list_lookup_insert_eq by (eapply lookup_lt_Some; exact Hu1). cbn.
    unfold view, u2. cbn. unfold program in HP. unfold latches in HL. injection HP. injection HL. intros. congruence.
Qed.

Definition elsewhere (c : Z) (o : op) : Prop := ~ op_for o c.

(** C33 - A latched count is read back whole.  When a guest latches the count of a counter
    that is read in two bytes, the two next reads of the counter give the low and the
    high byte of the count it had then (in binary or decimal as it is programmed),
    however much later they are and whatever happens in between: ticks, interrupts, and
    accesses to the other counters that move time on. *)
Theorem latched_count_whole c boot s0 n s u :
  timers boot = [blank; blank; blank] -> timer_init boot = Ret tt s0 -> steps (fun _ => True) s0 n s -> Z.of_nat n < 50000000 ->
  0 <= c < 3 -> timers s !! Z.to_nat c = Some u -> rl u = RL_LMSB -> readState u = UNREAD ->
  exists s' u1 s1,
    (select c ;; updateCounter) (SET_timelock LOCKED s) = Ret tt s' /\ timers s' !! Z.to_nat c = Some u1
    /\ run_op (Access (Out 0x43 (64 * c))) s = Ret 0 s1
    /\ forall n1 s2, steps (elsewhere c) s1 n1 s2 -> Z.of_nat n1 < 10000000 ->
       exists lsb s3, run_op (Access (In (TIMER_PORT_START + c))) s2 = Ret lsb s3
       /\ forall n2 s4, steps (elsewhere c) s3 n2 s4 -> Z.of_nat n2 < 10000000 ->
          exists msb s5, run_op (Access (In (TIMER_PORT_START + c))) s4 = Ret msb s5 /\ lsb + 256 * msb = count_read u1.
Proof.
  intros Hb E0 HR Hn Hc Hu Hr Hrs. destruct (init_run boot Hb) as (s0' & E0' & H0'). rewrite E0 in E0'. injection E0' as <-.
  destruct (steps_inv _ 0 0 s0 n s H0' HR ltac:(lia) ltac:(lia)) as [HI _].
  destruct (latch_run _ c s u HI ltac:(lia) Hc Hu Hr Hrs) as (s' & u1 & s1 & E1 & Hu1 & E2 & H2 & Hcount & V2). exists s', u1, s1. repeat (split; [assumption|]).
  intros n1 s2 HS1 Hn1. destruct (steps_inv _ c _ s1 n1 s2 H2 HS1 ltac:(lia) ltac:(lia)) as [H3 V3].
  rewrite <- V3 in V2 by auto. destruct (latched_read _ c s2 _ _ _ _ true H3 ltac:(lia) Hc V2) as (s3 & E3 & H4 & V4).
  eexists _, s3. split; [exact E3|]. intros n2 s4 HS2 Hn2. destruct (steps_inv _ c _ s3 n2 s4 H4 HS2 ltac:(lia) ltac:(lia)) as [H5 V5].
  specialize (V4 eq_refl). rewrite <- V5 in V4 by auto. destruct (latched_read _ c s4 _ _ _ _ false H5 ltac:(lia) Hc V4) as (s5 & E5 & _).
  eexists _, s5. split; [exact E5 | exact Hcount].
Qed.

(** ** Snapshots *)

Lemma state_id_known st : snapshot_timer_state_function (snapshot_timer_state_id (Some st)) = Some st /\ snapshot_timer_state_id (Some st) <> 0.
Proof. destruct st; split; (reflexivity || discriminate). Qed.
Lemma wait_action_known a : snapshot_restore_timer_wait_action (wait_action_id a) = Some a.
Proof. destruct a as [[]|]; reflexivity. Qed.
Lemma gate_action_known a : snapshot_restore_timer_gate_action (gate_action_id a) = Some a.
Proof. destruct a as [[]|]; reflexivity. Qed.
Lemma state_option_known o : (if snapshot_timer_state_id o =? 0 then None else snapshot_timer_state_function (snapshot_timer_state_id o)) = o.
Proof.
  destruct o as [st|]; [|reflexivity]. destruct (state_id_known st) as [-> Hn]. rewrite (proj2 (Z.eqb_neq _ _) Hn). reflexivity.
Qed.
Lemma state_option_accepted o : negb (snapshot_timer_state_id o =? 0) && match o with None => true | Some _ => false end = false.
Proof. destruct o; [apply andb_false_r | reflexivity]. Qed.

(** Asking a counter's clock. *)
Lemma get_time_run (s : pit W) u g : timers s !! Z.to_nat (pcu s) = Some u -> getTime u = Some g -> exists now w, get_time s = Ret now (SET_world w s).
Proof.
  intros Hu Hg. unfold get_time, cur, bind. rewrite Hu, Hg. destruct g.
  - exists (idealtime s), (world s). destruct s. reflexivity.
  - unfold getHostSysTime. destruct (quiet_clock s) as (t & w & E1). rewrite (bind_ret _ _ _ _ _ E1). eexists _, w. reflexivity.
Qed.

Lemma capture_counter k i s u : base (clock_of i) k u -> state u <> None -> timers s !! Z.to_nat i = Some u ->
  exists now w, snapshot_capture_timer_counter i s = Ret (Some (saved_unit u now)) (SET_world w s).
Proof.
  intros HB Hst Hu. destruct (get_time_run (SET_pcu i s) u _ Hu (b_clock _ _ _ HB)) as (now & w & E1). exists now, w.
  unfold snapshot_capture_timer_counter. change (bind (gets pcu) ?f s) with (f (pcu s) s). cbv beta. change (bind (select i) ?f s) with (f tt (SET_pcu i s)). cbv beta.
  unfold cur. unfold bind at 1. cbn [timers pcu SET_pcu]. rewrite Hu, (b_clock _ _ _ HB). destruct (state u); [|contradiction].
  rewrite bind_assoc, (bind_ret _ _ _ _ _ E1), bind_ret_l. destruct s. reflexivity.
Qed.

(** A counter as a snapshot brings it back. *)
Definition brought_back (u : COUNTER_UNIT) (now now' : timeval) : COUNTER_UNIT :=
  SET_activationTime (rebased (snapshot_timer_elapsed_microseconds now (activationTime u)) now') u.

Lemma restore_counter k i t u u0 now : base (clock_of i) k u -> state u <> None -> timers t !! Z.to_nat i = Some u0 ->
  exists now' w, snapshot_restore_timer_counter (saved_unit u now) i t =
    Ret true (SET_world w (SET_timers (<[Z.to_nat i := brought_back u now now']> (timers t)) t)).
Proof.
  intros HB Hst Hu0. assert (Hi : (Z.to_nat i < length (timers t))%nat) by (eapply lookup_lt_Some; exact Hu0).
  assert (HR : refused_counter (saved_unit u now) = false).
  { destruct HB as [_ _ ? ? ? _ _ _]. unfold refused_counter, saved_unit. cbn. unfold BINARY, BCD, INT_ON_TERMINALCOUNT, HW_TRIG_STROBE, LATCH, RL_LMSB in *.
    destruct (newCount u), (trigger u); cbn; lia. }
  destruct (state u) as [st|] eqn:Est; [|contradiction]. destruct (state_id_known st) as [E1 _].
  set (u1 := restored_unit (saved_unit u now) i (Some st) (statePriorWt u) (stateOnGate u) u0).
  set (u2 := SET_actionOnGateEnabled (actionOnGateEnabled u) (SET_actionOnWtComplete (actionOnWtComplete u) u1)).
  set (t2 := SET_timers (<[Z.to_nat i := u2]> (timers t)) (SET_pcu i t)).
  destruct (get_time_run t2 u2 (clock_of i)) as (now' & w & E2); [apply list_lookup_insert_eq, Hi | reflexivity|]. exists now', w.
  unfold snapshot_restore_timer_counter. rewrite HR. cbn [s_state s_state_prior_wait s_state_on_gate s_action_on_wait_complete s_action_on_gate_enabled s_activation_age_microseconds saved_unit].
  rewrite Est, E1, !state_option_known, !state_option_accepted. cbn [orb].
  change (bind (gets pcu) ?f t) with (f (pcu t) t). cbv beta. change (bind (select i) ?f t) with (f tt (SET_pcu i t)). cbv beta.
  rewrite wait_action_known, gate_action_known. fold (saved_unit u now).
  unfold upd at 1. unfold bind at 1. cbn [timers pcu SET_pcu]. rewrite Hu0. rewrite bind_assoc. unfold upd at 1. unfold bind at 1. cbn [timers pcu SET_pcu SET_timers].
  rewrite list_lookup_insert_eq, list_insert_insert_eq by exact Hi. rewrite bind_assoc. unfold upd at 1. unfold bind at 1. cbn [timers pcu SET_pcu SET_timers].
  rewrite list_lookup_insert_eq, list_insert_insert_eq by exact Hi. fold u1 u2 t2. rewrite bind_assoc. unfold snapshot_timer_rebase. rewrite bind_assoc, (bind_ret _ _ _ _ _ E2).
  unfold upd at 1. unfold bind at 1. cbn [timers pcu SET_pcu SET_timers SET_world t2]. rewrite list_lookup_insert_eq, list_insert_insert_eq by exact Hi.
  rewrite bind_ret_l. unfold bind, select, modify, ret. f_equal.
  assert (Eu : SET_activationTime (rebased (snapshot_timer_elapsed_microseconds now (activationTime u)) now') u2 = brought_back u now now').
  { pose proof (b_clock _ _ _ HB) as Hg. unfold clock_of in Hg. unfold brought_back, u2, u1. destruct u; cbn in *. subst. destruct newCount0, trigger0; reflexivity. }
  rewrite Eu. destruct t. reflexivity.
Qed.

(** Everything but the counters that a snapshot has. *)
Definition globals (s : pit W) :=
  (pcu s, ticks_blocked s, timer_int_enabled s, timelock s, needtick s, hack_active s, too_soon_after_previous s, ticks_lost_this_time s,
   (real_mode_ticks_in_a_row s, instrs_per_tick s, adj_instrs_per_tick s, n_rm_instrs_before_full_speed s, adj_n_real_mode_ticks_before_full_speed s,
    max_backlog s, more_timer_mult s, timer_multiple_delay s, active_int_event s)).

Lemma inv_three k s : inv k s -> exists u0 u1 u2, timers s = [u0; u1; u2]
  /\ (base IdealTime k u0 /\ state u0 <> None) /\ (base HostSysTime k u1 /\ state u1 <> None) /\ (base HostSysTime k u2 /\ state u2 <> None).
Proof.
  intros [HL HG]. destruct (timers s) as [|u0 [|u1 [|u2 [|]]]]; try discriminate. exists u0, u1, u2. split; [reflexivity|].
  assert (HX : forall g u, good g k u -> base g k u /\ state u <> None)
    by (intros g u [HB HW]; split; [exact HB|]; unfold wiring in HW; destruct (state u); [discriminate | contradiction]).
  split; [apply HX, (HG 0%nat); reflexivity|]. split; [apply HX, (HG 1%nat); reflexivity | apply HX, (HG 2%nat); reflexivity].
Qed.

Lemma capture_run k s : inv k s -> 0 <= pcu s < 3 -> exists u0 u1 u2 n0 n1 n2 w, timers s = [u0; u1; u2] /\
  softpc_device_snapshot_capture_pit s =
    Ret (Some (mkSnapshot [saved_unit u0 n0; saved_unit u1 n1; saved_unit u2 n2] (pcu s) (ticks_blocked s) (timer_int_enabled s) (timelock s) (needtick s)
      (hack_active s) (too_soon_after_previous s) (ticks_lost_this_time s) (real_mode_ticks_in_a_row s) (instrs_per_tick s) (adj_instrs_per_tick s)
      (n_rm_instrs_before_full_speed s) (adj_n_real_mode_ticks_before_full_speed s) (max_backlog s) (more_timer_mult s)
      (timer_multiple_delay s) (active_int_event s))) (SET_world w s).
Proof.
  intros Hs Hp. destruct (inv_three k s Hs) as (u0 & u1 & u2 & Ht & [B0 S0] & [B1 S1] & [B2 S2]). exists u0, u1, u2.
  destruct (capture_counter k 0 s u0 B0 S0) as (n0 & w0 & E0); [rewrite Ht; reflexivity|].
  destruct (capture_counter k 1 (SET_world w0 s) u1 B1 S1) as (n1 & w1 & E1); [cbn; rewrite Ht; reflexivity|].
  destruct (capture_counter k 2 (SET_world w1 (SET_world w0 s)) u2 B2 S2) as (n2 & w2 & E2); [cbn; rewrite Ht; reflexivity|].
  exists n0, n1, n2, w2. split; [exact Ht|]. unfold softpc_device_snapshot_capture_pit. change (bind (gets pcu) ?f s) with (f (pcu s) s). cbv beta.
  replace ((pcu s <? 0) || (3 <=? pcu s)) with false by lia. cbn [capture_counters]. change (0 + 1 + 1) with 2. change (0 + 1) with 1.
  rewrite bind_assoc, (bind_ret _ _ _ _ _ E0), !bind_assoc, (bind_ret _ _ _ _ _ E1), !bind_assoc, (bind_ret _ _ _ _ _ E2).
  rewrite !bind_assoc, !bind_ret_l. reflexivity.
Qed.


(** The time a counter has been running is the same on the new clock. *)
Lemma brought_back_age u now now' :
  let age := snapshot_timer_elapsed_microseconds now (activationTime u) in
  0 <= age < 2 ^ 31 -> 0 <= tv_sec now' < 2 ^ 31 -> 0 <= tv_usec now' < 1000000 ->
  snapshot_timer_elapsed_microseconds now' (activationTime (brought_back u now now')) = age.
Proof.
  intros age Ha Hs Hu. change (activationTime (brought_back u now now')) with (rebased age now'). unfold rebased.
  rewrite (proj2 (Z.ltb_ge age 0)) by lia. rewrite Z.quot_div_nonneg, Z.rem_mod_nonneg by lia.
  pose proof (Z.div_mod age 1000000 ltac:(lia)) as Hd. pose proof (Z.mod_pos_bound age 1000000 ltac:(lia)) as Hm.
  pose proof (Z.div_pos age 1000000 ltac:(lia) ltac:(lia)) as Hq. set (q := age / 1000000) in *. set (r := age mod 1000000) in *.
  rewrite (s32_small q), (s32_small r), (s32_small (tv_sec now' - q)), (s32_small (tv_usec now' - r)) by lia.
  destruct (Z.ltb_spec (tv_usec now' - r) 0); unfold snapshot_timer_elapsed_microseconds; cbn [tv_sec tv_usec]; rewrite ?s32_small by lia; lia.
Qed.

End Counters.

(** ** A timer at work

    The rest of this machine is its clock, which advances by ten microseconds when it is
    asked, and the number of interrupts requested. *)

#[local] Instance demo_env : Env unit (Z * Z) := {|
  ica_hw_interrupt s := Ret tt (SET_world (fst (world s), snd (world s) + 1) s);
  ica_hw_interrupt_cancel s := Ret tt (SET_world (world s) s);
  ica_iret_hook_control s := Ret tt (SET_world (world s) s);
  add_q_event_i _ _ _ s := Ret tt (SET_world (world s) s);
  add_q_event_t _ _ _ s := Ret tt (SET_world (world s) s);
  IDLE_tick s := Ret tt (SET_world (world s) s);
  host_timer2_waveform _ _ _ _ _ s := Ret tt (SET_world (world s) s);
  host_gettimeofday s := Ret (mkTime (fst (world s) / 1000000) (fst (world s) mod 1000000)) (SET_world (fst (world s) + 10, snd (world s)) s);
  host_timer_init s := Ret tt (SET_world (world s) s);
  host_speed x := x
|}.
#[local] Instance demo_quiet : QuietEnv (E := unit) (W := Z * Z).
Proof. split; intros; repeat eexists; reflexivity. Qed.

Definition demo_boot : pit (Z * Z) :=
  mkPit [blank; blank; blank] 0 (mkTime 0 0) 0 0 0 false 0 false 0 0 0 0 false false false 0 37000 0 3000000 0 Ios.empty_bus (1000000, 0).
Definition final {E A} (s : pit (Z * Z)) (o : outcome E (pit (Z * Z)) A) : pit (Z * Z) := match o with Ret _ s' => s' | _ => s end.
Definition demo_start : pit (Z * Z) := final demo_boot (timer_init (E := unit) demo_boot).

Lemma demo_started : timer_init demo_boot = Ret (E := unit) tt demo_start.
Proof. unfold demo_start. destruct (init_run (E := unit) demo_boot eq_refl) as (s0 & E0 & _). rewrite E0. reflexivity. Qed.

(** Counter 0 with its gate open, programmed for a square wave in two bytes. *)
Definition demo_ops : list op := [Access (GateTo 0x40 GATE_SIGNAL_RISE); Access (Out 0x43 0x36); Access (Out 0x40 0); Access (Out 0x40 0)].
Definition run_one (s : pit (Z * Z)) (o : op) : pit (Z * Z) := final s (run_op (E := unit) o s).
Definition demo_state : pit (Z * Z) := fold_left run_one demo_ops demo_start.

Lemma demo_inv : inv (W := Z * Z) 0 demo_start.
Proof. unfold demo_start. destruct (init_run (E := unit) demo_boot eq_refl) as (s0 & E0 & H0). rewrite E0. exact H0. Qed.

(** Operations that are allowed one after the other. *)
Fixpoint allowed_run (os : list op) (s : pit (Z * Z)) : Prop :=
  match os with [] => True | o :: os => allowed_op o s /\ allowed_run os (run_one s o) end.

Lemma run_steps os : forall n s, steps (E := unit) (fun _ => True) demo_start n s -> Z.of_nat (n + length os) < 100000000 -> allowed_run os s ->
  steps (E := unit) (fun _ => True) demo_start (n + length os) (fold_left run_one os s).
Proof.
  pose proof demo_inv as H0. induction os as [|o os IH]; intros n s HS Hn Ha; cbn [length fold_left] in *; [rewrite Nat.add_0_r; exact HS|]. destruct Ha as [Ho Ha].
  destruct (steps_inv (E := unit) _ 0 0 demo_start n s H0 HS ltac:(lia) ltac:(lia)) as [HI _].
  destruct (op_safe (E := unit) _ o s HI ltac:(lia) Ho) as (v & s' & E1 & _).
  assert (E2 : run_op o s = Ret (E := unit) v (run_one s o)) by (unfold run_one; rewrite E1; reflexivity).
  replace (n + S (length os))%nat with (S n + length os)%nat by lia. apply IH; [exact (steps_next _ _ n s o v _ HS I Ho E2) | lia | exact Ha].
Qed.

Lemma demo_steps : steps (E := unit) (fun _ => True) demo_start 4 demo_state.
Proof.
  apply (run_steps demo_ops 0 demo_start (steps_none _ _)); [cbn; lia|].
  cbn [allowed_run demo_ops allowed_op allowed]. unfold timer_port, TIMER_PORT_START, TIMER_PORT_END. repeat split; try lia; discriminate.
Qed.

Definition demo_unit : COUNTER_UNIT := default blank (timers demo_state !! 0%nat).


Lemma latched_count_whole_witness :
  exists u1 s1 lsb s3 msb s5, run_op (Access (Out 0x43 0)) demo_state = Ret (E := unit) 0 s1
  /\ run_op (Access (In 0x40)) s1 = Ret (E := unit) lsb s3 /\ run_op (Access (In 0x40)) s3 = Ret (E := unit) msb s5 /\ lsb + 256 * msb = count_read u1.
Proof.
  destruct (latched_count_whole (E := unit) 0 demo_boot demo_start 4 demo_state demo_unit eq_refl demo_started demo_steps) as (s' & u1 & s1 & _ & _ & E1 & H1).
  - lia.
  - lia.
  - vm_compute. reflexivity.
  - vm_compute. reflexivity.
  - vm_compute. reflexivity.
  - destruct (H1 0%nat s1 (steps_none _ s1) ltac:(lia)) as (lsb & s3 & E3 & H3). destruct (H3 0%nat s3 (steps_none _ s3) ltac:(lia)) as (msb & s5 & E5 & HC).
    exists u1, s1, lsb, s3, msb, s5. auto.
Defined.


(** ** Where it goes wrong *)

(** A one-shot on counter 2 that has run out.  Its gate falls between the two bytes of
    the next count: the counter then waits for its gate with no state to go to, and when
    the gate opens it has a null pointer for its state function. *)
Definition one_shot : list op :=
  [Access (GateTo 0x42 GATE_SIGNAL_RISE); Access (Out 0x43 0xb2); Access (Out 0x42 2); Access (Out 0x42 0); Tick;
   Access (Out 0x42 2); Access (GateTo 0x42 GATE_SIGNAL_LOW); Access (Out 0x42 0); Access (GateTo 0x42 GATE_SIGNAL_RISE)].

Definition is_undefined {E St A} (o : outcome E St A) : bool := match o with Undefined => true | _ => false end.
Definition value {E St A} (o : outcome E St A) : option A := match o with Ret a _ => Some a | _ => None end.

Lemma one_shot_derailed :
  (state <$> timers (fold_left run_one one_shot demo_start) !! 2%nat) = Some None
  /\ is_undefined (run_op (E := unit) (Access (Out 0x42 2)) (fold_left run_one one_shot demo_start)) = true.
Proof. split; vm_compute; reflexivity. Qed.

(** A rate generator with the longest period, brought up to date when exactly 65536 clocks
    have passed, and again ten milliseconds (11930 clocks) later.  The count is 0 at the
    first update, the clocks since the wrap are taken to be 65536, and the second update
    counts the same period again. *)
Definition long_period : pit (Z * Z) :=
  SET_timers [SET_m RATE_GEN (fresh_unit 0 IdealTime); fresh_unit 0 HostSysTime; fresh_unit 0 HostSysTime] demo_start.
Definition two_updates : M unit (pit (Z * Z)) (Z * Z) :=
  a <- updateCount 0x10000 (mkTime 1 100000) ;;
  first <- cur activationTime ;;
  b <- updateCount (clocks_between first (mkTime 1 110000)) (mkTime 1 110000) ;;
  ret (a, b).

Lemma exact_period_counts_twice : value (two_updates long_period) = Some (1, 1).
Proof. vm_compute. reflexivity. Qed.

(** A snapshot with a count of 0 to start from is accepted, and the next tick divides by
    zero. *)
Definition with_zero_count (st : softpc_device_pit_state) : softpc_device_pit_state :=
  match s_counter st with
  | c :: l =>
      mkSnapshot (mkSaved (s_mode c) (s_bcd c) (s_read_load c) (s_state c) (s_state_prior_wait c) (s_state_on_gate c) (s_action_on_wait_complete c)
        (s_action_on_gate_enabled c) (s_output_lsb c) (s_output_msb c) (s_latch_value_lsb c) (s_latch_value_msb c) (s_latch_status c) 0 (s_read_state c)
        (s_count_latched c) (s_count c) (s_new_count c) (s_tick_adjust c) (s_activation_age_microseconds c) (s_terminal_count c) (s_freeze_counter c)
        (s_last_ticks c) (s_microtick c) (s_time_frig c) (s_saved_count c) (s_guesses_per_host_tick c) (s_guesses_so_far c) (s_delay c) (s_trigger c)
        (s_gate c) (s_clock c) (s_waveform c) :: l)
        (s_current_counter st) (s_ticks_blocked st) (s_timer_interrupt_enabled st) (s_time_lock st) (s_need_tick st) (s_hack_active st)
        (s_too_soon_after_previous st) (s_ticks_lost_this_time st) (s_real_mode_ticks_in_a_row st) (s_instructions_per_tick st)
        (s_adjusted_instructions_per_tick st) (s_real_mode_instruction_limit st) (s_adjusted_real_mode_tick_limit st) (s_maximum_backlog st)
        (s_more_timer_multiple st) (s_timer_multiple_delay st) (s_active_interrupt_event st)
  | [] => st
  end.

Definition restore_zero : M unit (pit (Z * Z)) bool :=
  st <- softpc_device_snapshot_capture_pit ;;
  match st with None => ret false | Some st => softpc_device_snapshot_restore_pit (with_zero_count st) end.

Lemma zero_count_accepted : value (restore_zero demo_state) = Some true
  /\ is_undefined ((restore_zero ;; SWTMR_time_tick) demo_state) = true.
Proof. split; vm_compute; reflexivity. Qed.

End Timer.
