(* ===== verification/Cmos.v ===== *)
(** * The real time clock and the CMOS memory

    [base/system/cmos.c]: the sixty four bytes of the chip behind two ports, the clock
    registers with their four conversions, the alarm and the periodic interrupt, the
    power on test of the bytes with its checksum, their text in the configuration and
    the snapshot; [base/bios/cmos_bis.c]: the BIOS reading and writing them through the
    ports and setting the time of day; [base/system/timestrb.c]: what the host's alarm
    does; [host_localtime] of [compat/platform.c].

    The state is the world of the scheduler of quick and tick events, so that the alarm
    and the periodic interrupt are events of its queues; the functions of this file that
    events call are reached through [Callbacks].  The ports go over the bus of [Ios].
    The interrupt controller, the host's clock, the machine's configuration and guest
    memory are the classes [Env] and [Config].  An access beyond an array, a null pointer
    and a conversion that has not been chosen are undefined; [long] has 32 bits and
    signed arithmetic wraps. *)

From Stdlib Require Import ZifyBool Ascii.
From S2P Require Import Prelude Cpu Arith Shift Xcptn MulDiv Mem Tlb Ios Qev.

Module Cmos.
Import Qev.

Definition CMOS_PORT_START : Z := 0x70.
Definition CMOS_PORT_END : Z := 0x7f.
Definition CMOS_PORT : Z := 0x70.
Definition CMOS_DATA : Z := 0x71.
Definition CMOS_ADAPTOR : Z := 27.

Definition CMOS_SECONDS : Z := 0x0.
Definition CMOS_SEC_ALARM : Z := 0x1.
Definition CMOS_MINUTES : Z := 0x2.
Definition CMOS_MIN_ALARM : Z := 0x3.
Definition CMOS_HOURS : Z := 0x4.
Definition CMOS_HR_ALARM : Z := 0x5.
Definition CMOS_DAY_WEEK : Z := 0x6.
Definition CMOS_DAY_MONTH : Z := 0x7.
Definition CMOS_MONTH : Z := 0x8.
Definition CMOS_YEAR : Z := 0x9.
Definition CMOS_REG_A : Z := 0xa.
Definition CMOS_REG_B : Z := 0xb.
Definition CMOS_REG_C : Z := 0xc.
Definition CMOS_REG_D : Z := 0xd.
Definition CMOS_DIAG : Z := 0xe.
Definition CMOS_SHUT_DOWN : Z := 0xf.
Definition CMOS_DISKETTE : Z := 0x10.
Definition CMOS_DISK : Z := 0x12.
Definition CMOS_EQUIP : Z := 0x14.
Definition CMOS_B_M_S_LO : Z := 0x15.
Definition CMOS_B_M_S_HI : Z := 0x16.
Definition CMOS_E_M_S_LO : Z := 0x17.
Definition CMOS_E_M_S_HI : Z := 0x18.
Definition CMOS_CKSUM_HI : Z := 0x2e.
Definition CMOS_CKSUM_LO : Z := 0x2f.
Definition CMOS_U_M_S_LO : Z := 0x30.
Definition CMOS_U_M_S_HI : Z := 0x31.
Definition CMOS_CENTURY : Z := 0x32.
Definition CMOS_SIZE : Z := 64.

Definition VRT : Z := 0x80.
Definition REG_D_INIT : Z := VRT.
Definition C_IRQF : Z := 0x80.
Definition C_PF : Z := 0x40.
Definition C_AF : Z := 0x20.
Definition C_UF : Z := 0x10.
Definition C_CLEAR : Z := 0x00.
Definition SET : Z := 0x80.
Definition PIE : Z := 0x40.
Definition AIE : Z := 0x20.
Definition UIE : Z := 0x10.
Definition DM : Z := 0x04.
Definition _24_HR : Z := 0x02.
Definition UIP : Z := 0x80.
Definition REG_A_INIT : Z := 0x26.
Definition RATE : Z := 0x0f.
Definition CMOS_CLK_FAIL : Z := 0x04.
Definition TWO_DRIVES : Z := 0x40.
Definition OWN_BIOS : Z := 0x0.
Definition CGA_80_COLUMN : Z := 0x20.
Definition MDA_PRINTER : Z := 0x30.
Definition CO_PROCESSOR_PRESENT : Z := 0x02.
Definition DISKETTE_PRESENT : Z := 0x01.
Definition DIAG_INIT : Z := 0x0.
Definition SHUT_INIT : Z := 0x0.
Definition BM_LO_INIT : Z := 0x80.
Definition BM_HI_INIT : Z := 0x02.
Definition CMOS_ADDR_MASK : Z := 0x3f.
Definition CMOS_BIT_MASK : Z := 0x71.
Definition NMI_DISABLE : Z := 0x80.
Definition TOP_BIT : Z := 0x80.
Definition REST : Z := 0x7f.
Definition DONT_CARE : Z := 0xc0.
Definition PC_MEM_SIZE : Z := 0x100000.

Definition BAD_SHUT_DOWN : Z := 0x01.
Definition BAD_REG_D : Z := 0x02.
Definition BAD_DIAG : Z := 0x04.
Definition BAD_EQUIP : Z := 0x08.
Definition BAD_FLOPPY : Z := 0x10.
Definition BAD_DISK : Z := 0x20.
Definition BAD_BMS : Z := 0x40.
Definition BAD_XMS : Z := 0x80.
Definition BAD_CHECKSUM : Z := 0x100.

Definition TIMER_LOW : Z := 0x46c.
Definition TIMER_HIGH : Z := 0x46e.
Definition TIMER_OVFL : Z := 0x470.

Definition C_CONFIG_OP_OK : Z := 0.
Definition EG_BAD_VALUE : Z := 12.

Definition SOFTPC_DEVICE_QUEUE_RTC_PERIODIC : Z := 3.
Definition SOFTPC_DEVICE_QUEUE_RTC_ALARM : Z := 4.
Definition SOFTPC_DEVICE_QUEUE_RTC_SYNC : Z := 5.

(** ** State *)

(** Which of two functions a pointer holds: the conversion or the identity. *)
Inductive conversion := yes | no.

Record host_tm := mkTm {
  tm_sec : Z;
  tm_min : Z;
  tm_hour : Z;
  tm_mday : Z;
  tm_mon : Z;
  tm_year : Z;
  tm_wday : Z;
  tm_yday : Z;
  tm_isdst : Z
}.

Definition SET_tm_sec (x : Z) (r : host_tm) : host_tm :=
  mkTm x (tm_min r) (tm_hour r) (tm_mday r) (tm_mon r) (tm_year r) (tm_wday r) (tm_yday r) (tm_isdst r).
Definition SET_tm_min (x : Z) (r : host_tm) : host_tm :=
  mkTm (tm_sec r) x (tm_hour r) (tm_mday r) (tm_mon r) (tm_year r) (tm_wday r) (tm_yday r) (tm_isdst r).
Definition SET_tm_hour (x : Z) (r : host_tm) : host_tm :=
  mkTm (tm_sec r) (tm_min r) x (tm_mday r) (tm_mon r) (tm_year r) (tm_wday r) (tm_yday r) (tm_isdst r).
Definition SET_tm_mday (x : Z) (r : host_tm) : host_tm :=
  mkTm (tm_sec r) (tm_min r) (tm_hour r) x (tm_mon r) (tm_year r) (tm_wday r) (tm_yday r) (tm_isdst r).
Definition SET_tm_mon (x : Z) (r : host_tm) : host_tm :=
  mkTm (tm_sec r) (tm_min r) (tm_hour r) (tm_mday r) x (tm_year r) (tm_wday r) (tm_yday r) (tm_isdst r).
Definition SET_tm_year (x : Z) (r : host_tm) : host_tm :=
  mkTm (tm_sec r) (tm_min r) (tm_hour r) (tm_mday r) (tm_mon r) x (tm_wday r) (tm_yday r) (tm_isdst r).
Definition SET_tm_wday (x : Z) (r : host_tm) : host_tm :=
  mkTm (tm_sec r) (tm_min r) (tm_hour r) (tm_mday r) (tm_mon r) (tm_year r) x (tm_yday r) (tm_isdst r).
Definition SET_tm_yday (x : Z) (r : host_tm) : host_tm :=
  mkTm (tm_sec r) (tm_min r) (tm_hour r) (tm_mday r) (tm_mon r) (tm_year r) (tm_wday r) x (tm_isdst r).
Definition SET_tm_isdst (x : Z) (r : host_tm) : host_tm :=
  mkTm (tm_sec r) (tm_min r) (tm_hour r) (tm_mday r) (tm_mon r) (tm_year r) (tm_wday r) (tm_yday r) x.

(** The variables of the module.  [cmos_register] is the index it points at; [ht] whether
    the pointer is set, as all it can point at is [result], the structure of
    [host_localtime]; [alarm_handle] the static of [set_alarm]; [cmos_string] the text of
    the configuration. *)
Record rtc (W : Type) := mkRtc {
  cmos : list Z;
  cmos_index : Z;
  cmos_register : Z;
  data_mode_yes : bool;
  twenty4_hour_clock : bool;
  bin2bcd : option conversion;
  bcd2bin : option conversion;
  _24to12 : option conversion;
  _12to24 : option conversion;
  reset_alarm : bool;
  user_time : Z;
  ht : bool;
  result : host_tm;
  rtc_period_mSeconds : Z;
  rtc_periodic_event_handle : Z;
  rtc_int_enabled : Z;
  cmos_count : Z;
  alarm_handle : Z;
  cmos_string : list ascii;
  bus : Ios.ios;
  machine : W
}.
Arguments mkRtc {W} _ _ _ _ _ _ _ _ _ _ _ _ _ _ _ _ _ _ _ _ _.
Arguments cmos {W} _.
Arguments cmos_index {W} _.
Arguments cmos_register {W} _.
Arguments data_mode_yes {W} _.
Arguments twenty4_hour_clock {W} _.
Arguments bin2bcd {W} _.
Arguments bcd2bin {W} _.
Arguments _24to12 {W} _.
Arguments _12to24 {W} _.
Arguments reset_alarm {W} _.
Arguments user_time {W} _.
Arguments ht {W} _.
Arguments result {W} _.
Arguments rtc_period_mSeconds {W} _.
Arguments rtc_periodic_event_handle {W} _.
Arguments rtc_int_enabled {W} _.
Arguments cmos_count {W} _.
Arguments alarm_handle {W} _.
Arguments cmos_string {W} _.
Arguments bus {W} _.
Arguments machine {W} _.

Definition SET_cmos {W} (x : list Z) (r : rtc W) : rtc W :=
  mkRtc x (cmos_index r) (cmos_register r) (data_mode_yes r) (twenty4_hour_clock r) (bin2bcd r) (bcd2bin r) (_24to12 r) (_12to24 r) (reset_alarm r) (user_time r) (ht r) (result r) (rtc_period_mSeconds r) (rtc_periodic_event_handle r) (rtc_int_enabled r) (cmos_count r) (alarm_handle r) (cmos_string r) (bus r) (machine r).
Definition SET_cmos_index {W} (x : Z) (r : rtc W) : rtc W :=
  mkRtc (cmos r) x (cmos_register r) (data_mode_yes r) (twenty4_hour_clock r) (bin2bcd r) (bcd2bin r) (_24to12 r) (_12to24 r) (reset_alarm r) (user_time r) (ht r) (result r) (rtc_period_mSeconds r) (rtc_periodic_event_handle r) (rtc_int_enabled r) (cmos_count r) (alarm_handle r) (cmos_string r) (bus r) (machine r).
Definition SET_cmos_register {W} (x : Z) (r : rtc W) : rtc W :=
  mkRtc (cmos r) (cmos_index r) x (data_mode_yes r) (twenty4_hour_clock r) (bin2bcd r) (bcd2bin r) (_24to12 r) (_12to24 r) (reset_alarm r) (user_time r) (ht r) (result r) (rtc_period_mSeconds r) (rtc_periodic_event_handle r) (rtc_int_enabled r) (cmos_count r) (alarm_handle r) (cmos_string r) (bus r) (machine r).
Definition SET_data_mode_yes {W} (x : bool) (r : rtc W) : rtc W :=
  mkRtc (cmos r) (cmos_index r) (cmos_register r) x (twenty4_hour_clock r) (bin2bcd r) (bcd2bin r) (_24to12 r) (_12to24 r) (reset_alarm r) (user_time r) (ht r) (result r) (rtc_period_mSeconds r) (rtc_periodic_event_handle r) (rtc_int_enabled r) (cmos_count r) (alarm_handle r) (cmos_string r) (bus r) (machine r).
Definition SET_twenty4_hour_clock {W} (x : bool) (r : rtc W) : rtc W :=
  mkRtc (cmos r) (cmos_index r) (cmos_register r) (data_mode_yes r) x (bin2bcd r) (bcd2bin r) (_24to12 r) (_12to24 r) (reset_alarm r) (user_time r) (ht r) (result r) (rtc_period_mSeconds r) (rtc_periodic_event_handle r) (rtc_int_enabled r) (cmos_count r) (alarm_handle r) (cmos_string r) (bus r) (machine r).
Definition SET_bin2bcd {W} (x : option conversion) (r : rtc W) : rtc W :=
  mkRtc (cmos r) (cmos_index r) (cmos_register r) (data_mode_yes r) (twenty4_hour_clock r) x (bcd2bin r) (_24to12 r) (_12to24 r) (reset_alarm r) (user_time r) (ht r) (result r) (rtc_period_mSeconds r) (rtc_periodic_event_handle r) (rtc_int_enabled r) (cmos_count r) (alarm_handle r) (cmos_string r) (bus r) (machine r).
Definition SET_bcd2bin {W} (x : option conversion) (r : rtc W) : rtc W :=
  mkRtc (cmos r) (cmos_index r) (cmos_register r) (data_mode_yes r) (twenty4_hour_clock r) (bin2bcd r) x (_24to12 r) (_12to24 r) (reset_alarm r) (user_time r) (ht r) (result r) (rtc_period_mSeconds r) (rtc_periodic_event_handle r) (rtc_int_enabled r) (cmos_count r) (alarm_handle r) (cmos_string r) (bus r) (machine r).
Definition SET__24to12 {W} (x : option conversion) (r : rtc W) : rtc W :=
  mkRtc (cmos r) (cmos_index r) (cmos_register r) (data_mode_yes r) (twenty4_hour_clock r) (bin2bcd r) (bcd2bin r) x (_12to24 r) (reset_alarm r) (user_time r) (ht r) (result r) (rtc_period_mSeconds r) (rtc_periodic_event_handle r) (rtc_int_enabled r) (cmos_count r) (alarm_handle r) (cmos_string r) (bus r) (machine r).
Definition SET__12to24 {W} (x : option conversion) (r : rtc W) : rtc W :=
  mkRtc (cmos r) (cmos_index r) (cmos_register r) (data_mode_yes r) (twenty4_hour_clock r) (bin2bcd r) (bcd2bin r) (_24to12 r) x (reset_alarm r) (user_time r) (ht r) (result r) (rtc_period_mSeconds r) (rtc_periodic_event_handle r) (rtc_int_enabled r) (cmos_count r) (alarm_handle r) (cmos_string r) (bus r) (machine r).
Definition SET_reset_alarm {W} (x : bool) (r : rtc W) : rtc W :=
  mkRtc (cmos r) (cmos_index r) (cmos_register r) (data_mode_yes r) (twenty4_hour_clock r) (bin2bcd r) (bcd2bin r) (_24to12 r) (_12to24 r) x (user_time r) (ht r) (result r) (rtc_period_mSeconds r) (rtc_periodic_event_handle r) (rtc_int_enabled r) (cmos_count r) (alarm_handle r) (cmos_string r) (bus r) (machine r).
Definition SET_user_time {W} (x : Z) (r : rtc W) : rtc W :=
  mkRtc (cmos r) (cmos_index r) (cmos_register r) (data_mode_yes r) (twenty4_hour_clock r) (bin2bcd r) (bcd2bin r) (_24to12 r) (_12to24 r) (reset_alarm r) x (ht r) (result r) (rtc_period_mSeconds r) (rtc_periodic_event_handle r) (rtc_int_enabled r) (cmos_count r) (alarm_handle r) (cmos_string r) (bus r) (machine r).
Definition SET_ht {W} (x : bool) (r : rtc W) : rtc W :=
  mkRtc (cmos r) (cmos_index r) (cmos_register r) (data_mode_yes r) (twenty4_hour_clock r) (bin2bcd r) (bcd2bin r) (_24to12 r) (_12to24 r) (reset_alarm r) (user_time r) x (result r) (rtc_period_mSeconds r) (rtc_periodic_event_handle r) (rtc_int_enabled r) (cmos_count r) (alarm_handle r) (cmos_string r) (bus r) (machine r).
Definition SET_result {W} (x : host_tm) (r : rtc W) : rtc W :=
  mkRtc (cmos r) (cmos_index r) (cmos_register r) (data_mode_yes r) (twenty4_hour_clock r) (bin2bcd r) (bcd2bin r) (_24to12 r) (_12to24 r) (reset_alarm r) (user_time r) (ht r) x (rtc_period_mSeconds r) (rtc_periodic_event_handle r) (rtc_int_enabled r) (cmos_count r) (alarm_handle r) (cmos_string r) (bus r) (machine r).
Definition SET_rtc_period_mSeconds {W} (x : Z) (r : rtc W) : rtc W :=
  mkRtc (cmos r) (cmos_index r) (cmos_register r) (data_mode_yes r) (twenty4_hour_clock r) (bin2bcd r) (bcd2bin r) (_24to12 r) (_12to24 r) (reset_alarm r) (user_time r) (ht r) (result r) x (rtc_periodic_event_handle r) (rtc_int_enabled r) (cmos_count r) (alarm_handle r) (cmos_string r) (bus r) (machine r).
Definition SET_rtc_periodic_event_handle {W} (x : Z) (r : rtc W) : rtc W :=
  mkRtc (cmos r) (cmos_index r) (cmos_register r) (data_mode_yes r) (twenty4_hour_clock r) (bin2bcd r) (bcd2bin r) (_24to12 r) (_12to24 r) (reset_alarm r) (user_time r) (ht r) (result r) (rtc_period_mSeconds r) x (rtc_int_enabled r) (cmos_count r) (alarm_handle r) (cmos_string r) (bus r) (machine r).
Definition SET_rtc_int_enabled {W} (x : Z) (r : rtc W) : rtc W :=
  mkRtc (cmos r) (cmos_index r) (cmos_register r) (data_mode_yes r) (twenty4_hour_clock r) (bin2bcd r) (bcd2bin r) (_24to12 r) (_12to24 r) (reset_alarm r) (user_time r) (ht r) (result r) (rtc_period_mSeconds r) (rtc_periodic_event_handle r) x (cmos_count r) (alarm_handle r) (cmos_string r) (bus r) (machine r).
Definition SET_cmos_count {W} (x : Z) (r : rtc W) : rtc W :=
  mkRtc (cmos r) (cmos_index r) (cmos_register r) (data_mode_yes r) (twenty4_hour_clock r) (bin2bcd r) (bcd2bin r) (_24to12 r) (_12to24 r) (reset_alarm r) (user_time r) (ht r) (result r) (rtc_period_mSeconds r) (rtc_periodic_event_handle r) (rtc_int_enabled r) x (alarm_handle r) (cmos_string r) (bus r) (machine r).
Definition SET_alarm_handle {W} (x : Z) (r : rtc W) : rtc W :=
  mkRtc (cmos r) (cmos_index r) (cmos_register r) (data_mode_yes r) (twenty4_hour_clock r) (bin2bcd r) (bcd2bin r) (_24to12 r) (_12to24 r) (reset_alarm r) (user_time r) (ht r) (result r) (rtc_period_mSeconds r) (rtc_periodic_event_handle r) (rtc_int_enabled r) (cmos_count r) x (cmos_string r) (bus r) (machine r).
Definition SET_cmos_string {W} (x : list ascii) (r : rtc W) : rtc W :=
  mkRtc (cmos r) (cmos_index r) (cmos_register r) (data_mode_yes r) (twenty4_hour_clock r) (bin2bcd r) (bcd2bin r) (_24to12 r) (_12to24 r) (reset_alarm r) (user_time r) (ht r) (result r) (rtc_period_mSeconds r) (rtc_periodic_event_handle r) (rtc_int_enabled r) (cmos_count r) (alarm_handle r) x (bus r) (machine r).
Definition SET_bus {W} (x : Ios.ios) (r : rtc W) : rtc W :=
  mkRtc (cmos r) (cmos_index r) (cmos_register r) (data_mode_yes r) (twenty4_hour_clock r) (bin2bcd r) (bcd2bin r) (_24to12 r) (_12to24 r) (reset_alarm r) (user_time r) (ht r) (result r) (rtc_period_mSeconds r) (rtc_periodic_event_handle r) (rtc_int_enabled r) (cmos_count r) (alarm_handle r) (cmos_string r) x (machine r).
Definition SET_machine {W} (x : W) (r : rtc W) : rtc W :=
  mkRtc (cmos r) (cmos_index r) (cmos_register r) (data_mode_yes r) (twenty4_hour_clock r) (bin2bcd r) (bcd2bin r) (_24to12 r) (_12to24 r) (reset_alarm r) (user_time r) (ht r) (result r) (rtc_period_mSeconds r) (rtc_periodic_event_handle r) (rtc_int_enabled r) (cmos_count r) (alarm_handle r) (cmos_string r) (bus r) x.

(** The equipment: the adapter, as a [SHORT], the coprocessor, whether a first floppy
    is named, the types of floppies and of fixed disks, and the bytes of memory. *)
Class Config := {
  gfx_adapter : Z;
  npx_enabled : bool;
  floppy_a_device : bool;
  gfi_drive_type : Z -> Z;
  fixed_disk_type : Z;
  sas_memory_size : Z
}.

(** The rest of the machine.  [others] are the devices on the bus, [unset] the value of a
    variable nothing was stored in. *)
Class Env (E W : Type) := {
  ica_hw_interrupt : M E (sched (rtc W)) unit;
  time_of_host : M E (sched (rtc W)) Z;
  localtime : Z -> M E (sched (rtc W)) (option host_tm);
  sas_store : Z -> Z -> M E (sched (rtc W)) unit;
  sas_storew : Z -> Z -> M E (sched (rtc W)) unit;
  biosDoInst : Z -> Z -> Z -> Z -> Z -> M E (sched (rtc W)) Z;
  selectors : sched (rtc W) -> option Z;
  others : Ios.Adapters E (sched (rtc W));
  unset : Z
}.

(** ** Conversions *)

Definition yes_bin2bcd (x : Z) : Z :=
  let tens := u8 (Z.quot x 10) in
  let units := u8 (x - tens * 10) in
  u8 ((tens .<< 4) + units).
Definition no_bin2bcd (x : Z) : Z := u8 x.
Definition yes_bcd2bin (x : Z) : Z := (x .& 0x0f) + (x .>> 4) * 10.
Definition no_bcd2bin (x : Z) : Z := u8 x.
Definition no_12to24 (x : Z) : Z := x.
Definition no_24to12 (x : Z) : Z := x.

(** [y] is twelve in the form of [bin2bcd]. *)
Definition yes_24to12 (y x : Z) : Z :=
  if y <? x then u8 ((x - y) .| 0x80)
  else if x =? 0 then u8 (y .| 0x80)
  else x.
Definition yes_12to24 (y x : Z) : Z :=
  if x =? 0x80 + y then 0
  else if negb (x .& 0x80 =? 0) then (x .& 0x7f) + y
  else x.

(** The interrupt rates, in microseconds. *)
Definition pirUsec : list Z :=
  [0; 3906; 7812; 122; 244; 488; 976; 1953; 3906; 7812; 15625; 31250; 62500; 125000; 250000; 500000].

(** The bytes the checksum is of. *)
Definition checksum_of (c : list Z) : Z := fold_left (fun a x => u16 (a + x)) (take 30 (drop 16 c)) 0.

Section Chip.
Context {E W : Type} `{HasCpu W} `{Config} `{Env E W} `{Callbacks E (rtc W)} (fuel : nat).
Abbreviation X := (M E (sched (rtc W))).

Definition getr {A} (f : rtc W -> A) : X A := gets (fun s => f (world s)).
Definition modr (f : rtc W -> rtc W) : X unit := modify (fun s => SET_world (f (world s)) s).

(** [cmos[i]] *)
Definition rd (i : Z) : X Z :=
  c <- getr cmos ;;
  match c !! Z.to_nat i with Some b => ret b | None => undefined end.
Definition wr (i v : Z) : X unit :=
  c <- getr cmos ;;
  if i <? Z.of_nat (length c) then modr (SET_cmos (<[Z.to_nat i := u8 v]> c)) else undefined.
(** [*cmos_register] *)
Definition rd_register : X Z := i <- getr cmos_register ;; rd i.
Definition wr_register (v : Z) : X unit := i <- getr cmos_register ;; wr i v.
(** [cmos[i] |= m], [&= ~m] and [^= m] *)
Definition or_byte (i m : Z) : X unit := b <- rd i ;; wr i (b .| m).
Definition clear_bits (i m : Z) : X unit := b <- rd i ;; wr i (b .& Z.lnot m).
Definition xor_byte (i m : Z) : X unit := b <- rd i ;; wr i (b .^ m).
Definition test (i m : Z) : X bool := b <- rd i ;; ret (negb (b .& m =? 0)).

(** [ht->...] *)
Definition tm (f : host_tm -> Z) : X Z :=
  p <- getr ht ;; if p then getr (fun r => f (result r)) else undefined.
Definition set_tm (f : host_tm -> host_tm) : X unit :=
  p <- getr ht ;; if p then modr (fun r => SET_result (f (result r)) r) else undefined.

(** Calls through the four pointers. *)
Definition call_bin2bcd (x : Z) : X Z :=
  p <- getr bin2bcd ;;
  match p with None => undefined | Some yes => ret (yes_bin2bcd x) | Some no => ret (no_bin2bcd x) end.
Definition call_bcd2bin (x : Z) : X Z :=
  p <- getr bcd2bin ;;
  match p with None => undefined | Some yes => ret (yes_bcd2bin x) | Some no => ret (no_bcd2bin x) end.
Definition call_24to12 (x : Z) : X Z :=
  p <- getr _24to12 ;;
  match p with
  | None => undefined
  | Some yes => y <- call_bin2bcd 12 ;; ret (yes_24to12 y x)
  | Some no => ret (no_24to12 x)
  end.
Definition call_12to24 (x : Z) : X Z :=
  p <- getr _12to24 ;;
  match p with
  | None => undefined
  | Some yes => y <- call_bin2bcd 12 ;; ret (yes_12to24 y x)
  | Some no => ret (no_12to24 x)
  end.

(** The functions events call, by the identities the snapshot gives them. *)
Definition PERIODIC : Z := SOFTPC_DEVICE_QUEUE_RTC_PERIODIC.
Definition ALARM : Z := SOFTPC_DEVICE_QUEUE_RTC_ALARM.
Definition SYNC : Z := SOFTPC_DEVICE_QUEUE_RTC_SYNC.

(** ** Interrupts *)

Definition rtc_periodic_event (parm : Z) : X unit :=
  on <- test CMOS_REG_B PIE ;;
  if on then
    or_byte CMOS_REG_C (C_IRQF .| C_PF) ;;
    ica_hw_interrupt ;;
    t <- getr rtc_period_mSeconds ;;
    h <- add_q_event_t PERIODIC t 0 ;;
    modr (SET_rtc_periodic_event_handle h)
  else modr (SET_rtc_periodic_event_handle 0).

Definition change_pie (newPIE : bool) : X unit :=
  t <- getr rtc_period_mSeconds ;;
  if newPIE && negb (t =? 0) then
    h <- add_q_event_t PERIODIC t 0 ;;
    modr (SET_rtc_periodic_event_handle h)
  else
    h <- getr rtc_periodic_event_handle ;; delete_q_event fuel h.

Definition do_checksum : X unit :=
  c <- getr cmos ;;
  if Z.of_nat (length c) <? CMOS_CKSUM_HI then undefined else
  let checksum := checksum_of c in
  wr CMOS_CKSUM_LO (checksum .& 0xff) ;;
  wr CMOS_CKSUM_HI (checksum .>> 8).

Definition rtc_alarm (param : Z) : X unit :=
  or_byte CMOS_REG_C C_AF ;;
  on <- test CMOS_REG_B AIE ;;
  when on
    (or_byte CMOS_REG_C C_IRQF ;;
     e <- getr rtc_int_enabled ;;
     when (negb (e =? 0)) ica_hw_interrupt) ;;
  modr (SET_reset_alarm true).

(** The seconds until the alarm. *)
Definition alarm_in : X Z :=
  hr <- test CMOS_HR_ALARM DONT_CARE ;;
  if hr then
    min <- test CMOS_MIN_ALARM DONT_CARE ;;
    if min then
      sec <- test CMOS_SEC_ALARM DONT_CARE ;;
      ret (if sec then 1 else 60)
    else ret 3600
  else
    b <- rd CMOS_SEC_ALARM ;; sec <- call_bcd2bin b ;;
    b <- rd CMOS_MIN_ALARM ;; min <- call_bcd2bin b ;;
    b <- rd CMOS_HR_ALARM ;; h <- call_bcd2bin b ;; hour <- call_12to24 h ;;
    let alarm_secs := sec + min * 60 + hour * 3600 in
    now_sec <- tm tm_sec ;; now_min <- tm tm_min ;; now_hour <- tm tm_hour ;;
    let now_secs := s32 (now_sec + 60 * now_min + 3600 * now_hour) in
    let numsecs := s32 (alarm_secs - now_secs) in
    ret (if numsecs <? 0 then numsecs + 24 * 3600 else numsecs).

Definition set_alarm : X unit :=
  numsecs <- alarm_in ;;
  let num_pc_ticks := 18 * numsecs in
  handle <- getr alarm_handle ;;
  when (0 <? handle) (delete_tic_event fuel handle) ;;
  h <- add_tic_event ALARM (u32 num_pc_ticks) 0 ;;
  modr (SET_alarm_handle (u16 h)).

(** ** The ports *)

(** The register of the clock that is selected, from the host's time. *)
Definition refresh (i : Z) : X unit :=
  if i =? CMOS_SECONDS then t <- tm tm_sec ;; b <- call_bin2bcd t ;; wr_register b
  else if i =? CMOS_MINUTES then t <- tm tm_min ;; b <- call_bin2bcd t ;; wr_register b
  else if i =? CMOS_HOURS then t <- tm tm_hour ;; b <- call_bin2bcd t ;; x <- call_24to12 b ;; wr_register x
  else if i =? CMOS_DAY_WEEK then t <- tm tm_wday ;; b <- call_bin2bcd (s32 (t + 1)) ;; wr_register b
  else if i =? CMOS_DAY_MONTH then t <- tm tm_mday ;; b <- call_bin2bcd t ;; wr_register b
  else if i =? CMOS_MONTH then t <- tm tm_mon ;; b <- call_bin2bcd (s32 (t + 1)) ;; wr_register b
  else if i =? CMOS_YEAR then t <- tm tm_year ;; b <- call_bin2bcd t ;; wr_register b
  else ret tt.

(** [value] is what the caller's variable holds. *)
Definition cmos_inb (port value : Z) : X Z :=
  if port .& CMOS_BIT_MASK =? CMOS_DATA then
    value <- rd_register ;;
    i <- getr cmos_index ;;
    if i =? CMOS_REG_A then clear_bits CMOS_REG_A UIP ;; ret value
    else if i =? CMOS_REG_C then wr_register C_CLEAR ;; ret value
    else if i <? CMOS_REG_A then
      refresh i ;; rd_register
    else ret value
  else ret value.

Definition write_reg_b (value : Z) : X unit :=
  d <- getr data_mode_yes ;;
  (if negb (value .& DM =? 0) then
     when d (modr (fun r => SET_data_mode_yes false (SET_bcd2bin (Some no) (SET_bin2bcd (Some no) r))))
   else
     when (negb d) (modr (fun r => SET_data_mode_yes true (SET_bcd2bin (Some yes) (SET_bin2bcd (Some yes) r))))) ;;
  t <- getr twenty4_hour_clock ;;
  (if negb (value .& _24_HR =? 0) then
     when (negb t) (modr (fun r => SET_twenty4_hour_clock true (SET__12to24 (Some no) (SET__24to12 (Some no) r))))
   else
     when t (modr (fun r => SET_twenty4_hour_clock false (SET__12to24 (Some yes) (SET__24to12 (Some yes) r))))) ;;
  b <- rd_register ;;
  when (negb (b =? value))
    (when (negb ((b .^ value) .& PIE =? 0)) (change_pie (negb (value .& PIE =? 0))) ;;
     wr_register value).

Definition write_reg_a (value : Z) : X unit :=
  b <- rd_register ;;
  wr_register ((b .& TOP_BIT) .| (value .& REST)) ;;
  b <- rd_register ;;
  match pirUsec !! Z.to_nat (b .& RATE) with
  | Some t => modr (SET_rtc_period_mSeconds t)
  | None => undefined
  end.

(** The guest's time against the host's. *)
Definition add_user_time (d : Z) : X unit := modr (fun r => SET_user_time (user_time r + s32 d) r).

Definition write_data (value : Z) : X unit :=
  i <- getr cmos_index ;;
  if (i =? CMOS_REG_C) || (i =? CMOS_REG_D) then ret tt
  else if i =? CMOS_REG_B then write_reg_b value
  else if i =? CMOS_REG_A then write_reg_a value
  else if i =? CMOS_SECONDS then
    b <- rd_register ;; wr_register ((b .& TOP_BIT) .| (value .& REST)) ;;
    v <- call_bcd2bin value ;; t <- tm tm_sec ;; add_user_time (v - t) ;;
    modr (SET_reset_alarm true)
  else if i =? CMOS_MINUTES then
    v <- call_bcd2bin value ;; t <- tm tm_min ;; add_user_time ((v - t) * 60) ;;
    wr_register value ;; modr (SET_reset_alarm true)
  else if i =? CMOS_HOURS then
    v <- call_bcd2bin value ;; v <- call_12to24 v ;; t <- tm tm_hour ;; add_user_time ((v - t) * 60 * 60) ;;
    wr_register value ;; modr (SET_reset_alarm true)
  else if i =? CMOS_DAY_WEEK then wr_register value
  else if i =? CMOS_DAY_MONTH then
    v <- call_bcd2bin value ;; t <- tm tm_mday ;; add_user_time ((v - t) * 60 * 60 * 24) ;; wr_register value
  else if i =? CMOS_MONTH then
    v <- call_bcd2bin value ;; t <- tm tm_mon ;; add_user_time ((v - 1 - t) * 60 * 60 * 24 * 30) ;; wr_register value
  else if i =? CMOS_YEAR then
    v <- call_bcd2bin value ;; t <- tm tm_year ;; add_user_time ((v - t) * 60 * 60 * 24 * 30 * 12) ;; wr_register value
  else
    when ((i =? CMOS_SEC_ALARM) || (i =? CMOS_MIN_ALARM) || (i =? CMOS_HR_ALARM)) (modr (SET_reset_alarm true)) ;;
    wr_register value.

Definition select_index (value : Z) : X unit :=
  modr (fun r => SET_cmos_register (value .& CMOS_ADDR_MASK) (SET_cmos_index (value .& CMOS_ADDR_MASK) r)).

Definition cmos_outb (port value : Z) : X unit :=
  let port := port .& CMOS_BIT_MASK in
  if port =? CMOS_PORT then select_index value
  else if port =? CMOS_DATA then write_data value
  else ret tt.

(** ** The clock *)

(** One second later. *)
Definition next_second (t : host_tm) : host_tm :=
  let t := SET_tm_sec (s32 (tm_sec t + 1)) t in
  if tm_sec t =? 60 then
    let t := SET_tm_min (s32 (tm_min t + 1)) (SET_tm_sec 0 t) in
    if tm_min t =? 60 then
      let t := SET_tm_hour (s32 (tm_hour t + 1)) (SET_tm_min 0 t) in
      if tm_hour t =? 25 then SET_tm_mday (s32 (tm_mday t + 1)) (SET_tm_hour 0 t) else t
    else t
  else t.

Definition rtc_tick : X unit :=
  n <- getr cmos_count ;;
  (if n =? 0 then
     on <- test CMOS_REG_B UIE ;;
     when on
       (or_byte CMOS_REG_C C_IRQF ;;
        e <- getr rtc_int_enabled ;;
        when (negb (e =? 0)) ica_hw_interrupt) ;;
     xor_byte CMOS_REG_C C_UF ;;
     or_byte CMOS_REG_A UIP
   else if n =? 1 then xor_byte CMOS_REG_C C_UF ;; clear_bits CMOS_REG_A UIP
   else if n =? 17 then
     setting <- test CMOS_REG_B SET ;;
     if setting then ret tt else set_tm next_second
   else ret tt) ;;
  modr (fun r => SET_cmos_count (Z.rem (cmos_count r + 1) 18) r) ;;
  h <- getr rtc_periodic_event_handle ;;
  on <- test CMOS_REG_B PIE ;;
  when ((h =? 0) && negb on) (xor_byte CMOS_REG_C C_PF) ;;
  a <- getr reset_alarm ;;
  when a (modr (SET_reset_alarm false) ;; set_alarm).

(** ** The bytes and the equipment *)

Definition display_mask : list Z := [MDA_PRINTER; CGA_80_COLUMN; CGA_80_COLUMN; OWN_BIOS; MDA_PRINTER].

(** The byte the equipment asks for; the adapter indexes the table. *)
Definition equip_byte : X Z :=
  mask <- (if gfx_adapter =? -1 then ret 0
           else if gfx_adapter <? 0 then undefined
           else match display_mask !! Z.to_nat gfx_adapter with Some m => ret m | None => undefined end) ;;
  let num_flops := if floppy_a_device then 1 else 0 in
  ret (mask .| (if npx_enabled then CO_PROCESSOR_PRESENT else 0)
            .| (if num_flops =? 2 then TWO_DRIVES else 0)
            .| (if num_flops =? 0 then 0 else DISKETTE_PRESENT)).
(** The difference, and the byte. *)
Definition verify_equip_byte : X (Z * Z) :=
  equip <- equip_byte ;; b <- rd CMOS_EQUIP ;; ret (equip .^ b, equip).

Definition cmos_equip_update : X unit :=
  let! (equip_err, equip) := verify_equip_byte ;;
  when (negb (equip_err =? 0)) (wr CMOS_EQUIP equip ;; do_checksum).

Definition cmos_write_byte (cmos_byte new_value : Z) : X Z :=
  if (0 <=? cmos_byte) && (cmos_byte <=? 64) then wr cmos_byte new_value ;; do_checksum ;; ret 0
  else ret 1.
(** The status, and the value where there is one. *)
Definition cmos_read_byte (cmos_byte : Z) : X (Z * option Z) :=
  if (0 <=? cmos_byte) && (cmos_byte <=? 64) then b <- rd cmos_byte ;; ret (0, Some b)
  else ret (1, None).

Definition cmos_clear_shutdown_byte : X unit := wr CMOS_SHUT_DOWN 0.

(** The bytes of the memory beyond the first megabyte, in units of 1K. *)
Definition extended_lo : Z := (u32 (sas_memory_size - PC_MEM_SIZE) .>> 10) .& 0xff.
Definition extended_hi : Z := (u32 (sas_memory_size - PC_MEM_SIZE) .>> 18) .& 0xff.

Definition cmos_error (err equip floppy disk : Z) : X unit :=
  let bad m := negb (err .& m =? 0) in
  when (bad BAD_SHUT_DOWN) (wr CMOS_SHUT_DOWN SHUT_INIT) ;;
  when (bad BAD_REG_D) (wr CMOS_REG_D REG_D_INIT) ;;
  when (bad BAD_DIAG) (wr CMOS_DIAG DIAG_INIT) ;;
  when (bad BAD_EQUIP) (wr CMOS_EQUIP equip) ;;
  when (bad BAD_FLOPPY) (wr CMOS_DISKETTE floppy) ;;
  when (bad BAD_DISK) (wr CMOS_DISK disk) ;;
  when (bad BAD_BMS) (wr CMOS_B_M_S_LO BM_LO_INIT ;; wr CMOS_B_M_S_HI BM_HI_INIT) ;;
  when (bad BAD_XMS) (wr CMOS_E_M_S_LO extended_lo ;; wr CMOS_E_M_S_HI extended_hi) ;;
  when (negb (err =? 0)) do_checksum.

(** ** Starting *)

(** [host_localtime] stores the host's fields in its structure and gives its address. *)
Definition host_localtime (clock : Z) : X bool :=
  t <- localtime clock ;;
  match t with None => ret false | Some t => modr (SET_result t) ;; ret true end.

Definition sync_rtc_to_host_time (param : Z) : X unit :=
  modr (SET_cmos_count 0) ;;
  bintim <- time_of_host ;;
  p <- host_localtime bintim ;;
  modr (SET_ht p) ;;
  t <- tm tm_sec ;; b <- call_bin2bcd t ;; wr CMOS_SECONDS b ;;
  t <- tm tm_min ;; b <- call_bin2bcd t ;; wr CMOS_MINUTES b ;;
  t <- tm tm_hour ;; b <- call_bin2bcd t ;; x <- call_24to12 b ;; wr CMOS_HOURS x ;;
  t <- tm tm_wday ;; b <- call_bin2bcd (s32 (t + 1)) ;; wr CMOS_DAY_WEEK b ;;
  t <- tm tm_mon ;; b <- call_bin2bcd (s32 (t + 1)) ;; wr CMOS_MONTH b ;;
  t <- tm tm_year ;; b <- call_bin2bcd t ;; wr CMOS_YEAR b ;;
  b <- call_bin2bcd 19 ;; wr CMOS_CENTURY b ;;
  add_tic_event SYNC 200 0 ;; ret tt.

Definition rtc_init : X unit :=
  modr (fun r => SET_data_mode_yes true (SET_bcd2bin (Some yes) (SET_bin2bcd (Some yes) r))) ;;
  modr (fun r => SET_twenty4_hour_clock true (SET__12to24 (Some no) (SET__24to12 (Some no) r))) ;;
  sync_rtc_to_host_time 0 ;;
  set_alarm.

#[local] Instance HasIos_rtc : Ios.HasIos (sched (rtc W)) :=
  {| Ios.the_ios s := bus (world s); Ios.put_ios b s := SET_world (SET_bus b (world s)) s;
     Ios.the_put_ios := fun _ _ => eq_refl |}.

Fixpoint connect (n : nat) (i : Z) : X unit :=
  match n with
  | O => ret tt
  | S n => Ios.io_connect_port i CMOS_ADAPTOR Ios.IO_READ_WRITE ;; connect n (u16 (i + 1))
  end.

Definition cmos_io_attach : X unit :=
  Ios.io_define_inb CMOS_ADAPTOR (Ios.dev CMOS_ADAPTOR) ;;
  Ios.io_define_outb CMOS_ADAPTOR (Ios.dev CMOS_ADAPTOR) ;;
  connect (Z.to_nat (CMOS_PORT_END - CMOS_PORT_START + 1)) CMOS_PORT_START.

Definition cmos_init : X unit :=
  cmos_io_attach ;;
  modr (SET_rtc_int_enabled 1) ;;
  rtc_init.

(** ** The BIOS at the ports *)

#[local] Instance HasCpu_rtc : HasCpu (sched (rtc W)).
Proof.
  refine {| the_cpu := fun s => the_cpu (machine (world s));
            put_cpu := fun c s => SET_world (SET_machine (put_cpu c (machine (world s))) (world s)) s |}.
  - intros c s. cbn. apply the_put.
  - intros s. rewrite put_the. destruct s as [? ? ? ? ? ? ? ? ? []]. reflexivity.
  - intros c c' s. cbn. rewrite put_put. reflexivity.
Defined.

#[local] Instance Adapters_rtc : Ios.Adapters E (sched (rtc W)) :=
  {| Ios.dev_inb id port := if id =? CMOS_ADAPTOR then cmos_inb port unset else @Ios.dev_inb _ _ others id port;
     Ios.dev_inw := @Ios.dev_inw _ _ others;
     Ios.dev_ind := @Ios.dev_ind _ _ others;
     Ios.dev_outb id port v := if id =? CMOS_ADAPTOR then cmos_outb port v else @Ios.dev_outb _ _ others id port v;
     Ios.dev_outw := @Ios.dev_outw _ _ others;
     Ios.dev_outd := @Ios.dev_outd _ _ others |}.

Definition bios_inb (port : Z) : X Z := Ios.inb biosDoInst selectors unset port.
Definition bios_outb (port value : Z) : X unit := Ios.outb biosDoInst selectors port value.

Definition cmos_read (table_address : Z) : X Z :=
  bios_outb CMOS_PORT (u8 (table_address .| NMI_DISABLE)) ;;
  value <- bios_inb CMOS_DATA ;;
  bios_outb CMOS_PORT (u8 (CMOS_SHUT_DOWN .| (table_address .& NMI_DISABLE))) ;;
  ret value.

Definition cmos_write (table_address value : Z) : X unit :=
  bios_outb CMOS_PORT (u8 (table_address .| NMI_DISABLE)) ;;
  bios_outb CMOS_DATA value ;;
  bios_outb CMOS_PORT (u8 (CMOS_SHUT_DOWN .| (table_address .& NMI_DISABLE))).

Definition BCD_TO_BIN (n : Z) : Z := (n .& 0x0f) + ((n .>> 4) .& 0x0f) * 10.

Definition clock_failed : X unit :=
  value <- cmos_read (CMOS_DIAG + NMI_DISABLE) ;;
  cmos_write (CMOS_DIAG + NMI_DISABLE) (value .| CMOS_CLK_FAIL).

Definition set_tod : X unit :=
  sas_storew TIMER_LOW 0 ;; sas_storew TIMER_HIGH 0 ;; sas_store TIMER_OVFL 0 ;;
  value <- cmos_read (CMOS_SECONDS + NMI_DISABLE) ;;
  if 0x59 <? value then clock_failed else
  let total := BCD_TO_BIN value * 73 / 4 in
  value <- cmos_read (CMOS_MINUTES + NMI_DISABLE) ;;
  if 0x59 <? value then clock_failed else
  let total := total + BCD_TO_BIN value * 2185 / 2 in
  value <- cmos_read (CMOS_HOURS + NMI_DISABLE) ;;
  if 0x23 <? value then clock_failed else
  let total := u32 (total + BCD_TO_BIN value * 65543) in
  sas_storew TIMER_LOW (u16 total) ;;
  sas_storew TIMER_HIGH (u16 (total .>> 16)).

(** ** The power on test *)

Definition floppy_byte : Z := u8 (gfi_drive_type 1 .| Z.shiftl (gfi_drive_type 0) 4).

(** What is wrong with the bytes, and the equipment byte. *)
Definition post_check : X (Z * Z) :=
  shut <- rd CMOS_SHUT_DOWN ;;
  d <- rd CMOS_REG_D ;;
  diag <- rd CMOS_DIAG ;;
  let! (equip_err, equip) := verify_equip_byte ;;
  flop <- rd CMOS_DISKETTE ;;
  disk <- rd CMOS_DISK ;;
  blo <- rd CMOS_B_M_S_LO ;; bhi <- rd CMOS_B_M_S_HI ;;
  elo <- rd CMOS_E_M_S_LO ;; ehi <- rd CMOS_E_M_S_HI ;;
  let bad (b : bool) m := if b then m else 0 in
  let cmos_err :=
    bad (negb (shut =? 0)) BAD_SHUT_DOWN
    .| bad (d .& VRT =? 0) BAD_REG_D
    .| bad (negb (diag =? 0)) BAD_DIAG
    .| bad (negb (equip_err =? 0)) BAD_EQUIP
    .| bad (negb (floppy_byte =? flop)) BAD_FLOPPY
    .| bad (negb (u8 fixed_disk_type =? disk)) BAD_DISK
    .| bad (negb (blo =? BM_LO_INIT) || negb (bhi =? BM_HI_INIT)) BAD_BMS
    .| bad (negb (elo =? extended_lo) || negb (ehi =? extended_hi)) BAD_XMS in
  c <- getr cmos ;;
  let checksum := checksum_of c in
  lo <- rd CMOS_CKSUM_LO ;; hi <- rd CMOS_CKSUM_HI ;;
  ret (cmos_err .| bad ((cmos_err =? 0) && (negb (checksum .& 0xff =? lo) || negb (checksum .>> 8 =? hi))) BAD_CHECKSUM,
       equip).

Definition cmos_post : X unit :=
  let! (cmos_err, equip) := post_check ;;
  when (negb (cmos_err =? 0)) (cmos_error cmos_err equip floppy_byte (u8 fixed_disk_type)) ;;
  wr CMOS_REG_A REG_A_INIT ;;
  set_tod ;;
  wr CMOS_U_M_S_LO extended_lo ;;
  wr CMOS_U_M_S_HI extended_hi ;;
  select_index CMOS_SHUT_DOWN.

(** ** The text of the bytes *)

Definition hex_digit (d : Z) : ascii := ascii_of_nat (Z.to_nat (if d <? 10 then 48 + d else 87 + d)).
(** ["%02x "] *)
Definition print_byte (b : Z) : list ascii := [hex_digit (b / 16); hex_digit (b mod 16); " "%char].

Definition cmos_update : X unit :=
  cmos_equip_update ;;
  modr (fun r => SET_cmos_string (flat_map print_byte (cmos r)) r).

Definition code (c : ascii) : Z := Z.of_nat (nat_of_ascii c).
Definition isspace (c : ascii) : bool := (code c =? 32) || (9 <=? code c) && (code c <=? 13).
Definition digit_of (c : ascii) : option Z :=
  let n := code c in
  if (48 <=? n) && (n <=? 57) then Some (n - 48)
  else if (97 <=? n) && (n <=? 102) then Some (n - 87)
  else if (65 <=? n) && (n <=? 70) then Some (n - 55)
  else None.

Fixpoint skip_spaces (l : list ascii) : list ascii :=
  match l with
  | [] => []
  | c :: l' => if isspace c then skip_spaces l' else l
  end.
Fixpoint digits (v : Z) (l : list ascii) : Z * list ascii :=
  match l with
  | [] => (v, [])
  | c :: l' => match digit_of c with Some d => digits (16 * v + d) l' | None => (v, l) end
  end.
(** At least one digit. *)
Definition digits1 (l : list ascii) : option (Z * list ascii) :=
  match l with
  | c :: l' => match digit_of c with Some d => Some (digits d l') | None => None end
  | [] => None
  end.
(** [0x] before the digits. *)
Definition strip_0x (l : list ascii) : list ascii :=
  match l with
  | z :: x :: l' => if (code z =? 48) && ((code x =? 120) || (code x =? 88)) then l' else l
  | _ => l
  end.
(** [sscanf] of [" %x%n"]: the [int] and what follows; a number beyond 32 bits is
    undefined. *)
Definition scan_hex (l : list ascii) : X (option (Z * list ascii)) :=
  let l := skip_spaces l in
  let '(negative, l) :=
    match l with
    | c :: l' => if code c =? 45 then (true, l') else if code c =? 43 then (false, l') else (false, l)
    | [] => (false, l)
    end in
  match digits1 (strip_0x l) with
  | None => ret None
  | Some (v, rest) =>
      if 2 ^ 32 <=? v then undefined else ret (Some (s32 (if negative : bool then - v else v), rest))
  end.

Fixpoint validate (n : nat) (i : Z) (strPtr : list ascii) : X Z :=
  match n with
  | O => ret C_CONFIG_OP_OK
  | S n =>
      r <- scan_hex strPtr ;;
      match r with
      | None => ret EG_BAD_VALUE
      | Some (value, strPtr) =>
          if 0xff <? value then ret EG_BAD_VALUE else wr i value ;; validate n (i + 1) strPtr
      end
  end.
Definition ValidateCmos (string : list ascii) : X Z := validate (Z.to_nat CMOS_SIZE) 0 string.

(** ** The host's alarm *)

(** [timer_video_enabled] and the two statics of [time_strobe] with what the function
    calls elsewhere. *)
Record strobe := mkStrobe { video_count : Z; video_off : bool }.

Definition VIDEO_COUNT_LIMIT : Z := 19.

Section Strobe.
Context (time_tick ica_check_stale_iret_hook screen_refresh_required host_clear_screen : X unit)
        (timer_video_enabled : X bool).

Definition time_strobe (st : strobe) : X strobe :=
  time_tick ;;
  rtc_tick ;;
  dispatch_tic_event fuel ;;
  ica_check_stale_iret_hook ;;
  on <- timer_video_enabled ;;
  if on then
    when (video_off st) screen_refresh_required ;; ret (mkStrobe 0 false)
  else
    let n := s32 (video_count st + 1) in
    if n =? VIDEO_COUNT_LIMIT then host_clear_screen ;; ret (mkStrobe n true)
    else ret (mkStrobe n (video_off st)).

End Strobe.

(** ** The snapshot *)

Definition softpc_device_snapshot_encode_cmos_callback (callback : Z) : option Z :=
  if callback =? PERIODIC then Some SOFTPC_DEVICE_QUEUE_RTC_PERIODIC
  else if callback =? ALARM then Some SOFTPC_DEVICE_QUEUE_RTC_ALARM
  else if callback =? SYNC then Some SOFTPC_DEVICE_QUEUE_RTC_SYNC
  else None.
Definition softpc_device_snapshot_decode_cmos_callback (callback_id : Z) : option Z :=
  if callback_id =? SOFTPC_DEVICE_QUEUE_RTC_PERIODIC then Some PERIODIC
  else if callback_id =? SOFTPC_DEVICE_QUEUE_RTC_ALARM then Some ALARM
  else if callback_id =? SOFTPC_DEVICE_QUEUE_RTC_SYNC then Some SYNC
  else None.

End Chip.

Record softpc_device_cmos_state := mkSaved {
  s_bytes : list Z;
  s_selected_index : Z;
  s_data_mode_yes : Z;
  s_twenty4_hour_clock : Z;
  s_reset_alarm : Z;
  s_rtc_int_enabled : Z;
  s_cmos_count : Z;
  s_host_time_valid : Z;
  s_host_time : list Z;
  s_user_time : Z;
  s_periodic_milliseconds : Z;
  s_periodic_event_handle : Z
}.

Definition tm_fields (t : host_tm) : list Z :=
  [tm_sec t; tm_min t; tm_hour t; tm_mday t; tm_mon t; tm_year t; tm_wday t; tm_yday t; tm_isdst t].

Definition softpc_device_snapshot_capture_cmos {W} (r : rtc W) : softpc_device_cmos_state :=
  mkSaved (cmos r) (cmos_index r) (Z.b2z (data_mode_yes r)) (Z.b2z (twenty4_hour_clock r)) (Z.b2z (reset_alarm r))
    (rtc_int_enabled r) (cmos_count r) (Z.b2z (ht r))
    (if ht r then tm_fields (result r) else repeat 0 9)
    (user_time r) (rtc_period_mSeconds r) (rtc_periodic_event_handle r).

Definition flag (x : Z) : bool := (x =? 0) || (x =? 1).

(** A refusal after the variables have been set leaves them. *)
Definition softpc_device_snapshot_restore_cmos {W} (st : softpc_device_cmos_state) (r : rtc W) : bool * rtc W :=
  if (s_selected_index st <? 0) || (CMOS_SIZE <=? s_selected_index st)
     || negb (flag (s_data_mode_yes st)) || negb (flag (s_twenty4_hour_clock st))
     || negb (flag (s_reset_alarm st)) || negb (flag (s_host_time_valid st))
     || (s_cmos_count st <? 0) || (18 <=? s_cmos_count st)
  then (false, r)
  else
    let d := negb (s_data_mode_yes st =? 0) in
    let h := negb (s_twenty4_hour_clock st =? 0) in
    let dp := Some (if d then yes else no) in
    let hp := Some (if h then no else yes) in
    let r' ht' res := mkRtc (s_bytes st) (s_selected_index st) (s_selected_index st) d h dp dp hp hp
      (negb (s_reset_alarm st =? 0)) (s_user_time st) ht' res (s_periodic_milliseconds st) (s_periodic_event_handle st)
      (s_rtc_int_enabled st) (s_cmos_count st) (alarm_handle r) (cmos_string r) (bus r) (machine r) in
    if s_host_time_valid st =? 0 then (true, r' false (result r))
    else if negb (ht r) then (false, r' false (result r))
    else match s_host_time st with
         | [a; b; c; d; e; f; g; h; i] => (true, r' true (mkTm a b c d e f g h i))
         | _ => (true, r' true (result r))
         end.

(** ** The functions of events

    An event of this module calls its function; the others are [rest].  A function runs
    with the calls it makes itself one deeper; [O] is where the host's stack ends. *)
Section Callbacks.
Context {E W : Type} `{HasCpu W} `{Config} `{Env E W}.
Context (rest : Callbacks E (rtc W)).

Fixpoint callbacks (depth : nat) : Callbacks E (rtc W) :=
  match depth with
  | O => {| call _ _ := undefined; action_interrupt _ _ _ _ := undefined |}
  | S depth =>
      {| call fn par :=
           if fn =? PERIODIC then @rtc_periodic_event E W _ (callbacks depth) par
           else if fn =? ALARM then rtc_alarm par
           else if fn =? SYNC then @sync_rtc_to_host_time E W _ (callbacks depth) par
           else @call _ _ rest fn par;
         action_interrupt := @action_interrupt _ _ rest |}
  end.

End Callbacks.


(** ** Runs on the chip alone *)

Section Runs.
Context {E W : Type}.
Abbreviation X := (M E (sched (rtc W))).

(** From any state with this chip, the computation gives the value and changes nothing
    but the chip. *)
Definition runs {A} (m : X A) (r : rtc W) (a : A) (r' : rtc W) : Prop :=
  forall s, world s = r -> m s = Ret a (SET_world r' s).

Lemma runs_ret {A} (a : A) r : runs (ret a) r a r.
Proof. intros s <-. destruct s; reflexivity. Qed.

Lemma runs_eq {A} (m : X A) r a r1 r2 : runs m r a r1 -> r1 = r2 -> runs m r a r2.
Proof. intros Hm <-. exact Hm. Qed.

Lemma runs_bind {A B} (m : X A) (k : A -> X B) r a r1 b r2 :
  runs m r a r1 -> runs (k a) r1 b r2 -> runs (bind m k) r b r2.
Proof. intros Hm Hk s Hs. unfold bind. rewrite (Hm s Hs), (Hk (SET_world r1 s) eq_refl). reflexivity. Qed.

Lemma runs_getr {A} (f : rtc W -> A) r : runs (getr f) r (f r) r.
Proof. intros s <-. destruct s; reflexivity. Qed.

Lemma runs_modr f r : runs (modr f) r tt (f r).
Proof. intros s <-. reflexivity. Qed.

Lemma runs_when (b : bool) (m : X unit) r r' : (b = true -> runs m r tt r') -> (b = false -> r' = r) -> runs (when b m) r tt r'.
Proof. destruct b; intros H1 H2; [apply H1; reflexivity|]. rewrite H2 by reflexivity. apply runs_ret. Qed.

Lemma runs_rd i b r : cmos r !! Z.to_nat i = Some b -> runs (rd i) r b r.
Proof. intros Hb. eapply runs_bind; [apply runs_getr|]. rewrite Hb. apply runs_ret. Qed.

Lemma runs_wr i v r : i < Z.of_nat (length (cmos r)) -> runs (wr i v) r tt (SET_cmos (<[Z.to_nat i := u8 v]> (cmos r)) r).
Proof.
  intros Hi. eapply runs_bind; [apply runs_getr|]. rewrite (proj2 (Z.ltb_lt _ _) Hi). apply (runs_modr (SET_cmos _)).
Qed.

Lemma runs_test i m b r : cmos r !! Z.to_nat i = Some b -> runs (test i m) r (negb (b .& m =? 0)) r.
Proof. intros Hb. eapply runs_bind; [apply runs_rd, Hb | apply runs_ret]. Qed.

Lemma runs_tm f r : ht r = true -> runs (tm f) r (f (result r)) r.
Proof. intros Hh. eapply runs_bind; [apply runs_getr|]. rewrite Hh. exact (runs_getr (fun r => f (result r)) r). Qed.

End Runs.

(** ** The chip the guest sees *)

(** What every state in use satisfies: the bytes, the selection, and the conversions that
    go with the modes. *)
Record rtc_ok {W} (r : rtc W) : Prop := {
  ok_len : length (cmos r) = 64%nat;
  ok_bytes : Forall (fun b => 0 <= b < 256) (cmos r);
  ok_index : 0 <= cmos_index r < 64;
  ok_register : cmos_register r = cmos_index r;
  ok_bin2bcd : bin2bcd r = Some (if data_mode_yes r then yes else no);
  ok_bcd2bin : bcd2bin r = Some (if data_mode_yes r then yes else no);
  ok_24to12 : _24to12 r = Some (if twenty4_hour_clock r then no else yes);
  ok_12to24 : _12to24 r = Some (if twenty4_hour_clock r then no else yes);
  ok_ht : ht r = true
}.

(** The abstract chip: registers, with no storage for the time, which is the host's; the
    two modes, and the selection. *)
Record chip := mkChip {
  regs : Z -> Z;
  clock : host_tm;
  bcd : bool;
  h24 : bool;
  sel : Z
}.

Definition number (c : chip) (x : Z) : Z := if bcd c then yes_bin2bcd x else u8 x.
Definition hours (c : chip) (x : Z) : Z := if h24 c then number c x else yes_24to12 (number c 12) (number c x).

(** The time in a register of the clock. *)
Definition time_register (c : chip) (i : Z) : option Z :=
  if i =? CMOS_SECONDS then Some (number c (tm_sec (clock c)))
  else if i =? CMOS_MINUTES then Some (number c (tm_min (clock c)))
  else if i =? CMOS_HOURS then Some (hours c (tm_hour (clock c)))
  else if i =? CMOS_DAY_WEEK then Some (number c (s32 (tm_wday (clock c) + 1)))
  else if i =? CMOS_DAY_MONTH then Some (number c (tm_mday (clock c)))
  else if i =? CMOS_MONTH then Some (number c (s32 (tm_mon (clock c) + 1)))
  else if i =? CMOS_YEAR then Some (number c (tm_year (clock c)))
  else None.

Definition set_reg (i v : Z) (c : chip) : chip :=
  mkChip (fun j => if j =? i then v else regs c j) (clock c) (bcd c) (h24 c) (sel c).

Inductive access := Out (port value : Z) | In (port : Z).

(** A port of the chip: where data goes, or where the selection goes. *)
Definition data_port (port : Z) : bool := port .& CMOS_BIT_MASK =? CMOS_DATA.
Definition index_port (port : Z) : bool := port .& CMOS_BIT_MASK =? CMOS_PORT.

Definition spec_read (c : chip) : Z * chip :=
  let i := sel c in
  match time_register c i with
  | Some v => (v, c)
  | None =>
      (regs c i,
       if i =? CMOS_REG_A then set_reg i (regs c i .& REST) c
       else if i =? CMOS_REG_C then set_reg i 0 c
       else c)
  end.

Definition spec_write (v : Z) (c : chip) : chip :=
  let i := sel c in
  match time_register c i with
  | Some _ => c
  | None =>
      if (i =? CMOS_REG_C) || (i =? CMOS_REG_D) then c
      else if i =? CMOS_REG_A then set_reg i ((regs c i .& TOP_BIT) .| (v .& REST)) c
      else
        let c := set_reg i v c in
        if i =? CMOS_REG_B then mkChip (regs c) (clock c) (v .& DM =? 0) (negb (v .& _24_HR =? 0)) (sel c) else c
  end.

Definition spec_access (a : access) (c : chip) : option Z * chip :=
  match a with
  | In port => if data_port port then let '(v, c) := spec_read c in (Some v, c) else (None, c)
  | Out port v =>
      (None,
       if index_port port then mkChip (regs c) (clock c) (bcd c) (h24 c) (v .& CMOS_ADDR_MASK)
       else if data_port port then spec_write v c
       else c)
  end.

(** A write that starts or stops the periodic interrupt. *)
Definition moves_pie (a : access) (c : chip) : bool :=
  match a with
  | Out port v =>
      negb (index_port port) && data_port port && (sel c =? CMOS_REG_B) && negb ((regs c CMOS_REG_B .^ v) .& PIE =? 0)
  | In _ => false
  end.

Fixpoint spec_accesses (l : list access) (c : chip) : list (option Z) * chip :=
  match l with
  | [] => ([], c)
  | a :: l => let '(v, c) := spec_access a c in let '(vs, c) := spec_accesses l c in (v :: vs, c)
  end.
Fixpoint leaves_pie (l : list access) (c : chip) : bool :=
  match l with
  | [] => true
  | a :: l => negb (moves_pie a c) && leaves_pie l (snd (spec_access a c))
  end.

Definition is_byte (a : access) : Prop := match a with Out _ v => 0 <= v < 256 | In _ => True end.

Section Ports.
Context {E W : Type} `{HasCpu W} `{Config} `{Env E W} `{Callbacks E (rtc W)} (fuel : nat).
Abbreviation X := (M E (sched (rtc W))).

(** What a read gives where it is not a read of the data port is the variable's. *)
Definition access_run (unassigned : Z) (a : access) : X (option Z) :=
  match a with
  | In port => v <- cmos_inb port unassigned ;; ret (if data_port port then Some v else None)
  | Out port v => cmos_outb fuel port v ;; ret None
  end.
Fixpoint accesses_run (unassigned : Z) (l : list access) : X (list (option Z)) :=
  match l with
  | [] => ret []
  | a :: l => v <- access_run unassigned a ;; vs <- accesses_run unassigned l ;; ret (v :: vs)
  end.

Record shows (c : chip) (r : rtc W) : Prop := {
  sh_ok : rtc_ok r;
  sh_clock : clock c = result r;
  sh_bcd : bcd c = data_mode_yes r;
  sh_h24 : h24 c = twenty4_hour_clock r;
  sh_sel : sel c = cmos_index r;
  sh_regs i : 0 <= i < 64 -> time_register c i = None -> cmos r !! Z.to_nat i = Some (regs c i)
}.

Lemma runs_to_bcd (r : rtc W) x : rtc_ok r -> runs (E := E) (call_bin2bcd x) r (if data_mode_yes r then yes_bin2bcd x else u8 x) r.
Proof.
  intros Hr. eapply runs_bind; [apply runs_getr|]. rewrite (ok_bin2bcd _ Hr). destruct (data_mode_yes r); apply runs_ret.
Qed.

Lemma runs_from_bcd (r : rtc W) x : rtc_ok r -> exists y, runs (E := E) (call_bcd2bin x) r y r.
Proof.
  intros Hr. exists (if data_mode_yes r then yes_bcd2bin x else no_bcd2bin x). eapply runs_bind; [apply runs_getr|].
  rewrite (ok_bcd2bin _ Hr). destruct (data_mode_yes r); apply runs_ret.
Qed.

Lemma runs_to_12 (r : rtc W) x : rtc_ok r ->
  runs (E := E) (call_24to12 x) r (if twenty4_hour_clock r then x else yes_24to12 (if data_mode_yes r then yes_bin2bcd 12 else u8 12) x) r.
Proof.
  intros Hr. eapply runs_bind; [apply runs_getr|]. rewrite (ok_24to12 _ Hr). destruct (twenty4_hour_clock r); [apply runs_ret|].
  eapply runs_bind; [apply runs_to_bcd, Hr | apply runs_ret].
Qed.

Lemma runs_to_24 (r : rtc W) x : rtc_ok r -> exists y, runs (E := E) (call_12to24 x) r y r.
Proof.
  intros Hr. eexists (if twenty4_hour_clock r then x else yes_12to24 _ x). eapply runs_bind; [apply runs_getr|].
  rewrite (ok_12to24 _ Hr). destruct (twenty4_hour_clock r); [apply runs_ret|].
  eapply runs_bind; [apply runs_to_bcd, Hr | apply runs_ret].
Qed.

Lemma byte_at (r : rtc W) i : rtc_ok r -> 0 <= i < 64 -> exists b, cmos r !! Z.to_nat i = Some b /\ 0 <= b < 256.
Proof.
  intros Hr Hi. destruct (lookup_lt_is_Some_2 (cmos r) (Z.to_nat i)) as [b Hb]; [rewrite (ok_len _ Hr); lia|].
  exists b. split; [exact Hb|]. exact (proj1 (Forall_lookup _ _) (ok_bytes _ Hr) _ _ Hb).
Qed.

Lemma ok_set_byte (r : rtc W) i v : rtc_ok r -> rtc_ok (SET_cmos (<[i := u8 v]> (cmos r)) r).
Proof.
  intros [HL HB HI HR]. split; try assumption; cbn [cmos SET_cmos]; [rewrite length_insert; exact HL|].
  apply Forall_insert; [exact HB|]. pose proof (u8_range v). lia.
Qed.

Lemma runs_rd_register (r : rtc W) b : rtc_ok r -> cmos r !! Z.to_nat (cmos_index r) = Some b -> runs (E := E) rd_register r b r.
Proof. intros Hr Hb. eapply runs_bind; [apply runs_getr|]. rewrite (ok_register _ Hr). apply runs_rd, Hb. Qed.

Lemma runs_wr_register (r : rtc W) v : rtc_ok r ->
  runs (E := E) (wr_register v) r tt (SET_cmos (<[Z.to_nat (cmos_index r) := u8 v]> (cmos r)) r).
Proof.
  intros Hr. eapply runs_bind; [apply runs_getr|]. rewrite (ok_register _ Hr). apply runs_wr. rewrite (ok_len _ Hr).
  pose proof (ok_index _ Hr). lia.
Qed.

(** *** One access *)

Lemma number_byte c x : 0 <= number c x < 256.
Proof. unfold number, yes_bin2bcd. destruct (bcd c); apply u8_range. Qed.

Lemma time_byte c i v : time_register c i = Some v -> 0 <= v < 256.
Proof.
  unfold time_register. repeat case_match; intros [= <-]; try apply number_byte. unfold hours, yes_24to12.
  pose proof (number_byte c (tm_hour (clock c))). repeat case_match; try apply u8_range; assumption.
Qed.

Lemma shows_time c r v w : shows c r -> time_register c (cmos_index r) = Some w ->
  shows c (SET_cmos (<[Z.to_nat (cmos_index r) := u8 v]> (cmos r)) r).
Proof.
  intros [HO HC HB HH HS HR] Ht. split; try assumption; [apply ok_set_byte, HO|].
  intros i Hi Hn. cbn [cmos SET_cmos]. rewrite list_lookup_insert_ne; [apply HR; assumption|].
  pose proof (ok_index _ HO). intros E1. apply Z2Nat.inj in E1; [|lia..]. congruence.
Qed.

Lemma shows_reg c r v : shows c r -> shows (set_reg (sel c) (u8 v) c) (SET_cmos (<[Z.to_nat (cmos_index r) := u8 v]> (cmos r)) r).
Proof.
  intros [HO HC HB HH HS HR]. split; try assumption; [apply ok_set_byte, HO|].
  intros i Hi Hn. cbn [cmos SET_cmos regs set_reg]. pose proof (ok_index _ HO). rewrite HS. destruct (Z.eqb_spec i (cmos_index r)) as [->|Hne].
  - rewrite list_lookup_insert_eq; [reflexivity | rewrite (ok_len _ HO); lia].
  - rewrite list_lookup_insert_ne; [apply HR; assumption | lia].
Qed.

Lemma number_run c r f (g : Z -> Z) : shows c r ->
  runs (E := E) (t <- tm f ;; b <- call_bin2bcd (g t) ;; wr_register b) r tt
    (SET_cmos (<[Z.to_nat (cmos_index r) := u8 (number c (g (f (clock c))))]> (cmos r)) r).
Proof.
  intros HS. pose proof (sh_ok _ _ HS) as HO. unfold number. rewrite (sh_bcd _ _ HS), (sh_clock _ _ HS).
  eapply runs_bind; [apply runs_tm, (ok_ht _ HO)|]. eapply runs_bind; [apply runs_to_bcd, HO|]. apply runs_wr_register, HO.
Qed.

(** A read of a register of the clock stores what it gives. *)
Lemma inb_time c r port un v : shows c r -> data_port port = true -> time_register c (cmos_index r) = Some v ->
  runs (E := E) (cmos_inb port un) r v (SET_cmos (<[Z.to_nat (cmos_index r) := u8 v]> (cmos r)) r).
Proof.
  intros HS Hp Et. pose proof (sh_ok _ _ HS) as HO. pose proof (ok_index _ HO) as Hi.
  destruct (byte_at r _ HO Hi) as (b & Hb & _). unfold cmos_inb. unfold data_port in Hp. rewrite Hp.
  eapply runs_bind; [apply (runs_rd_register r b HO Hb)|]. eapply runs_bind; [apply runs_getr|]. cbv beta.
  set (i := cmos_index r) in *.
  assert (0 <= i <= 9) by (unfold time_register in Et; repeat case_match; simplify_eq; unfold CMOS_SECONDS, CMOS_MINUTES, CMOS_HOURS, CMOS_DAY_WEEK, CMOS_DAY_MONTH, CMOS_MONTH, CMOS_YEAR in *; lia).
  unfold CMOS_REG_A, CMOS_REG_C. rewrite (proj2 (Z.eqb_neq i 0xa)), (proj2 (Z.eqb_neq i 0xc)), (proj2 (Z.ltb_lt i 0xa)) by lia.
  eapply runs_bind; [|apply runs_rd_register; [apply ok_set_byte, HO|]].
  - unfold time_register in Et. unfold refresh. repeat case_match; simplify_eq; try exact (number_run c r _ (fun x => x) HS).
    + unfold hours. rewrite (sh_h24 _ _ HS), (sh_clock _ _ HS). unfold number. rewrite (sh_bcd _ _ HS).
      eapply runs_bind; [apply runs_tm, (ok_ht _ HO)|]. eapply runs_bind; [apply runs_to_bcd, HO|].
      eapply runs_bind; [apply runs_to_12, HO|]. apply runs_wr_register, HO.
    + exact (number_run c r _ (fun x => s32 (x + 1)) HS).
    + exact (number_run c r _ (fun x => s32 (x + 1)) HS).
  - cbn [cmos SET_cmos cmos_index]. rewrite list_lookup_insert_eq by (rewrite (ok_len _ HO); lia).
    rewrite u8_small; [reflexivity|]. exact (time_byte _ _ _ Et).
Qed.

Lemma inb_shows c r port un : shows c r -> data_port port = true ->
  exists r', runs (E := E) (cmos_inb port un) r (fst (spec_read c)) r' /\ shows (snd (spec_read c)) r'.
Proof.
  intros HS Hp. pose proof (sh_ok _ _ HS) as HO. pose proof (ok_index _ HO) as Hi.
  destruct (byte_at r _ HO Hi) as (b & Hb & Hbr). unfold cmos_inb. unfold data_port in Hp. rewrite Hp.
  assert (HR : forall (k : Z -> Z -> X Z) a r', runs (k b (cmos_index r)) r a r' -> runs (v <- rd_register ;; i <- getr cmos_index ;; k v i) r a r').
  { intros k a r' Hk. eapply runs_bind; [apply (runs_rd_register r b HO Hb)|]. eapply runs_bind; [apply runs_getr | exact Hk]. }
  set (i := cmos_index r) in *. unfold spec_read. rewrite (sh_sel _ _ HS). fold i.
  destruct (time_register c i) as [v|] eqn:Et.
  - eexists. split; [|eapply shows_time; eassumption]. pose proof (inb_time c r port un v HS) as HT.
    unfold data_port, cmos_inb in HT. rewrite Hp in HT. exact (HT eq_refl Et).
  - assert (Eb : b = regs c i) by (pose proof (sh_regs _ _ HS i Hi Et); congruence). subst b.
    destruct (Z.eqb_spec i CMOS_REG_A) as [EA|NA]; [|destruct (Z.eqb_spec i CMOS_REG_C) as [EC|NC]].
    + eexists. split; [apply HR; rewrite (proj2 (Z.eqb_eq _ _) EA)|].
      * eapply runs_bind; [|apply runs_ret]. eapply runs_bind; [apply runs_rd; rewrite <- EA; exact Hb|]. apply runs_wr. rewrite (ok_len _ HO). reflexivity.
      * cbn [snd]. replace (regs c i .& REST) with (u8 (regs c i .& Z.lnot UIP)).
        -- rewrite <- EA. pose proof (shows_reg c r (regs c i .& Z.lnot UIP) HS) as HS'. rewrite (sh_sel _ _ HS) in HS'. exact HS'.
        -- unfold u8. rewrite <- Z.land_ones by lia. rewrite <- Z.land_assoc. reflexivity.
    + eexists. split; [apply HR; rewrite (proj2 (Z.eqb_neq _ _) NA), (proj2 (Z.eqb_eq _ _) EC)|].
      * eapply runs_bind; [apply runs_wr_register, HO | apply runs_ret].
      * cbn [snd]. pose proof (shows_reg c r C_CLEAR HS) as HS'. rewrite (sh_sel _ _ HS) in HS'. exact HS'.
    + exists r. split; [|exact HS]. apply HR. rewrite (proj2 (Z.eqb_neq _ _) NA), (proj2 (Z.eqb_neq _ _) NC).
      destruct (i <? CMOS_REG_A); [|apply runs_ret]. eapply runs_bind; [|apply (runs_rd_register r _ HO Hb)].
      unfold time_register in Et. unfold refresh. repeat case_match; try discriminate. apply runs_ret.
Qed.

(** Writes to a register of the clock change nothing the guest can see. *)
Lemma shows_ignored c r (f : rtc W -> rtc W) :
  (forall x, cmos (f x) = cmos x /\ cmos_index (f x) = cmos_index x /\ cmos_register (f x) = cmos_register x
    /\ data_mode_yes (f x) = data_mode_yes x /\ twenty4_hour_clock (f x) = twenty4_hour_clock x /\ bin2bcd (f x) = bin2bcd x
    /\ bcd2bin (f x) = bcd2bin x /\ _24to12 (f x) = _24to12 x /\ _12to24 (f x) = _12to24 x /\ ht (f x) = ht x /\ result (f x) = result x) ->
  shows c r -> shows c (f r).
Proof.
  intros Hf [[] HC HB HH HS HR]. destruct (Hf r) as (E1 & E2 & E3 & E4 & E5 & E6 & E7 & E8 & E9 & E10 & E11).
  split; [split|..]; rewrite ?E1, ?E2, ?E3, ?E4, ?E5, ?E6, ?E7, ?E8, ?E9, ?E10, ?E11; assumption.
Qed.

Lemma shows_user c r d : shows c r -> shows c (SET_user_time (user_time r + d) r).
Proof. apply (shows_ignored c r (fun r => SET_user_time (user_time r + d) r)). intros x. repeat split. Qed.
Lemma shows_reset c r b : shows c r -> shows c (SET_reset_alarm b r).
Proof. apply (shows_ignored c r (SET_reset_alarm b)). intros x. repeat split. Qed.
Lemma shows_period c r t : shows c r -> shows c (SET_rtc_period_mSeconds t r).
Proof. apply (shows_ignored c r (SET_rtc_period_mSeconds t)). intros x. repeat split. Qed.

(** The computation runs, and leaves the chip and its selection. *)
Definition keeps (c : chip) (i : Z) (m : X unit) : Prop :=
  forall r, shows c r -> cmos_index r = i -> exists r', runs m r tt r' /\ shows c r' /\ cmos_index r' = i.

Lemma chip_keeps_bind c i m k : keeps c i m -> keeps c i k -> keeps c i (m ;; k).
Proof.
  intros Hm Hk r HS Hi. destruct (Hm r HS Hi) as (r1 & Q1 & S1 & I1). destruct (Hk r1 S1 I1) as (r2 & Q2 & S2 & I2).
  exists r2. split; [eapply runs_bind; eassumption | auto].
Qed.

(** A value read on the way. *)
Lemma keeps_read c i {A} (m : X A) k : (forall r, shows c r -> exists y, runs m r y r) -> (forall y, keeps c i (k y)) -> keeps c i (bind m k).
Proof.
  intros Hm Hk r HS Hi. destruct (Hm r HS) as [y Hy]. destruct (Hk y r HS Hi) as (r' & Q & Hs).
  exists r'. split; [eapply runs_bind; eassumption | exact Hs].
Qed.

Lemma keeps_user c i d : keeps c i (add_user_time d).
Proof. intros r HS Hi. eexists. split; [apply runs_modr|]. split; [apply shows_user, HS | exact Hi]. Qed.
Lemma keeps_reset c i : keeps c i (modr (SET_reset_alarm true)).
Proof. intros r HS Hi. eexists. split; [apply runs_modr|]. split; [apply shows_reset, HS | exact Hi]. Qed.
Lemma keeps_store c i v w : time_register c i = Some w -> keeps c i (wr_register v).
Proof.
  intros Ht r HS Hi. eexists. split; [apply runs_wr_register, (sh_ok _ _ HS)|]. split; [|exact Hi].
  eapply shows_time; [exact HS | rewrite Hi; exact Ht].
Qed.

Lemma reads_from c x r : shows c r -> exists y, runs (E := E) (call_bcd2bin x) r y r.
Proof. intros HS. apply runs_from_bcd, (sh_ok _ _ HS). Qed.
Lemma reads_24 c x r : shows c r -> exists y, runs (E := E) (call_12to24 x) r y r.
Proof. intros HS. apply runs_to_24, (sh_ok _ _ HS). Qed.
Lemma reads_tm c f r : shows c r -> exists y, runs (E := E) (tm f) r y r.
Proof. intros HS. eexists. apply runs_tm, (ok_ht _ (sh_ok _ _ HS)). Qed.
Lemma reads_register c r : shows c r -> exists y, runs (E := E) rd_register r y r.
Proof.
  intros HS. pose proof (sh_ok _ _ HS) as HO. destruct (byte_at r _ HO (ok_index _ HO)) as (b & Hb & _).
  exists b. apply runs_rd_register; assumption.
Qed.

(** A write to a register of the clock. *)
Lemma write_time_keeps c i v w : time_register c i = Some w -> keeps c i (write_data fuel v).
Proof.
  intros Ht. pose proof (fun v => keeps_store c i v w Ht) as HT. intros r HS Hi.
  assert (HD : forall k : Z -> X unit, keeps c i (k i) -> exists r', runs (i <- getr cmos_index ;; k i) r tt r' /\ shows c r' /\ cmos_index r' = i).
  { intros k Hk. destruct (Hk r HS Hi) as (r' & Q & Hs). exists r'. split; [|exact Hs].
    eapply runs_bind; [apply runs_getr | rewrite Hi; exact Q]. }
  apply HD. clear HD r HS Hi.
  assert (Hc : i = 0 \/ i = 2 \/ i = 4 \/ i = 6 \/ i = 7 \/ i = 8 \/ i = 9)
    by (unfold time_register in Ht; repeat case_match; simplify_eq; unfold CMOS_SECONDS, CMOS_MINUTES, CMOS_HOURS, CMOS_DAY_WEEK, CMOS_DAY_MONTH, CMOS_MONTH, CMOS_YEAR in *; lia).
  clear Ht. destruct Hc as [-> | [-> | [-> | [-> | [-> | [-> | ->]]]]]]; cbn -[tm call_bcd2bin call_12to24 add_user_time wr_register rd_register modr];
  repeat first
    [ apply keeps_user | apply keeps_reset | apply HT
    | apply keeps_read; [first [intros ?; apply reads_from | intros ?; apply reads_24 | intros ?; apply reads_tm | intros ?; apply reads_register] | intros ?]
    | apply chip_keeps_bind ].
Qed.

Lemma spec_other c i v : sel c = i -> time_register c i = None ->
  i <> CMOS_REG_A -> i <> CMOS_REG_B -> i <> CMOS_REG_C -> i <> CMOS_REG_D -> spec_write v c = set_reg i v c.
Proof.
  intros Hs Ht NA NB NC ND. unfold spec_write. rewrite Hs, Ht.
  rewrite (proj2 (Z.eqb_neq _ _) NA), (proj2 (Z.eqb_neq _ _) NB), (proj2 (Z.eqb_neq _ _) NC), (proj2 (Z.eqb_neq _ _) ND). reflexivity.
Qed.

Lemma write_other_run c r v : shows c r -> 0 <= v < 256 -> time_register c (cmos_index r) = None ->
  cmos_index r <> CMOS_REG_A -> cmos_index r <> CMOS_REG_B -> cmos_index r <> CMOS_REG_C -> cmos_index r <> CMOS_REG_D ->
  exists r', runs (E := E) (write_data fuel v) r tt r' /\ shows (spec_write v c) r'.
Proof.
  intros HS Hv Ht NA NB NC ND. pose proof (sh_ok _ _ HS) as HO. rewrite (spec_other c _ v (sh_sel _ _ HS)) by assumption.
  set (i := cmos_index r) in *.
  set (b := (i =? CMOS_SEC_ALARM) || (i =? CMOS_MIN_ALARM) || (i =? CMOS_HR_ALARM)).
  set (r1 := if b then SET_reset_alarm true r else r).
  assert (HS1 : shows c r1) by (unfold r1; destruct b; [apply shows_reset|]; exact HS).
  assert (I1 : cmos_index r1 = i) by (unfold r1; destruct b; reflexivity).
  eexists. split.
  - eapply runs_bind; [apply runs_getr|]. fold i.
    rewrite (proj2 (Z.eqb_neq _ _) NA), (proj2 (Z.eqb_neq _ _) NB), (proj2 (Z.eqb_neq _ _) NC), (proj2 (Z.eqb_neq _ _) ND).
    unfold time_register in Ht. repeat case_match; try discriminate. cbn [orb].
    eapply runs_bind; [|apply runs_wr_register, (sh_ok _ _ HS1)].
    fold b. apply runs_when; unfold r1; intros ->; [apply runs_modr | reflexivity].
  - pose proof (shows_reg c r1 v HS1) as HS2. rewrite (sh_sel _ _ HS), u8_small in HS2 by lia. rewrite u8_small by lia. exact HS2.
Qed.

Lemma land_byte a b : 0 <= a < 256 -> 0 <= a .& b < 256.
Proof.
  intros Ha. replace (a .& b) with ((a .& b) mod 256); [apply Z.mod_pos_bound; lia|].
  change 256 with (2 ^ 8). rewrite <- !Z.land_ones by lia. rewrite <- Z.land_assoc, (Z.land_comm b), Z.land_assoc.
  rewrite Z.land_ones by lia. rewrite Z.mod_small by lia. reflexivity.
Qed.

Lemma lor_byte a b : 0 <= a < 256 -> 0 <= b < 256 -> 0 <= a .| b < 256.
Proof.
  intros Ha Hb. replace (a .| b) with ((a .| b) mod 256); [apply Z.mod_pos_bound; lia|].
  change 256 with (2 ^ 8). rewrite <- !Z.land_ones by lia. rewrite Z.land_lor_distr_l.
  rewrite !Z.land_ones by lia. rewrite !Z.mod_small by lia. reflexivity.
Qed.

Lemma write_a_run c r v : shows c r -> 0 <= v < 256 -> cmos_index r = CMOS_REG_A ->
  exists r', runs (E := E) (write_data fuel v) r tt r' /\ shows (spec_write v c) r'.
Proof.
  intros HS Hv Hi. pose proof (sh_ok _ _ HS) as HO.
  assert (Hb : cmos r !! Z.to_nat (cmos_index r) = Some (regs c CMOS_REG_A)) by (rewrite Hi; apply (sh_regs _ _ HS); [unfold CMOS_REG_A; lia | reflexivity]).
  destruct (byte_at r _ HO (ok_index _ HO)) as (b & Hb' & Hbr). rewrite Hb in Hb'. injection Hb' as <-.
  set (x := (regs c CMOS_REG_A .& TOP_BIT) .| (v .& REST)).
  assert (Hx : 0 <= x < 256) by (apply lor_byte; apply land_byte; assumption).
  set (r1 := SET_cmos (<[Z.to_nat (cmos_index r) := u8 x]> (cmos r)) r).
  assert (HS1 : shows (spec_write v c) r1).
  { pose proof (shows_reg c r x HS) as HS1. unfold spec_write. rewrite (sh_sel _ _ HS), Hi in *. rewrite u8_small in HS1 by lia.
    unfold r1. rewrite Hi, u8_small by lia. exact HS1. }
  assert (Hr : exists t, pirUsec !! Z.to_nat (x .& RATE) = Some t).
  { assert (0 <= x .& RATE < 16) by (change RATE with (2 ^ 4 - 1); rewrite land_mask by lia; apply Z.mod_pos_bound; lia).
    apply lookup_lt_is_Some_2. change (length pirUsec) with 16%nat. lia. }
  destruct Hr as [t Hr]. exists (SET_rtc_period_mSeconds t r1). split; [|apply shows_period, HS1].
  eapply runs_bind; [apply runs_getr|]. rewrite Hi. cbn -[write_reg_a]. unfold write_reg_a.
  eapply runs_bind; [apply (runs_rd_register r _ HO Hb)|]. eapply runs_bind; [apply runs_wr_register, HO|]. fold x. fold r1.
  eapply runs_bind; [apply (runs_rd_register r1 x (sh_ok _ _ HS1))|].
  - unfold r1. cbn [cmos SET_cmos cmos_index]. rewrite list_lookup_insert_eq; [rewrite u8_small by lia; reflexivity|].
    rewrite (ok_len _ HO). rewrite Hi. unfold CMOS_REG_A. lia.
  - rewrite Hr. apply (runs_modr (SET_rtc_period_mSeconds t)).
Qed.

(** Which registers are the clock's does not depend on the modes. *)
Lemma time_register_none c c' i : time_register c i = None -> time_register c' i = None.
Proof. unfold time_register. repeat case_match; congruence. Qed.

(** The modes as register B selects them. *)
Definition with_modes (d h : bool) (r : rtc W) : rtc W :=
  mkRtc (cmos r) (cmos_index r) (cmos_register r) d h (Some (if d then yes else no)) (Some (if d then yes else no))
    (Some (if h then no else yes)) (Some (if h then no else yes))
    (reset_alarm r) (user_time r) (ht r) (result r) (rtc_period_mSeconds r) (rtc_periodic_event_handle r)
    (rtc_int_enabled r) (cmos_count r) (alarm_handle r) (cmos_string r) (bus r) (machine r).

Lemma write_b_run c r v : shows c r -> 0 <= v < 256 -> cmos_index r = CMOS_REG_B -> (regs c CMOS_REG_B .^ v) .& PIE = 0 ->
  exists r', runs (E := E) (write_data fuel v) r tt r' /\ shows (spec_write v c) r'.
Proof.
  intros HS Hv Hi Hp. pose proof (sh_ok _ _ HS) as HO.
  assert (Hb : cmos r !! Z.to_nat (cmos_index r) = Some (regs c CMOS_REG_B)) by (rewrite Hi; apply (sh_regs _ _ HS); [unfold CMOS_REG_B; lia | reflexivity]).
  set (b := regs c CMOS_REG_B) in *. set (d := v .& DM =? 0). set (h := negb (v .& _24_HR =? 0)).
  set (r1 := with_modes d h r). set (r2 := SET_cmos (<[Z.to_nat (cmos_index r) := u8 v]> (cmos r1)) r1).
  assert (HO1 : rtc_ok r1) by (destruct HO; split; try assumption; reflexivity).
  assert (HS2 : shows (spec_write v c) r2).
  { pose proof (shows_reg c r v HS) as [HO2 HC HB HH HSl HR]. unfold spec_write. rewrite (sh_sel _ _ HS), Hi in *.
    rewrite u8_small in * by lia. split; try assumption; try reflexivity.
    - apply (ok_set_byte r1 _ v HO1).
    - intros i Hr Hn. unfold r2. rewrite Hi, u8_small by lia. exact (HR i Hr (time_register_none _ _ _ Hn)). }
  exists r2. split; [|exact HS2]. eapply runs_bind; [apply runs_getr|]. rewrite Hi. cbn -[write_reg_b]. unfold write_reg_b.
  eapply runs_bind; [apply runs_getr|]. eapply (runs_bind _ _ _ tt (with_modes d (twenty4_hour_clock r) r)).
  { unfold d. destruct (v .& DM =? 0); cbn [negb]; apply runs_when; intros Eb; try apply (runs_eq _ _ _ _ _ (runs_modr _ r));
      clear - HO Eb; destruct HO, r; cbn in *; destruct data_mode_yes0; try discriminate; subst; reflexivity. }
  eapply runs_bind; [apply runs_getr|]. eapply (runs_bind _ _ _ tt r1).
  { unfold r1, h. change (twenty4_hour_clock (with_modes d (twenty4_hour_clock r) r)) with (twenty4_hour_clock r).
    destruct (v .& _24_HR =? 0); cbn [negb]; apply runs_when; intros Eb; try apply (runs_eq _ _ _ _ _ (runs_modr _ _));
      clear - Eb; destruct r; cbn in *; destruct twenty4_hour_clock0; try discriminate; reflexivity. }
  eapply runs_bind; [apply (runs_rd_register r1 b HO1 Hb)|]. apply runs_when.
  - intros _. rewrite Hp. eapply runs_bind; [apply runs_ret|]. apply (runs_wr_register r1 v HO1).
  - intros Hn. assert (Ev : b = v) by lia. unfold r2. change (cmos r1) with (cmos r). rewrite u8_small by lia. rewrite <- Ev.
    rewrite list_insert_id by exact Hb. reflexivity.
Qed.

(** *** Sequences *)

Lemma write_shows c r v : shows c r -> 0 <= v < 256 ->
  (sel c = CMOS_REG_B -> (regs c CMOS_REG_B .^ v) .& PIE = 0) ->
  exists r', runs (E := E) (write_data fuel v) r tt r' /\ shows (spec_write v c) r'.
Proof.
  intros HS Hv Hp. destruct (time_register c (cmos_index r)) as [w|] eqn:Et.
  { destruct (write_time_keeps c _ v w Et r HS eq_refl) as (r' & Hr & HS' & _). exists r'. split; [exact Hr|].
    unfold spec_write. rewrite (sh_sel _ _ HS), Et. exact HS'. }
  destruct (Z.eq_dec (cmos_index r) CMOS_REG_A); [apply write_a_run; assumption|].
  destruct (Z.eq_dec (cmos_index r) CMOS_REG_B) as [EB|]; [apply write_b_run; try assumption; apply Hp; rewrite (sh_sel _ _ HS); exact EB|].
  destruct (Z.eq_dec (cmos_index r) CMOS_REG_C) as [EC|]; [|destruct (Z.eq_dec (cmos_index r) CMOS_REG_D) as [EC|]; [|apply write_other_run; assumption]];
    (exists r; split; [eapply runs_bind; [apply runs_getr|]; rewrite EC; apply runs_ret|];
     unfold spec_write; rewrite (sh_sel _ _ HS), EC; exact HS).
Qed.

Lemma select_shows c r v : shows c r -> 0 <= v < 256 ->
  shows (mkChip (regs c) (clock c) (bcd c) (h24 c) (v .& CMOS_ADDR_MASK))
    (SET_cmos_register (v .& CMOS_ADDR_MASK) (SET_cmos_index (v .& CMOS_ADDR_MASK) r)).
Proof.
  intros [[] HC HB HH HS HR] Hv. split; try assumption; try reflexivity. split; try assumption; try reflexivity.
  cbn. change CMOS_ADDR_MASK with (2 ^ 6 - 1). rewrite land_mask by lia. apply Z.mod_pos_bound. lia.
Qed.

Lemma access_shows un a c r : shows c r -> is_byte a -> moves_pie a c = false ->
  exists r', runs (E := E) (access_run un a) r (fst (spec_access a c)) r' /\ shows (snd (spec_access a c)) r'.
Proof.
  intros HS Ha Hp. destruct a as [port v|port]; cbn [access_run spec_access fst snd is_byte] in *.
  - unfold cmos_outb. cbn [moves_pie] in Hp. fold (index_port port) (data_port port).
    destruct (index_port port) eqn:Ei; [|destruct (data_port port) eqn:Ed].
    + eexists. split; [eapply runs_bind; [apply runs_modr | apply runs_ret]|]. apply select_shows; assumption.
    + destruct (write_shows c r v HS Ha) as (r' & Hr & HS').
      { intros Es. rewrite Es in Hp. cbn in Hp. lia. }
      exists r'. split; [eapply runs_bind; [exact Hr | apply runs_ret] | exact HS'].
    + exists r. split; [eapply runs_bind; apply runs_ret | exact HS].
  - destruct (data_port port) eqn:Ed.
    + destruct (inb_shows c r port un HS Ed) as (r' & Hr & HS'). destruct (spec_read c) as [v c'].
      exists r'. split; [eapply runs_bind; [exact Hr | apply runs_ret] | exact HS'].
    + exists r. split; [|exact HS]. unfold cmos_inb. unfold data_port in Ed. rewrite Ed. eapply runs_bind; apply runs_ret.
Qed.


(** ** The power on test *)

Definition chip_of (r : rtc W) : chip :=
  mkChip (fun i => default 0 (cmos r !! Z.to_nat i)) (result r) (data_mode_yes r) (twenty4_hour_clock r) (cmos_index r).

Lemma shows_chip_of (r : rtc W) : rtc_ok r -> shows (chip_of r) r.
Proof.
  intros HO. split; try assumption; try reflexivity. intros i Hi _. destruct (byte_at r i HO Hi) as (b & Hb & _).
  cbn. rewrite Hb. reflexivity.
Qed.

Definition at_ (c : list Z) (i : Z) : Z := default 0 (c !! Z.to_nat i).

Lemma rd_run (r : rtc W) i : rtc_ok r -> 0 <= i < 64 -> runs (E := E) (rd i) r (at_ (cmos r) i) r.
Proof. intros HO Hi. destruct (byte_at r i HO Hi) as (b & Hb & _). apply runs_rd. unfold at_. rewrite Hb. reflexivity. Qed.

(** The bytes agree with the equipment, whose byte is [e], and with their checksum. *)
Record healthy (e : Z) (c : list Z) : Prop := {
  he_shut : at_ c CMOS_SHUT_DOWN = 0;
  he_power : at_ c CMOS_REG_D .& VRT <> 0;
  he_diag : at_ c CMOS_DIAG = 0;
  he_equip : at_ c CMOS_EQUIP = e;
  he_floppy : at_ c CMOS_DISKETTE = floppy_byte;
  he_disk : at_ c CMOS_DISK = u8 fixed_disk_type;
  he_base : at_ c CMOS_B_M_S_LO = BM_LO_INIT /\ at_ c CMOS_B_M_S_HI = BM_HI_INIT;
  he_extended : at_ c CMOS_E_M_S_LO = extended_lo /\ at_ c CMOS_E_M_S_HI = extended_hi;
  he_checksum : checksum_of c = at_ c CMOS_CKSUM_LO + 256 * at_ c CMOS_CKSUM_HI
}.

(** The eight tests before the checksum's. *)
Definition faults (e : Z) (c : list Z) : list bool :=
  [negb (at_ c CMOS_SHUT_DOWN =? 0);
   at_ c CMOS_REG_D .& VRT =? 0;
   negb (at_ c CMOS_DIAG =? 0);
   negb (e .^ at_ c CMOS_EQUIP =? 0);
   negb (floppy_byte =? at_ c CMOS_DISKETTE);
   negb (u8 fixed_disk_type =? at_ c CMOS_DISK);
   negb (at_ c CMOS_B_M_S_LO =? BM_LO_INIT) || negb (at_ c CMOS_B_M_S_HI =? BM_HI_INIT);
   negb (at_ c CMOS_E_M_S_LO =? extended_lo) || negb (at_ c CMOS_E_M_S_HI =? extended_hi)].
Definition bad_sum (c : list Z) : bool :=
  negb (checksum_of c .& 0xff =? at_ c CMOS_CKSUM_LO) || negb (checksum_of c .>> 8 =? at_ c CMOS_CKSUM_HI).

(** Bit [k] of the errors is fault [k]. *)
Fixpoint bits (m : Z) (l : list bool) : Z := match l with [] => 0 | b :: l => (if b then m else 0) .| bits (2 * m) l end.
Definition errors (e : Z) (c : list Z) : Z :=
  let err := bits 1 (faults e c) in err .| (if (err =? 0) && bad_sum c then BAD_CHECKSUM else 0).

(** The adapter is none, or one the table knows. *)
Definition known_adapter : Prop := gfx_adapter = -1 \/ 0 <= gfx_adapter < 5.
Definition equipment : Z :=
  (if gfx_adapter =? -1 then 0 else default 0 (display_mask !! Z.to_nat gfx_adapter))
  .| (if npx_enabled then CO_PROCESSOR_PRESENT else 0) .| (if floppy_a_device then DISKETTE_PRESENT else 0).

Lemma equipment_byte : known_adapter -> 0 <= equipment < 256.
Proof.
  intros Ha. unfold equipment, known_adapter in *.
  assert (Hc : gfx_adapter = -1 \/ gfx_adapter = 0 \/ gfx_adapter = 1 \/ gfx_adapter = 2 \/ gfx_adapter = 3 \/ gfx_adapter = 4) by lia.
  destruct Hc as [-> | [-> | [-> | [-> | [-> | ->]]]]]; destruct npx_enabled, floppy_a_device; vm_compute; split; congruence.
Qed.

Context (Hadapter : known_adapter).
Abbreviation e := equipment.

Lemma equip_run (r : rtc W) : runs (E := E) equip_byte r e r.
Proof.
  unfold equip_byte, equipment. unfold known_adapter in Hadapter.
  assert (Hc : gfx_adapter = -1 \/ gfx_adapter = 0 \/ gfx_adapter = 1 \/ gfx_adapter = 2 \/ gfx_adapter = 3 \/ gfx_adapter = 4) by lia.
  destruct Hc as [-> | [-> | [-> | [-> | [-> | ->]]]]]; (eapply runs_bind; [apply runs_ret|]; destruct npx_enabled, floppy_a_device; apply runs_ret).
Qed.

Lemma post_check_run (r : rtc W) : rtc_ok r -> runs (E := E) post_check r (errors e (cmos r), e) r.
Proof.
  intros HO. unfold post_check, verify_equip_byte.
  eapply runs_bind; [apply (rd_run r _ HO); unfold CMOS_SHUT_DOWN; lia|].
  eapply runs_bind; [apply (rd_run r _ HO); unfold CMOS_REG_D; lia|].
  eapply runs_bind; [apply (rd_run r _ HO); unfold CMOS_DIAG; lia|].
  eapply runs_bind.
  { eapply runs_bind; [apply equip_run|]. eapply runs_bind; [apply (rd_run r _ HO); unfold CMOS_EQUIP; lia | apply runs_ret]. }
  eapply runs_bind; [apply (rd_run r _ HO); unfold CMOS_DISKETTE; lia|].
  eapply runs_bind; [apply (rd_run r _ HO); unfold CMOS_DISK; lia|].
  eapply runs_bind; [apply (rd_run r _ HO); unfold CMOS_B_M_S_LO; lia|].
  eapply runs_bind; [apply (rd_run r _ HO); unfold CMOS_B_M_S_HI; lia|].
  eapply runs_bind; [apply (rd_run r _ HO); unfold CMOS_E_M_S_LO; lia|].
  eapply runs_bind; [apply (rd_run r _ HO); unfold CMOS_E_M_S_HI; lia|].
  eapply runs_bind; [apply runs_getr|].
  eapply runs_bind; [apply (rd_run r _ HO); unfold CMOS_CKSUM_LO; lia|].
  eapply runs_bind; [apply (rd_run r _ HO); unfold CMOS_CKSUM_HI; lia|].
  match goal with |- runs (ret (?x, _)) _ _ _ => replace x with (errors e (cmos r)); [apply runs_ret|] end.
  unfold errors, bad_sum. change (1 * 2) with 2. cbn [bits faults]. rewrite Z.lor_0_r, !Z.lor_assoc. reflexivity.
Qed.

Lemma errors_bits e' c :
  forall k, (k < 8)%nat -> negb (errors e' c .& Z.shiftl 1 (Z.of_nat k) =? 0) = default false (faults e' c !! k).
Proof.
  intros k Hk. unfold errors. destruct (faults e' c) as [|b1 [|b2 [|b3 [|b4 [|b5 [|b6 [|b7 [|b8 [|]]]]]]]]] eqn:Ef; try discriminate Ef.
  generalize (bad_sum c). intros b. clear Ef.
  do 8 (destruct k as [|k]; [destruct b1, b2, b3, b4, b5, b6, b7, b8, b; reflexivity|]). lia.
Qed.

Definition put_byte (b : bool) (i v : Z) (c : list Z) : list Z := if b then <[Z.to_nat i := u8 v]> c else c.

Lemma put_length b i v c : length (put_byte b i v c) = length c.
Proof. unfold put_byte. destruct b; [apply length_insert | reflexivity]. Qed.

Lemma at_put b i v c j : 0 <= i < Z.of_nat (length c) -> 0 <= j -> at_ (put_byte b i v c) j = if b && (j =? i) then u8 v else at_ c j.
Proof.
  intros Hi Hj. unfold put_byte, at_. destruct b; [|reflexivity]. cbn [andb]. destruct (Z.eqb_spec j i) as [->|Hne].
  - rewrite list_lookup_insert_eq by lia. reflexivity.
  - rewrite list_lookup_insert_ne by lia. reflexivity.
Qed.

Lemma checksum_range c : 0 <= checksum_of c < 2 ^ 16.
Proof.
  unfold checksum_of. assert (HG : forall l a, 0 <= a < 2 ^ 16 -> 0 <= fold_left (fun a x => u16 (a + x)) l a < 2 ^ 16).
  { induction l as [|x l IH]; intros a Ha; [exact Ha|]. apply IH, u16_range. }
  apply HG. lia.
Qed.

(** The checksum is of the bytes from the diskette's to before itself. *)
Lemma checksum_frame c c' : length c = length c' -> (forall i, 16 <= i < 46 -> at_ c i = at_ c' i) -> checksum_of c = checksum_of c'.
Proof.
  intros HL HA. unfold checksum_of. f_equal. apply list_eq. intros i. destruct (decide (i < 30)%nat) as [Hi|Hi].
  - rewrite !lookup_take_lt, !lookup_drop by lia. specialize (HA (Z.of_nat (16 + i)) ltac:(lia)). unfold at_ in HA. rewrite Nat2Z.id in HA.
    destruct (c !! (16 + i)%nat) eqn:E1, (c' !! (16 + i)%nat) eqn:E2; cbn in HA; try congruence.
    + apply lookup_ge_None_1 in E2. apply lookup_lt_Some in E1. lia.
    + apply lookup_ge_None_1 in E1. apply lookup_lt_Some in E2. lia.
  - rewrite !lookup_take_ge by lia. reflexivity.
Qed.

Definition summed (b : bool) (c : list Z) : list Z :=
  let sum := checksum_of c in put_byte b CMOS_CKSUM_HI (sum .>> 8) (put_byte b CMOS_CKSUM_LO (sum .& 0xff) c).

Lemma summed_checks c : length c = 64%nat -> bad_sum (summed true c) = false.
Proof.
  intros HL. unfold bad_sum, summed. set (sum := checksum_of c). pose proof (checksum_range c) as HR. fold sum in HR.
  set (c1 := put_byte true CMOS_CKSUM_LO (sum .& 0xff) c). assert (L1 : length c1 = 64%nat) by (unfold c1; rewrite put_length; exact HL).
  assert (Es : checksum_of (put_byte true CMOS_CKSUM_HI (sum .>> 8) c1) = sum).
  { apply checksum_frame; [rewrite put_length; congruence|]. intros i Hi. unfold c1.
    rewrite !at_put by (rewrite ?put_length; unfold CMOS_CKSUM_HI, CMOS_CKSUM_LO; lia).
    unfold CMOS_CKSUM_HI, CMOS_CKSUM_LO. rewrite (proj2 (Z.eqb_neq i 0x2e)), (proj2 (Z.eqb_neq i 0x2f)) by lia. reflexivity. }
  rewrite Es. rewrite !at_put by (rewrite ?L1; unfold CMOS_CKSUM_HI, CMOS_CKSUM_LO; lia). cbn [andb CMOS_CKSUM_LO CMOS_CKSUM_HI Z.eqb Pos.eqb].
  unfold c1. rewrite at_put by (rewrite ?HL; unfold CMOS_CKSUM_LO; lia). cbn [andb CMOS_CKSUM_LO Z.eqb Pos.eqb].
  rewrite (u8_small (sum .>> 8)) by (rewrite Z.shiftr_div_pow2 by lia; split; [apply Z.div_pos | apply Z.div_lt_upper_bound]; lia).
  rewrite (u8_small (sum .& 0xff)) by (change 0xff with (2 ^ 8 - 1); rewrite land_mask by lia; apply Z.mod_pos_bound; lia).
  rewrite !Z.eqb_refl. reflexivity.
Qed.

(** What [cmos_error] writes. *)
Definition repaired (err equip floppy disk : Z) (c : list Z) : list Z :=
  let bad m := negb (err .& m =? 0) in
  let c := put_byte (bad BAD_SHUT_DOWN) CMOS_SHUT_DOWN SHUT_INIT c in
  let c := put_byte (bad BAD_REG_D) CMOS_REG_D REG_D_INIT c in
  let c := put_byte (bad BAD_DIAG) CMOS_DIAG DIAG_INIT c in
  let c := put_byte (bad BAD_EQUIP) CMOS_EQUIP equip c in
  let c := put_byte (bad BAD_FLOPPY) CMOS_DISKETTE floppy c in
  let c := put_byte (bad BAD_DISK) CMOS_DISK disk c in
  let c := put_byte (bad BAD_BMS) CMOS_B_M_S_HI BM_HI_INIT (put_byte (bad BAD_BMS) CMOS_B_M_S_LO BM_LO_INIT c) in
  let c := put_byte (bad BAD_XMS) CMOS_E_M_S_HI extended_hi (put_byte (bad BAD_XMS) CMOS_E_M_S_LO extended_lo c) in
  summed (negb (err =? 0)) c.

Lemma put_run (b : bool) (r : rtc W) i v : i < Z.of_nat (length (cmos r)) ->
  runs (E := E) (when b (wr i v)) r tt (SET_cmos (put_byte b i v (cmos r)) r).
Proof.
  intros Hi. apply runs_when; intros ->; [apply runs_wr, Hi|]. destruct r; reflexivity.
Qed.

Lemma put2_run (b : bool) (r : rtc W) i v j w : i < Z.of_nat (length (cmos r)) -> j < Z.of_nat (length (cmos r)) ->
  runs (E := E) (when b (wr i v ;; wr j w)) r tt (SET_cmos (put_byte b j w (put_byte b i v (cmos r))) r).
Proof.
  intros Hi Hj. apply runs_when; intros ->; [|destruct r; reflexivity].
  eapply runs_bind; [apply runs_wr, Hi|]. apply (runs_wr j w (SET_cmos _ r)). cbn [cmos SET_cmos]. rewrite length_insert. exact Hj.
Qed.

Lemma sum_run (b : bool) (r : rtc W) : length (cmos r) = 64%nat -> runs (E := E) (when b do_checksum) r tt (SET_cmos (summed b (cmos r)) r).
Proof.
  intros HL. apply runs_when; intros ->; [|destruct r; reflexivity]. eapply runs_bind; [apply runs_getr|]. rewrite HL.
  change (Z.of_nat 64 <? CMOS_CKSUM_HI) with false. cbv iota.
  eapply runs_bind; [apply runs_wr; rewrite HL; reflexivity|]. apply (runs_wr _ _ (SET_cmos _ r)). cbn [cmos SET_cmos]. rewrite length_insert, HL. reflexivity.
Qed.

Lemma cmos_error_run err equip floppy disk (r : rtc W) : length (cmos r) = 64%nat ->
  runs (E := E) (cmos_error err equip floppy disk) r tt (SET_cmos (repaired err equip floppy disk (cmos r)) r).
Proof.
  intros HL. unfold cmos_error.
  do 6 (eapply runs_bind; [apply put_run; cbn [cmos SET_cmos]; rewrite ?put_length, HL; reflexivity|]).
  do 2 (eapply runs_bind; [apply put2_run; cbn [cmos SET_cmos]; rewrite ?put_length, HL; reflexivity|]).
  eapply runs_eq; [apply sum_run; cbn [cmos SET_cmos]; rewrite !put_length; exact HL | reflexivity].
Qed.

Ltac at_puts :=
  repeat (rewrite at_put;
    [| rewrite ?put_length; match goal with HL : length ?c = 64%nat |- context [length ?c] => rewrite HL end; split; [discriminate | reflexivity] | discriminate]).
Ltac at_consts :=
  cbn [andb Z.eqb Pos.eqb CMOS_SHUT_DOWN CMOS_REG_D CMOS_DIAG CMOS_EQUIP CMOS_DISKETTE CMOS_DISK
       CMOS_B_M_S_LO CMOS_B_M_S_HI CMOS_E_M_S_LO CMOS_E_M_S_HI CMOS_CKSUM_LO CMOS_CKSUM_HI];
  rewrite ?andb_false_r, ?andb_true_r.

Lemma u8_byte x : u8 (u8 x) = u8 x.
Proof. apply u8_small, u8_range. Qed.
Lemma u8_extended : u8 extended_lo = extended_lo /\ u8 extended_hi = extended_hi.
Proof.
  unfold extended_lo, extended_hi. change 0xff with (2 ^ 8 - 1). rewrite !land_mask by lia. split; apply u8_byte.
Qed.

(** A byte that is put right when it is wrong is right. *)
Lemma mended a v : negb (v =? (if negb (v =? a) then v else a)) = false.
Proof. destruct (Z.eqb_spec v a) as [->|]; cbn [negb]; rewrite Z.eqb_refl; reflexivity. Qed.
Lemma mended' a v : negb ((if negb (a =? v) then v else a) =? v) = false.
Proof. rewrite Z.eqb_sym, (Z.eqb_sym a). apply mended. Qed.
Lemma mended_xor a v : negb (v .^ (if negb (v .^ a =? 0) then v else a) =? 0) = false.
Proof. destruct (Z.eqb_spec (v .^ a) 0) as [E1|]; cbn [negb]; [rewrite E1 | rewrite Z.lxor_nilpotent]; reflexivity. Qed.
Lemma mended_pair a v b w :
  negb ((if negb (a =? v) || negb (b =? w) then v else a) =? v) || negb ((if negb (a =? v) || negb (b =? w) then w else b) =? w) = false.
Proof. destruct (Z.eqb_spec a v), (Z.eqb_spec b w); subst; cbn [negb orb]; rewrite ?Z.eqb_refl; reflexivity. Qed.
Lemma mended_power a : ((if a .& VRT =? 0 then REG_D_INIT else a) .& VRT =? 0) = false.
Proof. destruct (a .& VRT =? 0) eqn:E1; [reflexivity | exact E1]. Qed.

Lemma faults_frame c c' : (forall i, 13 <= i < 46 -> at_ c' i = at_ c i) -> faults e c' = faults e c.
Proof.
  intros HA. unfold faults. rewrite !HA by (unfold CMOS_SHUT_DOWN, CMOS_REG_D, CMOS_DIAG, CMOS_EQUIP, CMOS_DISKETTE, CMOS_DISK,
    CMOS_B_M_S_LO, CMOS_B_M_S_HI, CMOS_E_M_S_LO, CMOS_E_M_S_HI; lia). reflexivity.
Qed.

Lemma summed_faults b c : length c = 64%nat -> faults e (summed b c) = faults e c.
Proof.
  intros HL. apply faults_frame. intros i Hi. unfold summed. rewrite !at_put by (rewrite ?put_length; unfold CMOS_CKSUM_HI, CMOS_CKSUM_LO; lia).
  unfold CMOS_CKSUM_HI, CMOS_CKSUM_LO. rewrite (proj2 (Z.eqb_neq i 0x2e)), (proj2 (Z.eqb_neq i 0x2f)), !andb_false_r by lia. reflexivity.
Qed.

(** The bytes repaired, and their checksum. *)
Lemma repaired_checks c : length c = 64%nat ->
  let c' := repaired (errors e c) e floppy_byte (u8 fixed_disk_type) c in
  length c' = 64%nat /\ (errors e c <> 0 -> errors e c' = 0).
Proof.
  intros HL. pose proof (errors_bits e c) as HB. pose proof (equipment_byte Hadapter) as He. destruct u8_extended as [Elo Ehi].
  assert (Hf : forall k b, (k < 8)%nat -> faults e c !! k = Some b -> negb (errors e c .& Z.shiftl 1 (Z.of_nat k) =? 0) = b)
    by (intros k b Hk Hb; rewrite HB, Hb by exact Hk; reflexivity).
  unfold repaired.
  change BAD_SHUT_DOWN with (Z.shiftl 1 (Z.of_nat 0)). change BAD_REG_D with (Z.shiftl 1 (Z.of_nat 1)).
  change BAD_DIAG with (Z.shiftl 1 (Z.of_nat 2)). change BAD_EQUIP with (Z.shiftl 1 (Z.of_nat 3)).
  change BAD_FLOPPY with (Z.shiftl 1 (Z.of_nat 4)). change BAD_DISK with (Z.shiftl 1 (Z.of_nat 5)).
  change BAD_BMS with (Z.shiftl 1 (Z.of_nat 6)). change BAD_XMS with (Z.shiftl 1 (Z.of_nat 7)).
  rewrite (Hf 0%nat _ ltac:(lia) eq_refl), (Hf 1%nat _ ltac:(lia) eq_refl), (Hf 2%nat _ ltac:(lia) eq_refl), (Hf 3%nat _ ltac:(lia) eq_refl),
    (Hf 4%nat _ ltac:(lia) eq_refl), (Hf 5%nat _ ltac:(lia) eq_refl), (Hf 6%nat _ ltac:(lia) eq_refl), (Hf 7%nat _ ltac:(lia) eq_refl).
  match goal with |- context [summed _ ?x] => set (c8 := x) end.
  assert (L8 : length c8 = 64%nat) by (unfold c8; rewrite !put_length; exact HL).
  split; [unfold summed; rewrite !put_length; exact L8|]. intros Hne. rewrite (proj2 (Z.eqb_neq _ _) Hne). cbn [negb].
  unfold errors. rewrite (summed_checks c8 L8), (summed_faults _ _ L8), andb_false_r, Z.lor_0_r.
  unfold faults, c8. at_puts. at_consts.
  rewrite (u8_small e), Elo, Ehi, (u8_byte fixed_disk_type), (u8_small floppy_byte) by (try apply u8_range; lia).
  change (u8 SHUT_INIT) with 0. change (u8 DIAG_INIT) with 0. change (u8 REG_D_INIT) with REG_D_INIT.
  change (u8 BM_LO_INIT) with BM_LO_INIT. change (u8 BM_HI_INIT) with BM_HI_INIT.
  rewrite !mended', mended_power, mended_xor, !mended, !mended_pair. reflexivity.
Qed.

Lemma errors_frame c c' : length c = length c' -> (forall i, 13 <= i < 48 -> at_ c' i = at_ c i) -> errors e c' = errors e c.
Proof.
  intros HL HA. unfold errors, bad_sum. rewrite (faults_frame c c'), (checksum_frame c' c) by (intros; try apply HA; congruence || lia).
  rewrite (HA CMOS_CKSUM_LO), (HA CMOS_CKSUM_HI) by (unfold CMOS_CKSUM_LO, CMOS_CKSUM_HI; lia). reflexivity.
Qed.

Lemma lor_zero a b : a .| b = 0 -> a = 0 /\ b = 0.
Proof. apply Z.lor_eq_0_iff. Qed.

(** No error is a healthy chip. *)
Lemma errors_healthy c : length c = 64%nat -> Forall (fun b => 0 <= b < 256) c -> errors e c = 0 -> healthy e c.
Proof.
  intros HL HB HE. unfold errors in HE. apply lor_zero in HE as [Q1 Q2]. rewrite Q1 in Q2. cbn [Z.eqb andb] in Q2.
  destruct (bad_sum c) eqn:Hs; [discriminate Q2|]. unfold bad_sum in Hs. apply orb_false_iff in Hs as [S1 S2].
  apply negb_false_iff, Z.eqb_eq in S1. apply negb_false_iff, Z.eqb_eq in S2.
  unfold faults, bits in Q1. repeat (apply lor_zero in Q1 as [?F Q1]).
  assert (HX : forall b : bool, forall m, (if b then Z.pos m else 0) = 0 -> b = false) by (intros [] m; [discriminate | reflexivity]).
  apply HX in F, F0, F1, F2, F3, F4, F5, F6.
  apply orb_false_iff in F5 as [F5 F5']. apply orb_false_iff in F6 as [F6 F6'].
  split; rewrite ?negb_false_iff, ?Z.eqb_eq in *; try (split; assumption); try congruence.
  - lia.
  - apply Z.lxor_eq in F2. congruence.
  - rewrite <- S1, <- S2. change 0xff with (2 ^ 8 - 1). rewrite land_mask, Z.shiftr_div_pow2 by lia.
    rewrite (Z.add_comm (_ mod _)). apply (Z.div_mod _ (2 ^ 8)). lia.
Qed.

(** *** Over the bus *)

(** The ports lead here and the BIOS's accesses are not virtualised. *)
Record attached (r : rtc W) : Prop := {
  at_in : Ios.Ios_in_adapter_table (bus r) CMOS_DATA = CMOS_ADAPTOR;
  at_out p : p = CMOS_PORT \/ p = CMOS_DATA -> Ios.Ios_out_adapter_table (bus r) p = CMOS_ADAPTOR;
  at_inb : Ios.Ios_function (bus r) Ios.INB CMOS_ADAPTOR = Ios.dev CMOS_ADAPTOR;
  at_outb : Ios.Ios_function (bus r) Ios.OUTB CMOS_ADAPTOR = Ios.dev CMOS_ADAPTOR;
  at_real : VM (fl (the_cpu (machine r))) = 0 /\ CPL (the_cpu (machine r)) <= IOPL (fl (the_cpu (machine r)))
}.

Lemma direct_run (r : rtc W) port value offset : attached r ->
  runs (Ios.c_IOVirtualised (H1 := HasCpu_rtc) biosDoInst selectors port value offset) r None r.
Proof.
  intros [_ _ _ _ [Hv Hc]]. intros s Hs. unfold Ios.c_IOVirtualised, bind, getc, gets. cbn [the_cpu HasCpu_rtc]. rewrite Hs, Hv. cbn [Z.eqb negb].
  rewrite (proj2 (Z.ltb_ge _ _) Hc). exact (runs_ret None r s Hs).
Qed.

Lemma outb_run (r r' : rtc W) port v : attached r -> port = CMOS_PORT \/ port = CMOS_DATA ->
  runs (cmos_outb fuel port v) r tt r' -> runs (bios_outb fuel port v) r tt r'.
Proof.
  intros HA Hp Hr. unfold bios_outb, Ios.outb. eapply runs_bind; [apply direct_run, HA|]. cbv beta iota.
  assert (Ha : Ios.Ios_out_adapter_table (bus r) (port .& (Ios.PC_IO_MEM_SIZE - 1)) = CMOS_ADAPTOR)
    by (destruct Hp as [-> | ->]; apply (at_out r HA); auto).
  eapply runs_bind; [|].
  - unfold Ios.routine. eapply (runs_bind _ _ r CMOS_ADAPTOR r); [|].
    + intros s Hs. unfold Ios.get_ios, gets. cbn [Ios.the_ios HasIos_rtc Ios.adapter_of]. rewrite Hs, Ha. exact (runs_ret _ r s Hs).
    + change ((0 <=? CMOS_ADAPTOR) && (CMOS_ADAPTOR <? Ios.IO_MAX_NUMBER_ADAPTORS)) with true. cbv iota.
      intros s Hs. unfold Ios.get_ios, gets. cbn [Ios.the_ios HasIos_rtc]. rewrite Hs, (at_outb r HA). exact (runs_ret _ r s Hs).
  - cbn [Ios.call_outb Ios.dev_outb Adapters_rtc]. change (CMOS_ADAPTOR =? CMOS_ADAPTOR) with true. exact Hr.
Qed.

Lemma inb_run (r r' : rtc W) v : attached r -> 0 <= v < 256 ->
  runs (E := E) (cmos_inb CMOS_DATA unset) r v r' -> runs (bios_inb fuel CMOS_DATA) r v r'.
Proof.
  intros HA Hv Hr. unfold bios_inb, Ios.inb. eapply runs_bind; [apply direct_run, HA|]. cbv beta iota.
  eapply runs_bind; [|].
  - unfold Ios.routine. eapply (runs_bind _ _ r CMOS_ADAPTOR r); [|].
    + intros s Hs. unfold Ios.get_ios, gets. cbn [Ios.the_ios HasIos_rtc Ios.adapter_of]. rewrite Hs.
      change (CMOS_DATA .& (Ios.PC_IO_MEM_SIZE - 1)) with CMOS_DATA. rewrite (at_in r HA). exact (runs_ret _ r s Hs).
    + change ((0 <=? CMOS_ADAPTOR) && (CMOS_ADAPTOR <? Ios.IO_MAX_NUMBER_ADAPTORS)) with true. cbv iota.
      intros s Hs. unfold Ios.get_ios, gets. cbn [Ios.the_ios HasIos_rtc]. rewrite Hs, (at_inb r HA). exact (runs_ret _ r s Hs).
  - cbn [Ios.call_inb Ios.dev_inb Adapters_rtc]. change (CMOS_ADAPTOR =? CMOS_ADAPTOR) with true.
    eapply runs_bind; [exact Hr|]. rewrite u8_small by lia. apply runs_ret.
Qed.

Definition selected (i : Z) (r : rtc W) : rtc W := SET_cmos_register i (SET_cmos_index i r).
Definition stored (i v : Z) (r : rtc W) : rtc W := SET_cmos (<[Z.to_nat i := v]> (cmos r)) r.

Lemma selected_ok i r : 0 <= i < 64 -> rtc_ok r -> rtc_ok (selected i r).
Proof. intros Hi []. split; try assumption; reflexivity. Qed.
Lemma selected_attached i r : attached r -> attached (selected i r).
Proof. intros []. split; assumption. Qed.
Lemma stored_attached i v r : attached r -> attached (stored i v r).
Proof. intros []. split; assumption. Qed.
Lemma stored_ok i v r : 0 <= v < 256 -> rtc_ok r -> rtc_ok (stored i v r).
Proof. intros Hv Hr. unfold stored. rewrite <- (u8_small v) by lia. apply ok_set_byte, Hr. Qed.

Lemma select_run (r : rtc W) i v : attached r -> v .& CMOS_ADDR_MASK = i -> runs (bios_outb fuel CMOS_PORT v) r tt (selected i r).
Proof. intros HA <-. apply outb_run; [exact HA | auto|]. apply runs_modr. Qed.

(** The BIOS reads a register of the clock. *)
Lemma read_time_run r i v : rtc_ok r -> attached r -> i = CMOS_SECONDS \/ i = CMOS_MINUTES \/ i = CMOS_HOURS ->
  time_register (chip_of r) i = Some v ->
  runs (cmos_read fuel (i + NMI_DISABLE)) r v (selected CMOS_SHUT_DOWN (stored i v (selected i r))).
Proof.
  intros HO HA Hi Ht. assert (Hi' : 0 <= i < 64) by (unfold CMOS_SECONDS, CMOS_MINUTES, CMOS_HOURS in Hi; lia).
  pose proof (time_byte _ _ _ Ht) as Hv. pose proof (selected_ok i r Hi' HO) as HO1. unfold cmos_read.
  eapply runs_bind; [apply (select_run r i); [exact HA | destruct Hi as [-> | [-> | ->]]; reflexivity]|].
  eapply runs_bind; [apply inb_run; [apply selected_attached, HA | exact Hv|]|].
  - eapply (inb_time (chip_of (selected i r))); [apply shows_chip_of, HO1 | reflexivity | exact Ht].
  - eapply runs_bind; [apply (select_run _ CMOS_SHUT_DOWN); [apply stored_attached, selected_attached, HA | destruct Hi as [-> | [-> | ->]]; reflexivity]|].
    cbn [cmos_index selected SET_cmos_index SET_cmos_register]. rewrite u8_small by lia. apply runs_ret.
Qed.

(** Guest memory as a part of the machine that the processor's registers are not in. *)
Class GuestMemory (poke pokew : Z -> Z -> W -> W) : Prop := {
  gm_store a v s : sas_store a v s = Ret (E := E) tt (SET_world (SET_machine (poke a v (machine (world s))) (world s)) s);
  gm_storew a v s : sas_storew a v s = Ret (E := E) tt (SET_world (SET_machine (pokew a v (machine (world s))) (world s)) s);
  gm_cpu a v w : the_cpu (poke a v w) = the_cpu w;
  gm_cpuw a v w : the_cpu (pokew a v w) = the_cpu w
}.
Context {poke pokew : Z -> Z -> W -> W} `{!GuestMemory poke pokew}.

Lemma poke_run a v (r : rtc W) : runs (E := E) (sas_store a v) r tt (SET_machine (poke a v (machine r)) r).
Proof. intros s <-. apply gm_store. Qed.
Lemma pokew_run a v (r : rtc W) : runs (E := E) (sas_storew a v) r tt (SET_machine (pokew a v (machine r)) r).
Proof. intros s <-. apply gm_storew. Qed.

Definition valid_time (t : host_tm) : Prop := 0 <= tm_sec t < 60 /\ 0 <= tm_min t < 60 /\ 0 <= tm_hour t < 24.

(** The ticks of the day, at about 18.2 in a second. *)
Definition day_ticks (t : host_tm) : Z := tm_sec t * 73 / 4 + tm_min t * 2185 / 2 + tm_hour t * 65543.

Lemma bcd_digits x : 0 <= x < 100 -> yes_bin2bcd x = x / 10 * 16 + x mod 10.
Proof.
  intros Hx. unfold yes_bin2bcd. rewrite Z.quot_div_nonneg by lia.
  assert (0 <= x / 10 < 10) by (split; [apply Z.div_pos | apply Z.div_lt_upper_bound]; lia).
  rewrite (u8_small (x / 10)) by lia. rewrite Z.shiftl_mul_pow2 by lia. change (2 ^ 4) with 16. rewrite (u32_small (x / 10 * 16)) by lia.
  pose proof (Z.mod_pos_bound x 10 ltac:(lia)). pose proof (Z_div_mod_eq_full x 10). rewrite (u8_small (x - x / 10 * 10)) by lia. rewrite u8_small by lia. lia.
Qed.

Lemma BCD_TO_BIN_digits x : 0 <= x < 100 -> BCD_TO_BIN (yes_bin2bcd x) = x /\ yes_bcd2bin (yes_bin2bcd x) = x.
Proof.
  intros Hx. rewrite bcd_digits by exact Hx. unfold BCD_TO_BIN, yes_bcd2bin. pose proof (Z.mod_pos_bound x 10 ltac:(lia)).
  assert (0 <= x / 10 < 10) by (split; [apply Z.div_pos | apply Z.div_lt_upper_bound]; lia).
  change 0xf with (2 ^ 4 - 1). rewrite !land_mask by lia. rewrite !Z.shiftr_div_pow2 by lia. change (2 ^ 4) with 16.
  pose proof (Z_div_mod_eq_full x 10). Z.div_mod_to_equations. lia.
Qed.

Lemma time_values (r : rtc W) : data_mode_yes r = true -> twenty4_hour_clock r = true ->
  time_register (chip_of r) CMOS_SECONDS = Some (yes_bin2bcd (tm_sec (result r)))
  /\ time_register (chip_of r) CMOS_MINUTES = Some (yes_bin2bcd (tm_min (result r)))
  /\ time_register (chip_of r) CMOS_HOURS = Some (yes_bin2bcd (tm_hour (result r))).
Proof. intros Hd Hh. unfold time_register, hours, number. cbn. rewrite Hd, Hh. auto. Qed.

Lemma machine_ok w (r : rtc W) : rtc_ok r -> rtc_ok (SET_machine w r).
Proof. intros []. split; assumption. Qed.
Lemma machine_attached w r : the_cpu w = the_cpu (machine r) -> attached r -> attached (SET_machine w r).
Proof. intros Hw [? ? ? ? HR]. split; try assumption. cbn. rewrite Hw. exact HR. Qed.

(** What [set_tod] does to the chip: the three bytes it reads. *)
Definition tod_bytes (t : host_tm) (c : list Z) : list Z :=
  <[4%nat := yes_bin2bcd (tm_hour t)]> (<[2%nat := yes_bin2bcd (tm_min t)]> (<[0%nat := yes_bin2bcd (tm_sec t)]> c)).
Definition tod_memory (t : host_tm) (w : W) : W :=
  pokew TIMER_HIGH (u16 (day_ticks t .>> 16)) (pokew TIMER_LOW (u16 (day_ticks t))
    (poke TIMER_OVFL 0 (pokew TIMER_HIGH 0 (pokew TIMER_LOW 0 w)))).

Lemma set_tod_run (r : rtc W) : rtc_ok r -> attached r -> data_mode_yes r = true -> twenty4_hour_clock r = true -> valid_time (result r) ->
  runs (set_tod fuel) r tt
    (selected CMOS_SHUT_DOWN (SET_cmos (tod_bytes (result r) (cmos r)) (SET_machine (tod_memory (result r) (machine r)) r))).
Proof.
  intros HO HA Hd Hh (Hs & Hm & Hr). set (t := result r) in *.
  assert (HB : forall x, 0 <= x < 100 -> 0 <= yes_bin2bcd x < 256) by (intros; unfold yes_bin2bcd; apply u8_range).
  set (w1 := poke TIMER_OVFL 0 (pokew TIMER_HIGH 0 (pokew TIMER_LOW 0 (machine r)))).
  set (r1 := SET_machine w1 r). assert (HA1 : attached r1) by (apply machine_attached; [unfold w1; rewrite gm_cpu, !gm_cpuw; reflexivity | exact HA]).
  assert (HO1 : rtc_ok r1) by apply machine_ok, HO.
  set (r2 := selected CMOS_SHUT_DOWN (stored CMOS_SECONDS (yes_bin2bcd (tm_sec t)) (selected CMOS_SECONDS r1))).
  assert (HA2 : attached r2) by apply selected_attached, stored_attached, selected_attached, HA1.
  assert (HO2 : rtc_ok r2) by (apply selected_ok; [unfold CMOS_SHUT_DOWN; lia|]; apply stored_ok; [apply HB; lia|]; apply selected_ok; [unfold CMOS_SECONDS; lia | exact HO1]).
  set (r3 := selected CMOS_SHUT_DOWN (stored CMOS_MINUTES (yes_bin2bcd (tm_min t)) (selected CMOS_MINUTES r2))).
  assert (HA3 : attached r3) by apply selected_attached, stored_attached, selected_attached, HA2.
  assert (HO3 : rtc_ok r3) by (apply selected_ok; [unfold CMOS_SHUT_DOWN; lia|]; apply stored_ok; [apply HB; lia|]; apply selected_ok; [unfold CMOS_MINUTES; lia | exact HO2]).
  assert (HL : forall x, 0 <= x < 60 -> (0x59 <? yes_bin2bcd x) = false)
    by (intros x Hx; rewrite bcd_digits by lia; Z.div_mod_to_equations; lia).
  assert (HH : (0x23 <? yes_bin2bcd (tm_hour t)) = false).
  { rewrite bcd_digits by lia. Z.div_mod_to_equations. lia. }
  unfold set_tod. eapply runs_bind; [apply pokew_run|]. eapply runs_bind; [apply pokew_run|]. eapply runs_bind; [apply poke_run|].
  eapply runs_bind; [apply (read_time_run r1 CMOS_SECONDS); [exact HO1 | exact HA1 | auto | apply time_values; assumption]|]. change (result r1) with t. fold r2.
  rewrite (HL (tm_sec t)) by lia. cbv zeta.
  eapply runs_bind; [apply (read_time_run r2 CMOS_MINUTES); [exact HO2 | exact HA2 | auto | apply time_values; assumption]|]. change (result r2) with t. fold r3.
  rewrite (HL (tm_min t)) by lia. cbv zeta.
  eapply runs_bind; [apply (read_time_run r3 CMOS_HOURS); [exact HO3 | exact HA3 | auto | apply time_values; assumption]|].
  change (result r3) with t. rewrite HH. destruct (BCD_TO_BIN_digits (tm_sec t) ltac:(lia)) as [-> _].
  destruct (BCD_TO_BIN_digits (tm_min t) ltac:(lia)) as [-> _]. destruct (BCD_TO_BIN_digits (tm_hour t) ltac:(lia)) as [-> _].
  fold (day_ticks t). rewrite u32_small by (unfold day_ticks; Z.div_mod_to_equations; lia).
  eapply runs_bind; [apply pokew_run|]. eapply runs_eq; [apply pokew_run | reflexivity].
Qed.

(** The bytes the test may write: the clock's it reads, its registers, what it tests, the
    checksum and the memory size. *)
Definition post_bytes : list Z :=
  [CMOS_SECONDS; CMOS_MINUTES; CMOS_HOURS; CMOS_REG_A; CMOS_REG_D; CMOS_DIAG; CMOS_SHUT_DOWN; CMOS_DISKETTE; CMOS_DISK; CMOS_EQUIP;
   CMOS_B_M_S_LO; CMOS_B_M_S_HI; CMOS_E_M_S_LO; CMOS_E_M_S_HI; CMOS_CKSUM_HI; CMOS_CKSUM_LO; CMOS_U_M_S_LO; CMOS_U_M_S_HI].

Lemma repaired_others c err equip floppy disk i : length c = 64%nat -> 0 <= i -> i ∉ post_bytes -> at_ (repaired err equip floppy disk c) i = at_ c i.
Proof.
  intros HL Hi Hn. unfold post_bytes in Hn. rewrite !not_elem_of_cons in Hn. destruct_and! Hn. unfold repaired, summed.
  repeat (rewrite at_put; [| rewrite ?put_length, HL; split; [discriminate | reflexivity] | exact Hi]).
  repeat match goal with Hne : i <> ?k |- context [i =? ?k] => rewrite (proj2 (Z.eqb_neq i k) Hne) end.
  rewrite !andb_false_r. reflexivity.
Qed.

Lemma repaired_bytes c err equip floppy disk : Forall (fun b => 0 <= b < 256) c -> Forall (fun b => 0 <= b < 256) (repaired err equip floppy disk c).
Proof.
  assert (HP : forall b i v l, Forall (fun b => 0 <= b < 256) l -> Forall (fun b => 0 <= b < 256) (put_byte b i v l))
    by (intros [] i v l Hl; [apply Forall_insert; [exact Hl | apply u8_range] | exact Hl]).
  intros Hc. unfold repaired, summed. repeat apply HP. exact Hc.
Qed.

(** What the test leaves in the bytes, given those after the repair. *)
Definition post_leaves (t : host_tm) (c : list Z) : list Z :=
  <[49%nat := u8 extended_hi]> (<[48%nat := u8 extended_lo]> (tod_bytes t (<[10%nat := u8 REG_A_INIT]> c))).

Lemma post_leaves_length t c : length (post_leaves t c) = length c.
Proof. unfold post_leaves, tod_bytes. rewrite !length_insert. reflexivity. Qed.

Lemma post_leaves_at t c i : i <> 0 -> i <> 2 -> i <> 4 -> i <> 10 -> i <> 48 -> i <> 49 -> 0 <= i -> at_ (post_leaves t c) i = at_ c i.
Proof. intros. unfold at_, post_leaves, tod_bytes. rewrite !list_lookup_insert_ne by lia. reflexivity. Qed.

Lemma post_leaves_bytes t c : Forall (fun b => 0 <= b < 256) c -> Forall (fun b => 0 <= b < 256) (post_leaves t c).
Proof.
  intros Hc. unfold post_leaves, tod_bytes, yes_bin2bcd. repeat (apply Forall_insert; [|apply u8_range]). exact Hc.
Qed.

(** The machine the test hands over. *)
Definition posted (c : list Z) (r : rtc W) : rtc W :=
  selected CMOS_SHUT_DOWN (SET_cmos c (SET_machine (tod_memory (result r) (machine r)) r)).

Lemma cmos_post_run r : rtc_ok r -> attached r -> data_mode_yes r = true -> twenty4_hour_clock r = true -> valid_time (result r) ->
  exists c1, runs (cmos_post fuel) r tt (posted (post_leaves (result r) c1) r)
  /\ length c1 = 64%nat /\ Forall (fun b => 0 <= b < 256) c1 /\ errors e c1 = 0
  /\ (forall i, 0 <= i -> i ∉ post_bytes -> at_ c1 i = at_ (cmos r) i).
Proof.
  intros HO HA Hd Hh Ht. pose proof (ok_len _ HO) as HL. set (c := cmos r) in *. destruct (repaired_checks c HL) as [HL1 HE1].
  set (c1 := if errors e c =? 0 then c else repaired (errors e c) e floppy_byte (u8 fixed_disk_type) c).
  assert (L1 : length c1 = 64%nat) by (unfold c1; destruct (_ =? 0); assumption).
  assert (B1 : Forall (fun b => 0 <= b < 256) c1) by (unfold c1; destruct (_ =? 0); [|apply repaired_bytes]; apply (ok_bytes _ HO)).
  exists c1. split; [|split; [exact L1 | split; [exact B1 | split]]].
  - set (r1 := SET_cmos c1 r). unfold cmos_post. eapply runs_bind; [apply post_check_run, HO|]. cbv beta iota. fold c.
    eapply (runs_bind _ _ _ tt r1).
    { apply runs_when; intros Eb; unfold r1, c1.
      - rewrite (negb_true_iff _) in Eb. rewrite Eb. apply cmos_error_run, HL.
      - apply negb_false_iff in Eb. rewrite Eb. unfold c. destruct r; reflexivity. }
    eapply runs_bind; [apply runs_wr; cbn [cmos r1 SET_cmos]; rewrite L1; reflexivity|].
    eapply runs_bind; [apply set_tod_run; try assumption; [|destruct HA; split; assumption]|].
    { destruct HO. split; try assumption; cbn [cmos SET_cmos r1]; [rewrite length_insert; exact L1|].
      apply Forall_insert; [exact B1 | apply u8_range]. }
    eapply runs_bind; [apply runs_wr; unfold selected, tod_bytes, r1; cbn [cmos SET_cmos SET_machine SET_cmos_index SET_cmos_register]; rewrite !length_insert, L1; reflexivity|].
    eapply runs_bind; [apply runs_wr; unfold selected, tod_bytes, r1; cbn [cmos SET_cmos SET_machine SET_cmos_index SET_cmos_register]; rewrite !length_insert, L1; reflexivity|].
    eapply runs_eq; [apply runs_modr | reflexivity].
  - unfold c1. destruct (Z.eqb_spec (errors e c) 0) as [E0|E0]; [exact E0 | apply HE1, E0].
  - intros i Hi Hn. unfold c1. destruct (_ =? 0); [reflexivity | apply repaired_others; assumption].
Qed.

End Ports.

(** ** The alarm in the queue of ticks *)

Section Alarm.
Context {E W : Type} `{HasCpu W} `{Config} `{Env E W} `{Callbacks E (rtc W)} (fuel : nat).
Abbreviation X := (M E (sched (rtc W))).

(** The seconds of the day a time and the alarm registers stand for. *)
Definition seconds_of (t : host_tm) : Z := tm_sec t + 60 * tm_min t + 3600 * tm_hour t.
Definition alarm_seconds (c : list Z) : Z :=
  yes_bcd2bin (at_ c CMOS_SEC_ALARM) + yes_bcd2bin (at_ c CMOS_MIN_ALARM) * 60 + yes_bcd2bin (at_ c CMOS_HR_ALARM) * 3600.

(** The alarm registers hold a time of day. *)
Definition alarm_valid (c : list Z) : Prop :=
  at_ c CMOS_HR_ALARM < 0x40 /\ 0 <= alarm_seconds c < 86400.

Lemma land_dont_care b : 0 <= b < 0x40 -> b .& DONT_CARE = 0.
Proof.
  intros Hb. apply Z.bits_inj'. intros i Hi. rewrite Z.land_spec, Z.testbit_0_l. destruct (Z_lt_le_dec i 6).
  - replace (Z.testbit DONT_CARE i) with false; [apply andb_false_r|].
    assert (Hc : i = 0 \/ i = 1 \/ i = 2 \/ i = 3 \/ i = 4 \/ i = 5) by lia. destruct Hc as [-> | [-> | [-> | [-> | [-> | ->]]]]]; reflexivity.
  - replace (Z.testbit b i) with false; [reflexivity|]. symmetry. destruct (Z.eq_dec b 0) as [->|]; [apply Z.testbit_0_l|].
    apply Z.bits_above_log2; [lia|]. apply Z.log2_lt_pow2; [lia|]. assert (2 ^ 6 <= 2 ^ i) by (apply Z.pow_le_mono_r; lia). lia.
Qed.

Lemma alarm_in_run (r : rtc W) : rtc_ok r -> data_mode_yes r = true -> twenty4_hour_clock r = true -> valid_time (result r) -> alarm_valid (cmos r) ->
  runs (E := E) alarm_in r ((alarm_seconds (cmos r) - seconds_of (result r)) mod 86400) r.
Proof.
  intros HO Hd Hh (Hs & Hm & Hr) [Hc Ha]. set (c := cmos r) in *. set (t := result r) in *.
  assert (HB : 0 <= at_ c CMOS_HR_ALARM) by (destruct (byte_at r CMOS_HR_ALARM HO) as (b & Hb & Hbr); [unfold CMOS_HR_ALARM; lia|]; unfold at_, c; rewrite Hb; cbn; lia).
  assert (HF : forall x, runs (E := E) (call_bcd2bin x) r (yes_bcd2bin x) r)
    by (intros x; eapply runs_bind; [apply runs_getr|]; rewrite (ok_bcd2bin _ HO), Hd; apply runs_ret).
  unfold alarm_in, test.
  eapply runs_bind; [eapply runs_bind; [apply (rd_run r _ HO); unfold CMOS_HR_ALARM; lia | apply runs_ret]|].
  fold c. rewrite land_dont_care by lia. cbn [negb Z.eqb].
  eapply runs_bind; [apply (rd_run r _ HO); unfold CMOS_SEC_ALARM; lia|]. eapply runs_bind; [apply HF|].
  eapply runs_bind; [apply (rd_run r _ HO); unfold CMOS_MIN_ALARM; lia|]. eapply runs_bind; [apply HF|].
  eapply runs_bind; [apply (rd_run r _ HO); unfold CMOS_HR_ALARM; lia|]. eapply runs_bind; [apply HF|].
  eapply (runs_bind _ _ r (yes_bcd2bin (at_ c CMOS_HR_ALARM)) r).
  { eapply runs_bind; [apply runs_getr|]. rewrite (ok_12to24 _ HO), Hh. apply runs_ret. }
  do 3 (eapply runs_bind; [apply runs_tm, (ok_ht _ HO)|]). cbv zeta. fold c t. fold (seconds_of t) (alarm_seconds c).
  unfold s32. change (tm_sec t + 60 * tm_min t + 3600 * tm_hour t) with (seconds_of t).
  assert (HS : 0 <= seconds_of t < 86400) by (unfold seconds_of; lia).
  assert (SG : forall x, - 2 ^ 31 <= x < 2 ^ 31 -> sgn 32 x = x).
  { intros x Hx. unfold sgn. cbv zeta. destruct (Z_lt_le_dec x 0).
    - replace (x mod 2 ^ 32) with (x + 2 ^ 32) by (apply Z.mod_unique with (-1); lia). rewrite (proj2 (Z.ltb_ge _ _)); lia.
    - rewrite Z.mod_small by lia. rewrite (proj2 (Z.ltb_lt _ _)); lia. }
  rewrite (SG (seconds_of t)) by lia. rewrite (SG (alarm_seconds c - seconds_of t)) by lia.
  replace ((alarm_seconds c - seconds_of t) mod 86400) with
    (if alarm_seconds c - seconds_of t <? 0 then alarm_seconds c - seconds_of t + 24 * 3600 else alarm_seconds c - seconds_of t); [apply runs_ret|].
  destruct (Z.ltb_spec (alarm_seconds c - seconds_of t) 0); [apply Z.mod_unique with (-1) | symmetry; apply Z.mod_small]; lia.
Qed.

Lemma represents_world a (s : sched (rtc W)) r : represents a s -> represents (mkSpec (pending a) (next_handle a) r) (SET_world r s).
Proof. intros []. split; try assumption. reflexivity. Qed.

(** Without the alarm that was in it, if any. *)
Definition without (h : Z) (p : agenda) : agenda := if 0 <? h then cancel h p else p.

(** C37 - The alarm goes into the queue of ticks at its time.  With the clock in the modes of
    [rtc_init], a valid time and an alarm at another time of the day, [set_alarm] returns;
    in the agenda the queue stands for, the event of the previous alarm is cancelled, the
    new one is due eighteen ticks for each second from now until the alarm's time of day
    next comes round, behind events due earlier or at the same tick, and nothing else
    moves; the handle kept is that of the new event. *)
Theorem alarm_scheduled a (s : sched (rtc W)) : represents a s -> rtc_ok (world s) -> data_mode_yes (world s) = true -> twenty4_hour_clock (world s) = true ->
  valid_time (result (world s)) -> alarm_valid (cmos (world s)) -> alarm_seconds (cmos (world s)) <> seconds_of (result (world s)) ->
  next_handle a < 0xffff -> (0 < room s)%nat ->
  let n := (alarm_seconds (cmos (world s)) - seconds_of (result (world s))) mod 86400 in
  let r' := SET_alarm_handle (next_handle a) (world s) in
  exists s', set_alarm fuel s = Ret (E := E) tt s' /\ world s' = r'
  /\ represents (mkSpec (schedule (18 * n) (mkJob ALARM 0 (next_handle a)) (without (alarm_handle (world s)) (pending a))) (next_handle a + 1) r') s'.
Proof.
  intros HR HO Hd Hh Ht Ha Hne Hn Hr n r'. set (r := world s) in *.
  assert (Hpos : 0 < n < 86400).
  { pose proof (Z.mod_pos_bound (alarm_seconds (cmos r) - seconds_of (result r)) 86400 ltac:(lia)) as HM. fold n in HM.
    destruct Ht as (? & ? & ?), Ha as [_ ?]. assert (0 <= seconds_of (result r) < 86400) by (unfold seconds_of; lia).
    assert (n <> 0); [|lia]. intros E0. apply Z.mod_divide in E0 as [k Hk]; lia. }
  assert (HC : exists s1, (when (0 <? alarm_handle r) (delete_tic_event fuel (alarm_handle r)) : X unit) s = Ret tt s1
    /\ represents (mkSpec (without (alarm_handle r) (pending a)) (next_handle a) (seen a)) s1 /\ (room s <= room s1)%nat).
  { unfold without. destruct (0 <? alarm_handle r).
    - destruct (cancel_run fuel (fun _ _ d => d) a s (alarm_handle r) HR) as (s1 & E1 & R1 & Q1 & _). exists s1.
      split; [|split; [exact R1 | exact Q1]]. cbn [run_op when] in *. unfold bind in E1.
      destruct (delete_tic_event fuel (alarm_handle r) s) as [[] s2| |]; [injection E1 as <-; reflexivity | discriminate E1..].
    - exists s. split; [reflexivity|]. split; [destruct a; exact HR | lia]. }
  destruct HC as (s1 & E1 & R1 & Q1).
  assert (W1 : world s1 = r) by (rewrite (rp_seen _ _ R1); symmetry; exact (rp_seen _ _ HR)).
  destruct (add_later _ s1 ALARM (18 * n) 0 R1 ltac:(lia) Hn ltac:(lia)) as (s2 & E2 & R2 & _).
  assert (W2 : world s2 = r) by (rewrite (rp_seen _ _ R2); rewrite <- (rp_seen _ _ R1); exact W1).
  exists (SET_world r' s2). split; [|split; [reflexivity | exact (represents_world _ _ r' R2)]].
  unfold set_alarm. rewrite (bind_ret _ _ _ _ _ (alarm_in_run r HO Hd Hh Ht Ha s eq_refl)). cbv zeta.
  assert (ES : SET_world r s = s) by (unfold r; destruct s; reflexivity). rewrite ES.
  unfold bind at 1, getr at 1, gets at 1. fold r. rewrite (bind_ret _ _ _ _ _ E1). fold n. rewrite (u32_small (18 * n)) by lia.
  rewrite (bind_ret _ _ _ _ _ E2). unfold modr, modify. rewrite W2. f_equal. unfold r'. rewrite u16_small; [reflexivity|].
  pose proof (lk_next _ _ _ (rp_linked _ _ HR)) as HL. rewrite (rp_next _ _ HR) in HL. cbn [next_handle]. lia.
Qed.

End Alarm.

(** ** The text of the bytes *)

Section Text.
Context {E W : Type} `{HasCpu W} `{Config} `{Env E W}.
Abbreviation X := (M E (sched (rtc W))).

Lemma hex_digit_read d : 0 <= d < 16 ->
  digit_of (hex_digit d) = Some d /\ isspace (hex_digit d) = false
  /\ code (hex_digit d) <> 45 /\ code (hex_digit d) <> 43 /\ code (hex_digit d) <> 120 /\ code (hex_digit d) <> 88.
Proof.
  intros Hd. assert (HF : forallb (fun d => let c := hex_digit d in
    (match digit_of c with Some x => x =? d | None => false end) && negb (isspace c)
    && negb (code c =? 45) && negb (code c =? 43) && negb (code c =? 120) && negb (code c =? 88)) (map Z.of_nat (seq 0 16)) = true) by reflexivity.
  rewrite forallb_forall in HF. specialize (HF d). cbv zeta in HF.
  assert (Hin : List.In d (map Z.of_nat (seq 0 16))) by (apply in_map_iff; exists (Z.to_nat d); split; [lia | apply in_seq; lia]).
  apply HF in Hin. rewrite !andb_true_iff, !negb_true_iff, !Z.eqb_neq in Hin. destruct Hin as [[[[[H1' H2'] H3'] H4'] H5'] H6'].
  destruct (digit_of (hex_digit d)) as [x|]; [|discriminate]. apply Z.eqb_eq in H1' as ->. auto 10.
Qed.

(** One number, after at most one space. *)
Lemma scan_byte b rest (sp : bool) (r : rtc W) : 0 <= b < 256 ->
  runs (E := E) (scan_hex ((if sp then [" "%char] else []) ++ print_byte b ++ rest)) r (Some (b, " "%char :: rest)) r.
Proof.
  intros Hb. assert (H1' : 0 <= b / 16 < 16) by (split; [apply Z.div_pos | apply Z.div_lt_upper_bound]; lia).
  pose proof (Z.mod_pos_bound b 16 ltac:(lia)) as H2'. destruct (hex_digit_read _ H1') as (D1 & S1 & M1 & P1 & _).
  destruct (hex_digit_read _ H2') as (D2 & _ & _ & _ & X1 & X2). unfold scan_hex, print_byte. cbn [app].
  set (c1 := hex_digit (b / 16)) in *. set (c2 := hex_digit (b mod 16)) in *.
  assert (ES : skip_spaces ((if sp then [" "%char] else []) ++ c1 :: c2 :: " "%char :: rest) = c1 :: c2 :: " "%char :: rest).
  { destruct sp; cbn [app skip_spaces]; [change (isspace " ") with true; cbv iota|]; rewrite S1; reflexivity. }
  rewrite ES, (proj2 (Z.eqb_neq _ _) M1), (proj2 (Z.eqb_neq _ _) P1). cbn [strip_0x].
  rewrite (proj2 (Z.eqb_neq _ _) X1), (proj2 (Z.eqb_neq _ _) X2), andb_false_r. cbn [digits1]. rewrite D1. cbn [digits]. rewrite D2.
  change (digit_of " ") with (@None Z). cbv iota. replace (16 * (b / 16) + b mod 16) with b by (apply Z.div_mod; lia).
  rewrite (proj2 (Z.leb_gt _ _)) by lia. replace (s32 b) with b; [apply runs_ret|].
  unfold s32, sgn. rewrite Z.mod_small by lia. rewrite (proj2 (Z.ltb_lt _ _)) by lia. reflexivity.
Qed.

Lemma take_insert_drop (c : list Z) i b l : (i + S (length l) <= length c)%nat ->
  take (S i) (<[i := b]> c) ++ l ++ drop (S i + length l) (<[i := b]> c) = take i c ++ (b :: l) ++ drop (i + S (length l)) c.
Proof.
  intros Hl. rewrite (take_S_r _ _ b) by (apply list_lookup_insert_eq; lia). rewrite take_insert_ge by lia. rewrite drop_insert_lt by lia.
  replace (S i + length l)%nat with (i + S (length l))%nat by lia. rewrite <- app_assoc. reflexivity.
Qed.

Lemma validate_run l : forall (sp : bool) i (r : rtc W), Forall (fun b => 0 <= b < 256) l -> (i + length l <= length (cmos r))%nat ->
  runs (E := E) (validate (length l) (Z.of_nat i) ((if sp then [" "%char] else []) ++ flat_map print_byte l)) r C_CONFIG_OP_OK
    (SET_cmos (take i (cmos r) ++ l ++ drop (i + length l) (cmos r)) r).
Proof.
  induction l as [|b l IH]; intros sp i r HB Hl.
  { cbn [length validate app]. rewrite Nat.add_0_r, take_drop. eapply runs_eq; [apply runs_ret | destruct r; reflexivity]. }
  apply Forall_cons in HB as [Hb HB]. cbn [length] in Hl. cbn [length validate flat_map].
  eapply runs_bind; [apply scan_byte, Hb|]. cbv beta iota. rewrite (proj2 (Z.ltb_ge 0xff b)) by lia.
  eapply runs_bind; [apply runs_wr; lia|]. rewrite Nat2Z.id, u8_small by lia. replace (Z.of_nat i + 1) with (Z.of_nat (S i)) by lia.
  eapply runs_eq; [apply (IH true (S i)); [exact HB | cbn [cmos SET_cmos]; rewrite length_insert; lia]|].
  cbn [cmos SET_cmos]. rewrite take_insert_drop by lia. reflexivity.
Qed.


End Text.

(** ** The periodic interrupt *)

Section Periodic.
Context {E W : Type} `{HasCpu W} `{Config} `{Env E W} (rest : Callbacks E (rtc W)).

(** The controller leaves the chip alone. *)
Context (Hica : forall s, exists w, ica_hw_interrupt s = Ret (E := E) tt (SET_world (SET_machine w (world s)) s)).

Lemma calc_time_pure n (s : sched (rtc W)) : (exists t, calc_q_time_for_inst n s = Ret (E := E) t s) \/ calc_q_time_for_inst n s = Undefined (E := E).
Proof.
  unfold calc_q_time_for_inst, bind, get_cal, gets, cdiv, ret, undefined.
  repeat (case_match; simplify_eq); first [right; reflexivity | left; eexists; reflexivity].
Qed.

(** With the rate of register A set to none while the interrupt is enabled, an event that
    is still in the queue never returns: its function adds the next event after no time
    at all, which calls the function at once. *)
Theorem periodic_diverges depth : forall par s,
  length (cmos (world s)) = 64%nat -> at_ (cmos (world s)) CMOS_REG_B .& PIE <> 0 -> rtc_period_mSeconds (world s) = 0 ->
  @call _ _ (callbacks rest depth) PERIODIC par s = Undefined.
Proof.
  induction depth as [|depth IH]; intros par s HL HB HP; [reflexivity|].
  cbn [callbacks call]. change (PERIODIC =? PERIODIC) with true. cbv iota. unfold rtc_periodic_event.
  assert (Hrd : forall i (r : rtc W), 0 <= i < 64 -> length (cmos r) = 64%nat -> cmos r !! Z.to_nat i = Some (at_ (cmos r) i)).
  { intros i r Hi Hr. destruct (lookup_lt_is_Some_2 (cmos r) (Z.to_nat i)) as [b Hb]; [lia|]. unfold at_. rewrite Hb. reflexivity. }
  rewrite (bind_ret _ _ _ _ _ (runs_test CMOS_REG_B PIE _ _ (Hrd CMOS_REG_B (world s) ltac:(unfold CMOS_REG_B; lia) HL) s eq_refl)).
  rewrite (proj2 (Z.eqb_neq _ _) HB). cbn [negb].
  set (s1 := SET_world (world s) s). unfold or_byte. rewrite bind_assoc.
  rewrite (bind_ret _ _ _ _ _ (runs_rd CMOS_REG_C _ (world s) (Hrd CMOS_REG_C _ ltac:(unfold CMOS_REG_C; lia) HL) s1 eq_refl)).
  rewrite (bind_ret _ _ _ _ _ (runs_wr CMOS_REG_C _ (world s) ltac:(rewrite HL; reflexivity) (SET_world (world s) s1) eq_refl)).
  match goal with |- bind _ _ ?x = _ => set (s2 := x) end. destruct (Hica s2) as [w Hw]. rewrite (bind_ret _ _ _ _ _ Hw).
  set (s3 := SET_world _ s2). unfold bind at 1, getr at 1, gets at 1. change (rtc_period_mSeconds (world s3)) with (rtc_period_mSeconds (world s)). rewrite HP.
  unfold add_q_event_t, gen_add_q_event. rewrite bind_assoc. unfold bind at 1, get_count at 1, gets at 1. rewrite bind_assoc.
  destruct (calc_time_pure (cpu_heartbeat s3) s3) as [[t Ht] | Ht]; [|unfold bind at 1; rewrite Ht; reflexivity].
  rewrite (bind_ret _ _ _ _ _ Ht). unfold add_event. rewrite !bind_assoc. unfold bind at 1, mod_q at 1, modify at 1.
  change (0 =? 0) with true. cbv iota. rewrite !bind_assoc. unfold bind at 1. rewrite IH; [reflexivity|..].
  - cbn. rewrite length_insert. exact HL.
  - unfold at_. cbn [cmos world s3 s2 SET_world SET_machine SET_cmos put_q SET_quick].
    rewrite list_lookup_insert_ne by (unfold CMOS_REG_B, CMOS_REG_C; lia). exact HB.
  - exact HP.
Qed.

End Periodic.

(** ** Concrete machines *)

(** Guest memory as the writes to it, newest first. *)
Definition demo : Type := (cpu * list (Z * Z))%type.

#[local] Instance HasCpu_demo : HasCpu demo.
Proof. refine {| the_cpu := fst; put_cpu := fun c w => (c, snd w) |}; intros; try reflexivity. destruct s; reflexivity. Defined.

Definition poke_demo (a v : Z) (w : demo) : demo := (fst w, (a, v) :: snd w).

#[local] Instance demo_config : Config :=
  {| gfx_adapter := 3; npx_enabled := true; floppy_a_device := true; gfi_drive_type d := if d =? 0 then 4 else 0;
     fixed_disk_type := 0x30; sas_memory_size := 0x1000000 |}.

(** The standalone machine's adapter, of [compat/platform.c]. *)
Definition standalone_config : Config :=
  {| gfx_adapter := 5; npx_enabled := false; floppy_a_device := true; gfi_drive_type d := if d =? 0 then 4 else 0;
     fixed_disk_type := 0x30; sas_memory_size := 0x1000000 |}.

(** Twenty two minutes and five seconds past two in the afternoon, on Friday the ninth of
    October 1998. *)
Definition afternoon : host_tm := mkTm 5 22 14 9 9 98 5 281 0.

#[local] Instance demo_env : Env unit demo :=
  {| ica_hw_interrupt := ret tt; time_of_host := ret 0; localtime _ := ret (Some afternoon);
     sas_store a v := modr (fun r => SET_machine (poke_demo a v (machine r)) r);
     sas_storew a v := modr (fun r => SET_machine (poke_demo a v (machine r)) r);
     biosDoInst _ _ _ _ _ := undefined; selectors _ := None;
     others := {| Ios.dev_inb _ _ := undefined; Ios.dev_inw _ _ := undefined; Ios.dev_ind _ _ := undefined;
                  Ios.dev_outb _ _ _ := undefined; Ios.dev_outw _ _ _ := undefined; Ios.dev_outd _ _ _ := undefined |};
     unset := 0 |}.

#[local] Instance demo_memory : GuestMemory (E := unit) poke_demo poke_demo.
Proof. split; reflexivity. Qed.

Definition no_events : Callbacks unit (rtc demo) := {| call _ _ := ret tt; action_interrupt _ _ _ _ := ret tt |}.
#[local] Instance demo_events : Callbacks unit (rtc demo) := callbacks no_events 8.

Definition demo_bus : Ios.ios :=
  let on a p := if (CMOS_PORT_START <=? p) && (p <=? CMOS_PORT_END) then CMOS_ADAPTOR else a in
  Ios.mkIos (on 0) (on 0) (fun k a => if a =? CMOS_ADAPTOR then (match k with Ios.INB | Ios.OUTB => Ios.dev CMOS_ADAPTOR | _ => Ios.own end) else Ios.own).

(** A chip with the alarm at three in the afternoon. *)
Definition demo_bytes : list Z := [0; 0; 0; 0; 0; 0x15; 0; 0; 0; 0; 0x26; 0x02; 0; 0x80] ++ repeat 0 50.
Definition demo_chip : rtc demo :=
  mkRtc demo_bytes 0 0 true true (Some yes) (Some yes) (Some no) (Some no)
    false 0 true afternoon 976 0 1 0 0 [] demo_bus (cpu0, []).

Lemma demo_ok : rtc_ok demo_chip.
Proof.
  split; try reflexivity; [|split; [discriminate | reflexivity]]. apply Forall_lookup_2. intros i b Hb.
  assert (HF : forallb (fun b => (0 <=? b) && (b <? 256)) (cmos demo_chip) = true) by reflexivity.
  rewrite forallb_forall in HF. apply list_elem_of_lookup_2, list_elem_of_In, HF in Hb. lia.
Qed.

(** Read the hour, write register B for the twelve hour clock, read the hour again, then
    write seconds and read them. *)
Definition session : list access :=
  [Out 0x70 4; In 0x71; Out 0x70 0xb; Out 0x71 0; Out 0x70 4; In 0x71; Out 0x70 0; Out 0x71 0x30; In 0x71; In 0x70].



Definition demo_sched : sched (rtc demo) :=
  mkSched fresh_queue fresh_queue 0 0 [100; 200; 300; 400] (cal Qev.fresh) (int_act_qhead Qev.fresh) [] 0 demo_chip.

Lemma demo_represents : represents (mkSpec [] 1 demo_chip) demo_sched.
Proof. destruct fresh_represents. split; try assumption. reflexivity. Qed.

Lemma alarm_scheduled_witness :
  exists s', set_alarm 1 demo_sched = Ret (E := unit) tt s'
  /\ represents (mkSpec [(18 * 2275, mkJob ALARM 0 1)] 2 (SET_alarm_handle 1 demo_chip)) s'.
Proof.
  destruct (alarm_scheduled 1 _ demo_sched demo_represents) as (s' & E1 & _ & R1).
  - apply demo_ok.
  - reflexivity.
  - reflexivity.
  - repeat split; cbn; lia.
  - split; [reflexivity | split; [discriminate | reflexivity]].
  - discriminate.
  - reflexivity.
  - cbn. lia.
  - exists s'. split; [exact E1 | exact R1].
Defined.


(** ** What the code does *)

Definition bytes_of {A} (o : outcome unit (sched (rtc demo)) A) : option A := match o with Ret a _ => Some a | _ => None end.
Definition chip_after {A} (o : outcome unit (sched (rtc demo)) A) : option (rtc demo) := match o with Ret _ s => Some (world s) | _ => None end.

(** The standalone machine's adapter is beyond the table of display masks. *)
Lemma vga_beyond_the_table {E W} `{HasCpu W} `{Env E W} `{Callbacks E (rtc W)} fuel s :
  @cmos_post E W _ standalone_config _ _ fuel s = Undefined.
Proof.
  unfold cmos_post, post_check, verify_equip_byte. repeat (unfold bind at 1).
  destruct (rd CMOS_SHUT_DOWN s) as [a s1|e s1|] eqn:E1; [|revert E1|reflexivity].
  - destruct (rd CMOS_REG_D s1) as [b s2|e s2|] eqn:E2; [|revert E2|reflexivity].
    + destruct (rd CMOS_DIAG s2) as [d s3|e s3|] eqn:E3; [reflexivity|revert E3|reflexivity].
      unfold rd, getr, gets, bind. case_match; discriminate.
    + unfold rd, getr, gets, bind. case_match; discriminate.
  - unfold rd, getr, gets, bind. case_match; discriminate.
Qed.

(** A byte beyond the sixty four is accepted, and written and read beyond the array. *)
Lemma byte_64_accepted v : bytes_of (cmos_write_byte 64 v demo_sched) = None /\ bytes_of (cmos_read_byte 64 demo_sched) = None
  /\ bytes_of (cmos_read_byte 65 demo_sched) = Some (1, None).
Proof. repeat split. Qed.

(** The hour after the last of the day is the twenty fifth. *)
Lemma hour_24 : let t := next_second (mkTm 59 59 23 9 9 98 5 281 0) in (tm_sec t, tm_min t, tm_hour t, tm_mday t) = (0, 0, 24, 9).
Proof. reflexivity. Qed.

(** In the twelve hour clock noon has no afternoon bit and midnight has it, and eight in
    the evening is no number in BCD. *)
Lemma twelve_hour_clock : yes_24to12 0x12 0x12 = 0x12 /\ yes_24to12 0x12 0 = 0x92 /\ yes_24to12 0x12 0x20 = 0x8e.
Proof. repeat split. Qed.

(** An alarm in the afternoon of a twelve hour clock is taken for any hour. *)
Lemma afternoon_alarm_any_hour :
  let r := SET_twenty4_hour_clock false (SET__12to24 (Some yes) (SET__24to12 (Some yes) (SET_cmos (<[5%nat := 0x83]> demo_bytes) demo_chip))) in
  bytes_of (alarm_in (SET_world r demo_sched)) = Some 3600.
Proof. reflexivity. Qed.

(** After 1999 the year is not a number in BCD. *)
Lemma year_after_1999 : yes_bin2bcd 100 = 0xa0 /\ yes_bin2bcd 126 = 0xc6.
Proof. split; reflexivity. Qed.

(** Stopping the periodic interrupt keeps the handle, so that the flag is not waggled for
    a program that polls it. *)
Lemma stopped_handle_kept :
  let on := Out 0x71 0x42 in let off := Out 0x71 0x02 in
  match chip_after (accesses_run 4 0 [Out 0x70 0xb; on; off] demo_sched) with
  | Some r => (rtc_periodic_event_handle r, at_ (cmos r) CMOS_REG_B .& PIE) = (1, 0)
  | None => False
  end.
Proof. vm_compute. reflexivity. Qed.

(** From the guest: enable the periodic interrupt, then select no rate; the next quick
    event does not return, at any depth of the stack. *)
Lemma no_rate_hangs :
  let l := [Out 0x70 0xb; Out 0x71 0x42; Out 0x70 0xa; Out 0x71 0x20] in
  match accesses_run 4 0 l demo_sched with
  | Ret _ s => forall depth, @call _ _ (callbacks no_events depth) PERIODIC 0 s = Undefined
  | _ => False
  end.
Proof.
  cbv zeta. match goal with |- match ?m with _ => _ end => let v := eval vm_compute in m in replace m with v by (vm_compute; reflexivity) end.
  intros depth. apply periodic_diverges; [intros s; exists (machine (world s)); destruct s as [? ? ? ? ? ? ? ? ? []]; reflexivity|..]; vm_compute; congruence.
Qed.

(** The snapshot brings back everything but the handle of the alarm's event. *)
Lemma snapshot_restores {W} (r r0 : rtc W) : rtc_ok r -> 0 <= cmos_count r < 18 -> ht r0 = true ->
  softpc_device_snapshot_restore_cmos (softpc_device_snapshot_capture_cmos r) r0 =
  (true, SET_alarm_handle (alarm_handle r0) (SET_cmos_string (cmos_string r0) (SET_bus (bus r0) (SET_machine (machine r0) r)))).
Proof.
  intros [HL HB HI HR E1 E2 E3 E4 HT] Hc Hh. unfold softpc_device_snapshot_restore_cmos, softpc_device_snapshot_capture_cmos.
  cbn [s_selected_index s_data_mode_yes s_twenty4_hour_clock s_reset_alarm s_host_time_valid s_cmos_count s_bytes s_rtc_int_enabled s_host_time s_user_time s_periodic_milliseconds s_periodic_event_handle].
  assert (HF : forall b, flag (Z.b2z b) = true) by (intros []; reflexivity). rewrite !HF, HT, Hh. unfold CMOS_SIZE.
  replace (_ || _) with false by (cbn [negb]; lia). assert (HN : forall b, negb (Z.b2z b =? 0) = b) by (intros []; reflexivity).
  rewrite !HN. cbn. f_equal. destruct r; cbn in *. subst. destruct result0. reflexivity.
Qed.
End Cmos.
