(* ===== verification/Tod.v ===== *)
(** * The time of day

    [base/support/time_day.c]: the BIOS's time of day functions (interrupt 1A) over the
    CMOS chip and the processor's registers, its timer interrupt with the count of the
    day's ticks, the time stamp that keeps the count in step with the host's clock, and
    set up.

    The state is that of [Cmos]; its machine holds the processor, guest memory and the
    statics of the file ([HasTod]).  Loads from guest memory, the host's clock, its error
    panel and the interrupt of the user's timer are the class [TodEnv].  [long] has 32
    bits and signed arithmetic wraps. *)

From Stdlib Require Import ZifyBool.
From S2P Require Import Prelude Cpu Arith Shift Xcptn MulDiv Mem Tlb Page Basic Seg Virt Regs Ios Qev Cmos.

Module Tod.
Import Qev Cmos.

Definition TICKS_PER_HOUR : Z := 65543.
Definition TICKS_PER_MIN : Z := 1092.
Definition TICKS_PER_SEC : Z := 18.
Definition MOTOR_STATUS : Z := 0x43f.
Definition MOTOR_COUNT : Z := 0x440.
Definition DISKETTE_DOR_REG : Z := 0x3f2.
Definition ICA1_PORT_1 : Z := 0xa1.
Definition USER_TIMER_INT_SEGMENT : Z := 0xf000.
Definition USER_TIMER_INT_OFFSET : Z := 0xff41.
Definition DUMMY_INT_SEGMENT : Z := 0xf000.
Definition DUMMY_INT_OFFSET : Z := 0xff4b.
Definition ADDR_COMPATIBILITY_SEGMENT : Z := 0xf000.
Definition ADDR_COMPATIBILITY_OFFSET : Z := 0xff53.
Definition BIOS_USER_TIMER_INT : Z := 0x1c.

(** [struct host_timeval] *)
Record host_timeval := mkTime { tv_sec : Z; tv_usec : Z }.

(** The statics of the file. *)
Record tod := mkTod {
  time_stamp : host_timeval;
  user_timer_int_vector : Z;
  standard_user_timer_int_vector : Z;
  compatibility_user_timer_int_vector : Z
}.
Definition SET_time_stamp (x : host_timeval) (t : tod) : tod :=
  mkTod x (user_timer_int_vector t) (standard_user_timer_int_vector t) (compatibility_user_timer_int_vector t).

Class HasTod (W : Type) := {
  the_tod : W -> tod;
  put_tod : tod -> W -> W
}.

Inductive date_error := EG_DATE_FWD | EG_DATE_BACK.

Class TodEnv (E W : Type) := {
  host_gettimeofday : M E (sched (rtc W)) host_timeval;
  host_error : date_error -> M E (sched (rtc W)) unit;
  sas_load : Z -> M E (sched (rtc W)) Z;
  sas_loadw : Z -> M E (sched (rtc W)) Z;
  sas_dw_at : Z -> M E (sched (rtc W)) Z;
  fla_busy : M E (sched (rtc W)) bool;
  exec_sw_interrupt : Z -> Z -> M E (sched (rtc W)) unit
}.

(** ** Time stamps *)

(** The ticks an interval stands for, in two halves. *)
Definition interval_ticks (i : host_timeval) : Z :=
  let hours := Z.quot (tv_sec i) (60 * 60) in
  let rest := Z.rem (tv_sec i) (60 * 60) in
  let mins := Z.quot rest 60 in
  let secs := Z.rem rest 60 in
  u32 (hours * TICKS_PER_HOUR + mins * TICKS_PER_MIN + secs * TICKS_PER_SEC + Z.quot (tv_usec i) 54925).

(** [last_time], a static that nothing assigns. *)
Definition last_time : Z := 0.

Definition since (now stamp : host_timeval) : host_timeval :=
  let sec := s32 (tv_sec now - tv_sec stamp) in
  let usec := s32 (tv_usec now - tv_usec stamp) in
  if (0 <? sec) && (usec <? 0) then mkTime (sec - 1) (s32 (usec + 1000000)) else mkTime sec usec.

(** The interval so many ticks take; the product may overflow, and then 4300 seconds are
    added. *)
Definition ticks_interval (low high : Z) : host_timeval :=
  let sec := s32 (high * 3599 + Z.quot high 2) in
  let lowms := s32 ((low .& 0xffff) * 54925 + (low .& 0xffff) / 2) in
  let sec := if 39098 <? low then s32 (sec + 4300) else sec in
  mkTime (s32 (sec + Z.quot lowms 1000000)) (Z.rem lowms 1000000).

(** The stamp an interval before a time, with the borrow. *)
Definition stamp_before (now interval : host_timeval) : host_timeval :=
  let sec := s32 (tv_sec now - tv_sec interval) in
  let usec := s32 (tv_usec now - tv_usec interval) in
  if (0 <? sec) && (usec <? 0) then mkTime (sec - 1) (s32 (usec + 1000000))
  else if (sec <? 0) && (0 <? usec) then mkTime (sec + 1) (s32 (usec - 1000000))
  else mkTime sec usec.

Definition TimeToTicks (hour minutes sec : Z) : Z * Z :=
  let ticks := u32 (hour * TICKS_PER_HOUR + minutes * TICKS_PER_MIN + sec * TICKS_PER_SEC) in
  (ticks .& 0xffff, u16 (ticks .>> 16)).

Section Bios.
Context {E W : Type} `{HasCpu W} `{HasTod W} `{Config} `{Env E W} `{TodEnv E W} `{Callbacks E (rtc W)} (fuel : nat).
Abbreviation X := (M E (sched (rtc W))).

Definition get_tod {A} (f : tod -> A) : X A := getr (fun r => f (the_tod (machine r))).
Definition mod_tod (f : tod -> tod) : X unit :=
  modr (fun r => SET_machine (put_tod (f (the_tod (machine r))) (machine r)) r).
Definition reg {A} (f : cpu -> A) : X A := getr (fun r => f (the_cpu (machine r))).
Definition put_reg (f : cpu -> cpu) : X unit :=
  modr (fun r => SET_machine (put_cpu (f (the_cpu (machine r))) (machine r)) r).

Definition get_host_timestamp : X (Z * Z * Z) :=
  now <- host_gettimeofday ;;
  stamp <- get_tod time_stamp ;;
  let interval := since now stamp in
  let days := Z.quot (tv_sec interval) (24 * 60 * 60) in
  let! (interval, overflow) :=
    (if 1 <=? days then
       mod_tod (fun t => SET_time_stamp (mkTime (s32 (tv_sec (time_stamp t) + days * (24 * 60 * 60))) (tv_usec (time_stamp t))) t) ;;
       when (1 <? days) (host_error EG_DATE_FWD) ;;
       ret (mkTime (Z.rem (tv_sec interval) (24 * 60 * 60)) (tv_usec interval), 1)
     else if tv_sec interval <? 0 then
       mod_tod (fun t => SET_time_stamp (mkTime (s32 (tv_sec (time_stamp t) - (last_time - tv_sec now))) (tv_usec (time_stamp t))) t) ;;
       stamp <- get_tod time_stamp ;;
       host_error EG_DATE_BACK ;;
       ret (mkTime (s32 (tv_sec now - tv_sec stamp)) (tv_usec interval), 0)
     else ret (interval, 0)) ;;
  let ticks := interval_ticks interval in
  ret (ticks .& 0xffff, u16 (ticks .>> 16), overflow).

Definition write_host_timestamp (low high : Z) : X unit :=
  now <- host_gettimeofday ;;
  mod_tod (SET_time_stamp (stamp_before now (ticks_interval low high))).

Definition get_host_time : X (Z * Z * Z) :=
  t <- time_of_host ;;
  p <- host_localtime t ;;
  if p : bool then r <- getr result ;; ret (tm_hour r, tm_min r, tm_sec r) else undefined.

Definition time_of_day_init : X unit :=
  let! (hour, minutes, sec) := get_host_time ;;
  let '(low, hi) := TimeToTicks hour minutes sec in
  sas_storew TIMER_LOW low ;;
  sas_storew TIMER_HIGH hi ;;
  sas_store TIMER_OVFL 1 ;;
  write_host_timestamp low hi ;;
  mod_tod (fun t => mkTod (time_stamp t) (BIOS_USER_TIMER_INT * 4)
    (u32 ((DUMMY_INT_SEGMENT .<< 16) + DUMMY_INT_OFFSET))
    (u32 ((ADDR_COMPATIBILITY_SEGMENT .<< 16) + ADDR_COMPATIBILITY_OFFSET))).

(** ** Interrupt 1A *)

Definition UPDATE_IN_PROGRESS : X bool :=
  b <- cmos_read fuel CMOS_REG_A ;; ret (negb (b .& 0x80 =? 0)).

Definition initialise_clock : X unit :=
  cmos_write fuel CMOS_REG_A 0x26 ;;
  cmos_write fuel CMOS_REG_B 0x82 ;;
  cmos_read fuel CMOS_REG_C ;;
  cmos_read fuel CMOS_REG_D ;; ret tt.
Definition initialise_if_updating : X unit := u <- UPDATE_IN_PROGRESS ;; when u initialise_clock.

Definition bios_get_time : X unit :=
  let! (low, high, overflow) := get_host_timestamp ;;
  put_reg (Regs.c_setDX low) ;; sas_storew TIMER_LOW low ;;
  put_reg (Regs.c_setCX high) ;; sas_storew TIMER_HIGH high ;;
  put_reg (Regs.c_setAL overflow) ;; sas_store TIMER_OVFL 0.

Definition bios_set_time : X unit :=
  dx <- reg Regs.c_getDX ;; sas_storew TIMER_LOW dx ;;
  cx <- reg Regs.c_getCX ;; sas_storew TIMER_HIGH cx ;;
  sas_store TIMER_OVFL 0 ;;
  dx <- reg Regs.c_getDX ;; cx <- reg Regs.c_getCX ;; write_host_timestamp dx cx.

Definition read_clock : X unit :=
  u <- UPDATE_IN_PROGRESS ;;
  if u : bool then put_reg (Regs.c_setCF 1)
  else
    v <- cmos_read fuel CMOS_SECONDS ;; put_reg (Regs.c_setDH v) ;;
    v <- cmos_read fuel CMOS_REG_B ;; put_reg (Regs.c_setDL (v .& 1)) ;;
    v <- cmos_read fuel CMOS_MINUTES ;; put_reg (Regs.c_setCL v) ;;
    v <- cmos_read fuel CMOS_HOURS ;; put_reg (Regs.c_setCH v) ;;
    put_reg (Regs.c_setCF 0).

Definition set_clock : X unit :=
  initialise_if_updating ;;
  v <- reg Regs.c_getDH ;; cmos_write fuel CMOS_SECONDS v ;;
  v <- reg Regs.c_getCL ;; cmos_write fuel CMOS_MINUTES v ;;
  v <- reg Regs.c_getCH ;; cmos_write fuel CMOS_HOURS v ;;
  b <- cmos_read fuel CMOS_REG_B ;;
  dl <- reg Regs.c_getDL ;;
  cmos_write fuel CMOS_REG_B (((b .& 0x62) .| 2) .| (dl .& 1)) ;;
  put_reg (Regs.c_setCF 0).

Definition read_date : X unit :=
  u <- UPDATE_IN_PROGRESS ;;
  if u : bool then put_reg (Regs.c_setCF 1)
  else
    v <- cmos_read fuel CMOS_DAY_MONTH ;; put_reg (Regs.c_setDL v) ;;
    v <- cmos_read fuel CMOS_MONTH ;; put_reg (Regs.c_setDH v) ;;
    v <- cmos_read fuel CMOS_YEAR ;; put_reg (Regs.c_setCL v) ;;
    v <- cmos_read fuel CMOS_CENTURY ;; put_reg (Regs.c_setCH v) ;;
    put_reg (Regs.c_setCF 0).

Definition set_date : X unit :=
  initialise_if_updating ;;
  cmos_write fuel CMOS_DAY_WEEK 0 ;;
  v <- reg Regs.c_getDL ;; cmos_write fuel CMOS_DAY_MONTH v ;;
  v <- reg Regs.c_getDH ;; cmos_write fuel CMOS_MONTH v ;;
  v <- reg Regs.c_getCL ;; cmos_write fuel CMOS_YEAR v ;;
  v <- reg Regs.c_getCH ;; cmos_write fuel CMOS_CENTURY v ;;
  b <- cmos_read fuel CMOS_REG_B ;;
  cmos_write fuel CMOS_REG_B (b .& 0x7f) ;;
  put_reg (Regs.c_setCF 0).

(** [true] where the function returns at once. *)
Definition set_alarm_time : X bool :=
  b <- cmos_read fuel CMOS_REG_B ;;
  if negb (b .& 0x20 =? 0) then put_reg (Regs.c_setCF 1) ;; ret true
  else
    initialise_if_updating ;;
    v <- reg Regs.c_getDH ;; cmos_write fuel CMOS_SEC_ALARM v ;;
    v <- reg Regs.c_getCL ;; cmos_write fuel CMOS_MIN_ALARM v ;;
    v <- reg Regs.c_getCH ;; cmos_write fuel CMOS_HR_ALARM v ;;
    mask <- bios_inb fuel ICA1_PORT_1 ;;
    bios_outb fuel ICA1_PORT_1 (mask .& 0xfe) ;;
    b <- cmos_read fuel CMOS_REG_B ;;
    cmos_write fuel CMOS_REG_B ((b .& 0x7f) .| 0x20) ;;
    ret false.

Definition clear_alarm : X unit :=
  b <- cmos_read fuel CMOS_REG_B ;; cmos_write fuel CMOS_REG_B (b .& 0x57).

Definition time_of_day : X unit :=
  ah <- reg Regs.c_getAH ;;
  let done := put_reg (Regs.c_setAH 0) in
  if ah =? 0 then bios_get_time ;; done
  else if ah =? 1 then bios_set_time ;; done
  else if ah =? 2 then read_clock ;; done
  else if ah =? 3 then set_clock ;; done
  else if ah =? 4 then read_date ;; done
  else if ah =? 5 then set_date ;; done
  else if ah =? 6 then r <- set_alarm_time ;; if r : bool then ret tt else done
  else if ah =? 7 then clear_alarm ;; done
  else done.

(** ** The timer interrupt *)

(** The count of the day's ticks. *)
Definition count_tick : X unit :=
  low <- sas_loadw TIMER_LOW ;;
  let low := u16 (low + 1) in
  sas_storew TIMER_LOW low ;;
  high <- sas_loadw TIMER_HIGH ;;
  let high' := u16 (high + 1) in
  when (low =? 0) (sas_storew TIMER_HIGH high') ;;
  let high := if low =? 0 then high' else high in
  when ((high =? 0x18) && (low =? 0xb0))
    (sas_storew TIMER_LOW 0 ;; sas_storew TIMER_HIGH 0 ;; sas_store TIMER_OVFL 1).

Definition motor_tick : X unit :=
  motor_count <- sas_load MOTOR_COUNT ;;
  let motor_count := if motor_count <? 4 then 0 else motor_count - 4 in
  sas_store MOTOR_COUNT motor_count ;;
  when (motor_count =? 0)
    (motor_flags <- sas_load MOTOR_STATUS ;;
     sas_store MOTOR_STATUS (motor_flags .& 0xf0) ;;
     busy <- fla_busy ;;
     when (negb busy) (bios_outb fuel DISKETTE_DOR_REG 0x0c)).

Definition time_int : X unit :=
  count_tick ;;
  motor_tick ;;
  vm <- reg Regs.c_getVM ;;
  t <- get_tod (fun t => t) ;;
  user <- (if negb (vm =? 0) then ret true
           else
             v <- sas_dw_at (user_timer_int_vector t) ;;
             if standard_user_timer_int_vector t =? v then ret false
             else v <- sas_dw_at (user_timer_int_vector t) ;; ret (negb (compatibility_user_timer_int_vector t =? v))) ;;
  when user (exec_sw_interrupt USER_TIMER_INT_SEGMENT USER_TIMER_INT_OFFSET).

End Bios.

(** ** The count of the day *)

(** The ticks of a day, where the count starts again. *)
Definition DAY : Z := 0x1800b0.

Section Day.
Context {E W : Type} `{HasCpu W} `{HasTod W} `{Config} `{Env E W} `{TodEnv E W} `{Callbacks E (rtc W)} (fuel : nat).
Abbreviation X := (M E (sched (rtc W))).
Context {poke pokew : Z -> Z -> W -> W} `{!GuestMemory (E := E) poke pokew}.

(** Bytes and words of guest memory as loads find them after stores. *)
Class GuestBytes (peek peekw : Z -> W -> Z) : Prop := {
  gb_loadw a s : sas_loadw a s = Ret (E := E) (peekw a (machine (world s))) s;
  gb_range a w : 0 <= peekw a w < 2 ^ 16;
  gb_same a v w : 0 <= v < 2 ^ 16 -> peekw a (pokew a v w) = v;
  gb_apart a b v w : a + 2 <= b \/ b + 2 <= a -> peekw b (pokew a v w) = peekw b w;
  gb_byte a v w : 0 <= v < 2 ^ 8 -> peek a (poke a v w) = v;
  gb_byte_apart a b v w : a < b \/ b + 2 <= a -> peekw b (poke a v w) = peekw b w;
  gb_word_apart a b v w : b < a \/ a + 2 <= b -> peek b (pokew a v w) = peek b w
}.
Context {peek peekw : Z -> W -> Z} `{!GuestBytes peek peekw}.

Lemma loadw_run a (r : rtc W) : runs (E := E) (sas_loadw a) r (peekw a (machine r)) r.
Proof. intros s <-. rewrite gb_loadw. destruct s; reflexivity. Qed.

Definition day_count (w : W) : Z := peekw TIMER_LOW w + 2 ^ 16 * peekw TIMER_HIGH w.

Lemma count_tick_run (r : rtc W) : 0 <= day_count (machine r) < DAY ->
  exists w, runs (E := E) count_tick r tt (SET_machine w r)
  /\ day_count w = (day_count (machine r) + 1) mod DAY
  /\ peek TIMER_OVFL w = if day_count (machine r) + 1 =? DAY then 1 else peek TIMER_OVFL (machine r).
Proof.
  intros Hc. unfold day_count, DAY in *. set (w := machine r) in *. set (l := peekw TIMER_LOW w) in *. set (h := peekw TIMER_HIGH w) in *.
  pose proof (gb_range TIMER_LOW w : 0 <= l < 2 ^ 16) as Hl. pose proof (gb_range TIMER_HIGH w : 0 <= h < 2 ^ 16) as Hh. set (l' := u16 (l + 1)).
  assert (Hl' : 0 <= l' < 2 ^ 16) by apply u16_range.
  assert (El : l' = if l =? 0xffff then 0 else l + 1)
    by (unfold l', u16; destruct (Z.eqb_spec l 0xffff) as [->|]; [reflexivity | apply Z.mod_small; lia]).
  set (h' := if l' =? 0 then u16 (h + 1) else h). assert (Eh : h' = if l =? 0xffff then h + 1 else h)
    by (unfold h'; rewrite El; destruct (Z.eqb_spec l 0xffff); [cbn; unfold u16; apply Z.mod_small; lia | rewrite (proj2 (Z.eqb_neq (l + 1) 0)) by lia; reflexivity]).
  set (w1 := pokew TIMER_LOW l' w). set (w2 := if l' =? 0 then pokew TIMER_HIGH h' w1 else w1).
  set (w3 := poke TIMER_OVFL 1 (pokew TIMER_HIGH 0 (pokew TIMER_LOW 0 w2))).
  assert (L2 : peekw TIMER_LOW w2 = l').
  { unfold w2. destruct (l' =? 0); [rewrite gb_apart by (unfold TIMER_LOW, TIMER_HIGH; lia)|]; apply gb_same; exact Hl'. }
  assert (H1' : peekw TIMER_HIGH w1 = h) by (unfold w1; rewrite gb_apart by (unfold TIMER_LOW, TIMER_HIGH; lia); reflexivity).
  assert (H2' : peekw TIMER_HIGH w2 = h').
  { unfold w2, h'. destruct (l' =? 0); [apply gb_same, u16_range | exact H1']. }
  assert (O2 : peek TIMER_OVFL w2 = peek TIMER_OVFL w).
  { unfold w2, w1. destruct (l' =? 0); rewrite !gb_word_apart by (unfold TIMER_LOW, TIMER_HIGH, TIMER_OVFL; lia); reflexivity. }
  set (d := (h' =? 0x18) && (l' =? 0xb0)). exists (if d then w3 else w2). split; [|split].
  - unfold count_tick. eapply runs_bind; [apply loadw_run|]. fold w l l'. eapply runs_bind; [apply pokew_run|]. fold w w1.
    eapply runs_bind; [apply loadw_run|]. cbn [machine SET_machine]. rewrite H1'.
    eapply (runs_bind _ _ _ tt (SET_machine w2 r)).
    { unfold w2, h'. apply runs_when; intros ->; [|reflexivity]. eapply runs_eq; [apply pokew_run | reflexivity]. }
    fold h'. apply runs_when; fold d; intros ->; [|reflexivity].
    eapply runs_bind; [apply pokew_run|]. eapply runs_bind; [apply pokew_run|]. eapply runs_eq; [apply poke_run | reflexivity].
  - unfold d. destruct ((h' =? 0x18) && (l' =? 0xb0)) eqn:Ed.
    + unfold w3. rewrite !gb_byte_apart by (unfold TIMER_LOW, TIMER_HIGH, TIMER_OVFL; lia). rewrite (gb_apart TIMER_HIGH TIMER_LOW) by (unfold TIMER_LOW, TIMER_HIGH; lia).
      rewrite !gb_same by lia. replace (l + 2 ^ 16 * h + 1) with 0x1800b0; [reflexivity|]. destruct (Z.eqb_spec l 0xffff); lia.
    + rewrite L2, H2', El, Eh. rewrite Z.mod_small; destruct (Z.eqb_spec l 0xffff); lia.
  - unfold d. destruct ((h' =? 0x18) && (l' =? 0xb0)) eqn:Ed.
    + unfold w3. rewrite gb_byte by lia. rewrite (proj2 (Z.eqb_eq _ _)); [reflexivity|]. destruct (Z.eqb_spec l 0xffff); lia.
    + rewrite O2. rewrite (proj2 (Z.eqb_neq _ _)); [reflexivity|]. destruct (Z.eqb_spec l 0xffff); lia.
Qed.

Fixpoint count_ticks (n : nat) : X unit :=
  match n with O => ret tt | S n => count_tick ;; count_ticks n end.

(** The BIOS counts the ticks of the day.  From a count within the day, any number of
    timer interrupts leaves the count that many further on, modulo the 1,573,040 ticks of
    a day; the overflow byte is set when midnight has been passed and is otherwise as it
    was; and neither the chip nor the queues change. *)
Theorem day_counted n : forall r : rtc W, 0 <= day_count (machine r) < DAY ->
  exists w, runs (E := E) (count_ticks n) r tt (SET_machine w r)
  /\ day_count w = (day_count (machine r) + Z.of_nat n) mod DAY
  /\ peek TIMER_OVFL w = if day_count (machine r) + Z.of_nat n <? DAY then peek TIMER_OVFL (machine r) else 1.
Proof.
  induction n as [|n IH]; intros r Hc.
  { exists (machine r). rewrite Z.add_0_r, Z.mod_small, (proj2 (Z.ltb_lt _ _)) by lia. split; [|auto].
    eapply runs_eq; [apply runs_ret | destruct r; reflexivity]. }
  destruct (count_tick_run r Hc) as (w1 & R1 & C1 & O1).
  assert (Hc1 : 0 <= day_count w1 < DAY) by (rewrite C1; apply Z.mod_pos_bound; reflexivity).
  destruct (IH (SET_machine w1 r) Hc1) as (w & R & C & O). exists w. cbn [machine SET_machine] in C, O. split; [|split].
  - eapply runs_bind; [exact R1|]. eapply runs_eq; [exact R | reflexivity].
  - rewrite C, C1, Z.add_mod_idemp_l by (unfold DAY; lia). f_equal. lia.
  - rewrite O, O1, C1. destruct (Z.eqb_spec (day_count (machine r) + 1) DAY) as [Ed|Ed].
    + rewrite Ed, Z.mod_same by (unfold DAY; lia). rewrite (proj2 (Z.ltb_ge (day_count (machine r) + Z.of_nat (S n)) DAY)) by lia. destruct (0 + Z.of_nat n <? DAY); reflexivity.
    + rewrite Z.mod_small by lia. replace (day_count (machine r) + 1 + Z.of_nat n) with (day_count (machine r) + Z.of_nat (S n)) by lia. reflexivity.
Qed.

End Day.

(** ** Setting and reading the time *)

Section Stamp.
Context {E W : Type} `{HasCpu W} `{HasTod W} `{Config} `{Env E W} `{TodEnv E W}.
Abbreviation X := (M E (sched (rtc W))).

Lemma s32_id x : - 2 ^ 31 <= x < 2 ^ 31 -> s32 x = x.
Proof.
  intros Hx. unfold s32, sgn. cbv zeta. destruct (Z_lt_le_dec x 0).
  - replace (x mod 2 ^ 32) with (x + 2 ^ 32) by (apply Z.mod_unique with (-1); lia). rewrite (proj2 (Z.ltb_ge _ _)); lia.
  - rewrite Z.mod_small by lia. rewrite (proj2 (Z.ltb_lt _ _)); lia.
Qed.

Definition sane (t : host_timeval) : Prop := 86400 <= tv_sec t < 2 ^ 31 /\ 0 <= tv_usec t < 1000000.

(** An interval with its microseconds not negative. *)
Definition carried (i : host_timeval) : host_timeval :=
  if tv_usec i <? 0 then mkTime (tv_sec i - 1) (tv_usec i + 1000000) else i.

(** The borrows cancel. *)
Lemma since_stamp now i : sane now -> 0 < tv_sec i < 86400 \/ tv_sec i = 0 /\ 0 <= tv_usec i -> - 1000000 < tv_usec i < 1000000 ->
  since now (stamp_before now i) = carried i.
Proof.
  intros [Hs Hu] Hi Hj. destruct now as [s u], i as [a b]. cbn [tv_sec tv_usec] in *. unfold stamp_before, since, carried. cbn [tv_sec tv_usec].
  rewrite (s32_id (s - a)), (s32_id (u - b)) by lia. rewrite (proj2 (Z.ltb_lt 0 (s - a))) by lia. cbn [andb].
  destruct (Z.ltb_spec (u - b) 0).
  - cbn [tv_sec tv_usec]. rewrite (s32_id (u - b + 1000000)) by lia. rewrite (s32_id (s - (s - a - 1))), (s32_id (u - (u - b + 1000000))) by lia.
    rewrite (proj2 (Z.ltb_lt 0 _)), (proj2 (Z.ltb_lt _ 0)), (proj2 (Z.ltb_ge b 0)) by lia. cbn [andb]. rewrite s32_id by lia. f_equal; lia.
  - rewrite (proj2 (Z.ltb_ge (s - a) 0)) by lia. cbn [andb tv_sec tv_usec].
    rewrite (s32_id (s - (s - a))), (s32_id (u - (u - b))) by lia. replace (s - (s - a)) with a by lia. replace (u - (u - b)) with b by lia.
    destruct (Z.ltb_spec b 0); [|rewrite andb_false_r; reflexivity]. rewrite (proj2 (Z.ltb_lt 0 a)) by lia. cbn [andb]. rewrite s32_id by lia. reflexivity.
Qed.

(** Microseconds as quotient and remainder, with the sign of the product. *)
Lemma ticks_interval_eq low high : 0 <= low < 2 ^ 16 -> 0 <= high <= 24 ->
  exists m q u, ticks_interval low high = mkTime (high * 3599 + high / 2 + (if 39098 <? low then 4300 else 0) + q) u
  /\ m = 1000000 * q + u /\ 2 * m = low * 109851 - low mod 2 - (if 39098 <? low then 2 ^ 33 else 0)
  /\ (if 39098 <? low then - 1000000 < u <= 0 else 0 <= u < 1000000).
Proof.
  intros Hl Hh. unfold ticks_interval. change 0xffff with (2 ^ 16 - 1). rewrite land_mask, Z.mod_small by lia.
  rewrite (Z.quot_div_nonneg high 2) by lia. rewrite (s32_id (high * 3599 + high / 2)) by (Z.div_mod_to_equations; lia).
  set (p := low * 54925 + low / 2). assert (Hp : 2 * p = low * 109851 - low mod 2) by (unfold p; Z.div_mod_to_equations; lia).
  pose proof (Z.mod_pos_bound low 2 ltac:(lia)) as Hb. destruct (Z.ltb_spec 39098 low).
  - assert (Es : s32 p = p - 2 ^ 32).
    { unfold s32, sgn. cbv zeta. rewrite Z.mod_small by lia. rewrite (proj2 (Z.ltb_ge _ _)) by lia. reflexivity. }
    rewrite Es. set (m := p - 2 ^ 32). assert (Em : m = p - 2 ^ 32) by reflexivity. pose proof (Z.quot_rem' m 1000000) as Hq. pose proof (Z.rem_bound_pos_neg m 1000000 ltac:(lia) ltac:(lia)) as Hr.
    exists m, (Z.quot m 1000000), (Z.rem m 1000000). rewrite (s32_id (high * 3599 + high / 2 + 4300)) by (Z.div_mod_to_equations; lia).
    rewrite s32_id by (Z.div_mod_to_equations; lia). repeat split; lia.
  - rewrite (s32_id p) by lia. pose proof (Z.quot_rem' p 1000000) as Hq. pose proof (Z.rem_bound_pos_pos p 1000000 ltac:(lia) ltac:(lia)) as Hr.
    exists p, (Z.quot p 1000000), (Z.rem p 1000000). rewrite Z.add_0_r. rewrite s32_id by (Z.div_mod_to_equations; lia). repeat split; lia.
Qed.

Lemma interval_ticks_small s u : 0 <= s < 86400 -> 0 <= u < 1000000 ->
  interval_ticks (mkTime s u) = s / 3600 * 65543 + s mod 3600 / 60 * 1092 + s mod 60 * 18 + u / 54925.
Proof.
  intros Hs Hu. unfold interval_ticks. cbn [tv_sec tv_usec]. change (60 * 60) with 3600.
  rewrite !Z.rem_mod_nonneg by (try apply Z.mod_pos_bound; lia). rewrite !Z.quot_div_nonneg by (try apply Z.mod_pos_bound; lia).
  replace ((s mod 3600) mod 60) with (s mod 60) by (Z.div_mod_to_equations; lia).
  unfold TICKS_PER_HOUR, TICKS_PER_MIN, TICKS_PER_SEC. apply u32_small. Z.div_mod_to_equations; lia.
Qed.

(** What the conversions lose on the way, or gain where the product overflows. *)
Lemma ticks_drift low high : 0 <= low < 2 ^ 16 -> 0 <= high <= 24 -> 2 ^ 16 * high + low < DAY ->
  let i := ticks_interval low high in
  (0 < tv_sec i < 86400 \/ tv_sec i = 0 /\ 0 <= tv_usec i) /\ - 1000000 < tv_usec i < 1000000
  /\ 0 <= tv_sec (carried i) < 86400 /\ - 91 <= 2 ^ 16 * high + low - interval_ticks (carried i) <= 93.
Proof.
  intros Hl Hh HD. cbv zeta. destruct (ticks_interval_eq low high Hl Hh) as (m & q & u & -> & Em & E2 & Hu). unfold DAY in HD.
  unfold carried. cbn [tv_sec tv_usec]. pose proof (Z.mod_pos_bound low 2 ltac:(lia)) as Hb.
  set (s := high * 3599 + high / 2 + (if 39098 <? low then 4300 else 0) + q).
  assert (Hs : s = high * 3599 + high / 2 + (if 39098 <? low then 4300 else 0) + q) by reflexivity. clearbody s.
  set (s' := if u <? 0 then s - 1 else s). set (u' := if u <? 0 then u + 1000000 else u).
  replace (if u <? 0 then mkTime (s - 1) (u + 1000000) else mkTime s u) with (mkTime s' u') by (unfold s', u'; destruct (u <? 0); reflexivity).
  assert (Hu' : 0 <= u' < 1000000) by (unfold u'; destruct (Z.ltb_spec u 0), (39098 <? low); lia).
  assert (Hm' : m = 1000000 * (s' - high * 3599 - high / 2 - (if 39098 <? low then 4300 else 0)) + u') by (unfold s', u'; destruct (u <? 0); lia).
  assert (Hs' : 0 <= s' < 86400) by (destruct (Z.ltb_spec 39098 low); Z.div_mod_to_equations; lia).
  split; [unfold s' in Hs'; destruct (Z.ltb_spec u 0), (Z.ltb_spec 39098 low); Z.div_mod_to_equations; lia|].
  split; [destruct (39098 <? low); lia|]. split; [exact Hs'|]. rewrite interval_ticks_small by assumption.
  clearbody s' u'. destruct (Z.ltb_spec 39098 low); Z.div_mod_to_equations; lia.
Qed.

(** One clock for both calls, and statics that keep what is put in them. *)
Context (now : host_timeval) (Hnow : host_gettimeofday (E := E) (W := W) ≡ ret now).
Context (Htod : forall t (w : W), the_tod (put_tod t w) = t).

(** C40 - The time set is the time read, to five seconds.  A time of day in ticks given to
    [write_host_timestamp] and read back in the same instant is at most 93 ticks behind
    and at most 91 ahead of what was set, and no day has passed. *)
Theorem time_read_back low high (r : rtc W) : sane now -> 0 <= low < 2 ^ 16 -> 0 <= high <= 24 -> 2 ^ 16 * high + low < DAY ->
  exists low' high' r', runs (E := E) (write_host_timestamp low high ;; get_host_timestamp) r (low', high', 0) r'
  /\ - 91 <= 2 ^ 16 * high + low - (2 ^ 16 * high' + low') <= 93.
Proof.
  intros Hs Hl Hh HD. destruct (ticks_drift low high Hl Hh HD) as (H1' & H2' & H3' & H4'). set (i := ticks_interval low high) in *.
  assert (Hg : forall r, runs (E := E) host_gettimeofday r now r) by (intros x s Hx; rewrite (Hnow s); exact (runs_ret now x s Hx)).
  eexists _, _, _. split.
  - eapply runs_bind; [eapply runs_bind; [apply Hg | apply runs_modr]|].
    eapply runs_bind; [apply Hg|]. eapply runs_bind; [apply (runs_getr (fun r => time_stamp (the_tod (machine r))))|].
    cbn [machine SET_machine]. rewrite Htod. cbn [time_stamp SET_time_stamp]. fold i. rewrite (since_stamp now i Hs H1' H2').
    rewrite Z.quot_div_nonneg by lia. rewrite Z.div_small by lia. change (1 <=? 0) with false. cbv iota.
    rewrite (proj2 (Z.ltb_ge _ 0)) by lia. eapply runs_bind; [apply runs_ret | apply runs_ret].
  - set (t := interval_ticks (carried i)) in *. assert (Ht : 0 <= t < 2 ^ 32) by (unfold t, interval_ticks; apply u32_range).
    change 0xffff with (2 ^ 16 - 1). rewrite land_mask by lia. rewrite Z.shiftr_div_pow2 by lia. rewrite u16_small by (Z.div_mod_to_equations; lia).
    rewrite (Z.add_comm (_ * _) (t mod _)), Z.add_comm. pose proof (Z_div_mod_eq_full t (2 ^ 16)). lia.
Qed.

End Stamp.

(** ** Reading the clock *)

Section Clock.
Context {E W : Type} `{HasCpu W} `{HasTod W} `{Config} `{Env E W} `{TodEnv E W} `{Callbacks E (rtc W)} (fuel : nat).
Abbreviation X := (M E (sched (rtc W))).

(** A register of the processor is set; the rest of the machine stays. *)
Definition with_reg (f : cpu -> cpu) (r : rtc W) : rtc W := SET_machine (put_cpu (f (the_cpu (machine r))) (machine r)) r.

Definition keeps_mode (f : cpu -> cpu) : Prop := forall c, VM (fl (f c)) = VM (fl c) /\ CPL (f c) = CPL c /\ IOPL (fl (f c)) = IOPL (fl c).

Lemma with_reg_attached f r : keeps_mode f -> attached r -> attached (with_reg f r).
Proof.
  intros Hf [? ? ? ? [HV HC]]. split; try assumption. cbn. rewrite the_put. destruct (Hf (the_cpu (machine r))) as (-> & -> & ->). auto.
Qed.
Lemma with_reg_ok f r : rtc_ok r -> rtc_ok (with_reg f r).
Proof. apply machine_ok. Qed.

(** The BIOS reads registers A and B. *)
Lemma bios_read_run (r r' : rtc W) i v : attached r -> 0 <= i < 64 -> 0 <= v < 256 -> attached r' ->
  u8 (i .| NMI_DISABLE) .& CMOS_ADDR_MASK = i -> i .& NMI_DISABLE = 0 ->
  runs (E := E) (cmos_inb CMOS_DATA unset) (selected i r) v r' ->
  runs (cmos_read fuel i) r v (selected CMOS_SHUT_DOWN r').
Proof.
  intros HA Hi Hv HA' Em En Hr. unfold cmos_read. eapply runs_bind; [apply (select_run fuel r i); assumption|].
  eapply runs_bind; [apply inb_run; [apply selected_attached, HA | exact Hv | exact Hr]|].
  eapply runs_bind; [apply (select_run fuel r' CMOS_SHUT_DOWN); [exact HA' | rewrite En; reflexivity] | apply runs_ret].
Qed.

Lemma read_a (r : rtc W) : rtc_ok r -> attached r ->
  let b := at_ (cmos r) CMOS_REG_A in
  runs (cmos_read fuel CMOS_REG_A) r b (selected CMOS_SHUT_DOWN (stored CMOS_REG_A (b .& 0x7f) (selected CMOS_REG_A r))).
Proof.
  intros HO HA b. destruct (byte_at r CMOS_REG_A HO ltac:(unfold CMOS_REG_A; lia)) as (b' & Hb & Hbr).
  assert (Eb : b = b') by (unfold b, at_; rewrite Hb; reflexivity). rewrite Eb in *. set (r1 := selected CMOS_REG_A r).
  assert (HO1 : rtc_ok r1) by (apply selected_ok; [unfold CMOS_REG_A; lia | exact HO]).
  apply bios_read_run; try assumption; try reflexivity; [unfold CMOS_REG_A; lia | apply stored_attached, selected_attached, HA|].
  unfold cmos_inb. change (CMOS_DATA .& CMOS_BIT_MASK =? CMOS_DATA) with true. cbv iota.
  eapply runs_bind; [apply (runs_rd_register r1 b' HO1 Hb)|]. eapply runs_bind; [apply runs_getr|].
  change (cmos_index r1 =? CMOS_REG_A) with true. cbv iota. eapply runs_bind; [|apply runs_ret].
  eapply runs_bind; [apply runs_rd, Hb|]. eapply runs_eq; [apply runs_wr; rewrite (ok_len _ HO1); reflexivity|].
  unfold stored. f_equal. f_equal. unfold u8. rewrite <- Z.land_ones by lia. rewrite <- Z.land_assoc. reflexivity.
Qed.

Lemma read_b (r : rtc W) : rtc_ok r -> attached r ->
  runs (cmos_read fuel CMOS_REG_B) r (at_ (cmos r) CMOS_REG_B) (selected CMOS_SHUT_DOWN (selected CMOS_REG_B r)).
Proof.
  intros HO HA. destruct (byte_at r CMOS_REG_B HO ltac:(unfold CMOS_REG_B; lia)) as (b & Hb & Hbr).
  assert (Eb : at_ (cmos r) CMOS_REG_B = b) by (unfold at_; rewrite Hb; reflexivity). rewrite Eb. set (r1 := selected CMOS_REG_B r).
  assert (HO1 : rtc_ok r1) by (apply selected_ok; [unfold CMOS_REG_B; lia | exact HO]).
  apply bios_read_run; try assumption; try reflexivity; [unfold CMOS_REG_B; lia | apply selected_attached, HA|].
  unfold cmos_inb. change (CMOS_DATA .& CMOS_BIT_MASK =? CMOS_DATA) with true. cbv iota.
  eapply runs_bind; [apply (runs_rd_register r1 b HO1 Hb)|]. eapply runs_bind; [apply runs_getr | apply runs_ret].
Qed.

(** And a register of the clock. *)
Lemma read_t (r : rtc W) i v : rtc_ok r -> attached r -> i = CMOS_SECONDS \/ i = CMOS_MINUTES \/ i = CMOS_HOURS ->
  time_register (chip_of r) i = Some v ->
  runs (cmos_read fuel i) r v (selected CMOS_SHUT_DOWN (stored i v (selected i r))).
Proof.
  intros HO HA Hi Ht. assert (Hi' : 0 <= i < 64) by (unfold CMOS_SECONDS, CMOS_MINUTES, CMOS_HOURS in Hi; lia).
  pose proof (time_byte _ _ _ Ht) as Hv. pose proof (selected_ok i r Hi' HO) as HO1.
  apply bios_read_run; try assumption; [apply stored_attached, selected_attached, HA | destruct Hi as [-> | [-> | ->]]; reflexivity.. |].
  pose proof (inb_time (E := E) (chip_of (selected i r)) (selected i r) CMOS_DATA unset v (shows_chip_of _ HO1) eq_refl Ht) as HT.
  cbn [cmos_index selected SET_cmos_index SET_cmos_register] in HT. rewrite u8_small in HT by lia. exact HT.
Qed.

Lemma put_run_reg f (r : rtc W) : runs (E := E) (put_reg f) r tt (with_reg f r).
Proof. apply runs_modr. Qed.

(** One register read and one of the processor's set. *)
Lemma time_step (r : rtc W) i v f : rtc_ok r -> attached r -> i = CMOS_SECONDS \/ i = CMOS_MINUTES \/ i = CMOS_HOURS ->
  time_register (chip_of r) i = Some v -> keeps_mode f ->
  let r' := with_reg f (selected CMOS_SHUT_DOWN (stored i v (selected i r))) in
  rtc_ok r' /\ attached r' /\ runs (cmos_read fuel i) r v (selected CMOS_SHUT_DOWN (stored i v (selected i r))).
Proof.
  intros HO HA Hi Ht Hf r'. assert (Hi' : 0 <= i < 64) by (unfold CMOS_SECONDS, CMOS_MINUTES, CMOS_HOURS in Hi; lia).
  split; [|split].
  - apply with_reg_ok, selected_ok; [unfold CMOS_SHUT_DOWN; lia|]. apply stored_ok; [exact (time_byte _ _ _ Ht)|]. apply selected_ok; assumption.
  - apply with_reg_attached; [exact Hf|]. apply selected_attached, stored_attached, selected_attached, HA.
  - apply read_t; assumption.
Qed.

Lemma keeps_mode_byte i v : 0 <= i < 8 -> keeps_mode (SET_BR i v).
Proof. intros Hi c. reg_cases i; repeat split. Qed.

(** The processor as a read of the clock leaves it. *)
Definition clock_regs (c : chip) (b : Z) (p : cpu) : cpu :=
  Regs.c_setAH 0 (Regs.c_setCF 0 (Regs.c_setCH (hours c (tm_hour (clock c))) (Regs.c_setCL (number c (tm_min (clock c)))
    (Regs.c_setDL (b .& 1) (Regs.c_setDH (number c (tm_sec (clock c))) p))))).

Lemma with_reg_twice f g (r : rtc W) : with_reg g (with_reg f r) = with_reg (fun c => g (f c)) r.
Proof. unfold with_reg. cbn. rewrite the_put, put_put. reflexivity. Qed.

(** The four reads, between updates. *)
Lemma four_reads (r : rtc W) : rtc_ok r -> attached r ->
  exists c, runs (v <- cmos_read fuel CMOS_SECONDS ;; put_reg (Regs.c_setDH v) ;;
    v <- cmos_read fuel CMOS_REG_B ;; put_reg (Regs.c_setDL (v .& 1)) ;;
    v <- cmos_read fuel CMOS_MINUTES ;; put_reg (Regs.c_setCL v) ;;
    v <- cmos_read fuel CMOS_HOURS ;; put_reg (Regs.c_setCH v) ;;
    put_reg (Regs.c_setCF 0)) r tt
    (with_reg (fun p => Regs.c_setCF 0 (Regs.c_setCH (hours (chip_of r) (tm_hour (result r))) (Regs.c_setCL (number (chip_of r) (tm_min (result r)))
      (Regs.c_setDL (at_ (cmos r) CMOS_REG_B .& 1) (Regs.c_setDH (number (chip_of r) (tm_sec (result r))) p)))))
      (selected CMOS_SHUT_DOWN (SET_cmos c r)))
  /\ at_ c CMOS_REG_A = at_ (cmos r) CMOS_REG_A.
Proof.
  intros HO HA. set (k := chip_of r). set (b := at_ (cmos r) CMOS_REG_B).
  destruct (time_step r CMOS_SECONDS (number k (tm_sec (clock k))) (Regs.c_setDH (number k (tm_sec (clock k)))) HO HA (or_introl eq_refl) eq_refl (keeps_mode_byte 6 _ ltac:(lia))) as (O1 & A1 & R1).
  set (r1 := with_reg _ _) in O1, A1, R1.
  assert (Eb : at_ (cmos r1) CMOS_REG_B = b) by (unfold at_; cbn; rewrite list_lookup_insert_ne by discriminate; reflexivity).
  set (r2 := with_reg (Regs.c_setDL (b .& 1)) (selected CMOS_SHUT_DOWN (selected CMOS_REG_B r1))).
  assert (O2 : rtc_ok r2) by (apply with_reg_ok, selected_ok; [unfold CMOS_SHUT_DOWN; lia|]; apply selected_ok; [unfold CMOS_REG_B; lia | exact O1]).
  assert (A2 : attached r2) by (apply with_reg_attached; [apply (keeps_mode_byte 2); lia | apply selected_attached, selected_attached, A1]).
  destruct (time_step r2 CMOS_MINUTES (number k (tm_min (clock k))) (Regs.c_setCL (number k (tm_min (clock k)))) O2 A2 ltac:(auto) eq_refl (keeps_mode_byte 1 _ ltac:(lia))) as (O3 & A3 & R3).
  set (r3 := with_reg _ _) in O3, A3, R3.
  destruct (time_step r3 CMOS_HOURS (hours k (tm_hour (clock k))) (Regs.c_setCH (hours k (tm_hour (clock k)))) O3 A3 ltac:(auto) eq_refl (keeps_mode_byte 5 _ ltac:(lia))) as (O4 & A4 & R4).
  set (r4 := with_reg _ _) in O4, A4, R4.
  exists (cmos r4). split.
  - pose proof (read_b r1 O1 A1) as Q2. rewrite Eb in Q2. eapply runs_eq.
    { eapply runs_bind; [exact R1|]. eapply runs_bind; [apply put_run_reg|]. eapply runs_bind; [exact Q2|]. eapply runs_bind; [apply put_run_reg|].
      eapply runs_bind; [exact R3|]. eapply runs_bind; [apply put_run_reg|]. eapply runs_bind; [exact R4|]. eapply runs_bind; apply put_run_reg. }
    unfold r4, r3, r2, r1. unfold with_reg. cbn. rewrite !the_put, !put_put. reflexivity.
  - unfold at_. cbn. rewrite !list_lookup_insert_ne by discriminate. reflexivity.
Qed.


End Clock.

(** ** A concrete machine *)

(** The processor, memory as bytes, and the statics. *)
Definition demo : Type := (cpu * (Z -> Z) * tod)%type.

#[local] Instance HasCpu_demo : HasCpu demo.
Proof. refine {| the_cpu := fun w => fst (fst w); put_cpu := fun c w => (c, snd (fst w), snd w) |}; intros; try reflexivity. destruct s as [[? ?] ?]; reflexivity. Defined.
#[local] Instance HasTod_demo : HasTod demo := {| the_tod := snd; put_tod t w := (fst w, t) |}.

Definition demo_poke (a v : Z) (w : demo) : demo := (fst (fst w), fun x => if x =? a then v else snd (fst w) x, snd w).
Definition demo_pokew (a v : Z) (w : demo) : demo := demo_poke (a + 1) (v / 256) (demo_poke a (v mod 256) w).
Definition demo_peek (a : Z) (w : demo) : Z := u8 (snd (fst w) a).
Definition demo_peekw (a : Z) (w : demo) : Z := demo_peek a w + 256 * demo_peek (a + 1) w.

#[local] Instance demo_config : Config :=
  {| gfx_adapter := 3; npx_enabled := true; floppy_a_device := true; gfi_drive_type d := if d =? 0 then 4 else 0;
     fixed_disk_type := 0x30; sas_memory_size := 0x1000000 |}.
#[local] Instance demo_env : Env unit demo :=
  {| ica_hw_interrupt := ret tt; time_of_host := ret 0; localtime _ := ret (Some afternoon);
     sas_store a v := modr (fun r => SET_machine (demo_poke a v (machine r)) r);
     sas_storew a v := modr (fun r => SET_machine (demo_pokew a v (machine r)) r);
     biosDoInst _ _ _ _ _ := undefined; selectors _ := None;
     others := {| Ios.dev_inb _ _ := undefined; Ios.dev_inw _ _ := undefined; Ios.dev_ind _ _ := undefined;
                  Ios.dev_outb _ _ _ := undefined; Ios.dev_outw _ _ _ := undefined; Ios.dev_outd _ _ _ := undefined |};
     unset := 0 |}.
Definition instant : host_timeval := mkTime 1000000000 250000.
#[local] Instance demo_tod_env : TodEnv unit demo :=
  {| host_gettimeofday := ret instant; host_error _ := ret tt;
     sas_load a := getr (fun r => demo_peek a (machine r)); sas_loadw a := getr (fun r => demo_peekw a (machine r));
     sas_dw_at a := ret 0; fla_busy := ret true; exec_sw_interrupt _ _ := ret tt |}.
#[local] Instance demo_events : Callbacks unit (rtc demo) := {| call _ _ := ret tt; action_interrupt _ _ _ _ := ret tt |}.

#[local] Instance demo_memory : GuestMemory (E := unit) demo_poke demo_pokew.
Proof. split; reflexivity. Qed.

Lemma demo_apart a b v w : a <> b -> demo_peek b (demo_poke a v w) = demo_peek b w.
Proof. intros Hne. unfold demo_peek, demo_poke. cbn. rewrite (proj2 (Z.eqb_neq b a)) by lia. reflexivity. Qed.
Lemma demo_same a v w : demo_peek a (demo_poke a v w) = u8 v.
Proof. unfold demo_peek, demo_poke. cbn. rewrite Z.eqb_refl. reflexivity. Qed.

#[local] Instance demo_bytes : GuestBytes (E := unit) (poke := demo_poke) (pokew := demo_pokew) demo_peek demo_peekw.
Proof.
  split; unfold demo_peekw, demo_pokew; intros.
  - destruct s; reflexivity.
  - pose proof (u8_range (snd (fst w) a)). pose proof (u8_range (snd (fst w) (a + 1))). unfold demo_peek. lia.
  - rewrite demo_same, !demo_apart, demo_same by lia. rewrite !u8_small; Z.div_mod_to_equations; lia.
  - rewrite !demo_apart by lia. reflexivity.
  - rewrite demo_same. apply u8_small. lia.
  - rewrite !demo_apart by lia. reflexivity.
  - rewrite !demo_apart by lia. reflexivity.
Qed.

Definition demo_chip (ah : Z) (t : tod) (m : Z -> Z) : rtc demo :=
  mkRtc Cmos.demo_bytes 0 0 true true (Some yes) (Some yes) (Some no) (Some no)
    false 0 true afternoon 976 0 1 0 0 [] demo_bus (SET_GR 0 (ah * 256) cpu0, m, t).

(** Two ticks before midnight. *)
Definition evening (a : Z) : Z := if a =? TIMER_LOW then 0xae else if a =? TIMER_HIGH then 0x18 else 0.
Definition no_stamp : tod := mkTod (mkTime 0 0) 0 0 0.

Lemma day_counted_witness :
  let r := demo_chip 0 no_stamp evening in
  exists w, runs (E := unit) (count_ticks 5) r tt (SET_machine w r)
  /\ day_count (peekw := demo_peekw) w = 3 /\ demo_peek TIMER_OVFL w = 1.
Proof.
  destruct (day_counted (E := unit) (peek := demo_peek) (peekw := demo_peekw) 5 (demo_chip 0 no_stamp evening)) as (w & R & C & O).
  - split; [discriminate | reflexivity].
  - exists w. split; [exact R|]. split; [exact C | exact O].
Defined.

Lemma time_read_back_witness :
  exists low' high' r', runs (E := unit) (write_host_timestamp 40000 3 ;; get_host_timestamp) (demo_chip 0 no_stamp evening) (low', high', 0) r'
  /\ - 91 <= 2 ^ 16 * 3 + 40000 - (2 ^ 16 * high' + low') <= 93.
Proof.
  apply (time_read_back (E := unit) instant).
  - intros s. reflexivity.
  - reflexivity.
  - split; cbn; lia.
  - lia.
  - lia.
  - reflexivity.
Defined.


(** ** What the code does *)

(** Nineteen ticks come back as eighteen. *)
Lemma nineteen_ticks : interval_ticks (carried (ticks_interval 19 0)) = 18.
Proof. reflexivity. Qed.

(** Where the product overflows the interval jumps by five seconds. *)
Lemma overflow_jump : ticks_interval 39098 0 = mkTime 2147 477199 /\ carried (ticks_interval 39099 0) = mkTime 2152 564828.
Proof. split; reflexivity. Qed.

(** With the host's clock set back a hundred seconds the count is no time of day. *)
Lemma clock_set_back :
  let stamp := mkTod (mkTime 1000000100 250000) 0 0 0 in
  match get_host_timestamp (mkSched (quick Qev.fresh) (tick Qev.fresh) 0 0 [] (cal Qev.fresh) (int_act_qhead Qev.fresh) [] 0 (demo_chip 0 stamp evening)) with
  | Ret (low, high, overflow) _ => (DAY <? 2 ^ 16 * high + low) = true
  | _ => False
  end.
Proof. vm_compute. reflexivity. Qed.

End Tod.
